(* ===== verification/_CoqProject ===== *)
-Q . S2P
Prelude.v
Hosts.v
Net.v
Acl.v
CacheEntry.v
L1Cache.v
L2Cache.v
MissCoalesce.v
Float64.v
Http.v
RateLimit.v
PolicyCache.v
AclApi.v
Inspection.v
Utf8.v
Bytes.v
CacheDigest.v
PeerProtocols.v
Peers.v
Hierarchy.v
Discovery.v
ThreatScore.v
Categorization.v
Pinning.v
Policy.v
Dns.v
RpzApi.v
Sessions.v
SemanticCache.v
ClickHouse.v
Auth.v
ReverseProxy.v
Devices.v
AgentCrl.v
Effects.v
AlertWorker.v
MlScoring.v
MlWorker.v
ProxyService.v
AgentPolicy.v
ControlConfig.v
AgentApi.v
Tls.v
ControlApi.v
ControlAccess.v
Icap.v
EventStores.v
Indexer.v
EventPipeline.v
WasmHost.v
SspiAuth.v
PeerFetch.v
DnsStart.v
Ebpf.v
EndpointAgent.v
Pipeline.v
Connect.v
System.v
