(* ===== verification/Prelude.v ===== *)
(** * A verification development for bsdm-proxy

    bsdm-proxy is a caching, filtering forward and reverse proxy with its control
    plane.  A request passes the reverse proxy's gate, authentication, the rate
    limiter, a WASM hook and the policy (ACL, categories, threat scores, cached
    decisions); then the caches (L1 in memory, L2 in Redis, a cache of LLM answers);
    then, on a miss, coalescing with equal misses, the DLP scan of its body, ICAP,
    the hierarchy of peer caches and the origin; and its response is streamed or
    buffered, stored, and reported as an event.  Operators and endpoint agents use
    the control plane, which edits the same components.  Clients that send CONNECT
    get a tunnel or an intercepted TLS session, whose requests take the same path.
    Beside the proxy run a DNS sinkhole that serves the zone compiled by the RPZ API,
    an indexer that stores the proxy's events and searches them, an alert worker that
    posts findings over the request log to a webhook, a machine-learning worker whose
    scores the proxy polls and enforces, a packet filter in the kernel, and on the
    endpoints an agent that follows the policy the control plane publishes.

    ** Conventions

    Definitions carry the names of the Rust items they translate.  Unsigned
    integers are [N] with their wrap-around and saturation written out, times are
    [N] in nanoseconds, floats are binary64 and binary32 of Stdlib's [SpecFloat],
    strings and byte strings are [string], [HashMap] and [HashSet] are [gmap] and
    [gset].  State is passed explicitly; [result] is Rust's; an outer [option] is
    [None] where the code panics.  Clocks, random numbers, iteration orders of hash
    tables, file contents and replies of services are arguments.  Third-party crates
    (regex, quick_cache, zstd and brotli, sha2, base64, aho-corasick, serde_json,
    url, http, ldap3, sspi) are classes, with what their documentation promises as a
    class of laws; every theorem that uses laws has a witness with an instance.

    ** Files and sources (under src/proxy/src/ unless said otherwise)

    - Prelude, Hosts, Net, Bytes, Utf8, Float64: the standard library as the sources
      use it: text, integers, parsing of numbers, addresses, host names, UTF-8,
      floats; eviction; shared tactics and hints.
    - Acl: acl.rs (rules, matchers, [check_access], the copy-on-write handle).
      AclApi: acl_api.rs, acl_config.rs, security_util.rs.
    - CacheEntry: cache.rs, cache_body.rs, cache_compress.rs, cache_freshness.rs.
      L1Cache: sharded_cache.rs, tag_index.rs.  L2Cache: l2_cache.rs,
      streaming_miss.rs.  MissCoalesce: miss_coalesce.rs.
    - Http: header maps.  RateLimit: rate_limit.rs.  PolicyCache: policy_cache.rs.
      Inspection: dlp.rs, casb.rs.
    - CacheDigest: cache_digest.rs, cache_key.rs.  PeerProtocols: icp.rs, htcp.rs.
      Peers: peers.rs, selection.rs.  Hierarchy: hierarchy.rs.  Discovery:
      hierarchy_config.rs, peer_discovery.rs.
    - ThreatScore: threat_score_cache.rs.  Categorization: categorization.rs.
      Pinning: pinning.rs.  Policy: policy_config.rs and the policy part of
      proxy_service.rs.
    - Dns: src/dns-sinkhole/src/ dns.rs, zone.rs, server.rs, doh_dot.rs.  DnsStart:
      its config.rs and main.rs, with the admin port.  RpzApi: rpz_api.rs.
    - Sessions: session.rs, session_store.rs.  SemanticCache: semantic_cache.rs.
      Auth: auth.rs.  SspiAuth: auth_config.rs, auth_sspi.rs, as an instance of the
      engine Auth is proved against.  ReverseProxy: reverse_proxy.rs.  PeerFetch:
      peer_fetch.rs.
    - Effects: programs over commands, their runs, and the logic of protocols.
      ProxyService: [handle_request] of proxy_service.rs with all its stages, and
      perf.rs, as a program whose commands go to the shared components.
    - Pipeline: what holds in every run of a request, whatever the components
      answer and other requests do in between.  System: the components wired
      together as the answers to the commands.
    - Devices: device_registry.rs, with Redis as a store whose every command may be
      refused or lose its reply.  AgentCrl: agent_crl.rs, agent_ocsp.rs.
      AgentPolicy: agent_policy_hub.rs, agent_events.rs.  AgentApi: agent_api.rs.
    - ControlConfig: runtime_config.rs, security_defaults.rs, threat_sync.rs,
      amneziawg.rs.  Tls: tls.rs, control_mtls.rs, the staples of agent_ocsp.rs.
      ControlApi: control_api.rs, control_grpc.rs, search_proxy.rs,
      upstream.rs, and the ports of server.rs, as one state that the handlers
      change.  ControlAccess: what holds of them.
    - Icap: icap.rs, its requests and the reader of responses over network segments.
      Connect: client connections of server.rs, with CONNECT, the tunnel and the
      intercepted session, as programs around [handle_request].
    - ClickHouse: clickhouse.rs of the two workers.  AlertWorker:
      src/alert-worker/src/, with the inputs of a cycle as a record.  MlScoring and
      MlWorker: src/ml-worker/src/, the models in binary64 and the cycles as
      programs over commands.
    - EventStores: src/bsdm-events/src/ and the stores of src/cache-indexer/src/.
      Indexer: the search API, the admin port and the Kafka consumer of
      src/cache-indexer/src/.  EventPipeline: pipeline.rs, the queue between requests
      and Kafka or the indexer.
    - WasmHost: wasm_host.rs, src/bsdm-wasm-sdk/, src/examples/wasm/rust_plugin/.
      Ebpf: ebpf.rs, src/bpf/xdp_drop.c.  EndpointAgent: src/examples/agent-spike/src/.

    ** What the theorems show

    - Pipeline: nothing is looked up, fetched or sent before the limiter and the
      policy admitted the request, and a denial is what the client gets; no body
      leaves unscanned; every flight a request leads is completed; caches are used
      only under the request's own keys; every stored entry is a storable response
      that was sent for it, or an entry read before.
    - System: with all components wired together every request of a sequence is
      answered, without panic and without waiting for ever, and every table stays
      within its bound.
    - Connect: no CONNECT reaches a host before the limiter and the policy admitted
      it, every request of an intercepted session goes through the whole pipeline
      and only to the host of the CONNECT; and the defect that a capital letter or a
      trailing dot evades domain rules.
    - Tls: every intercepted domain gets a configuration for its own certificate,
      however tasks interleave over the caches; agent certificates are what the
      request and the CA say.  Icap: a chunked verdict is read back however the
      network cuts it.
    - Workers: the alert worker's deduplication is exact against the history of its
      posts, and its counters balance; every score of the models is a number in its
      range, with a clip that is not infinite and finite baselines; a cycle publishes
      exactly what it scored, and does not panic with accepted settings and a time to
      live whose dates exist; and a published score that reaches the threshold of the
      proxy denies the requests it is about.
    - Events: once a process of the indexer drains the topic every event the broker
      took has exactly one row in SQLite, whatever crashed before; the stores agree;
      in a production profile nothing is read or changed without a token.
    - Extensions: whatever a WASM guest does, its hook can only deny, or set
      well-formed headers; the XDP program drops exactly the blocked addresses and
      stays within the frame.
    - Endpoint agent: it enforces what the control plane published, follows the
      versions of the hub, its events are accepted, its policy always comes from the
      control plane or is the built-in one, and on Linux its files for the system proxy
      are gone after a session.
    - Authorization: the rules engine refines the specification "first matching
      rule by priority"; the policy allows exactly what the ACL, the categories and
      the scores allow; interception happens exactly when configured; nobody is
      admitted on stale credentials, nor by NTLM without the helper's word; OIDC
      logins need every check; the ACL API acts only with its token.
    - Caches: a hit serves the body the origin sent; entries survive Redis; the
      store decision and the lifetimes; L1 and its tag index agree; a purge removes
      exactly the tagged entries; followers get their leader's outcome.
    - Bounds: token buckets decide exactly, and tables of the limiter, sessions,
      policy and index are bounded.
    - Peers: datagrams and announcements are read back; a sibling hit is one the
      sibling reported; digests have no false negatives; the registry's invariant;
      with mutual TLS set nothing is sent to a peer in the clear.
    - DNS: every packet is answered (compression loops included), questions are read
      back, a listed name is never forwarded; once the compiled zone is written and
      reloaded, exactly the names the lists and rules name are blocked; and a zone
      served is always one that was parsed whole.
    - Control plane: without the control token only the agents' part of the state
      can change, and without any credential nothing; device tokens refine their
      specification; a revoked device is refused everywhere on its node; what is
      said to be persisted survives a restart; applied settings are read back; a
      purge by tag reaches both tiers; and the defects found on the way, as
      theorems (files served to anybody, revocations undone by other nodes).
    - LLM cache: accepted embeddings have one length and bounded similarity, the
      near hit is the nearest, and what makes two bodies equal.
    - Theorems that record defects of the code say so in their comments: what an
      LDAP bind's result code does not do, a truncated stream that is cached, a
      streamed LLM answer that is never stored, and others in their components.

    ** Fuel and bounds

    [read_name_loop] of Dns takes the fuel [name_fuel], which is enough for every
    packet ([dns_processing_total]); a DoT connection takes the length of its
    input, as does the chunked decoder of Icap ([decode_chunked_fuel]); the
    hexadecimal printer of Icap takes the number of digits. Every other recursion
    is structural. Nothing is proved only for runs that end: [proxy_answers_all]
    gives the answers. The floats of RateLimit are proved exact for bursts up to
    1000.

    ** Interleaving

    Components are functions of their state.  Where requests interleave, the
    theorems quantify over runs: MissCoalesce and the handle of Acl are step
    relations, Auth, Peers and L1Cache have reachability relations, and in Pipeline
    a run of a request is any sequence of answers to its commands, as are the runs of
    a connection in Connect and of a cycle in MlWorker.  Tls lets any number of tasks
    take turns over the certificate caches.  EventPipeline lets tasks and the worker
    take turns over the queue, Indexer takes deliveries, crashes and redeliveries in
    any order, DnsStart changes of the zone file, reloads and queries.  System serves
    requests one after the other.

    ** Not modelled

    Sockets, listeners, the TLS handshake and record layer (rustls), timers, and the
    wiring of the programs (main.rs of the proxy and of the workers, the rest of
    server.rs): I/O, and construction of the components.  The metrics registries:
    counters without effect on the answers.  What wasmtime, the sspi crate, bpftool,
    Kafka and the databases do inside.  The user interfaces are browser programs over
    the control API; charts, packaging and test harnesses are not part of the
    programs. *)

From Stdlib Require Import Ascii String NArith ZArith Lia Sorting.Sorted Sorting.Permutation.
From stdpp Require Import base option gmap sets strings pretty numbers list.

#[global] Arguments String.append !s1 s2 / : simpl nomatch.

Declare Scope rust_scope.
Delimit Scope rust_scope with rust.

(** ** Results and the error monad of fallible code *)

Inductive result (A E : Type) : Type :=
| Ok (a : A)
| Err (e : E).
Arguments Ok {A E} a.
Arguments Err {A E} e.

Definition is_ok {A E} (r : result A E) : bool :=
  match r with Ok _ => true | Err _ => false end.

Definition res_ok {A E} (r : result A E) : option A :=
  match r with Ok a => Some a | Err _ => None end.

Definition res_bind {A B E} (r : result A E) (f : A -> result B E) : result B E :=
  match r with Ok a => f a | Err e => Err e end.

Notation "'let?' x ':=' m 'in' f" := (res_bind m (fun x => f))
  (at level 10, x pattern, m at level 100, f at level 200) : rust_scope.

Lemma Ok_inj {A E} (a b : A) : @Ok A E a = Ok b -> a = b.
Proof. congruence. Qed.

Lemma res_bind_Ok {A B E} (r : result A E) (f : A -> result B E) b :
  res_bind r f = Ok b -> exists a, r = Ok a /\ f a = Ok b.
Proof. destruct r as [a|e]; [|done]. intros H. by exists a. Qed.

(** ** Machine-width unsigned integers *)

Definition u8_max : N := 255.
Definition u16_max : N := 65535.
Definition u32_max : N := 4294967295.
Definition u64_max : N := 18446744073709551615.
Definition usize_max : N := u64_max.

(** [Wrapping] truncation to [w] bits (Rust's [as] between unsigned types). *)
Definition wrap (w : N) (x : N) : N := N.land x (N.ones w).

(** [saturating_sub] of an unsigned type is truncated subtraction on [N]. *)
Definition saturating_sub (x y : N) : N := x - y.

Definition saturating_add (max x y : N) : N := N.min max (x + y).

(** ** Byte strings

    A Rust [&str] is modelled by its bytes, a [String.string].  Case folding
    ([to_ascii_lowercase], [to_lowercase]) and the whitespace of [trim] are
    those of ASCII; [to_lowercase] and [trim] agree with Rust on ASCII text. *)

Definition char_code (c : ascii) : N := N_of_ascii c.

Definition is_ascii_uppercase (c : ascii) : bool :=
  (65 <=? char_code c)%N && (char_code c <=? 90)%N.

Definition is_ascii_digit (c : ascii) : bool :=
  (48 <=? char_code c)%N && (char_code c <=? 57)%N.

Definition char_lower (c : ascii) : ascii :=
  if is_ascii_uppercase c then ascii_of_N (char_code c + 32) else c.

Fixpoint to_ascii_lowercase (s : string) : string :=
  match s with
  | EmptyString => EmptyString
  | String c s => String (char_lower c) (to_ascii_lowercase s)
  end.

Definition eq_ignore_ascii_case (s t : string) : bool :=
  String.eqb (to_ascii_lowercase s) (to_ascii_lowercase t).

Definition is_whitespace (c : ascii) : bool :=
  ((9 <=? char_code c)%N && (char_code c <=? 13)%N) || (char_code c =? 32)%N.

Fixpoint trim_start (s : string) : string :=
  match s with
  | EmptyString => EmptyString
  | String c s' => if is_whitespace c then trim_start s' else s
  end.

Fixpoint trim_end (s : string) : string :=
  match s with
  | EmptyString => EmptyString
  | String c s' =>
      match trim_end s' with
      | EmptyString => if is_whitespace c then EmptyString else String c EmptyString
      | t => String c t
      end
  end.

Definition trim (s : string) : string := trim_end (trim_start s).

Definition str_is_empty (s : string) : bool :=
  match s with EmptyString => true | _ => false end.

(** [str::rsplit_once]. *)
Fixpoint rsplit_once (d : ascii) (s : string) : option (string * string) :=
  match s with
  | EmptyString => None
  | String c s' =>
      match rsplit_once d s' with
      | Some (a, b) => Some (String c a, b)
      | None => if Ascii.eqb c d then Some (EmptyString, s') else None
      end
  end.

(** [str::split_once] on a character. *)
Fixpoint split_once (d : ascii) (s : string) : option (string * string) :=
  match s with
  | EmptyString => None
  | String c s' =>
      if Ascii.eqb c d then Some (EmptyString, s')
      else match split_once d s' with
           | Some (a, b) => Some (String c a, b)
           | None => None
           end
  end.

(** [str::split] on a character: never empty. *)
Fixpoint split_on (d : ascii) (s : string) : list string :=
  match s with
  | EmptyString => [EmptyString]
  | String c s' =>
      if Ascii.eqb c d then EmptyString :: split_on d s'
      else match split_on d s' with
           | h :: t => String c h :: t
           | [] => [String c EmptyString]
           end
  end.

Fixpoint strip_prefix (p s : string) : option string :=
  match p, s with
  | EmptyString, _ => Some s
  | String a p', String b s' => if Ascii.eqb a b then strip_prefix p' s' else None
  | String _ _, EmptyString => None
  end.

Definition starts_with (s p : string) : bool :=
  match strip_prefix p s with Some _ => true | None => false end.

Fixpoint ends_with (s suffix : string) : bool :=
  String.eqb s suffix ||
  match s with
  | EmptyString => false
  | String _ s' => ends_with s' suffix
  end.

(** [str::contains]. *)
Fixpoint str_contains (s pat : string) : bool :=
  starts_with s pat ||
  match s with
  | EmptyString => false
  | String _ s' => str_contains s' pat
  end.

(** [slice::join]. *)
Fixpoint join (sep : string) (l : list string) : string :=
  match l with
  | [] => EmptyString
  | [x] => x
  | x :: l' => (x +:+ sep +:+ join sep l')%string
  end.

(** [str::replace] of one character by another. *)
Fixpoint replace_char (a b : ascii) (s : string) : string :=
  match s with
  | EmptyString => EmptyString
  | String c s' => String (if Ascii.eqb c a then b else c) (replace_char a b s')
  end.

(** ** Parsing of unsigned decimals ([str::parse] of [u16], [u32], [u64], [usize]):
    an optional [+], at least one digit, no overflow. *)

(** [str::trim_end_matches] and [str::trim_start_matches] on a character. *)
Fixpoint trim_end_matches (d : ascii) (s : string) : string :=
  match s with
  | EmptyString => EmptyString
  | String c s' =>
      match trim_end_matches d s' with
      | EmptyString => if Ascii.eqb c d then EmptyString else String c EmptyString
      | t => String c t
      end
  end.

Fixpoint trim_start_matches (d : ascii) (s : string) : string :=
  match s with
  | String c s' => if Ascii.eqb c d then trim_start_matches d s' else s
  | EmptyString => EmptyString
  end.

Definition is_ascii_alphanumeric (c : ascii) : bool :=
  is_ascii_digit c || is_ascii_uppercase c || ((97 <=? char_code c)%N && (char_code c <=? 122)%N).

(** [str::split_whitespace]. *)
Fixpoint split_whitespace_go (cur : string) (s : string) : list string :=
  match s with
  | EmptyString => if str_is_empty cur then [] else [cur]
  | String c s' =>
      if is_whitespace c then
        if str_is_empty cur then split_whitespace_go EmptyString s'
        else cur :: split_whitespace_go EmptyString s'
      else split_whitespace_go (cur +:+ String c EmptyString) s'
  end.

Definition split_whitespace (s : string) : list string := split_whitespace_go EmptyString s.

(** [str::lines]. *)
Definition strip_cr (s : string) : string :=
  if ends_with s (String "013" EmptyString) then substring 0 (String.length s - 1) s else s.

Fixpoint lines_go (acc : string) (s : string) : list string :=
  match s with
  | EmptyString => if str_is_empty acc then [] else [acc]
  | String c s' =>
      if Ascii.eqb c "010" then strip_cr acc :: lines_go EmptyString s'
      else lines_go (acc +:+ String c EmptyString) s'
  end.

Definition str_lines (s : string) : list string := lines_go EmptyString s.

Fixpoint parse_digits (max acc : N) (s : string) : option N :=
  match s with
  | EmptyString => Some acc
  | String c s' =>
      if is_ascii_digit c then
        let acc' := (acc * 10 + (char_code c - 48))%N in
        if (acc' <=? max)%N then parse_digits max acc' s' else None
      else None
  end.

Definition parse_uint (max : N) (s : string) : option N :=
  match s with
  | EmptyString => None
  | String c EmptyString => if Ascii.eqb c "+"%char then None else parse_digits max 0 s
  | String c s' => if Ascii.eqb c "+"%char then parse_digits max 0 s' else parse_digits max 0 s
  end.

Definition parse_u16 := parse_uint u16_max.
Definition parse_u32 := parse_uint u32_max.
Definition parse_u64 := parse_uint u64_max.
Definition parse_usize := parse_uint usize_max.

(** [str::parse] of a signed type with bounds [min_abs] (the magnitude of the
    least value) and [max]. *)
Definition parse_int (min_abs max : N) (s : string) : option Z :=
  match s with
  | String c (String _ _ as s') =>
      if Ascii.eqb c "-"%char then (fun n => - Z.of_N n)%Z <$> parse_digits min_abs 0 s'
      else Z.of_N <$> parse_uint max s
  | _ => Z.of_N <$> parse_uint max s
  end.

Definition parse_i32 := parse_int 2147483648 2147483647.

(** The environment read by the [from_env] constructors ([std::env::var]). *)
Definition Env := string -> option string.

(** [env::var(name).ok().and_then(|s| s.parse().ok()).unwrap_or(default)]. *)
Definition env_parse {A} (parse : string -> option A) (env : Env) (name : string) (dflt : A) : A :=
  default dflt (env name ≫= parse).

(** [Path::join]: an absolute path replaces the base. *)
Definition path_join (base rel : string) : string :=
  if starts_with rel "/" || str_is_empty base then rel
  else if ends_with base "/" then base +:+ rel else base +:+ "/" +:+ rel.

(** A flag that is on unless set to [0], [false] or [no], and its dual. *)
Definition env_flag_default_on (env : Env) (name : string) : bool :=
  match env name with
  | Some v => negb (bool_decide (to_ascii_lowercase v ∈ ["0"; "false"; "no"]))
  | None => true
  end.

Definition env_flag_default_off (env : Env) (name : string) : bool :=
  match env name with
  | Some v => bool_decide (to_ascii_lowercase v ∈ ["1"; "true"; "yes"])
  | None => false
  end.

(** ** Time: [Duration], [Instant] and [SystemTime] in nanoseconds *)

Definition nanos_per_sec : N := 1000000000.
Definition from_secs (s : N) : N := s * nanos_per_sec.
Definition as_secs (d : N) : N := d / nanos_per_sec.

(** [SystemTime] and [Instant] on Unix count seconds in an [i64]; adding past it panics
    ([+]) or is refused ([checked_add]). *)
Definition max_system_time : N := 9223372036854775807 * nanos_per_sec + (nanos_per_sec - 1).

Definition checked_add_time (t d : N) : option N :=
  if (t + d <=? max_system_time)%N then Some (t + d)%N else None.

(** The length of a byte string. *)
Definition str_len (s : string) : N := N.of_nat (String.length s).

(** [Iterator::position]. *)
Fixpoint position {A} (P : A -> bool) (l : list A) : option nat :=
  match l with
  | [] => None
  | x :: l' => if P x then Some 0 else S <$> position P l'
  end.

(** ** Stable sorting by a decreasing key
    ([Vec::sort_by_key] with [std::cmp::Reverse], which is stable). *)

Section sort_desc.
Context {A : Type} (key : A -> N).

Fixpoint insert_desc (x : A) (l : list A) : list A :=
  match l with
  | [] => [x]
  | y :: l' => if (key y <=? key x)%N then x :: l else y :: insert_desc x l'
  end.

Fixpoint sort_desc (l : list A) : list A :=
  match l with
  | [] => []
  | x :: l' => insert_desc x (sort_desc l')
  end.

(** The reference selection: the first element of maximal key among those
    that satisfy [P]. *)
Fixpoint best (P : A -> bool) (l : list A) : option A :=
  match l with
  | [] => None
  | x :: l' =>
      if P x then
        match best P l' with
        | Some y => if (key y <=? key x)%N then Some x else Some y
        | None => Some x
        end
      else best P l'
  end.

End sort_desc.

(** ** Tables with a bounded number of keys

    Before a new key is inserted in a full table, the key that [pick] chooses is
    removed: the first of the [HashMap]'s iteration, the oldest entry, ... *)

Definition evict_for `{Countable K} {A} (pick : gmap K A -> option K) (max_keys : N) (key : K)
    (m : gmap K A) : gmap K A :=
  if (max_keys <=? N.of_nat (size m))%N && bool_decide (m !! key = None) then
    match pick m with
    | Some k => delete k m
    | None => m
    end
  else m.

(** What every such choice promises: a key of the table, when there is one. *)
Definition picks_key `{Countable K} {A} (pick : gmap K A -> option K) : Prop :=
  forall m, m <> ∅ -> exists k, pick m = Some k /\ is_Some (m !! k).

(** ** Automation *)

Create HintDb bsdm.
Create Rewrite HintDb bsdm.

(** Split the conjunctions and boolean connectives of the context. *)
Ltac bool_hyps :=
  repeat match goal with
  | H : (_ && _) = true |- _ => apply andb_true_iff in H; destruct H
  | H : (_ || _) = false |- _ => apply orb_false_iff in H; destruct H
  | H : negb _ = true |- _ => apply negb_true_iff in H
  | H : negb _ = false |- _ => apply negb_false_iff in H
  | H : (_ =? _)%N = true |- _ => apply N.eqb_eq in H
  | H : (_ =? _)%N = false |- _ => apply N.eqb_neq in H
  | H : (_ <=? _)%N = true |- _ => apply N.leb_le in H
  | H : (_ <=? _)%N = false |- _ => apply N.leb_gt in H
  | H : (_ <? _)%N = true |- _ => apply N.ltb_lt in H
  | H : (_ <? _)%N = false |- _ => apply N.ltb_ge in H
  | H : String.eqb _ _ = true |- _ => apply String.eqb_eq in H
  | H : String.eqb _ _ = false |- _ => apply String.eqb_neq in H
  end.

(** Case analysis on the scrutinee of a [match] or an [if] of the goal
    (respectively of a hypothesis), keeping the equation. *)
Ltac case_goal :=
  match goal with
  | |- context [match ?x with _ => _ end] => destruct x eqn:?
  end.

Ltac case_hyp H :=
  match type of H with
  | context [match ?x with _ => _ end] => destruct x eqn:?
  end.

(** ** Lemmas on byte strings *)

Lemma string_app_assoc (a b c : string) : ((a +:+ b) +:+ c = a +:+ (b +:+ c))%string.
Proof. induction a as [|x a IH]; [done|]. simpl. by rewrite IH. Qed.

Lemma string_app_nil_r (s : string) : (s +:+ EmptyString = s)%string.
Proof. induction s as [|c s IH]; [done|]. simpl. by rewrite IH. Qed.

Lemma string_length_app (a b : string) :
  String.length (a +:+ b) = String.length a + String.length b.
Proof. induction a as [|x a IH]; [done|]. simpl. by rewrite IH. Qed.

Lemma strip_prefix_Some (p s r : string) :
  strip_prefix p s = Some r <-> s = (p +:+ r)%string.
Proof.
  revert s; induction p as [|a p IH]; intros s; simpl; [naive_solver|].
  destruct s as [|b s]; [naive_solver|].
  destruct (Ascii.eqb_spec a b); naive_solver.
Qed.

Lemma starts_with_spec (s p : string) :
  starts_with s p = true <-> exists r, s = (p +:+ r)%string.
Proof.
  unfold starts_with. pose proof (strip_prefix_Some p s) as Hp.
  destruct (strip_prefix p s); naive_solver.
Qed.

Lemma ends_with_spec (s suf : string) :
  ends_with s suf = true <-> exists p, s = (p +:+ suf)%string.
Proof.
  induction s as [|c s IH]; cbn [ends_with]; rewrite orb_true_iff, String.eqb_eq.
  - split; [intros [<-|?]; [by exists EmptyString|done]|].
    intros [[|] ?]; by simplify_eq/=; auto.
  - rewrite IH. split.
    + intros [<-|[p ->]]; [by exists EmptyString|by exists (String c p)].
    + intros [[|c' p] H]; simplify_eq/=; eauto.
Qed.

Lemma str_contains_spec (s pat : string) :
  str_contains s pat = true <-> exists pre post, s = pre +:+ pat +:+ post.
Proof.
  induction s as [|c s IH]; cbn [str_contains]; rewrite orb_true_iff, starts_with_spec.
  - split.
    + intros [[r Hr]|?]; [|done]. by exists EmptyString, r.
    + intros ([|] & post & Hs); simplify_eq/=; eauto.
  - rewrite IH. split.
    + intros [[r Hr]|(pre & post & ->)]; [by exists EmptyString, r|by exists (String c pre), post].
    + intros ([|c' pre] & post & Hs); simplify_eq/=; eauto.
Qed.

Lemma ends_with_refl (s : string) : ends_with s s = true.
Proof. apply ends_with_spec. by exists EmptyString. Qed.

Lemma char_lower_idemp (c : ascii) : char_lower (char_lower c) = char_lower c.
Proof. destruct c as [[] [] [] [] [] [] [] []]; reflexivity. Qed.

Lemma to_ascii_lowercase_idemp (s : string) :
  to_ascii_lowercase (to_ascii_lowercase s) = to_ascii_lowercase s.
Proof. induction s; simpl; rewrite ?char_lower_idemp; congruence. Qed.

Lemma to_ascii_lowercase_app (a b : string) :
  to_ascii_lowercase (a +:+ b) = (to_ascii_lowercase a +:+ to_ascii_lowercase b)%string.
Proof. induction a as [|x a IH]; [done|]. simpl. by rewrite IH. Qed.

Lemma eq_ignore_ascii_case_refl (s : string) : eq_ignore_ascii_case s s = true.
Proof. apply String.eqb_refl. Qed.

Lemma eq_ignore_ascii_case_sym (s t : string) :
  eq_ignore_ascii_case s t = eq_ignore_ascii_case t s.
Proof. apply String.eqb_sym. Qed.

(** [trim] removes exactly a whitespace prefix and a whitespace suffix. *)
Fixpoint all_chars (P : ascii -> bool) (s : string) : bool :=
  match s with
  | EmptyString => true
  | String c s' => P c && all_chars P s'
  end.

Lemma all_chars_app P (a b : string) :
  all_chars P (a +:+ b) = all_chars P a && all_chars P b.
Proof. induction a; simpl; rewrite ?IHa, ?andb_assoc; done. Qed.

Lemma trim_end_cons (c : ascii) (s : string) :
  is_whitespace c = false -> trim_end (String c s) = String c (trim_end s).
Proof. intros H. simpl. rewrite H. by destruct (trim_end s). Qed.

Lemma trim_start_idemp (s : string) : trim_start (trim_start s) = trim_start s.
Proof.
  induction s as [|c s IH]; simpl; [done|].
  destruct (is_whitespace c) eqn:Hc; [done|]. simpl. by rewrite Hc.
Qed.

Lemma trim_end_idemp (s : string) : trim_end (trim_end s) = trim_end s.
Proof.
  induction s as [|c s IH]; simpl; [done|].
  destruct (trim_end s) as [|c' t] eqn:Ht.
  - destruct (is_whitespace c) eqn:Hc; simpl; rewrite ?Hc; done.
  - simpl in *. by rewrite IH.
Qed.

Lemma trim_start_trim_end (s : string) :
  trim_start s = s -> trim_start (trim_end s) = trim_end s.
Proof.
  destruct s as [|c s]; simpl; [done|].
  destruct (is_whitespace c) eqn:Hc; intros H.
  - exfalso. assert (Hlen : String.length (trim_start s) <= String.length s).
    { clear. induction s as [|c s IH]; simpl; [done|]. destruct (is_whitespace c); simpl; lia. }
    rewrite H in Hlen. simpl in Hlen. lia.
  - destruct (trim_end s) as [|c' t]; simpl; by rewrite Hc.
Qed.

Lemma trim_idemp (s : string) : trim (trim s) = trim s.
Proof.
  unfold trim. rewrite trim_start_trim_end by apply trim_start_idemp.
  apply trim_end_idemp.
Qed.

(** A string without the separator is its own only part; parts joined by the
    separator split back into themselves. *)
Definition free_of (d : ascii) (s : string) : bool :=
  all_chars (fun c => negb (Ascii.eqb c d)) s.

Lemma split_on_free d s : free_of d s = true -> split_on d s = [s].
Proof.
  unfold free_of. induction s as [|c s IH]; simpl; [done|].
  intros H. bool_hyps. rewrite H. by rewrite IH.
Qed.

Lemma split_on_app d a b :
  free_of d a = true ->
  split_on d (a +:+ String d b) = a :: split_on d b.
Proof.
  unfold free_of. induction a as [|c a IH]; simpl; intros H.
  - by rewrite Ascii.eqb_refl.
  - bool_hyps. rewrite H. by rewrite IH.
Qed.

Lemma split_on_join d l :
  l <> [] -> Forall (fun s => free_of d s = true) l ->
  split_on d (join (String d EmptyString) l) = l.
Proof.
  induction l as [|x l IH]; [done|]. intros _ [Hx Hl]%Forall_cons_1.
  destruct l as [|y l]; simpl; [by apply split_on_free|].
  rewrite split_on_app by done. f_equal. by apply IH.
Qed.

Lemma split_once_Some d s a b :
  split_once d s = Some (a, b) <-> s = a +:+ String d b /\ free_of d a = true.
Proof.
  unfold free_of. revert a b; induction s as [|c s IH]; intros a b; simpl.
  - split; [done|]. intros [? _]. by destruct a.
  - destruct (Ascii.eqb_spec c d) as [->|Hne].
    + split; [intros; by simplify_eq/=|]. intros [H1 H2]. destruct a as [|c a]; simplify_eq/=; [done|].
      by rewrite Ascii.eqb_refl in H2.
    + destruct (split_once d s) as [[a' b']|].
      * split.
        -- intros ?; simplify_eq/=. destruct (proj1 (IH a' b) eq_refl) as [-> ?]. split; [done|].
           simpl. by rewrite (proj2 (Ascii.eqb_neq c d) Hne).
        -- intros [H1 H2]. destruct a as [|c' a]; simplify_eq/=. bool_hyps.
           pose proof (proj2 (IH a b) (conj eq_refl H0)). by simplify_eq.
      * split; [done|]. intros [H1 H2]. destruct a as [|c' a]; simplify_eq/=. bool_hyps.
        discriminate (proj2 (IH a b) (conj eq_refl H0)).
Qed.

Lemma split_once_free d a b : free_of d a = true -> split_once d (a +:+ String d b) = Some (a, b).
Proof. intros H. by apply split_once_Some. Qed.

(** ** Lemmas on stable sorting *)

Section sort_desc_lemmas.
Context {A : Type} (key : A -> N).
Implicit Types (l : list A) (x y : A).

Abbreviation desc := (fun x y => (key y <= key x)%N).

Lemma insert_desc_Permutation x l : Permutation (insert_desc key x l) (x :: l).
Proof.
  induction l as [|y l IH]; simpl; [done|]. case_goal; [done|].
  rewrite IH. constructor.
Qed.

Lemma sort_desc_Permutation l : Permutation (sort_desc key l) l.
Proof. induction l as [|x l IH]; simpl; [done|]. by rewrite insert_desc_Permutation, IH. Qed.

Lemma insert_desc_Sorted x l :
  StronglySorted desc l -> StronglySorted desc (insert_desc key x l).
Proof.
  induction 1 as [|y l Hl IH Hy]; simpl; [repeat constructor|].
  case_goal; bool_hyps.
  - constructor; [by constructor|]. constructor; [done|].
    eapply Forall_impl; [exact Hy|]; simpl; lia.
  - constructor; [done|]. rewrite insert_desc_Permutation. constructor; [lia|done].
Qed.

Lemma sort_desc_Sorted l : StronglySorted desc (sort_desc key l).
Proof. induction l; simpl; [constructor|]. by apply insert_desc_Sorted. Qed.

Lemma sort_desc_id l : StronglySorted desc l -> sort_desc key l = l.
Proof.
  induction 1 as [|x l Hl IH Hx]; simpl; [done|]. rewrite IH.
  destruct Hx as [|y l Hy _]; simpl; [done|]. by rewrite (proj2 (N.leb_le _ _) Hy).
Qed.

Lemma filter_Sorted (P : A -> bool) l :
  StronglySorted desc l -> StronglySorted desc (List.filter P l).
Proof.
  induction 1 as [|x l Hl IH Hx]; simpl; [constructor|]. case_goal; [|done].
  constructor; [done|]. apply List.Forall_forall. intros y [Hy _]%List.filter_In.
  by apply (proj1 (List.Forall_forall _ _) Hx).
Qed.

Lemma find_insert_desc (P : A -> bool) x l :
  StronglySorted desc l ->
  List.find P (insert_desc key x l) =
    if P x then
      match List.find P l with
      | Some y => if (key y <=? key x)%N then Some x else Some y
      | None => Some x
      end
    else List.find P l.
Proof.
  induction 1 as [|y l Hl IH Hy]; simpl; [done|].
  destruct (N.leb_spec (key y) (key x)) as [Hle|Hlt]; simpl.
  - destruct (P x), (P y) eqn:Py; simpl; rewrite ?(proj2 (N.leb_le _ _) Hle); try done.
    destruct (List.find P l) as [z|] eqn:Hf; [|done].
    apply List.find_some in Hf as [Hin _].
    assert (key z <= key y)%N by (by apply (proj1 (List.Forall_forall _ _) Hy)).
    by rewrite (proj2 (N.leb_le _ _)) by lia.
  - rewrite IH. destruct (P y); [|done]. destruct (P x); [|done].
    by rewrite (proj2 (N.leb_gt _ _) Hlt).
Qed.

(** The first match in the sorted list is the reference selection. *)
Lemma find_sort_desc (P : A -> bool) l : List.find P (sort_desc key l) = best key P l.
Proof.
  induction l as [|x l IH]; simpl; [done|].
  rewrite find_insert_desc by apply sort_desc_Sorted. by rewrite IH.
Qed.

Lemma best_Some (P : A -> bool) l x :
  best key P l = Some x ->
  In x l /\ P x = true /\ (forall y, In y l -> P y = true -> key y <= key x)%N.
Proof.
  revert x; induction l as [|z l IH]; intros x; simpl; [done|].
  destruct (P z) eqn:Pz.
  2: { intros (?&?&?)%IH. split_and!; auto. intros y [<-|Hy] Py; [congruence|auto]. }
  destruct (best key P l) as [w|] eqn:Hb.
  - destruct (IH w eq_refl) as (?&?&?). case_goal; bool_hyps; intros [= <-]; (split_and!; auto).
    + intros y [<-|Hy] Py; [done|]. etransitivity; [|done]. auto.
    + intros y [<-|Hy] Py; [lia|]. auto.
  - intros [= <-]. split_and!; auto. intros y [<-|Hy] Py; [done|]. exfalso.
    clear IH. induction l as [|a l IHl]; simpl in *; [done|].
    destruct Hy as [->|Hy].
    + rewrite Py in Hb. repeat case_hyp Hb; done.
    + destruct (P a); [repeat case_hyp Hb; done|auto].
Qed.

Lemma best_None (P : A -> bool) l :
  best key P l = None <-> (forall y, In y l -> P y = false).
Proof.
  induction l as [|z l IH]; simpl; [done|].
  destruct (P z) eqn:Pz.
  - split; [by repeat case_goal|]. intros H. by rewrite H in Pz by (by left).
  - rewrite IH. split; [intros H y [<-|?]|]; auto.
Qed.
End sort_desc_lemmas.

Lemma position_Some {A} (P : A -> bool) (l : list A) i :
  position P l = Some i -> exists x, l !! i = Some x /\ P x = true.
Proof.
  revert i; induction l as [|y l IH]; intros i; simpl; [done|].
  destruct (P y) eqn:Hy; [intros [= <-]; eauto|].
  intros (j & ? & ->)%fmap_Some. eauto.
Qed.

Lemma position_None {A} (P : A -> bool) (l : list A) :
  position P l = None <-> existsb P l = false.
Proof.
  induction l as [|y l IH]; simpl; [done|].
  destruct (P y); simpl; [done|]. rewrite fmap_None. done.
Qed.

Lemma filter_ext_in {A} (P Q : A -> Prop) `{!forall x, Decision (P x)} `{!forall x, Decision (Q x)}
    (l : list A) :
  (forall x, x ∈ l -> P x <-> Q x) -> filter P l = filter Q l.
Proof.
  induction l as [|x l IH]; intros Hl; [done|]. rewrite !filter_cons.
  rewrite IH by set_solver. specialize (Hl x ltac:(set_solver)).
  repeat case_decide; tauto.
Qed.

Lemma evict_for_size `{Countable K} {A} (pick : gmap K A -> option K) max_keys key m x :
  picks_key pick -> (N.of_nat (size m) <= N.max max_keys 1)%N ->
  (N.of_nat (size (<[key := x]> (evict_for pick max_keys key m))) <= N.max max_keys 1)%N.
Proof.
  intros Hpick Hm. unfold evict_for. destruct (_ && _) eqn:Hc.
  - apply andb_true_iff in Hc as [Hle%N.leb_le Hk%bool_decide_eq_true].
    destruct (decide (m = ∅)) as [->|Hne].
    + destruct (pick ∅); rewrite ?delete_empty, map_size_insert_None, map_size_empty by done; lia.
    + destruct (Hpick m Hne) as (k & -> & v & Hv).
      rewrite map_size_insert_None by (rewrite lookup_delete_ne; [done|congruence]).
      rewrite map_size_delete_Some by eauto.
      assert (size m <> 0) by (by apply map_size_non_empty_iff). lia.
  - apply andb_false_iff in Hc as [Hgt%N.leb_gt|Hk%bool_decide_eq_false].
    + destruct (m !! key) eqn:Hk; [rewrite map_size_insert_Some by eauto; done|].
      rewrite map_size_insert_None by done. lia.
    + by rewrite map_size_insert_Some by (by apply not_eq_None_Some).
Qed.

(** The first key of an enumeration is such a choice. *)
Definition first_listed `{Countable K} {A} (m : gmap K A) : option K := fst <$> head (map_to_list m).

Lemma first_listed_picks `{Countable K} {A} : picks_key (@first_listed K _ _ A).
Proof.
  intros m Hm. unfold first_listed. destruct (map_to_list m) as [|[k v] l] eqn:Hl.
  - by apply map_to_list_empty_iff in Hl.
  - exists k. split; [done|]. exists v. apply elem_of_map_to_list. rewrite Hl. set_solver.
Qed.

(** [Iterator::min_by_key]: the first element of least score. *)
Fixpoint min_by {A} (score : A -> N) (l : list A) : option A :=
  match l with
  | [] => None
  | x :: l' =>
      match min_by score l' with
      | Some y => if (score x <=? score y)%N then Some x else Some y
      | None => Some x
      end
  end.

Lemma min_by_Some {A} (score : A -> N) (l : list A) :
  l <> [] -> exists x, min_by score l = Some x /\ x ∈ l /\
    forall y, y ∈ l -> (score x <= score y)%N.
Proof.
  induction l as [|x l IH]; [done|]. intros _. destruct l as [|y l].
  - exists x. simpl. split_and!; [done|set_solver|]. intros z Hz.
    apply list_elem_of_singleton in Hz as ->. lia.
  - destruct IH as (b & Hb & Hin & Hmin); [done|]. cbn [min_by] in *. rewrite Hb.
    destruct (N.leb_spec (score x) (score b)).
    + exists x. split_and!; [done|set_solver|]. intros z [->|Hz]%elem_of_cons; [lia|].
      specialize (Hmin z Hz). lia.
    + exists b. split_and!; [done|set_solver|]. intros z [->|Hz]%elem_of_cons; [lia|].
      by apply Hmin.
Qed.

(** Evaluate whether an option is present without normalising its contents. *)
Definition present {A} (o : option A) : bool := match o with Some _ => true | None => false end.

Lemma present_default {A} (d : A) (o : option A) : present o = true -> o = Some (default d o).
Proof. by destruct o. Qed.

(** ** Decimal numbers round trip *)

Lemma pretty_N_char_digit (d : N) :
  (d < 10)%N ->
  is_ascii_digit (pretty_N_char d) = true /\ (char_code (pretty_N_char d) - 48 = d)%N.
Proof.
  intros Hd.
  assert (d = 0 \/ d = 1 \/ d = 2 \/ d = 3 \/ d = 4 \/ d = 5 \/ d = 6 \/ d = 7 \/ d = 8 \/ d = 9)%N
    as H by lia.
  by destruct_or?; subst.
Qed.

Lemma parse_digits_pretty_go (max x : N) (s : string) :
  (x <= max)%N -> parse_digits max 0 (pretty_N_go x s) = parse_digits max x s.
Proof.
  revert s. induction (N.lt_wf_0 x) as [x _ IH]; intros s Hx.
  destruct (decide (x = 0)%N) as [->|Hne]; [done|].
  rewrite pretty_N_go_step by lia.
  pose proof (N.div_mod x 10 ltac:(done)) as Hdm.
  pose proof (N.mod_lt x 10 ltac:(done)) as Hmod.
  destruct (pretty_N_char_digit _ Hmod) as [Hd Hv].
  rewrite IH; [|apply N.div_lt; lia|lia].
  cbn [parse_digits]. rewrite Hd, Hv.
  assert (x `div` 10 * 10 + x `mod` 10 = x)%N as -> by lia.
  by rewrite (proj2 (N.leb_le _ _) Hx).
Qed.

Lemma pretty_N_go_digits (x : N) (s : string) :
  all_chars is_ascii_digit s = true -> all_chars is_ascii_digit (pretty_N_go x s) = true.
Proof.
  revert s. induction (N.lt_wf_0 x) as [x _ IH]; intros s Hs.
  destruct (decide (x = 0)%N) as [->|Hne]; [done|].
  rewrite pretty_N_go_step by lia. apply IH; [apply N.div_lt; lia|].
  simpl. rewrite Hs. destruct (pretty_N_char_digit (x `mod` 10)) as [-> _]; [|done].
  by apply N.mod_lt.
Qed.

Lemma pretty_N_digits (n : N) : all_chars is_ascii_digit (pretty n) = true.
Proof. unfold pretty, pretty_N. case_decide; [done|]. by apply pretty_N_go_digits. Qed.

Lemma parse_uint_digits (max : N) (s : string) :
  s <> EmptyString -> all_chars is_ascii_digit s = true ->
  parse_uint max s = parse_digits max 0 s.
Proof.
  destruct s as [|c s]; [done|]. intros _ H. simpl in H. bool_hyps. unfold parse_uint.
  destruct (Ascii.eqb_spec c "+"%char) as [->|]; [done|]. by destruct s.
Qed.

Lemma pretty_N_nonempty (n : N) : pretty n <> EmptyString.
Proof.
  intros H. destruct (decide (n = 0)%N) as [->|Hn]; [by vm_compute in H|].
  apply Hn, (inj pretty). rewrite H. exfalso.
  assert (parse_digits n 0 (pretty n) = Some n) as Hp.
  { unfold pretty, pretty_N. rewrite decide_False by done. by apply parse_digits_pretty_go. }
  rewrite H in Hp. simpl in Hp. naive_solver.
Qed.

(** Printing a number that fits the width and parsing it back is the identity. *)
Lemma parse_uint_pretty (max n : N) : (n <= max)%N -> parse_uint max (pretty n) = Some n.
Proof.
  intros Hn. rewrite parse_uint_digits by auto using pretty_N_nonempty, pretty_N_digits.
  unfold pretty, pretty_N. case_decide; [subst; by destruct max|]. by apply parse_digits_pretty_go.
Qed.

Lemma parse_digits_le max acc s n :
  (acc <= max)%N -> parse_digits max acc s = Some n -> (n <= max)%N.
Proof.
  revert acc; induction s as [|c s IH]; simpl; intros acc Hacc H; [by simplify_eq|].
  repeat case_match; bool_hyps; try done. eauto.
Qed.

Lemma parse_uint_le max s n : parse_uint max s = Some n -> (n <= max)%N.
Proof.
  unfold parse_uint. intros H. repeat case_match; try done;
    eapply parse_digits_le; try exact H; lia.
Qed.

#[export] Hint Resolve parse_uint_le ends_with_refl : bsdm.
#[export] Hint Rewrite string_app_assoc string_app_nil_r string_length_app
  to_ascii_lowercase_idemp trim_idemp eq_ignore_ascii_case_refl : bsdm.

(** ** Texts of lines *)

Definition nl : string := String "010" EmptyString.

Definition unlines (ls : list string) : string := foldr (fun l s => l +:+ nl +:+ s) EmptyString ls.

Definition one_line (s : string) : bool :=
  all_chars (fun c => negb (Ascii.eqb c "010") && negb (Ascii.eqb c "013")) s.

Lemma unlines_app a b : unlines (a ++ b) = unlines a +:+ unlines b.
Proof.
  induction a as [|l a IH]; [done|]. cbn [unlines foldr app]. fold (unlines (a ++ b)) (unlines a).
  by rewrite IH, !string_app_assoc.
Qed.

Lemma one_line_no_cr s : one_line s = true -> strip_cr s = s.
Proof.
  intros Hs. unfold strip_cr. destruct (ends_with s _) eqn:He; [|done].
  apply ends_with_spec in He as [p ->]. unfold one_line in Hs. rewrite all_chars_app in Hs.
  by apply andb_true_iff in Hs as [_ Hs].
Qed.

Lemma lines_go_line acc s rest :
  one_line (acc +:+ s) = true -> one_line s = true ->
  lines_go acc (s +:+ nl +:+ rest) = (acc +:+ s) :: lines_go EmptyString rest.
Proof.
  revert acc. induction s as [|c s IH]; intros acc Ha Hs; cbn [String.append].
  - rewrite string_app_nil_r in *. unfold nl. cbn [String.append lines_go]. by rewrite one_line_no_cr.
  - unfold one_line in Hs. cbn [all_chars] in Hs. apply andb_true_iff in Hs as [Hc Hs].
    apply andb_true_iff in Hc as [Hc _]. apply negb_true_iff in Hc. cbn [lines_go]. rewrite Hc.
    rewrite IH; rewrite ?string_app_assoc; done.
Qed.

Lemma str_lines_unlines ls : forallb one_line ls = true -> str_lines (unlines ls) = ls.
Proof.
  unfold str_lines. induction ls as [|l ls IH]; [done|]. cbn [forallb]. intros [Hl Hls]%andb_true_iff.
  cbn [unlines foldr]. fold (unlines ls). rewrite lines_go_line by done. by rewrite IH.
Qed.

(** ** Texts of countable data

    Every value of a countable type as a text that is read back: what the witnesses
    put in the place of serialization formats. *)

Fixpoint pos_text (p : positive) (tail : string) : string :=
  match p with
  | xH => String "h" tail
  | xO p' => String "o" (pos_text p' tail)
  | xI p' => String "i" (pos_text p' tail)
  end.

Fixpoint text_pos (s : string) : option positive :=
  match s with
  | EmptyString => None
  | String c s' =>
      if Ascii.eqb c "h" then Some xH
      else if Ascii.eqb c "o" then xO <$> text_pos s'
      else xI <$> text_pos s'
  end.

Definition to_text `{Countable A} (x : A) : string := pos_text (encode x) EmptyString.
Definition of_text `{Countable A} (s : string) : option A := text_pos s ≫= decode.

Lemma text_pos_text p t : text_pos (pos_text p t) = Some p.
Proof. induction p; simpl; [by rewrite IHp|by rewrite IHp|done]. Qed.

Lemma of_to_text `{Countable A} (x : A) : of_text (to_text x) = Some x.
Proof. unfold of_text, to_text. rewrite text_pos_text. apply decode_encode. Qed.

Lemma to_text_not_blank `{Countable A} (x : A) : str_is_empty (trim (to_text x)) = false.
Proof.
  assert (Hend : forall p, trim_end (pos_text p EmptyString) <> EmptyString).
  { intros [p|p|]; cbn [pos_text]; by rewrite trim_end_cons. }
  unfold trim, to_text. replace (trim_start (pos_text (encode x) EmptyString)) with (pos_text (encode x) EmptyString)
    by (by destruct (encode x)).
  specialize (Hend (encode x)). by destruct (trim_end (pos_text (encode x) EmptyString)).
Qed.
