(* ===== verification/Hosts.v ===== *)
(** * Host names as lists of labels

    Lemmas on dotted names that the categorization, the pinning exceptions and
    the DNS zone share: names written as the join of plain labels survive the
    normalisations the code applies to them. *)

From Stdlib Require Import Ascii String NArith Lia.
From stdpp Require Import base option sets strings list.
From S2P Require Import Prelude.

(** Host names as the url parser gives them: labels of lower-case characters. *)
Definition host_char (c : ascii) : bool :=
  negb (Ascii.eqb c ".") && negb (is_whitespace c) && Ascii.eqb (char_lower c) c.

Definition plain_label (l : string) : bool := negb (str_is_empty l) && all_chars host_char l.

Definition host_or_dot (c : ascii) : bool := host_char c || Ascii.eqb c ".".

Lemma all_chars_impl (P Q : ascii -> bool) s :
  (forall c, P c = true -> Q c = true) -> all_chars P s = true -> all_chars Q s = true.
Proof.
  intros HPQ. induction s as [|c s IH]; simpl; [done|]. rewrite !andb_true_iff. naive_solver.
Qed.

Lemma join_all_chars P sep ls :
  all_chars P sep = true -> Forall (fun l => all_chars P l = true) ls -> all_chars P (join sep ls) = true.
Proof.
  intros Hsep. induction ls as [|l ls IH]; intros H; [done|]. inversion H; subst.
  destruct ls as [|l' ls]; [done|]. cbn [join]. rewrite !all_chars_app, Hsep. simpl.
  apply andb_true_iff. auto.
Qed.

Lemma lower_id s : all_chars (fun c => Ascii.eqb (char_lower c) c) s = true -> to_ascii_lowercase s = s.
Proof.
  induction s as [|c s IH]; simpl; [done|]. intros [Hc Hs]%andb_true_iff.
  apply Ascii.eqb_eq in Hc. by rewrite Hc, IH.
Qed.

Lemma trim_id s : all_chars (fun c => negb (is_whitespace c)) s = true -> trim s = s.
Proof.
  intros H. unfold trim. assert (trim_start s = s) as ->.
  { destruct s as [|c s]; [done|]. simpl in *. apply andb_true_iff in H as [Hc _].
    by rewrite (negb_true_iff _) in Hc; rewrite Hc. }
  induction s as [|c s IH]; [done|]. simpl in H. apply andb_true_iff in H as [Hc Hs].
  rewrite trim_end_cons by (by apply negb_true_iff). by rewrite IH.
Qed.

Lemma host_or_dot_clean s :
  all_chars host_or_dot s = true -> trim s = s /\ to_ascii_lowercase s = s.
Proof.
  intros H. split; [apply trim_id|apply lower_id]; revert H; apply all_chars_impl; intros c;
    unfold host_or_dot, host_char; intros [Hc|Hc]%orb_true_iff.
  1, 3: by apply andb_true_iff in Hc as [[_ ?]%andb_true_iff ?].
  all: apply Ascii.eqb_eq in Hc as ->; reflexivity.
Qed.

Lemma list_filter_all {A} (P : A -> Prop) `{!forall x, Decision (P x)} (l : list A) :
  (forall x, x ∈ l -> P x) -> filter P l = l.
Proof.
  induction l as [|x l IH]; intros Hall; [done|]. rewrite filter_cons_True by (apply Hall; set_solver).
  rewrite IH; [done|]. intros y Hy. apply Hall. set_solver.
Qed.

Lemma plain_label_chars l :
  plain_label l = true -> all_chars host_char l = true /\ l <> EmptyString.
Proof. unfold plain_label. intros [Hn Hc]%andb_true_iff. split; [done|]. by intros ->. Qed.

Lemma plain_labels_chars ls :
  forallb plain_label ls = true -> Forall (fun l => all_chars host_char l = true /\ l <> EmptyString) ls.
Proof.
  rewrite forallb_forall. intros Hp. apply Forall_forall. intros l Hl.
  by apply plain_label_chars, Hp, list_elem_of_In.
Qed.

Lemma host_char_or_dot s : all_chars host_char s = true -> all_chars host_or_dot s = true.
Proof. apply all_chars_impl. intros c Hc. unfold host_or_dot. by rewrite Hc. Qed.

Lemma join_plain_chars ls :
  forallb plain_label ls = true -> all_chars host_or_dot (join "." ls) = true.
Proof.
  intros Hp%plain_labels_chars. apply join_all_chars; [done|].
  eapply Forall_impl; [exact Hp|]. intros l [Hl _]. by apply host_char_or_dot.
Qed.

Lemma join_app sep a b :
  a <> [] -> b <> [] -> join sep (a ++ b) = join sep a +:+ sep +:+ join sep b.
Proof.
  intros Ha Hb. induction a as [|x a IH]; [done|]. destruct a as [|y a].
  - simpl. by destruct b.
  - change (join sep ((x :: y :: a) ++ b)) with (x +:+ sep +:+ join sep ((y :: a) ++ b)).
    rewrite IH by done. change (join sep (x :: y :: a)) with (x +:+ sep +:+ join sep (y :: a)).
    by rewrite !string_app_assoc.
Qed.

(** Trimming dots stops at a character that is not one. *)
Lemma trim_end_matches_app d s t :
  trim_end_matches d t = t -> t <> EmptyString -> trim_end_matches d (s +:+ t) = s +:+ t.
Proof.
  intros Ht Hne. induction s as [|c s IH]; [done|]. simpl. rewrite IH.
  destruct (s +:+ t) eqn:He; [|done]. destruct s; [by destruct Hne|done].
Qed.

Lemma trim_end_matches_free d s : free_of d s = true -> trim_end_matches d s = s.
Proof.
  unfold free_of. induction s as [|c s IH]; simpl; [done|]. intros [Hc Hs]%andb_true_iff.
  rewrite (IH Hs). apply negb_true_iff in Hc. destruct s; [|done]. by rewrite Hc.
Qed.

Lemma host_char_free s : all_chars host_char s = true -> free_of "." s = true.
Proof.
  apply all_chars_impl. intros c Hc. unfold host_char in Hc.
  by apply andb_true_iff in Hc as [[? _]%andb_true_iff _].
Qed.

Lemma trim_dots_join ls :
  forallb plain_label ls = true -> trim_end_matches "." (join "." ls) = join "." ls.
Proof.
  intros Hp%plain_labels_chars. destruct ls as [|l ls] using rev_ind; [done|]. clear IHls.
  apply Forall_app in Hp as [_ [[Hl Hne] _]%Forall_cons].
  assert (Ht : trim_end_matches "." l = l) by by apply trim_end_matches_free, host_char_free.
  destruct ls as [|l' ls]; [done|]. rewrite join_app by done. simpl (join "." [l]).
  rewrite <- string_app_assoc. by apply trim_end_matches_app.
Qed.

(** Text without white space is one field. *)
Lemma split_whitespace_one s :
  all_chars (fun c => negb (is_whitespace c)) s = true -> s <> EmptyString ->
  split_whitespace s = [s].
Proof.
  unfold split_whitespace. intros Hs Hne.
  assert (Hgo : forall cur, all_chars (fun c => negb (is_whitespace c)) s = true ->
    cur +:+ s <> EmptyString -> split_whitespace_go cur s = [cur +:+ s]).
  { clear Hs Hne. induction s as [|c s IH]; intros cur; simpl.
    - intros _. rewrite string_app_nil_r. intros Hc. by destruct cur.
    - intros [Hc Hs]%andb_true_iff _. apply negb_true_iff in Hc. rewrite Hc, IH by
        (try done; by destruct cur).
      by rewrite string_app_assoc. }
  by apply (Hgo EmptyString).
Qed.

Lemma host_or_dot_no_space s :
  all_chars host_or_dot s = true -> all_chars (fun c => negb (is_whitespace c)) s = true.
Proof.
  apply all_chars_impl. intros c [Hc|Hc]%orb_true_iff.
  - by apply andb_true_iff in Hc as [[_ ?]%andb_true_iff _].
  - by apply Ascii.eqb_eq in Hc as ->.
Qed.

(** Letters (lower case), digits, hyphens and underscores: the labels of a name. *)
Definition ldh_char (c : ascii) : bool :=
  is_ascii_digit c || ((97 <=? char_code c) && (char_code c <=? 122))%N || Ascii.eqb c "-" ||
  Ascii.eqb c "_".

Definition ldh_label (l : string) : bool := negb (str_is_empty l) && all_chars ldh_char l.

(** A predicate on characters that holds of every name of such labels. *)
Lemma ldh_chars_satisfy (P : ascii -> bool) :
  forallb (fun n => negb (ldh_char (ascii_of_N (N.of_nat n))) || P (ascii_of_N (N.of_nat n))) (seq 0 256) = true ->
  forall c, ldh_char c = true -> P c = true.
Proof.
  rewrite forallb_forall. intros Hall c Hc.
  assert (Hn : (char_code c < 256)%N) by apply N_ascii_bounded.
  specialize (Hall (N.to_nat (char_code c))). rewrite N2Nat.id in Hall.
  unfold char_code in Hall at 2 3. rewrite ascii_N_embedding, Hc in Hall. apply Hall, in_seq. lia.
Qed.

Lemma ldh_label_plain l : ldh_label l = true -> plain_label l = true.
Proof.
  unfold ldh_label, plain_label. intros [Hn Hc]%andb_true_iff. rewrite Hn. simpl.
  revert Hc. apply all_chars_impl, ldh_chars_satisfy. vm_compute. reflexivity.
Qed.

Lemma ldh_labels_plain ls : forallb ldh_label ls = true -> forallb plain_label ls = true.
Proof. rewrite !forallb_forall. auto using ldh_label_plain. Qed.

(** The characters of a dotted name. *)
Lemma join_ldh_chars P ls :
  (forall c, ldh_char c = true -> P c = true) -> P "."%char = true -> forallb ldh_label ls = true ->
  all_chars P (join "." ls) = true.
Proof.
  intros HP Hd Hls. apply join_all_chars; [simpl; by rewrite Hd|].
  rewrite forallb_forall in Hls. apply Forall_forall. intros l Hl%list_elem_of_In%Hls.
  apply andb_true_iff in Hl as [_ Hl]. eapply all_chars_impl; [|exact Hl]. done.
Qed.

Lemma join_nonempty sep l ls : l <> EmptyString -> join sep (l :: ls) <> EmptyString.
Proof. intros Hl. destruct ls; simpl; [done|]. by destruct l. Qed.

Lemma trim_end_matches_snoc d s : trim_end_matches d (s +:+ String d EmptyString) = trim_end_matches d s.
Proof.
  induction s as [|c s IH]; simpl; [by rewrite Ascii.eqb_refl|]. by rewrite IH.
Qed.

Lemma split_whitespace_field a b :
  all_chars (fun c => negb (is_whitespace c)) a = true -> a <> EmptyString ->
  split_whitespace (a +:+ String " " b) = a :: split_whitespace b.
Proof.
  unfold split_whitespace. intros Ha Hne.
  assert (Hgo : forall cur, all_chars (fun c => negb (is_whitespace c)) a = true ->
    cur +:+ a <> EmptyString ->
    split_whitespace_go cur (a +:+ String " " b) = (cur +:+ a) :: split_whitespace_go EmptyString b).
  { clear Ha Hne. induction a as [|c a IH]; intros cur; simpl.
    - intros _. rewrite string_app_nil_r. intros Hc. by destruct cur.
    - intros [Hc Ha]%andb_true_iff _. apply negb_true_iff in Hc. rewrite Hc.
      rewrite IH by (try done; by destruct cur). by rewrite string_app_assoc. }
  by apply (Hgo EmptyString).
Qed.
