(* ===== verification/Net.v ===== *)
(** * IP addresses as text (std's [FromStr] for [Ipv4Addr], [Ipv6Addr], [IpAddr])

    std's parser is a cursor over the bytes: each reader returns the value and
    the rest of the text, or [None] with nothing consumed.  An address is its
    value, 32 or 128 bits wide. *)

From Stdlib Require Import Ascii String NArith Lia.
From stdpp Require Import base option strings list numbers pretty.
From S2P Require Import Prelude.

(** [char::to_digit]. *)
Definition to_digit (radix : N) (c : ascii) : option N :=
  let n := char_code c in
  let d := if is_ascii_digit c then Some (n - 48)%N
           else if ((97 <=? n) && (n <=? 122))%N then Some (n - 87)%N
           else if ((65 <=? n) && (n <=? 90))%N then Some (n - 55)%N
           else None in
  match d with Some d => if (d <? radix)%N then Some d else None | None => None end.

(** The digit loop of [read_number]: at most [left] further digits, without
    exceeding [max]; the result, the count of digits and the rest. *)
Fixpoint read_digits (radix max : N) (left : nat) (acc : N) (count : nat) (s : string)
    : option (N * nat * string) :=
  match s with
  | EmptyString => Some (acc, count, s)
  | String c s' =>
      match to_digit radix c with
      | None => Some (acc, count, s)
      | Some d =>
          if (max <? acc * radix + d)%N then None
          else
            match left with
            | O => None
            | S left' => read_digits radix max left' (acc * radix + d) (S count) s'
            end
      end
  end.

Definition read_number (radix max : N) (max_digits : nat) (allow_zero_prefix : bool) (s : string)
    : option (N * string) :=
  '(n, count, rest) ← read_digits radix max max_digits 0 0 s;
  if Nat.eqb count 0 then None
  else if negb allow_zero_prefix && starts_with s "0" && Nat.ltb 1 count then None
  else Some (n, rest).

Definition read_given_char (c : ascii) (s : string) : option string :=
  match s with
  | String c' s' => if Ascii.eqb c c' then Some s' else None
  | EmptyString => None
  end.

Definition read_separator {A} (sep : ascii) (index : nat) (inner : string -> option (A * string))
    (s : string) : option (A * string) :=
  match index with
  | O => inner s
  | S _ => s' ← read_given_char sep s; inner s'
  end.

Definition read_octet (index : nat) : string -> option (N * string) :=
  read_separator "." index (read_number 10 255 3 false).

Definition read_ipv4_addr (s : string) : option (N * string) :=
  '(a, s) ← read_octet 0 s;
  '(b, s) ← read_octet 1 s;
  '(c, s) ← read_octet 2 s;
  '(d, s) ← read_octet 3 s;
  Some (((a * 256 + b) * 256 + c) * 256 + d, s)%N.

(** [read_groups] over a slice of [i + left] groups, [i] of them read. *)
Fixpoint read_groups (left i : nat) (s : string) : list N * bool * string :=
  match left with
  | O => ([], false, s)
  | S left' =>
      match (if Nat.ltb 0 left' then read_separator ":" i read_ipv4_addr s else None) with
      | Some (v4, s') => ([v4 / 65536; v4 mod 65536]%N, true, s')
      | None =>
          match read_separator ":" i (read_number 16 65535 4 true) s with
          | None => ([], false, s)
          | Some (g, s') =>
              let '(gs, v4, rest) := read_groups left' (S i) s' in (g :: gs, v4, rest)
          end
      end
  end.

Definition groups_value (gs : list N) : N := foldl (fun acc g => acc * 65536 + g)%N 0%N gs.

Definition read_ipv6_addr (s : string) : option (N * string) :=
  let '(head, head_ipv4, s) := read_groups 8 0 s in
  if Nat.eqb (length head) 8 then Some (groups_value head, s)
  else if head_ipv4 then None
  else
    s ← read_given_char ":" s;
    s ← read_given_char ":" s;
    let '(tail, _, s) := read_groups (7 - length head) 0 s in
    Some (groups_value (head ++ replicate (8 - length head - length tail) 0%N ++ tail), s).

(** [parse_with]: the whole text must be read. *)
Definition parse_whole {A} (inner : string -> option (A * string)) (s : string) : option A :=
  '(a, rest) ← inner s; if str_is_empty rest then Some a else None.

Definition parse_ipv4 (s : string) : option N :=
  if Nat.ltb 15 (String.length s) then None else parse_whole read_ipv4_addr s.

Definition parse_ipv6 (s : string) : option N := parse_whole read_ipv6_addr s.

(** [IpAddr]: the left value is an IPv4 address, the right one an IPv6 address. *)
Definition read_ip_addr (s : string) : option ((N + N) * string) :=
  match read_ipv4_addr s with
  | Some (a, rest) => Some (inl a, rest)
  | None => '(a, rest) ← read_ipv6_addr s; Some (inr a, rest)
  end.

Definition parse_ip (s : string) : option (N + N) := parse_whole read_ip_addr s.

(** ** Checks against std *)

Lemma parse_ip_samples :
  parse_ipv4 "127.0.0.1" = Some 2130706433%N /\ parse_ipv4 "127.0.0.01" = None /\
  parse_ipv4 "256.0.0.1" = None /\ parse_ipv4 "1.2.3" = None /\ parse_ipv4 "1.2.3.4 " = None /\
  parse_ipv6 "::1" = Some 1%N /\ parse_ipv6 "::" = Some 0%N /\
  parse_ipv6 "1:2:3:4:5:6:7:8" = Some 5192455318486707404433266433261576%N /\
  parse_ipv6 "::ffff:1.2.3.4" = Some 281470698652420%N /\ parse_ipv6 "1::2::3" = None /\
  parse_ipv6 "12345::" = None /\ parse_ipv6 "1:2:3:4:5:6:7::" = Some 5192455318486707404433266433261568%N /\
  parse_ip "fe80::1%eth0" = None.
Proof. vm_compute. done. Qed.
