(* ===== verification/Acl.v ===== *)
(** * Access control (src/proxy/src/acl.rs, acl_config.rs, acl_api.rs)

    The ACL engine: rules sorted by decreasing priority with a cache of
    compiled regular expressions, the decision procedure [check_access], the
    copy-on-write handle [AclEngineHandle], and the REST handlers that edit
    the rules at run time.

    The [regex] crate is a parameter ([RegexEngine]).  A panic of the source
    is the value [None]. *)

From Stdlib Require Import Ascii String NArith Lia Sorting.Sorted Sorting.Permutation.
From stdpp Require Import base option gmap sets strings pretty numbers list.
From S2P Require Import Prelude.

(** ** Time windows and group names *)

Definition minutes_since_midnight (hour minute : N) : N := hour * 60 + minute.

Definition parse_hhmm (value : string) : option N :=
  '(hour, minute) ← split_once ":" value;
  hour ← parse_u32 (trim hour);
  minute ← parse_u32 (trim minute);
  if ((23 <? hour) || (59 <? minute))%N then None
  else Some (minutes_since_midnight hour minute).

Definition time_in_window (start end_ : string) (now : N) : bool :=
  match parse_hhmm start with
  | None => false
  | Some start_min =>
      match parse_hhmm end_ with
      | None => false
      | Some end_min =>
          if (start_min <=? end_min)%N
          then ((start_min <=? now) && (now <=? end_min))%N
          else ((start_min <=? now) || (now <=? end_min))%N
      end
  end.

Definition group_matches (member_group rule_group : string) : bool :=
  eq_ignore_ascii_case member_group rule_group ||
  existsb (fun part =>
      let part := trim part in
      match
        match strip_prefix "cn=" part with
        | Some cn => Some cn
        | None => strip_prefix "CN=" part
        end
      with
      | Some cn => eq_ignore_ascii_case cn rule_group
      | None => false
      end) (split_on "," member_group).

(** ** Rules and decisions *)

Inductive AclAction := Allow | Deny | Redirect.

#[export] Instance AclAction_eq_dec : EqDecision AclAction.
Proof. solve_decision. Defined.

Inductive IpAddr :=
| V4 (a : N)
| V6 (a : N).

Inductive AclRuleType :=
| Domain (pattern : string)
| UrlPrefix (prefix : string)
| Regex_ (pattern : string)
| Category (cat : string)
| IpRange (start end_ : IpAddr)
| TimeWindow (start end_ : string)
| Principal (user group : option string).

Record AclRule := {
  rule_id : string;
  rule_name : string;
  rule_enabled : bool;
  rule_priority : N;
  rule_action : AclAction;
  rule_type : AclRuleType;
  rule_redirect_url : option string;
  rule_comment : option string;
}.

Record AclDecision := {
  d_action : AclAction;
  d_rule_id : option string;
  d_redirect_url : option string;
  d_reason : string;
}.

#[export] Instance IpAddr_eq_dec : EqDecision IpAddr.
Proof. solve_decision. Defined.
#[export] Instance AclRuleType_eq_dec : EqDecision AclRuleType.
Proof. solve_decision. Defined.
#[export] Instance AclRule_eq_dec : EqDecision AclRule.
Proof. solve_decision. Defined.
#[export] Instance AclDecision_eq_dec : EqDecision AclDecision.
Proof. solve_decision. Defined.

Definition AclDecision_allow (reason : string) : AclDecision :=
  {| d_action := Allow; d_rule_id := None; d_redirect_url := None; d_reason := reason |}.

Definition AclDecision_deny (rule_id reason : string) : AclDecision :=
  {| d_action := Deny; d_rule_id := Some rule_id; d_redirect_url := None; d_reason := reason |}.

Definition AclDecision_redirect (rule_id url reason : string) : AclDecision :=
  {| d_action := Redirect; d_rule_id := Some rule_id; d_redirect_url := Some url;
     d_reason := reason |}.

(** ** The regular expression engine *)

Class RegexEngine := {
  Regex : Type;
  Regex_new : string -> option Regex;
  is_match : Regex -> string -> bool;
}.

Section engine.
Context {RE : RegexEngine}.

Record AclEngine := {
  rules : list AclRule;
  default_action : AclAction;
  compiled_regex : gmap string Regex;
}.

Definition AclEngine_new (default : AclAction) : AclEngine :=
  {| rules := []; default_action := default; compiled_regex := ∅ |}.

(** [Regex::new(pattern)], else [Regex::new("(?!)").expect(..)]. *)
Definition compile_regex_pattern (pattern : string) : option Regex :=
  match Regex_new pattern with
  | Some r => Some r
  | None => Regex_new "(?!)"
  end.

Fixpoint compile_rules (rs : list AclRule) (compiled : gmap string Regex)
    : option (gmap string Regex) :=
  match rs with
  | [] => Some compiled
  | rule :: rs' =>
      match rule_type rule with
      | Regex_ pattern =>
          match compiled !! pattern with
          | Some _ => compile_rules rs' compiled
          | None =>
              r ← compile_regex_pattern pattern;
              compile_rules rs' (<[pattern := r]> compiled)
          end
      | _ => compile_rules rs' compiled
      end
  end.

Definition rebuild_regex_cache (e : AclEngine) : option AclEngine :=
  compiled ← compile_rules (rules e) ∅;
  Some {| rules := rules e; default_action := default_action e; compiled_regex := compiled |}.

Definition with_rules (e : AclEngine) (rs : list AclRule) : AclEngine :=
  {| rules := rs; default_action := default_action e; compiled_regex := compiled_regex e |}.

Definition add_rule (rule : AclRule) (e : AclEngine) : option AclEngine :=
  rebuild_regex_cache (with_rules e (sort_desc rule_priority (rules e ++ [rule]))).

Definition update_rule (rule : AclRule) (e : AclEngine) : option (AclEngine * bool) :=
  match position (fun r => String.eqb (rule_id r) (rule_id rule)) (rules e) with
  | None => Some (e, false)
  | Some idx =>
      e' ← rebuild_regex_cache (with_rules e (sort_desc rule_priority (<[idx := rule]> (rules e))));
      Some (e', true)
  end.

Definition remove_rule (rid : string) (e : AclEngine) : option (AclEngine * bool) :=
  let retained := List.filter (fun r => negb (String.eqb (rule_id r) rid)) (rules e) in
  if Nat.eqb (List.length retained) (List.length (rules e)) then
    Some (with_rules e retained, false)
  else
    e' ← rebuild_regex_cache (with_rules e retained);
    Some (e', true).

Definition load_rules (rs : list AclRule) (e : AclEngine) : option AclEngine :=
  rebuild_regex_cache (with_rules e (sort_desc rule_priority rs)).

Definition has_rule (rid : string) (e : AclEngine) : bool :=
  existsb (fun r => String.eqb (rule_id r) rid) (rules e).

(** ** Matching *)

Definition match_domain (domain pattern : string) : bool :=
  match strip_prefix "*." pattern with
  | Some suffix => ends_with domain suffix || String.eqb domain suffix
  | None =>
      match strip_prefix "*" pattern with
      | Some suffix => ends_with domain suffix
      | None => String.eqb domain pattern
      end
  end.

Definition match_regex (e : AclEngine) (text pattern : string) : bool :=
  match compiled_regex e !! pattern with
  | Some regex => is_match regex text
  | None => false
  end.

Definition match_principal (rule_user rule_group user : option string) (groups : list string)
    : bool :=
  let user_match :=
    match rule_user, user with
    | Some ru, Some u => String.eqb ru u
    | _, _ => false
    end in
  let group_match :=
    match rule_group with
    | Some rg => existsb (fun g => group_matches g rg) groups
    | None => false
    end in
  match rule_user, rule_group with
  | Some _, Some _ => user_match || group_match
  | Some _, None => user_match
  | None, Some _ => group_match
  | None, None => false
  end.

Definition ip_in_range (ip start end_ : IpAddr) : bool :=
  match ip, start, end_ with
  | V4 ip, V4 start, V4 end_ => ((start <=? ip) && (ip <=? end_))%N
  | V6 ip, V6 start, V6 end_ => ((start <=? ip) && (ip <=? end_))%N
  | _, _, _ => false
  end.

(** What a request presents to the engine; [now] is [local_minutes_now ()]. *)
Record AclRequest := {
  rq_url : string;
  rq_domain : string;
  rq_categories : list string;
  rq_user : option string;
  rq_groups : list string;
  rq_client_ip : option IpAddr;
  rq_now : N;
}.

Definition matches_rule (e : AclEngine) (rule : AclRule) (rq : AclRequest) : bool :=
  match rule_type rule with
  | Domain pattern => match_domain (rq_domain rq) pattern
  | UrlPrefix prefix => starts_with (rq_url rq) prefix
  | Regex_ pattern => match_regex e (rq_url rq) pattern
  | Category cat => existsb (fun c => String.eqb c cat) (rq_categories rq)
  | IpRange start end_ =>
      match rq_client_ip rq with
      | Some ip => ip_in_range ip start end_
      | None => false
      end
  | TimeWindow start end_ => time_in_window start end_ (rq_now rq)
  | Principal rule_user rule_group =>
      match_principal rule_user rule_group (rq_user rq) (rq_groups rq)
  end.

Definition rule_decision (rule : AclRule) : AclDecision :=
  match rule_action rule with
  | Allow => AclDecision_allow ("Rule: " +:+ rule_name rule)
  | Deny => AclDecision_deny (rule_id rule) ("Blocked by rule: " +:+ rule_name rule)
  | Redirect =>
      AclDecision_redirect (rule_id rule) (default EmptyString (rule_redirect_url rule))
        ("Redirected by rule: " +:+ rule_name rule)
  end.

Definition default_decision (a : AclAction) : AclDecision :=
  match a with
  | Allow => AclDecision_allow "Default policy: allow"
  | Deny => AclDecision_deny "default" "Default policy: deny"
  | Redirect => AclDecision_redirect "default" "about:blank" "Default policy: redirect"
  end.

Fixpoint first_match (e : AclEngine) (rq : AclRequest) (rs : list AclRule) : AclDecision :=
  match rs with
  | [] => default_decision (default_action e)
  | rule :: rs' =>
      if matches_rule e rule rq then rule_decision rule else first_match e rq rs'
  end.

Definition check_access (e : AclEngine) (rq : AclRequest) : AclDecision :=
  first_match e rq (List.filter rule_enabled (rules e)).

(** ** The copy-on-write handle

    [unique] is whether [Arc::try_unwrap] finds the loaded snapshot unshared. *)

Definition fork_from (e : AclEngine) : option AclEngine :=
  load_rules (rules e) (AclEngine_new (default_action e)).

Definition mutate {R} (unique : bool) (f : AclEngine -> option (AclEngine * R))
    (snapshot : AclEngine) : option (AclEngine * R) :=
  if unique then f snapshot
  else engine ← fork_from snapshot; f engine.

(** Edits of an engine, and the engines they reach. *)
Inductive acl_op :=
| OpAdd (rule : AclRule)
| OpUpdate (rule : AclRule)
| OpRemove (rid : string)
| OpLoad (rs : list AclRule)
| OpFork.

Definition apply_op (op : acl_op) (e : AclEngine) : option AclEngine :=
  match op with
  | OpAdd rule => add_rule rule e
  | OpUpdate rule => fst <$> update_rule rule e
  | OpRemove rid => fst <$> remove_rule rid e
  | OpLoad rs => load_rules rs e
  | OpFork => fork_from e
  end.

Inductive acl_reachable (d : AclAction) : AclEngine -> Prop :=
| acl_reach_new : acl_reachable d (AclEngine_new d)
| acl_reach_step e op e' :
    acl_reachable d e -> apply_op op e = Some e' -> acl_reachable d e'.

(** Concurrent [mutate] calls: each thread loads the snapshot, edits a fork of
    what it loaded, and stores the result; the two halves of different
    threads interleave. *)
Record mutate_state := {
  ms_snapshot : AclEngine;
  ms_loaded : gmap nat AclEngine;
}.

Inductive mutate_event := EvLoad (t : nat) | EvStore (t : nat).

Definition mutate_step (edit : nat -> AclEngine -> option AclEngine)
    (st : mutate_state) (ev : mutate_event) : option mutate_state :=
  match ev with
  | EvLoad t =>
      Some {| ms_snapshot := ms_snapshot st;
              ms_loaded := <[t := ms_snapshot st]> (ms_loaded st) |}
  | EvStore t =>
      current ← ms_loaded st !! t;
      engine ← fork_from current;
      next ← edit t engine;
      Some {| ms_snapshot := next; ms_loaded := delete t (ms_loaded st) |}
  end.

Fixpoint mutate_run edit (st : mutate_state) (evs : list mutate_event) : option mutate_state :=
  match evs with
  | [] => Some st
  | ev :: evs' => st' ← mutate_step edit st ev; mutate_run edit st' evs'
  end.

(** ** The invariant of an engine *)

Abbreviation by_priority := (fun r1 r2 => (rule_priority r2 <= rule_priority r1)%N).

Definition engine_ok (e : AclEngine) : Prop :=
  StronglySorted by_priority (rules e) /\
  compile_rules (rules e) ∅ = Some (compiled_regex e).

(** The reference decision over a list of rules in the order they were loaded:
    the first rule of maximal priority among the enabled ones that match. *)
Definition spec_decision (e : AclEngine) (rq : AclRequest) (rs : list AclRule) : AclDecision :=
  match best rule_priority (fun r => rule_enabled r && matches_rule e r rq) rs with
  | Some r => rule_decision r
  | None => default_decision (default_action e)
  end.

(** ** Lemmas *)

Lemma first_match_find e rq rs :
  first_match e rq (List.filter rule_enabled rs) =
  match List.find (fun r => rule_enabled r && matches_rule e r rq) rs with
  | Some r => rule_decision r
  | None => default_decision (default_action e)
  end.
Proof.
  induction rs as [|r rs IH]; simpl; [done|].
  destruct (rule_enabled r); simpl; [|done]. by destruct (matches_rule e r rq).
Qed.

Lemma rebuild_regex_cache_Some e e' :
  rebuild_regex_cache e = Some e' <->
  rules e' = rules e /\ default_action e' = default_action e /\
  compile_rules (rules e) ∅ = Some (compiled_regex e').
Proof.
  unfold rebuild_regex_cache. destruct e as [rs d c], e' as [rs' d' c']; simpl.
  destruct (compile_rules rs ∅); simpl; naive_solver.
Qed.

Lemma rebuild_ok e e' :
  StronglySorted by_priority (rules e) -> rebuild_regex_cache e = Some e' -> engine_ok e'.
Proof. intros Hs (Hr & _ & Hc)%rebuild_regex_cache_Some. unfold engine_ok. by rewrite Hr. Qed.

#[local] Hint Resolve rebuild_ok sort_desc_Sorted filter_Sorted : bsdm.

Lemma filter_same_length {A} (P : A -> bool) (l : list A) :
  List.length (List.filter P l) = List.length l -> List.filter P l = l.
Proof.
  induction l as [|x l IH]; simpl; [done|]. destruct (P x); simpl; intros H.
  - f_equal. apply IH. lia.
  - pose proof (List.filter_length_le P l). lia.
Qed.

Lemma apply_op_ok op e e' : engine_ok e -> apply_op op e = Some e' -> engine_ok e'.
Proof.
  intros [Hs Hc]. destruct op as [rule|rule|rid|rs|]; simpl.
  - intros H. eapply rebuild_ok, H. simpl. auto with bsdm.
  - unfold update_rule. destruct (position _ _) as [idx|]; simpl.
    + intros ((e1 & b) & (e2 & H & [= <- <-])%bind_Some & ->)%fmap_Some.
      eapply rebuild_ok, H. simpl. auto with bsdm.
    + by intros [= <-].
  - unfold remove_rule. case_match eqn:Hlen.
    + apply Nat.eqb_eq in Hlen. intros [= <-]. unfold engine_ok. simpl.
      by rewrite filter_same_length.
    + intros ((e1 & b) & (e2 & H & [= <- <-])%bind_Some & ->)%fmap_Some.
      eapply rebuild_ok, H. simpl. auto with bsdm.
  - intros H. eapply rebuild_ok, H. simpl. auto with bsdm.
  - intros H. eapply rebuild_ok, H. simpl. auto with bsdm.
Qed.

Lemma acl_reachable_ok d e : acl_reachable d e -> engine_ok e.
Proof.
  induction 1; [|by eapply apply_op_ok]. split; simpl; [constructor|done].
Qed.

Lemma fork_from_id e : engine_ok e -> fork_from e = Some e.
Proof.
  intros [Hs Hc]. unfold fork_from, load_rules. apply rebuild_regex_cache_Some. simpl.
  by rewrite sort_desc_id.
Qed.

Lemma matches_rule_ext e1 e2 r rq :
  compiled_regex e1 = compiled_regex e2 -> matches_rule e1 r rq = matches_rule e2 r rq.
Proof. intros H. unfold matches_rule, match_regex. by rewrite H. Qed.

Lemma compile_rules_None rs c :
  Regex_new "(?!)" = None ->
  compile_rules rs c = None <->
  exists r p, In r rs /\ rule_type r = Regex_ p /\ c !! p = None /\ Regex_new p = None.
Proof.
  intros Hla. revert c; induction rs as [|r rs IH]; intros c; simpl.
  { split; [done|]. by intros (?&?&[]&_). }
  destruct (rule_type r) as [| |p| | | |] eqn:Ht;
    try (rewrite IH; split; [intros (r' & q & ? & ?); by exists r', q; auto|];
         intros (r' & q & [<-|?] & ? & ?); [congruence|by exists r', q]).
  destruct (c !! p) eqn:Hp.
  - rewrite IH. split; [intros (r' & q & ? & ?); by exists r', q; auto|].
    intros (r' & q & [<-|?] & ? & ? & ?); [congruence|by exists r', q].
  - unfold compile_regex_pattern. rewrite Hla. destruct (Regex_new p) as [re|] eqn:Hre; simpl.
    + rewrite IH. split.
      * intros (r' & q & ? & ? & Hq & ?). exists r', q. split_and!; auto.
        destruct (decide (p = q)) as [->|]; simplify_map_eq; done.
      * intros (r' & q & [<-|?] & ? & ? & ?); [congruence|]. exists r', q. split_and!; auto.
        destruct (decide (p = q)) as [->|]; simplify_map_eq; done.
    + split; [|done]. intros _. exists r, p. auto.
Qed.

Lemma compile_rules_lookup rs c c' p :
  compile_rules rs c = Some c' ->
  c' !! p =
    match c !! p with
    | Some re => Some re
    | None => if existsb (fun r => bool_decide (rule_type r = Regex_ p)) rs
              then compile_regex_pattern p else None
    end.
Proof.
  revert c; induction rs as [|r rs IH]; intros c; simpl.
  { intros [= <-]. by case_match. }
  case_bool_decide as Ht.
  - rewrite Ht. destruct (c !! p) as [re|] eqn:Hp.
    + intros H. by rewrite (IH _ H), Hp.
    + simpl. intros (re & Hre & H)%bind_Some. rewrite (IH _ H). by simplify_map_eq.
  - simpl. destruct (rule_type r) as [| |q| | | |]; try by apply IH.
    assert (q <> p) as Hqp by congruence.
    destruct (c !! q); [by apply IH|]. intros (re & Hre & H)%bind_Some.
    rewrite (IH _ H). by rewrite lookup_insert_ne.
Qed.

(** On an engine whose invariant holds, a regex rule matches exactly when its
    own compiled pattern does. *)
Lemma match_regex_ok e r p text :
  engine_ok e -> In r (rules e) -> rule_type r = Regex_ p ->
  match_regex e text p =
    match compile_regex_pattern p with Some re => is_match re text | None => false end.
Proof.
  intros [_ Hc] Hin Ht. unfold match_regex.
  rewrite (compile_rules_lookup _ _ _ p Hc), lookup_empty.
  replace (existsb _ _) with true; [done|]. symmetry. apply existsb_exists.
  exists r. split; [done|]. by apply bool_decide_eq_true.
Qed.

Lemma rebuild_default e e' : rebuild_regex_cache e = Some e' -> default_action e' = default_action e.
Proof. by intros (_ & ? & _)%rebuild_regex_cache_Some. Qed.

Lemma apply_op_default op e e' : apply_op op e = Some e' -> default_action e' = default_action e.
Proof.
  destruct op as [rule|rule|rid|rs|]; simpl; try by intros ->%rebuild_default.
  - unfold update_rule. case_match; [|by intros [= <-]].
    by intros ((e1 & b) & (e2 & Hd%rebuild_default & [= <- <-])%bind_Some & ->)%fmap_Some.
  - unfold remove_rule. case_match; [by intros [= <-]|].
    by intros ((e1 & b) & (e2 & Hd%rebuild_default & [= <- <-])%bind_Some & ->)%fmap_Some.
Qed.

Lemma acl_reachable_default d e : acl_reachable d e -> default_action e = d.
Proof. induction 1; [done|]. by erewrite apply_op_default. Qed.

Lemma check_access_best e rq : engine_ok e -> check_access e rq = spec_decision e rq (rules e).
Proof.
  intros [Hs _]. unfold check_access, spec_decision. rewrite first_match_find.
  by rewrite <- (sort_desc_id rule_priority (rules e) Hs), find_sort_desc, sort_desc_id by done.
Qed.

(** ** Properties *)

(** C5: refinement of the priority policy: after [load_rules], [check_access]
    returns the decision of the first loaded rule of maximal priority among
    the enabled rules that match the request, and the default decision when
    none matches. *)
Theorem load_rules_check_access_refines (rs : list AclRule) (e0 e : AclEngine) (rq : AclRequest) :
  load_rules rs e0 = Some e -> check_access e rq = spec_decision e rq rs.
Proof.
  intros (Hr & Hd & Hc)%rebuild_regex_cache_Some. unfold check_access, spec_decision.
  rewrite first_match_find, Hr. simpl. by rewrite find_sort_desc.
Qed.

(** On every engine reachable from [AclEngine_new d] by the edit
    operations, the decision is that of an enabled matching rule whose
    priority no other enabled matching rule exceeds, or the default [d] when
    no enabled rule matches. *)
Theorem check_access_highest_priority (d : AclAction) (e : AclEngine) (rq : AclRequest) :
  acl_reachable d e ->
  (exists r, In r (rules e) /\ rule_enabled r = true /\ matches_rule e r rq = true /\
     (forall r', In r' (rules e) -> rule_enabled r' = true -> matches_rule e r' rq = true ->
        (rule_priority r' <= rule_priority r)%N) /\
     check_access e rq = rule_decision r) \/
  ((forall r, In r (rules e) -> rule_enabled r = true -> matches_rule e r rq = false) /\
   check_access e rq = default_decision d).
Proof.
  intros Hreach. rewrite (check_access_best _ _ (acl_reachable_ok _ _ Hreach)). unfold spec_decision.
  destruct (best _ _ _) as [a|] eqn:Hb; [left|right].
  - apply best_Some in Hb as (Hin & Hm & Hmax). bool_hyps.
    exists a. split_and!; auto. intros r' ? He Hm'. apply Hmax; [done|]. by rewrite He, Hm'.
  - rewrite best_None in Hb. split; [|by rewrite (acl_reachable_default d)].
    intros r Hin He. specialize (Hb r Hin). by rewrite He in Hb.
Qed.

(** Copy-on-write is invisible: on every reachable engine an edit through
    [mutate] gives the same engine and result whether the snapshot was unshared
    and edited in place or shared and forked. *)
Theorem mutate_fork_transparent {R} (d : AclAction) (e : AclEngine)
    (f : AclEngine -> option (AclEngine * R)) :
  acl_reachable d e -> mutate false f e = mutate true f e.
Proof. intros H%acl_reachable_ok. unfold mutate. by rewrite fork_from_id. Qed.

(** Two overlapping [mutate] calls lose an update: when both threads load
    before either stores, the final snapshot is the edit of the last store
    alone, as if the first edit had never been made. *)
Theorem mutate_lost_update (d : AclAction) (e : AclEngine) (r1 r2 : AclRule) (e1 e2 : AclEngine) :
  acl_reachable d e -> add_rule r1 e = Some e1 -> add_rule r2 e = Some e2 ->
  let edit t := if Nat.eqb t 1 then add_rule r1 else add_rule r2 in
  ms_snapshot <$> mutate_run edit {| ms_snapshot := e; ms_loaded := ∅ |}
      [EvLoad 1; EvLoad 2; EvStore 1; EvStore 2] = Some e2.
Proof.
  intros H%acl_reachable_ok H1 H2 edit. subst edit. simpl.
  rewrite lookup_insert_ne by done. rewrite lookup_insert_eq. simpl.
  rewrite fork_from_id by done. simpl. rewrite H1. simpl.
  rewrite lookup_delete_ne, lookup_insert_eq by done. simpl.
  rewrite fork_from_id by done. simpl. by rewrite H2.
Qed.

(** The fallback of [compile_regex_pattern] is not a fallback: as the
    [regex] crate rejects look-around, [load_rules] panics exactly when some
    regex rule has a pattern that does not compile. *)
Theorem load_rules_panics_iff (rs : list AclRule) (e : AclEngine) :
  Regex_new "(?!)" = None ->
  load_rules rs e = None <->
  exists r p, In r rs /\ rule_type r = Regex_ p /\ Regex_new p = None.
Proof.
  intros Hla. unfold load_rules, rebuild_regex_cache. simpl.
  rewrite bind_None, compile_rules_None by done.
  assert (forall r, In r (sort_desc rule_priority rs) <-> In r rs) as Hin.
  { intros r. split; apply Permutation_in; [|symmetry]; apply sort_desc_Permutation. }
  setoid_rewrite Hin. split.
  - intros [(r & p & ? & ? & _ & ?)|(? & _ & ?)]; [by exists r, p|done].
  - intros (r & p & ? & ? & ?). left. exists r, p. by rewrite lookup_empty.
Qed.

End engine.

(** The boundary of an hh:mm window, wrapped at midnight. *)
Lemma parse_hhmm_lt s m : parse_hhmm s = Some m -> (m < 1440)%N.
Proof.
  unfold parse_hhmm. intros ((h & mm) & _ & (hv & _ & (mv & _ & H)%bind_Some)%bind_Some)%bind_Some.
  destruct (_ || _) eqn:Hb; [done|]. bool_hyps. unfold minutes_since_midnight in H. simplify_eq. lia.
Qed.

(** A time window is the circular interval of the clock from [start] to
    [end]: a minute of the day is in it when its distance after [start], modulo
    1440, is at most that of [end]; overnight windows included. *)
Theorem time_in_window_circular (start end_ : string) (a b now : N) :
  parse_hhmm start = Some a -> parse_hhmm end_ = Some b -> (now < 1440)%N ->
  time_in_window start end_ now =
    ((now + 1440 - a) mod 1440 <=? (b + 1440 - a) mod 1440)%N.
Proof.
  intros Ha Hb Hnow. unfold time_in_window. rewrite Ha, Hb.
  apply parse_hhmm_lt in Ha, Hb.
  assert (forall x, (x < 1440)%N -> ((x + 1440 - a) mod 1440 = if a <=? x then x - a else x + 1440 - a)%N)
    as Hmod.
  { intros x Hx. destruct (N.leb_spec a x).
    - replace (x + 1440 - a)%N with ((x - a) + 1 * 1440)%N by lia.
      rewrite N.Div0.mod_add. apply N.mod_small. lia.
    - apply N.mod_small. lia. }
  rewrite !Hmod by done. apply eq_true_iff_eq.
  repeat case_match; bool_hyps; rewrite ?andb_true_iff, ?orb_true_iff, !N.leb_le; lia.
Qed.

(** A wildcard pattern [*.s] matches every domain that ends in [s], with no
    label boundary required: any text may precede [s], so a pattern for the
    subdomains of [example.com] also matches [notexample.com]. *)
Theorem wildcard_ignores_label_boundary (prefix suffix : string) :
  match_domain (prefix +:+ suffix) ("*." +:+ suffix) = true.
Proof.
  unfold match_domain. simpl. apply orb_true_intro. left. apply ends_with_spec. eauto.
Qed.

(** ** Witnesses

    A regex engine whose patterns are literal prefixes and which, like the
    [regex] crate, rejects the [(?] group extensions it does not know. *)

#[export] Instance prefix_regex : RegexEngine := {|
  Regex := string;
  Regex_new p := if starts_with p "(?" then None else Some p;
  is_match p text := starts_with text p;
|}.

Definition sample_rule (i : string) (prio : N) (a : AclAction) (t : AclRuleType) : AclRule :=
  {| rule_id := i; rule_name := i; rule_enabled := true; rule_priority := prio;
     rule_action := a; rule_type := t; rule_redirect_url := None; rule_comment := None |}.

Definition sample_rules : list AclRule :=
  [sample_rule "allow-site" 10 Allow (Domain "*.example.com");
   sample_rule "deny-ads" 20 Deny (Regex_ "https://ads.");
   sample_rule "redirect-ads" 20 Redirect (UrlPrefix "https://ads.example.com/")].

Definition sample_request : AclRequest :=
  {| rq_url := "https://ads.example.com/x"; rq_domain := "ads.example.com"; rq_categories := [];
     rq_user := None; rq_groups := []; rq_client_ip := None; rq_now := 600 |}.

Definition sample_engine : AclEngine :=
  default (AclEngine_new Allow) (load_rules sample_rules (AclEngine_new Allow)).

Lemma sample_load : load_rules sample_rules (AclEngine_new Allow) = Some sample_engine.
Proof. vm_compute. reflexivity. Qed.

Lemma sample_reachable : acl_reachable Allow sample_engine.
Proof. eapply (acl_reach_step _ _ (OpLoad sample_rules)); [constructor|exact sample_load]. Qed.

Lemma load_rules_check_access_refines_witness :
  check_access sample_engine sample_request =
    AclDecision_deny "deny-ads" "Blocked by rule: deny-ads".
Proof.
  rewrite (load_rules_check_access_refines sample_rules (AclEngine_new Allow));
    [vm_compute; reflexivity | exact sample_load].
Defined.

Lemma check_access_highest_priority_witness :
  exists r, In r (rules sample_engine) /\ rule_priority r = 20%N /\
    check_access sample_engine sample_request = rule_decision r.
Proof.
  destruct (check_access_highest_priority Allow sample_engine sample_request sample_reachable)
    as [(r & Hin & _ & _ & Hmax & Heq)|[_ Hd]].
  - exists r. split; [exact Hin|]. split; [|exact Heq].
    destruct Hin as [<-|[<-|[<-|[]]]]; try reflexivity.
    exfalso. revert Heq. vm_compute. discriminate.
  - exfalso. revert Hd. vm_compute. discriminate.
Defined.

Lemma mutate_fork_transparent_witness :
  mutate false (remove_rule "deny-ads") sample_engine =
  mutate true (remove_rule "deny-ads") sample_engine.
Proof. apply (mutate_fork_transparent Allow). exact sample_reachable. Defined.

Lemma mutate_lost_update_witness :
  let r1 := sample_rule "deny-evil" 30 Deny (Domain "evil.test") in
  let r2 := sample_rule "allow-docs" 30 Allow (Domain "docs.test") in
  let edit t := if Nat.eqb t 1 then add_rule r1 else add_rule r2 in
  (has_rule "deny-evil" ∘ ms_snapshot) <$>
    mutate_run edit {| ms_snapshot := sample_engine; ms_loaded := ∅ |}
      [EvLoad 1; EvLoad 2; EvStore 1; EvStore 2] = Some false.
Proof.
  intros r1 r2 edit. subst edit. rewrite option_fmap_compose.
  rewrite (mutate_lost_update Allow sample_engine r1 r2
             (default sample_engine (add_rule r1 sample_engine))
             (default sample_engine (add_rule r2 sample_engine)) sample_reachable);
    vm_compute; reflexivity.
Defined.

Lemma load_rules_panics_iff_witness :
  load_rules [sample_rule "bad" 1 Deny (Regex_ "(?<x>a)")] (AclEngine_new Allow) = None.
Proof.
  apply load_rules_panics_iff; [reflexivity|].
  do 2 eexists. split; [left; reflexivity|]. split; reflexivity.
Defined.

Lemma time_in_window_circular_witness :
  time_in_window "22:00" "06:30" 60 = true /\ time_in_window "22:00" "06:30" 720 = false.
Proof.
  split; rewrite (time_in_window_circular _ _ 1320 390); vm_compute; reflexivity.
Defined.
