(* ===== verification/CacheEntry.v ===== *)
(** * Cached responses (src/proxy/src/cache.rs, cache_freshness.rs,
    cache_compress.rs, cache_body.rs)

    The data a cache entry holds, how it is built from an upstream response
    (compression, spilling), whether a response may be stored and for how long
    ([Cache-Control]), when an entry is fresh, and the response a hit sends.

    The zstd and brotli codecs ([Codec]) and hyper's header validation
    ([HeaderCodec]) are parameters; the clock is an argument [now]. *)

From Stdlib Require Import Ascii String NArith ZArith Lia.
From stdpp Require Import base option gmap sets strings pretty numbers list.
From S2P Require Import Prelude.

(** ** At-rest compression (cache_compress.rs) *)

Inductive BodyEncoding := Raw | Zstd | Brotli.

#[export] Instance BodyEncoding_eq_dec : EqDecision BodyEncoding.
Proof. solve_decision. Defined.

Definition from_wire (s : string) : option BodyEncoding :=
  let l := to_ascii_lowercase s in
  if String.eqb l "zstd" then Some Zstd
  else if String.eqb l "brotli" then Some Brotli
  else None.

Definition wire_name (e : BodyEncoding) : string :=
  match e with Raw => "raw" | Zstd => "zstd" | Brotli => "brotli" end.

Record CompressionConfig := {
  codec : BodyEncoding;
  min_bytes : N;
  zstd_level : Z;
}.

Definition CompressionConfig_from_env (env : Env) : CompressionConfig := {|
  codec :=
    match env "CACHE_COMPRESSION" with
    | Some v =>
        let l := to_ascii_lowercase v in
        if String.eqb l "zstd" then Zstd
        else if String.eqb l "brotli" then Brotli
        else Raw
    | None => Raw
    end;
  min_bytes := env_parse parse_usize env "CACHE_COMPRESS_MIN_BYTES" 1024%N;
  zstd_level := env_parse parse_i32 env "CACHE_COMPRESS_ZSTD_LEVEL" 3%Z;
|}.

Definition compression_enabled (c : CompressionConfig) : bool :=
  match codec c with Raw => false | _ => true end.

Class Codec := {
  zstd_encode_all : string -> Z -> option string;
  zstd_decode_all : string -> option string;
  brotli_compress : string -> option string;
  brotli_decompress : string -> option string;
}.

(** The codecs' documented contract: decompression inverts compression. *)
Class CodecLaws (C : Codec) := {
  zstd_inverse body level c : zstd_encode_all body level = Some c -> zstd_decode_all c = Some body;
  brotli_inverse body c : brotli_compress body = Some c -> brotli_decompress c = Some body;
}.

(** Header lists keep the order of the source's slices; a [HashMap] of headers
    is its list of entries in iteration order. *)
Abbreviation Headers := (list (string * string)).

Definition has_content_encoding (headers : Headers) : bool :=
  existsb (fun '(k, _) => eq_ignore_ascii_case k "content-encoding") headers.

Definition strip_length_headers (headers : Headers) : Headers :=
  List.filter (fun '(k, _) =>
    negb (eq_ignore_ascii_case k "content-length") &&
    negb (eq_ignore_ascii_case k "content-encoding")) headers.

Record PreparedCacheBody := {
  pb_body : string;
  pb_headers : Headers;
  pb_encoding : BodyEncoding;
  pb_uncompressed_len : N;
}.

(** ** Body storage (cache_body.rs) *)

Inductive CachedBody :=
| Inline (b : string)
| Mmap (b : string).

Definition to_bytes (b : CachedBody) : string :=
  match b with Inline b | Mmap b => b end.

Definition stored_len (b : CachedBody) : N :=
  match b with Inline b | Mmap b => str_len b end.

(** [spill] writes the data to a fresh file and maps it back; whether the file
    operations succeed is the argument [io_ok]. *)
Definition spill (io_ok : bool) (data : string) : option CachedBody :=
  if io_ok then Some (Mmap data) else None.

Definition maybe_spill (io_ok : bool) (data : string) (threshold : N) : option CachedBody :=
  if ((0 <? threshold) && (threshold <=? str_len data))%N then spill io_ok data
  else Some (Inline data).

(** ** Cache entries (cache.rs) *)

Definition CACHEABLE_METHODS : list string := ["GET"; "HEAD"].
Definition CACHEABLE_STATUS_CODES : list N :=
  [200; 203; 204; 206; 300; 301; 404; 405; 410; 414; 501]%N.

Definition hop_by_hop_names : list string :=
  ["transfer-encoding"; "content-length"; "content-encoding"; "connection"; "keep-alive";
   "proxy-connection"; "proxy-authenticate"; "proxy-authorization"; "te"; "trailers"; "upgrade"].

Definition is_hop_by_hop_or_framing_header (name : string) : bool :=
  existsb (eq_ignore_ascii_case name) hop_by_hop_names.

Record CachedResponse := {
  cr_status : N;
  cr_headers : Headers;
  cr_body : CachedBody;
  cr_body_encoding : BodyEncoding;
  cr_uncompressed_len : N;
  cr_cached_at : N;
  cr_ttl : N;
  cr_etag : option string;
  cr_last_modified : option string;
  cr_is_negative : bool;
  cr_must_revalidate : bool;
}.

(** [duration_since] fails when the clock is behind [cached_at]: expired. *)
Definition is_expired (now : N) (c : CachedResponse) : bool :=
  if (now <? cr_cached_at c)%N then true else (cr_ttl c <? now - cr_cached_at c)%N.

Definition can_serve_fresh (now : N) (c : CachedResponse) : bool :=
  negb (cr_must_revalidate c) && negb (is_expired now c).

Definition has_validators (c : CachedResponse) : bool :=
  bool_decide (is_Some (cr_etag c)) || bool_decide (is_Some (cr_last_modified c)).

Definition needs_revalidation (now : N) (c : CachedResponse) : bool :=
  cr_must_revalidate c || is_expired now c.

Definition refreshed_after_not_modified (now : N) (c : CachedResponse) (ttl : N)
    : CachedResponse :=
  {| cr_status := cr_status c; cr_headers := cr_headers c; cr_body := cr_body c;
     cr_body_encoding := cr_body_encoding c; cr_uncompressed_len := cr_uncompressed_len c;
     cr_cached_at := now; cr_ttl := ttl; cr_etag := cr_etag c;
     cr_last_modified := cr_last_modified c; cr_is_negative := cr_is_negative c;
     cr_must_revalidate := false |}.

Record CacheConfig := {
  capacity : N;
  default_ttl : N;
  max_body_size : N;
  compression : CompressionConfig;
  negative_cache_enabled : bool;
  negative_cache_ttl : N;
  honor_cache_control : bool;
  spill_threshold_bytes : N;
  spill_dir : string;
  cfg_shard_count : N;
}.

Definition CacheConfig_from_env (env : Env) (temp_spill_dir : string) : CacheConfig := {|
  capacity := env_parse parse_usize env "CACHE_CAPACITY" 10000%N;
  default_ttl := from_secs (env_parse parse_u64 env "CACHE_TTL_SECONDS" 3600%N);
  max_body_size := env_parse parse_usize env "MAX_CACHE_BODY_SIZE" 10485760%N;
  compression := CompressionConfig_from_env env;
  negative_cache_enabled := env_flag_default_on env "NEGATIVE_CACHE_ENABLED";
  negative_cache_ttl := from_secs (env_parse parse_u64 env "NEGATIVE_CACHE_TTL_SECONDS" 120%N);
  honor_cache_control := env_flag_default_on env "CACHE_HONOR_CACHE_CONTROL";
  spill_threshold_bytes := env_parse parse_usize env "CACHE_SPILL_THRESHOLD_BYTES" 262144%N;
  spill_dir := default temp_spill_dir (env "CACHE_SPILL_DIR");
  cfg_shard_count := env_parse parse_usize env "CACHE_SHARDS" 16%N;
|}.

Definition is_cacheable (method : string) (status body_size max_body : N) : bool :=
  bool_decide (method ∈ CACHEABLE_METHODS) &&
  bool_decide (status ∈ CACHEABLE_STATUS_CODES) && (body_size <=? max_body)%N.

(** ** Freshness (cache_freshness.rs) *)

Record CacheControlDirectives := {
  no_store : bool;
  no_cache : bool;
  max_age : option N;
  s_maxage : option N;
  private_ : bool;
}.

Definition no_directives : CacheControlDirectives :=
  {| no_store := false; no_cache := false; max_age := None; s_maxage := None; private_ := false |}.

Record CacheStoreDecision := {
  sd_store : bool;
  sd_ttl : N;
  sd_is_negative : bool;
  sd_must_revalidate : bool;
  sd_etag : option string;
  sd_last_modified : option string;
}.

Definition bypass : CacheStoreDecision :=
  {| sd_store := false; sd_ttl := 0; sd_is_negative := false; sd_must_revalidate := false;
     sd_etag := None; sd_last_modified := None |}.

Definition miss_x_cache_status_header (streaming : bool) (precheck : CacheStoreDecision) : string :=
  if negb (sd_store precheck) then "BYPASS"
  else if sd_is_negative precheck then
    (if streaming then "NEGATIVE-MISS-STREAMING" else "NEGATIVE-MISS")
  else if streaming then "MISS-STREAMING" else "MISS".

Definition cache_status_metric_label (header_label : string) : string :=
  replace_char "-" "_" header_label.

(** The name and argument of one comma-separated token. *)
Definition directive (token : string) : string * option string :=
  match split_once "=" token with
  | Some (n, v) => (to_ascii_lowercase (trim n), Some (trim v))
  | None => (to_ascii_lowercase token, None)
  end.

Definition cache_control_step (d : CacheControlDirectives) (part : string)
    : CacheControlDirectives :=
  let token := trim part in
  if str_is_empty token then d
  else
    let '(name, arg) := directive token in
    if String.eqb name "no-store" then
      {| no_store := true; no_cache := no_cache d; max_age := max_age d;
         s_maxage := s_maxage d; private_ := private_ d |}
    else if String.eqb name "no-cache" then
      {| no_store := no_store d; no_cache := true; max_age := max_age d;
         s_maxage := s_maxage d; private_ := private_ d |}
    else if String.eqb name "private" then
      {| no_store := no_store d; no_cache := no_cache d; max_age := max_age d;
         s_maxage := s_maxage d; private_ := true |}
    else if String.eqb name "max-age" then
      match arg ≫= parse_u64 with
      | Some v => {| no_store := no_store d; no_cache := no_cache d; max_age := Some v;
                     s_maxage := s_maxage d; private_ := private_ d |}
      | None => d
      end
    else if String.eqb name "s-maxage" then
      match arg ≫= parse_u64 with
      | Some v => {| no_store := no_store d; no_cache := no_cache d; max_age := max_age d;
                     s_maxage := Some v; private_ := private_ d |}
      | None => d
      end
    else d.

Definition parse_cache_control (value : string) : CacheControlDirectives :=
  fold_left cache_control_step (split_on "," value) no_directives.

Definition header_value (headers : Headers) (name : string) : option string :=
  snd <$> List.find (fun '(k, _) => eq_ignore_ascii_case k name) headers.

Definition is_negative_status (status : N) : bool := ((status =? 403) || (status =? 404))%N.

Definition content_length (headers : Headers) : option N :=
  header_value headers "content-length" ≫= parse_usize.

Definition ttl_from_directives (d : CacheControlDirectives) (dflt : N) : N :=
  match
    match s_maxage d with Some age => Some age | None => max_age d end
  with
  | Some age => from_secs age
  | None => dflt
  end.

Definition header_directives (headers : Headers) : CacheControlDirectives :=
  default no_directives (parse_cache_control <$> header_value headers "cache-control").

Definition refresh_ttl_from_headers (headers : Headers) (dflt : N) : N :=
  ttl_from_directives (header_directives headers) dflt.

Definition evaluate_store (method : string) (status : N) (headers : Headers) (body_size : N)
    (config : CacheConfig) : CacheStoreDecision :=
  if negb (bool_decide (method ∈ CACHEABLE_METHODS)) then bypass
  else if (max_body_size config <? body_size)%N then bypass
  else
    let cache_control := header_directives headers in
    if no_store cache_control then bypass
    else if private_ cache_control then bypass
    else
      let negative := is_negative_status status in
      if (if negative then negb (negative_cache_enabled config)
          else negb (bool_decide (status ∈ CACHEABLE_STATUS_CODES)))
      then bypass
      else
        let '(ttl, must_revalidate) :=
          if negative then (negative_cache_ttl config, false)
          else if honor_cache_control config then
            (ttl_from_directives cache_control (default_ttl config), no_cache cache_control)
          else (default_ttl config, false) in
        {| sd_store := true; sd_ttl := ttl; sd_is_negative := negative;
           sd_must_revalidate := must_revalidate;
           sd_etag := header_value headers "etag";
           sd_last_modified := header_value headers "last-modified" |}.

Definition evaluate_store_precheck (method : string) (status : N) (headers : Headers)
    (config : CacheConfig) : CacheStoreDecision :=
  evaluate_store method status headers (default 0%N (content_length headers)) config.

(** ** Building and serving entries *)

(** hyper's [HeaderName::from_bytes] (the normalised name) and
    [HeaderValue::from_str]. *)
Class HeaderCodec := {
  HeaderName_from_bytes : string -> option string;
  HeaderValue_from_str : string -> option string;
}.

(** The documented behaviour the responses rely on: names are normalised to
    lower case, the names the code writes are valid, and a value is kept as it
    is, digits being valid. *)
Class HeaderCodecLaws (H : HeaderCodec) := {
  header_name_lower s n : HeaderName_from_bytes s = Some n -> n = to_ascii_lowercase s;
  header_value_keeps s v : HeaderValue_from_str s = Some v -> v = s;
  header_value_digits s : all_chars is_ascii_digit s = true -> HeaderValue_from_str s = Some s;
}.

Record HttpResponse := {
  hr_status : N;
  hr_headers : gmap string string;
  hr_body : string;
}.

(** [StatusCode::from_u16(..).unwrap_or(StatusCode::OK)]. *)
Definition status_or_ok (status : N) : N :=
  if ((100 <=? status) && (status <=? 999))%N then status else 200%N.

Section codec.
Context {C : Codec} {H : HeaderCodec}.

Definition decode_body (body : string) (encoding : BodyEncoding) : option string :=
  match encoding with
  | Raw => Some body
  | Zstd => zstd_decode_all body
  | Brotli => brotli_decompress body
  end.

Definition raw_prepared (body : string) (headers : Headers) : PreparedCacheBody :=
  {| pb_body := body; pb_headers := headers; pb_encoding := Raw;
     pb_uncompressed_len := str_len body |}.

Definition prepare_body_for_cache (body : string) (headers : Headers)
    (config : CompressionConfig) : PreparedCacheBody :=
  if negb (compression_enabled config) || (str_len body <? min_bytes config)%N ||
     has_content_encoding headers
  then raw_prepared body headers
  else
    match
      match codec config with
      | Raw => None
      | Zstd => zstd_encode_all body (zstd_level config)
      | Brotli => brotli_compress body
      end
    with
    | None => raw_prepared body headers
    | Some compressed =>
        if (str_len body <=? str_len compressed)%N then raw_prepared body headers
        else {| pb_body := compressed; pb_headers := strip_length_headers headers;
                pb_encoding := codec config; pb_uncompressed_len := str_len body |}
    end.

Definition decoded_body (c : CachedResponse) : option string :=
  decode_body (to_bytes (cr_body c)) (cr_body_encoding c).

Definition response_body (c : CachedResponse) : string :=
  match cr_body_encoding c with
  | Raw => to_bytes (cr_body c)
  | _ => default (to_bytes (cr_body c)) (decoded_body c)
  end.

(** One iteration of the loop that copies the stored headers. *)
Definition emit_header (m : gmap string string) (kv : string * string) : gmap string string :=
  let '(key, value) := kv in
  if is_hop_by_hop_or_framing_header key then m
  else
    match HeaderName_from_bytes key, HeaderValue_from_str value with
    | Some name, Some val => <[name := val]> m
    | _, _ => m
    end.

Definition set_header (name value : string) (m : gmap string string) : gmap string string :=
  match HeaderValue_from_str value with
  | Some val => <[name := val]> m
  | None => m
  end.

Definition to_response_with_cache_status (c : CachedResponse) (cache_status : string)
    : HttpResponse :=
  let body := response_body c in
  let headers := fold_left emit_header (cr_headers c) ∅ in
  {| hr_status := status_or_ok (cr_status c);
     hr_headers :=
       set_header "x-cache-status" cache_status
         (set_header "content-length" (pretty (str_len body)) headers);
     hr_body := body |}.

Definition from_upstream (now : N) (io_ok : bool) (status : N) (headers : Headers) (body : string)
    (ttl : N) (comp : CompressionConfig) (spill_threshold : N)
    (etag last_modified : option string) (is_negative must_revalidate : bool) : CachedResponse :=
  let prepared := prepare_body_for_cache body headers comp in
  let body_bytes := pb_body prepared in
  let cached_body :=
    if ((0 <? spill_threshold) && (spill_threshold <=? str_len body_bytes))%N then
      default (Inline body_bytes) (spill io_ok body_bytes)
    else Inline body_bytes in
  {| cr_status := status; cr_headers := pb_headers prepared; cr_body := cached_body;
     cr_body_encoding := pb_encoding prepared;
     cr_uncompressed_len := pb_uncompressed_len prepared;
     cr_cached_at := now; cr_ttl := ttl; cr_etag := etag; cr_last_modified := last_modified;
     cr_is_negative := is_negative; cr_must_revalidate := must_revalidate |}.

End codec.

(** ** Lemmas: freshness *)

Lemma can_serve_fresh_spec now c :
  can_serve_fresh now c = true <->
  cr_must_revalidate c = false /\ (cr_cached_at c <= now <= cr_cached_at c + cr_ttl c)%N.
Proof.
  unfold can_serve_fresh, is_expired.
  rewrite andb_true_iff, !negb_true_iff. case_match; bool_hyps.
  - split; [by intros [??]|lia].
  - rewrite N.ltb_ge. split; intros; split_and!; try tauto; lia.
Qed.

(** The directives a list of comma-separated parts names. *)
Definition token_names (parts : list string) : list string :=
  (fun token => (directive token).1) <$>
    List.filter (fun t => negb (str_is_empty t)) (trim <$> parts).

(** Each flag of the fold is raised exactly by its own name. *)
Lemma cache_control_flag (flag : CacheControlDirectives -> bool) (fname : string) :
  (forall d part, flag (cache_control_step d part) =
     flag d || (negb (str_is_empty (trim part)) &&
                String.eqb (directive (trim part)).1 fname)) ->
  forall parts d,
    flag (fold_left cache_control_step parts d) = true <->
    flag d = true \/ fname ∈ token_names parts.
Proof.
  intros Hstep parts. induction parts as [|p parts IH]; intros d; simpl.
  - rewrite elem_of_nil. tauto.
  - rewrite IH, Hstep. unfold token_names. simpl.
    destruct (str_is_empty (trim p)); simpl.
    + by rewrite orb_false_r.
    + rewrite elem_of_cons, orb_true_iff, String.eqb_eq. naive_solver.
Qed.

Ltac step_flag :=
  intros d part; unfold cache_control_step; cbv zeta;
  destruct (str_is_empty (trim part)); cbn [negb andb]; [by rewrite orb_false_r|];
  destruct (directive (trim part)) as [name arg]; cbn [fst];
  repeat (match goal with
          | |- context [if String.eqb name ?s then _ else _] =>
              destruct (String.eqb_spec name s) as [->|?]
          end; [try destruct (arg ≫= parse_u64); simpl; by rewrite ?orb_true_r, ?orb_false_r|]);
  by rewrite orb_false_r.

Lemma no_store_names value :
  no_store (parse_cache_control value) = true <-> "no-store" ∈ token_names (split_on "," value).
Proof.
  unfold parse_cache_control. rewrite (cache_control_flag no_store "no-store"); [naive_solver|].
  step_flag.
Qed.

Lemma private_names value :
  private_ (parse_cache_control value) = true <-> "private" ∈ token_names (split_on "," value).
Proof.
  unfold parse_cache_control. rewrite (cache_control_flag private_ "private"); [naive_solver|].
  step_flag.
Qed.

Lemma no_cache_names value :
  no_cache (parse_cache_control value) = true <-> "no-cache" ∈ token_names (split_on "," value).
Proof.
  unfold parse_cache_control. rewrite (cache_control_flag no_cache "no-cache"); [naive_solver|].
  step_flag.
Qed.

Lemma header_directives_flag (flag : CacheControlDirectives -> bool) headers :
  flag no_directives = false ->
  flag (header_directives headers) = true <->
  exists v, header_value headers "cache-control" = Some v /\ flag (parse_cache_control v) = true.
Proof.
  intros H0. unfold header_directives. destruct (header_value headers "cache-control"); simpl.
  - naive_solver.
  - rewrite H0. naive_solver.
Qed.

(** ** Lemmas: printing and parsing of directives *)

Definition opt_part (flag : bool) (name : string) : list string := if flag then [name] else [].
Definition age_part (name : string) (age : option N) : list string :=
  match age with Some n => [name +:+ "=" +:+ pretty n] | None => [] end.

Definition cache_control_parts (d : CacheControlDirectives) : list string :=
  opt_part (no_store d) "no-store" ++ opt_part (no_cache d) "no-cache" ++
  age_part "max-age" (max_age d) ++ age_part "s-maxage" (s_maxage d) ++
  opt_part (private_ d) "private".

(** The header value that carries the directives. *)
Definition print_cache_control (d : CacheControlDirectives) : string :=
  join "," (cache_control_parts d).

Definition ages_fit (d : CacheControlDirectives) : Prop :=
  (forall n, max_age d = Some n -> (n <= u64_max)%N) /\
  (forall n, s_maxage d = Some n -> (n <= u64_max)%N).

Lemma digits_free_of (d : ascii) (s : string) :
  is_ascii_digit d = false -> all_chars is_ascii_digit s = true -> free_of d s = true.
Proof.
  intros Hd. unfold free_of. induction s as [|c s IH]; simpl; [done|].
  intros H. bool_hyps. rewrite IH by done. destruct (Ascii.eqb_spec c d); [congruence|done].
Qed.

Lemma digits_no_ws (s : string) : all_chars is_ascii_digit s = true -> trim s = s.
Proof.
  assert (forall c, is_ascii_digit c = true -> is_whitespace c = false) as Hc.
  { intros c H. unfold is_ascii_digit in H. unfold is_whitespace. bool_hyps.
    apply orb_false_iff. rewrite andb_false_iff, N.eqb_neq, !N.leb_gt. lia. }
  intros Hs. unfold trim.
  assert (trim_start s = s) as ->.
  { destruct s as [|c s]; simpl in *; [done|]. bool_hyps. by rewrite Hc. }
  induction s as [|c s IH]; [done|]. simpl in Hs. bool_hyps.
  rewrite trim_end_cons by auto. by rewrite IH.
Qed.

(** A token [name=digits] is parsed to its name and its number. *)
Lemma age_token (name : string) (n : N) :
  (n <= u64_max)%N ->
  free_of "=" name = true -> to_ascii_lowercase (trim name) = name ->
  trim (name +:+ "=" +:+ pretty n) = name +:+ "=" +:+ pretty n ->
  directive (trim (name +:+ "=" +:+ pretty n)) = (name, Some (pretty n)) /\
  (Some (pretty n) ≫= parse_u64) = Some n.
Proof.
  intros Hn Hfree Hlow Htrim. rewrite Htrim. unfold directive. simpl.
  rewrite (proj2 (split_once_Some "=" (name +:+ String "=" (pretty n)) name (pretty n)))
    by (split; [done|exact Hfree]).
  rewrite Hlow, digits_no_ws by apply pretty_N_digits. split; [done|].
  by apply parse_uint_pretty.
Qed.

Lemma trim_end_digits (p s : string) :
  s <> EmptyString -> all_chars is_ascii_digit s = true -> trim_end (p +:+ s) = p +:+ s.
Proof.
  intros Hne Hs. induction p as [|c p IH].
  - simpl. pose proof (digits_no_ws s Hs) as Ht. unfold trim in Ht.
    destruct (String.string_dec (trim_start s) s) as [Heq|Hne']; [by rewrite Heq in Ht|].
    exfalso. destruct s as [|c s]; [done|]. simpl in *. destruct (is_whitespace c) eqn:Hw; [|done].
    bool_hyps. unfold is_ascii_digit in H. unfold is_whitespace in Hw. bool_hyps.
    apply orb_true_iff in Hw as [Hw|Hw]; bool_hyps; lia.
  - simpl. rewrite IH. by destruct (p +:+ s) eqn:He; [destruct p|].
Qed.

Lemma age_step (name : string) (n : N) d :
  name = "max-age" \/ name = "s-maxage" -> (n <= u64_max)%N ->
  cache_control_step d (name +:+ "=" +:+ pretty n) =
  if String.eqb name "max-age"
  then {| no_store := no_store d; no_cache := no_cache d; max_age := Some n;
          s_maxage := s_maxage d; private_ := private_ d |}
  else {| no_store := no_store d; no_cache := no_cache d; max_age := max_age d;
          s_maxage := Some n; private_ := private_ d |}.
Proof.
  intros Hname Hn.
  assert (trim (name +:+ "=" +:+ pretty n) = name +:+ "=" +:+ pretty n) as Htrim.
  { unfold trim. replace (trim_start (name +:+ "=" +:+ pretty n)) with (name +:+ "=" +:+ pretty n)
      by (destruct Hname as [-> | ->]; reflexivity).
    rewrite <- string_app_assoc. apply trim_end_digits; [apply pretty_N_nonempty|].
    apply pretty_N_digits. }
  destruct (age_token name n Hn) as [Hd Hp];
    [by destruct Hname; subst..|exact Htrim|].
  unfold cache_control_step. cbv zeta. rewrite Hd, Hp, Htrim.
  by destruct Hname as [-> | ->].
Qed.

Lemma fold_age_part (name : string) (age : option N) d :
  name = "max-age" \/ name = "s-maxage" -> (forall n, age = Some n -> n <= u64_max)%N ->
  fold_left cache_control_step (age_part name age) d =
  match age with
  | None => d
  | Some n =>
      if String.eqb name "max-age"
      then {| no_store := no_store d; no_cache := no_cache d; max_age := Some n;
              s_maxage := s_maxage d; private_ := private_ d |}
      else {| no_store := no_store d; no_cache := no_cache d; max_age := max_age d;
              s_maxage := Some n; private_ := private_ d |}
  end.
Proof. intros Hname Hn. destruct age as [n|]; [|done]. simpl. by apply age_step; auto. Qed.

Lemma age_part_free (name : string) (age : option N) :
  free_of "," name = true -> Forall (fun s => free_of "," s = true) (age_part name age).
Proof.
  intros Hf. destruct age as [n|]; [|constructor]. repeat constructor.
  unfold free_of. rewrite !all_chars_app. simpl.
  fold (free_of "," name) (free_of "," (pretty n)). rewrite Hf. simpl.
  apply digits_free_of; [done|apply pretty_N_digits].
Qed.

Lemma cache_control_parts_free d :
  Forall (fun s => free_of "," s = true) (cache_control_parts d).
Proof.
  unfold cache_control_parts.
  repeat apply Forall_app_2; try (by apply age_part_free);
    unfold opt_part; case_match; repeat constructor.
Qed.

Lemma fold_cache_control_parts d :
  ages_fit d -> fold_left cache_control_step (cache_control_parts d) no_directives = d.
Proof.
  intros [H1 H2]. unfold cache_control_parts. rewrite !fold_left_app.
  rewrite !fold_age_part by auto. destruct d as [[] [] a s []]; simpl in *;
    destruct a, s; reflexivity.
Qed.

(** ** Lemmas: the body and the headers of a hit *)

Section codec_lemmas.
Context {C : Codec} {CL : CodecLaws C} {H : HeaderCodec} {HL : HeaderCodecLaws H}.

Lemma prepare_decodes body headers comp :
  decode_body (pb_body (prepare_body_for_cache body headers comp))
    (pb_encoding (prepare_body_for_cache body headers comp)) = Some body.
Proof.
  unfold prepare_body_for_cache. destruct (_ || _); [done|].
  destruct (codec comp) eqn:Hc; [done|..].
  - destruct (zstd_encode_all _ _) as [z|] eqn:Hz; [|done]. case_match; [done|].
    simpl. by eapply zstd_inverse.
  - destruct (brotli_compress _) as [z|] eqn:Hz; [|done]. case_match; [done|].
    simpl. by eapply brotli_inverse.
Qed.

Lemma from_upstream_to_bytes now io_ok status headers body ttl comp thr etag lm neg mr :
  to_bytes (cr_body (from_upstream now io_ok status headers body ttl comp thr etag lm neg mr)) =
  pb_body (prepare_body_for_cache body headers comp).
Proof. simpl. case_match; [|done]. unfold spill. by destruct io_ok. Qed.

Lemma from_upstream_response_body now io_ok status headers body ttl comp thr etag lm neg mr :
  response_body (from_upstream now io_ok status headers body ttl comp thr etag lm neg mr) = body.
Proof.
  unfold response_body, decoded_body. rewrite from_upstream_to_bytes.
  pose proof (prepare_decodes body headers comp) as Hd. simpl.
  destruct (pb_encoding _); [by simplify_eq/=|..]; by rewrite Hd.
Qed.

Lemma hop_by_hop_lower name :
  is_hop_by_hop_or_framing_header (to_ascii_lowercase name) =
  is_hop_by_hop_or_framing_header name.
Proof.
  unfold is_hop_by_hop_or_framing_header. generalize hop_by_hop_names as l.
  induction l as [|x l IH]; simpl; [done|]. rewrite IH. f_equal.
  unfold eq_ignore_ascii_case. by rewrite to_ascii_lowercase_idemp.
Qed.

Lemma emit_headers_clean headers m name v :
  (forall n w, m !! n = Some w -> is_hop_by_hop_or_framing_header n = false) ->
  fold_left emit_header headers m !! name = Some v ->
  is_hop_by_hop_or_framing_header name = false.
Proof.
  revert m; induction headers as [|[k w] headers IH]; intros m Hm; simpl; [by apply Hm|].
  apply IH. unfold emit_header. destruct (is_hop_by_hop_or_framing_header k) eqn:Hk; [done|].
  destruct (HeaderName_from_bytes k) as [n|] eqn:Hn; [|done].
  destruct (HeaderValue_from_str w); [|done].
  apply header_name_lower in Hn as ->. intros n' w'.
  destruct (decide (to_ascii_lowercase k = n')) as [<-|Hne].
  - intros _. by rewrite hop_by_hop_lower.
  - rewrite lookup_insert_ne by done. apply Hm.
Qed.

Lemma set_header_ne name value m n :
  n <> name -> set_header name value m !! n = m !! n.
Proof. intros Hn. unfold set_header. case_match; [|done]. by apply lookup_insert_ne. Qed.

Lemma hit_headers_clean c cache_status name v :
  hr_headers (to_response_with_cache_status c cache_status) !! name = Some v ->
  name <> "content-length" -> is_hop_by_hop_or_framing_header name = false.
Proof.
  intros Hl Hne. simpl in Hl. destruct (decide (name = "x-cache-status")) as [->|Hx]; [done|].
  rewrite !set_header_ne in Hl by done. eapply emit_headers_clean, Hl.
  intros n w. by rewrite lookup_empty.
Qed.

Lemma hit_content_length c cache_status :
  hr_headers (to_response_with_cache_status c cache_status) !! "content-length" =
  Some (pretty (str_len (hr_body (to_response_with_cache_status c cache_status)))).
Proof.
  simpl. rewrite set_header_ne by done. unfold set_header.
  rewrite header_value_digits by apply pretty_N_digits. by rewrite lookup_insert_eq.
Qed.

End codec_lemmas.

(** ** Properties *)

(** A response is stored exactly when its method is cacheable, its body is
    within the limit, its [Cache-Control] names neither [no-store] nor
    [private] (in any case, position or spacing), and its status is 403 or 404
    with negative caching on or one of the cacheable codes. *)
Theorem evaluate_store_iff method status headers body_size config :
  sd_store (evaluate_store method status headers body_size config) = true <->
  method ∈ CACHEABLE_METHODS /\ (body_size <= max_body_size config)%N /\
  (forall v, header_value headers "cache-control" = Some v ->
     ("no-store" ∉ token_names (split_on "," v)) /\ ("private" ∉ token_names (split_on "," v))) /\
  (if is_negative_status status then negative_cache_enabled config = true
   else status ∈ CACHEABLE_STATUS_CODES).
Proof.
  unfold evaluate_store. case_bool_decide as Hm; simpl; [|naive_solver].
  destruct (N.ltb_spec (max_body_size config) body_size); simpl; [split; [done|lia]|].
  destruct (no_store (header_directives headers)) eqn:Hns.
  { apply (header_directives_flag no_store) in Hns as (v & Hv & Hn%no_store_names); [|done].
    split; [done|]. intros (_ & _ & Hall & _). by destruct (Hall v Hv). }
  destruct (private_ (header_directives headers)) eqn:Hpr.
  { apply (header_directives_flag private_) in Hpr as (v & Hv & Hn%private_names); [|done].
    split; [done|]. intros (_ & _ & Hall & _). by destruct (Hall v Hv). }
  assert (forall v, header_value headers "cache-control" = Some v ->
    ("no-store" ∉ token_names (split_on "," v)) /\ ("private" ∉ token_names (split_on "," v))) as Hall.
  { intros v Hv. rewrite <- no_store_names, <- private_names.
    unfold header_directives in Hns, Hpr. rewrite Hv in Hns, Hpr. simpl in *. split; congruence. }
  destruct (is_negative_status status).
  - destruct (negative_cache_enabled config); simpl; naive_solver.
  - case_bool_decide; simpl; [|naive_solver]. destruct (honor_cache_control config); naive_solver.
Qed.

(** The [Cache-Control] parser inverts printing: the directives written as
    a header value parse back to themselves, ages up to [u64::MAX] included. *)
Theorem parse_print_cache_control (d : CacheControlDirectives) :
  ages_fit d -> parse_cache_control (print_cache_control d) = d.
Proof.
  intros Hfit. unfold parse_cache_control, print_cache_control.
  destruct (cache_control_parts d) as [|p ps] eqn:Hp.
  - simpl. rewrite <- (fold_cache_control_parts d Hfit), Hp. reflexivity.
  - rewrite <- Hp, split_on_join;
      [by apply fold_cache_control_parts|by rewrite Hp|apply cache_control_parts_free].
Qed.

(** C11: an entry built from an upstream response and served as a hit carries
    the upstream body unchanged, whatever the codec, the compression threshold
    and the spill outcome, with its true length as [content-length] and no
    other hop-by-hop or framing header. *)
Theorem hit_serves_upstream_body {C : Codec} {CL : CodecLaws C} {H : HeaderCodec}
    {HL : HeaderCodecLaws H} now io_ok status headers body ttl comp thr etag lm neg mr label :
  let c := from_upstream now io_ok status headers body ttl comp thr etag lm neg mr in
  let r := to_response_with_cache_status c label in
  hr_body r = body /\
  hr_headers r !! "content-length" = Some (pretty (str_len body)) /\
  (forall name v, hr_headers r !! name = Some v -> name <> "content-length" ->
     is_hop_by_hop_or_framing_header name = false).
Proof.
  intros c r. assert (hr_body r = body) as Hb by apply from_upstream_response_body.
  split_and!; [done| |].
  - unfold r. rewrite hit_content_length. fold r. by rewrite Hb.
  - intros name v Hl Hne. by eapply hit_headers_clean.
Qed.

(** A response the origin already encoded is stored and served with its
    encoded bytes, but the hit drops [content-encoding], so the client cannot
    tell the body is encoded. *)
Theorem encoded_hit_loses_content_encoding {C : Codec} {CL : CodecLaws C} {H : HeaderCodec}
    {HL : HeaderCodecLaws H} now io_ok status headers body ttl comp thr etag lm neg mr label :
  has_content_encoding headers = true ->
  let c := from_upstream now io_ok status headers body ttl comp thr etag lm neg mr in
  let r := to_response_with_cache_status c label in
  cr_headers c = headers /\ hr_body r = body /\ hr_headers r !! "content-encoding" = None.
Proof.
  intros He c r. split_and!.
  - simpl. unfold prepare_body_for_cache. by rewrite He, orb_true_r.
  - apply from_upstream_response_body.
  - destruct (_ !! _) eqn:Hl; [|done]. by eapply hit_headers_clean in Hl.
Qed.

(** Freshness is an interval that only closes: an entry is servable exactly
    from [cached_at] to [cached_at + ttl] (and never when it must be
    revalidated), so once it is stale after that it stays stale. *)
Theorem freshness_interval (c : CachedResponse) (now : N) :
  (can_serve_fresh now c = true <->
     cr_must_revalidate c = false /\ (cr_cached_at c <= now <= cr_cached_at c + cr_ttl c)%N) /\
  needs_revalidation now c = negb (can_serve_fresh now c) /\
  (forall later, (cr_cached_at c <= now <= later)%N ->
     can_serve_fresh now c = false -> can_serve_fresh later c = false).
Proof.
  split_and!; [apply can_serve_fresh_spec| |].
  - unfold needs_revalidation, can_serve_fresh. by rewrite negb_andb, !negb_involutive.
  - intros later Hl Hf. apply not_true_iff_false. rewrite can_serve_fresh_spec.
    apply not_true_iff_false in Hf. rewrite can_serve_fresh_spec in Hf.
    intros [Hm ?]. apply Hf. split; [done|lia].
Qed.

(** Revalidation drops the revalidation requirement: after a [304] the entry
    is served without revalidation until its new lifetime ends, even when the
    stored entry required revalidation and the [304] again says [no-cache]. *)
Theorem not_modified_drops_must_revalidate (c : CachedResponse) (headers304 : Headers)
    (dflt now later : N) :
  cr_must_revalidate c = true -> no_cache (header_directives headers304) = true ->
  (now <= later <= now + refresh_ttl_from_headers headers304 dflt)%N ->
  can_serve_fresh later c = false /\
  can_serve_fresh later
    (refreshed_after_not_modified now c (refresh_ttl_from_headers headers304 dflt)) = true.
Proof.
  intros Hm _ Hl. split.
  - unfold can_serve_fresh. by rewrite Hm.
  - apply can_serve_fresh_spec. simpl. split; [done|lia].
Qed.

(** ** Witnesses

    A codec that halves a body made of two equal halves. *)

Definition halve (b : string) : string := String.substring 0 (Nat.div2 (String.length b)) b.

Definition double_encode (b : string) : option string :=
  if String.eqb b (halve b +:+ halve b) then Some (String "D" (halve b)) else Some (String "V" b).

Definition double_decode (c : string) : option string :=
  match c with
  | String "D" h => Some (h +:+ h)
  | String "V" b => Some b
  | _ => None
  end.

#[export] Instance double_codec : Codec := {|
  zstd_encode_all b _ := double_encode b;
  zstd_decode_all := double_decode;
  brotli_compress := double_encode;
  brotli_decompress := double_decode;
|}.

Lemma double_inverse b c : double_encode b = Some c -> double_decode c = Some b.
Proof.
  unfold double_encode. case_match eqn:Hh; intros [= <-]; simpl; [|done].
  apply String.eqb_eq in Hh. by rewrite <- Hh.
Qed.

#[export] Instance double_codec_laws : CodecLaws double_codec.
Proof. split; simpl; intros; by apply double_inverse. Qed.

#[export] Instance lower_headers : HeaderCodec := {|
  HeaderName_from_bytes s := if str_is_empty s then None else Some (to_ascii_lowercase s);
  HeaderValue_from_str s := Some s;
|}.

#[export] Instance lower_headers_laws : HeaderCodecLaws lower_headers.
Proof.
  split; simpl; [|by intros s v [= <-]|done]. intros s n. by case_match; intros [= <-].
Qed.

Definition sample_entry (headers : Headers) (body : string) (mr : bool) : CachedResponse :=
  from_upstream 1000 true 200 headers body (from_secs 60)
    {| codec := Zstd; min_bytes := 4; zstd_level := 3 |} 4 None None false mr.

Lemma parse_print_cache_control_witness :
  let d := {| no_store := false; no_cache := true; max_age := Some 60%N;
              s_maxage := Some u64_max; private_ := false |} in
  parse_cache_control "no-cache,max-age=60,s-maxage=18446744073709551615" = d.
Proof.
  intros d. rewrite <- (parse_print_cache_control d); [vm_compute; reflexivity|].
  split; simpl; intros n [= <-]; vm_compute; discriminate.
Defined.

Lemma hit_serves_upstream_body_witness :
  let c := sample_entry [("Connection", "close"); ("Content-Length", "8")] "abcdabcd" false in
  cr_body c = Mmap "Dabcd" /\ cr_body_encoding c = Zstd /\
  hr_body (to_response_with_cache_status c "HIT") = "abcdabcd".
Proof.
  intros c. split; [vm_compute; reflexivity|]. split; [vm_compute; reflexivity|].
  unfold c, sample_entry. apply hit_serves_upstream_body.
Defined.

Lemma encoded_hit_loses_content_encoding_witness :
  let c := sample_entry [("content-encoding", "gzip")] "abcdabcd" false in
  hr_headers (to_response_with_cache_status c "HIT") !! "content-encoding" = None.
Proof.
  intros c. unfold c, sample_entry. apply encoded_hit_loses_content_encoding.
  vm_compute. reflexivity.
Defined.

Lemma freshness_interval_witness :
  can_serve_fresh (1001 + from_secs 60) (sample_entry [] "abc" false) = false /\
  can_serve_fresh (1000 + from_secs 61) (sample_entry [] "abc" false) = false.
Proof.
  split; [vm_compute; reflexivity|].
  apply (proj2 (proj2 (freshness_interval (sample_entry [] "abc" false) (1001 + from_secs 60))));
    [vm_compute; split; discriminate|vm_compute; reflexivity].
Defined.

Lemma not_modified_drops_must_revalidate_witness :
  can_serve_fresh 2500
    (refreshed_after_not_modified 2000 (sample_entry [] "abc" true)
       (refresh_ttl_from_headers [("cache-control", "no-cache")] (from_secs 60))) = true.
Proof.
  apply not_modified_drops_must_revalidate; [reflexivity|vm_compute; reflexivity|].
  vm_compute. split; discriminate.
Defined.
