(* ===== verification/L1Cache.v ===== *)
(** * The L1 cache (src/proxy/src/tag_index.rs, sharded_cache.rs)

    The secondary index from cache tags to keys, and the sharded in-memory
    cache that keeps it in step with its entries.

    Parameters: one shard is a [quick_cache] instance ([ShardCache], with what
    its documentation promises as [ShardCacheLaws]); the key hash is std's
    [DefaultHasher], whose algorithm std leaves unspecified; the iteration
    order of a [HashSet] is a function on the set. *)

From Stdlib Require Import Ascii String NArith Lia.
From stdpp Require Import base option gmap sets strings pretty numbers list.
From S2P Require Import Prelude CacheEntry.

(** ** Cache tags *)

Definition header_tags (header : string * string) : list string :=
  let '(name, value) := header in
  if eq_ignore_ascii_case name "cache-tag" then
    List.filter (fun s => negb (str_is_empty s)) (trim <$> split_on "," value)
  else if eq_ignore_ascii_case name "surrogate-key" then
    List.filter (fun s => negb (str_is_empty s)) (split_whitespace value)
  else [].

Definition push_tag (tags : list string) (t : string) : list string :=
  if existsb (String.eqb t) tags then tags else tags ++ [t].

Definition parse_cache_tags (headers : Headers) : list string :=
  fold_left (fun tags h => fold_left push_tag (header_tags h) tags) headers [].

(** ** The tag index *)

Record TagIndex := {
  by_tag : gmap string (gset string);
  by_key : gmap string (list string);
}.

Definition TagIndex_new : TagIndex := {| by_tag := ∅; by_key := ∅ |}.

(** Drop [key] from the set of tag [t], and the set when it becomes empty. *)
Definition tag_remove (key : string) (m : gmap string (gset string)) (t : string)
    : gmap string (gset string) :=
  match m !! t with
  | Some set =>
      let set' := set ∖ {[key]} in
      if decide (set' = ∅) then delete t m else <[t := set']> m
  | None => m
  end.

Definition tag_add (key : string) (m : gmap string (gset string)) (t : string)
    : gmap string (gset string) :=
  <[t := {[key]} ∪ default ∅ (m !! t)]> m.

Definition index (key : string) (tags : list string) (ti : TagIndex) : TagIndex :=
  let old := by_key ti !! key in
  let by_key' := match tags with [] => delete key (by_key ti) | _ => <[key := tags]> (by_key ti) end in
  let by_tag' := fold_left (tag_remove key) (default [] old) (by_tag ti) in
  {| by_tag := fold_left (tag_add key) tags by_tag'; by_key := by_key' |}.

Definition unindex (key : string) (ti : TagIndex) : TagIndex :=
  match by_key ti !! key with
  | None => ti
  | Some tags =>
      {| by_tag := fold_left (tag_remove key) tags (by_tag ti); by_key := delete key (by_key ti) |}
  end.

Definition tag_index_clear (_ : TagIndex) : TagIndex := TagIndex_new.

Definition keys_for_tag (order : gset string -> list string) (tag : string) (ti : TagIndex)
    : list string :=
  match by_tag ti !! tag with Some s => order s | None => [] end.

Definition tag_count (ti : TagIndex) : nat := size (by_tag ti).

(** ** One shard *)

Class ShardCache (V : Type) := {
  shard : Type;
  sc_new : N -> shard;
  sc_peek : shard -> string -> option V;
  sc_get : shard -> string -> shard * option V;
  sc_insert : shard -> string -> V -> shard;
  sc_remove : shard -> string -> shard * option V;
  sc_clear : shard -> shard;
  sc_len : shard -> N;
}.
Arguments shard V {_}.

(** What quick_cache documents: [get] returns the entry without changing the
    contents, [insert] may evict any entry but invents none, [remove] and
    [clear] remove exactly what they name. *)
Class ShardCacheLaws {V} (S : ShardCache V) := {
  sc_new_empty cap k : sc_peek (sc_new cap) k = None;
  sc_get_result s k : (sc_get s k).2 = sc_peek s k;
  sc_get_peek s k k' : sc_peek (sc_get s k).1 k' = sc_peek s k';
  sc_insert_peek s k v k' w :
    sc_peek (sc_insert s k v) k' = Some w ->
    (k' = k /\ w = v) \/ (k' <> k /\ sc_peek s k' = Some w);
  sc_remove_result s k : (sc_remove s k).2 = sc_peek s k;
  sc_remove_peek s k k' :
    sc_peek (sc_remove s k).1 k' = if decide (k' = k) then None else sc_peek s k';
  sc_clear_peek s k : sc_peek (sc_clear s) k = None;
}.

(** ** The sharded cache *)

Definition next_power_of_two (n : N) : N := 2 ^ N.log2_up n.

Section l1.
Context {S : ShardCache CachedResponse} (hash : string -> N) (order : gset string -> list string).

Record HttpL1Cache := {
  shards : list (shard CachedResponse);
  shard_mask : N;
  per_shard_capacity : N;
  tag_index : TagIndex;
}.

Definition HttpL1Cache_new (total_capacity shard_count : N) : HttpL1Cache :=
  let shards_n := next_power_of_two (N.max shard_count 1) in
  let per_shard := N.max (total_capacity / shards_n) 1 in
  {| shards := replicate (N.to_nat shards_n) (sc_new per_shard);
     shard_mask := shards_n - 1;
     per_shard_capacity := per_shard;
     tag_index := TagIndex_new |}.

Definition shard_index (c : HttpL1Cache) (key : string) : nat :=
  N.to_nat (N.land (wrap 64 (hash key)) (shard_mask c)).

(** Indexing a [Vec] out of range panics: [None]. *)
Definition shard_of (c : HttpL1Cache) (key : string) : option (shard CachedResponse) :=
  shards c !! shard_index c key.

Definition with_shard (c : HttpL1Cache) (key : string) (s : shard CachedResponse) : HttpL1Cache :=
  {| shards := <[shard_index c key := s]> (shards c); shard_mask := shard_mask c;
     per_shard_capacity := per_shard_capacity c; tag_index := tag_index c |}.

Definition with_tags (c : HttpL1Cache) (ti : TagIndex) : HttpL1Cache :=
  {| shards := shards c; shard_mask := shard_mask c;
     per_shard_capacity := per_shard_capacity c; tag_index := ti |}.

Definition l1_get (key : string) (c : HttpL1Cache) : option (HttpL1Cache * option CachedResponse) :=
  s ← shard_of c key;
  let '(s', r) := sc_get s key in
  Some (with_shard c key s', r).

Definition l1_insert (key : string) (value : CachedResponse) (c : HttpL1Cache)
    : option HttpL1Cache :=
  let tags := parse_cache_tags (cr_headers value) in
  let c := with_tags c (index key tags (unindex key (tag_index c))) in
  s ← shard_of c key;
  Some (with_shard c key (sc_insert s key value)).

Definition l1_remove (key : string) (c : HttpL1Cache)
    : option (HttpL1Cache * option CachedResponse) :=
  let c := with_tags c (unindex key (tag_index c)) in
  s ← shard_of c key;
  let '(s', r) := sc_remove s key in
  Some (with_shard c key s', r).

Definition l1_len (c : HttpL1Cache) : N := foldr (fun s n => sc_len s + n)%N 0%N (shards c).

Definition l1_clear (c : HttpL1Cache) : HttpL1Cache * N :=
  ({| shards := sc_clear <$> shards c; shard_mask := shard_mask c;
      per_shard_capacity := per_shard_capacity c;
      tag_index := tag_index_clear (tag_index c) |}, l1_len c).

Fixpoint purge_keys (keys : list string) (removed : N) (c : HttpL1Cache)
    : option (HttpL1Cache * N) :=
  match keys with
  | [] => Some (c, removed)
  | key :: keys' =>
      '(c', r) ← l1_remove key c;
      purge_keys keys' (match r with Some _ => removed + 1 | None => removed end)%N c'
  end.

Definition purge_tag (tag : string) (c : HttpL1Cache) : option (HttpL1Cache * N) :=
  purge_keys (keys_for_tag order tag (tag_index c)) 0 c.

Definition l1_capacity (c : HttpL1Cache) : N :=
  per_shard_capacity c * N.of_nat (length (shards c)).

(** The operations as commands, and the caches they reach. *)
Inductive l1_op :=
| L1Get (key : string)
| L1Insert (key : string) (value : CachedResponse)
| L1Remove (key : string)
| L1PurgeTag (tag : string)
| L1Clear.

Definition l1_apply (op : l1_op) (c : HttpL1Cache) : option HttpL1Cache :=
  match op with
  | L1Get key => fst <$> l1_get key c
  | L1Insert key value => l1_insert key value c
  | L1Remove key => fst <$> l1_remove key c
  | L1PurgeTag tag => fst <$> purge_tag tag c
  | L1Clear => Some (l1_clear c).1
  end.

Inductive l1_reachable (cap n : N) : HttpL1Cache -> Prop :=
| l1_reach_new : l1_reachable cap n (HttpL1Cache_new cap n)
| l1_reach_op op c c' :
    l1_reachable cap n c -> l1_apply op c = Some c' -> l1_reachable cap n c'.

(** [l1_insert] of a list of keys, all with the same value. *)
Fixpoint l1_insert_all (keys : list string) (value : CachedResponse) (c : HttpL1Cache)
    : option HttpL1Cache :=
  match keys with
  | [] => Some c
  | key :: keys' => c' ← l1_insert key value c; l1_insert_all keys' value c'
  end.

(** The entry stored under a key, whichever shard holds it. *)
Definition l1_peek (c : HttpL1Cache) (key : string) : option CachedResponse :=
  s ← shard_of c key; sc_peek s key.

End l1.

(** ** Lemmas: the tag index *)

Abbreviation tag_set m t := (default ∅ (m !! t) : gset string).

Definition tags_nonempty (m : gmap string (gset string)) : Prop := forall t, m !! t <> Some ∅.

(** The two maps describe one relation between keys and tags, without empty
    leftovers. *)
Definition tag_ok (ti : TagIndex) : Prop :=
  (forall t k, k ∈ tag_set (by_tag ti) t <-> t ∈ default [] (by_key ti !! k)) /\
  tags_nonempty (by_tag ti) /\ (forall k, by_key ti !! k <> Some []).

Lemma tag_remove_set key m t t' :
  tag_set (tag_remove key m t) t' = if decide (t' = t) then tag_set m t' ∖ {[key]} else tag_set m t'.
Proof.
  unfold tag_remove. destruct (m !! t) as [s|] eqn:Hm.
  - destruct (decide (s ∖ {[key]} = ∅)) as [He|He]; destruct (decide (t' = t)) as [->|Hne];
      simplify_map_eq; done.
  - case_decide; [subst|done]. rewrite Hm. simpl. set_solver.
Qed.

Lemma tag_add_set key m t t' :
  tag_set (tag_add key m t) t' = if decide (t' = t) then {[key]} ∪ tag_set m t' else tag_set m t'.
Proof. unfold tag_add. case_decide; subst; by simplify_map_eq. Qed.

Lemma tag_remove_nonempty key m t : tags_nonempty m -> tags_nonempty (tag_remove key m t).
Proof.
  intros Hm t'. unfold tag_remove. destruct (m !! t) as [s|] eqn:Ht; [|apply Hm].
  destruct (decide (t' = t)) as [->|Hne]; case_decide; simplify_map_eq; try apply Hm; congruence.
Qed.

Lemma tag_add_nonempty key m t : tags_nonempty m -> tags_nonempty (tag_add key m t).
Proof.
  intros Hm t'. unfold tag_add. destruct (decide (t' = t)) as [->|Hne]; simplify_map_eq; [|apply Hm].
  intros [= He]. set_solver.
Qed.

Lemma fold_tag_remove_set key ts m t k :
  k ∈ tag_set (fold_left (tag_remove key) ts m) t <->
  k ∈ tag_set m t /\ ~ (k = key /\ t ∈ ts).
Proof.
  revert m; induction ts as [|t' ts IH]; intros m; simpl; [set_solver|].
  rewrite IH, tag_remove_set. case_decide; set_solver.
Qed.

Lemma fold_tag_add_set key ts m t k :
  k ∈ tag_set (fold_left (tag_add key) ts m) t <->
  k ∈ tag_set m t \/ (k = key /\ t ∈ ts).
Proof.
  revert m; induction ts as [|t' ts IH]; intros m; simpl; [set_solver|].
  rewrite IH, tag_add_set. case_decide; set_solver.
Qed.

Lemma fold_nonempty {A} (f : gmap string (gset string) -> A -> gmap string (gset string)) l m :
  (forall m x, tags_nonempty m -> tags_nonempty (f m x)) ->
  tags_nonempty m -> tags_nonempty (fold_left f l m).
Proof. intros Hf. revert m; induction l; simpl; auto. Qed.

#[local] Hint Resolve fold_nonempty tag_remove_nonempty tag_add_nonempty : bsdm.

Lemma index_tags key tags ti k :
  default [] (by_key (index key tags ti) !! k) =
  if decide (k = key) then tags else default [] (by_key ti !! k).
Proof.
  unfold index. simpl. destruct tags; case_decide; subst; by simplify_map_eq.
Qed.

Lemma index_ok key tags ti : tag_ok ti -> tag_ok (index key tags ti).
Proof.
  intros (Hrel & Hne & Hkey). split_and!.
  - intros t k. rewrite index_tags. simpl. rewrite fold_tag_add_set, fold_tag_remove_set, Hrel.
    destruct (decide (k = key)) as [->|Hk]; [|naive_solver].
    destruct (by_key ti !! key); simpl; set_solver.
  - simpl. eauto 6 with bsdm.
  - intros k. simpl. destruct tags as [|t tags]; destruct (decide (k = key)) as [->|Hk];
      simplify_map_eq; auto.
Qed.

Lemma unindex_tags key ti k :
  default [] (by_key (unindex key ti) !! k) =
  if decide (k = key) then [] else default [] (by_key ti !! k).
Proof.
  unfold unindex. destruct (by_key ti !! key) eqn:Hk; case_decide; subst; simpl; by simplify_map_eq.
Qed.

Lemma unindex_ok key ti : tag_ok ti -> tag_ok (unindex key ti).
Proof.
  intros Hok. unfold unindex. destruct (by_key ti !! key) as [tags|] eqn:Hkey; [|done].
  destruct Hok as (Hrel & Hne & Hk). split_and!; simpl.
  - intros t k. rewrite fold_tag_remove_set, Hrel.
    destruct (decide (k = key)) as [->|?]; simplify_map_eq; set_solver.
  - eauto with bsdm.
  - intros k. destruct (decide (k = key)) as [->|?]; simplify_map_eq; auto.
Qed.

Lemma TagIndex_new_ok : tag_ok TagIndex_new.
Proof. split_and!; [set_solver|intros t; simpl; by rewrite lookup_empty..]. Qed.

Lemma keys_for_tag_spec order tag ti k :
  tag_ok ti -> (forall s, order s ≡ₚ elements s) ->
  k ∈ keys_for_tag order tag ti <-> tag ∈ default [] (by_key ti !! k).
Proof.
  intros (Hrel & _) Hord. rewrite <- Hrel. unfold keys_for_tag.
  destruct (by_tag ti !! tag); simpl; [by rewrite Hord, elem_of_elements|set_solver].
Qed.

Lemma keys_for_tag_NoDup (order : gset string -> list string) tag ti :
  (forall s, order s ≡ₚ elements s) -> NoDup (keys_for_tag order tag ti).
Proof.
  intros Hord. unfold keys_for_tag. case_match; [|constructor].
  rewrite Hord. apply NoDup_elements.
Qed.

#[export] Hint Resolve index_ok unindex_ok TagIndex_new_ok : bsdm.

(** ** Lemmas: the sharded cache *)

Lemma next_power_of_two_le n : (1 <= n)%N -> (n <= next_power_of_two n)%N.
Proof.
  intros Hn. unfold next_power_of_two. destruct (decide (n = 1)%N) as [->|Hne]; [done|].
  apply N.log2_up_spec. lia.
Qed.

Section l1_lemmas.
Context {S : ShardCache CachedResponse} {SL : ShardCacheLaws S}.
Context (hash : string -> N).

(** The shape of the shards, and the agreement of the index with the entries. *)
Definition shards_ok (c : HttpL1Cache) : Prop :=
  exists n, shard_mask c = N.ones n /\ length (shards c) = N.to_nat (2 ^ n).

Definition l1_ok (c : HttpL1Cache) : Prop :=
  shards_ok c /\
  tag_ok (tag_index c) /\
  (forall k v, l1_peek hash c k = Some v ->
     default [] (by_key (tag_index c) !! k) = parse_cache_tags (cr_headers v)).

Lemma shard_index_lt c key :
  shards_ok c -> shard_index hash c key < length (shards c).
Proof.
  intros (n & Hm & Hl). unfold shard_index. rewrite Hm, Hl, N.land_ones.
  pose proof (N.mod_lt (wrap 64 (hash key)) (2 ^ n) ltac:(by apply N.pow_nonzero)). lia.
Qed.

Lemma shard_of_Some c key : shards_ok c -> is_Some (shard_of hash c key).
Proof. intros Hok. apply lookup_lt_is_Some_2. by apply shard_index_lt. Qed.

Lemma l1_peek_with_shard c key s s' k :
  shard_of hash c key = Some s ->
  l1_peek hash (with_shard hash c key s') k =
  if decide (shard_index hash c k = shard_index hash c key) then sc_peek s' k else l1_peek hash c k.
Proof.
  intros Hs. unfold l1_peek, shard_of, with_shard. simpl.
  assert (shard_index hash c key < length (shards c)) as Hlt by (eapply lookup_lt_Some, Hs).
  change (shard_index hash {| shards := _; shard_mask := _; per_shard_capacity := _;
    tag_index := _ |} k) with (shard_index hash c k).
  case_decide as Hd; [rewrite Hd, list_lookup_insert_eq by done; done|].
  by rewrite list_lookup_insert_ne by done.
Qed.

Lemma l1_peek_same_shard c key s k :
  shard_of hash c key = Some s -> shard_index hash c k = shard_index hash c key ->
  l1_peek hash c k = sc_peek s k.
Proof. intros Hs Hi. unfold l1_peek, shard_of in *. rewrite Hi, Hs. done. Qed.

Lemma l1_ok_with_shard c key s' :
  l1_ok c ->
  (forall k v, l1_peek hash (with_shard hash c key s') k = Some v ->
     default [] (by_key (tag_index c) !! k) = parse_cache_tags (cr_headers v)) ->
  l1_ok (with_shard hash c key s').
Proof.
  intros ((n & Hm & Hl) & Ht & _) Hp. split_and!; auto.
  exists n. simpl. by rewrite length_insert.
Qed.

Lemma HttpL1Cache_new_ok cap n : l1_ok (HttpL1Cache_new cap n).
Proof.
  split_and!; simpl; auto with bsdm.
  - exists (N.log2_up (N.max n 1)). simpl. rewrite length_replicate. split; [|done].
    by rewrite N.ones_equiv, N.sub_1_r.
  - intros k v. unfold l1_peek. intros (s & Hs & Hk)%bind_Some.
    apply lookup_replicate in Hs as [-> _]. by rewrite sc_new_empty in Hk.
Qed.

Lemma l1_get_ok key c c' r :
  l1_ok c -> l1_get hash key c = Some (c', r) ->
  l1_ok c' /\ r = l1_peek hash c key /\ forall k, l1_peek hash c' k = l1_peek hash c k.
Proof.
  intros Hok (s & Hs & H)%bind_Some. destruct (sc_get s key) as [s' r'] eqn:Hg. simplify_eq.
  assert (forall k, l1_peek hash (with_shard hash c key s') k = l1_peek hash c k) as Hp.
  { intros k. rewrite (l1_peek_with_shard c key s) by done. case_decide as Hi; [|done].
    rewrite (l1_peek_same_shard c key s) by done.
    pose proof (sc_get_peek s key k) as Hk. by rewrite Hg in Hk. }
  split_and!; [|by rewrite (l1_peek_same_shard c key s), <- sc_get_result, Hg|done].
  apply l1_ok_with_shard; [done|]. intros k v. rewrite Hp. apply Hok.
Qed.

Lemma l1_insert_ok key v c c' :
  l1_ok c -> l1_insert hash key v c = Some c' ->
  l1_ok c' /\
  (forall k w, l1_peek hash c' k = Some w ->
     (k = key /\ w = v) \/ (k <> key /\ l1_peek hash c k = Some w)).
Proof.
  intros Hok (s & Hs & [= <-])%bind_Some.
  set (c1 := with_tags c _) in *.
  assert (forall k w, l1_peek hash (with_shard hash c1 key (sc_insert s key v)) k = Some w ->
    (k = key /\ w = v) \/ (k <> key /\ l1_peek hash c k = Some w)) as Hp.
  { intros k w. rewrite (l1_peek_with_shard c1 key s) by done. case_decide as Hi.
    - intros [?|[? Hk]]%sc_insert_peek; [by left|right]. split; [done|].
      by rewrite <- (l1_peek_same_shard c1 key s k Hs Hi) in Hk.
    - right. split; [by intros ->|done]. }
  split; [|done]. destruct Hok as (Hsh & Ht & Hag). split_and!.
  - destruct Hsh as (n & Hm & Hl). exists n. simpl. by rewrite length_insert.
  - unfold c1. simpl. auto with bsdm.
  - intros k w Hw.
    change (tag_index (with_shard hash c1 key _))
      with (index key (parse_cache_tags (cr_headers v)) (unindex key (tag_index c))).
    rewrite index_tags, unindex_tags.
    destruct (Hp k w Hw) as [[-> ->]|[Hne Hk]]; [by rewrite decide_True|].
    rewrite !decide_False by done. by apply Hag.
Qed.

Lemma l1_remove_ok key c c' r :
  l1_ok c -> l1_remove hash key c = Some (c', r) ->
  l1_ok c' /\ r = l1_peek hash c key /\
  (forall k, l1_peek hash c' k = if decide (k = key) then None else l1_peek hash c k) /\
  (forall k, default [] (by_key (tag_index c') !! k) =
     if decide (k = key) then [] else default [] (by_key (tag_index c) !! k)).
Proof.
  intros Hok (s & Hs & H)%bind_Some. set (c1 := with_tags c _) in *.
  destruct (sc_remove s key) as [s' r'] eqn:Hr. simplify_eq.
  assert (forall k, l1_peek hash (with_shard hash c1 key s') k =
    if decide (k = key) then None else l1_peek hash c k) as Hp.
  { intros k. rewrite (l1_peek_with_shard c1 key s) by done. case_decide as Hi.
    - pose proof (sc_remove_peek s key k) as Hk. rewrite Hr in Hk. simpl in Hk. rewrite Hk.
      case_decide; [done|]. symmetry. exact (l1_peek_same_shard c1 key s k Hs Hi).
    - rewrite decide_False; [done|]. by intros ->. }
  destruct Hok as (Hsh & Ht & Hag).
  split_and!; [split_and!| | |].
  - destruct Hsh as (n & Hm & Hl). exists n. simpl. by rewrite length_insert.
  - unfold c1. simpl. auto with bsdm.
  - intros k w. rewrite Hp.
    change (tag_index (with_shard hash c1 key _)) with (unindex key (tag_index c)).
    rewrite unindex_tags. case_decide; [done|]. apply Hag.
  - pose proof (sc_remove_result s key) as Hres. rewrite Hr in Hres. simpl in Hres. rewrite Hres.
    symmetry. exact (l1_peek_same_shard c1 key s key Hs eq_refl).
  - done.
  - intros k. apply unindex_tags.
Qed.

Lemma l1_remove_Some key c : l1_ok c -> is_Some (l1_remove hash key c).
Proof.
  intros [Hsh _]. unfold l1_remove.
  destruct (shard_of_Some (with_tags c (unindex key (tag_index c))) key Hsh) as [s Hs].
  rewrite Hs. simpl. destruct (sc_remove s key). eauto.
Qed.

(** How many of the keys are present. *)
Definition l1_present (c : HttpL1Cache) (keys : list string) : nat :=
  length (filter (fun k => is_Some (l1_peek hash c k)) keys).

Lemma purge_keys_spec keys n c :
  l1_ok c -> NoDup keys ->
  exists c',
    purge_keys hash keys n c = Some (c', (n + N.of_nat (l1_present c keys))%N) /\
    l1_ok c' /\
    (forall k, l1_peek hash c' k = if decide (k ∈ keys) then None else l1_peek hash c k) /\
    (forall k, default [] (by_key (tag_index c') !! k) =
       if decide (k ∈ keys) then [] else default [] (by_key (tag_index c) !! k)).
Proof.
  revert n c; induction keys as [|key keys IH]; intros n c Hok Hnd.
  { exists c. simpl. rewrite N.add_0_r. split_and!; auto. }
  apply NoDup_cons in Hnd as [Hnin Hnd].
  destruct (l1_remove_Some key c Hok) as [[c1 r] Hr].
  destruct (l1_remove_ok key c c1 r Hok Hr) as (Hok1 & -> & Hpk & Htg).
  destruct (IH (match l1_peek hash c key with Some _ => n + 1 | None => n end)%N c1 Hok1 Hnd)
    as (c' & Hrun & Hok' & Hpk' & Htg').
  exists c'. simpl. rewrite Hr. simpl. rewrite Hrun. split_and!; [|done|..].
  - do 2 f_equal. unfold l1_present.
    assert (filter (fun k => is_Some (l1_peek hash c1 k)) keys =
            filter (fun k => is_Some (l1_peek hash c k)) keys) as ->.
    { apply filter_ext_in. intros k Hk. rewrite Hpk, decide_False; [done|]. by intros ->. }
    rewrite filter_cons. destruct (l1_peek hash c key) as [v|].
    + rewrite decide_True by eauto. simpl. lia.
    + by rewrite decide_False by (by intros [? ?]).
  - intros k. rewrite Hpk', Hpk. repeat case_decide; set_solver.
  - intros k. rewrite Htg', Htg. repeat case_decide; set_solver.
Qed.

Lemma l1_clear_ok c : l1_ok c -> l1_ok (l1_clear c).1.
Proof.
  intros ((n & Hm & Hl) & _ & _). split_and!; simpl; auto with bsdm.
  - exists n. simpl. by rewrite length_fmap.
  - intros k v. unfold l1_peek, shard_of. simpl. rewrite list_lookup_fmap.
    intros (s & (s0 & _ & ->)%fmap_Some & Hk)%bind_Some. by rewrite sc_clear_peek in Hk.
Qed.

Context (order : gset string -> list string).
Hypothesis order_elements : forall s, order s ≡ₚ elements s.

Lemma l1_apply_ok op c :
  l1_ok c -> exists c', l1_apply hash order op c = Some c' /\ l1_ok c'.
Proof.
  intros Hok. destruct op as [key|key v|key|tag|]; simpl.
  - destruct (shard_of_Some c key (proj1 Hok)) as [s Hs].
    destruct (l1_get hash key c) as [[c' r]|] eqn:Hg; simpl.
    + exists c'. split; [done|]. by eapply l1_get_ok.
    + exfalso. revert Hg. unfold l1_get. rewrite Hs. simpl. by destruct (sc_get s key).
  - destruct (l1_insert hash key v c) as [c'|] eqn:Hi.
    + exists c'. split; [done|]. by eapply l1_insert_ok.
    + exfalso. revert Hi. unfold l1_insert. set (c1 := with_tags c _).
      by destruct (shard_of_Some c1 key (proj1 Hok)) as [s ->].
  - destruct (l1_remove_Some key c Hok) as [[c' r] Hr]. rewrite Hr. simpl.
    exists c'. split; [done|]. by eapply l1_remove_ok.
  - destruct (purge_keys_spec (keys_for_tag order tag (tag_index c)) 0 c Hok) as (c' & Hp & Hok' & _).
    { by apply keys_for_tag_NoDup. }
    exists c'. unfold purge_tag. by rewrite Hp.
  - eexists. split; [done|]. by apply l1_clear_ok.
Qed.

Lemma l1_reachable_ok cap n c : l1_reachable hash order cap n c -> l1_ok c.
Proof.
  induction 1 as [|op c c' _ IH Hop]; [apply HttpL1Cache_new_ok|].
  destruct (l1_apply_ok op c IH) as (c1 & Hc1 & ?). by simplify_eq.
Qed.

Lemma l1_insert_tags key v c c' k :
  l1_insert hash key v c = Some c' ->
  default [] (by_key (tag_index c') !! k) =
  if decide (k = key) then parse_cache_tags (cr_headers v) else default [] (by_key (tag_index c) !! k).
Proof.
  intros (s & Hs & [= <-])%bind_Some.
  change (tag_index (with_shard _ _ _ _))
    with (index key (parse_cache_tags (cr_headers v)) (unindex key (tag_index c))).
  rewrite index_tags, unindex_tags. by case_decide.
Qed.

Lemma l1_insert_all_tags keys v c :
  l1_ok c ->
  exists c', l1_insert_all hash keys v c = Some c' /\ l1_ok c' /\
    forall k, default [] (by_key (tag_index c') !! k) =
      if decide (k ∈ keys) then parse_cache_tags (cr_headers v)
      else default [] (by_key (tag_index c) !! k).
Proof.
  revert c; induction keys as [|key keys IH]; intros c Hok.
  { exists c. split_and!; auto. }
  destruct (l1_apply_ok (L1Insert key v) c Hok) as (c1 & Hi & Hok1). simpl in *.
  destruct (IH c1 Hok1) as (c' & Hall & Hok' & Htags). exists c'. rewrite Hi. simpl.
  split_and!; [done..|]. intros k. rewrite Htags, (l1_insert_tags key v c c1 k Hi).
  repeat case_decide; set_solver.
Qed.

Lemma l1_insert_all_reachable cap n keys v c c' :
  l1_reachable hash order cap n c -> l1_insert_all hash keys v c = Some c' ->
  l1_reachable hash order cap n c'.
Proof.
  revert c; induction keys as [|key keys IH]; intros c Hr; [by intros [= <-]|].
  intros (c1 & Hi & Hall)%bind_Some. apply (IH c1); [|done].
  by eapply (l1_reach_op _ _ _ _ (L1Insert key v)).
Qed.

End l1_lemmas.

(** ** Properties *)


(** [purge_tag] is exact: afterwards no entry carrying the tag is left,
    every other entry is still there unchanged, and the count returned is the
    number of indexed keys that were present. *)
Theorem purge_tag_exact {S : ShardCache CachedResponse} {SL : ShardCacheLaws S}
    (hash : string -> N) (order : gset string -> list string) (cap n : N) (c : HttpL1Cache)
    (tag : string) :
  (forall s, order s ≡ₚ elements s) -> l1_reachable hash order cap n c ->
  exists c', purge_tag hash order tag c =
      Some (c', N.of_nat (l1_present hash c (keys_for_tag order tag (tag_index c)))) /\
    (forall k v, l1_peek hash c' k = Some v ->
       l1_peek hash c k = Some v /\ tag ∉ parse_cache_tags (cr_headers v)) /\
    (forall k v, l1_peek hash c k = Some v -> tag ∉ parse_cache_tags (cr_headers v) ->
       l1_peek hash c' k = Some v).
Proof.
  intros Hord Hr%l1_reachable_ok; [|done].
  destruct (purge_keys_spec hash (keys_for_tag order tag (tag_index c)) 0 c Hr) as (c' & Hp & _ & Hpk & _).
  { by apply keys_for_tag_NoDup. }
  exists c'. split; [exact Hp|]. destruct Hr as (_ & Hok & Hag).
  split; intros k v; rewrite Hpk; case_decide as Hin; rewrite keys_for_tag_spec in Hin by done.
  - done.
  - intros Hv. split; [done|]. by rewrite <- (Hag k v Hv).
  - intros Hv. by rewrite (Hag k v Hv) in Hin.
  - done.
Qed.

(** Evicted entries stay in the tag index: after inserting distinct keys
    that share a tag, the index lists all of them, however small the cache is,
    so the index grows with the keys ever inserted and not with the capacity. *)
Theorem tag_index_outgrows_capacity {S : ShardCache CachedResponse} {SL : ShardCacheLaws S}
    (hash : string -> N) (order : gset string -> list string) (cap n : N)
    (keys : list string) (v : CachedResponse) (tag : string) :
  (forall s, order s ≡ₚ elements s) -> NoDup keys -> tag ∈ parse_cache_tags (cr_headers v) ->
  exists c, l1_insert_all hash keys v (HttpL1Cache_new cap n) = Some c /\
    length (keys_for_tag order tag (tag_index c)) = length keys.
Proof.
  intros Hord Hnd Htag.
  destruct (l1_insert_all_tags hash order Hord keys v _ (HttpL1Cache_new_ok hash cap n))
    as (c & Hc & (_ & Hok & _) & Htags).
  exists c. split; [done|]. apply Permutation_length, NoDup_Permutation;
    [by apply keys_for_tag_NoDup|done|].
  intros k. rewrite keys_for_tag_spec, Htags by done. case_decide; [done|].
  simpl. rewrite lookup_empty. set_solver.
Qed.

(** ** Witnesses

    A shard that starts over when it is full. *)

#[export] Instance flush_shard : ShardCache CachedResponse := {|
  shard := N * gmap string CachedResponse;
  sc_new cap := (cap, ∅);
  sc_peek s k := s.2 !! k;
  sc_get s k := (s, s.2 !! k);
  sc_insert s k v := (s.1, <[k := v]> (if (N.of_nat (size s.2) <? s.1)%N then s.2 else ∅));
  sc_remove s k := ((s.1, delete k s.2), s.2 !! k);
  sc_clear s := (s.1, ∅);
  sc_len s := N.of_nat (size s.2);
|}.

#[export] Instance flush_shard_laws : ShardCacheLaws flush_shard.
Proof.
  split; simpl; try done.
  - intros s k v k' w. destruct (decide (k' = k)) as [->|Hne].
    + rewrite lookup_insert_eq. intros [= <-]. by left.
    + rewrite lookup_insert_ne by done. right. split; [done|].
      case_match; [done|]. by rewrite lookup_empty in *.
  - intros s k k'. case_decide; subst; by simplify_map_eq.
Qed.

Definition sample_hash (s : string) : N := str_len s.

Definition tagged_entry (tags : string) : CachedResponse :=
  sample_entry [("Cache-Tag", tags)] "body" false.

Definition sample_l1 : HttpL1Cache :=
  default (HttpL1Cache_new 8 3)
    (l1_insert_all sample_hash ["k1"; "key2"] (tagged_entry "news, sport") (HttpL1Cache_new 8 3)).

Lemma sample_l1_reachable : l1_reachable sample_hash elements 8 3 sample_l1.
Proof.
  eapply (l1_insert_all_reachable _ _ _ _ ["k1"; "key2"] (tagged_entry "news, sport"));
    [constructor|apply present_default; vm_compute; reflexivity].
Qed.


Lemma purge_tag_exact_witness :
  exists c', purge_tag sample_hash elements "sport" sample_l1 = Some (c', 2%N) /\
    l1_peek sample_hash c' "k1" = None.
Proof.
  destruct (purge_tag_exact sample_hash elements 8 3 sample_l1 "sport") as (c' & Hp & Hgone & _);
    [reflexivity|exact sample_l1_reachable|].
  exists c'. split; [rewrite Hp; do 2 f_equal; vm_compute; reflexivity|].
  destruct (l1_peek sample_hash c' "k1") as [v|] eqn:Hv; [|reflexivity].
  exfalso. destruct (Hgone _ _ Hv) as [Hk Hn]. vm_compute in Hk. injection Hk as <-.
  apply Hn. apply (bool_decide_unpack _). vm_compute. exact I.
Defined.

Lemma tag_index_outgrows_capacity_witness :
  l1_len <$> l1_insert_all sample_hash ["a"; "b"; "c"; "d"; "e"] (tagged_entry "news")
      (HttpL1Cache_new 1 1) = Some 1%N /\
  exists c, l1_insert_all sample_hash ["a"; "b"; "c"; "d"; "e"] (tagged_entry "news")
      (HttpL1Cache_new 1 1) = Some c /\
    length (keys_for_tag elements "news" (tag_index c)) = 5.
Proof.
  split; [vm_compute; reflexivity|].
  destruct (tag_index_outgrows_capacity sample_hash elements 1 1 ["a"; "b"; "c"; "d"; "e"]
    (tagged_entry "news") "news") as (c & Hc & Hlen).
  - reflexivity.
  - apply (bool_decide_unpack _). vm_compute. exact I.
  - apply (bool_decide_unpack _). vm_compute. exact I.
  - exists c. split; [exact Hc|exact Hlen].
Defined.
