(* ===== verification/L2Cache.v ===== *)
(** * The Redis L2 cache and the streaming miss (src/proxy/src/l2_cache.rs,
    streaming_miss.rs)

    The wire form of a cache entry and its conversions, the operations of the
    L2 cache against the replies of the Redis server, and the task that tees an
    upstream body to the client while buffering it for the caches.

    Parameters: base64 and serde_json ([WireCodec]); the Redis server, whose
    replies are arguments and whose commands are results. *)

From Stdlib Require Import Ascii String NArith Lia.
From stdpp Require Import base option gmap sets strings pretty numbers list.
From S2P Require Import Prelude CacheEntry.

(** ** The wire form *)

Record CachedResponseWire := {
  w_status : N;
  w_headers : Headers;
  w_body_b64 : string;
  w_body_encoding : option string;
  w_uncompressed_len : option N;
  w_cached_at_secs : N;
  w_ttl_secs : N;
  w_etag : option string;
  w_last_modified : option string;
  w_is_negative : bool;
  w_must_revalidate : bool;
}.

Class WireCodec := {
  b64_encode : string -> string;
  b64_decode : string -> option string;
  json_to_string : CachedResponseWire -> option string;
  json_from_str : string -> option CachedResponseWire;
}.

(** Decoding inverts encoding, for base64 and for the JSON of the wire type. *)
Class WireCodecLaws (W : WireCodec) := {
  b64_inverse s : b64_decode (b64_encode s) = Some s;
  json_inverse w p : json_to_string w = Some p -> json_from_str p = Some w;
}.

Section l2.
Context {W : WireCodec}.

Definition from_cached (value : CachedResponse) : option CachedResponseWire :=
  Some {|
    w_status := cr_status value;
    w_headers := cr_headers value;
    w_body_b64 := b64_encode (to_bytes (cr_body value));
    w_body_encoding :=
      if decide (cr_body_encoding value = Raw) then None
      else Some (wire_name (cr_body_encoding value));
    w_uncompressed_len := Some (cr_uncompressed_len value);
    w_cached_at_secs := as_secs (cr_cached_at value);
    w_ttl_secs := as_secs (cr_ttl value);
    w_etag := cr_etag value;
    w_last_modified := cr_last_modified value;
    w_is_negative := cr_is_negative value;
    w_must_revalidate := cr_must_revalidate value;
  |}.

(** The outer [None] is the panic of [UNIX_EPOCH + Duration]. *)
Definition into_cached (w : CachedResponseWire) : option (option CachedResponse) :=
  match b64_decode (w_body_b64 w) with
  | None => Some None
  | Some body =>
      let body_encoding := default Raw (w_body_encoding w ≫= from_wire) in
      let uncompressed_len := default (str_len body) (w_uncompressed_len w) in
      cached_at ← checked_add_time 0 (from_secs (w_cached_at_secs w));
      Some (Some {|
        cr_status := w_status w;
        cr_headers := w_headers w;
        cr_body := Inline body;
        cr_body_encoding := body_encoding;
        cr_uncompressed_len := uncompressed_len;
        cr_cached_at := cached_at;
        cr_ttl := from_secs (w_ttl_secs w);
        cr_etag := w_etag w;
        cr_last_modified := w_last_modified w;
        cr_is_negative := w_is_negative w;
        cr_must_revalidate := w_must_revalidate w;
      |})
  end.

Definition encode_cached_response (value : CachedResponse) : option string :=
  wire ← from_cached value; json_to_string wire.

Definition decode_cached_response (payload : string) : option (option CachedResponse) :=
  match json_from_str payload with
  | None => Some None
  | Some wire => into_cached wire
  end.

(** ** Operations *)

Record L2CacheConfig := {
  l2_enabled : bool;
  l2_url : string;
  l2_key_prefix : string;
}.

Definition L2CacheConfig_from_env (env : Env) : L2CacheConfig := {|
  l2_enabled := env_flag_default_off env "REDIS_L2_ENABLED";
  l2_url := default "redis://127.0.0.1:6379" (env "REDIS_URL");
  l2_key_prefix := default "bsdm:http:" (env "REDIS_KEY_PREFIX");
|}.

Inductive RedisCmd :=
| RGet (key : string)
| RSetEx (key payload : string) (ttl_secs : N)
| RDel (keys : list string)
| RScan (cursor : N).

Inductive L2Metric := L2Hit | L2Miss | L2Error.

Definition redis_key (key_prefix cache_key : string) : string := key_prefix +:+ cache_key.

Definition remaining_ttl_secs (now : N) (value : CachedResponse) : N :=
  match checked_add_time (cr_cached_at value) (cr_ttl value) with
  | Some expires =>
      if (expires <? now)%N then 1%N else N.max (as_secs (expires - now)) 1
  | None => 1%N
  end.

(** [reply] is the answer to the [GET]: an error, no value, or a payload.  The
    result is the entry, the commands sent and the metric counted. *)
Definition l2_get (now : N) (key_prefix cache_key : string)
    (reply : result (option string) unit)
    : option (option CachedResponse * list RedisCmd * L2Metric) :=
  let key := redis_key key_prefix cache_key in
  match reply with
  | Err _ => Some (None, [RGet key], L2Error)
  | Ok None => Some (None, [RGet key], L2Miss)
  | Ok (Some payload) =>
      decoded ← decode_cached_response payload;
      match decoded with
      | Some v =>
          if can_serve_fresh now v then Some (Some v, [RGet key], L2Hit)
          else Some (None, [RGet key; RDel [key]], L2Miss)
      | None => Some (None, [RGet key], L2Error)
      end
  end.

Definition l2_set (now : N) (key_prefix cache_key : string) (value : CachedResponse)
    : list RedisCmd :=
  match encode_cached_response value with
  | None => []
  | Some payload => [RSetEx (redis_key key_prefix cache_key) payload (remaining_ttl_secs now value)]
  end.

Definition l2_delete (key_prefix cache_key : string) : list RedisCmd :=
  [RDel [redis_key key_prefix cache_key]].

(** The [SCAN] loop against the server's successive replies (next cursor and
    keys, or an error); it runs out only if the replies do. *)
Fixpoint flush_prefix (cursor : N) (replies : list (result (N * list string) unit))
    : list RedisCmd :=
  match replies with
  | [] => [RScan cursor]
  | Err _ :: _ => [RScan cursor]
  | Ok (next, keys) :: replies' =>
      RScan cursor ::
      (match keys with [] => [] | _ => [RDel keys] end) ++
      (if (next =? 0)%N then [] else flush_prefix next replies')
  end.

End l2.

(** ** The streaming miss *)

(** A frame of a body: data, trailers, or neither. *)
Inductive Frame :=
| FData (chunk : string)
| FTrailers (ok : bool)
| FOther.

(** The upstream stream: frames, then either the end or an error. *)
Inductive Upstream :=
| UEnd
| UError
| UFrame (f : Frame) (rest : Upstream).

(** What the client's channel receives. *)
Inductive Sent :=
| SData (chunk : string)
| STrailers
| SError.

Record drain_state := {
  ds_acc : string;
  ds_attempt_cache : bool;
  ds_client_gone : bool;
  ds_sent : list Sent;
}.

(** The buffering half of the loop body. *)
Definition drain_buffer (max_body : N) (chunk : string) (st : drain_state) : drain_state :=
  if ds_attempt_cache st then
    if (max_body <? str_len (ds_acc st) + str_len chunk)%N then
      {| ds_acc := EmptyString; ds_attempt_cache := false;
         ds_client_gone := ds_client_gone st; ds_sent := ds_sent st |}
    else
      {| ds_acc := ds_acc st +:+ chunk; ds_attempt_cache := true;
         ds_client_gone := ds_client_gone st; ds_sent := ds_sent st |}
  else st.

(** [tx.send(..)]; [send_ok] tells whether the receiver is still there. *)
Definition drain_send (send_ok : bool) (msg : Sent) (st : drain_state) : drain_state :=
  if send_ok then
    {| ds_acc := ds_acc st; ds_attempt_cache := ds_attempt_cache st;
       ds_client_gone := ds_client_gone st; ds_sent := ds_sent st ++ [msg] |}
  else
    {| ds_acc := ds_acc st; ds_attempt_cache := ds_attempt_cache st;
       ds_client_gone := true; ds_sent := ds_sent st |}.

Definition drain_frame (max_body : N) (send_ok : bool) (f : Frame) (st : drain_state)
    : drain_state :=
  let st := match f with FData chunk => drain_buffer max_body chunk st | _ => st end in
  if ds_client_gone st then st
  else
    match f with
    | FData chunk => drain_send send_ok (SData chunk) st
    | FTrailers true => drain_send send_ok STrailers st
    | FTrailers false =>
        {| ds_acc := ds_acc st; ds_attempt_cache := ds_attempt_cache st;
           ds_client_gone := true; ds_sent := ds_sent st |}
    | FOther => st
    end.

(** [oks] are the outcomes of the sends, in order of the frames; a receiver
    that is gone is reported from then on ([false] past the list). *)
Fixpoint drain_loop (max_body : N) (u : Upstream) (oks : list bool) (st : drain_state)
    : drain_state :=
  match u with
  | UEnd => st
  | UError => drain_send (default false (head oks)) SError st
  | UFrame f rest =>
      drain_loop max_body rest (tail oks)
        (drain_frame max_body (default false (head oks)) f st)
  end.

(** The whole task: what the client was sent and the arguments of [on_complete]. *)
Definition spawn_upstream_drain (u : Upstream) (attempt_cache : bool) (max_body : N)
    (oks : list bool) : list Sent * (string * bool) :=
  let st := drain_loop max_body u oks
    {| ds_acc := EmptyString; ds_attempt_cache := attempt_cache;
       ds_client_gone := false; ds_sent := [] |} in
  (ds_sent st, (if ds_attempt_cache st then ds_acc st else EmptyString, ds_attempt_cache st)).

(** ** Lemmas *)

Lemma as_secs_le d : (from_secs (as_secs d) <= d)%N.
Proof.
  unfold from_secs, as_secs. rewrite N.mul_comm. apply N.Div0.mul_div_le.
Qed.

Lemma from_wire_wire_name e : e <> Raw -> from_wire (wire_name e) = Some e.
Proof. by destruct e. Qed.

(** An entry as it comes back from L2: its body inline, its times in whole seconds. *)
Definition truncate_times (c : CachedResponse) : CachedResponse :=
  {| cr_status := cr_status c; cr_headers := cr_headers c;
     cr_body := Inline (to_bytes (cr_body c)); cr_body_encoding := cr_body_encoding c;
     cr_uncompressed_len := cr_uncompressed_len c;
     cr_cached_at := from_secs (as_secs (cr_cached_at c));
     cr_ttl := from_secs (as_secs (cr_ttl c));
     cr_etag := cr_etag c; cr_last_modified := cr_last_modified c;
     cr_is_negative := cr_is_negative c; cr_must_revalidate := cr_must_revalidate c |}.

Lemma decode_encode {W : WireCodec} {WL : WireCodecLaws W} c payload :
  (cr_cached_at c <= max_system_time)%N ->
  encode_cached_response c = Some payload ->
  decode_cached_response payload = Some (Some (truncate_times c)).
Proof.
  intros Ht (w & [= <-] & Hj)%bind_Some. unfold decode_cached_response.
  rewrite (json_inverse _ _ Hj). unfold into_cached. simpl. rewrite b64_inverse.
  unfold checked_add_time. rewrite N.add_0_l, (proj2 (N.leb_le _ _)).
  2: { etransitivity; [apply as_secs_le|done]. }
  simpl. do 2 f_equal. unfold truncate_times. f_equal.
  case_decide as Hr; simpl; [done|]. by rewrite from_wire_wire_name.
Qed.

Fixpoint u_data (u : Upstream) : string :=
  match u with
  | UEnd | UError => EmptyString
  | UFrame (FData chunk) rest => chunk +:+ u_data rest
  | UFrame _ rest => u_data rest
  end.

(** The same frames, ended normally. *)
Fixpoint u_ended (u : Upstream) : Upstream :=
  match u with
  | UEnd | UError => UEnd
  | UFrame f rest => UFrame f (u_ended rest)
  end.

Fixpoint u_chunks (u : Upstream) : list Sent :=
  match u with
  | UEnd => []
  | UError => [SError]
  | UFrame (FData chunk) rest => SData chunk :: u_chunks rest
  | UFrame (FTrailers true) rest => STrailers :: u_chunks rest
  | UFrame _ rest => u_chunks rest
  end.

Lemma drain_frame_cache max_body ok f st :
  (ds_acc (drain_frame max_body ok f st), ds_attempt_cache (drain_frame max_body ok f st)) =
  match f with
  | FData chunk => (ds_acc (drain_buffer max_body chunk st),
                    ds_attempt_cache (drain_buffer max_body chunk st))
  | _ => (ds_acc st, ds_attempt_cache st)
  end.
Proof.
  unfold drain_frame. destruct f as [chunk|[]|]; case_match; try done; by destruct ok.
Qed.

(** What is buffered after the loop depends only on the data, not on the client
    nor on how the stream ends. *)
Lemma drain_loop_cache max_body u oks st :
  (ds_attempt_cache st = true -> str_len (ds_acc st) <= max_body)%N ->
  let st' := drain_loop max_body u oks st in
  ds_attempt_cache st' =
    ds_attempt_cache st && (str_len (ds_acc st) + str_len (u_data u) <=? max_body)%N /\
  (ds_attempt_cache st' = true -> ds_acc st' = ds_acc st +:+ u_data u).
Proof.
  revert oks st; induction u as [| |f rest IH]; intros oks st Hacc; simpl.
  - rewrite string_app_nil_r, N.add_0_r. split; [|done].
    destruct (ds_attempt_cache st); [|done]. symmetry. apply N.leb_le. auto.
  - rewrite string_app_nil_r, N.add_0_r.
    assert (forall b, ds_attempt_cache (drain_send b SError st) = ds_attempt_cache st /\
      ds_acc (drain_send b SError st) = ds_acc st) as Hs by (by intros []).
    destruct (Hs (default false (head oks))) as [-> ->]. split; [|done].
    destruct (ds_attempt_cache st); [|done]. symmetry. apply N.leb_le. auto.
  - pose proof (drain_frame_cache max_body (default false (head oks)) f st) as Hf.
    set (st1 := drain_frame _ _ _ st) in *. clearbody st1.
    destruct f as [chunk|ok|]; injection Hf as Ha Hc.
    2,3: destruct (IH (tail oks) st1) as [IH1 IH2];
      [rewrite Ha, Hc; exact Hacc|]; rewrite Ha, Hc in IH1; rewrite Ha in IH2; done.
    assert (str_len (ds_acc st) + str_len (chunk +:+ u_data rest) =
            str_len (ds_acc st +:+ chunk) + str_len (u_data rest))%N as Hlen.
    { unfold str_len. rewrite !string_length_app. lia. }
    unfold drain_buffer in Ha, Hc. rewrite Hlen.
    destruct (ds_attempt_cache st) eqn:Hat; simpl.
    + destruct (N.ltb_spec max_body (str_len (ds_acc st) + str_len chunk)) as [Hlt|Hle];
        simpl in Ha, Hc.
      * destruct (IH (tail oks) st1) as [IH1 IH2]; [by rewrite Hc|].
        rewrite Hc in IH1. simpl in IH1. rewrite IH1. split; [|congruence].
        symmetry. apply N.leb_gt. unfold str_len in *. rewrite string_length_app. lia.
      * destruct (IH (tail oks) st1) as [IH1 IH2];
          [rewrite Ha; intros _; unfold str_len in *; rewrite string_length_app; lia|].
        rewrite Ha, Hc in IH1. rewrite Ha in IH2. simpl in IH1. rewrite IH1.
        split; [done|]. intros Ht. rewrite IH2 by congruence. by rewrite string_app_assoc.
    + destruct (IH (tail oks) st1) as [IH1 IH2]; [by rewrite Hc, Hat|].
      rewrite Hc, Hat in IH1. simpl in IH1. rewrite IH1. split; [done|congruence].
Qed.

Lemma drain_complete u attempt max_body oks :
  (spawn_upstream_drain u attempt max_body oks).2 =
  if attempt && (str_len (u_data u) <=? max_body)%N then (u_data u, true) else (EmptyString, false).
Proof.
  unfold spawn_upstream_drain. set (st0 := {| ds_acc := EmptyString |}).
  destruct (drain_loop_cache max_body u oks st0) as [H1 H2]; [intros _; apply N.le_0_l|].
  simpl in *. rewrite H1. destruct (attempt && _) eqn:Ha; [|done].
  rewrite H2 by (by rewrite H1). done.
Qed.


Fixpoint u_len (u : Upstream) : nat :=
  match u with UEnd | UError => 0 | UFrame _ rest => S (u_len rest) end.

Fixpoint u_wellformed (u : Upstream) : bool :=
  match u with
  | UEnd | UError => true
  | UFrame (FTrailers false) _ => false
  | UFrame _ rest => u_wellformed rest
  end.

Lemma drain_buffer_client max_body chunk st :
  ds_client_gone (drain_buffer max_body chunk st) = ds_client_gone st /\
  ds_sent (drain_buffer max_body chunk st) = ds_sent st.
Proof. unfold drain_buffer. by repeat case_match. Qed.

Lemma drain_loop_sent max_body u st :
  u_wellformed u = true -> ds_client_gone st = false ->
  forall n, u_len u < n ->
  ds_sent (drain_loop max_body u (replicate n true) st) = ds_sent st ++ u_chunks u.
Proof.
  revert st; induction u as [| |f rest IH]; intros st Hwf Hgone n Hn.
  - by rewrite app_nil_r.
  - destruct n; [simpl in Hn; lia|]. done.
  - destruct n as [|n]; [simpl in Hn; lia|]. simpl in *.
    destruct f as [chunk|[]|]; try done; unfold drain_frame.
    + destruct (drain_buffer_client max_body chunk st) as [H1 H2]. rewrite H1, Hgone.
      rewrite IH; [|done|by simpl; rewrite H1|lia]. simpl. rewrite H2, <- app_assoc. done.
    + rewrite Hgone. rewrite IH; [|done|done|lia]. simpl. by rewrite <- app_assoc.
    + rewrite Hgone. apply IH; [done|done|lia].
Qed.

(** ** Properties *)

(** C31: L2 round trip: an entry written to L2 and read back is the entry with its
    times in whole seconds; every other field, the body and its encoding
    included, is unchanged. *)
Theorem l2_roundtrip {W : WireCodec} {WL : WireCodecLaws W} (c : CachedResponse) (payload : string) :
  (cr_cached_at c <= max_system_time)%N -> encode_cached_response c = Some payload ->
  decode_cached_response payload = Some (Some (truncate_times c)).
Proof. apply decode_encode. Qed.

(** L2 never extends freshness: what [l2_get] returns from a payload written
    for an entry is fresh only while the entry itself is, at every moment from
    its storage on; stale entries are deleted from Redis. *)
Theorem l2_get_conservative {W : WireCodec} {WL : WireCodecLaws W} (c : CachedResponse)
    (payload prefix key : string) (now : N) :
  (cr_cached_at c <= max_system_time)%N -> encode_cached_response c = Some payload ->
  (cr_cached_at c <= now)%N ->
  exists r cmds m, l2_get now prefix key (Ok (Some payload)) = Some (r, cmds, m) /\
    ((r = Some (truncate_times c) /\ can_serve_fresh now c = true) \/
     (r = None /\ RDel [redis_key prefix key] ∈ cmds)).
Proof.
  intros Ht He Hnow. unfold l2_get. rewrite (decode_encode c payload Ht He). simpl.
  destruct (can_serve_fresh now (truncate_times c)) eqn:Hf.
  - do 3 eexists. split; [done|]. left. split; [done|].
    apply can_serve_fresh_spec in Hf as [Hm Hi]. simpl in *.
    apply can_serve_fresh_spec. split; [done|].
    pose proof (as_secs_le (cr_cached_at c)). pose proof (as_secs_le (cr_ttl c)). lia.
  - do 3 eexists. split; [done|]. right. split; [done|]. set_solver.
Qed.

(** The tee delivers and buffers everything: while the client reads, it gets
    every frame of the upstream in order and unchanged; and whether or not it
    reads, a stream within the limit is handed to the cache whole, and one
    beyond it not at all. *)
Theorem tee_complete (u : Upstream) (attempt : bool) (max_body : N) (oks : list bool) :
  (u_wellformed u = true ->
     (spawn_upstream_drain u attempt max_body (replicate (S (u_len u)) true)).1 = u_chunks u) /\
  (spawn_upstream_drain u attempt max_body oks).2 =
    if attempt && (str_len (u_data u) <=? max_body)%N then (u_data u, true)
    else (EmptyString, false).
Proof.
  split; [|apply drain_complete]. intros Hwf. unfold spawn_upstream_drain. cbn [fst].
  rewrite drain_loop_sent; [done|done|done|lia].
Qed.

(** A body cut off by an upstream error is completed like a whole one: what
    the cache is given does not tell an upstream failure from the end of the
    stream, so the truncated prefix is marked cacheable. *)
Theorem truncated_stream_is_cached (u : Upstream) (max_body : N) (oks : list bool) :
  (str_len (u_data u) <= max_body)%N ->
  (spawn_upstream_drain u true max_body oks).2 = (u_data u, true) /\
  (spawn_upstream_drain u true max_body oks).2 =
    (spawn_upstream_drain (u_ended u) true max_body oks).2.
Proof.
  intros Hlen. rewrite !drain_complete.
  assert (u_data (u_ended u) = u_data u) as ->.
  { clear. induction u as [| |[] rest IH]; simpl; congruence. }
  by rewrite (proj2 (N.leb_le _ _) Hlen).
Qed.

(** ** Witnesses

    A codec that keeps bodies as they are and a JSON codec that knows one value. *)

Definition sample_wire_entry : CachedResponse := sample_entry [("content-type", "text/html")] "abc" false.

#[export] Instance CachedResponseWire_eq_dec : EqDecision CachedResponseWire.
Proof. solve_decision. Defined.

Definition sample_wire : CachedResponseWire :=
  {| w_status := 200; w_headers := [("content-type", "text/html")]; w_body_b64 := "abc";
     w_body_encoding := None; w_uncompressed_len := Some 3%N; w_cached_at_secs := 0;
     w_ttl_secs := 60; w_etag := None; w_last_modified := None; w_is_negative := false;
     w_must_revalidate := false |}.

#[export] Instance sample_wire_codec : WireCodec := {|
  b64_encode s := s;
  b64_decode s := Some s;
  json_to_string w := if decide (w = sample_wire) then Some "{}" else None;
  json_from_str p := if String.eqb p "{}" then Some sample_wire else None;
|}.

#[export] Instance sample_wire_laws : WireCodecLaws sample_wire_codec.
Proof. split; simpl; [done|]. intros w p. case_decide; [subst|done]. by intros [= <-]. Qed.

Lemma l2_roundtrip_witness :
  decode_cached_response "{}" = Some (Some (truncate_times sample_wire_entry)).
Proof.
  apply (l2_roundtrip sample_wire_entry); [vm_compute; discriminate|vm_compute; reflexivity].
Defined.

Lemma l2_get_conservative_witness :
  exists r cmds m, l2_get (from_secs 30) "p:" "k" (Ok (Some "{}")) = Some (r, cmds, m) /\
    r = Some (truncate_times sample_wire_entry).
Proof.
  destruct (l2_get_conservative sample_wire_entry "{}" "p:" "k" (from_secs 30))
    as (r & cmds & m & Hg & Hcase); [vm_compute; discriminate|vm_compute; reflexivity|vm_compute; discriminate|].
  exists r, cmds, m. split; [exact Hg|]. destruct Hcase as [[Hr _]|[Hr _]]; [exact Hr|].
  exfalso. subst r. vm_compute in Hg. discriminate Hg.
Defined.

Lemma truncated_stream_is_cached_witness :
  (spawn_upstream_drain (UFrame (FData "half of ") UError) true 100 [true]).2 = ("half of ", true).
Proof. apply truncated_stream_is_cached. vm_compute. discriminate. Defined.
