(* ===== verification/MissCoalesce.v ===== *)
(** * Miss coalescing (src/proxy/src/miss_coalesce.rs)

    Singleflight for concurrent misses: the first request for a key becomes
    the leader of a flight, later ones follow it until its outcome is
    published.

    The map and the channels are executable functions of a shared state; the
    interleaving of requests is a step relation, in which a permit carries the
    flight it was created with as ghost information (the source's permit only
    knows its key). *)

From Stdlib Require Import Ascii String NArith Lia.
From stdpp Require Import base option gmap sets strings list relations.
From S2P Require Import Prelude CacheEntry.

Inductive FlightState :=
| Pending
| Done (result : option CachedResponse).

(** [inner] maps a key to its flight; [channels] holds the last value sent on
    each flight's [watch] channel; [next_flight] allocates identities. *)
Record MissFlightMap := {
  inner : gmap string nat;
  channels : gmap nat FlightState;
  next_flight : nat;
}.

Definition MissFlightMap_new : MissFlightMap :=
  {| inner := ∅; channels := ∅; next_flight := 0 |}.

Inductive CoalesceJoin :=
| Leader (flight : nat)
| Follower (flight : nat).

Definition flight_join (key : string) (m : MissFlightMap) : MissFlightMap * CoalesceJoin :=
  match inner m !! key with
  | Some f => (m, Follower f)
  | None =>
      let f := next_flight m in
      ({| inner := <[key := f]> (inner m); channels := <[f := Pending]> (channels m);
          next_flight := S f |}, Leader f)
  end.

Definition flight_complete (key : string) (res : option CachedResponse) (m : MissFlightMap)
    : MissFlightMap :=
  match inner m !! key with
  | None => m
  | Some f =>
      {| inner := delete key (inner m); channels := <[f := Done res]> (channels m);
         next_flight := next_flight m |}
  end.

(** ** Permits *)

Record MissFlightPermit := {
  permit_key : string;
  disarmed : bool;
}.

Definition permit_disarm (p : MissFlightPermit) : MissFlightPermit :=
  {| permit_key := permit_key p; disarmed := true |}.

Definition permit_drop (p : MissFlightPermit) (m : MissFlightMap) : MissFlightMap :=
  if disarmed p then m else flight_complete (permit_key p) None m.

(** [complete] disarms, publishes, and then the permit is dropped. *)
Definition permit_complete (p : MissFlightPermit) (res : option CachedResponse)
    (m : MissFlightMap) : MissFlightMap :=
  let p := permit_disarm p in
  permit_drop p (flight_complete (permit_key p) res m).

(** ** Waiting

    The values a follower sees: the current one, then one per wake-up; the end
    of the list is a sender dropped without a further value. *)
Fixpoint flight_wait (seen : list FlightState) : option CachedResponse :=
  match seen with
  | [] => None
  | Done result :: _ => result
  | Pending :: seen' => flight_wait seen'
  end.

(** ** Interleavings *)

(** Who still has to finish a flight: the holder of its permit, or the miss
    completion the permit was disarmed for. *)
Inductive duty :=
| Armed (p : MissFlightPermit)
| Delegated (key : string).

Definition duty_key (d : duty) : string :=
  match d with Armed p => permit_key p | Delegated key => key end.

(** [duties] by flight; [followers] lists the flight each waiting request follows. *)
Record coalesce_state := {
  cs_map : MissFlightMap;
  cs_duties : gmap nat duty;
  cs_followers : list nat;
  cs_outcomes : gmap nat (option CachedResponse);
}.

Definition coalesce_init : coalesce_state :=
  {| cs_map := MissFlightMap_new; cs_duties := ∅; cs_followers := []; cs_outcomes := ∅ |}.

Inductive coalesce_step : coalesce_state -> coalesce_state -> Prop :=
(** A request joins and leads. *)
| step_lead key m' f st :
    flight_join key (cs_map st) = (m', Leader f) ->
    coalesce_step st
      {| cs_map := m';
         cs_duties := <[f := Armed {| permit_key := key; disarmed := false |}]> (cs_duties st);
         cs_followers := cs_followers st; cs_outcomes := cs_outcomes st |}
(** A request joins and follows. *)
| step_follow key m' f st :
    flight_join key (cs_map st) = (m', Follower f) ->
    coalesce_step st
      {| cs_map := m'; cs_duties := cs_duties st; cs_followers := f :: cs_followers st;
         cs_outcomes := cs_outcomes st |}
(** The holder completes its permit. *)
| step_complete f p res st :
    cs_duties st !! f = Some (Armed p) ->
    coalesce_step st
      {| cs_map := permit_complete p res (cs_map st); cs_duties := delete f (cs_duties st);
         cs_followers := cs_followers st; cs_outcomes := <[f := res]> (cs_outcomes st) |}
(** The holder is dropped (an early return, an error, a cancelled request). *)
| step_drop f p st :
    cs_duties st !! f = Some (Armed p) ->
    coalesce_step st
      {| cs_map := permit_drop p (cs_map st); cs_duties := delete f (cs_duties st);
         cs_followers := cs_followers st; cs_outcomes := <[f := None]> (cs_outcomes st) |}
(** The holder disarms its permit for the streaming completion. *)
| step_disarm f p st :
    cs_duties st !! f = Some (Armed p) ->
    coalesce_step st
      {| cs_map := permit_drop (permit_disarm p) (cs_map st);
         cs_duties := <[f := Delegated (permit_key p)]> (cs_duties st);
         cs_followers := cs_followers st; cs_outcomes := cs_outcomes st |}
(** The streaming completion finishes the flight. *)
| step_delegated f key res st :
    cs_duties st !! f = Some (Delegated key) ->
    coalesce_step st
      {| cs_map := flight_complete key res (cs_map st); cs_duties := delete f (cs_duties st);
         cs_followers := cs_followers st; cs_outcomes := <[f := res]> (cs_outcomes st) |}.

Abbreviation coalesce_reachable := (rtc coalesce_step coalesce_init).

(** ** The invariant *)

Record coalesce_ok (st : coalesce_state) : Prop := {
  (** the map holds exactly the flights somebody has to finish *)
  ok_duties key f :
    inner (cs_map st) !! key = Some f <->
    exists d, cs_duties st !! f = Some d /\ duty_key d = key;
  ok_armed f p : cs_duties st !! f = Some (Armed p) -> disarmed p = false;
  (** a flight is pending until it is finished, then shows its own outcome *)
  ok_pending f d : cs_duties st !! f = Some d -> channels (cs_map st) !! f = Some Pending;
  ok_done f res : cs_outcomes st !! f = Some res -> channels (cs_map st) !! f = Some (Done res);
  (** no follower is left behind *)
  ok_followers f :
    f ∈ cs_followers st -> is_Some (cs_duties st !! f) \/ is_Some (cs_outcomes st !! f);
  ok_fresh f : is_Some (cs_duties st !! f) \/ is_Some (cs_outcomes st !! f) ->
    f < next_flight (cs_map st);
}.

(** ** Lemmas *)

Lemma permit_complete_eq p res m :
  permit_complete p res m = flight_complete (permit_key p) res m.
Proof. done. Qed.

Lemma init_ok : coalesce_ok coalesce_init.
Proof.
  split; simpl.
  - intros key f. rewrite lookup_empty. split; [done|]. intros (? & Hd & _).
    by rewrite lookup_empty in Hd.
  - intros f p. by rewrite lookup_empty.
  - intros f d. by rewrite lookup_empty.
  - intros f res. by rewrite lookup_empty.
  - intros f. by rewrite elem_of_nil.
  - intros f. rewrite !lookup_empty. by intros [[]|[]].
Qed.

(** The flight of a duty is the one its key maps to. *)
Lemma duty_inner st f d :
  coalesce_ok st -> cs_duties st !! f = Some d -> inner (cs_map st) !! duty_key d = Some f.
Proof. intros Hok Hd. apply (ok_duties st Hok). eauto. Qed.

(** Finishing the duty [d] of flight [f] with [res]. *)
Lemma finish_ok st f d res :
  coalesce_ok st -> cs_duties st !! f = Some d ->
  coalesce_ok
    {| cs_map := flight_complete (duty_key d) res (cs_map st); cs_duties := delete f (cs_duties st);
       cs_followers := cs_followers st; cs_outcomes := <[f := res]> (cs_outcomes st) |}.
Proof.
  intros Hok Hd. pose proof (duty_inner st f d Hok Hd) as Hin.
  unfold flight_complete. rewrite Hin. split; simpl.
  - intros key f'. destruct (decide (key = duty_key d)) as [->|Hk].
    + rewrite lookup_delete_eq. split; [done|]. intros (d' & Hd' & Hk').
      destruct (decide (f' = f)) as [->|Hf]; simplify_map_eq.
      pose proof (duty_inner st f' d' Hok Hd') as Hin'. congruence.
    + rewrite lookup_delete_ne by done. rewrite (ok_duties st Hok).
      split; intros (d' & Hd' & Hk'); exists d'; (split; [|done]);
        destruct (decide (f' = f)) as [->|Hf]; simplify_map_eq; done.
  - intros f' p Hp. destruct (decide (f' = f)) as [->|Hf]; simplify_map_eq. by eapply ok_armed.
  - intros f' d' Hd'. destruct (decide (f' = f)) as [->|Hf]; simplify_map_eq. by eapply ok_pending.
  - intros f' res' Hr. destruct (decide (f' = f)) as [->|Hf]; simplify_map_eq; [done|].
    by eapply ok_done.
  - intros f' Hf'. destruct (decide (f' = f)) as [->|Hf]; simplify_map_eq; [eauto|].
    by apply (ok_followers st Hok).
  - intros f' Hf'. apply (ok_fresh st Hok).
    destruct (decide (f' = f)) as [->|Hf]; simplify_map_eq; eauto.
Qed.

Lemma lead_ok st key m' f :
  coalesce_ok st -> flight_join key (cs_map st) = (m', Leader f) ->
  coalesce_ok
    {| cs_map := m';
       cs_duties := <[f := Armed {| permit_key := key; disarmed := false |}]> (cs_duties st);
       cs_followers := cs_followers st; cs_outcomes := cs_outcomes st |}.
Proof.
  intros Hok. unfold flight_join. destruct (inner (cs_map st) !! key) eqn:Hk; [done|].
  intros [= <- <-]. set (f := next_flight (cs_map st)).
  assert (cs_duties st !! f = None /\ cs_outcomes st !! f = None) as [Hfd Hfo].
  { split; apply eq_None_not_Some; intros Hs;
      pose proof (ok_fresh st Hok f (ltac:(eauto))); unfold f in *; lia. }
  split; simpl.
  - intros key' f'. destruct (decide (key' = key)) as [->|Hne].
    + rewrite lookup_insert_eq. split.
      * intros [= <-]. exists (Armed {| permit_key := key; disarmed := false |}). by simplify_map_eq.
      * intros (d & Hd & Hkey). destruct (decide (f' = f)) as [->|Hf]; [done|].
        rewrite lookup_insert_ne in Hd by done.
        pose proof (duty_inner st f' d Hok Hd). congruence.
    + rewrite lookup_insert_ne by done. rewrite (ok_duties st Hok).
      split; intros (d & Hd & Hkey); exists d; (split; [|done]).
      * rewrite lookup_insert_ne; [done|]. congruence.
      * destruct (decide (f' = f)) as [->|Hf]; simplify_map_eq. done.
  - intros f' p Hp. destruct (decide (f' = f)) as [->|Hf]; simplify_map_eq; [done|].
    by eapply ok_armed.
  - intros f' d Hd. destruct (decide (f' = f)) as [->|Hf]; simplify_map_eq; [done|].
    by eapply ok_pending.
  - intros f' res Hr. rewrite lookup_insert_ne by congruence. by eapply ok_done.
  - intros f' [Hs|Hs]%(ok_followers st Hok); [left|by right].
    destruct (decide (f' = f)) as [->|Hf]; simplify_map_eq; eauto.
  - intros f' Hs. destruct (decide (f' = f)) as [->|Hf]; [lia|].
    rewrite lookup_insert_ne in Hs by done. pose proof (ok_fresh st Hok f' Hs). lia.
Qed.

Lemma disarm_ok st f p :
  coalesce_ok st -> cs_duties st !! f = Some (Armed p) ->
  coalesce_ok
    {| cs_map := cs_map st; cs_duties := <[f := Delegated (permit_key p)]> (cs_duties st);
       cs_followers := cs_followers st; cs_outcomes := cs_outcomes st |}.
Proof.
  intros Hok Hd. split; simpl.
  - intros key f'. rewrite (ok_duties st Hok).
    destruct (decide (f' = f)) as [->|Hf]; simplify_map_eq; [|done]. naive_solver.
  - intros f' p' Hp. destruct (decide (f' = f)) as [->|Hf]; simplify_map_eq. by eapply ok_armed.
  - intros f' d Hd'. destruct (decide (f' = f)) as [->|Hf]; simplify_map_eq; by eapply ok_pending.
  - apply (ok_done st Hok).
  - intros f' [Hs|Hs]%(ok_followers st Hok); [left|by right].
    destruct (decide (f' = f)) as [->|Hf]; simplify_map_eq; eauto.
  - intros f' Hs. apply (ok_fresh st Hok). destruct Hs as [Hs|Hs]; [left|by right].
    destruct (decide (f' = f)) as [->|Hf]; simplify_map_eq; eauto.
Qed.

Lemma follow_ok st key m' f :
  coalesce_ok st -> flight_join key (cs_map st) = (m', Follower f) ->
  coalesce_ok
    {| cs_map := m'; cs_duties := cs_duties st; cs_followers := f :: cs_followers st;
       cs_outcomes := cs_outcomes st |}.
Proof.
  intros Hok. unfold flight_join. destruct (inner (cs_map st) !! key) as [f'|] eqn:Hk; [|done].
  intros [= <- ->]. destruct Hok as [H1 H2 H3 H4 H5 H6]. split; simpl; try done.
  intros g [->|Hg]%elem_of_cons; [|by apply H5].
  apply H1 in Hk as (d & Hd & _). eauto.
Qed.

Lemma coalesce_step_ok st st' : coalesce_ok st -> coalesce_step st st' -> coalesce_ok st'.
Proof.
  intros Hok Hstep. destruct Hstep as [key m' f st Hj|key m' f st Hj|f p res st Hd|f p st Hd|f p st Hd|f key res st Hd].
  - by eapply lead_ok.
  - by eapply follow_ok.
  - rewrite permit_complete_eq. by apply (finish_ok st f (Armed p)).
  - unfold permit_drop. rewrite (ok_armed st Hok f p Hd). by apply (finish_ok st f (Armed p)).
  - by apply disarm_ok.
  - by apply (finish_ok st f (Delegated key)).
Qed.

Lemma coalesce_rtc_ok st st' : coalesce_ok st -> rtc coalesce_step st st' -> coalesce_ok st'.
Proof. intros Hok Hr. induction Hr; eauto using coalesce_step_ok. Qed.

Lemma coalesce_reachable_ok st : coalesce_reachable st -> coalesce_ok st.
Proof. apply coalesce_rtc_ok, init_ok. Qed.

(** Once published, an outcome stays: later steps do not touch the channel. *)
Lemma outcome_step st st' f res :
  coalesce_ok st -> coalesce_step st st' ->
  cs_outcomes st !! f = Some res -> cs_outcomes st' !! f = Some res.
Proof.
  intros Hok Hstep Ho.
  assert (forall g d, cs_duties st !! g = Some d -> g <> f) as Hne.
  { intros g d Hd ->. pose proof (ok_pending st Hok _ _ Hd).
    pose proof (ok_done st Hok _ _ Ho). congruence. }
  destruct Hstep; simpl; try done; by rewrite lookup_insert_ne by eauto.
Qed.

Lemma outcome_rtc st st' f res :
  coalesce_ok st -> rtc coalesce_step st st' ->
  cs_outcomes st !! f = Some res -> cs_outcomes st' !! f = Some res.
Proof.
  intros Hok Hr. induction Hr as [|st st1 st2 Hs Hr IH]; [done|].
  intros Ho. apply IH; [by eapply coalesce_step_ok|by eapply outcome_step].
Qed.

(** ** Properties *)

(** Singleflight: in every interleaving of joins, completions, drops and
    disarmed permits in which a flight is completed by its permit or the miss
    completion the permit was handed to, two flights that still have to be finished are for
    different keys, so at most one leader fetches a key at a time, and a new
    request leads exactly when its key has no such flight. *)
Theorem at_most_one_leader (st : coalesce_state) :
  coalesce_reachable st ->
  (forall f1 f2 d1 d2, cs_duties st !! f1 = Some d1 -> cs_duties st !! f2 = Some d2 ->
     duty_key d1 = duty_key d2 -> f1 = f2) /\
  (forall key, (exists f, (flight_join key (cs_map st)).2 = Leader f) <->
     forall f d, cs_duties st !! f = Some d -> duty_key d <> key).
Proof.
  intros Hok%coalesce_reachable_ok. split.
  - intros f1 f2 d1 d2 H1 H2 Hk.
    pose proof (duty_inner st f1 d1 Hok H1). pose proof (duty_inner st f2 d2 Hok H2). congruence.
  - intros key. unfold flight_join. destruct (inner (cs_map st) !! key) as [f|] eqn:Hk; simpl.
    + split; [by intros [? ?]|]. intros Hall. apply (ok_duties st Hok) in Hk as (d & Hd & Hkey).
      by destruct (Hall f d Hd).
    + split; [|eauto]. intros _ f d Hd Hkey. subst.
      pose proof (duty_inner st f d Hok Hd). congruence.
Qed.


(** Every flight can be finished and finishing it frees the key: from any
    reachable state, whoever has the duty of a flight can complete it, after
    which the next request for the key leads again. *)
Theorem flight_can_finish (st : coalesce_state) (f : nat) (d : duty) :
  coalesce_reachable st -> cs_duties st !! f = Some d ->
  exists st', coalesce_step st st' /\ is_Some (cs_outcomes st' !! f) /\
    exists g, (flight_join (duty_key d) (cs_map st')).2 = Leader g.
Proof.
  intros Hok%coalesce_reachable_ok Hd. pose proof (duty_inner st f d Hok Hd) as Hin.
  assert (exists g, (flight_join (duty_key d) (flight_complete (duty_key d) None (cs_map st))).2
    = Leader g) as Hfree.
  { unfold flight_complete, flight_join. rewrite Hin. simpl. rewrite lookup_delete_eq. eauto. }
  destruct d as [p|key]; eexists; split_and!.
  - by apply (step_complete f p None).
  - simpl. rewrite lookup_insert_eq. eauto.
  - exact Hfree.
  - by apply (step_delegated f key None).
  - simpl. rewrite lookup_insert_eq. eauto.
  - exact Hfree.
Qed.

(** ** Witnesses: a leader and a follower of the key [k]. *)

Definition led_state : coalesce_state :=
  {| cs_map := (flight_join "k" MissFlightMap_new).1;
     cs_duties := {[0 := Armed {| permit_key := "k"; disarmed := false |}]};
     cs_followers := []; cs_outcomes := ∅ |}.

Definition followed_state : coalesce_state :=
  {| cs_map := cs_map led_state; cs_duties := cs_duties led_state;
     cs_followers := [0]; cs_outcomes := ∅ |}.

Lemma followed_reachable : coalesce_reachable followed_state.
Proof.
  eapply rtc_l; [by apply (step_lead "k" (cs_map led_state) 0)|].
  eapply rtc_l; [by apply (step_follow "k" (cs_map led_state) 0)|]. apply rtc_refl.
Qed.

Lemma at_most_one_leader_witness :
  (exists f, (flight_join "other" (cs_map followed_state)).2 = Leader f) /\
  (forall f d, cs_duties followed_state !! f = Some d -> duty_key d <> "other").
Proof.
  assert (Hj : exists f, (flight_join "other" (cs_map followed_state)).2 = Leader f)
    by (eexists; vm_compute; reflexivity).
  split; [exact Hj|].
  exact (proj1 (proj2 (at_most_one_leader followed_state followed_reachable) "other") Hj).
Defined.


Lemma flight_can_finish_witness :
  exists st', coalesce_step followed_state st' /\ is_Some (cs_outcomes st' !! 0).
Proof.
  destruct (flight_can_finish followed_state 0 _ followed_reachable eq_refl)
    as (st' & Hs & Ho & _).
  exists st'. split; [exact Hs|exact Ho].
Defined.
