(* ===== verification/Float64.v ===== *)
(** * IEEE 754 arithmetic

    Rust's [f64] (and [f32], for embeddings) as the Standard Library's executable specification of floats
    (rounding to nearest even), with the conversions the proxy uses: [as f64]
    from unsigned integers, [Duration::as_secs_f64], [f64::min], [f64::max]
    and [str::parse::<f64>]. *)

From Stdlib Require Import Ascii String NArith ZArith Lia Bool.
From Stdlib Require Import Floats.SpecFloat.
From stdpp Require Import base option strings numbers.
From S2P Require Import Prelude.

Abbreviation f64 := spec_float.

Definition f64_prec : Z := 53.
Definition f64_emax : Z := 1024.

Definition fadd (x y : f64) : f64 := SFadd f64_prec f64_emax x y.
Definition fsub (x y : f64) : f64 := SFsub f64_prec f64_emax x y.
Definition fmul (x y : f64) : f64 := SFmul f64_prec f64_emax x y.
Definition fdiv (x y : f64) : f64 := SFdiv f64_prec f64_emax x y.
Definition flt (x y : f64) : bool := SFltb x y.
Definition fle (x y : f64) : bool := SFleb x y.

(** [n as f64] for an unsigned integer. *)
Definition f64_of_N (n : N) : f64 := binary_normalize f64_prec f64_emax (Z.of_N n) 0 false.

Definition f64_of_Z (z : Z) : f64 := binary_normalize f64_prec f64_emax z 0 false.

Definition is_nan (x : f64) : bool := match x with S754_nan => true | _ => false end.

(** [f64::min] and [f64::max]: a NaN operand is ignored. *)
Definition f64_min (x y : f64) : f64 :=
  if is_nan x then y else if is_nan y then x else if flt y x then y else x.

Definition f64_max (x y : f64) : f64 :=
  if is_nan x then y else if is_nan y then x else if flt x y then y else x.

(** [Duration::as_secs_f64]: whole seconds plus the nanoseconds over 1e9. *)
Definition as_secs_f64 (d : N) : f64 :=
  fadd (f64_of_N (d / nanos_per_sec))
    (fdiv (f64_of_N (d mod nanos_per_sec)) (f64_of_N nanos_per_sec)).

(** The float of the given format nearest to [m * 10 ^ e]. *)
Definition float_of_decimal (prec emax : Z) (sign : bool) (m : N) (e : Z) : spec_float :=
  match m with
  | N0 => S754_zero sign
  | Npos p =>
      if (0 <=? e)%Z then
        let r := binary_normalize prec emax (Zpos p * 10 ^ e) 0 false in
        if sign then SFopp r else r
      else
        let '(q, e', l) := SFdiv_core_binary prec emax (Zpos p) 0 (10 ^ (- e)) 0 in
        binary_round_aux prec emax sign q e' l
  end.

Definition f64_of_decimal := float_of_decimal f64_prec f64_emax.

(** [str::parse] of a float: a sign, then [inf], [infinity] or [nan] in any case, or
    digits with an optional point (at least one digit) and an optional exponent. *)
Fixpoint take_digits (acc : N) (count : nat) (s : string) : N * nat * string :=
  match s with
  | String c s' =>
      if is_ascii_digit c then take_digits (acc * 10 + (char_code c - 48)) (S count) s'
      else (acc, count, s)
  | EmptyString => (acc, count, s)
  end.

Definition parse_exponent (s : string) : option Z :=
  match s with
  | EmptyString => Some 0%Z
  | String c s' =>
      if Ascii.eqb c "e" || Ascii.eqb c "E" then
        let '(neg, digits) :=
          match s' with
          | String d s'' =>
              if Ascii.eqb d "-" then (true, s'') else if Ascii.eqb d "+" then (false, s'') else (false, s')
          | EmptyString => (false, s')
          end in
        let '(v, n, rest) := take_digits 0 0 digits in
        if Nat.eqb n 0 || negb (str_is_empty rest) then None
        else Some (if neg then - Z.of_N v else Z.of_N v)%Z
      else None
  end.

Definition parse_float_unsigned (prec emax : Z) (sign : bool) (s : string) : option spec_float :=
  let l := to_ascii_lowercase s in
  if String.eqb l "inf" || String.eqb l "infinity" then Some (S754_infinity sign)
  else if String.eqb l "nan" then Some S754_nan
  else
    let '(int, n1, rest) := take_digits 0 0 s in
    let '(m, n2, rest) :=
      match rest with
      | String c r => if Ascii.eqb c "." then take_digits int 0 r else (int, 0, rest)
      | EmptyString => (int, 0, rest)
      end in
    if Nat.eqb (n1 + n2) 0 then None
    else (fun e => float_of_decimal prec emax sign m (e - Z.of_nat n2)) <$> parse_exponent rest.

Definition parse_float (prec emax : Z) (s : string) : option spec_float :=
  match s with
  | String c s' =>
      if Ascii.eqb c "-" then parse_float_unsigned prec emax true s'
      else if Ascii.eqb c "+" then parse_float_unsigned prec emax false s'
      else parse_float_unsigned prec emax false s
  | EmptyString => None
  end.

Definition parse_f64 := parse_float f64_prec f64_emax.

(** ** Single precision *)

Abbreviation f32 := spec_float.

Definition f32_prec : Z := 24.
Definition f32_emax : Z := 128.

Definition fadd32 (x y : f32) : f32 := SFadd f32_prec f32_emax x y.
Definition fmul32 (x y : f32) : f32 := SFmul f32_prec f32_emax x y.
Definition fdiv32 (x y : f32) : f32 := SFdiv f32_prec f32_emax x y.
Definition fsqrt32 (x : f32) : f32 := SFsqrt f32_prec f32_emax x.
Definition f32_of_Z (z : Z) : f32 := binary_normalize f32_prec f32_emax z 0 false.
Definition parse_f32 := parse_float f32_prec f32_emax.

(** [x as f32] for a double. *)
Definition f32_of_f64 (x : f64) : f32 :=
  match x with
  | S754_finite s m e => binary_round f32_prec f32_emax s m e
  | _ => x
  end.

(** [clamp]: NaN stays. *)
Definition f_clamp (lo hi x : spec_float) : spec_float :=
  if SFltb x lo then lo else if SFltb hi x then hi else x.

(** ** Lemmas: comparison *)

Lemma compare_cont_refl p c : Pos.compare_cont c p p = c.
Proof. apply Pos.compare_cont_refl. Qed.

Lemma SFcompare_refl x : is_nan x = false -> SFcompare x x = Some Eq.
Proof.
  destruct x as [s|s| |s m e]; try done; intros _; destruct s; try done; simpl;
    rewrite Z.compare_refl; unfold Pos.compare; by rewrite compare_cont_refl.
Qed.

Lemma SFcompare_antisym x y :
  SFcompare y x = match SFcompare x y with Some c => Some (CompOpp c) | None => None end.
Proof.
  destruct x as [s|s| |s m e], y as [s'|s'| |s' m' e']; try done;
    destruct s, s'; try done; simpl;
    rewrite (Z.compare_antisym e e'); destruct (Z.compare e e'); simpl; try done;
    change (Pos.compare_cont Eq m' m) with (Pos.compare m' m);
    change (Pos.compare_cont Eq m m') with (Pos.compare m m');
    rewrite (Pos.compare_antisym m m'); by destruct (Pos.compare m m').
Qed.

Lemma SFcompare_None x y : SFcompare x y = None -> is_nan x = true \/ is_nan y = true.
Proof.
  destruct x as [s|s| |s m e], y as [s'|s'| |s' m' e']; simpl; auto;
    destruct s, s'; try done; destruct (Z.compare e e'); done.
Qed.

Lemma fle_refl x : is_nan x = false -> fle x x = true.
Proof. intros H. unfold fle, SFleb. by rewrite SFcompare_refl. Qed.

Lemma flt_false_fle x y : is_nan x = false -> is_nan y = false -> flt y x = false -> fle x y = true.
Proof.
  intros Hx Hy. unfold flt, fle, SFltb, SFleb. rewrite (SFcompare_antisym x y).
  destruct (SFcompare x y) as [[]|] eqn:Hc; simpl; try done.
  destruct (SFcompare_None _ _ Hc); congruence.
Qed.

(** [min] is at most its second operand, and never NaN when that is not. *)
Lemma f64_min_le x y : is_nan y = false -> fle (f64_min x y) y = true.
Proof.
  intros Hy. unfold f64_min. destruct (is_nan x) eqn:Hx; [by apply fle_refl|].
  rewrite Hy. destruct (flt y x) eqn:Hlt; [by apply fle_refl|]. by apply flt_false_fle.
Qed.

Lemma f64_min_not_nan x y : is_nan y = false -> is_nan (f64_min x y) = false.
Proof.
  intros Hy. unfold f64_min. destruct (is_nan x) eqn:Hx; [done|]. rewrite Hy. by case_match.
Qed.

#[export] Hint Resolve f64_min_le f64_min_not_nan : bsdm.

(** The order of doubles is transitive, NaN being comparable to nothing. *)
Lemma flt_trans x y z : flt x y = true -> flt y z = true -> flt x z = true.
Proof.
  unfold flt, SFltb.
  destruct x as [s|s| |s m e], y as [s'|s'| |s' m' e'], z as [s''|s''| |s'' m'' e''];
    try done; destruct s, s', s''; try done; simpl;
    change (Pos.compare_cont Eq) with Pos.compare;
    repeat match goal with
    | |- context [Z.compare ?a ?b] => destruct (Z.compare_spec a b)
    | |- context [Pos.compare ?a ?b] => destruct (Pos.compare_spec a b)
    end; intros; try done; exfalso; subst; lia.
Qed.

Lemma fle_trans x y z : fle x y = true -> fle y z = true -> fle x z = true.
Proof.
  unfold fle, SFleb.
  destruct x as [s|s| |s m e], y as [s'|s'| |s' m' e'], z as [s''|s''| |s'' m'' e''];
    try done; destruct s, s', s''; try done; simpl;
    change (Pos.compare_cont Eq) with Pos.compare;
    repeat match goal with
    | |- context [Z.compare ?a ?b] => destruct (Z.compare_spec a b)
    | |- context [Pos.compare ?a ?b] => destruct (Pos.compare_spec a b)
    end; intros; try done; exfalso; subst; lia.
Qed.

Lemma flt_irrefl x : flt x x = false.
Proof.
  destruct (is_nan x) eqn:Hx; [by destruct x|].
  unfold flt, SFltb. by rewrite SFcompare_refl.
Qed.

(** ** Lemmas: signs

    Sums, products and quotients of numbers that are not negative are not negative;
    so they are no NaN, which [clamp] would let through. *)

Definition f64_abs (x : f64) : f64 := SFabs x.

(** Not NaN and not below zero. *)
Definition f_nonneg (x : spec_float) : bool :=
  match x with
  | S754_zero _ | S754_infinity false | S754_finite false _ _ => true
  | _ => false
  end.

Lemma f_nonneg_not_nan x : f_nonneg x = true -> is_nan x = false.
Proof. by destruct x as [|[]| |[]]. Qed.

Section rounding.
Context (prec emax : Z).

Lemma shr_1_nonneg r : (0 <= shr_m r)%Z -> (0 <= shr_m (shr_1 r))%Z.
Proof. destruct r as [m r s]. destruct m as [|[| |]|]; cbn; lia. Qed.

Lemma shr_nonneg r e n : (0 <= shr_m r)%Z -> (0 <= shr_m (shr r e n).1)%Z.
Proof.
  intros H. unfold shr. destruct n as [|p|p]; [done| |done]. cbn [fst]. unfold iter_pos.
  revert r H. induction p as [p IH|p IH|]; intros r H; cbn; [|by apply IH, IH|by apply shr_1_nonneg].
  by apply IH, IH, shr_1_nonneg.
Qed.

Lemma shr_fexp_nonneg m e l : (0 <= m)%Z -> (0 <= shr_m (shr_fexp prec emax m e l).1)%Z.
Proof. intros H. unfold shr_fexp. apply shr_nonneg. by destruct l as [|[]]. Qed.

Lemma round_nearest_even_nonneg m l : (0 <= m)%Z -> (0 <= round_nearest_even m l)%Z.
Proof. intros H. destruct l as [|[]]; cbn; try lia. destruct (Z.even m); lia. Qed.

Lemma binary_round_aux_nonneg m e l : (0 <= m)%Z -> f_nonneg (binary_round_aux prec emax false m e l) = true.
Proof.
  intros H. unfold binary_round_aux. pose proof (shr_fexp_nonneg m e l H) as H1.
  destruct (shr_fexp prec emax m e l) as [r1 e1]. cbn [fst] in H1.
  pose proof (shr_fexp_nonneg (round_nearest_even (shr_m r1) (loc_of_shr_record r1)) e1 loc_Exact
    (round_nearest_even_nonneg _ _ H1)) as H2.
  destruct (shr_fexp prec emax (round_nearest_even _ _) e1 loc_Exact) as [r2 e2]. cbn [fst] in H2.
  destruct (shr_m r2); [done|by destruct (e2 <=? emax - prec)%Z|lia].
Qed.

Lemma binary_round_nonneg m e : f_nonneg (binary_round prec emax false m e) = true.
Proof. unfold binary_round. destruct (shl_align _ _ _) as [mz ez]. by apply binary_round_aux_nonneg. Qed.

Lemma binary_normalize_nonneg m e : (0 <= m)%Z -> f_nonneg (binary_normalize prec emax m e false) = true.
Proof. intros H. destruct m as [|p|p]; [done|apply binary_round_nonneg|lia]. Qed.

Lemma SFadd_nonneg x y : f_nonneg x = true -> f_nonneg y = true -> f_nonneg (SFadd prec emax x y) = true.
Proof.
  intros Hx Hy. destruct x as [sx|[]| |[] mx ex], y as [sy|[]| |[] my ey]; try done.
  - by destruct sx, sy.
  - unfold SFadd. apply binary_normalize_nonneg. cbn [cond_Zopp]. lia.
Qed.

Lemma SFmul_nonneg s m e y : s = false -> f_nonneg y = true -> f_nonneg (SFmul prec emax (S754_finite s m e) y) = true.
Proof.
  intros -> Hy. destruct y as [sy|[]| |[] my ey]; try done. unfold SFmul. cbn [xorb]. by apply binary_round_aux_nonneg.
Qed.

(** A quotient of such numbers, if it is a number. *)
Lemma SFdiv_nonneg x y :
  f_nonneg x = true -> f_nonneg y = true -> y <> S754_zero true ->
  f_nonneg (SFdiv prec emax x y) = true \/ SFdiv prec emax x y = S754_nan.
Proof.
  intros Hx Hy Hz. destruct x as [sx|[]| |[] mx ex], y as [[]|[]| |[] my ey]; try done; auto.
  left. unfold SFdiv, SFdiv_core_binary. cbn [xorb]. set (m' := match _ with Z0 => _ | _ => _ end).
  assert (Hm : (0 <= m')%Z).
  { unfold m'. case_match; [lia| |lia]. apply Z.shiftl_nonneg. lia. }
  pose proof (Z.div_pos m' (Zpos my) Hm ltac:(lia)) as Hq. unfold Z.div in Hq.
  destruct (Z.div_eucl m' (Zpos my)) as [q r]. by apply binary_round_aux_nonneg.
Qed.

End rounding.

Lemma f64_of_N_nonneg n : f_nonneg (f64_of_N n) = true.
Proof. apply binary_normalize_nonneg. lia. Qed.

Lemma f64_min_nonneg x y :
  f_nonneg x = true \/ x = S754_nan -> f_nonneg y = true -> f_nonneg (f64_min x y) = true.
Proof. unfold f64_min. intros [Hx| ->] Hy; [|done]. rewrite !f_nonneg_not_nan by done. by destruct (flt y x). Qed.

(** [x.max(0.0)]. *)
Lemma f64_max_zero_nonneg x : f_nonneg (f64_max x (S754_zero false)) = true.
Proof. unfold f64_max. by destruct x as [|[]| |[]]. Qed.

(** [clamp] of a number is in its range. *)
Lemma f_clamp_range lo hi x :
  is_nan x = false -> is_nan lo = false -> is_nan hi = false -> fle lo hi = true ->
  fle lo (f_clamp lo hi x) = true /\ fle (f_clamp lo hi x) hi = true.
Proof.
  intros Hx Hl Hh Hle. unfold f_clamp. change SFltb with flt. destruct (flt x lo) eqn:E1; [by rewrite fle_refl|].
  destruct (flt hi x) eqn:E2; [by rewrite fle_refl|]. by split; apply flt_false_fle.
Qed.

(** ** Lemmas: numbers that are not zero, and quotients that are numbers *)

(** Finite and above zero; and not negative, with the sign of zero. *)
Definition f_pos (x : spec_float) : bool := match x with S754_finite false _ _ => true | _ => false end.
Definition f_plus (x : spec_float) : bool :=
  match x with S754_zero false | S754_infinity false | S754_finite false _ _ => true | _ => false end.
Definition f_finite (x : spec_float) : bool := match x with S754_zero _ | S754_finite _ _ _ => true | _ => false end.

Lemma f_pos_plus x : f_pos x = true -> f_plus x = true.
Proof. by destruct x as [|[]| |[]]. Qed.

Lemma f_plus_nonneg x : f_plus x = true -> f_nonneg x = true.
Proof. by destruct x as [[]|[]| |[]]. Qed.

Section quotients.
Context (prec emax : Z).

(** Rounding keeps the sign and gives a number. *)
Lemma binary_round_aux_sign s m e l : (0 <= m)%Z ->
  exists m' e', binary_round_aux prec emax s m e l = S754_zero s \/
    binary_round_aux prec emax s m e l = S754_infinity s \/
    binary_round_aux prec emax s m e l = S754_finite s m' e'.
Proof.
  intros H. unfold binary_round_aux. pose proof (shr_fexp_nonneg prec emax m e l H) as H1.
  destruct (shr_fexp prec emax m e l) as [r1 e1]. cbn [fst] in H1.
  pose proof (shr_fexp_nonneg prec emax (round_nearest_even (shr_m r1) (loc_of_shr_record r1)) e1 loc_Exact
    (round_nearest_even_nonneg _ _ H1)) as H2.
  destruct (shr_fexp prec emax (round_nearest_even _ _) e1 loc_Exact) as [r2 e2]. cbn [fst] in H2.
  destruct (shr_m r2) as [|p|p]; [by exists 1%positive, 0%Z; left| |lia].
  exists p, e2. destruct (e2 <=? emax - prec)%Z; auto.
Qed.

Lemma binary_round_aux_not_nan s m e l : (0 <= m)%Z -> is_nan (binary_round_aux prec emax s m e l) = false.
Proof. intros H. by destruct (binary_round_aux_sign s m e l H) as (m' & e' & [-> | [-> | ->]]). Qed.

Lemma binary_round_aux_plus m e l : (0 <= m)%Z -> f_plus (binary_round_aux prec emax false m e l) = true.
Proof. intros H. by destruct (binary_round_aux_sign false m e l H) as (m' & e' & [-> | [-> | ->]]). Qed.

Lemma binary_normalize_not_nan m e s : is_nan (binary_normalize prec emax m e s) = false.
Proof.
  destruct m as [|p|p]; [done| |]; unfold binary_normalize, binary_round; destruct (shl_align _ _ _) as [mz ez];
    by apply binary_round_aux_not_nan.
Qed.

Lemma SFmul_plus x y : f_plus x = true -> f_pos y = true -> f_plus (SFmul prec emax x y) = true.
Proof.
  destruct x as [[]|[]| |[] mx ex], y as [|[]| |[] my ey]; try done. intros _ _. unfold SFmul. cbn [xorb].
  by apply binary_round_aux_plus.
Qed.

Lemma SFmul_pos_nonneg x y : f_pos x = true -> f_nonneg y = true -> f_nonneg (SFmul prec emax x y) = true.
Proof. destruct x as [|[]| |[] m e]; try done. intros _. by apply SFmul_nonneg. Qed.

Lemma SFmul_nonneg_pos x y : f_nonneg x = true -> f_pos y = true -> f_nonneg (SFmul prec emax x y) = true.
Proof.
  destruct x as [sx|[]| |[] mx ex], y as [|[]| |[] my ey]; try done. intros _ _. unfold SFmul. cbn [xorb].
  by apply binary_round_aux_nonneg.
Qed.

(** Over a finite number that is not zero. *)
Lemma SFdiv_not_nan x s m e : is_nan x = false -> is_nan (SFdiv prec emax x (S754_finite s m e)) = false.
Proof.
  destruct x as [sx|sx| |sx mx ex]; try done. intros _. unfold SFdiv, SFdiv_core_binary.
  set (m' := match _ with Z0 => _ | _ => _ end).
  assert (Hm : (0 <= m')%Z).
  { unfold m'. case_match; [lia| |lia]. apply Z.shiftl_nonneg. lia. }
  pose proof (Z.div_pos m' (Zpos m) Hm ltac:(lia)) as Hq. unfold Z.div in Hq.
  destruct (Z.div_eucl m' (Zpos m)) as [q r]. by apply binary_round_aux_not_nan.
Qed.

Lemma SFdiv_pos x y : f_nonneg x = true -> f_pos y = true -> f_nonneg (SFdiv prec emax x y) = true.
Proof.
  intros Hx Hy. destruct y as [|[]| |[] m e]; try done.
  destruct (SFdiv_nonneg prec emax x (S754_finite false m e)) as [H|H]; [done|done|done|done|].
  pose proof (SFdiv_not_nan x false m e (f_nonneg_not_nan x Hx)) as Hn. by rewrite H in Hn.
Qed.

Lemma SFsub_not_nan x y : is_nan x = false -> f_finite y = true -> is_nan (SFsub prec emax x y) = false.
Proof.
  destruct x as [sx|sx| |sx mx ex], y as [sy|sy| |sy my ey]; try done; intros _ _.
  - by destruct sx, sy.
  - apply binary_normalize_not_nan.
Qed.

End quotients.

(** *** A count above zero is a number above zero *)

Lemma iter_shr_1 p r : (0 <= shr_m r)%Z -> shr_m (SpecFloat.iter_pos shr_1 p r) = (shr_m r / 2 ^ Zpos p)%Z.
Proof.
  assert (Hone : forall r, (0 <= shr_m r)%Z -> shr_m (shr_1 r) = (shr_m r / 2)%Z).
  { intros [m ? ?] Hm. cbn in Hm. destruct m as [|[q|q|]|q]; cbn [shr_1 shr_m]; [done| | |done|lia].
    - rewrite Pos2Z.inj_xI, <- Z.div_unique with (q := Zpos q) (r := 1%Z); lia.
    - rewrite Pos2Z.inj_xO, Z.mul_comm, Z.div_mul; lia. }
  assert (Hpos : forall p r, (0 <= shr_m r)%Z -> (0 <= shr_m r / 2 ^ Zpos p)%Z).
  { intros p' r' Hr. apply Z.div_pos; [done|]. by apply Z.pow_pos_nonneg. }
  revert r. induction p as [p IH|p IH|]; intros r Hr; cbn [SpecFloat.iter_pos].
  - pose proof (Hone r Hr) as E. assert (0 <= shr_m (shr_1 r))%Z as H1 by (rewrite E; apply Z.div_pos; lia).
    rewrite IH; rewrite IH; try done; [|by apply Hpos].
    rewrite E, !Z.div_div by (try apply Z.pow_nonzero; try apply Z.pow_pos_nonneg; lia).
    replace (Zpos p~1) with (1 + Zpos p + Zpos p)%Z by lia. by rewrite !Z.pow_add_r, Z.mul_assoc by lia.
  - rewrite IH; rewrite IH; try done; [|by apply Hpos].
    rewrite Z.div_div by (try apply Z.pow_nonzero; try apply Z.pow_pos_nonneg; lia).
    rewrite <- Z.pow_add_r by lia. by replace (Zpos p + Zpos p)%Z with (Zpos p~0) by lia.
  - by apply Hone.
Qed.

Lemma digits2_spec p : (2 ^ (Zpos (digits2_pos p) - 1) <= Zpos p < 2 ^ Zpos (digits2_pos p))%Z.
Proof.
  assert (Hs : forall q, (2 ^ (Zpos (Pos.succ q) - 1) = 2 * 2 ^ (Zpos q - 1) /\ 2 ^ Zpos (Pos.succ q) = 2 * 2 ^ Zpos q)%Z).
  { intros q. rewrite Pos2Z.inj_succ. split; rewrite <- Z.pow_succ_r by lia; f_equal; lia. }
  induction p as [p IH|p IH|]; cbn [digits2_pos]; [| |done]; destruct (Hs (digits2_pos p)) as [-> ->]; lia.
Qed.

Lemma shr_record_of_loc_m m l : shr_m (shr_record_of_loc m l) = m.
Proof. by destruct l as [|[]]. Qed.

Section counts.
Context (prec emax : Z) (Hprec : (0 < prec)%Z).

(** A shift to the precision leaves something of a number above zero. *)
Lemma shr_fexp_pos m e l : (0 < m)%Z -> (emin prec emax <= e)%Z ->
  let r := shr_fexp prec emax m e l in
  (1 <= shr_m r.1 <= m)%Z /\ (e <= r.2 <= Z.max e (Zdigits2 m + e - prec))%Z.
Proof.
  intros Hm He. unfold shr_fexp, shr, fexp. destruct m as [|m|m]; [lia| |lia]. cbn [Zdigits2].
  pose proof (digits2_spec m) as [Hlo Hhi]. set (d := Zpos (digits2_pos m)) in *.
  destruct (Z.max (d + e - prec) (emin prec emax) - e)%Z as [|n|n] eqn:En; cbn [fst snd];
    rewrite ?shr_record_of_loc_m; [lia| |lia].
  rewrite iter_shr_1, shr_record_of_loc_m by (rewrite shr_record_of_loc_m; lia).
  assert (Zpos n <= d - 1)%Z as Hn by lia.
  assert (0 < 2 ^ Zpos n)%Z as Hp by (apply Z.pow_pos_nonneg; lia).
  pose proof (Z.pow_le_mono_r 2 (Zpos n) (d - 1) ltac:(lia) Hn).
  split; [split; [apply Z.div_le_lower_bound; lia|apply Z.div_le_upper_bound; nia]|lia].
Qed.

Lemma round_nearest_even_bounds m l : (m <= round_nearest_even m l <= m + 1)%Z.
Proof. destruct l as [|[]]; cbn; try lia. destruct (Z.even m); lia. Qed.

Lemma digits2_le m d : (0 < m)%Z -> (m < 2 ^ d)%Z -> (0 <= d)%Z -> (Zdigits2 m <= d)%Z.
Proof.
  intros Hm Hd H0. destruct m as [|m|m]; [lia| |lia]. cbn [Zdigits2]. pose proof (digits2_spec m) as [Hlo _].
  destruct (Z.le_gt_cases (Zpos (digits2_pos m)) d) as [|Hgt]; [done|exfalso].
  pose proof (Z.pow_le_mono_r 2 d (Zpos (digits2_pos m) - 1) ltac:(lia) ltac:(lia)). lia.
Qed.

Lemma binary_round_aux_pos m e l d : (0 < m < 2 ^ d)%Z -> (0 <= d)%Z -> (emin prec emax <= e)%Z ->
  (Z.max e (d + 1 + Z.max e (d + e)) <= emax - prec)%Z ->
  f_pos (binary_round_aux prec emax false m e l) = true.
Proof.
  intros [Hm Hd] H0 He Hmax. unfold binary_round_aux.
  destruct (shr_fexp_pos m e l Hm He) as [H1 H2]. pose proof (digits2_le m d Hm Hd H0) as Hdig.
  destruct (shr_fexp prec emax m e l) as [r1 e1]. cbn [fst snd] in H1, H2.
  pose proof (round_nearest_even_bounds (shr_m r1) (loc_of_shr_record r1)) as Hr.
  set (m1 := round_nearest_even _ _) in *.
  assert (m1 < 2 ^ (d + 1))%Z as Hd1 by (rewrite Z.pow_add_r by lia; lia).
  destruct (shr_fexp_pos m1 e1 loc_Exact ltac:(lia) ltac:(lia)) as [H3 H4].
  pose proof (digits2_le m1 (d + 1) ltac:(lia) Hd1 ltac:(lia)) as Hdig1.
  destruct (shr_fexp prec emax m1 e1 loc_Exact) as [r2 e2]. cbn [fst snd] in H3, H4.
  destruct (shr_m r2) as [|p|p]; [lia| |lia]. by rewrite (proj2 (Z.leb_le _ _)) by lia.
Qed.

End counts.

Lemma iter_xO_val m d : Zpos (Pos.iter xO m d) = (Zpos m * 2 ^ Zpos d)%Z.
Proof.
  revert d. apply Pos.peano_ind; [cbn; lia|]. intros d IH. rewrite Pos.iter_succ, Pos2Z.inj_xO, IH, Pos2Z.inj_succ.
  rewrite Z.pow_succ_r; lia.
Qed.

(** [n as f64] for a count above zero. *)
Lemma f64_of_N_pos n : (0 < n < 2 ^ 64)%N -> f_pos (f64_of_N n) = true.
Proof.
  intros Hn. unfold f64_of_N. destruct n as [|p]; [lia|]. cbn [Z.of_N binary_normalize]. unfold binary_round.
  assert (Zpos p < 2 ^ 64)%Z as Hp by lia. pose proof (digits2_spec p) as [Hlo Hhi].
  pose proof (digits2_le (Zpos p) 64 ltac:(lia) Hp ltac:(lia)) as Hd. cbn [Zdigits2] in Hd.
  unfold shl_align, fexp. set (d := Zpos (digits2_pos p)) in *.
  change (emin f64_prec f64_emax) with (-1074)%Z. unfold f64_prec at 1.
  destruct (Z.max (d + 0 - 53) (-1074) - 0)%Z as [|k|k] eqn:Ek.
  1,2: by apply (binary_round_aux_pos f64_prec f64_emax eq_refl _ _ _ 64); [lia|..].
  apply (binary_round_aux_pos f64_prec f64_emax eq_refl _ _ _ 117); [|done|change (emin _ _) with (-1074)%Z; lia|].
  - rewrite iter_xO_val. assert (Zpos k <= 52)%Z as Hk by lia.
    pose proof (Z.pow_le_mono_r 2 (Zpos k) 52 ltac:(lia) Hk). assert (0 < 2 ^ Zpos k)%Z by (by apply Z.pow_pos_nonneg). nia.
  - change (f64_emax - f64_prec)%Z with 971%Z. unfold f64_prec, f64_emax in *. lia.
Qed.

(** [clamp] into a range that is not negative. *)
Lemma f_clamp_nonneg hi x : f_nonneg hi = true -> is_nan x = false -> f_nonneg (f_clamp (S754_zero false) hi x) = true.
Proof.
  intros Hh Hx. unfold f_clamp. destruct (SFltb x _) eqn:E; [done|]. destruct (SFltb hi x); [done|].
  by destruct x as [|[]| |[]].
Qed.

(** [x.max(1.0)] is finite and above zero unless [x] is infinite. *)
Lemma f64_max_one_pos x : x <> S754_infinity false -> f_pos (f64_max x (f64_of_N 1)) = true.
Proof.
  intros Hx. unfold f64_max. destruct (is_nan x) eqn:En; [done|]. cbn [is_nan].
  change (is_nan (f64_of_N 1)) with false. cbv iota. destruct (flt x (f64_of_N 1)) eqn:E; [done|].
  by destruct x as [|[]| |[]].
Qed.
