(* ===== verification/Http.v ===== *)
(** * Requests as the proxy reads them

    hyper's [HeaderMap] is a list of name and value pairs in iteration order
    (names lower case); whether a header value is text is a parameter, as
    [HeaderValue::to_str] is not part of the sources. *)

From Stdlib Require Import Ascii String NArith.
From stdpp Require Import base option strings list.
From S2P Require Import Prelude.

Class HeaderText := {
  hv_to_str : string -> option string;
}.

(** The documented behaviour: [to_str] returns the value itself when it returns. *)
Class HeaderTextLaws (T : HeaderText) := {
  hv_to_str_same v s : hv_to_str v = Some s -> s = v;
}.

Abbreviation HeaderMap := (list (string * string)).

(** [HeaderMap::get]: the first value of the name. *)
Definition hm_get (headers : HeaderMap) (name : string) : option string :=
  snd <$> List.find (fun '(k, _) => String.eqb k name) headers.

(** [headers.get(name).and_then(|v| v.to_str().ok())]. *)
Definition hm_get_str {T : HeaderText} (headers : HeaderMap) (name : string) : option string :=
  hm_get headers name ≫= hv_to_str.

(** [Option::filter(|s| !s.is_empty())]. *)
Definition non_empty (o : option string) : option string :=
  match o with
  | Some s => if str_is_empty s then None else Some s
  | None => None
  end.
