(* ===== verification/RateLimit.v ===== *)
(** * Rate limiting (src/proxy/src/rate_limit.rs)

    Token buckets per client address, user and API key, in memory or as Redis
    counters, and the extraction of the API key of a request.

    Balances and rates are binary64 numbers.  The key a full table evicts is
    the first of the [HashMap]'s iteration, a function [first_key] of the
    table; the replies of Redis are an argument. *)

From Stdlib Require Import Ascii String NArith ZArith Lia.
From Stdlib Require Import Floats.SpecFloat.
From stdpp Require Import base option gmap sets strings numbers list.
From S2P Require Import Prelude Float64 Http.

Inductive RateLimitViolation := RlIp | RlUser | RlApiKey | RlApiKeyMissing.

#[export] Instance RateLimitViolation_eq_dec : EqDecision RateLimitViolation.
Proof. solve_decision. Defined.

Inductive RlCommand := RlIncr (key : string) | RlExpire (key : string) (secs : N).

(** ** Token buckets *)

Record TokenBucket := {
  tokens : f64;
  last_refill : N;
}.

Definition f64_one : f64 := f64_of_N 1.

Definition TokenBucket_new (now : N) (burst : f64) : TokenBucket :=
  {| tokens := burst; last_refill := now |}.

(** [Instant::duration_since] saturates at zero. *)
Definition refilled (now : N) (rate burst : f64) (b : TokenBucket) : f64 :=
  let elapsed := as_secs_f64 (saturating_sub now (last_refill b)) in
  f64_min (fadd (tokens b) (fmul elapsed rate)) burst.

Definition bucket_try_acquire (now : N) (rate burst : f64) (b : TokenBucket)
    : TokenBucket * bool :=
  let t := refilled now rate burst b in
  if fle f64_one t then ({| tokens := fsub t f64_one; last_refill := now |}, true)
  else ({| tokens := t; last_refill := now |}, false).

(** ** Configuration *)

Record RateLimitConfig := {
  rl_enabled : bool;
  ip_rps : f64;
  ip_burst : f64;
  user_rps : f64;
  user_burst : f64;
  api_key_rps : f64;
  api_key_burst : f64;
  api_key_header : string;
  api_key_bearer : bool;
  api_key_required : bool;
  rl_max_keys : N;
}.

Definition f64_zero : f64 := S754_zero false.

Definition parse_positive_f64 (env : Env) (name : string) (dflt : f64) : f64 :=
  match env name ≫= parse_f64 with
  | Some v => if flt f64_zero v then v else dflt
  | None => dflt
  end.

Definition RateLimitConfig_from_env (env : Env) : RateLimitConfig :=
  let twice x := fmul x (f64_of_N 2) in
  let ip_rps := parse_positive_f64 env "RATE_LIMIT_IP_RPS" (f64_of_N 100) in
  let ip_burst := parse_positive_f64 env "RATE_LIMIT_IP_BURST" (twice ip_rps) in
  let user_rps := parse_positive_f64 env "RATE_LIMIT_USER_RPS" (f64_of_N 50) in
  let user_burst := parse_positive_f64 env "RATE_LIMIT_USER_BURST" (twice user_rps) in
  let api_key_rps := parse_positive_f64 env "RATE_LIMIT_API_KEY_RPS" (f64_of_N 20) in
  let api_key_burst := parse_positive_f64 env "RATE_LIMIT_API_KEY_BURST" (twice api_key_rps) in
  {| rl_enabled := env_flag_default_off env "RATE_LIMIT_ENABLED";
     ip_rps := ip_rps; ip_burst := ip_burst; user_rps := user_rps; user_burst := user_burst;
     api_key_rps := api_key_rps; api_key_burst := api_key_burst;
     api_key_header :=
       default "x-api-key"
         (non_empty ((fun s => to_ascii_lowercase (trim s)) <$> env "RATE_LIMIT_API_KEY_HEADER"));
     api_key_bearer := env_flag_default_on env "RATE_LIMIT_API_KEY_BEARER";
     api_key_required := env_flag_default_off env "RATE_LIMIT_API_KEY_REQUIRED";
     rl_max_keys := N.max (env_parse parse_usize env "RATE_LIMIT_MAX_KEYS" 10000%N) 1 |}.

(** ** The API key of a request *)

Section api_key.
Context {T : HeaderText}.

Fixpoint api_key_from_header (header_name : string) (headers : HeaderMap) : option string :=
  match headers with
  | [] => None
  | (name, value) :: headers' =>
      if eq_ignore_ascii_case name header_name then
        match hv_to_str value with
        | Some v =>
            let key := trim v in
            if negb (str_is_empty key) then Some key else api_key_from_header header_name headers'
        | None => api_key_from_header header_name headers'
        end
      else api_key_from_header header_name headers'
  end.

Definition api_key_from_bearer (headers : HeaderMap) : option string :=
  value ← hm_get_str headers "authorization";
  token ← match strip_prefix "Bearer " value with
          | Some t => Some t
          | None => strip_prefix "bearer " value
          end;
  let key := trim token in
  if negb (str_is_empty key) then Some key else None.

Definition extract_api_key (headers : HeaderMap) (config : RateLimitConfig) : option string :=
  match api_key_from_header (api_key_header config) headers with
  | Some key => Some key
  | None => if api_key_bearer config then api_key_from_bearer headers else None
  end.

End api_key.

(** ** The limiter *)

Abbreviation Buckets := (gmap string TokenBucket).

Record RateLimiter := {
  ip_buckets : Buckets;
  user_buckets : Buckets;
  api_key_buckets : Buckets;
}.

Definition RateLimiter_new : RateLimiter :=
  {| ip_buckets := ∅; user_buckets := ∅; api_key_buckets := ∅ |}.

Section limiter.
Context (config : RateLimitConfig) (first_key : Buckets -> option string).

Definition try_acquire (now : N) (key : string) (rate burst : f64) (buckets : Buckets)
    : Buckets * bool :=
  let buckets := evict_for first_key (rl_max_keys config) key buckets in
  let bucket := default (TokenBucket_new now burst) (buckets !! key) in
  let '(bucket', ok) := bucket_try_acquire now rate burst bucket in
  (<[key := bucket']> buckets, ok).

(** The three stages of [check]; a stage whose subject is absent admits. *)
Definition check_ip (now : N) (client_ip : string) (l : RateLimiter) : RateLimiter * bool :=
  let '(b, ok) := try_acquire now client_ip (ip_rps config) (ip_burst config) (ip_buckets l) in
  ({| ip_buckets := b; user_buckets := user_buckets l; api_key_buckets := api_key_buckets l |}, ok).

Definition check_user (now : N) (username : option string) (l : RateLimiter) : RateLimiter * bool :=
  match non_empty username with
  | Some user =>
      let '(b, ok) := try_acquire now user (user_rps config) (user_burst config) (user_buckets l) in
      ({| ip_buckets := ip_buckets l; user_buckets := b; api_key_buckets := api_key_buckets l |}, ok)
  | None => (l, true)
  end.

Definition check_api_key (now : N) (api_key : option string) (l : RateLimiter)
    : RateLimiter * bool :=
  match non_empty api_key with
  | Some key =>
      let '(b, ok) :=
        try_acquire now key (api_key_rps config) (api_key_burst config) (api_key_buckets l) in
      ({| ip_buckets := ip_buckets l; user_buckets := user_buckets l; api_key_buckets := b |}, ok)
  | None => (l, true)
  end.

Definition rl_check (now : N) (client_ip : string) (username api_key : option string)
    (l : RateLimiter) : RateLimiter * option RateLimitViolation :=
  if negb (rl_enabled config) then (l, None)
  else if api_key_required config && bool_decide (non_empty api_key = None) then
    (l, Some RlApiKeyMissing)
  else
    let '(l, ok) := check_ip now client_ip l in
    if negb ok then (l, Some RlIp)
    else
      let '(l, ok) := check_user now username l in
      if negb ok then (l, Some RlUser)
      else
        let '(l, ok) := check_api_key now api_key l in
        if negb ok then (l, Some RlApiKey) else (l, None).

(** ** Distributed counters

    [incr key] is Redis's reply to [INCR key] ([None] for an error); the results
    carry the commands sent, [EXPIRE] (of the one-second window) included. *)
Definition redis_over (burst : f64) (incr : string -> option Z) (key : string)
    : list RlCommand * bool :=
  match incr key with
  | Some count =>
      ((if (count =? 1)%Z then [RlIncr key; RlExpire key 1] else [RlIncr key]),
       flt burst (f64_of_Z count))
  | None => ([RlIncr key], false)
  end.

Definition redis_over_opt (burst : f64) (incr : string -> option Z) (prefix : string)
    (subject : option string) : list RlCommand * bool :=
  match non_empty subject with
  | Some s => redis_over burst incr (prefix +:+ s)
  | None => ([], false)
  end.

Definition check_redis (incr : string -> option Z) (client_ip : string)
    (username api_key : option string) : list RlCommand * option RateLimitViolation :=
  let '(c1, over) := redis_over (ip_burst config) incr ("bsdm:ratelimit:ip:" +:+ client_ip) in
  if over then (c1, Some RlIp)
  else
    let '(c2, over) := redis_over_opt (user_burst config) incr "bsdm:ratelimit:user:" username in
    if over then (c1 ++ c2, Some RlUser)
    else
      let '(c3, over) :=
        redis_over_opt (api_key_burst config) incr "bsdm:ratelimit:apikey:" api_key in
      (c1 ++ c2 ++ c3, if over then Some RlApiKey else None).

Definition check_async (redis : option (string -> option Z)) (now : N) (client_ip : string)
    (username api_key : option string) (l : RateLimiter)
    : RateLimiter * option RateLimitViolation :=
  if negb (rl_enabled config) then (l, None)
  else if api_key_required config && bool_decide (non_empty api_key = None) then
    (l, Some RlApiKeyMissing)
  else
    match redis with
    | Some incr => (l, (check_redis incr client_ip username api_key).2)
    | None => rl_check now client_ip username api_key l
    end.

End limiter.

(** ** Lemmas *)

(** [n] requests on one bucket at one instant: the bucket and how many passed. *)
Fixpoint acquire_n (n : nat) (now : N) (rate burst : f64) (b : TokenBucket) : TokenBucket * nat :=
  match n with
  | 0 => (b, 0)
  | S n' =>
      let '(b', ok) := bucket_try_acquire now rate burst b in
      let '(b'', k) := acquire_n n' now rate burst b' in
      (b'', (if ok then S k else k))
  end.

#[export] Instance spec_float_eq_dec : EqDecision f64.
Proof. solve_decision. Defined.

(** Whole balances up to [limit] are exact: adding nothing, capping at a larger
    whole burst, comparing with one and spending one. *)
Definition limit : nat := 1000.

Definition whole_ok (k : nat) : bool :=
  bool_decide (fadd (f64_of_N (N.of_nat k)) f64_zero = f64_of_N (N.of_nat k)) &&
  Bool.eqb (fle f64_one (f64_of_N (N.of_nat k))) (Nat.ltb 0 k) &&
  match k with
  | 0 => true
  | S j => bool_decide (fsub (f64_of_N (N.of_nat k)) f64_one = f64_of_N (N.of_nat j))
  end.

Definition caps_ok (fs : list f64) : bool :=
  (fix go l := match l with
               | [] => true
               | x :: l' => forallb (fun y => negb (flt y x)) l && go l'
               end) fs.

Lemma whole_all : forallb whole_ok (seq 0 (S limit)) = true.
Proof. vm_compute. reflexivity. Qed.

Lemma caps_all : caps_ok ((fun k => f64_of_N (N.of_nat k)) <$> seq 0 (S limit)) = true.
Proof. vm_compute. reflexivity. Qed.

Lemma caps_ok_lookup l i j x y :
  caps_ok l = true -> l !! i = Some x -> l !! j = Some y -> i <= j -> flt y x = false.
Proof.
  revert i j; induction l as [|z l IH]; intros i j Hc Hi Hj Hle; [done|].
  unfold caps_ok in Hc. fold caps_ok in Hc. simpl in Hc. apply andb_true_iff in Hc as [Hz Hl].
  destruct i as [|i].
  - simplify_eq/=. apply negb_true_iff. apply andb_true_iff in Hz as [Hzz Hz].
    destruct j as [|j]; [by simplify_eq/=|]. simpl in Hj.
    apply (proj1 (forallb_forall _ _) Hz). by eapply list_elem_of_In, list_elem_of_lookup_2.
  - destruct j as [|j]; [lia|]. simpl in *. by apply (IH i j); [|..|lia].
Qed.

Lemma whole_balance k :
  k <= limit ->
  fadd (f64_of_N (N.of_nat k)) f64_zero = f64_of_N (N.of_nat k) /\
  fle f64_one (f64_of_N (N.of_nat k)) = Nat.ltb 0 k /\
  (forall j, k = S j -> fsub (f64_of_N (N.of_nat k)) f64_one = f64_of_N (N.of_nat j)).
Proof.
  intros Hk. pose proof (proj1 (forallb_forall _ _) whole_all k) as Hw.
  specialize (Hw ltac:(apply in_seq; lia)). unfold whole_ok in Hw. bool_hyps.
  apply bool_decide_eq_true in H. apply Bool.eqb_prop in H1. split_and!; [done..|].
  intros j ->. by apply bool_decide_eq_true in H0.
Qed.

Lemma whole_cap a b :
  a <= b -> b <= limit -> flt (f64_of_N (N.of_nat b)) (f64_of_N (N.of_nat a)) = false.
Proof.
  intros Hab Hb. eapply (caps_ok_lookup _ a b); [apply caps_all|..|done];
    rewrite list_lookup_fmap, lookup_seq_lt by lia; done.
Qed.

Lemma f64_of_nat_not_nan k : k <= limit -> is_nan (f64_of_N (N.of_nat k)) = false.
Proof.
  intros Hk. destruct (whole_balance k Hk) as (Hadd & _).
  destruct (f64_of_N (N.of_nat k)) eqn:E; try done.
  pose proof (whole_cap k k ltac:(done) Hk) as Hc. rewrite E in Hc.
  assert (fle f64_one (f64_of_N (N.of_nat k)) = Nat.ltb 0 k) as Hle by by apply whole_balance.
  rewrite E in Hle. change (fle f64_one S754_nan) with false in Hle.
  symmetry in Hle. apply Nat.ltb_ge in Hle. replace k with 0 in E by lia. discriminate E.
Qed.

(** A rate that is a finite, non-negative number. *)
Definition finite_rate (rate : f64) : bool :=
  match rate with S754_zero false => true | S754_finite false _ _ => true | _ => false end.

(** At the instant of the last refill a whole balance stays what it is. *)
Lemma refilled_same_instant now rate k b :
  finite_rate rate = true -> k <= b -> b <= limit ->
  refilled now rate (f64_of_N (N.of_nat b))
    {| tokens := f64_of_N (N.of_nat k); last_refill := now |} = f64_of_N (N.of_nat k).
Proof.
  intros Hr Hk Hb. unfold refilled, saturating_sub. cbn [tokens last_refill]. rewrite N.sub_diag.
  change (as_secs_f64 0) with f64_zero.
  assert (fmul f64_zero rate = f64_zero) as -> by (by destruct rate as [[]|[]| |[] ? ?]).
  destruct (whole_balance k ltac:(lia)) as (-> & _).
  unfold f64_min. rewrite !f64_of_nat_not_nan by lia. by rewrite whole_cap.
Qed.

Lemma acquire_n_whole n now rate k b :
  finite_rate rate = true -> k <= b -> b <= limit ->
  (acquire_n n now rate (f64_of_N (N.of_nat b))
     {| tokens := f64_of_N (N.of_nat k); last_refill := now |}).2 = Nat.min n k.
Proof.
  intros Hr. revert k; induction n as [|n IH]; intros k Hk Hb; [done|].
  cbn [acquire_n]. unfold bucket_try_acquire. rewrite refilled_same_instant by done.
  destruct (whole_balance k ltac:(lia)) as (_ & -> & Hsub). destruct k as [|k].
  - cbn [Nat.ltb Nat.leb]. specialize (IH 0 Hk Hb). destruct (acquire_n _ _ _ _ _). simpl in *. lia.
  - cbn [Nat.ltb Nat.leb]. rewrite (Hsub k eq_refl).
    specialize (IH k ltac:(lia) Hb). destruct (acquire_n _ _ _ _ _). simpl in *. lia.
Qed.

Section limiter_lemmas.
Context (config : RateLimitConfig) (first_key : Buckets -> option string).
Hypothesis first_key_spec : picks_key first_key.

Lemma try_acquire_size now key rate burst b b' ok :
  (N.of_nat (size b) <= N.max (rl_max_keys config) 1)%N ->
  try_acquire config first_key now key rate burst b = (b', ok) ->
  (N.of_nat (size b') <= N.max (rl_max_keys config) 1)%N.
Proof.
  intros Hb. unfold try_acquire. destruct (bucket_try_acquire _ _ _ _) as [bk ok'].
  intros [= <- _]. by apply evict_for_size.
Qed.

Definition limiter_ok (l : RateLimiter) : Prop :=
  (N.of_nat (size (ip_buckets l)) <= N.max (rl_max_keys config) 1)%N /\
  (N.of_nat (size (user_buckets l)) <= N.max (rl_max_keys config) 1)%N /\
  (N.of_nat (size (api_key_buckets l)) <= N.max (rl_max_keys config) 1)%N.

Lemma check_ip_ok now ip l l' ok :
  limiter_ok l -> check_ip config first_key now ip l = (l', ok) -> limiter_ok l'.
Proof.
  unfold check_ip. destruct (try_acquire _ _ _ _ _ _ _) as [b ok'] eqn:Ht.
  intros (? & ? & ?) [= <- _]. split_and!; simpl; eauto using try_acquire_size.
Qed.

Lemma check_user_ok now u l l' ok :
  limiter_ok l -> check_user config first_key now u l = (l', ok) -> limiter_ok l'.
Proof.
  unfold check_user. intros Hl. destruct (non_empty u); [|by intros [= <- _]].
  destruct (try_acquire _ _ _ _ _ _ _) as [b ok'] eqn:Ht. destruct Hl as (? & ? & ?).
  intros [= <- _]. split_and!; simpl; eauto using try_acquire_size.
Qed.

Lemma check_api_key_ok now k l l' ok :
  limiter_ok l -> check_api_key config first_key now k l = (l', ok) -> limiter_ok l'.
Proof.
  unfold check_api_key. intros Hl. destruct (non_empty k); [|by intros [= <- _]].
  destruct (try_acquire _ _ _ _ _ _ _) as [b ok'] eqn:Ht. destruct Hl as (? & ? & ?).
  intros [= <- _]. split_and!; simpl; eauto using try_acquire_size.
Qed.

Lemma rl_check_ok now ip u k l l' v :
  limiter_ok l -> rl_check config first_key now ip u k l = (l', v) -> limiter_ok l'.
Proof.
  intros Hl. unfold rl_check. destruct (negb _); [by intros [= <- _]|].
  destruct (_ && _); [by intros [= <- _]|].
  destruct (check_ip _ _ _ _ _) as [l1 o1] eqn:H1. pose proof (check_ip_ok _ _ _ _ _ Hl H1).
  destruct (negb o1); [by intros [= <- _]|].
  destruct (check_user _ _ _ _ _) as [l2 o2] eqn:H2. pose proof (check_user_ok _ _ _ _ _ H H2).
  destruct (negb o2); [by intros [= <- _]|].
  destruct (check_api_key _ _ _ _ _) as [l3 o3] eqn:H3. pose proof (check_api_key_ok _ _ _ _ _ H0 H3).
  by destruct (negb o3); intros [= <- _].
Qed.

End limiter_lemmas.

(** A sequence of checks (time, address, user, key), in order. *)
Fixpoint rl_run (config : RateLimitConfig) (first_key : Buckets -> option string)
    (reqs : list (N * string * option string * option string)) (l : RateLimiter) : RateLimiter :=
  match reqs with
  | [] => l
  | (now, ip, u, k) :: reqs' =>
      rl_run config first_key reqs' (rl_check config first_key now ip u k l).1
  end.

(** The stages of one check that charge a bucket: those up to the first refusal. *)
Definition charged_up_to (v : option RateLimitViolation) (l l' : RateLimiter) : Prop :=
  match v with
  | Some RlApiKeyMissing => l' = l
  | Some RlIp => user_buckets l' = user_buckets l /\ api_key_buckets l' = api_key_buckets l
  | Some RlUser => api_key_buckets l' = api_key_buckets l
  | Some RlApiKey | None => True
  end.

(** ** Properties *)

(** The burst is exact: on a fresh bucket whose burst is a whole number up to
    1000, out of [n] simultaneous requests exactly [min n burst] are admitted,
    in binary64 arithmetic and at any finite rate. *)
Theorem burst_exact (n b : nat) (now : N) (rate : f64) :
  finite_rate rate = true -> b <= limit ->
  (acquire_n n now rate (f64_of_N (N.of_nat b)) (TokenBucket_new now (f64_of_N (N.of_nat b)))).2 =
    Nat.min n b.
Proof. intros Hr Hb. by apply acquire_n_whole. Qed.

(** A decision is taken on the capped balance: the refilled balance never
    exceeds the burst, the request is admitted exactly when it is at least one,
    and the bucket records the moment. *)
Theorem acquire_decision (now : N) (rate burst : f64) (b : TokenBucket) :
  is_nan burst = false ->
  let t := refilled now rate burst b in
  fle t burst = true /\ is_nan t = false /\
  (bucket_try_acquire now rate burst b).2 = fle f64_one t /\
  last_refill (bucket_try_acquire now rate burst b).1 = now.
Proof.
  intros Hb t. split_and!; unfold t, refilled; auto with bsdm.
  - unfold bucket_try_acquire, refilled. by case_match.
  - unfold bucket_try_acquire. by case_match.
Qed.

(** The tables stay bounded and the stages charge in order: after any
    sequence of checks no table holds more than [max_keys] (at least one)
    buckets, and a refused check has charged no stage after the refusing one. *)
Theorem limiter_bounded (config : RateLimitConfig) (first_key : Buckets -> option string) reqs :
  picks_key first_key ->
  limiter_ok config (rl_run config first_key reqs RateLimiter_new) /\
  (forall now ip u k l l' v, rl_check config first_key now ip u k l = (l', v) ->
     charged_up_to v l l').
Proof.
  intros Hfk. split.
  - assert (limiter_ok config RateLimiter_new) as Hl
      by (split_and!; simpl; rewrite map_size_empty; lia).
    revert Hl. generalize RateLimiter_new as l.
    induction reqs as [|[[[now ip] u] k] reqs IH]; intros l Hl; simpl; [done|].
    apply IH. destruct (rl_check _ _ _ _ _ _ _) as [l' v] eqn:Hc. simpl.
    by eapply rl_check_ok.
  - intros now ip u k l l' v. unfold rl_check, check_ip, check_user, check_api_key.
    repeat case_match; intros; simplify_eq/=; done.
Qed.

(** Distributed limiting fails open: when Redis answers every [INCR] with an
    error, each request that carries its required key is admitted and the local
    buckets are neither consulted nor charged. *)
Theorem redis_errors_admit (config : RateLimitConfig) (first_key : Buckets -> option string)
    (now : N) (ip : string) (u k : option string) (l : RateLimiter) :
  (api_key_required config = true -> is_Some (non_empty k)) ->
  check_async config first_key (Some (fun _ => None)) now ip u k l = (l, None).
Proof.
  intros Hk. unfold check_async. destruct (rl_enabled config); simpl; [|done].
  destruct (api_key_required config) eqn:Hreq; simpl.
  - destruct (Hk eq_refl) as [key ->]. simpl.
    unfold check_redis, redis_over_opt. simpl. by destruct (non_empty u), (non_empty k).
  - unfold check_redis, redis_over_opt. simpl. by destruct (non_empty u), (non_empty k).
Qed.

(** ** Witnesses *)

Definition sample_rl_config : RateLimitConfig := RateLimitConfig_from_env (fun name =>
  if String.eqb name "RATE_LIMIT_ENABLED" then Some "true"
  else if String.eqb name "RATE_LIMIT_MAX_KEYS" then Some "2" else None).

Lemma burst_exact_witness :
  (acquire_n 250 7 (ip_rps sample_rl_config) (ip_burst sample_rl_config)
     (TokenBucket_new 7 (ip_burst sample_rl_config))).2 = 200.
Proof.
  change (ip_burst sample_rl_config) with (f64_of_N (N.of_nat 200)).
  rewrite burst_exact; [reflexivity|vm_compute; reflexivity|].
  apply Nat.leb_le. vm_compute. reflexivity.
Defined.

Lemma acquire_decision_witness :
  fle (refilled (from_secs 3600) (ip_rps sample_rl_config) (ip_burst sample_rl_config)
    (TokenBucket_new 0 (ip_burst sample_rl_config))) (ip_burst sample_rl_config) = true.
Proof. apply acquire_decision. vm_compute. reflexivity. Defined.

Lemma limiter_bounded_witness :
  limiter_ok sample_rl_config
    (rl_run sample_rl_config first_listed
       [(1, "10.0.0.1", None, None); (2, "10.0.0.2", Some "ann", None); (3, "10.0.0.3", None, Some "k")]%N
       RateLimiter_new).
Proof. apply limiter_bounded. exact first_listed_picks. Defined.

Lemma redis_errors_admit_witness :
  check_async sample_rl_config first_listed (Some (fun _ => None)) 5 "10.0.0.1" None None
    RateLimiter_new = (RateLimiter_new, None).
Proof. apply redis_errors_admit. vm_compute. discriminate. Defined.
