(* ===== verification/PolicyCache.v ===== *)
(** * The policy decision cache (src/proxy/src/policy_cache.rs)

    Decisions and categories by principal and domain, with a lifetime, a bound
    on the number of keys and a generation that an ACL change advances.

    The oldest entry of the table, found by [min_by_key] over a [HashMap], is a
    function [oldest_key] of the table (ties depend on the iteration order). *)

From Stdlib Require Import Ascii String NArith Lia Sorting.Sorted Sorting.Permutation.
From stdpp Require Import base option gmap sets strings numbers list sorting.
From S2P Require Import Prelude Acl.

Record PolicyCacheKey := {
  pk_principal : string;
  pk_domain : string;
}.

#[export] Instance PolicyCacheKey_eq_dec : EqDecision PolicyCacheKey.
Proof. solve_decision. Defined.
#[export] Instance PolicyCacheKey_countable : Countable PolicyCacheKey.
Proof.
  apply (inj_countable' (fun k => (pk_principal k, pk_domain k))
           (fun p => {| pk_principal := p.1; pk_domain := p.2 |})).
  by intros [].
Defined.

Record PolicyCacheEntry := {
  pe_blocking : option AclDecision;
  pe_categories : list string;
  pe_threat_sources : list string;
  pe_cached_at : N;
  pe_generation : N;
}.

Record PolicyCacheConfig := {
  pc_ttl : N;
  pc_max_keys : N;
}.

Definition PolicyCacheConfig_from_env (env : Env) : PolicyCacheConfig := {|
  pc_ttl := from_secs (env_parse parse_u64 env "POLICY_DECISION_CACHE_TTL_SECONDS" 120%N);
  pc_max_keys := N.max (env_parse parse_usize env "POLICY_DECISION_CACHE_MAX_KEYS" 10000%N) 1;
|}.

Definition policy_cache_enabled (c : PolicyCacheConfig) : bool := negb (pc_ttl c =? 0)%N.

Abbreviation PolicyEntries := (gmap PolicyCacheKey PolicyCacheEntry).

Record PolicyDecisionCache := {
  pc_config : PolicyCacheConfig;
  pc_generation : N;
  pc_entries : PolicyEntries;
}.

Record PolicyCacheHit := {
  ph_blocking : option AclDecision;
  ph_categories : list string;
  ph_threat_sources : list string;
}.

Definition PolicyDecisionCache_new (config : PolicyCacheConfig) : PolicyDecisionCache :=
  {| pc_config := config; pc_generation := 1; pc_entries := ∅ |}.

(** [AtomicU64::fetch_add] wraps. *)
Definition policy_invalidate (c : PolicyDecisionCache) : PolicyDecisionCache :=
  {| pc_config := pc_config c; pc_generation := wrap 64 (pc_generation c + 1); pc_entries := ∅ |}.

Definition principal_key (username : option string) (groups : list string) : string :=
  let user := default "-" username in
  match groups with
  | [] => user
  | _ => user +:+ "|" +:+ join "," (merge_sort String.le groups)
  end.

Definition policy_key (username : option string) (domain : string) (groups : list string)
    : PolicyCacheKey :=
  {| pk_principal := principal_key username groups; pk_domain := domain |}.

Definition policy_lookup (now : N) (username : option string) (domain : string)
    (groups : list string) (c : PolicyDecisionCache) : option PolicyCacheHit :=
  if negb (policy_cache_enabled (pc_config c)) then None
  else
    entry ← pc_entries c !! policy_key username domain groups;
    if negb (pe_generation entry =? pc_generation c)%N ||
       (pc_ttl (pc_config c) <? saturating_sub now (pe_cached_at entry))%N
    then None
    else Some {| ph_blocking := pe_blocking entry; ph_categories := pe_categories entry;
                 ph_threat_sources := pe_threat_sources entry |}.

Definition policy_store (oldest_key : PolicyEntries -> option PolicyCacheKey) (now : N)
    (username : option string) (domain : string) (groups : list string)
    (categories threat_sources : list string) (blocking : option AclDecision)
    (c : PolicyDecisionCache) : PolicyDecisionCache :=
  if negb (policy_cache_enabled (pc_config c)) then c
  else
    let key := policy_key username domain groups in
    let entry := {| pe_blocking := blocking; pe_categories := categories;
                    pe_threat_sources := threat_sources; pe_cached_at := now;
                    pe_generation := pc_generation c |} in
    {| pc_config := pc_config c; pc_generation := pc_generation c;
       pc_entries :=
         <[key := entry]>
           (evict_for oldest_key (pc_max_keys (pc_config c)) key (pc_entries c)) |}.

(** What [min_by_key(|(_, v)| v.cached_at)] promises: some entry of least age. *)
Definition oldest_key_spec (oldest_key : PolicyEntries -> option PolicyCacheKey) : Prop :=
  forall m, m <> ∅ -> exists k e, oldest_key m = Some k /\ m !! k = Some e /\
    forall k' e', m !! k' = Some e' -> (pe_cached_at e <= pe_cached_at e')%N.

(** ** Lemmas *)

Lemma principal_key_perm u gs gs' :
  gs ≡ₚ gs' -> principal_key u gs = principal_key u gs'.
Proof.
  intros Hp. unfold principal_key.
  destruct gs as [|g gs], gs' as [|g' gs']; try done.
  - apply Permutation_length in Hp. done.
  - apply Permutation_length in Hp. done.
  - do 3 f_equal.
    apply (StronglySorted_unique String.le).
    + apply StronglySorted_merge_sort; apply _.
    + apply StronglySorted_merge_sort; apply _.
    + by rewrite !merge_sort_Permutation.
Qed.


Lemma oldest_picks oldest : oldest_key_spec oldest -> picks_key oldest.
Proof. intros Ho m Hm. destruct (Ho m Hm) as (k & e & ? & ? & _). eauto. Qed.

(** ** Histories *)

Inductive policy_op :=
| PStore (now : N) (username : option string) (domain : string) (groups : list string)
    (hit : PolicyCacheHit)
| PInvalidate.

Definition policy_apply (oldest : PolicyEntries -> option PolicyCacheKey) (op : policy_op)
    (c : PolicyDecisionCache) : PolicyDecisionCache :=
  match op with
  | PStore now u d gs hit =>
      policy_store oldest now u d gs (ph_categories hit) (ph_threat_sources hit) (ph_blocking hit) c
  | PInvalidate => policy_invalidate c
  end.

(** The cache after a history, given newest first. *)
Definition policy_run oldest (config : PolicyCacheConfig) (ops : list policy_op)
    : PolicyDecisionCache :=
  foldr (policy_apply oldest) (PolicyDecisionCache_new config) ops.

(** What a history says of a key: its last store since the last invalidation. *)
Fixpoint last_store (key : PolicyCacheKey) (ops : list policy_op) : option (N * PolicyCacheHit) :=
  match ops with
  | [] => None
  | PInvalidate :: _ => None
  | PStore now u d gs hit :: ops' =>
      if decide (policy_key u d gs = key) then Some (now, hit) else last_store key ops'
  end.

Definition entry_hit (e : PolicyCacheEntry) : PolicyCacheHit :=
  {| ph_blocking := pe_blocking e; ph_categories := pe_categories e;
     ph_threat_sources := pe_threat_sources e |}.

Lemma evict_for_lookup `{Countable K} {A} (pick : gmap K A -> option K) n key m k e :
  evict_for pick n key m !! k = Some e -> m !! k = Some e.
Proof.
  unfold evict_for. repeat case_match; try done. by intros [_ ?]%lookup_delete_Some.
Qed.

Lemma policy_store_config oldest now u d gs cats ts blk c :
  pc_config (policy_store oldest now u d gs cats ts blk c) = pc_config c.
Proof. unfold policy_store. by case_match. Qed.

Lemma policy_run_config oldest config ops : pc_config (policy_run oldest config ops) = config.
Proof.
  induction ops as [|[] ops IH]; simpl; [done| |done]. by rewrite policy_store_config.
Qed.

Lemma policy_run_entries oldest config ops k e :
  policy_cache_enabled config = true ->
  pc_entries (policy_run oldest config ops) !! k = Some e ->
  pe_generation e = pc_generation (policy_run oldest config ops) /\
  last_store k ops = Some (pe_cached_at e, entry_hit e).
Proof.
  intros Hen. revert k e. induction ops as [|[now u d gs hit|] ops IH]; intros k e; simpl.
  - by rewrite lookup_empty.
  - unfold policy_store. rewrite policy_run_config, Hen. simpl.
    case_decide as Hk; subst.
    + rewrite lookup_insert_eq. intros [= <-]. destruct hit. done.
    + rewrite lookup_insert_ne by done. intros He%evict_for_lookup. by apply IH.
  - by rewrite lookup_empty.
Qed.

Lemma policy_run_size oldest config ops :
  oldest_key_spec oldest ->
  (N.of_nat (size (pc_entries (policy_run oldest config ops))) <= N.max (pc_max_keys config) 1)%N.
Proof.
  intros Ho%oldest_picks. induction ops as [|[now u d gs hit|] ops IH]; simpl.
  - rewrite map_size_empty. lia.
  - unfold policy_store. rewrite policy_run_config. case_match; [done|]. simpl.
    by apply evict_for_size.
  - rewrite map_size_empty. lia.
Qed.

Lemma policy_store_lookup_key oldest (c : PolicyDecisionCache) now later u d gs u' gs' cats ts blk :
  policy_cache_enabled (pc_config c) = true -> principal_key u gs = principal_key u' gs' ->
  (later <= now + pc_ttl (pc_config c))%N ->
  policy_lookup later u' d gs' (policy_store oldest now u d gs cats ts blk c) =
    Some {| ph_blocking := blk; ph_categories := cats; ph_threat_sources := ts |}.
Proof.
  intros Hen Hp Hl. unfold policy_lookup, policy_store. rewrite Hen. simpl. rewrite Hen. simpl.
  unfold policy_key. rewrite Hp, lookup_insert_eq. simpl.
  rewrite N.eqb_refl. simpl. unfold saturating_sub.
  by rewrite (proj2 (N.ltb_ge _ _)) by lia.
Qed.

(** ** Properties *)

(** The cache only repeats the history: whatever the evictions, a hit is the
    content of the last store for the same principal and domain since the last
    invalidation, no older than the lifetime, and the table never exceeds its
    bound. *)
Theorem policy_hit_sound oldest config ops now u d gs hit :
  oldest_key_spec oldest ->
  policy_lookup now u d gs (policy_run oldest config ops) = Some hit ->
  (exists t, last_store (policy_key u d gs) ops = Some (t, hit) /\ (now - t <= pc_ttl config)%N) /\
  (N.of_nat (size (pc_entries (policy_run oldest config ops))) <= N.max (pc_max_keys config) 1)%N.
Proof.
  intros Ho Hl. split; [|by apply policy_run_size]. revert Hl.
  unfold policy_lookup. rewrite policy_run_config.
  destruct (policy_cache_enabled config) eqn:Hen; [simpl|done].
  intros (e & He & H)%bind_Some. destruct (policy_run_entries _ _ _ _ _ Hen He) as [_ Hlast].
  destruct (_ || _) eqn:Hc in H; [done|]. simplify_eq. bool_hyps.
  exists (pe_cached_at e). unfold saturating_sub in *. split; [done|lia].
Qed.

(** Store and look up: right after a store, and until its lifetime ends, the
    same user with the same groups in any order finds the stored decision. *)
Theorem policy_store_lookup oldest (c : PolicyDecisionCache) now later u d gs gs' cats ts blk :
  policy_cache_enabled (pc_config c) = true -> gs ≡ₚ gs' ->
  (later <= now + pc_ttl (pc_config c))%N ->
  policy_lookup later u d gs' (policy_store oldest now u d gs cats ts blk c) =
    Some {| ph_blocking := blk; ph_categories := cats; ph_threat_sources := ts |}.
Proof. intros Hen Hp Hl. apply policy_store_lookup_key; auto using principal_key_perm. Qed.

(** Principals are not separated: a decision stored for a user in a group is
    served to the user whose name is the two joined by the separator, and one
    stored for the user [-] is served to the anonymous client. *)
Theorem policy_cache_mixes_principals oldest (c : PolicyDecisionCache) now later u g d cats ts blk :
  policy_cache_enabled (pc_config c) = true -> (later <= now + pc_ttl (pc_config c))%N ->
  let hit := Some {| ph_blocking := blk; ph_categories := cats; ph_threat_sources := ts |} in
  policy_lookup later (Some (u +:+ "|" +:+ g)) d []
    (policy_store oldest now (Some u) d [g] cats ts blk c) = hit /\
  policy_lookup later None d [] (policy_store oldest now (Some "-") d [] cats ts blk c) = hit.
Proof. intros Hen Hl. split; by apply policy_store_lookup_key. Qed.

(** ** Witnesses *)

Definition sample_pc_config : PolicyCacheConfig := PolicyCacheConfig_from_env (fun _ => None).

(** The first entry of least age in the order of [map_to_list]. *)
Definition oldest_listed (m : PolicyEntries) : option PolicyCacheKey :=
  fst <$> min_by (fun kv => pe_cached_at kv.2) (map_to_list m).

Lemma oldest_listed_spec : oldest_key_spec oldest_listed.
Proof.
  intros m Hm. unfold oldest_listed.
  destruct (min_by_Some (fun kv => pe_cached_at kv.2) (map_to_list m)) as ([k e] & -> & Hin & Hmin);
    [by intros ?%map_to_list_empty_iff|].
  exists k, e. split_and!; [done|by apply elem_of_map_to_list|].
  intros k' e' He. by apply (Hmin (k', e')), elem_of_map_to_list.
Qed.

Lemma policy_hit_sound_witness :
  let h := {| ph_blocking := None; ph_categories := ["news"]; ph_threat_sources := [] |} in
  let ops := [PStore 5 (Some "ann") "a.test" ["x"; "y"] h; PInvalidate] in
  exists t, last_store (policy_key (Some "ann") "a.test" ["y"; "x"]) ops = Some (t, h) /\
    (9 - t <= pc_ttl sample_pc_config)%N.
Proof.
  intros h ops.
  apply (policy_hit_sound oldest_listed sample_pc_config ops 9);
    [exact oldest_listed_spec|vm_compute; reflexivity].
Defined.

Lemma policy_store_lookup_witness :
  policy_lookup 9 (Some "ann") "a.test" ["y"; "x"]
    (policy_store oldest_listed 5 (Some "ann") "a.test" ["x"; "y"] ["news"] [] None
       (PolicyDecisionCache_new sample_pc_config)) =
    Some {| ph_blocking := None; ph_categories := ["news"]; ph_threat_sources := [] |}.
Proof.
  apply policy_store_lookup; [vm_compute; reflexivity|apply Permutation_swap|vm_compute; discriminate].
Defined.

Lemma policy_cache_mixes_principals_witness :
  policy_lookup 9 (Some ("ann" +:+ "|" +:+ "admins")) "a.test" []
    (policy_store oldest_listed 5 (Some "ann") "a.test" ["admins"] [] [] None
       (PolicyDecisionCache_new sample_pc_config)) =
    Some {| ph_blocking := None; ph_categories := []; ph_threat_sources := [] |}.
Proof.
  destruct (policy_cache_mixes_principals oldest_listed (PolicyDecisionCache_new sample_pc_config)
              5 9 "ann" "admins" "a.test" [] [] None) as [H _];
    [vm_compute; reflexivity|vm_compute; discriminate|exact H].
Defined.
