(* ===== verification/AclApi.v ===== *)
(** * The ACL control API (src/proxy/src/acl_api.rs, acl_config.rs,
    security_util.rs)

    The REST handlers that list, add, replace, delete, reload and persist rules,
    behind a bearer token compared in constant time.

    Parameters: serde_json ([RuleJson]) and the rules file ([read_file], the
    outcome of writing it).  A panic of a handler is [None]. *)

From Stdlib Require Import Ascii String NArith Lia Sorting.Sorted Sorting.Permutation.
From stdpp Require Import base option gmap sets strings pretty numbers list.
From S2P Require Import Prelude Http Acl PolicyCache.

(** ** Constant-time comparison (security_util.rs) *)

Fixpoint xor_diff (diff : N) (a b : string) : N :=
  match a, b with
  | String x a', String y b' => xor_diff (N.lor diff (N.lxor (char_code x) (char_code y))) a' b'
  | _, _ => diff
  end.

Definition constant_time_eq (a b : string) : bool :=
  if negb (Nat.eqb (String.length a) (String.length b)) then false
  else (xor_diff 0 a b =? 0)%N.

(** ** Rules files (acl_config.rs) *)

Definition parse_acl_action (value : string) : AclAction :=
  let l := to_ascii_lowercase value in
  if String.eqb l "deny" then Deny else if String.eqb l "redirect" then Redirect else Allow.

Definition action_to_str (a : AclAction) : string :=
  match a with Allow => "allow" | Deny => "deny" | Redirect => "redirect" end.

Record AclRulesDocument := {
  doc_default_action : option string;
  doc_rules : list AclRule;
}.

Class RuleJson := {
  rule_from_json : string -> result AclRule string;
  rule_to_json : AclRule -> option string;
  list_to_json : N -> AclAction -> list AclRule -> option string;
  doc_from_json : string -> result AclRulesDocument string;
  doc_to_json : AclRulesDocument -> result string string;
}.

(** ** JSON fragments the handlers write themselves *)

Definition dquote : string := String (ascii_of_N 34) EmptyString.
Definition quoted (s : string) : string := dquote +:+ s +:+ dquote.
Definition json_field (k v : string) : string := "{" +:+ quoted k +:+ ":" +:+ quoted v +:+ "}".
Definition json_error (msg : string) : string := json_field "error" msg.

(** [str::replace] of one character by a string. *)
Fixpoint replace_with (a : ascii) (by_ : string) (s : string) : string :=
  match s with
  | EmptyString => EmptyString
  | String c s' =>
      if Ascii.eqb c a then by_ +:+ replace_with a by_ s' else String c (replace_with a by_ s')
  end.

Definition escape_json (value : string) : string :=
  let bs := ascii_of_N 92 in
  replace_with (ascii_of_N 13) (String bs "r")
    (replace_with (ascii_of_N 10) (String bs "n")
       (replace_with (ascii_of_N 34) (String bs dquote)
          (replace_with bs (String bs (String bs EmptyString)) value))).

(** ** Percent decoding *)

Definition from_hex (c : ascii) : option N :=
  let b := char_code c in
  if ((48 <=? b) && (b <=? 57))%N then Some (b - 48)%N
  else if ((97 <=? b) && (b <=? 102))%N then Some (b - 97 + 10)%N
  else if ((65 <=? b) && (b <=? 70))%N then Some (b - 65 + 10)%N
  else None.

(** [String::push(b as char)]: the UTF-8 encoding of the code point [b]. *)
Definition push_char (b : N) : string :=
  if (b <? 128)%N then String (ascii_of_N b) EmptyString
  else String (ascii_of_N (N.lor 192 (N.shiftr b 6)))
         (String (ascii_of_N (N.lor 128 (N.land b 63))) EmptyString).

Fixpoint percent_decode (raw : string) : string :=
  match raw with
  | EmptyString => EmptyString
  | String c rest =>
      if Ascii.eqb c "%" then
        match rest with
        | String c1 (String c2 rest') =>
            match from_hex c1, from_hex c2 with
            | Some h, Some l => push_char (N.lor (N.shiftl h 4) l) +:+ percent_decode rest'
            | _, _ => push_char (char_code c) +:+ percent_decode rest
            end
        | _ => push_char (char_code c) +:+ percent_decode rest
        end
      else push_char (char_code c) +:+ percent_decode rest
  end.

(** ** The API *)

Record AclApiConfig := {
  api_default_action : AclAction;
  rules_path : option string;
  api_token : option string;
  fail_closed : bool;
}.

Inductive Method := GET | HEAD | POST | PUT | DELETE | OtherMethod.

Abbreviation ApiResponse := (N * string)%type.

Section api.
Context {RE : RegexEngine} {J : RuleJson} {T : HeaderText}.
Context (config : AclApiConfig) (read_file : string -> result string string).

Definition load_acl_engine_from_file (path : string) (fallback_default : AclAction)
    : option (result AclEngine string) :=
  match read_file path with
  | Err e => Some (Err ("failed to read ACL rules file: " +:+ e))
  | Ok content =>
      match doc_from_json content with
      | Err e => Some (Err ("failed to parse ACL rules JSON: " +:+ e))
      | Ok file =>
          let default_action :=
            match doc_default_action file with
            | Some a => parse_acl_action a
            | None => fallback_default
            end in
          engine ← load_rules (doc_rules file) (AclEngine_new default_action);
          Some (Ok engine)
      end
  end.

(** The document written by [save_acl_engine_to_file]; [write_ok] is the outcome
    of writing the temporary file and renaming it. *)
Definition save_acl_engine_to_file (write_ok : result unit string) (e : AclEngine)
    : result unit string :=
  match doc_to_json {| doc_default_action := Some (action_to_str (default_action e));
                       doc_rules := rules e |} with
  | Err e => Err ("failed to serialize ACL rules: " +:+ e)
  | Ok _ => write_ok
  end.

Record AclApiState := {
  api_engine : AclEngine;
  api_policy_cache : option PolicyDecisionCache;
}.

Definition is_authorized (headers : HeaderMap) : bool :=
  match api_token config with
  | Some expected =>
      match hm_get_str headers "authorization" ≫= strip_prefix "Bearer " with
      | Some token => constant_time_eq token expected
      | None => false
      end
  | None => negb (fail_closed config)
  end.

Definition invalidate_policy_cache (st : AclApiState) : AclApiState :=
  {| api_engine := api_engine st; api_policy_cache := policy_invalidate <$> api_policy_cache st |}.

(** [self.engine.mutate(..)]: the handle holds the snapshot, so it is shared and
    the edit works on a fork. *)
Definition api_mutate {R} (f : AclEngine -> option (AclEngine * R)) (st : AclApiState)
    : option (AclApiState * R) :=
  '(e, r) ← mutate false f (api_engine st);
  Some ({| api_engine := e; api_policy_cache := api_policy_cache st |}, r).

Definition list_rules (st : AclApiState) : ApiResponse :=
  let e := api_engine st in
  match list_to_json (N.of_nat (length (rules e))) (default_action e) (rules e) with
  | Some body => (200%N, body)
  | None => (500%N, json_error "serialization failed")
  end.

Definition with_id (r : AclRule) (i : string) : AclRule :=
  {| rule_id := i; rule_name := rule_name r; rule_enabled := rule_enabled r;
     rule_priority := rule_priority r; rule_action := rule_action r; rule_type := rule_type r;
     rule_redirect_url := rule_redirect_url r; rule_comment := rule_comment r |}.

Definition add_rule_body (body : string) (st : AclApiState) : option (AclApiState * ApiResponse) :=
  match rule_from_json body with
  | Err e => Some (st, (400%N, json_error ("invalid json: " +:+ escape_json e)))
  | Ok rule =>
      if str_is_empty (trim (rule_id rule)) then
        Some (st, (400%N, json_error "rule id is required"))
      else if has_rule (rule_id rule) (api_engine st) then
        Some (st, (409%N, json_error ("rule id already exists: " +:+ escape_json (rule_id rule))))
      else
        '(st, _) ← api_mutate (fun e => e' ← add_rule rule e; Some (e', tt)) st;
        Some (invalidate_policy_cache st,
              (201%N, default (json_field "status" "created") (rule_to_json rule)))
  end.

Definition update_rule_body (rid body : string) (st : AclApiState)
    : option (AclApiState * ApiResponse) :=
  match rule_from_json body with
  | Err e => Some (st, (400%N, json_error ("invalid json: " +:+ escape_json e)))
  | Ok rule =>
      if negb (str_is_empty (trim (rule_id rule))) && negb (String.eqb (rule_id rule) rid) then
        Some (st, (400%N, json_error "path id must match rule.id"))
      else
        let rule := if str_is_empty (trim (rule_id rule)) then with_id rule rid else rule in
        '(st, updated) ← api_mutate (update_rule rule) st;
        if negb updated then Some (st, (404%N, json_error "rule not found"))
        else Some (invalidate_policy_cache st,
                   (200%N, default (json_field "status" "updated") (rule_to_json rule)))
  end.

Definition delete_rule (rid : string) (st : AclApiState) : option (AclApiState * ApiResponse) :=
  '(st, removed) ← api_mutate (remove_rule rid) st;
  if negb removed then Some (st, (404%N, json_error "rule not found"))
  else Some (invalidate_policy_cache st,
             (200%N, "{" +:+ quoted "status" +:+ ":" +:+ quoted "deleted" +:+ "," +:+
                     quoted "id" +:+ ":" +:+ quoted (escape_json rid) +:+ "}")).

Definition reload_from_disk (st : AclApiState) : option (AclApiState * result N string) :=
  match rules_path config with
  | None => Some (st, Err "ACL_RULES_PATH is not configured")
  | Some path =>
      loaded ← load_acl_engine_from_file path (api_default_action config);
      match loaded with
      | Err e => Some (st, Err e)
      | Ok e =>
          Some (invalidate_policy_cache
                  {| api_engine := e; api_policy_cache := api_policy_cache st |},
                Ok (N.of_nat (length (rules e))))
      end
  end.

Definition reload_rules (st : AclApiState) : option (AclApiState * ApiResponse) :=
  match rules_path config with
  | None => Some (st, (400%N, json_error "ACL_RULES_PATH is not configured"))
  | Some _ =>
      '(st, r) ← reload_from_disk st;
      Some (st, match r with
                | Ok count =>
                    (200%N, "{" +:+ quoted "status" +:+ ":" +:+ quoted "reloaded" +:+ "," +:+
                            quoted "count" +:+ ":" +:+ pretty (count : N) +:+ "}")
                | Err e => (500%N, json_error (escape_json e))
                end)
  end.

Definition persist_rules (write_ok : result unit string) (st : AclApiState) : ApiResponse :=
  match rules_path config with
  | None => (400%N, json_error "ACL_RULES_PATH is not configured")
  | Some path =>
      match save_acl_engine_to_file write_ok (api_engine st) with
      | Ok _ =>
          (200%N, "{" +:+ quoted "status" +:+ ":" +:+ quoted "persisted" +:+ "," +:+
                  quoted "count" +:+ ":" +:+ pretty (N.of_nat (length (rules (api_engine st)))) +:+
                  "," +:+ quoted "path" +:+ ":" +:+ quoted (escape_json path) +:+ "}")
      | Err e => (500%N, json_error (escape_json e))
      end
  end.

Definition acl_dispatch (write_ok : result unit string) (method : Method) (path body : string)
    (headers : HeaderMap) (st : AclApiState) : option (AclApiState * ApiResponse) :=
  if negb (is_authorized headers) then Some (st, (401%N, json_error "unauthorized"))
  else
    match strip_prefix "/api/acl/rules/" path with
    | Some rid =>
        let rid := percent_decode rid in
        match method with
        | PUT => update_rule_body rid body st
        | DELETE => delete_rule rid st
        | _ => Some (st, (405%N, json_error "method not allowed"))
        end
    | None =>
        match method with
        | GET =>
            if String.eqb path "/api/acl/rules" then Some (st, list_rules st)
            else Some (st, (404%N, json_error "not found"))
        | POST =>
            if String.eqb path "/api/acl/rules" then add_rule_body body st
            else if String.eqb path "/api/acl/reload" then reload_rules st
            else if String.eqb path "/api/acl/persist" then Some (st, persist_rules write_ok st)
            else Some (st, (404%N, json_error "not found"))
        | _ => Some (st, (404%N, json_error "not found"))
        end
    end.

End api.

(** ** Lemmas *)

Lemma char_code_inj c d : char_code c = char_code d -> c = d.
Proof.
  intros H. rewrite <- (ascii_N_embedding c), <- (ascii_N_embedding d). unfold char_code in H.
  by rewrite H.
Qed.

Lemma xor_diff_zero d a b :
  String.length a = String.length b -> xor_diff d a b = 0%N <-> d = 0%N /\ a = b.
Proof.
  revert d b; induction a as [|x a IH]; intros d [|y b]; simpl; try done; [naive_solver|].
  intros Hl. rewrite IH by lia. rewrite N.lor_eq_0_iff, N.lxor_eq_0_iff. split.
  - intros [[-> ->%char_code_inj] ->]. done.
  - intros [-> [= -> ->]]. done.
Qed.

Lemma constant_time_eq_true a b : constant_time_eq a b = true <-> a = b.
Proof.
  unfold constant_time_eq. destruct (Nat.eqb_spec (String.length a) (String.length b)) as [Hl|Hl]; simpl.
  - rewrite N.eqb_eq, xor_diff_zero by done. naive_solver.
  - split; [done|]. by intros ->.
Qed.

Section api_lemmas.
Context {RE : RegexEngine} {J : RuleJson} {T : HeaderText}.
Context (config : AclApiConfig) (read_file : string -> result string string).

Lemma is_authorized_token headers t :
  api_token config = Some t ->
  is_authorized config headers = true <->
  hm_get_str headers "authorization" = Some ("Bearer " +:+ t).
Proof.
  intros Ht. unfold is_authorized. rewrite Ht.
  destruct (hm_get_str headers "authorization") as [v|]; [|done].
  change (Some v ≫= strip_prefix "Bearer ") with (strip_prefix "Bearer " v).
  destruct (strip_prefix "Bearer " v) as [tok|] eqn:Hs.
  - rewrite constant_time_eq_true. apply strip_prefix_Some in Hs as ->.
    split; [by intros ->|]. intros [= ?]. done.
  - split; [done|]. intros Hv. exfalso.
    assert (strip_prefix "Bearer " v = Some t) by (apply strip_prefix_Some; congruence).
    congruence.
Qed.

Definition ids (e : AclEngine) : list string := rule_id <$> rules e.

Lemma rebuild_ids e e' : rebuild_regex_cache e = Some e' -> ids e' = ids e.
Proof. intros (Hr & _ & _)%rebuild_regex_cache_Some. unfold ids. by rewrite Hr. Qed.

Lemma add_rule_ids r e e' : add_rule r e = Some e' -> ids e' ≡ₚ rule_id r :: ids e.
Proof.
  intros ->%rebuild_ids. unfold ids. simpl. rewrite sort_desc_Permutation, fmap_app. simpl.
  by rewrite Permutation_app_comm.
Qed.

Lemma update_rule_ids r e e' b : update_rule r e = Some (e', b) -> ids e' ≡ₚ ids e.
Proof.
  unfold update_rule. destruct (position _ _) as [i|] eqn:Hp; [|by intros [= <- _]].
  intros (e1 & Hr%rebuild_ids & [= <- _])%bind_Some. rewrite Hr. unfold ids. simpl. rewrite sort_desc_Permutation.
  apply position_Some in Hp as (x & Hx & Hid). bool_hyps.
  rewrite list_fmap_insert, list_insert_id; [done|]. rewrite list_lookup_fmap, Hx. simpl. congruence.
Qed.

Lemma remove_rule_ids rid e e' b :
  remove_rule rid e = Some (e', b) -> ids e' = filter (fun i => i <> rid) (ids e).
Proof.
  assert (rule_id <$> List.filter (fun r => negb (String.eqb (rule_id r) rid)) (rules e) =
          filter (fun i => i <> rid) (ids e)) as Hf.
  { unfold ids. induction (rules e) as [|r rs IH]; [done|]. cbn [List.filter fmap list_fmap].
    rewrite filter_cons. destruct (String.eqb_spec (rule_id r) rid); simpl.
    - rewrite decide_False by naive_solver. exact IH.
    - rewrite decide_True by done. by f_equal. }
  unfold remove_rule. case_match.
  - intros [= <- _]. exact Hf.
  - intros (e1 & Hr%rebuild_ids & [= <- _])%bind_Some. rewrite Hr. exact Hf.
Qed.

(** Edits that report no change leave the engine as it was. *)
Lemma update_rule_false r e e' : update_rule r e = Some (e', false) -> e' = e.
Proof.
  unfold update_rule. destruct (position _ _); [|by intros [= <-]].
  by intros (e1 & _ & [=])%bind_Some.
Qed.

Lemma remove_rule_false rid e e' : remove_rule rid e = Some (e', false) -> e' = e.
Proof.
  unfold remove_rule. case_match eqn:Hl; [|by intros (e1 & _ & [=])%bind_Some].
  apply Nat.eqb_eq in Hl. intros [= <-]. rewrite filter_same_length by done. by destruct e.
Qed.

Lemma api_mutate_ok {R} f st st' (r : R) :
  engine_ok (api_engine st) -> api_mutate f st = Some (st', r) ->
  f (api_engine st) = Some (api_engine st', r) /\ api_policy_cache st' = api_policy_cache st.
Proof.
  intros Hok ([e r'] & Hm & [= <- <-])%bind_Some. unfold mutate in Hm.
  rewrite fork_from_id in Hm by done. done.
Qed.

(** What a handler may do to the state: nothing, or replace the engine by one
    that satisfies [P] and invalidate the policy cache. *)
Inductive api_change (P : AclEngine -> Prop) (st : AclApiState) : AclApiState -> Prop :=
| no_change : api_change P st st
| changed e : engine_ok e -> P e ->
    api_change P st
      {| api_engine := e; api_policy_cache := policy_invalidate <$> api_policy_cache st |}.

Lemma api_state_eta st : {| api_engine := api_engine st; api_policy_cache := api_policy_cache st |} = st.
Proof. by destruct st. Qed.

Lemma add_rule_body_change body st st' resp :
  engine_ok (api_engine st) -> add_rule_body body st = Some (st', resp) ->
  api_change (fun e => exists r, has_rule (rule_id r) (api_engine st) = false /\
                ids e ≡ₚ rule_id r :: ids (api_engine st)) st st'.
Proof.
  intros Hok. unfold add_rule_body.
  destruct (rule_from_json body) as [rule|]; [|intros [= <- _]; constructor].
  destruct (str_is_empty _); [intros [= <- _]; constructor|].
  destruct (has_rule _ _) eqn:Hh; [intros [= <- _]; constructor|].
  intros ([st1 []] & Hm & [= <- _])%bind_Some.
  apply api_mutate_ok in Hm as [(e & Ha & [= He])%bind_Some Hc]; [|done].
  unfold invalidate_policy_cache. rewrite Hc, <- He. constructor.
  - by apply (apply_op_ok (OpAdd rule) (api_engine st)).
  - exists rule. split; [done|]. by apply add_rule_ids.
Qed.

Lemma update_rule_body_change rid body st st' resp :
  engine_ok (api_engine st) -> update_rule_body rid body st = Some (st', resp) ->
  api_change (fun e => ids e ≡ₚ ids (api_engine st)) st st'.
Proof.
  intros Hok. unfold update_rule_body.
  destruct (rule_from_json body) as [rule|]; [|intros [= <- _]; constructor].
  destruct (_ && _); [intros [= <- _]; constructor|].
  set (rule' := if str_is_empty _ then _ else _).
  intros ([st1 b] & Hm & H)%bind_Some. apply api_mutate_ok in Hm as [Hu Hc]; [|done].
  destruct b; simpl in H; simplify_eq.
  - unfold invalidate_policy_cache. rewrite Hc. constructor; [|by eapply update_rule_ids].
    apply (apply_op_ok (OpUpdate rule') (api_engine st)); [done|]. simpl. by rewrite Hu.
  - apply update_rule_false in Hu. rewrite <- (api_state_eta st'), Hu, Hc, api_state_eta. constructor.
Qed.

Lemma delete_rule_change rid st st' resp :
  engine_ok (api_engine st) -> delete_rule rid st = Some (st', resp) ->
  api_change (fun e => ids e = filter (fun i => i <> rid) (ids (api_engine st))) st st'.
Proof.
  intros Hok ([st1 b] & Hm & H)%bind_Some. apply api_mutate_ok in Hm as [Hu Hc]; [|done].
  destruct b; simpl in H; simplify_eq.
  - unfold invalidate_policy_cache. rewrite Hc. constructor; [|by eapply remove_rule_ids].
    apply (apply_op_ok (OpRemove rid) (api_engine st)); [done|]. simpl. by rewrite Hu.
  - apply remove_rule_false in Hu. rewrite <- (api_state_eta st'), Hu, Hc, api_state_eta. constructor.
Qed.

Lemma reload_rules_change st st' resp :
  reload_rules config read_file st = Some (st', resp) -> api_change (fun _ => True) st st'.
Proof.
  unfold reload_rules, reload_from_disk.
  destruct (rules_path config) as [path|]; [|intros [= <- _]; constructor].
  intros ([st1 r] & (l & Hl & H)%bind_Some & [= <- _])%bind_Some.
  destruct l as [e|]; simplify_eq; [|constructor].
  unfold invalidate_policy_cache. simpl. apply changed; [|done].
  unfold load_acl_engine_from_file in Hl.
  destruct (read_file path); [|done]. destruct (doc_from_json _); [|done].
  apply bind_Some in Hl as (e' & He & [= <-]).
  by eapply (apply_op_ok (OpLoad _)); [|exact He]; split; [constructor|].
Qed.

Lemma api_change_mono (P Q : AclEngine -> Prop) st st' :
  (forall e, P e -> Q e) -> api_change P st st' -> api_change Q st st'.
Proof. intros HPQ [|e Hok HP]; constructor; auto. Qed.

Lemma has_rule_ids i e : has_rule i e = false -> i ∉ ids e.
Proof.
  unfold has_rule, ids. intros Hh (r & -> & Hr)%list_elem_of_fmap.
  apply not_true_iff_false in Hh. apply Hh, existsb_exists.
  exists r. split; [by apply list_elem_of_In|apply String.eqb_refl].
Qed.

(** Every request changes the state in one of the allowed ways; unless it is a
    reload, it keeps rule ids unique. *)
Lemma acl_dispatch_change w method path body headers st st' resp :
  engine_ok (api_engine st) ->
  acl_dispatch config read_file w method path body headers st = Some (st', resp) ->
  api_change (fun e => path <> "/api/acl/reload" -> NoDup (ids (api_engine st)) -> NoDup (ids e))
    st st'.
Proof.
  intros Hok. unfold acl_dispatch. destruct (negb _); [intros [= <- _]; constructor|].
  destruct (strip_prefix _ _) as [rid|] eqn:Hp.
  - destruct method; try (intros [= <- _]; constructor).
    + intros H%update_rule_body_change; [|done]. eapply api_change_mono, H. by intros e ->.
    + intros H%delete_rule_change; [|done]. eapply api_change_mono, H.
      intros e -> _ Hnd. by apply NoDup_filter.
  - destruct method; try (intros [= <- _]; constructor).
    + case_match; intros [= <- _]; constructor.
    + destruct (String.eqb path "/api/acl/rules").
      { intros H%add_rule_body_change; [|done]. eapply api_change_mono, H.
        intros e (r & Hh & ->) _ Hnd. constructor; [by apply has_rule_ids|done]. }
      destruct (String.eqb_spec path "/api/acl/reload") as [->|].
      { intros H%reload_rules_change. eapply api_change_mono, H. done. }
      case_match; intros [= <- _]; constructor.
Qed.

(** ** Properties *)

(** The token gates everything: with a configured token, a request whose
    [Authorization] header is not exactly that bearer token is answered 401 and
    changes nothing; without a token, a fail-closed API answers every request
    so. *)
Theorem acl_api_token_gate w method path body headers (st : AclApiState) :
  match api_token config with
  | Some t => hm_get_str headers "authorization" <> Some ("Bearer " +:+ t)
  | None => fail_closed config = true
  end ->
  acl_dispatch config read_file w method path body headers st =
    Some (st, (401%N, json_error "unauthorized")).
Proof.
  intros Hg. unfold acl_dispatch.
  assert (is_authorized config headers = false) as ->; [|done].
  destruct (api_token config) as [t|] eqn:Ht.
  - apply not_true_iff_false. by rewrite is_authorized_token.
  - unfold is_authorized. by rewrite Ht, Hg.
Qed.

(** A rule change never leaves a stale decision: whenever a request changes
    the engine the policy cache is emptied before the response, the engine stays
    well formed (sorted, every regex rule compiled), and, reload apart, rule ids
    stay unique. *)
Theorem acl_api_change_invalidates w method path body headers (st st' : AclApiState) resp :
  engine_ok (api_engine st) ->
  acl_dispatch config read_file w method path body headers st = Some (st', resp) ->
  engine_ok (api_engine st') /\
  (api_engine st' <> api_engine st ->
     forall c, api_policy_cache st' = Some c -> pc_entries c = ∅) /\
  (path <> "/api/acl/reload" -> NoDup (ids (api_engine st)) -> NoDup (ids (api_engine st'))).
Proof.
  intros Hok H. apply acl_dispatch_change in H as [|e Hok' Hids]; [done| |done].
  split_and!; [done| |done]. intros _ c. simpl. by intros (c0 & _ & ->)%fmap_Some.
Qed.

End api_lemmas.

(** The constant-time comparison of secrets is equality. *)
Theorem constant_time_eq_spec (a b : string) : constant_time_eq a b = String.eqb a b.
Proof. apply eq_true_iff_eq. by rewrite constant_time_eq_true, String.eqb_eq. Qed.

(** ** Witnesses *)

#[export] Instance plain_text : HeaderText := {| hv_to_str v := Some v |}.

#[export] Instance sample_rule_json : RuleJson := {|
  rule_from_json body := Ok (sample_rule body 5 Deny (Domain body));
  rule_to_json _ := None;
  list_to_json _ _ _ := None;
  doc_from_json _ := Err "no document";
  doc_to_json _ := Err "no document";
|}.

Definition sample_api_config : AclApiConfig :=
  {| api_default_action := Allow; rules_path := None; api_token := Some "s3cret"; fail_closed := true |}.

Definition sample_api_state : AclApiState :=
  {| api_engine := sample_engine;
     api_policy_cache := Some (PolicyDecisionCache_new sample_pc_config) |}.

Definition no_file (_ : string) : result string string := Err "no such file".

Lemma acl_api_token_gate_witness :
  acl_dispatch sample_api_config no_file (Ok tt) DELETE "/api/acl/rules/deny-ads" EmptyString
    [("authorization", "Bearer guess")] sample_api_state =
    Some (sample_api_state, (401%N, json_error "unauthorized")).
Proof. apply acl_api_token_gate. vm_compute. discriminate. Defined.

Definition sample_delete : option (AclApiState * ApiResponse) :=
  acl_dispatch sample_api_config no_file (Ok tt) DELETE "/api/acl/rules/deny-ads" EmptyString
    [("authorization", "Bearer s3cret")] sample_api_state.

Lemma sample_delete_present : present sample_delete = true.
Proof. vm_compute. reflexivity. Qed.

Lemma acl_api_change_invalidates_witness :
  exists st' resp, sample_delete = Some (st', resp) /\ engine_ok (api_engine st').
Proof.
  pose proof (present_default (sample_api_state, (0%N, EmptyString)) _ sample_delete_present) as Hd.
  destruct (default _ _) as [st' resp] in Hd.
  exists st', resp. split; [exact Hd|].
  apply (acl_api_change_invalidates sample_api_config no_file (Ok tt) DELETE
           "/api/acl/rules/deny-ads" EmptyString [("authorization", "Bearer s3cret")] sample_api_state st' resp);
    [|exact Hd].
  exact (acl_reachable_ok _ _ sample_reachable).
Defined.
