(* ===== verification/Inspection.v ===== *)
(** * Content inspection (src/proxy/src/casb.rs, dlp.rs)

    Recognition of LLM providers by domain, and the DLP engine that scans the
    chunks of a request body for signatures.

    The Aho-Corasick automaton is a parameter ([AhoCorasick]). *)

From Stdlib Require Import Ascii String NArith Lia.
From stdpp Require Import base option gmap sets strings list.
From S2P Require Import Prelude.

(** ** CASB *)

Definition default_llm_domains : gset string :=
  {["api.openai.com"; "chatgpt.com"; "api.anthropic.com"; "claude.ai"; "copilot.microsoft.com"]}.

Definition set_domains (new_domains : list string) (_ : gset string) : gset string :=
  list_to_set new_domains.

Definition is_llm_provider (llm_domains : gset string) (domain : string) : bool :=
  existsb (fun d => String.eqb domain d || ends_with domain d) (elements llm_domains).

(** ** DLP *)

Record DlpViolation := {
  dv_category : string;
  dv_detail : string;
}.

(** [ac_find patterns haystack] is the index of the pattern the automaton built
    from [patterns] reports. *)
Class AhoCorasick := {
  ac_find : list string -> string -> option nat;
}.

Definition occurs (pat hay : string) : Prop := exists pre post, hay = pre +:+ pat +:+ post.

(** The automaton's contract: it reports a pattern that occurs, and reports
    nothing only when none does. *)
Class AhoCorasickLaws (A : AhoCorasick) := {
  ac_find_occurs pats hay i :
    ac_find pats hay = Some i -> exists p, pats !! i = Some p /\ occurs p hay;
  ac_find_none pats hay p : ac_find pats hay = None -> p ∈ pats -> ~ occurs p hay;
}.

Record DlpState := {
  dlp_patterns : list (string * string);
  dlp_enabled : bool;
}.

Definition empty_state : DlpState := {| dlp_patterns := []; dlp_enabled := false |}.

Definition default_patterns : list (string * string) :=
  [("sk-ant-api", "Anthropic API Key"); ("sk-proj-", "OpenAI Project Key");
   ("ghp_", "GitHub Personal Access Token"); ("xoxb-", "Slack Bot Token");
   ("BEGIN RSA PRIVATE KEY", "RSA Private Key");
   ("BEGIN OPENSSH PRIVATE KEY", "OpenSSH Private Key")].

Definition state_from_patterns (patterns : list (string * string)) : DlpState :=
  match patterns with
  | [] => empty_state
  | _ => {| dlp_patterns := patterns; dlp_enabled := true |}
  end.

Definition DlpEngine_from_env (env : Env) : DlpState :=
  if env_flag_default_off env "DLP_ENABLED" then state_from_patterns default_patterns
  else empty_state.

Definition dlp_is_enabled (s : DlpState) : bool :=
  dlp_enabled s && match dlp_patterns s with [] => false | _ => true end.

(** A frame of the body, or the error of the inner stream. *)
Inductive BodyFrame := BData (chunk : string) | BTrailers.

Inductive BodyItem :=
| ItemFrame (f : BodyFrame)
| ItemError (msg : string)
| ItemViolation (v : DlpViolation).

Section dlp.
Context {A : AhoCorasick}.

(** Indexing [patterns] with the reported pattern panics out of range: outer [None]. *)
Definition scan_chunk (s : DlpState) (chunk : string) : option (option DlpViolation) :=
  if negb (dlp_enabled s) || match dlp_patterns s with [] => true | _ => false end then Some None
  else
    match ac_find (fst <$> dlp_patterns s) chunk with
    | Some i =>
        p ← dlp_patterns s !! i;
        Some (Some {| dv_category := p.2; dv_detail := p.1 |})
    | None => Some None
    end.

(** [poll_frame] on a ready inner frame, with the violation recorded. *)
Definition dlp_poll_frame (s : DlpState) (inner : result BodyFrame string)
    (violation : option DlpViolation) : option (BodyItem * option DlpViolation) :=
  match inner with
  | Ok (BData data) =>
      scanned ← scan_chunk s data;
      match scanned with
      | Some v => Some (ItemViolation v, Some v)
      | None => Some (ItemFrame (BData data), violation)
      end
  | Ok f => Some (ItemFrame f, violation)
  | Err e => Some (ItemError e, violation)
  end.

(** [BodyExt::collect] over the stream: the frames up to the first error, which
    it returns. *)
Fixpoint dlp_collect (s : DlpState) (frames : list (result BodyFrame string)) (acc : string)
    : option (result string BodyItem) :=
  match frames with
  | [] => Some (Ok acc)
  | f :: frames' =>
      '(item, _) ← dlp_poll_frame s f None;
      match item with
      | ItemFrame (BData d) => dlp_collect s frames' (acc +:+ d)
      | ItemFrame BTrailers => dlp_collect s frames' acc
      | err => Some (Err err)
      end
  end.

End dlp.

(** ** Lemmas *)

Lemma occurs_app_l p a b : occurs p a -> occurs p (a +:+ b).
Proof. intros (pre & post & ->). exists pre, (post +:+ b). by rewrite !string_app_assoc. Qed.

Section dlp_lemmas.
Context {A : AhoCorasick} {AL : AhoCorasickLaws A}.

Lemma scan_chunk_total s chunk : exists r, scan_chunk s chunk = Some r.
Proof.
  unfold scan_chunk. case_match; [eauto|]. destruct (ac_find _ _) as [i|] eqn:Hf; [|eauto].
  apply ac_find_occurs in Hf as (p & Hp & _).
  apply list_lookup_fmap_Some in Hp as (q & -> & Hq). rewrite Hq. simpl. eauto.
Qed.

Lemma scan_chunk_clean s chunk :
  dlp_is_enabled s = true ->
  scan_chunk s chunk = Some None <-> forall p, p ∈ dlp_patterns s -> ~ occurs p.1 chunk.
Proof.
  unfold dlp_is_enabled, scan_chunk. intros Hen.
  destruct (dlp_enabled s); [|done]. destruct (dlp_patterns s) as [|q qs]; [done|].
  cbn [negb orb]. destruct (ac_find _ _) as [i|] eqn:Hf.
  - apply ac_find_occurs in Hf as (p & Hp & Ho).
    apply list_lookup_fmap_Some in Hp as (q' & -> & Hq). rewrite Hq. simpl. split; [done|].
    intros Hall. destruct (Hall q'); [by eapply list_elem_of_lookup_2|done].
  - split; [|done]. intros _ p Hp. eapply ac_find_none; [done|]. by apply list_elem_of_fmap_2.
Qed.

Fixpoint frames_data (frames : list (result BodyFrame string)) : list string :=
  match frames with
  | Ok (BData d) :: frames' => d :: frames_data frames'
  | _ :: frames' => frames_data frames'
  | [] => []
  end.

Definition frames_ok (frames : list (result BodyFrame string)) : Prop :=
  Forall (fun f => match f with Ok _ => True | Err _ => False end) frames.

Fixpoint concat_all (l : list string) : string :=
  match l with [] => EmptyString | x :: l' => x +:+ concat_all l' end.

Lemma dlp_collect_spec s frames acc :
  dlp_is_enabled s = true -> frames_ok frames ->
  ((forall d p, d ∈ frames_data frames -> p ∈ dlp_patterns s -> ~ occurs p.1 d) /\
   dlp_collect s frames acc = Some (Ok (acc +:+ concat_all (frames_data frames)))) \/
  ((exists d p, d ∈ frames_data frames /\ p ∈ dlp_patterns s /\ occurs p.1 d) /\
   exists v, dlp_collect s frames acc = Some (Err (ItemViolation v))).
Proof.
  intros Hen. revert acc; induction frames as [|[[d|]|e] frames IH]; intros acc Hok; simpl.
  - left. split; [set_solver|]. by rewrite string_app_nil_r.
  - apply Forall_cons in Hok as [_ Hok]. destruct (scan_chunk_total s d) as [[v|] Hs]; rewrite Hs; simpl.
    + right. split; [|eauto].
      unfold scan_chunk in Hs. case_match; [done|].
      destruct (ac_find _ _) as [i|] eqn:Hf; [|done].
      apply ac_find_occurs in Hf as (p & Hp & Ho).
      apply list_lookup_fmap_Some in Hp as (q & -> & Hq).
      exists d, q. split_and!; [set_solver|by eapply list_elem_of_lookup_2|done].
    + rewrite (scan_chunk_clean s d Hen) in Hs.
      destruct (IH (acc +:+ d) Hok) as [[Hc Hr]|[(d' & p & Hd & Hp & Ho) Hr]].
      * left. split; [|by rewrite Hr, string_app_assoc].
        intros d' p [->|Hd]%elem_of_cons Hp; [by apply Hs|by apply Hc].
      * right. split; [|done]. exists d', p. split_and!; [set_solver|done..].
  - apply Forall_cons in Hok as [_ Hok]. by apply IH.
  - by apply Forall_cons in Hok as [? _].
Qed.

Lemma dlp_collect_total s frames acc : is_Some (dlp_collect s frames acc).
Proof.
  revert acc. induction frames as [|[[d|]|e] frames IH]; intros acc; cbn [dlp_collect]; [done| |apply IH|done].
  cbn [dlp_poll_frame]. destruct (scan_chunk_total s d) as [[v|] ->]; [done|apply IH].
Qed.

End dlp_lemmas.

(** ** Properties *)

(** DLP per chunk: on a request body whose stream does not fail, the engine
    passes the body unchanged exactly when no chunk contains a signature, and
    otherwise stops with a violation; it never panics. *)
Theorem dlp_collect_exact {A : AhoCorasick} {AL : AhoCorasickLaws A} (s : DlpState)
    (frames : list (result BodyFrame string)) :
  dlp_is_enabled s = true -> frames_ok frames ->
  ((forall d p, d ∈ frames_data frames -> p ∈ dlp_patterns s -> ~ occurs p.1 d) /\
   dlp_collect s frames EmptyString = Some (Ok (concat_all (frames_data frames)))) \/
  ((exists d p, d ∈ frames_data frames /\ p ∈ dlp_patterns s /\ occurs p.1 d) /\
   exists v, dlp_collect s frames EmptyString = Some (Err (ItemViolation v))).
Proof. apply dlp_collect_spec. Qed.

(** A signature split over two chunks is not seen: if neither part contains a
    signature, the body passes although the whole contains one. *)
Theorem dlp_misses_split_signature {A : AhoCorasick} {AL : AhoCorasickLaws A} (s : DlpState)
    (a b : string) (p : string * string) :
  dlp_is_enabled s = true -> p ∈ dlp_patterns s -> p.1 = a +:+ b ->
  (forall d q, d ∈ [a; b] -> q ∈ dlp_patterns s -> ~ occurs q.1 d) ->
  occurs p.1 (a +:+ b) /\
  dlp_collect s [Ok (BData a); Ok (BData b)] EmptyString = Some (Ok (a +:+ b)).
Proof.
  intros Hen Hp Hab Hclean. split; [exists EmptyString, EmptyString; by rewrite string_app_nil_r|].
  destruct (dlp_collect_spec s [Ok (BData a); Ok (BData b)] EmptyString Hen) as [[_ Hr]|[Hv _]].
  - by repeat constructor.
  - rewrite Hr. simpl. by rewrite string_app_nil_r.
  - destruct Hv as (d & q & Hd & Hq & Ho). by destruct (Hclean d q Hd Hq).
Qed.

(** A provider domain has no label boundary: every domain that merely ends in
    the text of a monitored domain is taken for that provider. *)
Theorem llm_provider_by_suffix_text (domains : gset string) (d pre : string) :
  d ∈ domains -> is_llm_provider domains (pre +:+ d) = true.
Proof.
  intros Hd. apply existsb_exists. exists d. split; [by apply list_elem_of_In, elem_of_elements|].
  apply orb_true_iff. right. apply ends_with_spec. eauto.
Qed.

(** ** Witnesses: an automaton that tries the patterns one by one. *)

#[export] Instance naive_search : AhoCorasick := {|
  ac_find pats hay := position (fun p => str_contains hay p) pats;
|}.

#[export] Instance naive_search_laws : AhoCorasickLaws naive_search.
Proof.
  split; simpl.
  - intros pats hay i (p & Hp & Ho)%position_Some. exists p. split; [done|].
    by apply str_contains_spec in Ho.
  - intros pats hay p Hn Hp Ho. apply position_None in Hn. apply not_true_iff_false in Hn.
    apply Hn, existsb_exists. exists p. split; [by apply list_elem_of_In|].
    by apply str_contains_spec.
Qed.

Lemma dlp_collect_exact_witness :
  dlp_is_enabled (state_from_patterns default_patterns) = true /\
  exists v, dlp_collect (state_from_patterns default_patterns)
    [Ok (BData "token: ghp_12345")] EmptyString = Some (Err (ItemViolation v)).
Proof.
  split; [reflexivity|].
  destruct (dlp_collect_exact (state_from_patterns default_patterns) [Ok (BData "token: ghp_12345")])
    as [[_ H]|[_ H]]; [reflexivity|repeat constructor| |exact H].
  exfalso. revert H. vm_compute. discriminate.
Defined.

Lemma dlp_misses_split_signature_witness :
  dlp_collect (state_from_patterns default_patterns) [Ok (BData "gh"); Ok (BData "p_")] EmptyString =
    Some (Ok ("gh" +:+ "p_")).
Proof.
  apply (dlp_misses_split_signature _ "gh" "p_" ("ghp_", "GitHub Personal Access Token")).
  - reflexivity.
  - apply (bool_decide_unpack _). vm_compute. exact I.
  - reflexivity.
  - intros d q Hd Hq Ho. apply str_contains_spec in Ho.
    repeat (apply elem_of_cons in Hd as [->|Hd]; [|]); [| |by apply elem_of_nil in Hd];
      repeat (apply elem_of_cons in Hq as [->|Hq]; [vm_compute in Ho; discriminate|]);
      by apply elem_of_nil in Hq.
Defined.

Lemma llm_provider_by_suffix_text_witness :
  is_llm_provider default_llm_domains ("not" +:+ "claude.ai") = true.
Proof.
  apply llm_provider_by_suffix_text. apply (bool_decide_unpack _). vm_compute. exact I.
Defined.
