(* ===== verification/Utf8.v ===== *)
(** * UTF-8 as the standard library reads it

    [str::from_utf8], [String::from_utf8_lossy] and [str::chars] on byte strings,
    and the splitting of a text on characters that are not alphanumeric; the
    Unicode tables beyond ASCII are a parameter. *)

From Stdlib Require Import Ascii String NArith Lia.
From stdpp Require Import base option strings numbers list.
From S2P Require Import Prelude.

(** What may follow a first byte: the ranges of the continuation bytes; [None]
    for a byte that starts no character. *)
Definition utf8_tail (b : N) : option (list (N * N)) :=
  let cont := (128, 191)%N in
  if (b <? 128)%N then Some []
  else if (194 <=? b)%N && (b <=? 223)%N then Some [cont]
  else if (b =? 224)%N then Some [(160, 191)%N; cont]
  else if (b =? 237)%N then Some [(128, 159)%N; cont]
  else if (225 <=? b)%N && (b <=? 239)%N then Some [cont; cont]
  else if (b =? 240)%N then Some [(144, 191)%N; cont; cont]
  else if (241 <=? b)%N && (b <=? 243)%N then Some [cont; cont; cont]
  else if (b =? 244)%N then Some [(128, 143)%N; cont; cont]
  else None.

(** Whether the ranges are met, and how many bytes met theirs. *)
Fixpoint utf8_follow (ranges : list (N * N)) (s : string) : bool * nat :=
  match ranges, s with
  | [], _ => (true, 0)
  | (lo, hi) :: rs, String c s' =>
      if (lo <=? char_code c)%N && (char_code c <=? hi)%N then
        let '(ok, n) := utf8_follow rs s' in (ok, S n)
      else (false, 0)
  | _ :: _, EmptyString => (false, 0)
  end.

(** The character at the head of [String c s]: valid or not, and the number of
    bytes after the first that belong to it. *)
Definition utf8_head (c : ascii) (s : string) : bool * nat :=
  match utf8_tail (char_code c) with
  | Some ranges => utf8_follow ranges s
  | None => (false, 0)
  end.

Fixpoint utf8_valid_go (skip : nat) (s : string) : bool :=
  match s with
  | EmptyString => true
  | String c s' =>
      match skip with
      | S k => utf8_valid_go k s'
      | 0 => let '(ok, n) := utf8_head c s' in ok && utf8_valid_go n s'
      end
  end.

Definition utf8_valid : string -> bool := utf8_valid_go 0.

(** [String::from_utf8(bytes).ok()]. *)
Definition from_utf8 (s : string) : option string := if utf8_valid s then Some s else None.

Definition replacement_char : string :=
  String (ascii_of_N 239) (String (ascii_of_N 191) (String (ascii_of_N 189) EmptyString)).

(** [copy] bytes of a character are still to be copied, [drop] to be dropped. *)
Fixpoint from_utf8_lossy_go (copy drop : nat) (s : string) : string :=
  match s with
  | EmptyString => EmptyString
  | String c s' =>
      match copy, drop with
      | S k, _ => String c (from_utf8_lossy_go k drop s')
      | 0, S k => from_utf8_lossy_go 0 k s'
      | 0, 0 =>
          let '(ok, n) := utf8_head c s' in
          if ok then String c (from_utf8_lossy_go n 0 s')
          else replacement_char +:+ from_utf8_lossy_go 0 n s'
      end
  end.

Definition from_utf8_lossy : string -> string := from_utf8_lossy_go 0 0.

(** The characters of a valid text, each as its bytes. *)
Fixpoint utf8_chars_go (cur : string) (left : nat) (s : string) : list string :=
  match s with
  | EmptyString => if str_is_empty cur then [] else [cur]
  | String c s' =>
      match left with
      | S k => utf8_chars_go (cur +:+ String c EmptyString) k s'
      | 0 =>
          let rest := utf8_chars_go (String c EmptyString) (utf8_head c s').2 s' in
          if str_is_empty cur then rest else cur :: rest
      end
  end.

Definition utf8_chars : string -> list string := utf8_chars_go EmptyString 0.

(** [char::is_alphanumeric] for characters beyond ASCII. *)
Class UnicodeTables := unicode_alphanumeric : string -> bool.

Section text.
Context `{!UnicodeTables}.

Definition is_alphanumeric (c : string) : bool :=
  match c with
  | String a EmptyString => is_ascii_alphanumeric a
  | _ => unicode_alphanumeric c
  end.

Fixpoint alphanumeric_tokens_go (cur : string) (cs : list string) : list string :=
  match cs with
  | [] => if str_is_empty cur then [] else [cur]
  | c :: cs' =>
      if is_alphanumeric c then alphanumeric_tokens_go (cur +:+ c) cs'
      else if str_is_empty cur then alphanumeric_tokens_go EmptyString cs'
      else cur :: alphanumeric_tokens_go EmptyString cs'
  end.

(** [text.split(|c| !c.is_alphanumeric()).filter(|t| !t.is_empty())]. *)
Definition alphanumeric_tokens (text : string) : list string :=
  alphanumeric_tokens_go EmptyString (utf8_chars text).

End text.

(** A valid text is its own lossy reading. *)
Lemma lossy_valid_go copy s :
  utf8_valid_go copy s = true -> from_utf8_lossy_go copy 0 s = s.
Proof.
  revert copy. induction s as [|c s IH]; intros copy Hv; [done|].
  cbn [utf8_valid_go from_utf8_lossy_go] in *. destruct copy as [|k].
  - destruct (utf8_head c s) as [ok n]. destruct ok; [|done]. f_equal. by apply IH.
  - f_equal. by apply IH.
Qed.

Lemma from_utf8_lossy_valid s : utf8_valid s = true -> from_utf8_lossy s = s.
Proof. apply lossy_valid_go. Qed.

Lemma ascii_utf8_valid s : all_chars (fun c => (char_code c <? 128)%N) s = true -> utf8_valid s = true.
Proof.
  unfold utf8_valid. induction s as [|c s IH]; [done|]. cbn [all_chars utf8_valid_go].
  intros [Hc Hs]%andb_true_iff. unfold utf8_head, utf8_tail. rewrite Hc. by apply IH.
Qed.

(** A lone continuation byte, a cut sequence and an overlong form are replaced. *)
Example lossy_samples :
  from_utf8_lossy (String "a" (String (ascii_of_N 128) "b")) = "a" +:+ replacement_char +:+ "b" /\
  from_utf8_lossy (String (ascii_of_N 226) (String (ascii_of_N 130) "x")) = replacement_char +:+ "x" /\
  from_utf8_lossy (String (ascii_of_N 192) (String (ascii_of_N 175) EmptyString)) =
    replacement_char +:+ replacement_char /\
  utf8_chars "é€x" = ["é"; "€"; "x"]%string.
Proof. repeat split. Qed.
