(* ===== verification/Bytes.v ===== *)
(** * Byte-level encodings

    Big-endian and little-endian integers in byte strings, the cursor reads of
    the [bytes] crate's [Buf] on slices long enough, and the byte strings that are
    Rust texts. *)

From Stdlib Require Import Ascii String NArith Lia.
From stdpp Require Import base option strings list numbers.
From S2P Require Import Prelude Utf8.

Definition byte (n : N) : ascii := ascii_of_N (n mod 256).

(** [put_u8], [put_u16], [put_u32]: big-endian. *)
Definition put_u8 (n : N) : string := String (byte n) EmptyString.
Definition put_u16 (n : N) : string := put_u8 (n / 256) +:+ put_u8 n.
Definition put_u32 (n : N) : string := put_u16 (n / 65536) +:+ put_u16 n.

(** The value of a byte string, most significant byte first. *)
Fixpoint be_value (acc : N) (s : string) : N :=
  match s with
  | EmptyString => acc
  | String c s' => be_value (acc * 256 + char_code c) s'
  end.

(** The value of a byte string, least significant byte first. *)
Fixpoint le_value (s : string) : N :=
  match s with
  | EmptyString => 0
  | String c s' => char_code c + 256 * le_value s'
  end.

(** [&data[..n]] and [&data[n..]]. *)
Fixpoint str_take (n : nat) (s : string) : string :=
  match n, s with
  | S n', String c s' => String c (str_take n' s')
  | _, _ => EmptyString
  end.

Fixpoint str_drop (n : nat) (s : string) : string :=
  match n, s with
  | S n', String _ s' => str_drop n' s'
  | O, _ => s
  | _, EmptyString => EmptyString
  end.

Definition get_uint (n : nat) (s : string) : N * string := (be_value 0 (str_take n s), str_drop n s).

(** [{:x}] of a digit and [{:02x}] of a byte. *)
Definition hex_digit_lower (d : N) : ascii := ascii_of_N (if (d <? 10)%N then 48 + d else 87 + d).

Definition hex_two (b : N) : string :=
  String (hex_digit_lower (N.shiftr b 4)) (String (hex_digit_lower (N.land b 15)) EmptyString).

(** ** UTF-8 *)

(** A Rust [String]: its bytes are well-formed UTF-8, which is what the lossy
    conversion leaves alone. *)
Definition is_utf8 (s : string) : Prop := from_utf8_lossy s = s.

(** ** Lemmas *)

Lemma char_code_lt c : (char_code c < 256)%N.
Proof. apply N_ascii_bounded. Qed.

Lemma char_code_byte n : char_code (byte n) = (n mod 256)%N.
Proof. unfold char_code, byte. apply N_ascii_embedding. by apply N.mod_lt. Qed.

Lemma str_take_app n a b : n = String.length a -> str_take n (a +:+ b) = a.
Proof. intros ->. induction a as [|c a IH]; simpl; [by destruct b|]. by rewrite IH. Qed.

Lemma str_drop_app n a b : n = String.length a -> str_drop n (a +:+ b) = b.
Proof. intros ->. induction a as [|c a IH]; simpl; [done|]. exact IH. Qed.

Lemma str_take_all s : str_take (String.length s) s = s.
Proof. induction s as [|c s IH]; simpl; congruence. Qed.

Lemma str_take_length n s : String.length (str_take n s) = Nat.min n (String.length s).
Proof. revert s; induction n as [|n IH]; intros [|c s]; simpl; auto. Qed.

Lemma str_drop_length n s : String.length (str_drop n s) = String.length s - n.
Proof. revert s; induction n as [|n IH]; intros [|c s]; simpl; auto. Qed.

Lemma be_value_app acc s t : be_value acc (s +:+ t) = be_value (be_value acc s) t.
Proof. revert acc; induction s as [|c s IH]; intros acc; simpl; [done|]. apply IH. Qed.

(** A write keeps the value modulo the width: [as u8], [as u16], [as u32]. *)
Lemma put_u8_value n : be_value 0 (put_u8 n) = (n mod 256)%N.
Proof. simpl. by rewrite char_code_byte. Qed.

Lemma put_u16_acc acc n : be_value acc (put_u16 n) = (acc * 65536 + n mod 65536)%N.
Proof.
  simpl. rewrite !char_code_byte. change 65536%N with (256 * 256)%N.
  rewrite N.Div0.mod_mul_r. lia.
Qed.

Lemma put_u16_value n : be_value 0 (put_u16 n) = (n mod 65536)%N.
Proof. by rewrite put_u16_acc. Qed.

Lemma put_u32_value n : be_value 0 (put_u32 n) = (n mod 4294967296)%N.
Proof.
  unfold put_u32. rewrite be_value_app, !put_u16_acc.
  change 4294967296%N with (65536 * 65536)%N. rewrite N.Div0.mod_mul_r. lia.
Qed.

(** Reading back a fixed-width field at the head of a buffer. *)
Lemma get_uint_app n a b : n = String.length a -> get_uint n (a +:+ b) = (be_value 0 a, b).
Proof. intros H. unfold get_uint. by rewrite str_take_app, str_drop_app. Qed.

Lemma le_value_lt s : (le_value s < 256 ^ N.of_nat (String.length s))%N.
Proof.
  induction s as [|c s IH]; [done|]. cbn [le_value String.length].
  rewrite Nat2N.inj_succ, N.pow_succ_r'. pose proof (char_code_lt c). lia.
Qed.

(** ASCII text is well-formed. *)
Definition is_ascii (s : string) : bool := all_chars (fun c => (char_code c <? 128)%N) s.

Lemma is_ascii_utf8 s : is_ascii s = true -> is_utf8 s.
Proof. intros H. by apply from_utf8_lossy_valid, ascii_utf8_valid. Qed.

#[export] Hint Rewrite put_u8_value put_u16_value put_u32_value : bsdm.
#[export] Hint Resolve is_ascii_utf8 : bsdm.
