(* ===== verification/CacheDigest.v ===== *)
(** * Cache keys and cache digests (src/proxy/src/cache_key.rs, cache_digest.rs)

    The key of a cached response, the Bloom filter over cache keys that peers
    exchange, and the registry of the filters received.

    SHA-256 ([Sha256]) and base64 ([Base64]) are parameters; a panic is [None]. *)

From Stdlib Require Import Ascii String NArith Lia.
From stdpp Require Import base option gmap sets strings list numbers.
From S2P Require Import Prelude Bytes.

Class Sha256 := {
  sha256 : string -> string;
  hex_encode : string -> string;
}.

(** A digest has 32 bytes. *)
Class Sha256Laws (S : Sha256) := {
  sha256_length s : String.length (sha256 s) = 32;
}.

Class Base64 := {
  base64_encode : string -> string;
  base64_decode : string -> option string;
}.

Class Base64Laws (B : Base64) := {
  base64_inverse s : base64_decode (base64_encode s) = Some s;
}.

Definition http_cache_key {S : Sha256} (method url : string) : string :=
  hex_encode (sha256 (method +:+ ":" +:+ url)).

(** ** The filter *)

Record CacheDigest := {
  bits : string;
  bit_count : N;
  hash_count : N;
}.

Definition div_ceil (a b : N) : N := (a + b - 1) / b.

Definition CacheDigest_new (bit_count hash_count : N) : CacheDigest :=
  {| bits := String.string_of_list_ascii (replicate (N.to_nat (div_ceil bit_count 8)) Ascii.zero);
     bit_count := bit_count; hash_count := hash_count |}.

Section digest.
Context {S : Sha256} {B : Base64}.

(** The remainder by zero panics. *)
Definition hash_index (key : string) (seed bit_count : N) : option N :=
  let digest := sha256 (put_u8 seed +:+ key) in
  let value := le_value (str_take 8 digest) in
  if (bit_count =? 0)%N then None else Some (value mod bit_count)%N.

(** [self.bits[byte] |= 1 << bit], which panics out of range. *)
Fixpoint set_bit (byte_i : nat) (bit : N) (s : string) : option string :=
  match s, byte_i with
  | EmptyString, _ => None
  | String c s', O => Some (String (ascii_of_N (N.lor (char_code c) (N.shiftl 1 bit))) s')
  | String c s', Datatypes.S i => String c <$> set_bit i bit s'
  end.

Definition get_bit (byte_i : nat) (bit : N) (s : string) : option bool :=
  (fun c => negb (N.land (char_code c) (N.shiftl 1 bit) =? 0)%N) <$> String.get byte_i s.

Fixpoint insert_seeds (key : string) (seeds : list N) (d : CacheDigest) : option CacheDigest :=
  match seeds with
  | [] => Some d
  | seed :: seeds' =>
      index ← hash_index key seed (bit_count d);
      bits' ← set_bit (N.to_nat (index / 8)) (index mod 8) (bits d);
      insert_seeds key seeds' {| bits := bits'; bit_count := bit_count d; hash_count := hash_count d |}
  end.

Definition digest_seeds (d : CacheDigest) : list N := N.of_nat <$> seq 0 (N.to_nat (hash_count d)).

Definition digest_insert (key : string) (d : CacheDigest) : option CacheDigest :=
  insert_seeds key (digest_seeds d) d.

Fixpoint check_seeds (key : string) (seeds : list N) (d : CacheDigest) : option bool :=
  match seeds with
  | [] => Some true
  | seed :: seeds' =>
      index ← hash_index key seed (bit_count d);
      b ← get_bit (N.to_nat (index / 8)) (index mod 8) (bits d);
      if (b : bool) then check_seeds key seeds' d else Some false
  end.

Definition might_contain (key : string) (d : CacheDigest) : option bool :=
  check_seeds key (digest_seeds d) d.

Definition from_bytes (bytes : string) (bit_count hash_count : N) : option CacheDigest :=
  if (str_len bytes =? div_ceil bit_count 8)%N then
    Some {| bits := bytes; bit_count := bit_count; hash_count := hash_count |}
  else None.

Definition encode_base64 (d : CacheDigest) : string := base64_encode (bits d).

Definition decode_base64 (encoded : string) (bit_count hash_count : N) : option CacheDigest :=
  bytes ← base64_decode encoded;
  from_bytes bytes bit_count hash_count.

(** ** The registry *)

Record RemoteDigest := {
  rd_digest : CacheDigest;
  rd_updated_at : N;
}.

Record DigestRegistry := {
  local_digest : CacheDigest;
  remote_digests : gmap string RemoteDigest;
  dr_bit_count : N;
  dr_hash_count : N;
  dr_remote_ttl : N;
}.

Definition DigestRegistry_new (bit_count hash_count remote_ttl : N) : DigestRegistry :=
  {| local_digest := CacheDigest_new bit_count hash_count; remote_digests := ∅;
     dr_bit_count := bit_count; dr_hash_count := hash_count; dr_remote_ttl := remote_ttl |}.

Definition insert_cache_key (cache_key : string) (r : DigestRegistry) : option DigestRegistry :=
  d ← digest_insert cache_key (local_digest r);
  Some {| local_digest := d; remote_digests := remote_digests r; dr_bit_count := dr_bit_count r;
          dr_hash_count := dr_hash_count r; dr_remote_ttl := dr_remote_ttl r |}.

Definition local_snapshot_base64 (r : DigestRegistry) : string := encode_base64 (local_digest r).

Definition with_remote (r : DigestRegistry) (m : gmap string RemoteDigest) : DigestRegistry :=
  {| local_digest := local_digest r; remote_digests := m; dr_bit_count := dr_bit_count r;
     dr_hash_count := dr_hash_count r; dr_remote_ttl := dr_remote_ttl r |}.

Definition update_remote (now : N) (peer_id digest_b64 : string) (r : DigestRegistry)
    : DigestRegistry :=
  match decode_base64 digest_b64 (dr_bit_count r) (dr_hash_count r) with
  | None => r
  | Some digest =>
      with_remote r (<[peer_id := {| rd_digest := digest; rd_updated_at := now |}]> (remote_digests r))
  end.

(** The outer [None] is a panic, the inner one "no usable digest". *)
Definition peer_might_have_url (now : N) (peer_id cache_key : string) (r : DigestRegistry)
    : option (option bool) :=
  match remote_digests r !! peer_id with
  | None => Some None
  | Some entry =>
      if (dr_remote_ttl r <? saturating_sub now (rd_updated_at entry))%N then Some None
      else Some <$> might_contain cache_key (rd_digest entry)
  end.

Definition prune_stale_remote (now : N) (r : DigestRegistry) : DigestRegistry :=
  with_remote r
    (filter (fun kv => (saturating_sub now (rd_updated_at kv.2) <= dr_remote_ttl r)%N)
       (remote_digests r)).

Fixpoint insert_keys (keys : list string) (r : DigestRegistry) : option DigestRegistry :=
  match keys with
  | [] => Some r
  | k :: keys' => r' ← insert_cache_key k r; insert_keys keys' r'
  end.

End digest.

(** ** Lemmas *)

(** The shape of a filter: as many bytes as its bits need, at least one bit. *)
Definition digest_ok (d : CacheDigest) : Prop :=
  (0 < bit_count d)%N /\ str_len (bits d) = div_ceil (bit_count d) 8.

Lemma div_ceil_bound i n : (0 < n)%N -> (i < n)%N -> (i / 8 < div_ceil n 8)%N.
Proof.
  intros Hn Hi. unfold div_ceil. apply N.Div0.div_lt_upper_bound.
  pose proof (N.div_mod (n + 8 - 1) 8 ltac:(done)).
  pose proof (N.mod_lt (n + 8 - 1) 8 ltac:(done)). lia.
Qed.

Lemma set_bit_Some i bit s :
  i < String.length s -> exists s', set_bit i bit s = Some s' /\ String.length s' = String.length s.
Proof.
  revert i; induction s as [|c s IH]; intros i Hi; simpl in Hi; [lia|].
  destruct i as [|i]; simpl; [eexists; split; [done|done]|].
  destruct (IH i ltac:(lia)) as (s' & -> & Hl). eexists. split; [done|]. simpl. lia.
Qed.

Lemma get_bit_Some i c s : i < String.length s -> exists b, get_bit i c s = Some b.
Proof.
  revert i; induction s as [|x s IH]; intros i Hi; simpl in Hi; [lia|].
  destruct i as [|i]; [unfold get_bit; simpl; eauto|]. apply IH. lia.
Qed.

Lemma char_code_ascii_of_N n : (n < 256)%N -> char_code (ascii_of_N n) = n.
Proof. apply N_ascii_embedding. Qed.

Lemma lor_bit_lt c b : (c < 256)%N -> (b < 8)%N -> (N.lor c (N.shiftl 1 b) < 256)%N.
Proof.
  intros Hc Hb. destruct (decide (N.lor c (N.shiftl 1 b) = 0)%N) as [->|Hne]; [done|].
  apply (N.log2_lt_pow2 _ 8); [lia|]. rewrite N.log2_lor.
  assert (N.log2 (N.shiftl 1 b) < 8)%N by (rewrite N.shiftl_1_l, N.log2_pow2; lia).
  assert (N.log2 c < 8)%N; [|lia].
  destruct (decide (c = 0)%N) as [->|]; [done|]. apply N.log2_lt_pow2; lia.
Qed.

Lemma land_bit c b : negb (N.land c (N.shiftl 1 b) =? 0)%N = N.testbit c b.
Proof.
  rewrite N.shiftl_1_l. destruct (N.testbit c b) eqn:Hb.
  - apply negb_true_iff, N.eqb_neq. intros H0.
    assert (N.testbit (N.land c (2 ^ b)) b = true) as Ht.
    { rewrite N.land_spec, Hb, N.pow2_bits_true. done. }
    by rewrite H0 in Ht.
  - apply negb_false_iff, N.eqb_eq. apply N.bits_inj_0. intros n. rewrite N.land_spec.
    destruct (decide (n = b)) as [->|Hne]; [by rewrite Hb|].
    rewrite N.pow2_bits_false by congruence. by rewrite andb_false_r.
Qed.

(** Setting a bit sets it and keeps every bit that was set. *)
Lemma set_bit_get i b s s' j c :
  (b < 8)%N -> set_bit i b s = Some s' ->
  get_bit j c s' = (fun x => x || (bool_decide (j = i) && bool_decide (c = b))) <$> get_bit j c s.
Proof.
  intros Hb. revert i j s'; induction s as [|x s IH]; intros i j s'; [by destruct i|].
  destruct i as [|i]; simpl.
  - intros [= <-]. unfold get_bit. destruct j as [|j]; simpl.
    + rewrite char_code_ascii_of_N by auto using lor_bit_lt, char_code_lt.
      rewrite !land_bit, N.lor_spec, N.shiftl_1_l. f_equal.
      destruct (decide (c = b)) as [->|Hne].
      * rewrite N.pow2_bits_true. by rewrite !bool_decide_true by done.
      * rewrite N.pow2_bits_false by congruence. rewrite (bool_decide_false (c = b)) by done.
        by rewrite ?andb_false_r.
    + destruct (String.get j s); simpl; [|done]. by rewrite orb_false_r.
  - intros (s1 & Hs & ->)%fmap_Some. destruct j as [|j].
    + unfold get_bit. simpl. by rewrite orb_false_r.
    + specialize (IH i j s1 Hs). unfold get_bit in *. simpl. rewrite IH.
      destruct (String.get j s); simpl; [|done]. do 3 f_equal.
      by rewrite !(bool_decide_ext (Datatypes.S j = Datatypes.S i) (j = i)) by lia.
Qed.

Definition bit_set (d : CacheDigest) (i : N) : Prop :=
  get_bit (N.to_nat (i / 8)) (i mod 8) (bits d) = Some true.

(** Same parameters, and no bit lost. *)
Definition digest_le (d d' : CacheDigest) : Prop :=
  bit_count d' = bit_count d /\ hash_count d' = hash_count d /\ forall i, bit_set d i -> bit_set d' i.

#[export] Instance digest_le_preorder : PreOrder digest_le.
Proof.
  split; [by intros d|]. intros d1 d2 d3 (? & ? & H1) (? & ? & H2). split_and!; try congruence. auto.
Qed.

Section digest_lemmas.
Context {S : Sha256} {B : Base64}.

Lemma hash_index_lt key seed n : (0 < n)%N -> exists i, hash_index key seed n = Some i /\ (i < n)%N.
Proof.
  intros Hn. unfold hash_index. rewrite (proj2 (N.eqb_neq n 0)) by lia.
  eexists. split; [done|]. apply N.mod_lt. lia.
Qed.

Lemma insert_seeds_ok key seeds d :
  digest_ok d ->
  exists d', insert_seeds key seeds d = Some d' /\ digest_ok d' /\ digest_le d d' /\
    (forall seed i, seed ∈ seeds -> hash_index key seed (bit_count d) = Some i -> bit_set d' i).
Proof.
  revert d; induction seeds as [|seed seeds IH]; intros d Hok; simpl.
  { exists d. split_and!; [done|done|done|]. set_solver. }
  destruct (hash_index_lt key seed (bit_count d) (proj1 Hok)) as (i & Hi & Hlt). rewrite Hi. simpl.
  destruct Hok as [Hpos Hlen].
  pose proof (div_ceil_bound i _ Hpos Hlt) as Hb. rewrite <- Hlen in Hb.
  destruct (set_bit_Some (N.to_nat (i / 8)) (i mod 8) (bits d)) as (bits' & Hset & Hl').
  { unfold str_len in Hb. lia. }
  rewrite Hset. simpl. set (d1 := {| bits := bits' |}).
  assert (i mod 8 < 8)%N as Hm by (by apply N.mod_lt).
  assert (digest_le d d1) as Hle.
  { split_and!; [done|done|]. intros j Hj. unfold bit_set. simpl.
    rewrite (set_bit_get _ _ _ _ _ _ Hm Hset), Hj. done. }
  assert (bit_set d1 i) as Hset1.
  { unfold bit_set. simpl. rewrite (set_bit_get _ _ _ _ _ _ Hm Hset).
    destruct (get_bit_Some (N.to_nat (i / 8)) (i mod 8) (bits d)) as [b ->];
      [unfold str_len in Hb; lia|]. simpl.
    rewrite !bool_decide_true by done. by rewrite orb_true_r. }
  destruct (IH d1) as (d' & Hins & Hok' & Hle' & Hall).
  { split; [done|]. unfold str_len in *. simpl. by rewrite Hl'. }
  exists d'. split_and!; [exact Hins|done|by etransitivity|].
  intros sd j [->|Hsd]%elem_of_cons Hj.
  - rewrite Hi in Hj. simplify_eq. by apply Hle'.
  - by apply (Hall sd).
Qed.

Lemma check_seeds_all key seeds d :
  digest_ok d ->
  (forall seed i, seed ∈ seeds -> hash_index key seed (bit_count d) = Some i -> bit_set d i) ->
  check_seeds key seeds d = Some true.
Proof.
  intros Hok. induction seeds as [|seed seeds IH]; intros Hall; simpl; [done|].
  destruct (hash_index_lt key seed (bit_count d) (proj1 Hok)) as (i & Hi & _). rewrite Hi. simpl.
  rewrite (Hall seed i ltac:(set_solver) Hi). simpl. apply IH. intros sd j Hsd. apply Hall. set_solver.
Qed.

(** The key is in the filter: every bit of its hashes is set. *)
Definition holds_key (key : string) (d : CacheDigest) : Prop :=
  forall seed i, seed ∈ digest_seeds d -> hash_index key seed (bit_count d) = Some i -> bit_set d i.

Lemma holds_key_le key d d' : digest_le d d' -> holds_key key d -> holds_key key d'.
Proof.
  intros (Hb & Hh & Hle) Hk seed i. unfold digest_seeds. rewrite Hb, Hh. intros Hs Hi.
  by apply Hle, (Hk seed).
Qed.

Lemma digest_insert_ok key d :
  digest_ok d -> exists d', digest_insert key d = Some d' /\ digest_ok d' /\ digest_le d d' /\
    holds_key key d'.
Proof.
  intros Hok. destruct (insert_seeds_ok key (digest_seeds d) d Hok) as (d' & Hi & Hok' & Hle & Hall).
  exists d'. split_and!; [done..|]. intros seed i. destruct Hle as (Hb & Hh & _).
  unfold digest_seeds. rewrite Hb, Hh. by apply Hall.
Qed.

Lemma string_of_list_ascii_length l : String.length (String.string_of_list_ascii l) = length l.
Proof. induction l; simpl; auto. Qed.

Lemma CacheDigest_new_ok n h : (0 < n)%N -> digest_ok (CacheDigest_new n h).
Proof.
  intros Hn. split; [done|]. simpl. unfold str_len.
  rewrite string_of_list_ascii_length, length_replicate. by rewrite N2Nat.id.
Qed.

Definition digest_registry_ok (r : DigestRegistry) : Prop :=
  digest_ok (local_digest r) /\ bit_count (local_digest r) = dr_bit_count r /\
  hash_count (local_digest r) = dr_hash_count r.

Lemma insert_keys_ok keys r :
  digest_registry_ok r ->
  exists r', insert_keys keys r = Some r' /\ digest_registry_ok r' /\
    digest_le (local_digest r) (local_digest r') /\
    (forall k, k ∈ keys -> holds_key k (local_digest r')) /\
    dr_bit_count r' = dr_bit_count r /\ dr_hash_count r' = dr_hash_count r.
Proof.
  revert r; induction keys as [|k keys IH]; intros r (Hok & Hb & Hh); simpl.
  { exists r. split_and!; [done|done|done|set_solver|done|done]. }
  destruct (digest_insert_ok k (local_digest r) Hok) as (d & Hd & Hokd & (Hb1 & Hh1 & Hle) & Hk).
  unfold insert_cache_key. rewrite Hd. simpl.
  set (r1 := {| local_digest := d |}).
  destruct (IH r1) as (r' & Hr & Hok' & Hle' & Hall & Hb' & Hh').
  { split_and!; simpl; congruence. }
  exists r'. split_and!; [exact Hr|done| | |done|done].
  - etransitivity; [|exact Hle']. done.
  - intros k' [->|Hin]%elem_of_cons; [by eapply holds_key_le|by apply Hall].
Qed.

Lemma decode_encode_digest {BL : Base64Laws B} d :
  digest_ok d -> decode_base64 (encode_base64 d) (bit_count d) (hash_count d) = Some d.
Proof.
  intros [_ Hl]. unfold decode_base64, encode_base64. rewrite base64_inverse. simpl.
  unfold from_bytes. rewrite Hl, N.eqb_refl. by destruct d.
Qed.

(** A snapshot received from a peer reports every key the peer had inserted. *)
Lemma snapshot_received {BL : Base64Laws B} theirs ours peer now later k :
  digest_registry_ok theirs -> dr_bit_count ours = dr_bit_count theirs ->
  dr_hash_count ours = dr_hash_count theirs -> (later <= now + dr_remote_ttl ours)%N ->
  holds_key k (local_digest theirs) ->
  peer_might_have_url later peer k (update_remote now peer (local_snapshot_base64 theirs) ours) =
  Some (Some true).
Proof.
  intros (Hok & Hb' & Hh') Hb Hh Hl Hk. unfold update_remote, local_snapshot_base64.
  rewrite Hb, Hh, <- Hb', <- Hh', decode_encode_digest by done.
  unfold peer_might_have_url. simpl. rewrite lookup_insert_eq. simpl.
  rewrite (proj2 (N.ltb_ge _ _)) by (unfold saturating_sub; lia).
  unfold might_contain. by rewrite (check_seeds_all k).
Qed.

Lemma might_contain_total key d : digest_ok d -> is_Some (might_contain key d).
Proof.
  intros [Hpos Hlen]. unfold might_contain. induction (digest_seeds d) as [|seed seeds IH]; cbn [check_seeds]; [done|].
  destruct (hash_index_lt key seed (bit_count d) Hpos) as (i & -> & Hlt). cbn [mbind option_bind].
  pose proof (div_ceil_bound i _ Hpos Hlt) as Hb. rewrite <- Hlen in Hb.
  destruct (get_bit_Some (N.to_nat (i / 8)) (i mod 8) (bits d)) as [b ->]; [unfold str_len in Hb; lia|].
  cbn [mbind option_bind]. by destruct b.
Qed.

(** A registry all of whose filters are sound. *)
Definition digests_ok (r : DigestRegistry) : Prop :=
  digest_registry_ok r /\ forall peer e, remote_digests r !! peer = Some e -> digest_ok (rd_digest e).

Lemma insert_cache_key_ok key r :
  digests_ok r -> exists r', insert_cache_key key r = Some r' /\ digests_ok r'.
Proof.
  intros [(Hok & Hb & Hh) Hr]. destruct (digest_insert_ok key _ Hok) as (d & Hd & Hokd & (Hb1 & Hh1 & _) & _).
  unfold insert_cache_key. rewrite Hd. eexists. split; [done|].
  split; [split_and!; cbn; congruence|done].
Qed.

Lemma peer_might_have_url_total now peer key r :
  digests_ok r -> is_Some (peer_might_have_url now peer key r).
Proof.
  intros [_ Hr]. unfold peer_might_have_url. destruct (remote_digests r !! peer) as [e|] eqn:He; [|done].
  case_match; [done|]. by destruct (might_contain_total key (rd_digest e) (Hr peer e He)) as [b ->].
Qed.

End digest_lemmas.

(** ** Properties *)

(** The filter has no false negatives, and never panics: after any keys were
    inserted in a filter with at least one bit, every one of them is reported
    present, whatever was inserted before or after it. *)
Theorem digest_no_false_negative {S : Sha256} {B : Base64} (n h ttl : N) (keys : list string) :
  (0 < n)%N ->
  exists r, insert_keys keys (DigestRegistry_new n h ttl) = Some r /\
    forall k, k ∈ keys -> might_contain k (local_digest r) = Some true.
Proof.
  intros Hn. destruct (insert_keys_ok keys (DigestRegistry_new n h ttl)) as (r & Hr & (Hok & _) & _ & Hk & _).
  { split_and!; [by apply CacheDigest_new_ok|done|done]. }
  exists r. split; [done|]. intros k Hin. apply check_seeds_all; [done|]. by apply Hk.
Qed.

(** Digests survive the exchange: when a peer sends the snapshot of its
    filter and we store it, then until it ages out we never believe that the peer
    lacks a key it had inserted; a digest of another size is ignored. *)
Theorem remote_digest_sound {S : Sha256} {B : Base64} {BL : Base64Laws B} (n h ttl' : N)
    (keys : list string) (peer : string) (ours : DigestRegistry) (now later : N) :
  (0 < n)%N -> dr_bit_count ours = n -> dr_hash_count ours = h ->
  (later <= now + dr_remote_ttl ours)%N ->
  exists theirs, insert_keys keys (DigestRegistry_new n h ttl') = Some theirs /\
    forall k, k ∈ keys ->
      peer_might_have_url later peer k
        (update_remote now peer (local_snapshot_base64 theirs) ours) = Some (Some true).
Proof.
  intros Hn Hb Hh Hl.
  destruct (insert_keys_ok keys (DigestRegistry_new n h ttl')) as (r & Hr & (Hok & Hb' & Hh') & _ & Hk & Hb2 & Hh2).
  { split_and!; [by apply CacheDigest_new_ok|done|done]. }
  exists r. split; [done|]. intros k Hin. apply snapshot_received; [done|simpl in *; congruence..|done|].
  by apply Hk.
Qed.

(** ** Witnesses: a toy hash and an identity base64. *)

#[local] Instance toy_sha : Sha256 := {|
  sha256 s := str_take 32 (s +:+ "0123456789abcdef0123456789abcdef");
  hex_encode s := s;
|}.

#[local] Instance plain_base64 : Base64 := {|
  base64_encode s := s;
  base64_decode s := Some s;
|}.

#[local] Instance plain_base64_laws : Base64Laws plain_base64.
Proof. by split. Qed.

Lemma digest_no_false_negative_witness :
  exists r, insert_keys ["a"; "b"] (DigestRegistry_new 64 4 0) = Some r /\
    might_contain "a" (local_digest r) = Some true.
Proof.
  destruct (digest_no_false_negative 64 4 0 ["a"; "b"]) as (r & Hr & Hk); [lia|].
  exists r. split; [exact Hr|]. apply Hk. apply list_elem_of_here.
Defined.

Lemma remote_digest_sound_witness :
  exists theirs, insert_keys ["a"; "b"] (DigestRegistry_new 64 4 300) = Some theirs /\
    peer_might_have_url 200 "p" "b"
      (update_remote 5 "p" (local_snapshot_base64 theirs) (DigestRegistry_new 64 4 300)) =
      Some (Some true).
Proof.
  destruct (remote_digest_sound 64 4 300 ["a"; "b"] "p" (DigestRegistry_new 64 4 300) 5 200)
    as (theirs & Ht & Hk); [lia|reflexivity|reflexivity|simpl; lia|].
  exists theirs. split; [exact Ht|]. apply Hk. apply list_elem_of_further, list_elem_of_here.
Defined.
