(* ===== verification/PeerProtocols.v ===== *)
(** * Sibling query protocols (src/proxy/src/icp.rs, htcp.rs)

    The datagrams of ICP and HTCP, their servers, and their clients: a query is
    sent with a request number and the client waits for a reply from the same
    peer with that number.

    A socket address is its text.  What the network does during a query (an
    [Exchange]: the outcome of the send, then the receives that complete before
    the timeout) is an argument; a receive buffer holds 1024 bytes. *)

From Stdlib Require Import Ascii String NArith Lia.
From stdpp Require Import base option gmap sets strings list numbers.
From S2P Require Import Prelude Utf8 Bytes.

Abbreviation SocketAddr := string.

Definition recv_buffer : nat := 1024.

(** [str::trim_end_matches] of the NUL character. *)
Fixpoint trim_end_nul (s : string) : string :=
  match s with
  | EmptyString => EmptyString
  | String c s' =>
      match trim_end_nul s' with
      | EmptyString => if Ascii.eqb c Ascii.zero then EmptyString else String c EmptyString
      | t => String c t
      end
  end.

(** What a query returned: who answered, and how. *)
Record QueryResult (Op : Type) := {
  qr_peer : SocketAddr;
  qr_response : Op;
  qr_latency : N;
}.
Arguments qr_peer {Op}.
Arguments qr_response {Op}.
Arguments qr_latency {Op}.

(** The network during one query: why the send failed, if it did; the receives
    in order, each a datagram with its sender or a socket error; the time the
    reply took. *)
Record Exchange := {
  ex_send : option string;
  ex_inbox : list (result (string * SocketAddr) string);
  ex_latency : N;
}.

(** ** ICP *)

Definition ICP_VERSION : N := 2.

Inductive IcpOpcode := IcpInvalid | IcpQuery | IcpHit | IcpMiss | IcpError | IcpDenied.

#[export] Instance IcpOpcode_eq_dec : EqDecision IcpOpcode.
Proof. solve_decision. Defined.

Definition icp_opcode_u8 (o : IcpOpcode) : N :=
  match o with IcpInvalid => 0 | IcpQuery => 1 | IcpHit => 2 | IcpMiss => 3 | IcpError => 4 | IcpDenied => 22 end.

Definition icp_opcode_from (value : N) : IcpOpcode :=
  if (value =? 1)%N then IcpQuery else if (value =? 2)%N then IcpHit else if (value =? 3)%N then IcpMiss
  else if (value =? 4)%N then IcpError else if (value =? 22)%N then IcpDenied else IcpInvalid.

Record IcpMessage := {
  icp_opcode : IcpOpcode;
  icp_version : N;
  icp_request_number : N;
  icp_url : string;
  icp_requester : SocketAddr;
}.

Definition icp_query (number : N) (url : string) (requester : SocketAddr) : IcpMessage :=
  {| icp_opcode := IcpQuery; icp_version := ICP_VERSION; icp_request_number := number; icp_url := url;
     icp_requester := requester |}.

Definition icp_hit (number : N) (requester : SocketAddr) : IcpMessage :=
  {| icp_opcode := IcpHit; icp_version := ICP_VERSION; icp_request_number := number; icp_url := EmptyString;
     icp_requester := requester |}.

Definition icp_miss (number : N) (requester : SocketAddr) : IcpMessage :=
  {| icp_opcode := IcpMiss; icp_version := ICP_VERSION; icp_request_number := number; icp_url := EmptyString;
     icp_requester := requester |}.

Definition icp_encode (m : IcpMessage) : string :=
  put_u8 (icp_opcode_u8 (icp_opcode m)) +:+ put_u8 (icp_version m) +:+ put_u16 (str_len (icp_url m)) +:+
  put_u32 (icp_request_number m) +:+ put_u32 0 +:+ put_u32 0 +:+ put_u32 0 +:+
  (if str_is_empty (icp_url m) then EmptyString else icp_url m +:+ put_u8 0).

Definition icp_decode (data : string) (sender : SocketAddr) : result IcpMessage string :=
  if (str_len data <? 20)%N then Err "ICP message too short"
  else
    let '(op, data) := get_uint 1 data in
    let '(version, data) := get_uint 1 data in
    let '(url_len, data) := get_uint 2 data in
    let '(number, data) := get_uint 4 data in
    let '(_, data) := get_uint 4 data in
    let '(_, data) := get_uint 4 data in
    let '(_, data) := get_uint 4 data in
    let url :=
      if ((0 <? url_len) && (url_len <=? str_len data))%N then
        trim_end_nul (from_utf8_lossy (str_take (N.to_nat url_len) data))
      else EmptyString in
    Ok {| icp_opcode := icp_opcode_from op; icp_version := version; icp_request_number := number;
          icp_url := url; icp_requester := sender |}.

(** [IcpServer::handle_query]: the reply sent, if any. *)
Definition icp_handle_query (query_handler : string -> bool) (data : string) (sender : SocketAddr)
    : result (option string) string :=
  match icp_decode data sender with
  | Err e => Err e
  | Ok q =>
      if decide (icp_opcode q = IcpQuery) then
        Ok (Some (icp_encode (if query_handler (icp_url q) then icp_hit (icp_request_number q) sender
                          else icp_miss (icp_request_number q) sender)))
      else Ok None
  end.

(** One turn of [serve]: a datagram is cut at the buffer, and an error is logged. *)
Definition icp_serve (query_handler : string -> bool) (datagram : string) (sender : SocketAddr)
    : option string :=
  match icp_handle_query query_handler (str_take recv_buffer datagram) sender with
  | Ok reply => reply
  | Err _ => None
  end.

(** The client: its request counter. *)
Record IcpClient := {
  icp_request_counter : N;
  icp_local_addr : SocketAddr;
}.

Definition IcpClient_new (local_addr : SocketAddr) : IcpClient :=
  {| icp_request_counter := 1; icp_local_addr := local_addr |}.

(** [Clone]: a new counter that starts where the cloned one is. *)
Definition icp_clone (c : IcpClient) : IcpClient :=
  {| icp_request_counter := icp_request_counter c; icp_local_addr := icp_local_addr c |}.

(** The receive loop, over the datagrams (with senders) that arrive in time. *)
Fixpoint icp_await_reply (peer : SocketAddr) (number : N) (inbox : list (result (string * SocketAddr) string))
    : result IcpMessage string :=
  match inbox with
  | [] => Err "ICP query timeout"
  | Err e :: _ => Err e
  | Ok (data, addr) :: inbox' =>
      if decide (addr = peer) then
        match icp_decode (str_take recv_buffer data) addr with
        | Err e => Err e
        | Ok response =>
            if (icp_request_number response =? number)%N then Ok response
            else icp_await_reply peer number inbox'
        end
      else icp_await_reply peer number inbox'
  end.

(** The client after the query, the datagram sent, and the outcome. *)
Definition icp_query_peer (c : IcpClient) (peer : SocketAddr) (url : string)
    (net : Exchange)
    : IcpClient * string * result (QueryResult IcpOpcode) string :=
  let number := icp_request_counter c in
  let c' := {| icp_request_counter := wrap 32 (number + 1); icp_local_addr := icp_local_addr c |} in
  let sent := icp_encode (icp_query number url (icp_local_addr c)) in
  (c', sent,
   match ex_send net with
   | Some e => Err e
   | None =>
   match icp_await_reply peer number (ex_inbox net) with
   | Ok response =>
       Ok {| qr_peer := peer; qr_response := icp_opcode response; qr_latency := ex_latency net |}
   | Err e => Err e
   end
   end).

(** [query_peers]: one task per peer, each on its own clone; [net] is what
    each task sees. *)
Definition icp_query_peers (c : IcpClient) (peers : list SocketAddr) (url : string)
    (net : SocketAddr -> Exchange)
    : IcpClient * list (QueryResult IcpOpcode) :=
  (c, omap (fun peer => res_ok (icp_query_peer (icp_clone c) peer url (net peer)).2) peers).

Definition icp_find_hit (c : IcpClient) (peers : list SocketAddr) (url : string)
    (net : SocketAddr -> Exchange)
    : option SocketAddr :=
  qr_peer <$> List.find (fun r => bool_decide (qr_response r = IcpHit))
                (icp_query_peers c peers url net).2.

(** ** HTCP *)

Definition HTCP_MAGIC : string := "HTCP".
Definition HTCP_VERSION : N := 1.

Inductive HtcpOpcode := HtcpQuery | HtcpHit | HtcpMiss | HtcpError.

#[export] Instance HtcpOpcode_eq_dec : EqDecision HtcpOpcode.
Proof. solve_decision. Defined.

Definition htcp_opcode_u8 (o : HtcpOpcode) : N :=
  match o with HtcpQuery => 1 | HtcpHit => 2 | HtcpMiss => 3 | HtcpError => 4 end.

Definition htcp_opcode_from (value : N) : HtcpOpcode :=
  if (value =? 1)%N then HtcpQuery else if (value =? 2)%N then HtcpHit else if (value =? 3)%N then HtcpMiss
  else HtcpError.

Record HtcpMessage := {
  htcp_opcode : HtcpOpcode;
  htcp_version : N;
  htcp_request_number : N;
  htcp_url : string;
}.

Definition htcp_query (number : N) (url : string) : HtcpMessage :=
  {| htcp_opcode := HtcpQuery; htcp_version := HTCP_VERSION; htcp_request_number := number; htcp_url := url |}.

Definition htcp_hit (number : N) : HtcpMessage :=
  {| htcp_opcode := HtcpHit; htcp_version := HTCP_VERSION; htcp_request_number := number; htcp_url := EmptyString |}.

Definition htcp_miss (number : N) : HtcpMessage :=
  {| htcp_opcode := HtcpMiss; htcp_version := HTCP_VERSION; htcp_request_number := number; htcp_url := EmptyString |}.

Definition htcp_encode (m : HtcpMessage) : string :=
  HTCP_MAGIC +:+ put_u8 (htcp_version m) +:+ put_u8 (htcp_opcode_u8 (htcp_opcode m)) +:+
  put_u32 (htcp_request_number m) +:+ put_u16 (str_len (htcp_url m)) +:+
  (if str_is_empty (htcp_url m) then EmptyString else htcp_url m).

Definition htcp_decode (data : string) : result HtcpMessage string :=
  if (str_len data <? 12)%N then Err "HTCP message too short"
  else if negb (String.eqb (str_take 4 data) HTCP_MAGIC) then Err "invalid HTCP magic"
  else
    let cursor := str_drop 4 data in
    let '(version, cursor) := get_uint 1 cursor in
    let '(op, cursor) := get_uint 1 cursor in
    let '(number, cursor) := get_uint 4 cursor in
    let '(url_len, cursor) := get_uint 2 cursor in
    let url :=
      if ((0 <? url_len) && (url_len <=? str_len cursor))%N then
        from_utf8_lossy (str_take (N.to_nat url_len) cursor)
      else EmptyString in
    Ok {| htcp_opcode := htcp_opcode_from op; htcp_version := version; htcp_request_number := number;
          htcp_url := url |}.

Definition htcp_handle_query (query_handler : string -> bool) (data : string)
    : result (option string) string :=
  match htcp_decode data with
  | Err e => Err e
  | Ok q =>
      if decide (htcp_opcode q = HtcpQuery) then
        Ok (Some (htcp_encode (if query_handler (htcp_url q) then htcp_hit (htcp_request_number q)
                          else htcp_miss (htcp_request_number q))))
      else Ok None
  end.

Definition htcp_serve (query_handler : string -> bool) (datagram : string) : option string :=
  match htcp_handle_query query_handler (str_take recv_buffer datagram) with
  | Ok reply => reply
  | Err _ => None
  end.

Record HtcpClient := {
  htcp_request_counter : N;
}.

Definition HtcpClient_new : HtcpClient := {| htcp_request_counter := 1 |}.

Definition htcp_clone (c : HtcpClient) : HtcpClient := {| htcp_request_counter := htcp_request_counter c |}.

Fixpoint htcp_await_reply (peer : SocketAddr) (number : N) (inbox : list (result (string * SocketAddr) string))
    : result HtcpMessage string :=
  match inbox with
  | [] => Err "HTCP query timeout"
  | Err e :: _ => Err e
  | Ok (data, addr) :: inbox' =>
      if decide (addr = peer) then
        match htcp_decode (str_take recv_buffer data) with
        | Err e => Err e
        | Ok message =>
            if (htcp_request_number message =? number)%N then Ok message
            else htcp_await_reply peer number inbox'
        end
      else htcp_await_reply peer number inbox'
  end.

Definition htcp_query_peer (c : HtcpClient) (peer : SocketAddr) (url : string)
    (net : Exchange)
    : HtcpClient * string * result (QueryResult HtcpOpcode) string :=
  let number := htcp_request_counter c in
  let c' := {| htcp_request_counter := wrap 32 (number + 1) |} in
  let sent := htcp_encode (htcp_query number url) in
  (c', sent,
   match ex_send net with
   | Some e => Err e
   | None =>
   match htcp_await_reply peer number (ex_inbox net) with
   | Ok message =>
       Ok {| qr_peer := peer; qr_response := htcp_opcode message; qr_latency := ex_latency net |}
   | Err e => Err e
   end
   end).

Definition htcp_query_peers (c : HtcpClient) (peers : list SocketAddr) (url : string)
    (net : SocketAddr -> Exchange)
    : HtcpClient * list (QueryResult HtcpOpcode) :=
  (c, omap (fun peer => res_ok (htcp_query_peer (htcp_clone c) peer url (net peer)).2) peers).


(** ** The promise of a sibling protocol

    What the cache hierarchy relies on: a query datagram that a peer's server
    answers, and a client that recognises the answer. *)
Class SiblingProtocol := {
  sp_query : N -> string -> string;
  sp_serve : (string -> bool) -> string -> option string;
  sp_accepts : SocketAddr -> N -> list (result (string * SocketAddr) string) -> option bool;
  sp_admissible : string -> bool;
}.

(** A receive that a waiting task skips: another sender's datagram. *)
Definition foreign (peer : SocketAddr) (r : result (string * SocketAddr) string) : bool :=
  match r with Ok (_, addr) => bool_decide (addr ≠ peer) | Err _ => false end.

Class SiblingProtocolLaws (P : SiblingProtocol) := {
  sp_exchange peer number url handler noise later :
    (number <= u32_max)%N -> sp_admissible url = true -> forallb (foreign peer) noise = true ->
    exists reply,
      sp_serve handler (sp_query number url) = Some reply /\
      sp_accepts peer number (noise ++ Ok (reply, peer) :: later) = Some (handler url);
  sp_other_number peer number number' url handler reply later :
    (number' <= u32_max)%N -> number ≠ number' ->
    sp_serve handler (sp_query number' url) = Some reply ->
    sp_accepts peer number (Ok (reply, peer) :: later) = sp_accepts peer number later;
}.

(** ** Lemmas *)

Lemma icp_opcode_from_u8 o : icp_opcode_from (icp_opcode_u8 o mod 256) = o.
Proof. by destruct o. Qed.

Lemma htcp_opcode_from_u8 o : htcp_opcode_from (htcp_opcode_u8 o mod 256) = o.
Proof. by destruct o. Qed.

Lemma str_len_app a b : str_len (a +:+ b) = (str_len a + str_len b)%N.
Proof. unfold str_len. rewrite string_length_app. lia. Qed.

Lemma str_take_le n s : String.length s <= n -> str_take n s = s.
Proof.
  revert s; induction n as [|n IH]; intros [|c s] H; simpl in *; try done; [lia|].
  rewrite IH; [done|lia].
Qed.

Lemma str_is_empty_false s : str_is_empty s = false <-> (0 < str_len s)%N.
Proof. unfold str_len. destruct s; simpl; split; intros; try done; lia. Qed.

Lemma str_take_app_ge n a b :
  String.length a <= n -> str_take n (a +:+ b) = a +:+ str_take (n - String.length a) b.
Proof.
  revert a; induction n as [|n IH]; intros [|c a] H; simpl in *; try done; [lia|].
  rewrite IH; [done|lia].
Qed.

(** The url field: [l] is the length in the header, [rest] what follows it. *)
Definition url_field (l : N) (rest : string) : string :=
  if ((0 <? l) && (l <=? str_len rest))%N then from_utf8_lossy (str_take (N.to_nat l) rest)
  else EmptyString.

Definition icp_header (op version url_len number : N) : string :=
  put_u8 op +:+ put_u8 version +:+ put_u16 url_len +:+ put_u32 number +:+
  put_u32 0 +:+ put_u32 0 +:+ put_u32 0.

Lemma icp_decode_fields op version url_len number rest sender :
  icp_decode (icp_header op version url_len number +:+ rest) sender =
  Ok {| icp_opcode := icp_opcode_from (op mod 256); icp_version := (version mod 256)%N;
        icp_request_number := (number mod 4294967296)%N;
        icp_url := trim_end_nul (url_field (url_len mod 65536) rest); icp_requester := sender |}.
Proof.
  unfold icp_decode, icp_header.
  replace (_ <? 20)%N with false by (symmetry; apply N.ltb_ge; rewrite str_len_app;
    change (20 <= 20 + str_len rest)%N; lia).
  rewrite !string_app_assoc.
  rewrite !get_uint_app by reflexivity.
  rewrite !put_u8_value, put_u16_value, put_u32_value.
  unfold url_field. by destruct (_ && _)%N.
Qed.

Lemma icp_encode_header m :
  icp_encode m =
  icp_header (icp_opcode_u8 (icp_opcode m)) (icp_version m) (str_len (icp_url m)) (icp_request_number m)
  +:+ (if str_is_empty (icp_url m) then EmptyString else icp_url m +:+ put_u8 0).
Proof. unfold icp_encode, icp_header. by rewrite !string_app_assoc. Qed.

Lemma url_field_own url suffix :
  is_utf8 url -> (str_len url <= u16_max)%N ->
  url_field (str_len url mod 65536) (if str_is_empty url then EmptyString else url +:+ suffix) = url.
Proof.
  intros Hu Hl. unfold url_field. rewrite N.mod_small by (unfold u16_max in Hl; lia).
  destruct url as [|c url]; [done|]. set (s := String c url) in *.
  replace (str_is_empty s) with false by done.
  rewrite str_len_app. replace (_ && _)%N with true.
  - rewrite str_take_app; [done|]. unfold str_len. lia.
  - symmetry. apply andb_true_iff. split; [by apply N.ltb_lt|]. apply N.leb_le. lia.
Qed.

Definition htcp_header (version op number url_len : N) : string :=
  HTCP_MAGIC +:+ put_u8 version +:+ put_u8 op +:+ put_u32 number +:+ put_u16 url_len.

Lemma htcp_decode_fields version op number url_len rest :
  htcp_decode (htcp_header version op number url_len +:+ rest) =
  Ok {| htcp_opcode := htcp_opcode_from (op mod 256); htcp_version := (version mod 256)%N;
        htcp_request_number := (number mod 4294967296)%N;
        htcp_url := url_field (url_len mod 65536) rest |}.
Proof.
  unfold htcp_decode, htcp_header.
  replace (_ <? 12)%N with false by (symmetry; apply N.ltb_ge; rewrite str_len_app;
    change (12 <= 12 + str_len rest)%N; lia).
  rewrite !string_app_assoc.
  rewrite str_take_app, str_drop_app by reflexivity.
  rewrite String.eqb_refl. cbn [negb].
  rewrite !get_uint_app by reflexivity.
  by rewrite !put_u8_value, put_u16_value, put_u32_value.
Qed.

Lemma htcp_encode_header m :
  htcp_encode m =
  htcp_header (htcp_version m) (htcp_opcode_u8 (htcp_opcode m)) (htcp_request_number m) (str_len (htcp_url m))
  +:+ (if str_is_empty (htcp_url m) then EmptyString else htcp_url m +:+ EmptyString).
Proof. unfold htcp_encode, htcp_header. by rewrite !string_app_assoc, string_app_nil_r. Qed.

(** *** Well-formed messages *)

Definition icp_message_ok (m : IcpMessage) : Prop :=
  (icp_version m <= u8_max /\ icp_request_number m <= u32_max /\ str_len (icp_url m) <= u16_max)%N /\
  is_utf8 (icp_url m) /\ trim_end_nul (icp_url m) = icp_url m.

Definition htcp_message_ok (m : HtcpMessage) : Prop :=
  (htcp_version m <= u8_max /\ htcp_request_number m <= u32_max /\ str_len (htcp_url m) <= u16_max)%N /\
  is_utf8 (htcp_url m).

Lemma icp_decode_encode m : icp_message_ok m -> icp_decode (icp_encode m) (icp_requester m) = Ok m.
Proof.
  intros [(Hv & Hn & Hl) [Hu Ht]]. rewrite icp_encode_header, icp_decode_fields.
  rewrite icp_opcode_from_u8, url_field_own, Ht by done.
  unfold u8_max, u32_max in *. rewrite !N.mod_small by lia. by destruct m.
Qed.

Lemma htcp_decode_encode m : htcp_message_ok m -> htcp_decode (htcp_encode m) = Ok m.
Proof.
  intros [(Hv & Hn & Hl) Hu]. rewrite htcp_encode_header, htcp_decode_fields.
  rewrite htcp_opcode_from_u8, url_field_own by done.
  unfold u8_max, u32_max in *. rewrite !N.mod_small by lia. by destruct m.
Qed.

(** *** The server and the client *)

Definition icp_admissible (url : string) : bool :=
  (21 + str_len url <=? N.of_nat recv_buffer)%N && String.eqb (from_utf8_lossy url) url &&
  String.eqb (trim_end_nul url) url.

Definition htcp_admissible (url : string) : bool :=
  (12 + str_len url <=? N.of_nat recv_buffer)%N && String.eqb (from_utf8_lossy url) url.

Lemma icp_serve_query handler number url requester :
  (number <= u32_max)%N -> icp_admissible url = true ->
  icp_serve handler (icp_encode (icp_query number url requester)) requester =
  Some (icp_encode (if handler url then icp_hit number requester else icp_miss number requester)).
Proof.
  intros Hn Ha. unfold icp_admissible in Ha. bool_hyps. unfold icp_serve.
  assert (Hok : icp_message_ok (icp_query number url requester)).
  { unfold icp_message_ok, icp_query, is_utf8, ICP_VERSION, u16_max, u8_max, recv_buffer in *; simpl. repeat split; auto; lia. }
  rewrite str_take_le.
  - unfold icp_handle_query. apply icp_decode_encode in Hok. cbn [icp_query icp_requester] in Hok. rewrite Hok.
    by rewrite decide_True.
  - rewrite icp_encode_header, string_length_app. cbn [icp_query icp_url].
    change (20 + String.length (if str_is_empty url then EmptyString else url +:+ put_u8 0) <= recv_buffer).
    unfold str_len in *. destruct (str_is_empty url); rewrite ?string_length_app; simpl; unfold recv_buffer in *; lia.
Qed.

Lemma htcp_serve_query handler number url :
  (number <= u32_max)%N -> htcp_admissible url = true ->
  htcp_serve handler (htcp_encode (htcp_query number url)) =
  Some (htcp_encode (if handler url then htcp_hit number else htcp_miss number)).
Proof.
  intros Hn Ha. unfold htcp_admissible in Ha. bool_hyps. unfold htcp_serve.
  assert (Hok : htcp_message_ok (htcp_query number url)).
  { unfold htcp_message_ok, htcp_query, is_utf8, HTCP_VERSION, u16_max, u8_max, recv_buffer in *; simpl. repeat split; auto; lia. }
  rewrite str_take_le.
  - unfold htcp_handle_query. rewrite (htcp_decode_encode _ Hok).
    by rewrite decide_True.
  - rewrite htcp_encode_header, string_length_app. cbn [htcp_query htcp_url].
    rewrite string_app_nil_r.
    change (12 + String.length (if str_is_empty url then EmptyString else url) <= recv_buffer).
    unfold str_len in *. destruct (str_is_empty url); simpl; unfold recv_buffer in *; lia.
Qed.

(** Whatever a server answers carries the request number of the query, also
    when the query did not fit the buffer. *)
Lemma icp_serve_number handler number url requester reply :
  (number <= u32_max)%N ->
  icp_serve handler (icp_encode (icp_query number url requester)) requester = Some reply ->
  reply = icp_encode (icp_hit number requester) \/ reply = icp_encode (icp_miss number requester).
Proof.
  intros Hn. unfold icp_serve, icp_handle_query.
  rewrite icp_encode_header, str_take_app_ge by (vm_compute; lia).
  rewrite icp_decode_fields. cbn [icp_query icp_opcode icp_version icp_request_number icp_url icp_requester].
  rewrite icp_opcode_from_u8. rewrite decide_True by done.
  unfold u32_max in Hn. rewrite (N.mod_small number) by lia.
  destruct (handler _); intros [= <-]; auto.
Qed.

Lemma htcp_serve_number handler number url reply :
  (number <= u32_max)%N ->
  htcp_serve handler (htcp_encode (htcp_query number url)) = Some reply ->
  reply = htcp_encode (htcp_hit number) \/ reply = htcp_encode (htcp_miss number).
Proof.
  intros Hn. unfold htcp_serve, htcp_handle_query.
  rewrite htcp_encode_header, str_take_app_ge by (vm_compute; lia).
  rewrite htcp_decode_fields. cbn [htcp_query htcp_opcode htcp_version htcp_request_number htcp_url].
  rewrite htcp_opcode_from_u8. rewrite decide_True by done.
  unfold u32_max in Hn. rewrite (N.mod_small number) by lia.
  destruct (handler _); intros [= <-]; auto.
Qed.

Lemma icp_await_foreign peer number noise inbox :
  forallb (foreign peer) noise = true ->
  icp_await_reply peer number (noise ++ inbox) = icp_await_reply peer number inbox.
Proof.
  induction noise as [|[[data addr]|e] noise IH]; intros H; simpl in *; try done.
  bool_hyps. apply bool_decide_eq_true in H. rewrite decide_False by done. by apply IH.
Qed.

Lemma htcp_await_foreign peer number noise inbox :
  forallb (foreign peer) noise = true ->
  htcp_await_reply peer number (noise ++ inbox) = htcp_await_reply peer number inbox.
Proof.
  induction noise as [|[[data addr]|e] noise IH]; intros H; simpl in *; try done.
  bool_hyps. apply bool_decide_eq_true in H. rewrite decide_False by done. by apply IH.
Qed.

(** A reply of a server, taken from the socket. *)
Lemma icp_await_answer peer number number' requester (h : bool) inbox :
  (number' <= u32_max)%N ->
  icp_await_reply peer number
    (Ok (icp_encode (if h then icp_hit number' requester else icp_miss number' requester), peer) :: inbox) =
  if (number' =? number)%N then Ok (if h then icp_hit number' peer else icp_miss number' peer)
  else icp_await_reply peer number inbox.
Proof.
  intros Hn. unfold u32_max in Hn. cbn [icp_await_reply]. rewrite decide_True by done.
  destruct h; rewrite icp_encode_header, str_take_app_ge by (vm_compute; lia);
    rewrite icp_decode_fields;
    cbn [icp_hit icp_miss icp_opcode icp_version icp_request_number icp_url icp_requester];
    rewrite icp_opcode_from_u8, (N.mod_small number') by lia; reflexivity.
Qed.

Lemma htcp_await_answer peer number number' (h : bool) inbox :
  (number' <= u32_max)%N ->
  htcp_await_reply peer number
    (Ok (htcp_encode (if h then htcp_hit number' else htcp_miss number'), peer) :: inbox) =
  if (number' =? number)%N then Ok (if h then htcp_hit number' else htcp_miss number')
  else htcp_await_reply peer number inbox.
Proof.
  intros Hn. unfold u32_max in Hn. cbn [htcp_await_reply]. rewrite decide_True by done.
  destruct h; rewrite htcp_encode_header, str_take_app_ge by (vm_compute; lia);
    rewrite htcp_decode_fields;
    cbn [htcp_hit htcp_miss htcp_opcode htcp_version htcp_request_number htcp_url];
    rewrite htcp_opcode_from_u8, (N.mod_small number') by lia; reflexivity.
Qed.

(** *** Both protocols keep the promise *)

#[export] Instance icp_protocol (local : SocketAddr) : SiblingProtocol := {
  sp_query number url := icp_encode (icp_query number url local);
  sp_serve handler datagram := icp_serve handler datagram local;
  sp_accepts peer number inbox :=
    (fun m => bool_decide (icp_opcode m = IcpHit)) <$> res_ok (icp_await_reply peer number inbox);
  sp_admissible := icp_admissible;
}.

#[export] Instance htcp_protocol : SiblingProtocol := {
  sp_query number url := htcp_encode (htcp_query number url);
  sp_serve := htcp_serve;
  sp_accepts peer number inbox :=
    (fun m => bool_decide (htcp_opcode m = HtcpHit)) <$> res_ok (htcp_await_reply peer number inbox);
  sp_admissible := htcp_admissible;
}.

#[export] Instance icp_protocol_laws local : SiblingProtocolLaws (icp_protocol local).
Proof.
  split; cbn [sp_query sp_serve sp_accepts sp_admissible icp_protocol].
  - intros peer number url handler noise later Hn Ha Hnoise. eexists.
    split; [by apply icp_serve_query|].
    rewrite icp_await_foreign, icp_await_answer, N.eqb_refl by done. by destruct (handler url).
  - intros peer number number' url handler reply later Hn Hne Hs.
    apply icp_serve_number in Hs as [-> | ->]; [| |done].
    + rewrite (icp_await_answer _ _ _ _ true) by done. by replace (number' =? number)%N with false
        by (symmetry; apply N.eqb_neq; congruence).
    + rewrite (icp_await_answer _ _ _ _ false) by done. by replace (number' =? number)%N with false
        by (symmetry; apply N.eqb_neq; congruence).
Qed.

#[export] Instance htcp_protocol_laws : SiblingProtocolLaws htcp_protocol.
Proof.
  split; cbn [sp_query sp_serve sp_accepts sp_admissible htcp_protocol].
  - intros peer number url handler noise later Hn Ha Hnoise. eexists.
    split; [by apply htcp_serve_query|].
    rewrite htcp_await_foreign, htcp_await_answer, N.eqb_refl by done. by destruct (handler url).
  - intros peer number number' url handler reply later Hn Hne Hs.
    apply htcp_serve_number in Hs as [-> | ->]; [| |done].
    + rewrite (htcp_await_answer _ _ _ true) by done. by replace (number' =? number)%N with false
        by (symmetry; apply N.eqb_neq; congruence).
    + rewrite (htcp_await_answer _ _ _ false) by done. by replace (number' =? number)%N with false
        by (symmetry; apply N.eqb_neq; congruence).
Qed.

(** ** Properties *)

(** An ICP and an HTCP message whose numbers fit their fields and whose url
    is text (not ending in NUL, for ICP) is read back from its datagram. *)
Theorem sibling_datagram_roundtrip :
  (forall m, icp_message_ok m -> icp_decode (icp_encode m) (icp_requester m) = Ok m) /\
  (forall m, htcp_message_ok m -> htcp_decode (htcp_encode m) = Ok m).
Proof. split; [apply icp_decode_encode|apply htcp_decode_encode]. Qed.

(** An ICP query for a url that fits the buffers reports what the peer's
    cache says of that url, whatever other senders' datagrams come first. *)
Theorem icp_query_reports_cache c peer url handler net noise later reply
    (Hcounter : (icp_request_counter c <= u32_max)%N)
    (Hurl : icp_admissible url = true)
    (Hnoise : forallb (foreign peer) noise = true)
    (Hserve : icp_serve handler (icp_query_peer c peer url net).1.2 (icp_local_addr c) = Some reply)
    (Hsend : ex_send net = None)
    (Hinbox : ex_inbox net = noise ++ Ok (reply, peer) :: later) :
  (icp_query_peer c peer url net).2 =
  Ok {| qr_peer := peer; qr_response := if handler url then IcpHit else IcpMiss;
        qr_latency := ex_latency net |}.
Proof.
  cbn [icp_query_peer fst snd] in *. rewrite icp_serve_query in Hserve by done.
  injection Hserve as <-. rewrite Hsend, Hinbox, icp_await_foreign, icp_await_answer, N.eqb_refl by done.
  by destruct (handler url).
Qed.

Definition sample_client : IcpClient := IcpClient_new "10.0.0.1:40000".
Definition sample_handler (u : string) : bool := String.eqb u "http://a/".
Definition sample_net (url : string) : Exchange :=
  {| ex_send := None;
     ex_inbox := [Ok ("?"%string, "10.0.0.9:3130"%string);
                  Ok (default EmptyString
                        (icp_serve sample_handler (icp_encode (icp_query 1 url "10.0.0.1:40000"))
                           "10.0.0.1:40000"), "10.0.0.2:3130"%string)];
     ex_latency := 7 |}.

Lemma icp_query_reports_cache_witness :
  (icp_query_peer sample_client "10.0.0.2:3130" "http://a/" (sample_net "http://a/")).2 =
  Ok {| qr_peer := "10.0.0.2:3130"; qr_response := IcpHit; qr_latency := 7 |}.
Proof.
  apply (icp_query_reports_cache sample_client "10.0.0.2:3130" "http://a/" sample_handler
           (sample_net "http://a/") [Ok ("?"%string, "10.0.0.9:3130"%string)] []
           (default EmptyString
              (icp_serve sample_handler (icp_encode (icp_query 1 "http://a/" "10.0.0.1:40000"))
                 "10.0.0.1:40000"))).
  - vm_compute. discriminate.
  - reflexivity.
  - reflexivity.
  - vm_compute. reflexivity.
  - reflexivity.
  - reflexivity.
Defined.

(** [query_peers] numbers every query from a copy of the client's counter, so
    the client asks every time under the same number: a late reply to one query
    is taken as the answer to the next one, for another url. *)
Theorem icp_late_reply_answers_next_query c peer url1 url2 handler net1 net2 reply later
    (Hcounter : (icp_request_counter c <= u32_max)%N)
    (Hurl : icp_admissible url1 = true)
    (Hserve : icp_serve handler (icp_query_peer (icp_clone c) peer url1 (net1 peer)).1.2
                (icp_local_addr c) = Some reply)
    (Hsend : ex_send (net2 peer) = None)
    (Hinbox : ex_inbox (net2 peer) = Ok (reply, peer) :: later) :
  icp_find_hit (icp_query_peers c [peer] url1 net1).1 [peer] url2 net2 =
  if handler url1 then Some peer else None.
Proof.
  cbn [icp_query_peer icp_query_peers icp_clone fst snd icp_request_counter icp_local_addr] in *.
  rewrite icp_serve_query in Hserve by done. injection Hserve as <-.
  unfold icp_find_hit. cbn [icp_query_peers fst snd omap list_omap].
  cbn [icp_query_peer icp_clone fst snd icp_request_counter].
  rewrite Hsend, Hinbox, icp_await_answer, N.eqb_refl by done.
  by destruct (handler url1).
Qed.

Lemma icp_late_reply_answers_next_query_witness :
  icp_find_hit (icp_query_peers sample_client ["10.0.0.2:3130"%string] "http://a/"
      (fun _ => {| ex_send := None; ex_inbox := []; ex_latency := 0 |})).1
    ["10.0.0.2:3130"%string] "http://never-cached/"
    (fun _ => {| ex_send := None; ex_inbox := [Ok (default EmptyString
       (icp_serve sample_handler (icp_encode (icp_query 1 "http://a/" "10.0.0.1:40000"))
                 "10.0.0.1:40000"), "10.0.0.2:3130"%string)]; ex_latency := 0 |}) =
  Some "10.0.0.2:3130"%string.
Proof.
  apply (icp_late_reply_answers_next_query sample_client "10.0.0.2:3130" "http://a/"
           "http://never-cached/" sample_handler) with (later := []) (reply := (default EmptyString
              (icp_serve sample_handler (icp_encode (icp_query 1 "http://a/" "10.0.0.1:40000"))
                 "10.0.0.1:40000"))).
  - vm_compute. discriminate.
  - reflexivity.
  - vm_compute. reflexivity.
  - reflexivity.
  - reflexivity.
Defined.
