(* ===== verification/Peers.v ===== *)
(** * Cache peers and their selection (src/proxy/src/peers.rs, selection.rs)

    The registry maps peer ids to shared peers ([Arc<CachePeer>]); a request that
    holds a peer keeps it after the registry drops or replaces it.  The shared
    peers are therefore cells of a heap, and the registry maps ids to cells.

    The order in which a [HashMap] lists its entries, the random draw of the
    weighted strategy and std's [DefaultHasher] (whose algorithm is unspecified)
    are parameters. *)

From Stdlib Require Import Ascii String NArith ZArith Lia.
From Stdlib Require Import Floats.SpecFloat.
From stdpp Require Import base option gmap sets strings pretty numbers list.
From S2P Require Import Prelude Float64.

Inductive PeerType := Parent | Sibling.

#[export] Instance PeerType_eq_dec : EqDecision PeerType.
Proof. solve_decision. Defined.

Definition peer_type_display (t : PeerType) : string :=
  match t with Parent => "parent" | Sibling => "sibling" end.

(** ** Statistics *)

Record PeerStats := {
  st_requests : N;
  st_hits : N;
  st_misses : N;
  st_errors : N;
  st_bytes_received : N;
  st_last_success : option N;
  st_last_failure : option N;
}.

Definition PeerStats_new : PeerStats :=
  {| st_requests := 0; st_hits := 0; st_misses := 0; st_errors := 0; st_bytes_received := 0;
     st_last_success := None; st_last_failure := None |}.

Definition record_request (s : PeerStats) : PeerStats :=
  {| st_requests := wrap 64 (st_requests s + 1); st_hits := st_hits s; st_misses := st_misses s;
     st_errors := st_errors s; st_bytes_received := st_bytes_received s;
     st_last_success := st_last_success s; st_last_failure := st_last_failure s |}.

Definition record_hit (now bytes : N) (s : PeerStats) : PeerStats :=
  {| st_requests := st_requests s; st_hits := wrap 64 (st_hits s + 1); st_misses := st_misses s;
     st_errors := st_errors s; st_bytes_received := wrap 64 (st_bytes_received s + bytes);
     st_last_success := Some now; st_last_failure := st_last_failure s |}.

Definition record_miss (now : N) (s : PeerStats) : PeerStats :=
  {| st_requests := st_requests s; st_hits := st_hits s; st_misses := wrap 64 (st_misses s + 1);
     st_errors := st_errors s; st_bytes_received := st_bytes_received s;
     st_last_success := Some now; st_last_failure := st_last_failure s |}.

Definition record_error (now : N) (s : PeerStats) : PeerStats :=
  {| st_requests := st_requests s; st_hits := st_hits s; st_misses := st_misses s;
     st_errors := wrap 64 (st_errors s + 1); st_bytes_received := st_bytes_received s;
     st_last_success := st_last_success s; st_last_failure := Some now |}.

Definition f64_zero : f64 := S754_zero false.
Definition feq (x y : f64) : bool := SFeqb x y.

Definition hit_rate (s : PeerStats) : f64 :=
  let total := f64_of_N (wrap 64 (st_hits s + st_misses s)) in
  if feq total f64_zero then f64_zero else fdiv (f64_of_N (st_hits s)) total.

Definition error_rate (s : PeerStats) : f64 :=
  let total := f64_of_N (st_requests s) in
  if feq total f64_zero then f64_zero else fdiv (f64_of_N (st_errors s)) total.

(** ** Configuration *)

Record PeerConfig := {
  pc_host : string;
  pc_port : N;
  pc_peer_type : PeerType;
  pc_weight : f64;
  pc_icp_port : option N;
  pc_max_connections : N;
}.

Inductive PeerConfigError := InvalidFormat | InvalidPort | InvalidWeight | InvalidIcpPort.

Definition peer_parse_from_string (s : string) (t : PeerType) : result PeerConfig PeerConfigError :=
  match split_on ":" s with
  | host :: port :: rest =>
      match parse_u16 port with
      | None => Err InvalidPort
      | Some port =>
          let weight :=
            match rest with
            | w :: _ => if str_is_empty w then Some (f64_of_N 1) else parse_f64 w
            | [] => Some (f64_of_N 1)
            end in
          match weight with
          | None => Err InvalidWeight
          | Some weight =>
              let icp_port :=
                match rest with
                | _ :: p :: _ => if str_is_empty p then Some None else Some <$> parse_u16 p
                | _ => Some None
                end in
              match icp_port with
              | None => Err InvalidIcpPort
              | Some icp_port =>
                  Ok {| pc_host := host; pc_port := port; pc_peer_type := t; pc_weight := weight;
                        pc_icp_port := icp_port; pc_max_connections := 100 |}
              end
          end
      end
  | _ => Err InvalidFormat
  end.

(** ** A peer *)

Record CachePeer := {
  cp_id : string;
  cp_config : PeerConfig;
  cp_healthy : bool;
  cp_rtt_ms : N;
  cp_stats : PeerStats;
  cp_created_at : N;
}.

Definition peer_id (config : PeerConfig) : string :=
  peer_type_display (pc_peer_type config) +:+ ":" +:+ pc_host config +:+ ":" +:+ pretty (pc_port config).

Definition CachePeer_new (now : N) (config : PeerConfig) : CachePeer :=
  {| cp_id := peer_id config; cp_config := config; cp_healthy := true; cp_rtt_ms := 0;
     cp_stats := PeerStats_new; cp_created_at := now |}.

Definition set_healthy (healthy : bool) (p : CachePeer) : CachePeer :=
  {| cp_id := cp_id p; cp_config := cp_config p; cp_healthy := healthy; cp_rtt_ms := cp_rtt_ms p;
     cp_stats := cp_stats p; cp_created_at := cp_created_at p |}.

Definition with_stats (f : PeerStats -> PeerStats) (p : CachePeer) : CachePeer :=
  {| cp_id := cp_id p; cp_config := cp_config p; cp_healthy := cp_healthy p; cp_rtt_ms := cp_rtt_ms p;
     cp_stats := f (cp_stats p); cp_created_at := cp_created_at p |}.

(** [update_rtt]: the duration in nanoseconds, kept in milliseconds. *)
Definition update_rtt (rtt : N) (p : CachePeer) : CachePeer :=
  {| cp_id := cp_id p; cp_config := cp_config p; cp_healthy := cp_healthy p;
     cp_rtt_ms := wrap 64 (rtt / 1000000); cp_stats := cp_stats p; cp_created_at := cp_created_at p |}.

Definition score (p : CachePeer) : f64 :=
  if negb (cp_healthy p) then f64_zero
  else
    let base_score := pc_weight (cp_config p) in
    let rtt_factor :=
      fdiv (f64_of_N 1) (fadd (f64_of_N 1) (fdiv (f64_of_N (cp_rtt_ms p)) (f64_of_N 100))) in
    fmul (fmul base_score (fsub (f64_of_N 1) (error_rate (cp_stats p)))) rtt_factor.

Definition peer_address (p : CachePeer) : string :=
  pc_host (cp_config p) +:+ ":" +:+ pretty (pc_port (cp_config p)).

(** [PeerRegistry::health_check] on one peer. *)
Definition check_health (p : CachePeer) : CachePeer :=
  let rate := error_rate (cp_stats p) in
  if flt (fdiv (f64_of_N 1) (f64_of_N 2)) rate then set_healthy false p
  else if flt rate (f64_of_decimal false 1 (-1)) && negb (cp_healthy p) then set_healthy true p
  else p.

(** ** The registry *)

(** A cell of the heap of shared peers. *)
Abbreviation cell := nat.

Record PeerRegistry := {
  pr_heap : list CachePeer;
  pr_peers : gmap string cell;
  pr_static_ids : gset string;
}.

Definition PeerRegistry_new : PeerRegistry :=
  {| pr_heap := []; pr_peers := ∅; pr_static_ids := ∅ |}.

(** [Arc::new]. *)
Definition alloc (p : CachePeer) (r : PeerRegistry) : cell * list CachePeer :=
  (length (pr_heap r), pr_heap r ++ [p]).

(** A method of a shared peer that takes [&self]. *)
Definition on_peer (a : cell) (f : CachePeer -> CachePeer) (r : PeerRegistry) : PeerRegistry :=
  {| pr_heap := alter f a (pr_heap r); pr_peers := pr_peers r; pr_static_ids := pr_static_ids r |}.

Definition add_peer (now : N) (config : PeerConfig) (r : PeerRegistry) : PeerRegistry * cell :=
  let '(a, heap) := alloc (CachePeer_new now config) r in
  let id := peer_id config in
  ({| pr_heap := heap; pr_peers := <[id := a]> (pr_peers r); pr_static_ids := {[id]} ∪ pr_static_ids r |}, a).

(** [None] is the failed assertion. *)
Definition upsert_sibling (now : N) (config : PeerConfig) (r : PeerRegistry)
    : option (PeerRegistry * cell) :=
  if decide (pc_peer_type config = Sibling) then
    let '(a, heap) := alloc (CachePeer_new now config) r in
    let id := peer_id config in
    match pr_peers r !! id with
    | Some b => Some (r, b)
    | None => Some ({| pr_heap := heap; pr_peers := <[id := a]> (pr_peers r);
                       pr_static_ids := pr_static_ids r |}, a)
    end
  else None.

Definition remove_peer (id : string) (r : PeerRegistry) : PeerRegistry * bool :=
  ({| pr_heap := pr_heap r; pr_peers := delete id (pr_peers r);
      pr_static_ids := pr_static_ids r ∖ {[id]} |},
   bool_decide (is_Some (pr_peers r !! id))).

Definition is_static (id : string) (r : PeerRegistry) : bool := bool_decide (id ∈ pr_static_ids r).

Record ReplaceStaticStats := {
  rs_added : N;
  rs_removed : N;
  rs_preserved_discovery : N;
}.

Definition replace_static_peers (now : N) (configs : list PeerConfig) (r : PeerRegistry)
    : PeerRegistry * ReplaceStaticStats :=
  let preserved := (N.of_nat (size (pr_peers r)) - N.of_nat (size (pr_static_ids r)))%N in
  let removed := N.of_nat (size (pr_static_ids r)) in
  let drained :=
    {| pr_heap := pr_heap r;
       pr_peers := set_fold (fun id m => delete id m) (pr_peers r) (pr_static_ids r);
       pr_static_ids := ∅ |} in
  (foldl (fun r config => (add_peer now config r).1) drained configs,
   {| rs_added := N.of_nat (length configs); rs_removed := removed;
      rs_preserved_discovery := preserved |}).

Definition get_peer (id : string) (r : PeerRegistry) : option cell := pr_peers r !! id.

(** Iteration over a [HashMap]. *)
Class HashOrder := listing : gmap string cell -> list (string * cell).
Class HashOrderLaws `{!HashOrder} := listing_perm m : listing m ≡ₚ map_to_list m.

(** A shared peer together with its present state. *)
Abbreviation peer_ref := (cell * CachePeer)%type.

Section Registry.
Context `{!HashOrder}.

Definition all_peers (r : PeerRegistry) : list peer_ref :=
  omap (fun '(_, a) => (a,.) <$> pr_heap r !! a) (listing (pr_peers r)).

Definition healthy_peers (r : PeerRegistry) : list peer_ref :=
  filter (fun p => cp_healthy p.2 = true) (all_peers r).

Definition healthy_peers_by_type (t : PeerType) (r : PeerRegistry) : list peer_ref :=
  filter (fun p => pc_peer_type (cp_config p.2) = t) (healthy_peers r).

Definition parent_caches (r : PeerRegistry) : list peer_ref := healthy_peers_by_type Parent r.
Definition sibling_caches (r : PeerRegistry) : list peer_ref := healthy_peers_by_type Sibling r.

Definition health_check (r : PeerRegistry) : PeerRegistry :=
  foldl (fun r p => on_peer p.1 check_health r) r (all_peers r).

End Registry.

(** ** Selection strategies *)

Class DefaultHasher := hash_url : string -> N.

Inductive SelectionStrategy :=
  | RoundRobinStrategy (counter : N)
  | WeightedStrategy
  | ClosestStrategy
  | HashStrategy.

Definition total_score (peers : list peer_ref) : f64 :=
  foldl (fun acc p => fadd acc (score p.2)) (S754_zero true) peers.

Fixpoint weighted_walk (draw : f64) (peers : list peer_ref) : option peer_ref :=
  match peers with
  | [] => None
  | p :: peers' =>
      if fle draw (score p.2) then Some p else weighted_walk (fsub draw (score p.2)) peers'
  end.

(** [random] is the draw of [rand::random::<f64>()]. *)
Definition select_weighted (random : f64) (peers : list peer_ref) : option peer_ref :=
  match peers with
  | [] => None
  | _ =>
      let total := total_score peers in
      if feq total f64_zero then None
      else
        match weighted_walk (fmul random total) peers with
        | Some p => Some p
        | None => last peers
        end
  end.

Definition select_closest (peers : list peer_ref) : option peer_ref :=
  min_by (fun p => cp_rtt_ms p.2) (filter (fun p => cp_healthy p.2 = true) peers).

Definition select_index (i : N) (peers : list peer_ref) : option peer_ref :=
  peers !! N.to_nat (i mod N.of_nat (length peers)).

(** [SelectionStrategy::select]: the strategy afterwards and the peer chosen. *)
Definition select `{!DefaultHasher} (s : SelectionStrategy) (random : f64) (peers : list peer_ref)
    (url : string) : SelectionStrategy * option peer_ref :=
  match s with
  | RoundRobinStrategy counter =>
      match peers with
      | [] => (s, None)
      | _ => (RoundRobinStrategy (wrap 64 (counter + 1)), select_index counter peers)
      end
  | WeightedStrategy => (s, select_weighted random peers)
  | ClosestStrategy => (s, select_closest peers)
  | HashStrategy =>
      match peers with
      | [] => (s, None)
      | _ => (s, select_index (hash_url url) peers)
      end
  end.

Definition parse_strategy (name : string) : SelectionStrategy :=
  let n := to_ascii_lowercase name in
  if String.eqb n "round-robin" || String.eqb n "roundrobin" || String.eqb n "rr" then RoundRobinStrategy 0
  else if String.eqb n "weighted" || String.eqb n "weight" || String.eqb n "w" then WeightedStrategy
  else if String.eqb n "closest" || String.eqb n "rtt" || String.eqb n "latency" then ClosestStrategy
  else if String.eqb n "hash" || String.eqb n "consistent" || String.eqb n "ch" then HashStrategy
  else WeightedStrategy.

(** ** Well-formed registries and their histories *)

Definition peer_ok (id : string) (p : CachePeer) : Prop :=
  cp_id p = id /\ peer_id (cp_config p) = id.

(** Static ids are registered; every id leads to a live peer of that id; what is
    not static was discovered, and only siblings are. *)
Record registry_ok (r : PeerRegistry) : Prop := {
  ro_static : pr_static_ids r ⊆ dom (pr_peers r);
  ro_peers id a : pr_peers r !! id = Some a -> exists p, pr_heap r !! a = Some p /\ peer_ok id p;
  ro_discovered id a p :
    pr_peers r !! id = Some a -> id ∉ pr_static_ids r -> pr_heap r !! a = Some p ->
    pc_peer_type (cp_config p) = Sibling;
}.

(** What the holder of a peer can do to it. *)
Inductive peer_update : (CachePeer -> CachePeer) -> Prop :=
  | pu_request : peer_update (with_stats record_request)
  | pu_hit now bytes : peer_update (with_stats (record_hit now bytes))
  | pu_miss now : peer_update (with_stats (record_miss now))
  | pu_error now : peer_update (with_stats (record_error now))
  | pu_rtt rtt : peer_update (update_rtt rtt)
  | pu_healthy b : peer_update (set_healthy b)
  | pu_check : peer_update check_health.

Inductive registry_reachable `{!HashOrder} : PeerRegistry -> Prop :=
  | rr_new : registry_reachable PeerRegistry_new
  | rr_add r now config :
      registry_reachable r -> registry_reachable (add_peer now config r).1
  | rr_upsert r now config r' a :
      registry_reachable r -> upsert_sibling now config r = Some (r', a) -> registry_reachable r'
  | rr_remove r id : registry_reachable r -> registry_reachable (remove_peer id r).1
  | rr_replace r now configs :
      registry_reachable r -> registry_reachable (replace_static_peers now configs r).1
  | rr_health r : registry_reachable r -> registry_reachable (health_check r)
  | rr_update r a f : registry_reachable r -> peer_update f -> registry_reachable (on_peer a f r).

(** The peer an id leads to. *)
Definition peer_at (r : PeerRegistry) (id : string) : option CachePeer :=
  pr_peers r !! id ≫= fun a => pr_heap r !! a.

(** The configuration a list assigns to an id: the last one counts. *)
Definition config_of (id : string) (configs : list PeerConfig) : option PeerConfig :=
  last (filter (fun c => peer_id c = id) configs).

(** ** Lemmas *)

Lemma peer_update_identity f p :
  peer_update f -> cp_id (f p) = cp_id p /\ cp_config (f p) = cp_config p.
Proof. intros []; simpl; try done. unfold check_health. by repeat case_match. Qed.

Lemma on_peer_ok a f r : peer_update f -> registry_ok r -> registry_ok (on_peer a f r).
Proof.
  intros Hf [Hs Hp Hd]. split; simpl.
  - done.
  - intros id b Hb. destruct (Hp id b Hb) as (p & Hh & Hok).
    destruct (decide (a = b)) as [->|Hne].
    + exists (f p). rewrite list_lookup_alter_eq, Hh. split; [done|].
      destruct (peer_update_identity f p Hf) as [Hi Hc]. unfold peer_ok in *. by rewrite Hi, Hc.
    + exists p. by rewrite list_lookup_alter_ne.
  - intros id b q Hb Hn Hq. destruct (decide (a = b)) as [->|Hne].
    + rewrite list_lookup_alter_eq in Hq. apply fmap_Some in Hq as (p & Hh & ->).
      destruct (peer_update_identity f p Hf) as [_ ->]. eauto.
    + rewrite list_lookup_alter_ne in Hq by done. eauto.
Qed.

Lemma peer_ok_new now config : peer_ok (peer_id config) (CachePeer_new now config).
Proof. done. Qed.

Lemma registered_lt r id a : registry_ok r -> pr_peers r !! id = Some a -> a < length (pr_heap r).
Proof. intros Hr Ha. destruct (ro_peers r Hr id a Ha) as (p & Hp & _). by eapply lookup_lt_Some. Qed.

Lemma add_peer_ok now config r : registry_ok r -> registry_ok (add_peer now config r).1.
Proof.
  intros Hr. pose proof Hr as [Hs Hp Hd]. split; simpl.
  - set_solver.
  - intros id a. rewrite lookup_insert_Some. intros [[<- <-]|[Hne Ha]].
    + exists (CachePeer_new now config). split; [by rewrite list_lookup_middle|apply peer_ok_new].
    + destruct (Hp id a Ha) as (p & Hh & Hok). exists p. by erewrite lookup_app_l_Some.
  - intros id a p. rewrite lookup_insert_Some. intros [[<- <-]|[Hne Ha]] Hn Hh; [set_solver|].
    rewrite lookup_app_l in Hh by (by eapply registered_lt). apply (Hd id a p); [done|set_solver|done].
Qed.

Lemma upsert_sibling_ok now config r r' a :
  registry_ok r -> upsert_sibling now config r = Some (r', a) -> registry_ok r'.
Proof.
  intros Hr. unfold upsert_sibling. case_decide as Hty; [|done]. simpl.
  destruct (pr_peers r !! peer_id config) as [b|] eqn:Hb; intros [= <- <-]; [done|].
  pose proof Hr as [Hs Hp Hd]. split; simpl.
  - set_solver.
  - intros id c. rewrite lookup_insert_Some. intros [[<- <-]|[Hne Ha]].
    + exists (CachePeer_new now config). split; [by rewrite list_lookup_middle|apply peer_ok_new].
    + destruct (Hp id c Ha) as (p & Hh & Hok). exists p. by erewrite lookup_app_l_Some.
  - intros id c p. rewrite lookup_insert_Some. intros [[<- <-]|[Hne Ha]] Hn Hh.
    + rewrite list_lookup_middle in Hh by done. by injection Hh as <-.
    + rewrite lookup_app_l in Hh by (by eapply registered_lt). eauto.
Qed.

Lemma remove_peer_ok id r : registry_ok r -> registry_ok (remove_peer id r).1.
Proof.
  intros [Hs Hp Hd]. split; simpl.
  - set_solver.
  - intros k a [Hne Ha]%lookup_delete_Some. eauto.
  - intros k a p [Hne Ha]%lookup_delete_Some Hn Hh. apply (Hd k a p); [done|set_solver|done].
Qed.

Lemma lookup_drain (m : gmap string cell) (X : gset string) id :
  set_fold (fun id m => delete id m) m X !! id = if decide (id ∈ X) then None else m !! id.
Proof.
  assert (H : (id ∈ X -> set_fold (fun id m => delete id m) m X !! id = None) /\
              (id ∉ X -> set_fold (fun id m => delete id m) m X !! id = m !! id)).
  { apply (set_fold_ind_L (fun (m' : gmap string cell) (Y : gset string) =>
             (id ∈ Y -> m' !! id = None) /\ (id ∉ Y -> m' !! id = m !! id))); [set_solver|].
    intros x Y m' Hx [IH1 IH2]. destruct (decide (id = x)) as [->|Hne].
    - rewrite lookup_delete_eq. set_solver.
    - rewrite lookup_delete_ne by done. set_solver. }
  by case_decide; apply H.
Qed.

Definition drained (r : PeerRegistry) : PeerRegistry :=
  {| pr_heap := pr_heap r;
     pr_peers := set_fold (fun id m => delete id m) (pr_peers r) (pr_static_ids r);
     pr_static_ids := ∅ |}.

Lemma drained_ok r : registry_ok r -> registry_ok (drained r).
Proof.
  intros [Hs Hp Hd]. split; simpl.
  - set_solver.
  - intros id a. rewrite lookup_drain. case_decide; [done|]. apply Hp.
  - intros id a p. rewrite lookup_drain. case_decide; [done|]. intros Ha _. by apply (Hd id a p).
Qed.

Definition add_all (now : N) (configs : list PeerConfig) (r : PeerRegistry) : PeerRegistry :=
  foldl (fun r config => (add_peer now config r).1) r configs.

Lemma add_all_ok now configs r : registry_ok r -> registry_ok (add_all now configs r).
Proof. revert r; induction configs as [|c cs IH]; intros r Hr; [done|]. apply IH, add_peer_ok, Hr. Qed.

Lemma replace_static_peers_fst now configs r :
  (replace_static_peers now configs r).1 = add_all now configs (drained r).
Proof. done. Qed.

Lemma config_of_snoc id configs c :
  config_of id (configs ++ [c]) = if decide (peer_id c = id) then Some c else config_of id configs.
Proof.
  unfold config_of. rewrite filter_app, filter_cons, filter_nil.
  case_decide; [by rewrite last_snoc|by rewrite app_nil_r].
Qed.

(** What a batch of additions leaves at an id: the peer, its cell, and whether
    the id is static. *)
Lemma add_all_spec now configs r id :
  registry_ok r ->
  peer_at (add_all now configs r) id =
    match config_of id configs with Some c => Some (CachePeer_new now c) | None => peer_at r id end /\
  (config_of id configs = None -> pr_peers (add_all now configs r) !! id = pr_peers r !! id) /\
  (id ∈ pr_static_ids (add_all now configs r) <-> id ∈ pr_static_ids r \/ config_of id configs <> None).
Proof.
  intros Hr. induction configs as [|c cs IH] using rev_ind; [naive_solver|].
  unfold add_all in *. rewrite foldl_snoc. fold (add_all now cs r) in *.
  destruct IH as (IHp & IHc & IHs). rewrite config_of_snoc. unfold peer_at in *. simpl.
  pose proof (add_all_ok now cs r Hr) as Hok.
  case_decide as Hid; [subst id|].
  - rewrite lookup_insert_eq. simpl. rewrite list_lookup_middle by done. split_and!; [done..|]. set_solver.
  - rewrite lookup_insert_ne by done. split_and!.
    + rewrite <-IHp. destruct (pr_peers _ !! id) as [a|] eqn:Ha; [|done]. simpl.
      apply lookup_app_l. by eapply registered_lt.
    + done.
    + set_solver.
Qed.

Lemma health_check_ok `{!HashOrder} r : registry_ok r -> registry_ok (health_check r).
Proof.
  unfold health_check. generalize (all_peers r) as l. intros l; revert r.
  induction l as [|p l IH]; intros r Hr; [done|]. apply IH, on_peer_ok; [constructor|done].
Qed.

Lemma registry_reachable_ok `{!HashOrder} r : registry_reachable r -> registry_ok r.
Proof.
  induction 1 as [|r now c Hr IH|r now c r' a Hr IH Hu|r id Hr IH|r now cs Hr IH|r Hr IH|r a f Hr IH Hf].
  - split; simpl; set_solver.
  - by apply add_peer_ok.
  - by eapply upsert_sibling_ok.
  - by apply remove_peer_ok.
  - rewrite replace_static_peers_fst. by apply add_all_ok, drained_ok.
  - by apply health_check_ok.
  - by apply on_peer_ok.
Qed.

(** *** Selection *)

Lemma weighted_walk_elem draw peers p : weighted_walk draw peers = Some p -> p ∈ peers.
Proof.
  revert draw; induction peers as [|q peers IH]; intros draw; simpl; [done|].
  case_match; [intros [= ->]; set_solver|]. intros Hw%IH. set_solver.
Qed.

Lemma select_index_elem i peers p : select_index i peers = Some p -> p ∈ peers.
Proof. apply list_elem_of_lookup_2. Qed.

Lemma select_index_is_Some i peers : peers <> [] -> is_Some (select_index i peers).
Proof.
  intros Hne. apply lookup_lt_is_Some. destruct peers as [|p peers]; [done|].
  assert (i mod N.of_nat (length (p :: peers)) < N.of_nat (length (p :: peers)))%N
    by (apply N.mod_lt; simpl; lia). lia.
Qed.

Lemma select_elem `{!DefaultHasher} s random peers url s' p :
  select s random peers url = (s', Some p) -> p ∈ peers.
Proof.
  destruct s; simpl.
  - destruct peers as [|q l]; [done|]. intros [= _ Hsel]. by eapply select_index_elem.
  - unfold select_weighted. destruct peers as [|q l]; [done|]. destruct (feq _ _); [done|].
    destruct (weighted_walk _ _) as [r|] eqn:Hw; intros [= _ Hsel].
    + subst. by eapply weighted_walk_elem.
    + by apply last_Some_elem_of.
  - unfold select_closest. intros [= _ Hsel].
    set (l := filter _ peers) in *. destruct (decide (l = [])) as [->|Hl]; [done|].
    destruct (min_by_Some (fun p => cp_rtt_ms p.2) l Hl) as (x & Hx & Hin & _).
    rewrite Hsel in Hx. injection Hx as <-. by apply list_elem_of_filter in Hin as [_ ?].
  - destruct peers as [|q l]; [done|]. intros [= _ Hsel]. by eapply select_index_elem.
Qed.

(** [n] requests in a row against the same list of peers. *)
Fixpoint select_times `{!DefaultHasher} (n : nat) (s : SelectionStrategy) (random : f64)
    (peers : list peer_ref) (url : string) : list (option peer_ref) :=
  match n with
  | O => []
  | S n' =>
      let '(s', p) := select s random peers url in
      p :: select_times n' s' random peers url
  end.

Lemma select_times_round_robin `{!DefaultHasher} n counter random peers url :
  peers <> [] -> (counter + N.of_nat n < 2 ^ 64)%N ->
  select_times n (RoundRobinStrategy counter) random peers url =
  (fun i => select_index (counter + N.of_nat i) peers) <$> seq 0 n.
Proof.
  intros Hne. revert counter; induction n as [|n IH]; intros counter Hb; [done|].
  cbn [select_times select seq]. destruct peers as [|q l] eqn:Hl; [done|]. rewrite <-Hl in *.
  rewrite fmap_cons. rewrite N.add_0_r. f_equal.
  unfold wrap. rewrite N.land_ones, N.mod_small by lia. rewrite IH by lia.
  rewrite <-fmap_S_seq, <-list_fmap_compose. apply list_fmap_ext. intros i j _. simpl.
  f_equal. lia.
Qed.

Lemma select_index_rotate counter peers i :
  i < length peers ->
  select_index (counter + N.of_nat i) peers = rotate (N.to_nat (counter mod N.of_nat (length peers))) peers !! i.
Proof.
  intros Hi. rewrite lookup_rotate_r by done. unfold select_index, rotate_nat_add. f_equal.
  rewrite <-(N.Div0.add_mod_idemp_l counter). set (k := (counter mod _)%N).
  apply Nat2Z.inj. rewrite !Z2Nat.id by (apply Z.mod_pos; lia).
  rewrite N_nat_Z, N2Z.inj_mod, N2Z.inj_add, !nat_N_Z, N_nat_Z. done.
Qed.

(** ** Properties *)

(** In every history of the registry, static ids are registered ids, every
    registered id leads to a live peer whose id and configuration agree with it,
    and a peer that is not static is a sibling. *)
Theorem registry_invariant `{!HashOrder} r (Hr : registry_reachable r) :
  pr_static_ids r ⊆ dom (pr_peers r) /\
  forall id a, get_peer id r = Some a ->
    exists p, pr_heap r !! a = Some p /\ cp_id p = id /\ peer_id (cp_config p) = id /\
      (is_static id r = false -> pc_peer_type (cp_config p) = Sibling).
Proof.
  pose proof (registry_reachable_ok r Hr) as [Hs Hp Hd]. split; [done|]. intros id a Ha.
  destruct (Hp id a Ha) as (p & Hh & Hi & Hc). exists p. split_and!; try done.
  unfold is_static. intros Hn%bool_decide_eq_false. by apply (Hd id a p).
Qed.

Definition sample_peer (t : PeerType) (host : string) (port : N) : PeerConfig :=
  {| pc_host := host; pc_port := port; pc_peer_type := t; pc_weight := f64_of_N 1;
     pc_icp_port := Some 3130%N; pc_max_connections := 100 |}.

Definition sample_registry : PeerRegistry :=
  (replace_static_peers 5 [sample_peer Parent "p2" 3128]
    (default (PeerRegistry_new, 0)
      (upsert_sibling 2 (sample_peer Sibling "s1" 3128)
        (add_peer 1 (sample_peer Parent "p1" 3128) PeerRegistry_new).1)).1).1.

#[local] Instance sample_order : HashOrder := map_to_list.

Lemma registry_invariant_witness :
  get_peer "sibling:s1:3128" sample_registry = Some 1 /\
  pr_static_ids sample_registry ⊆ dom (pr_peers sample_registry).
Proof.
  split; [vm_compute; reflexivity|].
  apply (registry_invariant sample_registry). unfold sample_registry. apply rr_replace.
  apply (rr_upsert (add_peer 1 (sample_peer Parent "p1" 3128) PeerRegistry_new).1 2
           (sample_peer Sibling "s1" 3128) _ 1); [apply rr_add, rr_new|].
  vm_compute. reflexivity.
Defined.

(** A reload of the static peers leaves at each id the last configuration
    given for it, as a fresh peer; it drops the other static peers; it keeps
    every discovered peer whose id is not configured, the very same shared peer
    with its statistics; and the static ids are then the configured ones. *)
Theorem replace_static_peers_exact r now configs id (Hr : registry_ok r) :
  let r' := (replace_static_peers now configs r).1 in
  peer_at r' id =
    match config_of id configs with
    | Some c => Some (CachePeer_new now c)
    | None => if is_static id r then None else peer_at r id
    end /\
  (config_of id configs = None -> is_static id r = false -> get_peer id r' = get_peer id r) /\
  (is_static id r' = true <-> config_of id configs <> None).
Proof.
  cbv zeta. rewrite replace_static_peers_fst.
  destruct (add_all_spec now configs (drained r) id (drained_ok r Hr)) as (Hp & Hc & Hs).
  unfold is_static, get_peer. rewrite Hp. split_and!.
  - unfold peer_at, drained. simpl. rewrite lookup_drain.
    destruct (config_of id configs); [done|].
    case_decide as Hd; [by rewrite bool_decide_eq_true_2|by rewrite bool_decide_eq_false_2].
  - intros Hn Hd%bool_decide_eq_false. rewrite (Hc Hn). unfold drained; simpl.
    by rewrite lookup_drain, decide_False.
  - rewrite bool_decide_eq_true, Hs. unfold drained; simpl. set_solver.
Qed.

Definition sample_before : PeerRegistry :=
  (default (PeerRegistry_new, 0)
      (upsert_sibling 2 (sample_peer Sibling "s1" 3128)
        (add_peer 1 (sample_peer Parent "p1" 3128) PeerRegistry_new).1)).1.

Lemma sample_before_ok : registry_ok sample_before.
Proof.
  apply (upsert_sibling_ok 2 (sample_peer Sibling "s1" 3128)
           (add_peer 1 (sample_peer Parent "p1" 3128) PeerRegistry_new).1 _ 1).
  - apply (add_peer_ok 1 (sample_peer Parent "p1" 3128) PeerRegistry_new). split; simpl; set_solver.
  - vm_compute. reflexivity.
Qed.

Lemma replace_static_peers_exact_witness :
  let r' := (replace_static_peers 5 [sample_peer Parent "p2" 3128] sample_before).1 in
  get_peer "sibling:s1:3128" r' = get_peer "sibling:s1:3128" sample_before /\
  present (get_peer "sibling:s1:3128" sample_before) = true.
Proof.
  destruct (replace_static_peers_exact sample_before 5 [sample_peer Parent "p2" 3128]
    "sibling:s1:3128" sample_before_ok) as (_ & H & _).
  split; [|vm_compute; reflexivity]. apply H; vm_compute; reflexivity.
Defined.

(** Round robin is fair: as many requests in a row as there are peers visit
    every peer exactly once, until the counter wraps. *)
Theorem round_robin_fair `{!DefaultHasher} counter random peers url
    (Hwrap : (counter + N.of_nat (length peers) < 2 ^ 64)%N) :
  select_times (length peers) (RoundRobinStrategy counter) random peers url ≡ₚ Some <$> peers.
Proof.
  destruct (decide (peers = [])) as [->|Hne]; [done|].
  rewrite select_times_round_robin by done.
  set (k := N.to_nat (counter mod N.of_nat (length peers))).
  trans (Some <$> rotate k peers).
  - match goal with |- ?a ≡ₚ ?b => enough (a = b) as -> by done end. apply list_eq.
    intros i. rewrite !list_lookup_fmap.
    destruct (decide (i < length peers)) as [Hi|Hi].
    + rewrite lookup_seq_lt by done. simpl. rewrite select_index_rotate by done. fold k.
      destruct (lookup_lt_is_Some_2 (rotate k peers) i) as [x ->]; [by rewrite length_rotate|done].
    + rewrite lookup_seq_ge, lookup_ge_None_2 by (rewrite ?length_rotate; lia). done.
  - apply fmap_Permutation. unfold rotate. rewrite Permutation_app_comm. by rewrite take_drop.
Qed.

Definition sample_refs : list peer_ref :=
  [(0, CachePeer_new 0 (sample_peer Parent "p1" 1)); (1, CachePeer_new 0 (sample_peer Parent "p2" 2));
   (2, CachePeer_new 0 (sample_peer Parent "p3" 3))].

#[local] Instance sample_hasher : DefaultHasher := fun u => N.of_nat (String.length u).

Lemma round_robin_fair_witness :
  select_times 3 (RoundRobinStrategy 7) f64_zero sample_refs "u" ≡ₚ Some <$> sample_refs.
Proof. apply (round_robin_fair 7 f64_zero sample_refs "u"). reflexivity. Defined.

(** The closest strategy picks, among the healthy peers, one of least round
    trip time, and none only if no peer is healthy. *)
Theorem closest_is_nearest_healthy `{!DefaultHasher} random peers url :
  match (select ClosestStrategy random peers url).2 with
  | Some p => p ∈ peers /\ cp_healthy p.2 = true /\
              forall q, q ∈ peers -> cp_healthy q.2 = true -> (cp_rtt_ms p.2 <= cp_rtt_ms q.2)%N
  | None => forall q, q ∈ peers -> cp_healthy q.2 = false
  end.
Proof.
  cbn [select snd]. unfold select_closest. set (l := filter _ peers).
  destruct (decide (l = [])) as [Hl|Hl].
  - rewrite Hl. simpl. intros q Hq. apply not_true_iff_false. intros Hh.
    assert (Hin : q ∈ l) by (by apply list_elem_of_filter). rewrite Hl in Hin.
    by apply not_elem_of_nil in Hin.
  - destruct (min_by_Some (fun p => cp_rtt_ms p.2) l Hl) as (x & -> & Hin & Hmin).
    apply list_elem_of_filter in Hin as [Hh Hx]. split_and!; [done|done|].
    intros q Hq Hhq. by apply Hmin, list_elem_of_filter.
Qed.
