(* ===== verification/Hierarchy.v ===== *)
(** * The cache hierarchy (src/proxy/src/hierarchy.rs, hierarchy_config.rs,
      peer_discovery.rs)

    Where a miss is fetched from: a sibling that reports a hit, a parent chosen
    by the configured strategy, or the origin; how the outcome of a fetch
    changes the health of a peer; how static peers are loaded; how siblings
    announce themselves.

    Parsing a socket address, the JSON of the peers file and of announcements are
    parameters.  Metrics and logs are left out. *)

From Stdlib Require Import Ascii String NArith ZArith Lia.
From Stdlib Require Import Floats.SpecFloat.
From stdpp Require Import base option gmap sets strings pretty numbers list.
From S2P Require Import Prelude Float64 Bytes CacheDigest PeerProtocols Peers.

(** [str::parse::<SocketAddr>], an address being represented by its text. *)
Class AddrParser := parse_addr : string -> option SocketAddr.

Record HierarchyConfig := {
  hc_enabled : bool;
  hc_icp_timeout : N;
  hc_parent_timeout : N;
  hc_max_sibling_queries : N;
  hc_retry_parents : bool;
  hc_use_htcp : bool;
  hc_digest_enabled : bool;
}.

Inductive HierarchyResult :=
  | LocalHit
  | SiblingHit (peer : cell)
  | ParentHit (peer : cell)
  | OriginRequired.

Record HierarchyManager := {
  hm_config : HierarchyConfig;
  hm_registry : PeerRegistry;
  hm_strategy : SelectionStrategy;
  hm_icp : option IcpClient;
  hm_htcp : option HtcpClient;
  hm_digests : option DigestRegistry;
  hm_htcp_peer_port : N;
}.

Definition HierarchyManager_new (config : HierarchyConfig) (registry : PeerRegistry)
    (strategy : SelectionStrategy) : HierarchyManager :=
  {| hm_config := config; hm_registry := registry; hm_strategy := strategy; hm_icp := None;
     hm_htcp := None; hm_digests := None; hm_htcp_peer_port := 4827 |}.

Definition with_registry (m : HierarchyManager) (r : PeerRegistry) : HierarchyManager :=
  {| hm_config := hm_config m; hm_registry := r; hm_strategy := hm_strategy m; hm_icp := hm_icp m;
     hm_htcp := hm_htcp m; hm_digests := hm_digests m; hm_htcp_peer_port := hm_htcp_peer_port m |}.

Definition with_strategy (m : HierarchyManager) (s : SelectionStrategy) : HierarchyManager :=
  {| hm_config := hm_config m; hm_registry := hm_registry m; hm_strategy := s; hm_icp := hm_icp m;
     hm_htcp := hm_htcp m; hm_digests := hm_digests m; hm_htcp_peer_port := hm_htcp_peer_port m |}.

Definition with_digests (m : HierarchyManager) (d : DigestRegistry) : HierarchyManager :=
  {| hm_config := hm_config m; hm_registry := hm_registry m; hm_strategy := hm_strategy m; hm_icp := hm_icp m;
     hm_htcp := hm_htcp m; hm_digests := Some d; hm_htcp_peer_port := hm_htcp_peer_port m |}.

(** [init_icp] and [init_htcp]: [bound] is the local address, or the bind error. *)
Definition init_icp (bound : result SocketAddr string) (m : HierarchyManager)
    : result HierarchyManager string :=
  if hc_use_htcp (hm_config m) then Ok m
  else
    match bound with
    | Err e => Err e
    | Ok addr =>
        Ok {| hm_config := hm_config m; hm_registry := hm_registry m; hm_strategy := hm_strategy m;
              hm_icp := Some (IcpClient_new addr); hm_htcp := hm_htcp m; hm_digests := hm_digests m;
              hm_htcp_peer_port := hm_htcp_peer_port m |}
    end.

Definition init_htcp (bound : result SocketAddr string) (m : HierarchyManager)
    : result HierarchyManager string :=
  match bound with
  | Err e => Err e
  | Ok _ =>
      Ok {| hm_config := hm_config m; hm_registry := hm_registry m; hm_strategy := hm_strategy m;
            hm_icp := hm_icp m; hm_htcp := Some HtcpClient_new; hm_digests := hm_digests m;
            hm_htcp_peer_port := hm_htcp_peer_port m |}
  end.

Section Hierarchy.
Context `{!HashOrder, !DefaultHasher, !Sha256, !AddrParser}.

(** The siblings whose digest does not exclude the key; [None] is a panic. *)
Fixpoint digest_candidates (now : N) (digests : option DigestRegistry) (key : string)
    (siblings : list peer_ref) : option (list peer_ref) :=
  match siblings with
  | [] => Some []
  | s :: siblings' =>
      skip ← match digests with
             | None => Some false
             | Some registry =>
                 answer ← peer_might_have_url now (cp_id s.2) key registry;
                 Some (bool_decide (answer = Some false))
             end;
      rest ← digest_candidates now digests key siblings';
      Some (if (skip : bool) then rest else s :: rest)
  end.

Definition icp_address (p : CachePeer) : option string :=
  (fun port => pc_host (cp_config p) +:+ ":" +:+ pretty port) <$> pc_icp_port (cp_config p).

Definition htcp_address (port : N) (p : CachePeer) : string :=
  pc_host (cp_config p) +:+ ":" +:+ pretty port.

Definition icp_addresses (m : HierarchyManager) (siblings : list peer_ref) : list SocketAddr :=
  take (N.to_nat (hc_max_sibling_queries (hm_config m)))
    (omap (fun s => icp_address s.2 ≫= parse_addr) siblings).

Definition htcp_addresses (m : HierarchyManager) (siblings : list peer_ref) : list SocketAddr :=
  take (N.to_nat (hc_max_sibling_queries (hm_config m)))
    (omap (fun s => parse_addr (htcp_address (hm_htcp_peer_port m) s.2)) siblings).

(** The sibling a result is attributed to: the first with that address. *)
Fixpoint first_hit {Op} (is_hit : Op -> bool) (address : CachePeer -> option string)
    (siblings : list peer_ref) (results : list (QueryResult Op)) : option (peer_ref * N) :=
  match results with
  | [] => None
  | r :: results' =>
      match (if is_hit (qr_response r) then
               List.find (fun s => bool_decide (address s.2 = Some (qr_peer r))) siblings
             else None) with
      | Some s => Some (s, qr_latency r)
      | None => first_hit is_hit address siblings results'
      end
  end.

(** [process_sibling_results] and [map_htcp_results]: the chosen sibling's round
    trip time is updated. *)
Definition settle_hit (m : HierarchyManager) (hit : option (peer_ref * N))
    : HierarchyManager * option cell :=
  match hit with
  | Some (s, latency) =>
      (with_registry m (on_peer s.1 (update_rtt latency) (hm_registry m)), Some s.1)
  | None => (m, None)
  end.

Definition query_siblings_icp (m : HierarchyManager) (url : string) (net : SocketAddr -> Exchange)
    (siblings : list peer_ref) : HierarchyManager * option cell :=
  match hm_icp m with
  | None => (m, None)
  | Some client =>
      let addrs := icp_addresses m siblings in
      if decide (addrs = []) then (m, None)
      else
        settle_hit m (first_hit (fun o => bool_decide (o = IcpHit)) icp_address siblings
                        (icp_query_peers client addrs url net).2)
  end.

Definition query_siblings_htcp (m : HierarchyManager) (url : string) (net : SocketAddr -> Exchange)
    (siblings : list peer_ref) : HierarchyManager * option cell :=
  match hm_htcp m with
  | None => (m, None)
  | Some client =>
      let addrs := htcp_addresses m siblings in
      if decide (addrs = []) then (m, None)
      else
        settle_hit m (first_hit (fun o => bool_decide (o = HtcpHit))
                        (fun p => Some (htcp_address (hm_htcp_peer_port m) p)) siblings
                        (htcp_query_peers client addrs url net).2)
  end.

Definition query_siblings (now : N) (m : HierarchyManager) (url : string)
    (net : SocketAddr -> Exchange) : option (HierarchyManager * option cell) :=
  match sibling_caches (hm_registry m) with
  | [] => Some (m, None)
  | siblings =>
      let key := http_cache_key "GET" url in
      let digests := if hc_digest_enabled (hm_config m) then hm_digests m else None in
      candidates ← digest_candidates now digests key siblings;
      Some (match candidates with
            | [] => (m, None)
            | _ => if hc_use_htcp (hm_config m) then query_siblings_htcp m url net candidates
                   else query_siblings_icp m url net candidates
            end)
  end.

Definition select_parent (m : HierarchyManager) (random : f64) (url : string)
    : HierarchyManager * option cell :=
  match parent_caches (hm_registry m) with
  | [] => (m, None)
  | parents =>
      let '(s, p) := select (hm_strategy m) random parents url in
      (with_strategy m s, fst <$> p)
  end.

Definition resolve_source (now : N) (m : HierarchyManager) (url : string)
    (net : SocketAddr -> Exchange) (random : f64) : option (HierarchyManager * HierarchyResult) :=
  if negb (hc_enabled (hm_config m)) then Some (m, OriginRequired)
  else
    '(m, sibling) ← query_siblings now m url net;
    match sibling with
    | Some a => Some (m, SiblingHit a)
    | None =>
        let '(m, parent) := select_parent m random url in
        Some (m, match parent with Some a => ParentHit a | None => OriginRequired end)
    end.

(** Outcomes of a fetch from a peer, recorded in the shared peer. *)
Definition record_peer_hit (now bytes : N) (a : cell) (m : HierarchyManager) : HierarchyManager :=
  with_registry m
    (on_peer a (with_stats (fun s => record_hit now bytes (record_request s))) (hm_registry m)).

Definition record_peer_miss (now : N) (a : cell) (m : HierarchyManager) : HierarchyManager :=
  with_registry m
    (on_peer a (with_stats (fun s => record_miss now (record_request s))) (hm_registry m)).

Definition peer_failed (now : N) (p : CachePeer) : CachePeer :=
  let p := with_stats (fun s => record_error now (record_request s)) p in
  if flt (fdiv (f64_of_N 1) (f64_of_N 2)) (error_rate (cp_stats p)) then set_healthy false p else p.

Definition record_peer_error (now : N) (a : cell) (m : HierarchyManager) : HierarchyManager :=
  with_registry m (on_peer a (peer_failed now) (hm_registry m)).

End Hierarchy.

(** ** The sibling protocol in use *)

(** The protocol a manager speaks and the number its next query carries. *)
Definition sibling_client (m : HierarchyManager) : option (SiblingProtocol * N) :=
  if hc_use_htcp (hm_config m) then (fun c => (htcp_protocol, htcp_request_counter c)) <$> hm_htcp m
  else (fun c => (icp_protocol (icp_local_addr c), icp_request_counter c)) <$> hm_icp m.

Definition sibling_address (m : HierarchyManager) (p : CachePeer) : option string :=
  if hc_use_htcp (hm_config m) then Some (htcp_address (hm_htcp_peer_port m) p) else icp_address p.

(** Every peer that is asked answers in time, from its cache: [has a] is what the
    cache at [a] holds.  Datagrams of others may come before the answer. *)
Definition answered (P : SiblingProtocol) (number : N) (url : string)
    (has : SocketAddr -> string -> bool) (net : SocketAddr -> Exchange) : Prop :=
  forall a, ex_send (net a) = None /\
    exists noise reply later,
      forallb (foreign a) noise = true /\
      sp_serve (has a) (sp_query number url) = Some reply /\
      ex_inbox (net a) = noise ++ Ok (reply, a) :: later.

(** ** Lemmas *)

Lemma answered_accepts P `{!SiblingProtocolLaws P} number url has net a :
  (number <= u32_max)%N -> sp_admissible url = true -> answered P number url has net ->
  sp_accepts a number (ex_inbox (net a)) = Some (has a url).
Proof.
  intros Hn Hu Ha. destruct (Ha a) as (_ & noise & reply & later & Hno & Hs & ->).
  destruct (sp_exchange a number url (has a) noise later Hn Hu Hno) as (reply' & Hs' & Hacc).
  rewrite Hs in Hs'. by injection Hs' as <-.
Qed.

(** What the results of a query round say, independently of the protocol. *)
Definition reports {Op} (is_hit : Op -> bool) (url : string) (has : SocketAddr -> string -> bool)
    (addrs : list SocketAddr) (results : list (QueryResult Op)) : Prop :=
  (qr_peer <$> results) = addrs /\ Forall (fun r => is_hit (qr_response r) = has (qr_peer r) url) results.

Lemma reports_cons {Op} is_hit url has a addrs (r : QueryResult Op) results :
  qr_peer r = a -> is_hit (qr_response r) = has a url -> reports is_hit url has addrs results ->
  reports is_hit url has (a :: addrs) (r :: results).
Proof. intros <- Hr [Hp Hf]. split; [by rewrite fmap_cons, Hp|by constructor]. Qed.

Lemma icp_round_reports c addrs url has net :
  (icp_request_counter c <= u32_max)%N -> icp_admissible url = true ->
  answered (icp_protocol (icp_local_addr c)) (icp_request_counter c) url has net ->
  reports (fun o => bool_decide (o = IcpHit)) url has addrs (icp_query_peers c addrs url net).2.
Proof.
  intros Hn Hu Ha. induction addrs as [|a addrs IH]; [done|].
  pose proof (answered_accepts (icp_protocol (icp_local_addr c)) _ url has net a Hn Hu Ha) as Hacc.
  cbn [sp_accepts icp_protocol] in Hacc.
  destruct (Ha a) as (Hsend & _). cbn [icp_query_peers snd omap list_omap] in *.
  cbn [icp_query_peer icp_clone fst snd icp_request_counter]. rewrite Hsend.
  destruct (icp_await_reply a _ _) as [m|e]; [|done]. cbn [res_ok fmap option_fmap option_map] in Hacc |- *.
  injection Hacc as Hacc. by apply reports_cons.
Qed.

Lemma htcp_round_reports c addrs url has net :
  (htcp_request_counter c <= u32_max)%N -> htcp_admissible url = true ->
  answered htcp_protocol (htcp_request_counter c) url has net ->
  reports (fun o => bool_decide (o = HtcpHit)) url has addrs (htcp_query_peers c addrs url net).2.
Proof.
  intros Hn Hu Ha. induction addrs as [|a addrs IH]; [done|].
  pose proof (answered_accepts htcp_protocol _ url has net a Hn Hu Ha) as Hacc.
  cbn [sp_accepts htcp_protocol] in Hacc.
  destruct (Ha a) as (Hsend & _). cbn [htcp_query_peers snd omap list_omap] in *.
  cbn [htcp_query_peer htcp_clone fst snd htcp_request_counter]. rewrite Hsend.
  destruct (htcp_await_reply a _ _) as [m|e]; [|done]. cbn [res_ok fmap option_fmap option_map] in Hacc |- *.
  injection Hacc as Hacc. by apply reports_cons.
Qed.

Lemma first_hit_Some {Op} (is_hit : Op -> bool) address siblings results s latency :
  first_hit is_hit address siblings results = Some (s, latency) ->
  s ∈ siblings /\ exists r, r ∈ results /\ is_hit (qr_response r) = true /\
    address s.2 = Some (qr_peer r).
Proof.
  induction results as [|r results IH]; simpl; [done|].
  destruct (is_hit (qr_response r)) eqn:Hh.
  - destruct (List.find _ siblings) as [x|] eqn:Hf.
    + intros [= -> <-]. apply find_some in Hf as [Hin Hd]. apply bool_decide_eq_true in Hd.
      split; [by apply list_elem_of_In|]. exists r. set_solver.
    + intros H. destruct (IH H) as [? (r' & ? & ? & ?)]. split; [done|]. exists r'. set_solver.
  - intros H. destruct (IH H) as [? (r' & ? & ? & ?)]. split; [done|]. exists r'. set_solver.
Qed.

Lemma first_hit_complete {Op} (is_hit : Op -> bool) address siblings results s r :
  s ∈ siblings -> r ∈ results -> is_hit (qr_response r) = true -> address s.2 = Some (qr_peer r) ->
  is_Some (first_hit is_hit address siblings results).
Proof.
  intros Hs Hr Hh Ha. induction results as [|r' results IH]; [set_solver|]. simpl.
  apply elem_of_cons in Hr as [<-|Hr].
  - rewrite Hh. destruct (List.find _ siblings) as [x|] eqn:Hf; [done|].
    apply list_elem_of_In in Hs. apply (find_none _ _ Hf) in Hs.
    by apply bool_decide_eq_false in Hs.
  - destruct (if is_hit _ then _ else _); [done|by apply IH].
Qed.

Lemma length_omap_le {A B} (f : A -> option B) (l : list A) : length (omap f l) <= length l.
Proof.
  induction l as [|x l IH]; [done|].
  change (omap f (x :: l)) with (match f x with Some y => y :: omap f l | None => omap f l end).
  destruct (f x); cbn [length]; lia.
Qed.

(** An invariant of the steps is one of the histories. *)
Lemma rtc_preserved {A} (R : relation A) (I : A -> Prop) x y :
  (forall x y, R x y -> I x -> I y) -> rtc R x y -> I x -> I y.
Proof. intros HI. induction 1; eauto. Qed.

Section Resolution.
Context `{!HashOrder, !HashOrderLaws, !DefaultHasher, !Sha256, !AddrParser}.

Lemma all_peers_elem r a p :
  (a, p) ∈ all_peers r <-> (exists id, pr_peers r !! id = Some a) /\ pr_heap r !! a = Some p.
Proof.
  unfold all_peers. rewrite list_elem_of_omap. split.
  - intros ([id b] & Hin & Hb). apply fmap_Some in Hb as (q & Hq & [= <- <-]).
    rewrite (listing_perm (pr_peers r)), elem_of_map_to_list in Hin. eauto.
  - intros [[id Hid] Hp]. exists (id, a). rewrite (listing_perm (pr_peers r)), elem_of_map_to_list.
    split; [done|]. by rewrite Hp.
Qed.

Lemma healthy_by_type_elem t r a p :
  (a, p) ∈ healthy_peers_by_type t r <->
  (exists id, pr_peers r !! id = Some a) /\ pr_heap r !! a = Some p /\ cp_healthy p = true /\
  pc_peer_type (cp_config p) = t.
Proof.
  unfold healthy_peers_by_type, healthy_peers. rewrite !list_elem_of_filter, all_peers_elem. naive_solver.
Qed.

Lemma digest_candidates_elem now digests key siblings candidates s :
  digest_candidates now digests key siblings = Some candidates -> s ∈ candidates -> s ∈ siblings.
Proof.
  revert candidates; induction siblings as [|x l IH]; intros candidates; simpl.
  - intros [= <-]. set_solver.
  - destruct (match digests with None => _ | Some _ => _ end) as [skip|]; [|done]. simpl.
    destruct (digest_candidates _ _ _ l) as [rest|]; [|done]. simpl. intros [= <-].
    destruct skip; set_solver.
Qed.

(** Without digests every sibling is a candidate. *)
Lemma digest_candidates_off now key siblings :
  digest_candidates now None key siblings = Some siblings.
Proof. induction siblings as [|x l IH]; simpl; [done|]. by rewrite IH. Qed.

(** A round of queries to [candidates], whichever the protocol. *)
Definition query_round (m : HierarchyManager) (url : string) (net : SocketAddr -> Exchange)
    (candidates : list peer_ref) : HierarchyManager * option cell :=
  if hc_use_htcp (hm_config m) then query_siblings_htcp m url net candidates
  else query_siblings_icp m url net candidates.

Definition sibling_addresses (m : HierarchyManager) (siblings : list peer_ref) : list SocketAddr :=
  if hc_use_htcp (hm_config m) then htcp_addresses m siblings else icp_addresses m siblings.

Lemma settle_hit_snd m hit : (settle_hit m hit).2 = (fun h => h.1.1) <$> hit.
Proof. by destruct hit as [[s l]|]. Qed.

(** The round, when everyone who is asked answers from their cache. *)
Lemma query_round_spec m url net candidates P number has :
  sibling_client m = Some (P, number) -> (number <= u32_max)%N -> @sp_admissible P url = true ->
  answered P number url has net ->
  (forall a, (query_round m url net candidates).2 = Some a ->
     exists p addr, (a, p) ∈ candidates /\ sibling_address m p = Some addr /\ has addr url = true) /\
  (forall s addr, s ∈ candidates -> sibling_address m s.2 = Some addr ->
     addr ∈ sibling_addresses m candidates -> has addr url = true ->
     is_Some (query_round m url net candidates).2).
Proof.
  unfold sibling_client, query_round, sibling_address, sibling_addresses.
  destruct (hc_use_htcp (hm_config m)).
  - intros (c & Hc & [= -> ->])%fmap_Some Hn Hu Ha. unfold query_siblings_htcp. rewrite Hc.
    set (addrs := htcp_addresses m candidates).
    destruct (htcp_round_reports c addrs url has net Hn Hu Ha) as [Hp Hf]. rewrite Forall_forall in Hf.
    case_decide as Hd; [split; [done|]; rewrite Hd; set_solver|]. rewrite settle_hit_snd. split.
    + intros a ([s l] & Hs & ->)%fmap_Some. apply first_hit_Some in Hs as (Hin & r & Hr & Hh & Haddr).
      exists s.2, (qr_peer r). rewrite <- (Hf r Hr). destruct s. auto.
    + intros s addr Hs [= <-] Hin Hhas. rewrite <- Hp in Hin.
      apply list_elem_of_fmap in Hin as (r & Hr & Hin). apply fmap_is_Some.
      eapply first_hit_complete; [done|done| |by rewrite Hr]. rewrite (Hf _ Hin), <- Hr. done.
  - intros (c & Hc & [= -> ->])%fmap_Some Hn Hu Ha. unfold query_siblings_icp. rewrite Hc.
    set (addrs := icp_addresses m candidates).
    destruct (icp_round_reports c addrs url has net Hn Hu Ha) as [Hp Hf]. rewrite Forall_forall in Hf.
    case_decide as Hd; [split; [done|]; rewrite Hd; set_solver|]. rewrite settle_hit_snd. split.
    + intros a ([s l] & Hs & ->)%fmap_Some. apply first_hit_Some in Hs as (Hin & r & Hr & Hh & Haddr).
      exists s.2, (qr_peer r). rewrite <- (Hf r Hr). destruct s. auto.
    + intros s addr Hs Haddr Hin Hhas. rewrite <- Hp in Hin.
      apply list_elem_of_fmap in Hin as (r & Hr & Hin). apply fmap_is_Some.
      eapply first_hit_complete; [done|done| |by rewrite Haddr, Hr]. rewrite (Hf _ Hin), <- Hr. done.
Qed.

Lemma query_siblings_None now m url net m' :
  query_siblings now m url net = Some (m', None) -> m' = m.
Proof.
  unfold query_siblings. destruct (sibling_caches _) as [|s l]; [congruence|].
  destruct (digest_candidates _ _ _ _) as [cands|]; [|done]. simpl.
  destruct cands as [|c cands]; [congruence|].
  unfold query_siblings_htcp, query_siblings_icp, settle_hit. repeat case_match; congruence.
Qed.

(** A sibling hit comes from a round over candidates that are healthy siblings. *)
Lemma query_siblings_Some now m url net m' a :
  query_siblings now m url net = Some (m', Some a) ->
  exists candidates,
    (forall s, s ∈ candidates -> s ∈ sibling_caches (hm_registry m)) /\
    query_round m url net candidates = (m', Some a).
Proof.
  unfold query_siblings. destruct (sibling_caches _) as [|s l] eqn:Hs; [congruence|]. rewrite <-Hs.
  destruct (digest_candidates _ _ _ _) as [cands|] eqn:Hc; [|done]. simpl. intros Hres.
  exists cands. split; [intros x; by eapply digest_candidates_elem|].
  destruct cands; [congruence|]. by injection Hres.
Qed.

Lemma query_round_elem m url net candidates m' a :
  query_round m url net candidates = (m', Some a) -> exists p, (a, p) ∈ candidates /\
    exists rtt, m' = with_registry m (on_peer a (update_rtt rtt) (hm_registry m)).
Proof.
  unfold query_round, query_siblings_htcp, query_siblings_icp.
  assert (Hsettle : forall Op (f : Op -> bool) address results,
    settle_hit m (first_hit f address candidates results) = (m', Some a) ->
    exists p, (a, p) ∈ candidates /\
      exists rtt, m' = with_registry m (on_peer a (update_rtt rtt) (hm_registry m))).
  { intros Op f address results. destruct (first_hit _ _ _ _) as [[s rtt]|] eqn:Hf; simpl; [|congruence].
    intros [= <- <-]. apply first_hit_Some in Hf as [Hin _]. exists s.2. destruct s. eauto. }
  repeat case_match; try congruence; apply Hsettle.
Qed.

Lemma select_parent_spec m random url m' a :
  select_parent m random url = (m', Some a) ->
  (exists p, (a, p) ∈ parent_caches (hm_registry m)) /\ hm_registry m' = hm_registry m.
Proof.
  unfold select_parent. destruct (parent_caches _) as [|q l] eqn:Hl; [congruence|]. rewrite <-Hl.
  destruct (select _ _ _ _) as [s o] eqn:Hsel. intros [= <- Ho].
  apply fmap_Some in Ho as ([b p] & -> & ->). apply select_elem in Hsel. eauto.
Qed.

(** A peer that may be used: registered, healthy, of the right type. *)
Definition eligible (t : PeerType) (r : PeerRegistry) (a : cell) : Prop :=
  exists id p, pr_peers r !! id = Some a /\ pr_heap r !! a = Some p /\ cp_healthy p = true /\
    pc_peer_type (cp_config p) = t.

Lemma healthy_eligible t r a p : (a, p) ∈ healthy_peers_by_type t r -> eligible t r a.
Proof. rewrite healthy_by_type_elem. intros ([id Hid] & Hp & Hh & Ht). by exists id, p. Qed.

Lemma select_parent_none m random url m' :
  select_parent m random url = (m', None) ->
  let parents := parent_caches (hm_registry m) in
  parents = [] \/ hm_strategy m = WeightedStrategy /\ feq (total_score parents) f64_zero = true.
Proof.
  unfold select_parent. cbv zeta. destruct (parent_caches _) as [|q l] eqn:Hl; [by left|]. rewrite <-Hl.
  assert (Hne : parent_caches (hm_registry m) <> []) by congruence.
  assert (Hh : cp_healthy q.2 = true).
  { assert (Hq : q ∈ parent_caches (hm_registry m)) by (rewrite Hl; set_solver).
    destruct q as [b p]. unfold parent_caches in Hq. by apply healthy_by_type_elem in Hq as (_ & _ & ? & _). }
  destruct (select _ _ _ _) as [s o] eqn:Hsel. intros [= <- Ho]. apply fmap_None in Ho as ->. right.
  destruct (hm_strategy m) as [counter| | |]; simpl in Hsel.
  - rewrite Hl in Hsel. injection Hsel as _ Hsel. rewrite <-Hl in Hsel.
    destruct (select_index_is_Some counter _ Hne). congruence.
  - split; [done|]. injection Hsel as _ Hsel. unfold select_weighted in Hsel. rewrite Hl in Hsel |- *.
    destruct (feq _ _); [done|]. destruct (weighted_walk _ _); [done|].
    by apply last_None in Hsel.
  - injection Hsel as _ Hsel. unfold select_closest in Hsel. rewrite Hl in Hsel.
    rewrite filter_cons_True in Hsel by done. simpl in Hsel. by repeat case_match.
  - rewrite Hl in Hsel. injection Hsel as _ Hsel. rewrite <-Hl in Hsel.
    destruct (select_index_is_Some (hash_url url) _ Hne). congruence.
Qed.

(** *** Requests in flight

    A resolution hands a peer to a request; the request later reports how the
    fetch went.  Health checks and discovery run in between. *)
Inductive h_step : HierarchyManager * list cell -> HierarchyManager * list cell -> Prop :=
  | hs_sibling now m url net random m' a fl :
      resolve_source now m url net random = Some (m', SiblingHit a) -> h_step (m, fl) (m', a :: fl)
  | hs_parent now m url net random m' a fl :
      resolve_source now m url net random = Some (m', ParentHit a) -> h_step (m, fl) (m', a :: fl)
  | hs_origin now m url net random m' fl :
      resolve_source now m url net random = Some (m', OriginRequired) -> h_step (m, fl) (m', fl)
  | hs_hit now bytes m a fl1 fl2 :
      h_step (m, fl1 ++ a :: fl2) (record_peer_hit now bytes a m, fl1 ++ fl2)
  | hs_miss now m a fl1 fl2 : h_step (m, fl1 ++ a :: fl2) (record_peer_miss now a m, fl1 ++ fl2)
  | hs_error now m a fl1 fl2 : h_step (m, fl1 ++ a :: fl2) (record_peer_error now a m, fl1 ++ fl2)
  | hs_health m fl : h_step (m, fl) (with_registry m (health_check (hm_registry m)), fl)
  | hs_discovery now config m r b fl :
      upsert_sibling now config (hm_registry m) = Some (r, b) -> h_step (m, fl) (with_registry m r, fl).

(** Out of service: unhealthy, and with an error rate that is not low. *)
Definition out_of_service (stats : PeerStats) (r : PeerRegistry) (a : cell) : Prop :=
  exists p, pr_heap r !! a = Some p /\ cp_healthy p = false /\ cp_stats p = stats.

Lemma on_peer_other stats r a b f : a <> b -> out_of_service stats r a -> out_of_service stats (on_peer b f r) a.
Proof.
  intros Hne (p & Hp & Hrest). exists p. split; [|done]. simpl. by rewrite list_lookup_alter_ne.
Qed.

Lemma health_check_out stats r a :
  flt (error_rate stats) (f64_of_decimal false 1 (-1)) = false ->
  out_of_service stats r a -> out_of_service stats (health_check r) a.
Proof.
  intros Hrate. unfold health_check. generalize (all_peers r) as l. intros l; revert r.
  induction l as [|[b q] l IH]; intros r Hr; [done|]. simpl. apply IH.
  destruct (decide (a = b)) as [<-|Hne]; [|by apply on_peer_other].
  destruct Hr as (p & Hp & Hh & Hs). exists (check_health p). simpl.
  rewrite list_lookup_alter_eq, Hp. split; [done|]. unfold check_health.
  rewrite Hs, Hrate. by case_match.
Qed.

Lemma eligible_in_service stats t r a : out_of_service stats r a -> ~ eligible t r a.
Proof. intros (p & Hp & Hh & _) (id & q & _ & Hq & Hhq & _). congruence. Qed.

Lemma resolve_source_eligible now m url net random m' res :
  resolve_source now m url net random = Some (m', res) ->
  match res with
  | LocalHit => False
  | SiblingHit a => eligible Sibling (hm_registry m) a /\
      exists rtt, hm_registry m' = on_peer a (update_rtt rtt) (hm_registry m)
  | ParentHit a => eligible Parent (hm_registry m) a /\ hm_registry m' = hm_registry m
  | OriginRequired => hm_registry m' = hm_registry m
  end.
Proof.
  unfold resolve_source. destruct (hc_enabled _); simpl; [|by intros [= <- <-]].
  destruct (query_siblings _ _ _ _) as [[m1 o]|] eqn:Hq; [|done]. simpl. destruct o as [a|].
  - intros [= <- <-]. apply query_siblings_Some in Hq as (cands & Hc & Hq).
    apply query_round_elem in Hq as (p & Hin & rtt & ->). split; [|by exists rtt].
    eapply healthy_eligible. by apply Hc.
  - apply query_siblings_None in Hq as ->. destruct (select_parent _ _ _) as [m2 o] eqn:Hp.
    intros [= <- <-]. destruct o as [a|].
    + apply select_parent_spec in Hp as [[p Hp] Hr]. split; [|done]. by eapply healthy_eligible.
    + unfold select_parent in Hp. destruct (parent_caches _); [congruence|].
      destruct (select _ _ _ _). by injection Hp as <- _.
Qed.

Lemma h_step_out stats a st st' :
  flt (error_rate stats) (f64_of_decimal false 1 (-1)) = false ->
  h_step st st' ->
  out_of_service stats (hm_registry st.1) a /\ a ∉ st.2 ->
  out_of_service stats (hm_registry st'.1) a /\ a ∉ st'.2.
Proof.
  intros Hrate Hstep [Hout Hfl].
  destruct Hstep as [? ? ? ? ? ? b ? Hr|? ? ? ? ? ? b ? Hr|? ? ? ? ? ? ? Hr|? ? ? b ? ?|? ? b ? ?|? ? b ? ?| |? ? ? r b ? Hu];
    simpl in *.
  - apply resolve_source_eligible in Hr as [He [rtt ->]].
    assert (a <> b) by (intros <-; by eapply eligible_in_service). split; [by apply on_peer_other|set_solver].
  - apply resolve_source_eligible in Hr as [He ->].
    assert (a <> b) by (intros <-; by eapply eligible_in_service). split; [done|set_solver].
  - apply resolve_source_eligible in Hr as ->. done.
  - split; [apply on_peer_other; [set_solver|done]|set_solver].
  - split; [apply on_peer_other; [set_solver|done]|set_solver].
  - split; [apply on_peer_other; [set_solver|done]|set_solver].
  - split; [by apply health_check_out|done].
  - split; [|done]. unfold upsert_sibling in Hu. case_decide; [|done]. simpl in Hu.
    destruct (pr_peers _ !! _); injection Hu as <- <-; [done|].
    destruct Hout as (p & Hp & Hrest). exists p. split; [|done]. simpl. by apply lookup_app_l_Some.
Qed.

(** Resolution always ends, and leaves the digests alone. *)

Lemma digest_candidates_total now digests key siblings :
  (forall r, digests = Some r -> digests_ok r) -> is_Some (digest_candidates now digests key siblings).
Proof.
  intros Hd. induction siblings as [|s siblings [rest IH]]; cbn [digest_candidates]; [done|].
  destruct digests as [r|]; [|by rewrite IH].
  destruct (peer_might_have_url_total now (cp_id s.2) key r (Hd r eq_refl)) as [b ->]. cbn. by rewrite IH.
Qed.

Lemma settle_hit_digests m hit : hm_digests (settle_hit m hit).1 = hm_digests m.
Proof. by destruct hit as [[]|]. Qed.

Lemma query_siblings_digests now m url net m' r :
  query_siblings now m url net = Some (m', r) -> hm_digests m' = hm_digests m.
Proof.
  unfold query_siblings. destruct (sibling_caches _) as [|s siblings]; [by intros [= <- _]|].
  intros Hq. apply bind_Some in Hq as ([|c cs] & _ & [= Heq]); [by simplify_eq|].
  assert (Hm : m' = (m', r).1) by done. rewrite Hm, <- Heq. clear Hm Heq.
  case_match; [unfold query_siblings_htcp; destruct (hm_htcp m)|unfold query_siblings_icp; destruct (hm_icp m)];
    try done; case_decide; try done; apply settle_hit_digests.
Qed.

Lemma select_parent_digests m random url : hm_digests (select_parent m random url).1 = hm_digests m.
Proof. unfold select_parent. destruct (parent_caches _); [done|]. by destruct (select _ _ _ _). Qed.

Lemma resolve_source_total now m url net random :
  (forall r, hm_digests m = Some r -> digests_ok r) ->
  exists m' r, resolve_source now m url net random = Some (m', r) /\ hm_digests m' = hm_digests m.
Proof.
  intros Hd. unfold resolve_source. case_match; [by do 2 eexists|].
  destruct (query_siblings now m url net) as [[m1 sib]|] eqn:Hq; cbn [mbind option_bind].
  - apply query_siblings_digests in Hq. destruct sib as [a|]; [by do 2 eexists|].
    pose proof (select_parent_digests m1 random url) as Hs.
    destruct (select_parent m1 random url) as [m2 p]. do 2 eexists. split; [done|]. cbn in Hs. congruence.
  - exfalso. revert Hq. unfold query_siblings. destruct (sibling_caches _) as [|s siblings]; [done|].
    destruct (digest_candidates_total now (if hc_digest_enabled (hm_config m) then hm_digests m else None)
      (http_cache_key "GET" url) (s :: siblings)) as [cs ->]; [|done].
    intros r. case_match; [apply Hd|done].
Qed.

End Resolution.

(** ** Properties *)

(** A miss is only sent to a registered, healthy peer: a sibling for a sibling
    hit, a parent for a parent hit.  It goes to the origin only when the
    hierarchy is off, no parent is healthy, or the weighted strategy finds a
    total score of zero. *)
Theorem resolve_source_choice `{!HashOrder, !HashOrderLaws, !DefaultHasher, !Sha256, !AddrParser}
    now m url net random m' res (Hres : resolve_source now m url net random = Some (m', res)) :
  match res with
  | LocalHit => False
  | SiblingHit a => hc_enabled (hm_config m) = true /\ eligible Sibling (hm_registry m) a
  | ParentHit a => hc_enabled (hm_config m) = true /\ eligible Parent (hm_registry m) a
  | OriginRequired =>
      hc_enabled (hm_config m) = false \/ parent_caches (hm_registry m) = [] \/
      hm_strategy m = WeightedStrategy /\ feq (total_score (parent_caches (hm_registry m))) f64_zero = true
  end.
Proof.
  pose proof (resolve_source_eligible _ _ _ _ _ _ _ Hres) as He. revert Hres. unfold resolve_source.
  destruct (hc_enabled _); simpl; [|intros [= <- <-]; by left].
  destruct (query_siblings _ _ _ _) as [[m1 o]|] eqn:Hq; [|done]. simpl. destruct o as [a|].
  - intros [= <- <-]. by destruct He.
  - apply query_siblings_None in Hq as ->. destruct (select_parent _ _ _) as [m2 o] eqn:Hp.
    intros [= <- <-]. destruct o as [a|]; [by destruct He|]. right. by eapply select_parent_none.
Qed.

(** When every sibling that is asked answers from its cache, a sibling hit
    names a sibling whose cache holds the url. *)
Theorem sibling_hit_honest `{!HashOrder, !HashOrderLaws, !DefaultHasher, !Sha256, !AddrParser}
    now m url net random m' a P number has
    (Hclient : sibling_client m = Some (P, number))
    (Hnumber : (number <= u32_max)%N)
    (Hurl : @sp_admissible P url = true)
    (Hnet : answered P number url has net)
    (Hres : resolve_source now m url net random = Some (m', SiblingHit a)) :
  exists p addr, pr_heap (hm_registry m) !! a = Some p /\ pc_peer_type (cp_config p) = Sibling /\
    sibling_address m p = Some addr /\ has addr url = true.
Proof.
  unfold resolve_source in Hres. destruct (hc_enabled _); [|done]. simpl in Hres.
  destruct (query_siblings _ _ _ _) as [[m1 [b|]]|] eqn:Hq; simpl in Hres;
    [|by destruct (select_parent m1 random url) as [? []]|done].
 injection Hres as -> ->. apply query_siblings_Some in Hq as (cands & Hc & Hq).
  destruct (query_round_spec m url net cands P number has Hclient Hnumber Hurl Hnet) as [Hs _].
  destruct (Hs a) as (p & addr & Hin & Ha & Hh); [by rewrite Hq|].
  apply Hc, healthy_by_type_elem in Hin as (_ & Hp & _ & Ht). by exists p, addr.
Qed.

(** And conversely, with digests off and no more siblings than a round may
    ask, if some healthy sibling whose address is a plain socket address holds
    the url then the miss is resolved to a sibling. *)
Theorem sibling_hit_found `{!HashOrder, !HashOrderLaws, !DefaultHasher, !Sha256, !AddrParser}
    now m url net random P number has a p addr
    (Henabled : hc_enabled (hm_config m) = true)
    (Hdigest : hc_digest_enabled (hm_config m) = false)
    (Hclient : sibling_client m = Some (P, number))
    (Hnumber : (number <= u32_max)%N)
    (Hurl : @sp_admissible P url = true)
    (Hnet : answered P number url has net)
    (Hfew : (N.of_nat (length (sibling_caches (hm_registry m))) <= hc_max_sibling_queries (hm_config m))%N)
    (Hin : (a, p) ∈ sibling_caches (hm_registry m))
    (Haddr : sibling_address m p = Some addr)
    (Hplain : parse_addr addr = Some addr)
    (Hhas : has addr url = true) :
  exists m' b, resolve_source now m url net random = Some (m', SiblingHit b).
Proof.
  unfold resolve_source. rewrite Henabled. simpl. unfold query_siblings. rewrite Hdigest.
  destruct (sibling_caches _) as [|s l] eqn:Hl; [set_solver|]. rewrite <-Hl in *.
  rewrite digest_candidates_off. simpl. rewrite Hl. rewrite <-Hl.
  fold (query_round m url net (sibling_caches (hm_registry m))).
  destruct (query_round_spec m url net (sibling_caches (hm_registry m)) P number has Hclient Hnumber Hurl Hnet)
    as [_ Hc].
  destruct (query_round m url net _) as [m1 o] eqn:Hq.
  destruct (Hc (a, p) addr Hin Haddr) as [b Hb]; [|done|simpl in Hb; subst o; by exists m1, b].
  unfold sibling_addresses, sibling_address in *.
  assert (Htake : forall (f : peer_ref -> option SocketAddr), f (a, p) = Some addr ->
    addr ∈ take (N.to_nat (hc_max_sibling_queries (hm_config m))) (omap f (sibling_caches (hm_registry m)))).
  { intros f Hf. rewrite take_ge.
    - apply list_elem_of_omap. by exists (a, p).
    - pose proof (length_omap_le f (sibling_caches (hm_registry m))). lia. }
  destruct (hc_use_htcp _); apply Htake; simpl; [|by rewrite Haddr]. injection Haddr as ->. done.
Qed.

(** A peer taken out of service never comes back: its health is restored only
    when its error rate drops, and the rate cannot drop because an unhealthy
    peer is handed no request.  One failed first request is enough. *)
Theorem unhealthy_peer_stays_out `{!HashOrder, !HashOrderLaws, !DefaultHasher, !Sha256, !AddrParser}
    m fl m' fl' a p
    (Hpeer : pr_heap (hm_registry m) !! a = Some p)
    (Hunhealthy : cp_healthy p = false)
    (Hrate : flt (error_rate (cp_stats p)) (f64_of_decimal false 1 (-1)) = false)
    (Hidle : a ∉ fl)
    (Hsteps : rtc h_step (m, fl) (m', fl')) :
  (exists p', pr_heap (hm_registry m') !! a = Some p' /\ cp_healthy p' = false) /\
  forall now url net random m'' res,
    resolve_source now m' url net random = Some (m'', res) -> res <> SiblingHit a /\ res <> ParentHit a.
Proof.
  assert (Hinv : out_of_service (cp_stats p) (hm_registry m') a /\ a ∉ fl').
  { change (out_of_service (cp_stats p) (hm_registry (m', fl').1) a /\ a ∉ (m', fl').2).
    apply (rtc_preserved h_step (fun st => out_of_service (cp_stats p) (hm_registry st.1) a /\ a ∉ st.2)
             (m, fl)); [|done|split; [by exists p|done]].
    intros st st' Hstep. by apply h_step_out. }
  destruct Hinv as [Hout _]. split; [destruct Hout as (p' & ? & ? & _); by exists p'|].
  intros now url net random m'' res Hres. apply resolve_source_eligible in Hres.
  split; intros ->; destruct Hres as [He _]; by eapply eligible_in_service.
Qed.

(** ** Witnesses *)

#[local] Instance listed_order : HashOrder := map_to_list.
#[local] Instance listed_order_laws : HashOrderLaws.
Proof. intros m. reflexivity. Qed.
#[local] Instance length_hasher : DefaultHasher := fun u => str_len u.
#[local] Instance plain_sha : Sha256 := {| sha256 s := s; hex_encode s := s |}.
#[local] Instance any_addr : AddrParser := fun s => Some s.

Definition demo_config : HierarchyConfig :=
  {| hc_enabled := true; hc_icp_timeout := 100; hc_parent_timeout := 5; hc_max_sibling_queries := 10;
     hc_retry_parents := true; hc_use_htcp := false; hc_digest_enabled := false |}.

Definition demo_peer (t : PeerType) (host : string) : PeerConfig :=
  {| pc_host := host; pc_port := 3128; pc_peer_type := t; pc_weight := f64_of_N 1;
     pc_icp_port := Some 3130%N; pc_max_connections := 100 |}.

Definition demo_registry : PeerRegistry :=
  (add_peer 0 (demo_peer Parent "10.0.0.3") (add_peer 0 (demo_peer Sibling "10.0.0.2") PeerRegistry_new).1).1.

Definition demo_manager : HierarchyManager :=
  {| hm_config := demo_config; hm_registry := demo_registry; hm_strategy := RoundRobinStrategy 0;
     hm_icp := Some (IcpClient_new "10.0.0.1:5000"); hm_htcp := None; hm_digests := None;
     hm_htcp_peer_port := 4827 |}.

Definition demo_has (a : SocketAddr) (url : string) : bool := String.eqb url "http://a/".

Definition demo_net (url : string) (a : SocketAddr) : Exchange :=
  {| ex_send := None;
     ex_inbox := [Ok (default EmptyString
       (icp_serve (demo_has a) (icp_encode (icp_query 1 url "10.0.0.1:5000")) "10.0.0.1:5000"), a)];
     ex_latency := 3000000 |}.

Lemma demo_answered url : icp_admissible url = true ->
  answered (icp_protocol "10.0.0.1:5000") 1 url demo_has (demo_net url).
Proof.
  intros Hu a. split; [done|]. eexists [], _, []. split; [done|]. split; [|reflexivity].
  cbn [sp_serve sp_query icp_protocol]. by rewrite icp_serve_query.
Qed.

Definition demo_resolve (url : string) : option (HierarchyManager * HierarchyResult) :=
  resolve_source 0 demo_manager url (demo_net url) f64_zero.

Lemma resolve_source_choice_witness :
  snd <$> demo_resolve "http://b/" = Some (ParentHit 1) /\ eligible Parent demo_registry 1.
Proof.
  split; [vm_compute; reflexivity|].
  assert (H : demo_resolve "http://b/" =
    Some ((default (demo_manager, LocalHit) (demo_resolve "http://b/")).1, ParentHit 1))
    by (vm_compute; reflexivity).
  destruct (resolve_source_choice 0 demo_manager "http://b/" (demo_net "http://b/") f64_zero _ _ H) as [_ He].
  exact He.
Defined.

Lemma sibling_hit_honest_witness :
  snd <$> demo_resolve "http://a/" = Some (SiblingHit 0) /\
  exists p addr, pr_heap demo_registry !! 0 = Some p /\ pc_peer_type (cp_config p) = Sibling /\
    sibling_address demo_manager p = Some addr /\ demo_has addr "http://a/" = true.
Proof.
  split; [vm_compute; reflexivity|].
  assert (H : demo_resolve "http://a/" =
    Some ((default (demo_manager, LocalHit) (demo_resolve "http://a/")).1, SiblingHit 0))
    by (vm_compute; reflexivity).
  apply (sibling_hit_honest 0 demo_manager "http://a/" (demo_net "http://a/") f64_zero
           (default (demo_manager, LocalHit) (demo_resolve "http://a/")).1 0
           (icp_protocol "10.0.0.1:5000") 1 demo_has); [reflexivity|discriminate|reflexivity| |exact H].
  apply demo_answered. reflexivity.
Defined.

Lemma sibling_hit_found_witness :
  exists m' b, resolve_source 0 demo_manager "http://a/" (demo_net "http://a/") f64_zero
               = Some (m', SiblingHit b).
Proof.
  apply (sibling_hit_found 0 demo_manager "http://a/" (demo_net "http://a/") f64_zero
           (icp_protocol "10.0.0.1:5000") 1 demo_has 0 (CachePeer_new 0 (demo_peer Sibling "10.0.0.2"))
           "10.0.0.2:3130").
  1-4: reflexivity || discriminate.
  - reflexivity.
  - apply demo_answered. reflexivity.
  - vm_compute. discriminate.
  - apply healthy_by_type_elem. split; [|split; [|split]; reflexivity].
    exists "sibling:10.0.0.2:3128"%string. vm_compute. reflexivity.
  - reflexivity.
  - reflexivity.
  - reflexivity.
Defined.

(** The parent fails its first request. *)
Definition demo_failed : HierarchyManager := record_peer_error 9 1 demo_manager.

Lemma unhealthy_peer_stays_out_witness :
  exists p', pr_heap (hm_registry (with_registry demo_failed (health_check (hm_registry demo_failed)))) !! 1 = Some p' /\
    cp_healthy p' = false.
Proof.
  apply (unhealthy_peer_stays_out demo_failed []
           (with_registry demo_failed (health_check (hm_registry demo_failed))) [] 1
           (peer_failed 9 (CachePeer_new 0 (demo_peer Parent "10.0.0.3")))).
  - reflexivity.
  - vm_compute. reflexivity.
  - vm_compute. reflexivity.
  - apply not_elem_of_nil.
  - eapply rtc_l; [apply hs_health|apply rtc_refl].
Defined.
