(* ===== verification/Discovery.v ===== *)
(** * Peer configuration and discovery (src/proxy/src/hierarchy_config.rs,
      peer_discovery.rs)

    How the hierarchy is built from the environment and the peers file, how a
    reload replaces the static peers, and the announcements siblings multicast:
    who they are, how to reach them and, now and then, the digest of their cache.

    The environment, the file read, the JSON codecs and the sockets' outcomes are
    parameters; the shared digest registry is the one in the manager. *)

From Stdlib Require Import Ascii String NArith ZArith Lia.
From Stdlib Require Import Floats.SpecFloat.
From stdpp Require Import base option gmap sets strings pretty numbers countable list.
From S2P Require Import Prelude Float64 Utf8 Bytes CacheDigest PeerProtocols Peers Hierarchy.

(** ** Static peers *)

Definition with_icp_port (port : option N) (c : PeerConfig) : PeerConfig :=
  {| pc_host := pc_host c; pc_port := pc_port c; pc_peer_type := pc_peer_type c;
     pc_weight := pc_weight c; pc_icp_port := port; pc_max_connections := pc_max_connections c |}.

Definition parse_peer_list (value : string) (t : PeerType) (default_icp_port : option N)
    : list PeerConfig :=
  omap (fun entry =>
          match peer_parse_from_string entry t with
          | Ok config =>
              Some (match pc_icp_port config with
                    | None => with_icp_port default_icp_port config
                    | Some _ => config
                    end)
          | Err _ => None
          end)
    (filter (fun s => str_is_empty s = false) (trim <$> split_on "," value)).

Definition htcp_peer_port (env : Env) : N := env_parse parse_u16 env "HTCP_PEER_PORT" 4827%N.

Definition sibling_default_query_port (env : Env) (use_htcp : bool) : N :=
  if use_htcp then htcp_peer_port env else env_parse parse_u16 env "ICP_PEER_PORT" 3130%N.

Definition env_non_empty (env : Env) (name : string) : option string :=
  s ← env name; if str_is_empty s then None else Some s.

Definition peers_file_path (env : Env) : option string :=
  match env_non_empty env "CACHE_PEERS_PATH" with
  | Some p => Some p
  | None => env_non_empty env "HIERARCHY_PEERS_PATH"
  end.

Record PeersFile := {
  pf_parents : list string;
  pf_siblings : list string;
}.

Inductive PeerConfigSource := FromFile | FromEnv.

(** The file system and the JSON parser. *)
Class PeersFileReader := {
  read_to_string : string -> option string;
  peers_from_json : string -> option PeersFile;
}.

Inductive PeersFileError := ReadFailed (path : string) | ParseFailed (path : string).

Definition file_configs (port : N) (file : PeersFile) : list PeerConfig :=
  (pf_parents file ≫= fun entry => parse_peer_list entry Parent None) ++
  (pf_siblings file ≫= fun entry => parse_peer_list entry Sibling (Some port)).

Definition env_configs (env : Env) (port : N) : list PeerConfig :=
  match env "CACHE_PARENTS"%string with Some v => parse_peer_list v Parent None | None => [] end ++
  match env "CACHE_SIBLINGS"%string with Some v => parse_peer_list v Sibling (Some port) | None => [] end.

Definition load_static_peer_configs `{!PeersFileReader} (env : Env) (use_htcp : bool)
    : result (list PeerConfig * PeerConfigSource) PeersFileError :=
  let port := sibling_default_query_port env use_htcp in
  match peers_file_path env with
  | Some path =>
      match read_to_string path with
      | None => Err (ReadFailed path)
      | Some content =>
          match peers_from_json content with
          | None => Err (ParseFailed path)
          | Some file => Ok (file_configs port file, FromFile)
          end
      end
  | None => Ok (env_configs env port, FromEnv)
  end.

Definition reload_static_peers `{!PeersFileReader} (env : Env) (now : N) (use_htcp : bool)
    (r : PeerRegistry) : PeerRegistry * result (ReplaceStaticStats * PeerConfigSource) PeersFileError :=
  match load_static_peer_configs env use_htcp with
  | Err e => (r, Err e)
  | Ok (configs, source) =>
      let '(r', stats) := replace_static_peers now configs r in
      (r', Ok (stats, source))
  end.

Definition load_hierarchy_config (env : Env) : HierarchyConfig :=
  {| hc_enabled := env_flag_default_off env "HIERARCHY_ENABLED";
     hc_icp_timeout := env_parse parse_u64 env "ICP_TIMEOUT_MS" 100%N * 1000000;
     hc_parent_timeout := from_secs (env_parse parse_u64 env "PARENT_TIMEOUT_SECONDS" 5%N);
     hc_max_sibling_queries := env_parse parse_usize env "ICP_MAX_SIBLING_QUERIES" 10%N;
     hc_retry_parents := true;
     hc_use_htcp := env_flag_default_off env "HIERARCHY_USE_HTCP";
     hc_digest_enabled := env_flag_default_on env "HIERARCHY_DIGEST_ENABLED" |}.

Inductive BuildError := StaticPeers (e : PeersFileError) | BindFailed (e : string).

(** [bound] is the outcome of binding the client's socket. *)
Definition build_hierarchy_manager `{!PeersFileReader} (env : Env) (now : N) (config : HierarchyConfig)
    (bound : result SocketAddr string) : result (option HierarchyManager) BuildError :=
  if negb (hc_enabled config) then Ok None
  else
    let digests :=
      DigestRegistry_new (env_parse parse_usize env "HIERARCHY_DIGEST_BITS" 65536%N)
        (env_parse (parse_uint u8_max) env "HIERARCHY_DIGEST_HASHES" 4%N)
        (from_secs (env_parse parse_u64 env "HIERARCHY_DIGEST_REMOTE_TTL_SECONDS" 300%N)) in
    match load_static_peer_configs env (hc_use_htcp config) with
    | Err e => Err (StaticPeers e)
    | Ok (configs, _) =>
        let registry := foldl (fun r c => (add_peer now c r).1) PeerRegistry_new configs in
        let strategy := parse_strategy (default "round-robin"%string (env "CACHE_SELECTION_STRATEGY"%string)) in
        let manager :=
          {| hm_config := config; hm_registry := registry; hm_strategy := strategy; hm_icp := None;
             hm_htcp := None; hm_digests := Some digests; hm_htcp_peer_port := htcp_peer_port env |} in
        match (if hc_use_htcp config then init_htcp bound manager else init_icp bound manager) with
        | Ok m => Ok (Some m)
        | Err e => Err (BindFailed e)
        end
    end.

Definition should_start_icp_server (env : Env) (config : HierarchyConfig) : bool :=
  hc_enabled config && negb (hc_use_htcp config) && env_flag_default_on env "ICP_SERVER_ENABLED".

Definition should_start_htcp_server (env : Env) (config : HierarchyConfig) : bool :=
  hc_enabled config && hc_use_htcp config && env_flag_default_on env "HTCP_SERVER_ENABLED".

(** ** Announcements *)

Record PeerDiscoveryConfig := {
  pd_enabled : bool;
  pd_multicast_addr : string;
  pd_announce_interval : N;
  pd_node_id : string;
  pd_advertise_host : string;
  pd_http_port : N;
  pd_icp_port : N;
  pd_weight : f64;
  pd_include_digest_every : N;
}.

Definition PeerDiscoveryConfig_from_env (env : Env) (http_port icp_port : N) : PeerDiscoveryConfig :=
  let host :=
    match env "PEER_DISCOVERY_HOST"%string with
    | Some h => h
    | None => default "127.0.0.1"%string (env "HOSTNAME"%string)
    end in
  {| pd_enabled := env_flag_default_off env "PEER_DISCOVERY_ENABLED";
     pd_multicast_addr := default "239.255.255.1:3131"%string (env "PEER_DISCOVERY_MULTICAST"%string);
     pd_announce_interval := from_secs (env_parse parse_u64 env "PEER_DISCOVERY_INTERVAL_SECONDS" 30%N);
     pd_node_id :=
       default (host +:+ ":" +:+ pretty http_port) (env "PEER_DISCOVERY_NODE_ID"%string);
     pd_advertise_host := host; pd_http_port := http_port; pd_icp_port := icp_port;
     pd_weight := env_parse parse_f64 env "PEER_DISCOVERY_WEIGHT" (f64_of_N 1);
     pd_include_digest_every := env_parse parse_u64 env "PEER_DISCOVERY_DIGEST_EVERY" 5%N |}.

Record PeerAnnouncement := {
  pa_node_id : string;
  pa_host : string;
  pa_http_port : N;
  pa_icp_port : N;
  pa_weight : f64;
  pa_digest_b64 : option string;
}.

Class AnnouncementJson := {
  ann_to_json : PeerAnnouncement -> string;
  ann_from_json : string -> option PeerAnnouncement;
}.

Definition is_finite (x : f64) : bool :=
  match x with S754_zero _ | S754_finite _ _ _ => true | _ => false end.

(** [serde_json]: an announcement with a finite weight is read back; a text cut
    short is no JSON object; the text of a string field is in the document. *)
Class AnnouncementJsonLaws (J : AnnouncementJson) := {
  ann_inverse a : is_finite (pa_weight a) = true -> ann_from_json (ann_to_json a) = Some a;
  ann_cut a n : n < String.length (ann_to_json a) -> ann_from_json (str_take n (ann_to_json a)) = None;
  ann_digest_in a d : pa_digest_b64 a = Some d -> (str_len d <= str_len (ann_to_json a))%N;
  ann_utf8 a : is_utf8 (ann_to_json a);
}.

Section Discovery.
Context `{!AnnouncementJson, !Base64}.

(** One tick of the announcing task: the datagram it sends. *)
Definition announce (cfg : PeerDiscoveryConfig) (tick : N) (digests : DigestRegistry) : string :=
  ann_to_json
    {| pa_node_id := pd_node_id cfg; pa_host := pd_advertise_host cfg;
       pa_http_port := pd_http_port cfg; pa_icp_port := pd_icp_port cfg; pa_weight := pd_weight cfg;
       pa_digest_b64 :=
         if (0 <? pd_include_digest_every cfg)%N && (tick mod pd_include_digest_every cfg =? 0)%N then
           Some (local_snapshot_base64 digests)
         else None |}.

Definition announced_config (a : PeerAnnouncement) : PeerConfig :=
  {| pc_host := pa_host a; pc_port := pa_http_port a; pc_peer_type := Sibling;
     pc_weight := pa_weight a; pc_icp_port := Some (pa_icp_port a); pc_max_connections := 100 |}.

Definition listen_buffer : nat := 2048.

(** The listening task on one datagram, cut at its buffer; [None] is a panic. *)
Definition listen (cfg : PeerDiscoveryConfig) (now : N) (datagram : string)
    (st : PeerRegistry * DigestRegistry) : option (PeerRegistry * DigestRegistry) :=
  let text := str_take listen_buffer datagram in
  if negb (String.eqb (from_utf8_lossy text) text) then Some st
  else
    match ann_from_json text with
    | None => Some st
    | Some a =>
        if String.eqb (pa_node_id a) (pd_node_id cfg) then Some st
        else
          '(r, peer) ← upsert_sibling now (announced_config a) st.1;
          p ← pr_heap r !! peer;
          Some (r, match pa_digest_b64 a with
                   | Some d => update_remote now (cp_id p) d st.2
                   | None => st.2
                   end)
    end.

End Discovery.

(** ** Lemmas *)

(** Standard base64 with padding: four characters for each three bytes begun. *)
Class Base64Length (B : Base64) := {
  base64_length s : str_len (base64_encode s) = (4 * div_ceil (str_len s) 3)%N;
}.

Definition carries_digest (cfg : PeerDiscoveryConfig) (tick : N) : bool :=
  (0 <? pd_include_digest_every cfg)%N && (tick mod pd_include_digest_every cfg =? 0)%N.

Definition announced_id (cfg : PeerDiscoveryConfig) : string :=
  "sibling:" +:+ pd_advertise_host cfg +:+ ":" +:+ pretty (pd_http_port cfg).

(** The siblings' registry after an upsert. *)
Lemma upsert_sibling_spec now config r :
  registry_ok r -> pc_peer_type config = Sibling ->
  exists r' a p,
    upsert_sibling now config r = Some (r', a) /\ pr_peers r' !! peer_id config = Some a /\
    pr_heap r' !! a = Some p /\ peer_ok (peer_id config) p /\
    match pr_peers r !! peer_id config with
    | Some _ => r' = r
    | None => p = CachePeer_new now config
    end.
Proof.
  intros Hr Ht. unfold upsert_sibling. rewrite decide_True by done. simpl.
  destruct (pr_peers r !! peer_id config) as [a|] eqn:Ha.
  - destruct (ro_peers r Hr _ a Ha) as (p & Hp & Hok). by exists r, a, p.
  - eexists _, _, (CachePeer_new now config). split; [done|]. simpl.
    rewrite lookup_insert_eq, list_lookup_middle by done. by split_and!.
Qed.

(** ** Properties *)

(** An announcement that fits the listener's buffer makes the announcing node
    a registered sibling of the listener, once: a known sibling keeps its shared
    peer.  If the announcement carries the digest of the node's cache, then until
    it ages out the listener never excludes the node for a key it holds. *)
Theorem announcement_received {J : AnnouncementJson} {B : Base64} {JL : AnnouncementJsonLaws J}
    {BL : Base64Laws B} {S : Sha256}
    them us tick now later theirs r ours
    (Hr : registry_ok r)
    (Hfinite : is_finite (pd_weight them) = true)
    (Hother : pd_node_id them <> pd_node_id us)
    (Hfits : String.length (announce them tick theirs) <= listen_buffer)
    (Htheirs : digest_registry_ok theirs)
    (Hbits : dr_bit_count ours = dr_bit_count theirs)
    (Hhashes : dr_hash_count ours = dr_hash_count theirs)
    (Hage : (later <= now + dr_remote_ttl ours)%N) :
  exists r' ours',
    listen us now (announce them tick theirs) (r, ours) = Some (r', ours') /\
    (exists a p, get_peer (announced_id them) r' = Some a /\ pr_heap r' !! a = Some p /\
       peer_ok (announced_id them) p) /\
    (is_Some (get_peer (announced_id them) r) -> r' = r) /\
    (carries_digest them tick = true -> forall key, holds_key key (local_digest theirs) ->
       peer_might_have_url later (announced_id them) key ours' = Some (Some true)).
Proof.
  unfold listen. rewrite str_take_le by done. unfold announce in *.
  set (ann := {| pa_node_id := pd_node_id them |}) in *.
  rewrite (ann_utf8 ann), String.eqb_refl. cbn [negb]. rewrite ann_inverse by done.
  replace (String.eqb (pa_node_id ann) (pd_node_id us)) with false by (symmetry; by apply String.eqb_neq).
  destruct (upsert_sibling_spec now (announced_config ann) r Hr eq_refl) as (r' & a & p & Hu & Ha & Hp & Hok & Hm).
  change (peer_id (announced_config ann)) with (announced_id them) in *.
  cbn [fst snd]. rewrite Hu. simpl. rewrite Hp. simpl. eexists _, _. split; [done|]. split_and!.
  - by exists a, p.
  - unfold get_peer. intros [b Hb]. by rewrite Hb in Hm.
  - unfold carries_digest. intros Hc key Hk. rewrite Hc. destruct Hok as [-> _].
    by apply snapshot_received.
Qed.

(** With a digest of more than 12288 bits (the default is 65536) an
    announcement that carries the digest is longer than the listener's buffer,
    is cut, and is ignored: no digest ever reaches a sibling. *)
Theorem digest_announcement_lost {J : AnnouncementJson} {B : Base64} {JL : AnnouncementJsonLaws J}
    {BL : Base64Length B} them us tick now theirs st
    (Hcarries : carries_digest them tick = true)
    (Htheirs : digest_registry_ok theirs)
    (Hbits : (12289 <= dr_bit_count theirs)%N) :
  listen us now (announce them tick theirs) st = Some st.
Proof.
  unfold listen, announce. fold (carries_digest them tick). rewrite Hcarries.
  set (ann := {| pa_node_id := pd_node_id them |}).
  case_match; [done|]. rewrite ann_cut; [done|].
  assert (Hd : (str_len (local_snapshot_base64 theirs) <= str_len (ann_to_json ann))%N)
    by (by apply ann_digest_in).
  destruct Htheirs as ([_ Hlen] & Hb & _).
  unfold local_snapshot_base64, encode_base64 in Hd. rewrite base64_length, Hlen, Hb in Hd.
  unfold div_ceil, str_len, listen_buffer in *.
  assert (1537 <= (dr_bit_count theirs + 8 - 1) / 8)%N by (apply N.div_le_lower_bound; lia).
  assert (513 <= (((dr_bit_count theirs + 8 - 1) / 8) + 3 - 1) / 3)%N by (apply N.div_le_lower_bound; lia).
  lia.
Qed.

(** ** Witnesses: a self-delimiting stand-in for JSON *)

#[local] Instance spec_float_eq_dec : EqDecision spec_float.
Proof. solve_decision. Defined.

#[local] Instance spec_float_countable : Countable spec_float.
Proof.
  refine (inj_countable'
    (fun x : spec_float => match x with
      | S754_zero s => inl s | S754_infinity s => inr (inl s)
      | S754_nan => inr (inr (inl tt)) | S754_finite s m e => inr (inr (inr (s, m, e))) end)
    (fun y : bool + (bool + (unit + (bool * positive * Z))) => match y with
      | inl s => S754_zero s | inr (inl s) => S754_infinity s
      | inr (inr (inl _)) => S754_nan | inr (inr (inr (s, m, e))) => S754_finite s m e end) _).
  by intros [].
Defined.

#[local] Instance PeerAnnouncement_eq_dec : EqDecision PeerAnnouncement.
Proof. solve_decision. Defined.

#[local] Instance PeerAnnouncement_countable : Countable PeerAnnouncement.
Proof.
  refine (inj_countable'
    (fun a => (pa_node_id a, pa_host a, pa_http_port a, pa_icp_port a, pa_weight a, pa_digest_b64 a))
    (fun '(n, h, p, i, w, d) => {| pa_node_id := n; pa_host := h; pa_http_port := p; pa_icp_port := i;
       pa_weight := w; pa_digest_b64 := d |}) _).
  by intros [].
Defined.

Fixpoint filler (s : string) : string :=
  match s with EmptyString => EmptyString | String _ s' => String "x" (filler s') end.

Definition plain_text (a : PeerAnnouncement) : string :=
  pos_text (encode a) (filler (default EmptyString (pa_digest_b64 a))).

#[local] Instance plain_json : AnnouncementJson := {|
  ann_to_json := plain_text;
  ann_from_json s :=
    a ← text_pos s ≫= decode;
    if String.eqb s (plain_text a) then Some a else None;
|}.

(** A prefix either stops inside the number or shows the same one. *)
Lemma text_pos_take p t n :
  text_pos (str_take n (pos_text p t)) = None \/ text_pos (str_take n (pos_text p t)) = Some p.
Proof.
  revert p; induction n as [|n IH]; intros p; [by left; destruct p|].
  destruct p as [p|p|]; simpl; [destruct (IH p) as [-> | ->]; auto..|by right].
Qed.

Lemma filler_ascii s : is_ascii (filler s) = true.
Proof. unfold is_ascii. induction s as [|c s IH]; [done|]. exact IH. Qed.

Lemma filler_length s : String.length (filler s) = String.length s.
Proof. induction s as [|c s IH]; simpl; congruence. Qed.

Lemma pos_text_ascii p t : is_ascii t = true -> is_ascii (pos_text p t) = true.
Proof. intros Ht. induction p as [p IH|p IH|]; exact IH || exact Ht. Qed.

Lemma pos_text_length p t : String.length t <= String.length (pos_text p t).
Proof. induction p as [p IH|p IH|]; simpl; lia. Qed.

#[local] Instance plain_json_laws : AnnouncementJsonLaws plain_json.
Proof.
  split; cbn [ann_to_json ann_from_json plain_json].
  - intros a _. assert (text_pos (plain_text a) = Some (encode a)) as -> by apply text_pos_text. simpl. rewrite decode_encode. simpl.
    by rewrite String.eqb_refl.
  - intros a n Hn. set (t := str_take n (plain_text a)).
    destruct (text_pos t ≫= decode) as [b|] eqn:Hb; [|done]. cbn [mbind option_bind].
    destruct (String.eqb_spec t (plain_text b)) as [He|]; [|done]. exfalso.
    assert (b = a) as ->.
    { unfold t, plain_text in Hb. destruct (text_pos_take (encode a) (filler (default EmptyString (pa_digest_b64 a))) n) as [Ht|Ht];
        rewrite Ht in Hb; [done|]. simpl in Hb. rewrite decode_encode in Hb. congruence. }
    pose proof (str_take_length n (plain_text a)) as Hl. fold t in Hl. rewrite He in Hl. lia.
  - intros a d Hd. unfold plain_text. rewrite Hd. simpl.
    pose proof (pos_text_length (encode a) (filler d)) as Hl. rewrite filler_length in Hl.
    unfold str_len. lia.
  - intros a. apply is_ascii_utf8, pos_text_ascii, filler_ascii.
Qed.

#[local] Instance plain_base64 : Base64 := {|
  base64_encode s := s; base64_decode s := Some s
|}.

#[local] Instance plain_base64_laws : Base64Laws plain_base64.
Proof. by split. Qed.

#[local] Instance padded_sha : Sha256 := {|
  sha256 s := str_take 32 (s +:+ "0123456789abcdef0123456789abcdef");
  hex_encode s := s
|}.

Definition demo_node (host : string) : PeerDiscoveryConfig :=
  PeerDiscoveryConfig_from_env
    (fun name => if String.eqb name "PEER_DISCOVERY_HOST" then Some host else None) 3128 3130.

Definition demo_theirs : DigestRegistry :=
  default (DigestRegistry_new 64 2 300)
    (insert_keys ["k"%string] (DigestRegistry_new 64 2 300)).

Lemma demo_theirs_ok : digest_registry_ok demo_theirs /\ holds_key "k" (local_digest demo_theirs).
Proof.
  destruct (insert_keys_ok ["k"%string] (DigestRegistry_new 64 2 300)) as (t & Ht & Hok & _ & Hk & _).
  { split_and!; [by apply CacheDigest_new_ok|done|done]. }
  unfold demo_theirs. rewrite Ht. split; [done|]. apply Hk. set_solver.
Qed.

Lemma announcement_received_witness :
  exists r' ours',
    listen (demo_node "b") 7 (announce (demo_node "a") 10 demo_theirs)
      (PeerRegistry_new, DigestRegistry_new 64 2 300) = Some (r', ours') /\
    peer_might_have_url 9 "sibling:a:3128" "k" ours' = Some (Some true).
Proof.
  destruct demo_theirs_ok as [Hok Hk].
  destruct (announcement_received (demo_node "a") (demo_node "b") 10 7 9 demo_theirs PeerRegistry_new
              (DigestRegistry_new 64 2 300)) as (r' & ours' & Hl & _ & _ & Hd).
  - split; simpl; set_solver.
  - reflexivity.
  - discriminate.
  - apply Nat.leb_le. vm_compute. reflexivity.
  - exact Hok.
  - vm_compute. reflexivity.
  - vm_compute. reflexivity.
  - vm_compute. discriminate.
  - exists r', ours'. split; [exact Hl|]. apply (Hd eq_refl). exact Hk.
Defined.

(** A stand-in with the length of base64. *)
#[local] Instance long_base64 : Base64 := {|
  base64_encode s :=
    String.string_of_list_ascii (replicate (N.to_nat (4 * div_ceil (str_len s) 3)) "A"%char);
  base64_decode s := Some s
|}.

#[local] Instance long_base64_length : Base64Length long_base64.
Proof.
  split. intros s. cbn [base64_encode long_base64]. unfold str_len at 1.
  rewrite string_of_list_ascii_length, length_replicate. by rewrite N2Nat.id.
Qed.

Lemma digest_announcement_lost_witness :
  listen (demo_node "b") 7 (announce (demo_node "a") 5 (DigestRegistry_new 65536 4 300))
    (PeerRegistry_new, DigestRegistry_new 65536 4 300) =
  Some (PeerRegistry_new, DigestRegistry_new 65536 4 300).
Proof.
  apply digest_announcement_lost.
  - reflexivity.
  - split; [by apply CacheDigest_new_ok|split; reflexivity].
  - cbn [dr_bit_count DigestRegistry_new]. lia.
Defined.
