(* ===== verification/ThreatScore.v ===== *)
(** * The threat score cache (src/proxy/src/threat_score_cache.rs)

    Scores polled from the machine-learning worker, by domain, client address and
    pair of both, and how they change a policy decision.

    The text [format!("{:.2}")] gives of a score ([ScoreText]) and the outcome of
    the HTTP poll are parameters. *)

From Stdlib Require Import Ascii String NArith ZArith Lia.
From Stdlib Require Import Floats.SpecFloat.
From stdpp Require Import base option gmap strings numbers list.
From S2P Require Import Prelude Float64 Acl.

Class ScoreText := score_text : f64 -> string.

Record ThreatScoreHit := {
  th_score : f64;
  th_severity : string;
  th_model : string;
  th_entity_type : string;
  th_entity_id : string;
}.

Record ThreatScoreConfig := {
  ts_enabled : bool;
  ts_poll_url : string;
  ts_poll_interval : N;
  ts_cache_ttl : N;
  ts_warn_threshold : f64;
  ts_block_threshold : f64;
}.

Definition ThreatScoreConfig_from_env (env : Env) : ThreatScoreConfig :=
  {| ts_enabled :=
       match env "THREAT_SCORE_ENABLED"%string with
       | Some v => bool_decide (to_ascii_lowercase v ∈ ["1"; "true"; "yes"; "on"]%string)
       | None => false
       end;
     ts_poll_url := default "http://127.0.0.1:8091/api/threat-scores"%string (env "THREAT_SCORE_POLL_URL"%string);
     ts_poll_interval := from_secs (env_parse parse_u64 env "THREAT_SCORE_POLL_INTERVAL_SECS" 60%N);
     ts_cache_ttl := from_secs (env_parse parse_u64 env "THREAT_SCORE_CACHE_TTL_SECS" 300%N);
     ts_warn_threshold := env_parse parse_f64 env "THREAT_SCORE_WARN_THRESHOLD" (f64_of_decimal false 7 (-1));
     ts_block_threshold := env_parse parse_f64 env "THREAT_SCORE_BLOCK_THRESHOLD" (S754_zero false) |}.

Definition block_enabled (c : ThreatScoreConfig) : bool := flt (S754_zero false) (ts_block_threshold c).

Record ThreatEntry := {
  te_hit : ThreatScoreHit;
  te_cached_at : N;
}.

Record ThreatScoreCache := {
  tc_config : ThreatScoreConfig;
  tc_entries : gmap string ThreatEntry;
}.

Definition ThreatScoreCache_new (config : ThreatScoreConfig) : ThreatScoreCache :=
  {| tc_config := config; tc_entries := ∅ |}.

Definition threat_key (entity_type entity_id : string) : string := entity_type +:+ ":" +:+ entity_id.

Definition threat_candidates (domain client_ip : string) : list string :=
  [threat_key "domain" domain; threat_key "client_ip" client_ip;
   threat_key "client_domain" (client_ip +:+ "|" +:+ domain)].

(** One turn of the loop over the candidate keys. *)
Definition threat_step (now : N) (c : ThreatScoreCache) (best : option ThreatScoreHit) (key : string)
    : option ThreatScoreHit :=
  match tc_entries c !! key with
  | None => best
  | Some entry =>
      if (ts_cache_ttl (tc_config c) <? saturating_sub now (te_cached_at entry))%N then best
      else
        match best with
        | None => Some (te_hit entry)
        | Some b => if flt (th_score b) (th_score (te_hit entry)) then Some (te_hit entry) else best
        end
  end.

Definition threat_lookup (now : N) (domain client_ip : string) (c : ThreatScoreCache)
    : option ThreatScoreHit :=
  if negb (ts_enabled (tc_config c)) then None
  else foldl (threat_step now c) None (threat_candidates domain client_ip).

(** [a >= b]. *)
Definition fge (a b : f64) : bool := fle b a.

Section Policy.
Context `{!ScoreText}.

Definition threat_decision (hit : ThreatScoreHit) : AclDecision :=
  AclDecision_deny "ml-threat-score"
    ("ML threat score " +:+ score_text (th_score hit) +:+ " (" +:+ th_model hit +:+ ", " +:+
     th_severity hit +:+ ")").

(** [apply_to_policy]: the answer, then the threat sources and the decision. *)
Definition apply_to_policy (now : N) (domain client_ip : string) (threat_sources : list string)
    (blocking : option AclDecision) (c : ThreatScoreCache)
    : bool * list string * option AclDecision :=
  match threat_lookup now domain client_ip c with
  | None => (false, threat_sources, blocking)
  | Some hit =>
      let warn := fge (th_score hit) (ts_warn_threshold (tc_config c)) in
      let threat_sources :=
        if warn && negb (bool_decide ("ml_score"%string ∈ threat_sources))
        then threat_sources ++ ["ml_score"%string] else threat_sources in
      if block_enabled (tc_config c) && fge (th_score hit) (ts_block_threshold (tc_config c)) then
        (true, threat_sources,
         match blocking with None => Some (threat_decision hit) | Some _ => blocking end)
      else (warn, threat_sources, blocking)
  end.

End Policy.

Definition replace_all (now : N) (rows : list ThreatScoreHit) (c : ThreatScoreCache) : ThreatScoreCache :=
  {| tc_config := tc_config c;
     tc_entries :=
       foldl (fun m row => <[threat_key (th_entity_type row) (th_entity_id row) :=
                               {| te_hit := row; te_cached_at := now |}]> m) ∅ rows |}.

(** [poll_once], given what the worker answered. *)
Definition poll_once (now : N) (answer : result (list ThreatScoreHit) string) (c : ThreatScoreCache)
    : ThreatScoreCache * result N string :=
  match answer with
  | Err e => (c, Err e)
  | Ok rows => (replace_all now rows c, Ok (N.of_nat (length rows)))
  end.

(** ** Lemmas *)

(** The scores that count for a request: cached, and not too old. *)
Definition threat_fresh (now : N) (c : ThreatScoreCache) (key : string) (hit : ThreatScoreHit) : Prop :=
  exists at_, tc_entries c !! key = Some {| te_hit := hit; te_cached_at := at_ |} /\
    (now <= at_ + ts_cache_ttl (tc_config c))%N.

Lemma threat_step_spec now c best key :
  (threat_step now c best key = best /\
   forall hit, threat_fresh now c key hit ->
     exists b, best = Some b /\ flt (th_score b) (th_score hit) = false) \/
  (exists hit, threat_step now c best key = Some hit /\ threat_fresh now c key hit /\
   forall b, best = Some b -> flt (th_score b) (th_score hit) = true).
Proof.
  unfold threat_step, threat_fresh, saturating_sub.
  destruct (tc_entries c !! key) as [[hit at_]|] eqn:He; cbn [te_hit te_cached_at].
  2: { left. split; [done|]. intros hit (at_ & ? & _). done. }
  destruct (N.ltb_spec (ts_cache_ttl (tc_config c)) (now - at_)).
  { left. split; [done|]. intros hit' (at' & [= <- <-] & ?). lia. }
  destruct best as [b|].
  - destruct (flt (th_score b) (th_score hit)) eqn:Hf.
    + right. exists hit. split; [done|]. split; [exists at_; split; [done|lia]|]. by intros ? [= <-].
    + left. split; [done|]. intros hit' (at' & [= <- <-] & ?). eauto.
  - right. exists hit. split; [done|]. split; [exists at_; split; [done|lia]|]. done.
Qed.

(** What the loop ends with is a fresh score, at least the one it started with,
    and no fresh score is higher. *)
Lemma threat_fold_spec now c keys best :
  match foldl (threat_step now c) best keys with
  | None => best = None /\ forall k hit, k ∈ keys -> ~ threat_fresh now c k hit
  | Some h =>
      (best = Some h \/ exists k, k ∈ keys /\ threat_fresh now c k h) /\
      (forall b, best = Some b -> h = b \/ flt (th_score b) (th_score h) = true) /\
      (forall k hit, k ∈ keys -> threat_fresh now c k hit -> flt (th_score h) (th_score hit) = false)
  end.
Proof.
  revert best; induction keys as [|k keys IH]; intros best; simpl.
  { destruct best as [b|]; [|split; [done|]; intros k hit Hin; by apply not_elem_of_nil in Hin].
    split_and!; [by left|intros ? [= <-]; by left|]. intros k hit Hin. by apply not_elem_of_nil in Hin. }
  specialize (IH (threat_step now c best k)).
  assert (Hup : forall b h hit, h = b \/ flt (th_score b) (th_score h) = true ->
    flt (th_score b) (th_score hit) = false -> flt (th_score h) (th_score hit) = false).
  { intros b h hit [->|Hbh] Hf; [done|]. apply not_true_iff_false. intros Hlt.
    rewrite (flt_trans _ _ _ Hbh Hlt) in Hf. done. }
  destruct (threat_step_spec now c best k) as [[Hs Hk]|(hit & Hs & Hfresh & Hb)]; rewrite Hs in IH |- *;
    destruct (foldl _ _ _) as [h|].
  - destruct IH as (H1 & H2 & H3). split_and!; [|done|].
    + destruct H1 as [H1|(k' & Hin & Hf)]; [by left|]. right. exists k'. by rewrite elem_of_cons; auto.
    + intros k' hit' [->|Hin]%elem_of_cons Hf; [|by eapply H3].
      destruct (Hk hit' Hf) as (b & Hb & Hbh). by eapply Hup; [apply H2|].
  - destruct IH as [-> H]. split; [done|]. intros k' hit' [->|Hin]%elem_of_cons; [|by apply H].
    intros Hf. destruct (Hk hit' Hf) as (b & ? & _). done.
  - destruct IH as (H1 & H2 & H3). specialize (H2 hit eq_refl). split_and!.
    + right. destruct H1 as [[= <-]|(k' & Hin & Hf)]; [exists k|exists k']; by rewrite elem_of_cons; auto.
    + intros b Hbest. right. specialize (Hb b Hbest). destruct H2 as [->|H2]; [done|]. by eapply flt_trans.
    + intros k' hit' [->|Hin]%elem_of_cons Hf; [|by eapply H3].
      assert (hit' = hit) as ->.
      { destruct Hfresh as (? & He & _), Hf as (? & He' & _). congruence. }
      eapply Hup; [exact H2|apply flt_irrefl].
  - by destruct IH.
Qed.

(** ** Properties *)

(** The score a request is judged by is the highest fresh one among those of
    its domain, its client and the pair; there is none exactly when none of the
    three is fresh or scoring is off. *)
Theorem threat_lookup_highest now domain client_ip c :
  match threat_lookup now domain client_ip c with
  | None => ts_enabled (tc_config c) = true ->
      forall k hit, k ∈ threat_candidates domain client_ip -> ~ threat_fresh now c k hit
  | Some h =>
      ts_enabled (tc_config c) = true /\
      (exists k, k ∈ threat_candidates domain client_ip /\ threat_fresh now c k h) /\
      (forall k hit, k ∈ threat_candidates domain client_ip -> threat_fresh now c k hit ->
         flt (th_score h) (th_score hit) = false)
  end.
Proof.
  unfold threat_lookup. destruct (ts_enabled (tc_config c)); [|done]. cbn [negb].
  pose proof (threat_fold_spec now c (threat_candidates domain client_ip) None) as Hf.
  destruct (foldl _ _ _) as [h|].
  - destruct Hf as ([?|?] & _ & ?); [done|]. by split_and!.
  - by destruct Hf.
Qed.

(** A score only ever adds a block: a decision of the ACL is kept, and a
    request the ACL let through is denied exactly when blocking is on and the
    score reaches the threshold. *)
Theorem threat_only_adds_block `{!ScoreText} now domain client_ip sources blocking c :
  (apply_to_policy now domain client_ip sources blocking c).2 =
  match blocking with
  | Some d => Some d
  | None =>
      hit ← threat_lookup now domain client_ip c;
      if block_enabled (tc_config c) && fge (th_score hit) (ts_block_threshold (tc_config c))
      then Some (threat_decision hit) else None
  end.
Proof.
  unfold apply_to_policy. destruct (threat_lookup _ _ _ _) as [hit|]; [|by destruct blocking].
  simpl. destruct (_ && _); by destruct blocking.
Qed.
