(* ===== verification/Categorization.v ===== *)
(** * URL categorization (src/proxy/src/categorization.rs)

    The local category databases, the registry of blocked domains and the cache
    of results on the request path, and the online enrichment behind it.

    [url::Url::parse] ([UrlParser]), the file tree, JSON and the answers of the
    online services are parameters. *)

From Stdlib Require Import Ascii String NArith Lia.
From stdpp Require Import base option gmap sets strings numbers countable list.
From S2P Require Import Prelude Hosts.

(** The host of an url: [None] when it does not parse, [Some None] without one. *)
Class UrlParser := url_host : string -> option (option string).

Inductive Category :=
  | Adult
  | Gambling
  | Violence
  | Weapons
  | Drugs
  | Hacking
  | Malware
  | Phishing
  | Spyware
  | Adv
  | Redirector
  | Tracker
  | News
  | Education
  | Finance
  | Shopping
  | Social
  | Entertainment
  | Sports
  | Technology
  | Business
  | Government
  | Health
  | Custom (name : string)
  | Unknown
  | Rkn.

(** [format!("{:?}")] in lower case; custom names are themselves, and an unknown
    category has no name. *)
Definition acl_name (c : Category) : string :=
  match c with
  | Custom s => s
  | Unknown => EmptyString
  | Adult => "adult"
  | Gambling => "gambling"
  | Violence => "violence"
  | Weapons => "weapons"
  | Drugs => "drugs"
  | Hacking => "hacking"
  | Malware => "malware"
  | Phishing => "phishing"
  | Spyware => "spyware"
  | Adv => "adv"
  | Redirector => "redirector"
  | Tracker => "tracker"
  | News => "news"
  | Education => "education"
  | Finance => "finance"
  | Shopping => "shopping"
  | Social => "social"
  | Entertainment => "entertainment"
  | Sports => "sports"
  | Technology => "technology"
  | Business => "business"
  | Government => "government"
  | Health => "health"
  | Rkn => "rkn"
  end.

(** The names and aliases of the fixed categories. *)
Definition category_aliases : list (Category * list string) :=
  [(Adult, ["adult"; "porn"]);
   (Gambling, ["gambling"; "gamble"]);
   (Violence, ["violence"; "aggressive"; "agressif"]);
   (Weapons, ["weapons"; "warez"; "dangerous_material"]);
   (Drugs, ["drugs"; "alcohol"; "drogue"]);
   (Hacking, ["hacking"; "hacker"; "ddos"]);
   (Malware, ["malware"; "virus"; "cryptojacking"; "stalkerware"]);
   (Phishing, ["phishing"; "phish"]);
   (Spyware, ["spyware"; "spy"]);
   (Adv, ["adv"; "advertising"; "ads"; "publicite"; "marketingware"]);
   (Redirector, ["redirector"; "redirect"; "strict_redirector"; "strong_redirector"]);
   (Tracker, ["tracker"; "tracking"]);
   (News, ["news"; "press"]);
   (Education, ["education"; "schools"; "child"; "liste_bu"]);
   (Finance, ["finance"; "banking"; "bank"; "financial"]);
   (Shopping, ["shopping"; "shops"]);
   (Social, ["social"; "socialnet"; "social_networks"]);
   (Entertainment, ["entertainment"; "movies"; "music"; "games"; "manga"; "audio-video"]);
   (Sports, ["sports"]);
   (Technology, ["technology"; "tech"; "ai"]);
   (Business, ["business"; "jobsearch"]);
   (Government, ["government"; "military"; "arjel"]);
   (Health, ["health"; "medical"]);
   (Rkn, ["rkn"])]%string.

(** The names are ASCII, on which [to_lowercase] is the ASCII one. *)
Definition category_from_str (s : string) : Category :=
  let l := to_ascii_lowercase s in
  match List.find (fun '(_, names) => bool_decide (l ∈ names)) category_aliases with
  | Some (c, _) => c
  | None => if String.eqb l "fakenews" then Custom "fakenews" else Custom s
  end.

Definition category_code (c : Category) : string + string :=
  match c with Custom s => inl s | _ => inr (acl_name c) end.

Definition category_decode (x : string + string) : option Category :=
  match x with
  | inl s => Some (Custom s)
  | inr n => if str_is_empty n then Some Unknown else Some (category_from_str n)
  end.

Lemma category_decode_code c : category_decode (category_code c) = Some c.
Proof. destruct c; vm_compute; reflexivity. Qed.

#[export] Instance category_code_inj : Inj (=) (=) category_code.
Proof.
  intros a b H. apply (f_equal category_decode) in H. rewrite !category_decode_code in H. congruence.
Qed.

#[export] Instance Category_eq_dec : EqDecision Category := inj_eq_dec category_code.

#[export] Instance Category_countable : Countable Category :=
  inj_countable category_code category_decode category_decode_code.

(** [www.foo.example.com], [foo.example.com], [example.com]. *)
Definition domain_suffixes (domain : string) : list string :=
  let domain := to_ascii_lowercase (trim domain) in
  let parts := filter (fun p => str_is_empty p = false) (split_on "." domain) in
  if Nat.ltb (length parts) 2 then [domain]
  else (fun n => join "." (drop (length parts - n) parts)) <$> reverse (seq 2 (length parts - 1)).

Record CategorizationConfig := {
  ct_cache_ttl : N;
  ct_ut1_enabled : bool;
  ct_urlhaus_enabled : bool;
  ct_phishtank_enabled : bool;
  ct_custom_db_enabled : bool;
  ct_rkn_sync_enabled : bool;
}.

Record CategoryCache := {
  cc_categories : gset Category;
  cc_source : string;
  cc_cached_at : N;
  cc_ttl : N;
}.

Definition category_expired (now : N) (c : CategoryCache) : bool :=
  (cc_ttl c <? saturating_sub now (cc_cached_at c))%N.

Abbreviation CategoryDb := (gmap string (gset Category)).

Record CategorizationEngine := {
  ce_config : CategorizationConfig;
  ce_cache : gmap string CategoryCache;
  ce_local_db : option CategoryDb;
  ce_custom_db : option CategoryDb;
  ce_rkn_domains : gset string;
}.

Record CategorizationResult := {
  cz_url : string;
  cz_domain : string;
  cz_categories : gset Category;
  cz_source : string;
  cz_cached : bool;
}.

Definition create_result (url domain : string) (categories : gset Category) (source : string)
    (cached : bool) : CategorizationResult :=
  {| cz_url := url; cz_domain := domain; cz_categories := categories; cz_source := source;
     cz_cached := cached |}.

Definition online_enrichment_enabled (e : CategorizationEngine) : bool :=
  ct_urlhaus_enabled (ce_config e) || ct_phishtank_enabled (ce_config e).

Definition get_cached (now : N) (domain : string) (e : CategorizationEngine) : option CategoryCache :=
  c ← ce_cache e !! domain; if category_expired now c then None else Some c.

Definition with_cache (e : CategorizationEngine) (m : gmap string CategoryCache) : CategorizationEngine :=
  {| ce_config := ce_config e; ce_cache := m; ce_local_db := ce_local_db e;
     ce_custom_db := ce_custom_db e; ce_rkn_domains := ce_rkn_domains e |}.

Definition cache_categories (now : N) (domain : string) (categories : gset Category) (source : string)
    (e : CategorizationEngine) : CategorizationEngine :=
  with_cache e (<[domain := {| cc_categories := categories; cc_source := source; cc_cached_at := now;
                               cc_ttl := ct_cache_ttl (ce_config e) |}]> (ce_cache e)).

Definition cleanup_cache (now : N) (e : CategorizationEngine) : CategorizationEngine :=
  with_cache e (filter (fun kv => category_expired now kv.2 = false) (ce_cache e)).

(** The first suffix that is listed. *)
Fixpoint first_listed_suffix (db : CategoryDb) (suffixes : list string) : option (gset Category) :=
  match suffixes with
  | [] => None
  | s :: rest => match db !! s with Some cats => Some cats | None => first_listed_suffix db rest end
  end.

Definition check_local_db (domain : string) (e : CategorizationEngine) : option (gset Category) :=
  db ← ce_local_db e; first_listed_suffix db (domain_suffixes domain).

Definition check_custom_db (domain : string) (e : CategorizationEngine) : option (gset Category) :=
  db ← ce_custom_db e; db !! domain.

Definition rkn_listed (domain : string) (e : CategorizationEngine) : bool :=
  existsb (fun d => bool_decide (d ∈ ce_rkn_domains e)) (domain_suffixes domain).

(** A feed's categories are added, and the source is its name, or [multiple]. *)
Definition merge_feed (name : string) (found : option (gset Category)) (acc : gset Category * string)
    : gset Category * string :=
  match found with
  | None => acc
  | Some cats => (acc.1 ∪ cats, if String.eqb acc.2 "unknown" then name else "multiple"%string)
  end.

(** The three local feeds in order. *)
Definition local_feeds (domain : string) (e : CategorizationEngine) : gset Category * string :=
  let cfg := ce_config e in
  let acc := merge_feed "ut1" (if ct_ut1_enabled cfg then check_local_db domain e else None)
               (∅, "unknown"%string) in
  let acc := merge_feed "custom" (if ct_custom_db_enabled cfg then check_custom_db domain e else None) acc in
  merge_feed "rkn"
    (if ct_rkn_sync_enabled cfg && rkn_listed domain e then Some {[Rkn]} else None) acc.

Section Engine.
Context `{!UrlParser}.

Definition categorize_local (now : N) (url : string) (e : CategorizationEngine)
    : CategorizationEngine * CategorizationResult :=
  match url_host url with
  | None => (e, create_result url url ∅ "error" false)
  | Some host =>
      let domain := default EmptyString host in
      match get_cached now domain e with
      | Some c => (e, create_result url domain (cc_categories c) (cc_source c) true)
      | None =>
          let '(categories, source) := local_feeds domain e in
          (if decide (categories = ∅) then e else cache_categories now domain categories source e,
           create_result url domain categories source false)
      end
  end.

(** [enrich_online], given whether each service lists the url. *)
Definition enrich_online (now : N) (url : string) (urlhaus phishtank : bool) (e : CategorizationEngine)
    : CategorizationEngine :=
  match url_host url with
  | None => e
  | Some host =>
      let domain := default EmptyString host in
      if (match get_cached now domain e with
          | Some c => negb (bool_decide (cc_categories c = ∅))
          | None => false
          end)
      then e
      else
        let cfg := ce_config e in
        let acc := merge_feed "urlhaus"
                     (if ct_urlhaus_enabled cfg && urlhaus then Some {[Malware]} else None)
                     (∅, "unknown"%string) in
        let '(categories, source) :=
          merge_feed "phishtank"
            (if ct_phishtank_enabled cfg && phishtank then Some {[Phishing]} else None) acc in
        if decide (categories = ∅) then e else cache_categories now domain categories source e
  end.

End Engine.

(** ** Loading the feeds *)

Definition add_domain (category : Category) (db : CategoryDb) (line : string) : CategoryDb :=
  let domain := to_ascii_lowercase (trim line) in
  if str_is_empty domain || starts_with domain "#" then db
  else <[domain := {[category]} ∪ default ∅ (db !! domain)]> db.

(** [load_ut1_blacklists]: [files] are the category directories that have a
    [domains] file, with its text, in the order they are read. *)
Definition load_ut1_blacklists (files : list (string * string)) (e : CategorizationEngine)
    : CategorizationEngine * result N string :=
  let db := foldl (fun db '(name, content) =>
              foldl (add_domain (category_from_str name)) db (str_lines content)) ∅ files in
  if decide (db = ∅) then (e, Err "No UT1 categories loaded"%string)
  else ({| ce_config := ce_config e; ce_cache := ce_cache e; ce_local_db := Some db;
           ce_custom_db := ce_custom_db e; ce_rkn_domains := ce_rkn_domains e |},
        Ok (N.of_nat (size db))).

(** [load_custom_db], given the parsed JSON. *)
Definition load_custom_db (data : gmap string (list string)) (e : CategorizationEngine)
    : CategorizationEngine :=
  {| ce_config := ce_config e; ce_cache := ce_cache e; ce_local_db := ce_local_db e;
     ce_custom_db := Some ((fun cats => list_to_set (category_from_str <$> cats)) <$> data);
     ce_rkn_domains := ce_rkn_domains e |}.

(** One line of the registry dump: the second field is the domain. *)
Definition rkn_line (line : string) : option string :=
  match split_on ";" line with
  | _ :: domain :: _ =>
      let d := to_ascii_lowercase (trim domain) in
      let d := match strip_prefix "*." d with Some d' => d' | None => d end in
      if str_is_empty d || String.eqb d "domain" then None else Some d
  | _ => None
  end.

Definition rkn_sync (dump : string) (e : CategorizationEngine) : CategorizationEngine :=
  {| ce_config := ce_config e; ce_cache := ce_cache e; ce_local_db := ce_local_db e;
     ce_custom_db := ce_custom_db e; ce_rkn_domains := list_to_set (omap rkn_line (str_lines dump)) |}.

(** ** Lemmas *)

(** The suffixes of a host of at least two labels, longest first. *)
Lemma domain_suffixes_labels ls :
  forallb plain_label ls = true -> 2 <= length ls ->
  domain_suffixes (join "." ls) = (fun k => join "." (drop k ls)) <$> seq 0 (length ls - 1).
Proof.
  intros Hp Hlen. rewrite forallb_forall in Hp.
  assert (Hls : Forall (fun l => all_chars host_char l = true /\ l <> EmptyString) ls).
  { apply Forall_forall. intros l Hl. apply list_elem_of_In, Hp in Hl. unfold plain_label in Hl.
    bool_hyps. split; [done|]. by intros ->. }
  unfold domain_suffixes.
  destruct (host_or_dot_clean (join "." ls)) as [-> ->].
  { apply join_all_chars; [done|]. eapply Forall_impl; [exact Hls|]. intros l [Hl _].
    eapply all_chars_impl; [|exact Hl]. intros c Hc. unfold host_or_dot. by rewrite Hc. }
  rewrite split_on_join.
  2: { destruct ls; simpl in Hlen; [lia|done]. }
  2: { eapply Forall_impl; [exact Hls|]. intros l [Hl _]. unfold free_of.
       eapply all_chars_impl; [|exact Hl]. intros c Hc. unfold host_char in Hc.
       by apply andb_true_iff in Hc as [[? _]%andb_true_iff _]. }
  rewrite list_filter_all.
  2: { intros l Hl. rewrite Forall_forall in Hls. apply Hls in Hl as [_ Hl]. by destruct l. }
  cbv zeta. replace (Nat.ltb (length ls) 2) with false by (symmetry; apply Nat.ltb_ge; lia).
  apply list_eq. intros i. rewrite !list_lookup_fmap.
  destruct (decide (i < length ls - 1)) as [Hi|Hi].
  - rewrite reverse_lookup by (rewrite length_seq; lia). rewrite length_seq.
    rewrite !lookup_seq_lt by lia. simpl. do 3 f_equal. lia.
  - rewrite !lookup_ge_None_2; [done|by rewrite length_seq; lia|by rewrite length_reverse, length_seq; lia].
Qed.

Lemma first_listed_suffix_fmap {A} (db : CategoryDb) (f : A -> string) l :
  first_listed_suffix db (f <$> l) = head (omap (fun x => db !! f x) l).
Proof. induction l as [|x l IH]; simpl; [done|]. by destruct (db !! f x). Qed.

Lemma rkn_listed_suffix ls base e :
  forallb plain_label (ls ++ base) = true -> 2 <= length base ->
  join "." base ∈ ce_rkn_domains e -> rkn_listed (join "." (ls ++ base)) e = true.
Proof.
  intros Hp Hb Hin. unfold rkn_listed.
  rewrite domain_suffixes_labels by (rewrite ?length_app; first [done|lia]).
  apply existsb_exists. exists (join "." base). split; [|by apply bool_decide_eq_true].
  apply list_elem_of_In, list_elem_of_fmap. exists (length ls).
  split; [by rewrite drop_app_length|]. apply elem_of_seq. rewrite length_app. lia.
Qed.

Lemma merge_feed_subset name found acc : acc.1 ⊆ (merge_feed name found acc).1.
Proof. destruct found; simpl; set_solver. Qed.

(** An answer that is missing or expired stays so; a new one is there for its
    lifetime. *)
Lemma get_cached_later now later domain e :
  get_cached now domain e = None -> (now <= later)%N -> get_cached later domain e = None.
Proof.
  unfold get_cached. destruct (ce_cache e !! domain) as [c|]; [|done]. simpl.
  unfold category_expired, saturating_sub. intros H Hle.
  destruct (N.ltb_spec (cc_ttl c) (now - cc_cached_at c)); [|done].
  by rewrite (proj2 (N.ltb_lt _ _)) by lia.
Qed.

Lemma get_cached_new now later domain cats source e :
  (now <= later <= now + ct_cache_ttl (ce_config e))%N ->
  get_cached later domain (cache_categories now domain cats source e) =
  Some {| cc_categories := cats; cc_source := source; cc_cached_at := now;
          cc_ttl := ct_cache_ttl (ce_config e) |}.
Proof.
  intros Ht. unfold get_cached, cache_categories. simpl. rewrite lookup_insert_eq. simpl.
  unfold category_expired, saturating_sub. simpl. by rewrite (proj2 (N.ltb_ge _ _)) by lia.
Qed.

(** ** Properties *)

(** A host is judged by its most specific listed domain: the local database
    answers with the entry of the longest suffix of at least two labels that it
    lists, and suffixes are cut at label boundaries only. *)
Theorem local_db_most_specific e db ls
    (Hdb : ce_local_db e = Some db)
    (Hhost : forallb plain_label ls = true)
    (Hlen : 2 <= length ls) :
  check_local_db (join "." ls) e =
  head (omap (fun k => db !! join "." (drop k ls)) (seq 0 (length ls - 1))).
Proof.
  unfold check_local_db. rewrite Hdb. simpl.
  by rewrite domain_suffixes_labels, first_listed_suffix_fmap.
Qed.

(** The registry blocks subdomains: after a sync whose dump lists a domain of
    at least two labels, every url whose host is that domain or below it is in
    the category [Rkn], unless an earlier answer for the host is still cached. *)
Theorem rkn_sync_covers_subdomains `{!UrlParser} now url e dump line base ls
    (Hline : line ∈ str_lines dump)
    (Hdomain : rkn_line line = Some (join "." base))
    (Hlabels : forallb plain_label (ls ++ base) = true)
    (Hbase : 2 <= length base)
    (Hurl : url_host url = Some (Some (join "." (ls ++ base))))
    (Hon : ct_rkn_sync_enabled (ce_config e) = true)
    (Hfresh : get_cached now (join "." (ls ++ base)) e = None) :
  Rkn ∈ cz_categories (categorize_local now url (rkn_sync dump e)).2.
Proof.
  unfold categorize_local. rewrite Hurl. cbv zeta.
  change (default EmptyString (Some (join "." (ls ++ base)))) with (join "." (ls ++ base)).
  change (get_cached now _ (rkn_sync dump e)) with
    (get_cached now (join "." (ls ++ base)) e). rewrite Hfresh.
  destruct (local_feeds _ _) as [cats source] eqn:Hf. simpl.
  unfold local_feeds in Hf. cbn [ce_config rkn_sync] in Hf. rewrite Hon in Hf.
  rewrite rkn_listed_suffix in Hf; [|done|done|].
  - simpl in Hf. injection Hf as <- _. set_solver.
  - simpl. apply elem_of_list_to_set, list_elem_of_omap. eauto.
Qed.

(** The cache of categories is transparent while it lasts: a second look at
    the same url within the lifetime of the first answer gives the same
    categories and source. *)
Theorem categorize_local_stable `{!UrlParser} now later url e
    (Hmiss : get_cached now (default EmptyString (default None (url_host url))) e = None)
    (Htime : (now <= later <= now + ct_cache_ttl (ce_config e))%N) :
  let '(e', first) := categorize_local now url e in
  let second := (categorize_local later url e').2 in
  cz_categories second = cz_categories first /\ cz_source second = cz_source first.
Proof.
  unfold categorize_local at 1. destruct (url_host url) as [host|] eqn:Hu; simpl in Hmiss.
  2: { unfold categorize_local. by rewrite Hu. }
  rewrite Hmiss. destruct (local_feeds _ e) as [cats source] eqn:Hf. simpl.
  case_decide as Hc; unfold categorize_local; rewrite Hu.
  - rewrite (get_cached_later now later _ e Hmiss) by lia. by rewrite Hf.
  - rewrite get_cached_new by lia. done.
Qed.

(** ** Witnesses *)

(** A parser for urls that are just a host. *)
#[local] Instance host_only : UrlParser := fun url => Some (Some url).

Definition demo_categorization : CategorizationEngine :=
  {| ce_config := {| ct_cache_ttl := 3600; ct_ut1_enabled := true; ct_urlhaus_enabled := false;
                     ct_phishtank_enabled := false; ct_custom_db_enabled := false;
                     ct_rkn_sync_enabled := true |};
     ce_cache := ∅;
     ce_local_db := Some {["evil.example.com"%string := {[Malware]}; "example.com"%string := {[News]}]};
     ce_custom_db := None; ce_rkn_domains := ∅ |}.

Lemma local_db_most_specific_witness :
  match check_local_db (join "." ["www"; "evil"; "example"; "com"]%string) demo_categorization with
  | Some cats => bool_decide (Malware ∈ cats)
  | None => false
  end = true.
Proof.
  rewrite (local_db_most_specific demo_categorization
    {["evil.example.com"%string := {[Malware]}; "example.com"%string := {[News]}]}
    ["www"; "evil"; "example"; "com"]%string).
  - vm_compute. reflexivity.
  - reflexivity.
  - reflexivity.
  - simpl. lia.
Defined.

Lemma rkn_sync_covers_subdomains_witness :
  Rkn ∈ cz_categories
    (categorize_local 5 "www.casino.net" (rkn_sync "1.2.3.4;*.Casino.net;url" demo_categorization)).2.
Proof.
  apply (rkn_sync_covers_subdomains 5 "www.casino.net" demo_categorization "1.2.3.4;*.Casino.net;url"
           "1.2.3.4;*.Casino.net;url" ["casino"; "net"]%string ["www"]%string).
  - apply list_elem_of_here.
  - reflexivity.
  - reflexivity.
  - simpl. lia.
  - reflexivity.
  - reflexivity.
  - reflexivity.
Defined.

Lemma categorize_local_stable_witness :
  let '(e', first) := categorize_local 5 "www.example.com" demo_categorization in
  let second := (categorize_local 600 "www.example.com" e').2 in
  cz_categories second = cz_categories first /\ cz_source second = cz_source first.
Proof.
  apply (categorize_local_stable 5 600 "www.example.com" demo_categorization).
  - reflexivity.
  - split; discriminate.
Defined.
