(* ===== verification/Pinning.v ===== *)
(** * Certificate pinning exceptions (src/proxy/src/pinning.rs)

    The registry of domains whose TLS must not be intercepted: validation of the
    entries, matching of a host, and the audited hot reload.

    The file read and parsed, the outcome of writing the audit log and the clock
    are arguments. *)

From Stdlib Require Import Ascii String NArith Lia Sorting.Sorted Sorting.Permutation.
From stdpp Require Import base option gmap sets strings numbers list sorting.
From S2P Require Import Prelude.

Definition DEFAULT_EXCEPTIONS : string := ".slack.com,.teams.microsoft.com,.zoom.us".
Definition MAX_EXCEPTIONS : N := 10000.

Record PinningException := {
  px_domain : string;
  px_reason : string;
  px_owner : string;
  px_ticket : option string;
  px_expires_at_unix : option N;
}.

#[export] Instance PinningException_eq_dec : EqDecision PinningException.
Proof. solve_decision. Defined.

Definition active_at (now : N) (e : PinningException) : bool :=
  match px_expires_at_unix e with Some expires => (now <? expires)%N | None => true end.

(** ** Validation *)

(** [char::is_control] on the bytes of a text: C0 and DEL are single bytes, C1 is
    0xC2 followed by 0x80 to 0x9F. *)
Fixpoint has_control (s : string) : bool :=
  match s with
  | EmptyString => false
  | String c s' =>
      (char_code c <? 32)%N || (char_code c =? 127)%N ||
      match s' with
      | String d _ => (char_code c =? 194)%N && (char_code d <? 160)%N
      | EmptyString => false
      end || has_control s'
  end.

Definition validate_audit_text (value : string) (max : N) : bool :=
  negb (str_is_empty (trim value) || (max <? str_len value)%N || has_control value).

(** [trim_end_matches('.')] and [trim_start_matches('.')]. *)
Abbreviation trim_end_dots := (trim_end_matches ".").
Abbreviation trim_start_dots := (trim_start_matches ".").

Definition bad_label (label : string) : bool :=
  str_is_empty label || (63 <? str_len label)%N || starts_with label "-" || ends_with label "-" ||
  negb (all_chars (fun c => is_ascii_alphanumeric c || Ascii.eqb c "-") label).

Definition normalize_domain (value : string) : option string :=
  let value := to_ascii_lowercase (trim_end_dots (trim value)) in
  let body := match strip_prefix "." value with Some b => b | None => value end in
  if str_is_empty body || (253 <? str_len body)%N || negb (str_contains body ".") then None
  else if str_contains value "/" || str_contains value ":" || str_contains value "*" ||
          negb (all_chars (fun c => (char_code c <? 128)%N) value) then None
  else if existsb bad_label (split_on "." body) then None
  else Some value.

Inductive PinningError :=
  | TooMany
  | InvalidDomain (domain : string)
  | InvalidText (field : string)
  | Duplicate (domain : string)
  | UnsupportedVersion
  | LoadFailed (reason : string)
  | NotConfigured (what : string)
  | AuditFailed (reason : string).

Definition with_domain (d : string) (e : PinningException) : PinningException :=
  {| px_domain := d; px_reason := px_reason e; px_owner := px_owner e; px_ticket := px_ticket e;
     px_expires_at_unix := px_expires_at_unix e |}.

(** The loop over the entries, with the domains seen so far. *)
Fixpoint validate_each (seen : gset string) (entries : list PinningException)
    : result (list PinningException) PinningError :=
  match entries with
  | [] => Ok []
  | e :: rest =>
      match normalize_domain (px_domain e) with
      | None => Err (InvalidDomain (px_domain e))
      | Some d =>
          if negb (validate_audit_text (px_reason e) 512) then Err (InvalidText "exception reason")
          else if negb (validate_audit_text (px_owner e) 128) then Err (InvalidText "exception owner")
          else if (match px_ticket e with Some t => negb (validate_audit_text t 128) | None => false end)
          then Err (InvalidText "exception ticket")
          else if decide (d ∈ seen) then Err (Duplicate d)
          else
            match validate_each ({[d]} ∪ seen) rest with
            | Ok rest' => Ok (with_domain d e :: rest')
            | Err err => Err err
            end
      end
  end.

Definition domain_le (a b : PinningException) : Prop := String.le (px_domain a) (px_domain b).

#[export] Instance domain_le_dec : RelDecision domain_le := fun a b => _.

Definition validate_entries (entries : list PinningException) : result (list PinningException) PinningError :=
  if (MAX_EXCEPTIONS <? N.of_nat (length entries))%N then Err TooMany
  else
    match validate_each ∅ entries with
    | Ok l => Ok (merge_sort domain_le l)
    | Err e => Err e
    end.

Definition parse_legacy_env (value : string) : result (list PinningException) PinningError :=
  validate_entries
    ((fun d => {| px_domain := d; px_reason := "legacy PINNING_EXCEPTIONS configuration";
                  px_owner := "operator"; px_ticket := None; px_expires_at_unix := None |}) <$>
     filter (fun d => str_is_empty d = false) (trim <$> split_on "," value)).

(** [load_file], given the parsed document or the reason there is none. *)
Definition load_file (document : result (N * list PinningException) string)
    : result (list PinningException) PinningError :=
  match document with
  | Err e => Err (LoadFailed e)
  | Ok (version, exceptions) =>
      if negb (version =? 1)%N then Err UnsupportedVersion else validate_entries exceptions
  end.

(** ** The registry *)

Record PinningRegistry := {
  pg_entries : list PinningException;
  pg_source_path : option string;
  pg_audit_path : option string;
}.

Definition entry_matches (now : N) (domain : string) (e : PinningException) : bool :=
  active_at now e &&
  (if starts_with (px_domain e) "." then
     String.eqb domain (trim_start_dots (px_domain e)) || ends_with domain (px_domain e)
   else String.eqb domain (px_domain e)).

Definition pinning_matches (now : N) (domain : string) (r : PinningRegistry) : bool :=
  match normalize_domain domain with
  | None => false
  | Some d => existsb (entry_matches now d) (pg_entries r)
  end.

Definition active_domains (now : N) (r : PinningRegistry) : list string :=
  px_domain <$> filter (fun e => active_at now e = true) (pg_entries r).

Inductive AuditAction := AuditAdded | AuditRemoved | AuditUpdated.

Record PinningAuditRecord := {
  ar_actor : string;
  ar_change_reason : string;
  ar_action : AuditAction;
  ar_exception : PinningException;
}.

(** [BTreeMap] by domain: the last entry of a domain counts. *)
Definition by_domain (entries : list PinningException) : gmap string PinningException :=
  foldl (fun m e => <[px_domain e := e]> m) ∅ entries.

Definition sorted_domains (s : gset string) : list string := merge_sort String.le (elements s).

(** The entries of one audit action, in the order of the domains. *)
Definition audit_part (actor reason : string) (action : AuditAction) (domains : list string)
    (entries : gmap string PinningException) : list PinningAuditRecord :=
  omap (fun d => (fun e => {| ar_actor := actor; ar_change_reason := reason; ar_action := action;
                              ar_exception := e |}) <$> entries !! d) domains.

Record PinningReloadReport := {
  pr_active : N;
  pr_total : N;
  pr_added : list string;
  pr_removed : list string;
  pr_updated : list string;
}.

(** [reload]: the registry, the audit records written and the report.  [audit] is
    the error of appending them, if any. *)
Definition pinning_reload (now : N) (actor reason : string)
    (document : result (N * list PinningException) string) (audit : option string)
    (r : PinningRegistry)
    : PinningRegistry * list PinningAuditRecord * result PinningReloadReport PinningError :=
  if negb (validate_audit_text actor 128) then (r, [], Err (InvalidText "actor"))
  else if negb (validate_audit_text reason 512) then (r, [], Err (InvalidText "reason"))
  else
    match pg_source_path r, pg_audit_path r with
    | None, _ => (r, [], Err (NotConfigured "PINNING_EXCEPTIONS_PATH"))
    | _, None => (r, [], Err (NotConfigured "PINNING_AUDIT_LOG_PATH"))
    | Some _, Some _ =>
        match load_file document with
        | Err e => (r, [], Err e)
        | Ok next =>
            let old_by := by_domain (pg_entries r) in
            let new_by := by_domain next in
            let old_d := dom old_by in
            let new_d := dom new_by in
            let added := sorted_domains (new_d ∖ old_d) in
            let removed := sorted_domains (old_d ∖ new_d) in
            let updated := filter (fun d => old_by !! d <> new_by !! d) (sorted_domains (old_d ∩ new_d)) in
            let records :=
              audit_part actor reason AuditAdded added new_by ++
              audit_part actor reason AuditRemoved removed old_by ++
              audit_part actor reason AuditUpdated updated new_by in
            match (if decide (records = []) then None else audit) with
            | Some e => (r, records, Err (AuditFailed e))
            | None =>
                ({| pg_entries := next; pg_source_path := pg_source_path r; pg_audit_path := pg_audit_path r |},
                 records,
                 Ok {| pr_active := N.of_nat (length (filter (fun e => active_at now e = true) next));
                       pr_total := N.of_nat (length next);
                       pr_added := added; pr_removed := removed; pr_updated := updated |})
            end
        end
    end.

(** ** Lemmas *)

(** What a normalised domain looks like: an optional dot before good labels. *)
Definition dotted (d : string) : Prop :=
  exists b, (d = b \/ d = "." +:+ b) /\ Forall (fun l => bad_label l = false) (split_on "." b).

Lemma normalize_dotted v d : normalize_domain v = Some d -> dotted d.
Proof.
  unfold normalize_domain. set (value := to_ascii_lowercase _).
  set (body := match strip_prefix "." value with Some b => b | None => value end).
  assert (Hval : value = body \/ value = "." +:+ body).
  { unfold body. destruct (strip_prefix "." value) eqn:Hb; [|by left]. right. by apply strip_prefix_Some. }
  clearbody value body.
  destruct (str_is_empty body || _ || _); [discriminate|].
  destruct (str_contains value "/" || _ || _ || _); [discriminate|].
  destruct (existsb _ _) eqn:He; [discriminate|]. intros [= <-]. exists body. split; [done|].
  apply Forall_forall. intros l Hl. apply not_true_iff_false. intros Hbad.
  apply not_true_iff_false in He. apply He, existsb_exists. exists l. by rewrite <-list_elem_of_In.
Qed.

(** A dotted domain has no second dot at its start. *)
Lemma good_body_no_dot b : Forall (fun l => bad_label l = false) (split_on "." b) ->
  starts_with b "." = false.
Proof.
  destruct b as [|c b]; [done|]. simpl. destruct (Ascii.eqb_spec c "."%char) as [->|Hne]; intros H.
  - inversion H as [|? ? Hbad]. done.
  - unfold starts_with. cbn [strip_prefix]. destruct (Ascii.eqb_spec "."%char c); congruence.
Qed.

Lemma starts_dot_cons d : starts_with d "." = true -> exists b, d = "." +:+ b.
Proof.
  unfold starts_with. destruct (strip_prefix "." d) as [b|] eqn:Hb; [|done]. intros _. exists b.
  by apply strip_prefix_Some.
Qed.

Lemma trim_start_dots_id b : starts_with b "." = false -> trim_start_dots b = b.
Proof.
  destruct b as [|c b]; [done|]. unfold starts_with. cbn [strip_prefix trim_start_dots].
  destruct (Ascii.eqb_spec "."%char c) as [Heq|Hne]; [done|].
  destruct (Ascii.eqb_spec c "."%char); congruence.
Qed.

(** The matching of one validated entry, in words. *)
Lemma entry_matches_spec now d e :
  dotted (px_domain e) ->
  entry_matches now d e = true <->
  active_at now e = true /\
  (px_domain e = d \/ exists b, px_domain e = "." +:+ b /\ (d = b \/ exists p, d = p +:+ "." +:+ b)).
Proof.
  intros (b0 & Hd & Hgood). unfold entry_matches. rewrite andb_true_iff.
  apply and_iff_compat_l. apply good_body_no_dot in Hgood as Hnd.
  destruct (starts_with (px_domain e) ".") eqn:Hs.
  - apply starts_dot_cons in Hs as [b Hb].
    assert (b = b0) as ->.
    { destruct Hd as [Hd|Hd]; rewrite Hb in Hd; [subst b0; discriminate|by injection Hd]. }
    rewrite Hb. change (trim_start_dots ("." +:+ b0)) with (trim_start_dots b0).
    rewrite trim_start_dots_id, orb_true_iff, String.eqb_eq, ends_with_spec by done. split.
    + intros [->|[p ->]]; right; exists b0; eauto.
    + intros [<-|(b & [= <-] & [->|[p ->]])]; [right; by exists EmptyString|by left|right; by exists p].
  - rewrite String.eqb_eq. split; [by left|]. intros [?|(b & Hb & _)]; [done|].
    rewrite Hb in Hs. discriminate.
Qed.

Lemma validate_each_Ok seen entries out :
  validate_each seen entries = Ok out ->
  Forall (fun e => dotted (px_domain e)) out /\ NoDup (px_domain <$> out) /\
  Forall (fun e => px_domain e ∉ seen) out.
Proof.
  revert seen out; induction entries as [|e entries IH]; intros seen out; simpl.
  { intros [= <-]. repeat constructor. }
  destruct (normalize_domain _) as [d|] eqn:Hd; [|done].
  do 3 (case_match; [done|]). case_decide as Hseen; [done|].
  destruct (validate_each _ entries) as [rest|] eqn:Hr; [|done]. intros [= <-].
  destruct (IH _ _ Hr) as (Hdot & Hnd & Hns). rewrite Forall_forall in Hns. split_and!.
  - constructor; [by eapply normalize_dotted|done].
  - rewrite fmap_cons. constructor; [|done]. intros (e' & He & Hin)%list_elem_of_fmap.
    apply (Hns e') in Hin. simpl in He. set_solver.
  - constructor; [done|]. apply Forall_forall. intros e' Hin%Hns. set_solver.
Qed.

#[export] Instance domain_le_trans : Transitive domain_le.
Proof. intros a b c. unfold domain_le. apply transitivity. Qed.

#[export] Instance domain_le_total : Total domain_le.
Proof. intros a b. unfold domain_le. apply total, _. Qed.

Lemma validate_entries_Ok entries out :
  validate_entries entries = Ok out ->
  Forall (fun e => dotted (px_domain e)) out /\ NoDup (px_domain <$> out) /\ StronglySorted domain_le out.
Proof.
  unfold validate_entries. case_match; [done|]. destruct (validate_each ∅ entries) as [l|] eqn:Hv; [|done].
  intros [= <-]. destruct (validate_each_Ok _ _ _ Hv) as (Hdot & Hnd & _).
  split_and!; [by rewrite merge_sort_Permutation|by rewrite merge_sort_Permutation|].
  apply StronglySorted_merge_sort; apply _.
Qed.

Lemma by_domain_snoc l e : by_domain (l ++ [e]) = <[px_domain e := e]> (by_domain l).
Proof. unfold by_domain. by rewrite foldl_snoc. Qed.

Lemma by_domain_key l d e : by_domain l !! d = Some e -> px_domain e = d.
Proof.
  induction l as [|x l IH] using rev_ind; [done|]. rewrite by_domain_snoc, lookup_insert_Some.
  intros [[<- <-]|[_ H]]; auto.
Qed.

Lemma sorted_domains_elem d s : d ∈ sorted_domains s <-> d ∈ s.
Proof. unfold sorted_domains. by rewrite merge_sort_Permutation, elem_of_elements. Qed.

Lemma audit_part_domains actor reason action domains entries d :
  (forall d e, entries !! d = Some e -> px_domain e = d) ->
  (exists rec, rec ∈ audit_part actor reason action domains entries /\ px_domain (ar_exception rec) = d) <->
  d ∈ domains /\ is_Some (entries !! d).
Proof.
  intros Hkey. unfold audit_part. split.
  - intros (rec & (d' & Hd & (e & He & ->)%fmap_Some)%list_elem_of_omap & <-). simpl.
    rewrite (Hkey _ _ He). eauto.
  - intros [Hd [e He]]. eexists. split; [apply list_elem_of_omap; exists d; by rewrite He|]. by eapply Hkey.
Qed.

(** ** Properties *)

(** The exceptions match at label boundaries: against a validated registry a
    host is exempt exactly when an active entry is its normalised name, or is
    [.b] where the name is [b] or ends in [.b]. *)
Theorem pinning_label_boundary now host entries r
    (Hvalid : validate_entries entries = Ok (pg_entries r)) :
  pinning_matches now host r = true <->
  exists d e, normalize_domain host = Some d /\ e ∈ pg_entries r /\ active_at now e = true /\
    (px_domain e = d \/ exists b, px_domain e = "." +:+ b /\ (d = b \/ exists p, d = p +:+ "." +:+ b)).
Proof.
  destruct (validate_entries_Ok _ _ Hvalid) as (Hdot & _ & _). rewrite Forall_forall in Hdot.
  unfold pinning_matches. destruct (normalize_domain host) as [d|]; [|naive_solver].
  rewrite existsb_exists. split.
  - intros (e & Hin & Hm). apply list_elem_of_In in Hin. exists d, e.
    apply entry_matches_spec in Hm; [|by apply Hdot]. destruct Hm. by split_and!.
  - intros (d' & e & [= <-] & Hin & Ha & Hm). exists e. split; [by apply list_elem_of_In|].
    apply entry_matches_spec; [by apply Hdot|done].
Qed.

(** A reload either fails and changes nothing, or installs the validated
    document; and then the audit records name exactly the domains whose entry
    changed. *)
Theorem pinning_reload_audited now actor reason document audit r r' records report
    (Hreload : pinning_reload now actor reason document audit r = (r', records, report)) :
  match report with
  | Err _ => r' = r
  | Ok rep =>
      load_file document = Ok (pg_entries r') /\
      pg_source_path r' = pg_source_path r /\ pg_audit_path r' = pg_audit_path r /\
      forall d, (exists rec, rec ∈ records /\ px_domain (ar_exception rec) = d) <->
                by_domain (pg_entries r) !! d <> by_domain (pg_entries r') !! d
  end.
Proof.
  revert Hreload. unfold pinning_reload.
  do 2 (case_match; [by intros [= <- _ <-]|]).
  destruct (pg_source_path r) as [sp|] eqn:Hsp; [|by intros [= <- _ <-]].
  destruct (pg_audit_path r) as [ap|] eqn:Hap; [|by intros [= <- _ <-]].
  destruct (load_file document) as [next|e] eqn:Hl; [|by intros [= <- _ <-]].
  set (old_by := by_domain (pg_entries r)). set (new_by := by_domain next). cbv zeta.
  destruct (if decide _ then None else audit); [by intros [= <- _ <-]|].
  intros [= <- <- <-]. cbn [pg_entries pg_source_path pg_audit_path]. split_and!; try done.
  intros d. fold new_by. setoid_rewrite elem_of_app. setoid_rewrite elem_of_app.
  assert (Hko : forall d e, old_by !! d = Some e -> px_domain e = d) by (intros; by eapply by_domain_key).
  assert (Hkn : forall d e, new_by !! d = Some e -> px_domain e = d) by (intros; by eapply by_domain_key).
  transitivity (
    (d ∈ sorted_domains (dom new_by ∖ dom old_by) /\ is_Some (new_by !! d)) \/
    (d ∈ sorted_domains (dom old_by ∖ dom new_by) /\ is_Some (old_by !! d)) \/
    (d ∈ filter (fun d => old_by !! d <> new_by !! d) (sorted_domains (dom old_by ∩ dom new_by)) /\
     is_Some (new_by !! d))).
  - rewrite <-!(audit_part_domains actor reason) by done. naive_solver.
  - rewrite list_elem_of_filter, !sorted_domains_elem, elem_of_intersection, !elem_of_difference, !elem_of_dom.
    unfold is_Some. destruct (old_by !! d) as [o|], (new_by !! d) as [n|]; naive_solver.
Qed.

(** ** Witnesses *)

Definition demo_exception (d : string) : PinningException :=
  {| px_domain := d; px_reason := "pinned app"; px_owner := "ops"; px_ticket := None;
     px_expires_at_unix := None |}.

Definition demo_pinning : PinningRegistry :=
  {| pg_entries := [demo_exception ".zoom.us"; demo_exception "bank.example.com"];
     pg_source_path := Some "pins.json"%string; pg_audit_path := Some "pins.log"%string |}.

Lemma pinning_label_boundary_witness :
  pinning_matches 0 "Web.Zoom.us." demo_pinning = true /\
  pinning_matches 0 "notzoom.us" demo_pinning = false.
Proof.
  assert (Hv : validate_entries [demo_exception "Bank.example.com"; demo_exception ".zoom.us"] =
               Ok (pg_entries demo_pinning)) by (vm_compute; reflexivity).
  split; [|vm_compute; reflexivity].
  apply (pinning_label_boundary 0 "Web.Zoom.us." _ demo_pinning Hv).
  exists "web.zoom.us"%string, (demo_exception ".zoom.us").
  split; [vm_compute; reflexivity|]. split; [apply list_elem_of_here|]. split; [reflexivity|].
  right. exists "zoom.us"%string. split; [reflexivity|]. right. exists "web"%string. reflexivity.
Defined.

Definition demo_reload : PinningRegistry * list PinningAuditRecord * result PinningReloadReport PinningError :=
  pinning_reload 0 "alice" "rotate" (Ok (1%N, [demo_exception "bank.example.com"])) None demo_pinning.

Lemma pinning_reload_audited_witness :
  exists rec, rec ∈ demo_reload.1.2 /\ px_domain (ar_exception rec) = ".zoom.us"%string.
Proof.
  assert (Hout : demo_reload = (demo_reload.1.1, demo_reload.1.2, demo_reload.2)) by (vm_compute; reflexivity).
  assert (Hok : is_ok demo_reload.2 = true) by (vm_compute; reflexivity).
  pose proof (pinning_reload_audited 0 "alice" "rotate" (Ok (1%N, [demo_exception "bank.example.com"])) None
                demo_pinning demo_reload.1.1 demo_reload.1.2 demo_reload.2 Hout) as H.
  revert Hok H. generalize (demo_reload.2). intros [rep|e] Hok; [|discriminate Hok].
  intros (_ & _ & _ & H). apply (proj2 (H ".zoom.us"%string)).
  assert (Hold : present (by_domain (pg_entries demo_pinning) !! ".zoom.us"%string) = true)
    by (vm_compute; reflexivity).
  assert (Hnew : present (by_domain (pg_entries demo_reload.1.1) !! ".zoom.us"%string) = false)
    by (vm_compute; reflexivity).
  intros Heq. rewrite Heq, Hnew in Hold. discriminate Hold.
Defined.
