(* ===== verification/Policy.v ===== *)
(** * The policy of a request (src/proxy/src/policy_config.rs and the policy part
      of proxy_service.rs)

    Whether TLS is intercepted, and whether a request is allowed: categories, the
    ACL, the threat score, and the cache of decisions in front of them.

    The instant of each step, the minute of the local day and the iteration order
    of the set of categories are parameters. *)

From Stdlib Require Import Ascii String NArith ZArith Lia.
From Stdlib Require Import Floats.SpecFloat.
From stdpp Require Import base option gmap sets strings numbers list.
From S2P Require Import Prelude Float64 Http Net Acl PolicyCache ThreatScore Categorization Pinning.

(** ** Modes *)

Inductive PolicyMode := Sni | SelectiveMitm | FullMitm.
Inductive DeploymentProfile := Production | Development | TestProfile.

#[export] Instance PolicyMode_eq_dec : EqDecision PolicyMode.
Proof. solve_decision. Defined.
#[export] Instance DeploymentProfile_eq_dec : EqDecision DeploymentProfile.
Proof. solve_decision. Defined.

Definition policy_mode_from_str (s : string) : option PolicyMode :=
  let l := to_ascii_lowercase s in
  if String.eqb l "sni" then Some Sni
  else if String.eqb l "selective-mitm" || String.eqb l "selective" then Some SelectiveMitm
  else if String.eqb l "full-mitm" || String.eqb l "full" then Some FullMitm
  else None.

Definition deployment_profile_from_str (s : string) : option DeploymentProfile :=
  let l := to_ascii_lowercase s in
  if String.eqb l "production" || String.eqb l "prod" then Some Production
  else if String.eqb l "development" || String.eqb l "dev" then Some Development
  else if String.eqb l "test" then Some TestProfile
  else None.

Definition configured_policy_mode (env : Env) : PolicyMode :=
  default SelectiveMitm (env "POLICY_MODE"%string ≫= policy_mode_from_str).

Definition configured_mitm_categories (env : Env) : list string :=
  filter (fun s => str_is_empty s = false)
    ((fun s => to_ascii_lowercase (trim s)) <$>
     split_on "," (default "malware,phishing,illegal-content"%string (env "MITM_CATEGORIES"%string))).

Inductive MitmPolicyError := UnknownProfile | FullMitmInProduction | FullMitmNotAllowed.

Definition validate_mitm_policy_values (mode : PolicyMode) (profile : DeploymentProfile)
    (allow_full_mitm : bool) : result unit MitmPolicyError :=
  if negb (bool_decide (mode = FullMitm)) then Ok tt
  else if bool_decide (profile = Production) then Err FullMitmInProduction
  else if negb allow_full_mitm then Err FullMitmNotAllowed
  else Ok tt.

Definition validate_mitm_policy (env : Env) (mode : PolicyMode) : result DeploymentProfile MitmPolicyError :=
  match deployment_profile_from_str (default "production"%string (env "DEPLOYMENT_PROFILE"%string)) with
  | None => Err UnknownProfile
  | Some profile =>
      match validate_mitm_policy_values mode profile (env_flag_default_off env "ALLOW_FULL_MITM") with
      | Ok _ => Ok profile
      | Err e => Err e
      end
  end.

(** ** TLS interception *)

Record TlsPolicyDecision := {
  tp_mitm : bool;
  tp_decision_source : string;
  tp_bypass_reason : option string;
}.

Definition classify_tls_policy_decision (mitm_enabled pinned : bool) (mode : PolicyMode)
    (selective_mitm : bool) : TlsPolicyDecision :=
  if decide (mode = Sni) then
    {| tp_mitm := false; tp_decision_source := "sni"; tp_bypass_reason := Some "policy_mode_sni"%string |}
  else if negb mitm_enabled then
    {| tp_mitm := false; tp_decision_source := "sni"; tp_bypass_reason := Some "mitm_disabled"%string |}
  else if pinned then
    {| tp_mitm := false; tp_decision_source := "pinning-bypass";
       tp_bypass_reason := Some "certificate_pinning_exception"%string |}
  else
    match mode with
    | FullMitm => {| tp_mitm := true; tp_decision_source := "mitm"; tp_bypass_reason := None |}
    | SelectiveMitm =>
        {| tp_mitm := selective_mitm;
           tp_decision_source := if selective_mitm then "mitm" else "sni";
           tp_bypass_reason :=
             if selective_mitm then None else Some "category_not_selected_for_mitm"%string |}
    | Sni =>
        {| tp_mitm := false; tp_decision_source := "sni"; tp_bypass_reason := Some "policy_mode_sni"%string |}
    end.

Definition request_decision_source (url : string) : string :=
  if starts_with url "https://" then "mitm" else "sni".

(** ** The policy part of the service

    [pp_scheduled] is the urls whose online lookup was spawned and has not run. *)

Record ProxyPolicy {RE : RegexEngine} := {
  pp_policy_mode : PolicyMode;
  pp_mitm_enabled : bool;
  pp_mitm_categories : gset string;
  pp_pinning : PinningRegistry;
  pp_acl : option AclEngine;
  pp_categorization : option CategorizationEngine;
  pp_policy_cache : PolicyDecisionCache;
  pp_threat : ThreatScoreCache;
  pp_scheduled : list string;
}.
Arguments ProxyPolicy : clear implicits.

(** Iteration over a [HashSet<Category>]. *)
Class CategoryOrder := category_listing : gset Category -> list Category.

Definition parse_client_ip (client_ip : string) : option IpAddr :=
  match parse_ip client_ip with
  | Some (inl a) => Some (V4 a)
  | Some (inr a) => Some (V6 a)
  | None => None
  end.

Section Policy.
Context {RE : RegexEngine} `{!UrlParser, !CategoryOrder, !ScoreText}.
Variable oldest_key : PolicyEntries -> option PolicyCacheKey.

Definition with_categorization (e : option CategorizationEngine) (scheduled : list string)
    (p : ProxyPolicy RE) : ProxyPolicy RE :=
  {| pp_policy_mode := pp_policy_mode p; pp_mitm_enabled := pp_mitm_enabled p;
     pp_mitm_categories := pp_mitm_categories p; pp_pinning := pp_pinning p; pp_acl := pp_acl p;
     pp_categorization := e; pp_policy_cache := pp_policy_cache p; pp_threat := pp_threat p;
     pp_scheduled := scheduled |}.

Definition with_policy_cache (c : PolicyDecisionCache) (p : ProxyPolicy RE) : ProxyPolicy RE :=
  {| pp_policy_mode := pp_policy_mode p; pp_mitm_enabled := pp_mitm_enabled p;
     pp_mitm_categories := pp_mitm_categories p; pp_pinning := pp_pinning p; pp_acl := pp_acl p;
     pp_categorization := pp_categorization p; pp_policy_cache := c; pp_threat := pp_threat p;
     pp_scheduled := pp_scheduled p |}.

(** The names of the categories, and the feed they come from. *)
Definition categorize_url (now : N) (url : string) (p : ProxyPolicy RE)
    : ProxyPolicy RE * (list string * list string) :=
  match pp_categorization p with
  | None => (p, ([], []))
  | Some engine =>
      let '(engine, r) := categorize_local now url engine in
      let scheduled :=
        if bool_decide (cz_categories r = ∅) && online_enrichment_enabled engine
        then pp_scheduled p ++ [url] else pp_scheduled p in
      let categories :=
        filter (fun name => str_is_empty name = false) (acl_name <$> category_listing (cz_categories r)) in
      let threat_sources :=
        if negb (String.eqb (cz_source r) "unknown") && negb (bool_decide (categories = []))
        then [cz_source r] else [] in
      (with_categorization (Some engine) scheduled p, (categories, threat_sources))
  end.

(** A spawned lookup that runs, given what the two services answer. *)
Definition run_enrichment (now : N) (urlhaus phishtank : bool) (p : ProxyPolicy RE) : ProxyPolicy RE :=
  match pp_scheduled p, pp_categorization p with
  | url :: rest, Some engine =>
      with_categorization (Some (enrich_online now url urlhaus phishtank engine)) rest p
  | _, _ => p
  end.

Definition check_acl (minute : N) (url domain : string) (category_names : list string)
    (username : option string) (groups : list string) (client_ip : string) (p : ProxyPolicy RE)
    : option AclDecision :=
  engine ← pp_acl p;
  let decision :=
    check_access engine
      {| rq_url := url; rq_domain := domain; rq_categories := category_names; rq_user := username;
         rq_groups := groups; rq_client_ip := parse_client_ip client_ip; rq_now := minute |} in
  match d_action decision with Allow => None | _ => Some decision end.

(** Categories, then the ACL on them. *)
Definition evaluate_policy (now minute : N) (url domain : string) (username : option string)
    (groups : list string) (client_ip : string) (p : ProxyPolicy RE)
    : ProxyPolicy RE * (option AclDecision * list string * list string) :=
  let '(p, (category_names, threat_sources)) := categorize_url now url p in
  (p, (check_acl minute url domain category_names username groups client_ip p, category_names,
       threat_sources)).

Definition check_policy (now minute : N) (url domain : string) (username : option string)
    (groups : list string) (client_ip : string) (p : ProxyPolicy RE)
    : ProxyPolicy RE * (option AclDecision * list string * list string) :=
  let policy_active := present (pp_acl p) || present (pp_categorization p) in
  let use_cache := policy_active && policy_cache_enabled (pc_config (pp_policy_cache p)) in
  let cached := if use_cache then policy_lookup now username domain groups (pp_policy_cache p) else None in
  let '(p, (blocking, category_names, threat_sources)) :=
    match cached with
    | Some hit => (p, (ph_blocking hit, ph_categories hit, ph_threat_sources hit))
    | None => evaluate_policy now minute url domain username groups client_ip p
    end in
  let '(_, threat_sources, blocking) :=
    apply_to_policy now domain client_ip threat_sources blocking (pp_threat p) in
  (if use_cache && negb (present cached) then
     with_policy_cache
       (policy_store oldest_key now username domain groups category_names threat_sources blocking
          (pp_policy_cache p)) p
   else p,
   (blocking, category_names, threat_sources)).

Definition tls_policy_decision (now unix_now : N) (domain : string) (p : ProxyPolicy RE)
    : ProxyPolicy RE * TlsPolicyDecision :=
  if decide (pp_policy_mode p = Sni) then
    (p, classify_tls_policy_decision (pp_mitm_enabled p) false Sni false)
  else
    let pinned := pinning_matches unix_now domain (pp_pinning p) in
    let '(p, selective) :=
      if pp_mitm_enabled p && negb pinned && bool_decide (pp_policy_mode p = SelectiveMitm) then
        let '(p, (categories, _)) := categorize_url now ("https://" +:+ domain) p in
        (p, existsb (fun cat => bool_decide (to_ascii_lowercase cat ∈ pp_mitm_categories p)) categories)
      else (p, false) in
    (p, classify_tls_policy_decision (pp_mitm_enabled p) pinned (pp_policy_mode p) selective).

End Policy.

(** ** Lemmas *)

Section Properties.
Context {RE : RegexEngine} `{!UrlParser, !CategoryOrder, !ScoreText}.
Variable oldest_key : PolicyEntries -> option PolicyCacheKey.

Lemma categorize_url_frame now url (p : ProxyPolicy RE) :
  let p' := (categorize_url now url p).1 in
  pp_mitm_categories p' = pp_mitm_categories p /\ pp_acl p' = pp_acl p /\
  pp_policy_cache p' = pp_policy_cache p /\ pp_threat p' = pp_threat p /\
  pp_policy_mode p' = pp_policy_mode p /\ pp_mitm_enabled p' = pp_mitm_enabled p.
Proof.
  unfold categorize_url. destruct (pp_categorization p); [|done].
  destruct (categorize_local _ _ _). done.
Qed.

(** The threat score only acts on requests the ACL let through. *)
Lemma apply_to_policy_decision now domain client_ip sources blocking c :
  (apply_to_policy now domain client_ip sources blocking c).2 =
  match blocking with
  | Some d => Some d
  | None =>
      hit ← threat_lookup now domain client_ip c;
      if block_enabled (tc_config c) && fge (th_score hit) (ts_block_threshold (tc_config c))
      then Some (threat_decision hit) else None
  end.
Proof.
  unfold apply_to_policy. destruct (threat_lookup _ _ _ _) as [hit|]; [|by destruct blocking].
  simpl. destruct (_ && _); by destruct blocking.
Qed.

(** The decision of [check_policy]: a cached or evaluated one, then the score. *)
Lemma check_policy_decision now minute url domain u gs ip (p : ProxyPolicy RE) :
  let use_cache := (present (pp_acl p) || present (pp_categorization p)) &&
                   policy_cache_enabled (pc_config (pp_policy_cache p)) in
  (check_policy oldest_key now minute url domain u gs ip p).2.1.1 =
  match
    match (if use_cache then policy_lookup now u domain gs (pp_policy_cache p) else None) with
    | Some hit => ph_blocking hit
    | None =>
        check_acl minute url domain (categorize_url now url p).2.1 u gs ip p
    end
  with
  | Some d => Some d
  | None =>
      hit ← threat_lookup now domain ip (pp_threat p);
      if block_enabled (tc_config (pp_threat p)) &&
         fge (th_score hit) (ts_block_threshold (tc_config (pp_threat p)))
      then Some (threat_decision hit) else None
  end.
Proof.
  cbn zeta. unfold check_policy.
  destruct (if _ && _ then _ else _) as [hit|] eqn:Hc.
  - pose proof (apply_to_policy_decision now domain ip (ph_threat_sources hit) (ph_blocking hit)
                  (pp_threat p)) as Ha.
    destruct (apply_to_policy _ _ _ _ _ _) as [[? ?] blk]. simpl in *. by rewrite Ha.
  - unfold evaluate_policy. pose proof (categorize_url_frame now url p) as (_ & Hacl & _ & Ht & _).
    destruct (categorize_url now url p) as [p' [cats srcs]]. simpl in *.
    unfold check_acl. rewrite Hacl.
    pose proof (apply_to_policy_decision now domain ip srcs
      (engine ← pp_acl p;
       match d_action (check_access engine
         {| rq_url := url; rq_domain := domain; rq_categories := cats; rq_user := u; rq_groups := gs;
            rq_client_ip := parse_client_ip ip; rq_now := minute |}) with
       | Allow => None
       | _ => Some (check_access engine
         {| rq_url := url; rq_domain := domain; rq_categories := cats; rq_user := u; rq_groups := gs;
            rq_client_ip := parse_client_ip ip; rq_now := minute |})
       end) (pp_threat p')) as Ha.
    destruct (apply_to_policy _ _ _ _ _ _) as [[? ?] blk]. simpl in *. by rewrite Ha, Ht.
Qed.

(** What a decision that was not cached leaves behind. *)
Lemma check_policy_stores now minute url domain u gs ip (p : ProxyPolicy RE) :
  present (pp_acl p) || present (pp_categorization p) = true ->
  policy_cache_enabled (pc_config (pp_policy_cache p)) = true ->
  policy_lookup now u domain gs (pp_policy_cache p) = None ->
  let '(p', (blocking, cats, srcs)) := check_policy oldest_key now minute url domain u gs ip p in
  present (pp_acl p') || present (pp_categorization p') = true /\
  pp_policy_cache p' =
    policy_store oldest_key now u domain gs cats srcs blocking (pp_policy_cache p).
Proof.
  intros Hact Hen Hmiss. unfold check_policy, evaluate_policy. rewrite Hact, Hen, Hmiss. simpl.
  pose proof (categorize_url_frame now url p) as (_ & Hacl & Hpc & _).
  assert (Hcat : present (pp_categorization (categorize_url now url p).1) =
                 present (pp_categorization p)).
  { unfold categorize_url. destruct (pp_categorization p) eqn:He; [|simpl; by rewrite He].
    by destruct (categorize_local _ _ _). }
  destruct (categorize_url now url p) as [p' [cats srcs]]. simpl in *.
  destruct (apply_to_policy _ _ _ _ _ _) as [[? ?] blk]. simpl.
  by rewrite Hacl, Hcat, Hpc.
Qed.

(** ** Properties *)


(** The production gate: a service whose mode passed the startup validation
    under the production profile, which is also the default profile, intercepts
    only domains with a category selected for it. *)
Theorem production_interception_selective env now unix_now domain (p : ProxyPolicy RE) :
  validate_mitm_policy env (pp_policy_mode p) = Ok Production ->
  tp_mitm (tls_policy_decision now unix_now domain p).2 = true ->
  exists cat, cat ∈ (categorize_url now ("https://" +:+ domain) p).2.1 /\
    to_ascii_lowercase cat ∈ pp_mitm_categories p.
Proof.
  unfold validate_mitm_policy. destruct (deployment_profile_from_str _) as [prof|]; [|done].
  intros Hv. assert (Hmode : pp_policy_mode p <> FullMitm).
  { intros Hf. rewrite Hf in Hv. unfold validate_mitm_policy_values in Hv. simpl in Hv.
    destruct prof; simpl in Hv; [done| |]; by destruct (env_flag_default_off _ _). }
  unfold tls_policy_decision. clear Hv.
  pose proof (categorize_url_frame now ("https://" +:+ domain) p) as (Hc & _ & _ & _ & Hm & He).
  destruct (categorize_url now ("https://" +:+ domain) p) as [p' [cats srcs]]. simpl in *.
  destruct (pp_policy_mode p) eqn:Hmode'; [done| |done].
  destruct (pinning_matches _ _ _), (pp_mitm_enabled p) eqn:Hen; simpl; rewrite ?Hen, ?Hmode', ?He, ?Hm; simpl; try done.
  rewrite Hc. intros (cat & Hin%list_elem_of_In & Hd%bool_decide_eq_true)%existsb_exists. eauto.
Qed.


(** A cached decision forgets what it was made for: while it lasts, once a request of a
    principal to a domain is blocked, every later one is, whatever its url, its
    client address and the time of day, even when the block came from the score
    of another client's address. *)
Theorem cached_block_reaches_other_clients now minute url ip later minute' url' ip' domain u gs
    (p : ProxyPolicy RE) d :
  present (pp_acl p) || present (pp_categorization p) = true ->
  policy_cache_enabled (pc_config (pp_policy_cache p)) = true ->
  policy_lookup now u domain gs (pp_policy_cache p) = None ->
  (later <= now + pc_ttl (pc_config (pp_policy_cache p)))%N ->
  (check_policy oldest_key now minute url domain u gs ip p).2.1.1 = Some d ->
  (check_policy oldest_key later minute' url' domain u gs ip'
     (check_policy oldest_key now minute url domain u gs ip p).1).2.1.1 = Some d.
Proof.
  intros Hact Hen Hmiss Hl. rewrite (check_policy_decision later). cbn zeta.
  pose proof (check_policy_stores now minute url domain u gs ip p Hact Hen Hmiss) as Hst.
  destruct (check_policy _ now _ _ _ _ _ _ _) as [p' [[blk cats] srcs]]. simpl.
  destruct Hst as [Hact' Hpc]. intros ->. rewrite Hact', Hpc.
  rewrite policy_store_lookup_key by done.
  by rewrite policy_store_config, Hen.
Qed.

End Properties.

(** ** Witnesses *)

#[local] Instance demo_url_parser : UrlParser :=
  fun url => Some (Some (String.substring 8 (String.length url) url)).
#[local] Instance demo_order : CategoryOrder := elements.
#[local] Instance demo_score_text : ScoreText := fun _ => "0.95"%string.

Definition demo_threats : ThreatScoreCache :=
  replace_all 0
    [{| th_entity_type := "client_ip"; th_entity_id := "10.0.0.66"; th_model := "beacon";
        th_score := f64_of_N 1; th_severity := "high" |}]
    (ThreatScoreCache_new
       {| ts_enabled := true; ts_poll_url := EmptyString; ts_poll_interval := from_secs 60;
          ts_cache_ttl := from_secs 300; ts_warn_threshold := f64_of_N 1;
          ts_block_threshold := f64_of_N 1 |}).

Definition demo_policy (cache_ttl : N) : ProxyPolicy prefix_regex :=
  {| pp_policy_mode := SelectiveMitm; pp_mitm_enabled := true;
     pp_mitm_categories := list_to_set (configured_mitm_categories (fun _ => None));
     pp_pinning := {| pg_entries := []; pg_source_path := None; pg_audit_path := None |};
     pp_acl := Some sample_engine;
     pp_categorization :=
       Some {| ce_config := {| ct_cache_ttl := from_secs 3600; ct_ut1_enabled := true;
                               ct_urlhaus_enabled := false; ct_phishtank_enabled := false;
                               ct_custom_db_enabled := false; ct_rkn_sync_enabled := false |};
               ce_cache := ∅;
               ce_local_db := Some {["evil.example.com"%string := {[Malware]}]};
               ce_custom_db := None; ce_rkn_domains := ∅ |};
     pp_policy_cache := PolicyDecisionCache_new {| pc_ttl := cache_ttl; pc_max_keys := 10 |};
     pp_threat := demo_threats; pp_scheduled := [] |}.

Lemma production_interception_selective_witness :
  exists cat, cat ∈ (categorize_url 0 ("https://" +:+ "evil.example.com") (demo_policy 0)).2.1 /\
    to_ascii_lowercase cat ∈ pp_mitm_categories (demo_policy 0).
Proof.
  apply (production_interception_selective (fun _ => None) 0 0 "evil.example.com" (demo_policy 0)).
  - vm_compute. reflexivity.
  - vm_compute. reflexivity.
Defined.


(** The clean client is blocked because of the other one's score. *)
Lemma cached_block_reaches_other_clients_witness :
  let p := demo_policy (from_secs 120) in
  let first := check_policy oldest_listed 0 600 "https://www.example.com/" "www.example.com" None []
                 "10.0.0.66" p in
  (check_policy oldest_listed 5 600 "https://www.example.com/" "www.example.com" None [] "10.0.0.1" p).2.1.1
    = None /\
  present (check_policy oldest_listed 5 600 "https://www.example.com/" "www.example.com" None []
     "10.0.0.1" first.1).2.1.1 = true.
Proof.
  cbn zeta. split; [vm_compute; reflexivity|].
  rewrite (cached_block_reaches_other_clients oldest_listed 0 600 "https://www.example.com/" "10.0.0.66"
    5 600 "https://www.example.com/" "10.0.0.1" "www.example.com" None [] (demo_policy (from_secs 120))
    (threat_decision {| th_entity_type := "client_ip"; th_entity_id := "10.0.0.66";
                        th_model := "beacon"; th_score := f64_of_N 1; th_severity := "high" |})).
  - reflexivity.
  - reflexivity.
  - vm_compute. reflexivity.
  - vm_compute. reflexivity.
  - vm_compute. discriminate.
  - vm_compute. reflexivity.
Defined.
