(* ===== verification/Dns.v ===== *)
(** * The DNS sinkhole (src/dns-sinkhole/src: dns.rs, zone.rs, server.rs, doh_dot.rs)

    The codec of DNS messages, the zone file, and what the server answers to a
    query over UDP, DoT and DoH.

    Base64url is a parameter, and what the upstream resolver answers is an
    argument.  Packets are byte strings and offsets natural numbers. *)

From Stdlib Require Import Ascii String NArith Lia.
From stdpp Require Import base option gmap sets strings pretty numbers list.
From S2P Require Import Prelude Hosts Utf8 Bytes Http Net.

(** ** Messages *)

Definition TYPE_A : N := 1.
Definition TYPE_AAAA : N := 28.
Definition CLASS_IN : N := 1.
Definition RCODE_NXDOMAIN : N := 3.
Definition RCODE_FORMERR : N := 1.

Record Question := {
  qu_name : string;
  qu_qtype : N;
  qu_qclass : N;
}.

Record Query := {
  qy_id : N;
  qy_recursion_desired : bool;
  qy_question : Question;
  qy_question_bytes : string;
}.

Inductive DnsError :=
| ShortHeader
| QuestionCount (qdcount : N)
| NotAQuery
| NameOob
| BadPointer
| PointerLoop
| LabelOob
| LabelUtf8
| ShortQuestion.

(** [buf[off..off + n]], for a range inside the buffer. *)
Definition str_slice (off n : nat) (buf : string) : string := str_take n (str_drop off buf).

(** The big-endian [u16] at an offset inside the buffer. *)
Definition u16_at (off : nat) (buf : string) : N := be_value 0 (str_slice off 2 buf).

(** The loop of [read_name]; the outer [None] is fuel that runs out. *)
Fixpoint read_name_loop (fuel : nat) (buf : string) (off end_off : nat) (jumped : bool) (hops : nat)
    (labels : list string) : option (result (string * nat) DnsError) :=
  match fuel with
  | O => None
  | S fuel' =>
      match String.get off buf with
      | None => Some (Err NameOob)
      | Some c =>
          let len := char_code c in
          if (len =? 0)%N then Some (Ok (join "." labels, if jumped then end_off else S off))
          else if (N.land len 192 =? 192)%N then
            match String.get (S off) buf with
            | None => Some (Err BadPointer)
            | Some c' =>
                let ptr := N.lor (N.shiftl (N.land len 63) 8) (char_code c') in
                if Nat.ltb 10 (S hops) then Some (Err PointerLoop)
                else
                  read_name_loop fuel' buf (N.to_nat ptr) (if jumped then end_off else off + 2) true
                    (S hops) labels
            end
          else
            let off := S off in
            let end_ := off + N.to_nat len in
            if Nat.ltb (String.length buf) end_ then Some (Err LabelOob)
            else
              let label := str_slice off (N.to_nat len) buf in
              if negb (String.eqb (from_utf8_lossy label) label) then Some (Err LabelUtf8)
              else
                read_name_loop fuel' buf end_ (if jumped then end_off else end_) jumped hops
                  (labels ++ [to_ascii_lowercase label])
      end
  end.

(** Ten jumps, and between two jumps the offset grows: this fuel always suffices
    ([read_name_total]). *)
Definition name_fuel (buf : string) : nat := 11 * S (String.length buf).

Definition read_name (buf : string) (off : nat) : option (result (string * nat) DnsError) :=
  read_name_loop (name_fuel buf) buf off off false 0 [].

Definition parse_query (buf : string) : option (result Query DnsError) :=
  if Nat.ltb (String.length buf) 12 then Some (Err ShortHeader)
  else
    let id := u16_at 0 buf in
    let flags := u16_at 2 buf in
    let qdcount := u16_at 4 buf in
    if negb (qdcount =? 1)%N then Some (Err (QuestionCount qdcount))
    else if N.testbit flags 15 then Some (Err NotAQuery)
    else
      let rd := negb (N.land flags 256 =? 0)%N in
      named ← read_name buf 12;
      match named with
      | Err e => Some (Err e)
      | Ok (name, off) =>
          if Nat.ltb (String.length buf) (off + 4) then Some (Err ShortQuestion)
          else
            Some (Ok {| qy_id := id; qy_recursion_desired := rd;
                        qy_question := {| qu_name := name; qu_qtype := u16_at off buf;
                                          qu_qclass := u16_at (off + 2) buf |};
                        qy_question_bytes := str_slice 12 (off + 4 - 12) buf |})
      end.

Definition answer_record (a : N * N * string) : string :=
  let '(rtype, ttl, rdata) := a in
  put_u8 192 +:+ put_u8 12 +:+ put_u16 rtype +:+ put_u16 CLASS_IN +:+ put_u32 ttl +:+
  put_u16 (str_len rdata) +:+ rdata.

Definition response_flags (q : Query) (rcode : N) (answers : list (N * N * string)) : N :=
  let flags := 32768%N in
  let flags := if qy_recursion_desired q then N.lor flags 256 else flags in
  let flags := N.lor flags 128 in
  let flags := match answers with [] => flags | _ => N.lor flags 1024 end in
  N.lor flags rcode.

Definition build_response (q : Query) (rcode : N) (answers : list (N * N * string)) : string :=
  put_u16 (qy_id q) +:+ put_u16 (response_flags q rcode answers) +:+ put_u16 1 +:+
  put_u16 (N.of_nat (length answers)) +:+ put_u16 0 +:+ put_u16 0 +:+ qy_question_bytes q +:+
  foldr (fun a s => answer_record a +:+ s) EmptyString answers.

Definition formerr (id : N) : string :=
  put_u16 id +:+ put_u8 128 +:+ put_u8 RCODE_FORMERR +:+ put_u32 0 +:+ put_u32 0.

(** The octets of an address. *)
Definition a_rdata (ip : N) : string := put_u32 ip.
Definition aaaa_rdata (ip : N) : string :=
  put_u32 (ip / 2 ^ 96) +:+ put_u32 (ip / 2 ^ 64) +:+ put_u32 (ip / 2 ^ 32) +:+ put_u32 ip.

(** ** The zone *)

Inductive ZoneAction :=
| ZonePolicy
| ZoneA (ip : N)
| ZoneAaaa (ip : N).

Record Zone := {
  z_exact : gmap string ZoneAction;
  z_suffixes : list (string * ZoneAction);
}.

Definition empty_zone : Zone := {| z_exact := ∅; z_suffixes := [] |}.

Fixpoint strip_comment_go (in_quote : bool) (line : string) : string :=
  match line with
  | EmptyString => EmptyString
  | String ch line' =>
      let in_quote := if (char_code ch =? 34)%N then negb in_quote else in_quote in
      if negb in_quote && (Ascii.eqb ch ";" || Ascii.eqb ch "#") then EmptyString
      else String ch (strip_comment_go in_quote line')
  end.

Definition strip_comment (line : string) : string := strip_comment_go false line.

Definition normalize_name (name : string) : string :=
  to_ascii_lowercase (trim_end_matches "." (trim name)).

Definition add_suffix (name : string) (a : ZoneAction) (z : Zone) : Zone :=
  {| z_exact := z_exact z; z_suffixes := z_suffixes z ++ [(name, a)] |}.

Definition add_exact (name : string) (a : ZoneAction) (z : Zone) : Zone :=
  {| z_exact := <[name := a]> (z_exact z); z_suffixes := z_suffixes z |}.

Inductive ZoneError := MissingType | BadA | BadAaaa | UnsupportedType (rtype : string).

(** The action of a record of the given type and data. *)
Definition record_action (rtype rdata : string) : result ZoneAction ZoneError :=
  if eq_ignore_ascii_case rtype "CNAME" then Ok ZonePolicy
  else if eq_ignore_ascii_case rtype "A" then
    match parse_ipv4 rdata with Some ip => Ok (ZoneA ip) | None => Err BadA end
  else if eq_ignore_ascii_case rtype "AAAA" then
    match parse_ipv6 rdata with Some ip => Ok (ZoneAaaa ip) | None => Err BadAaaa end
  else Err (UnsupportedType rtype).

(** Skip the first field when it satisfies the predicate. *)
Definition skip_if (p : string -> bool) (fields : list string) : list string :=
  match fields with f :: fields' => if p f then fields' else fields | [] => [] end.

Definition parse_line (z : Zone) (line : string) : result Zone ZoneError :=
  match split_whitespace line with
  | [] => Ok z
  | [tok] =>
      Ok (match strip_prefix "." tok with
          | Some suf => add_suffix (normalize_name suf) ZonePolicy z
          | None => add_exact (normalize_name tok) ZonePolicy z
          end)
  | name_raw :: fields =>
      let fields := skip_if (all_chars is_ascii_digit) fields in
      let fields := skip_if (fun f => eq_ignore_ascii_case f "IN") fields in
      match fields with
      | [] => Err MissingType
      | rtype :: rdata =>
          match record_action rtype (join " " rdata) with
          | Err e => Err e
          | Ok a =>
              Ok (match strip_prefix "*." name_raw with
                  | Some s => add_suffix (normalize_name s) a z
                  | None => add_exact (normalize_name name_raw) a z
                  end)
          end
      end
  end.

(** The lines that hold a rule, numbered from one. *)
Fixpoint zone_parse_lines (lineno : nat) (lines : list string) (z : Zone)
    : result Zone (nat * ZoneError) :=
  match lines with
  | [] => Ok z
  | raw :: lines' =>
      let line := trim (strip_comment raw) in
      if str_is_empty line || starts_with line "$" then zone_parse_lines (S lineno) lines' z
      else
        match parse_line z line with
        | Err e => Err (lineno, e)
        | Ok z => zone_parse_lines (S lineno) lines' z
        end
  end.

Definition zone_parse (text : string) : result Zone (nat * ZoneError) :=
  zone_parse_lines 1 (str_lines text) empty_zone.

Definition suffix_matches (name suf : string) : bool :=
  String.eqb name suf || ends_with name ("." +:+ suf).

Definition zone_lookup (qname : string) (z : Zone) : option ZoneAction :=
  let name := normalize_name qname in
  match z_exact z !! name with
  | Some a => Some a
  | None => snd <$> List.find (fun s => suffix_matches name s.1) (z_suffixes z)
  end.

(** ** The server *)

Inductive BlockAction := Sinkhole | NxDomain.

Record DnsConfig := {
  dc_action : BlockAction;
  dc_sinkhole_a : N;
  dc_sinkhole_aaaa : N;
  dc_ttl : N;
  dc_doh_path : string;
}.

Definition build_block_response (cfg : DnsConfig) (q : Query) (action : ZoneAction) : string :=
  let qtype := qu_qtype (qy_question q) in
  match action with
  | ZoneA ip =>
      if ((qtype =? TYPE_A) || (qtype =? 255))%N
      then build_response q 0 [(TYPE_A, dc_ttl cfg, a_rdata ip)]
      else build_response q 0 []
  | ZoneAaaa ip =>
      if ((qtype =? TYPE_AAAA) || (qtype =? 255))%N
      then build_response q 0 [(TYPE_AAAA, dc_ttl cfg, aaaa_rdata ip)]
      else build_response q 0 []
  | ZonePolicy =>
      match dc_action cfg with
      | NxDomain => build_response q RCODE_NXDOMAIN []
      | Sinkhole =>
          if (qtype =? TYPE_A)%N then build_response q 0 [(TYPE_A, dc_ttl cfg, a_rdata (dc_sinkhole_a cfg))]
          else if (qtype =? TYPE_AAAA)%N then
            build_response q 0 [(TYPE_AAAA, dc_ttl cfg, aaaa_rdata (dc_sinkhole_aaaa cfg))]
          else build_response q RCODE_NXDOMAIN []
      end
  end.

(** The answer, and whether the packet went to the upstream resolver. *)
Definition process_dns_query (packet : string) (cfg : DnsConfig) (z : Zone)
    (forward : string -> result string string) : option (bool * result string string) :=
  parsed ← parse_query packet;
  match parsed with
  | Err _ =>
      let id := if Nat.leb 2 (String.length packet) then u16_at 0 packet else 0%N in
      Some (false, Ok (formerr id))
  | Ok q =>
      if negb (qu_qclass (qy_question q) =? CLASS_IN)%N then Some (false, Ok (build_response q 0 []))
      else
        match zone_lookup (qu_name (qy_question q)) z with
        | Some action => Some (false, Ok (build_block_response cfg q action))
        | None => Some (true, forward packet)
        end
  end.

(** ** DoT and DoH *)

Class Base64Url := base64url_decode : string -> option string.

Definition decode_doh_base64url `{!Base64Url} (input : string) : option string :=
  let input := trim input in
  if str_is_empty input then None else base64url_decode (trim_end_matches "=" input).

Definition encode_dot_frame (packet : string) : string := put_u16 (str_len packet) +:+ packet.

Definition parse_dot_length (buf : string) : option N :=
  if Nat.ltb (String.length buf) 2 then None else Some (u16_at 0 buf).

(** One connection: the frames of the bytes received, each answered until an error;
    the bytes written.  [fuel] bounds the number of frames. *)
Fixpoint dot_connection (fuel : nat) (input : string) (cfg : DnsConfig) (z : Zone)
    (forward : string -> result string string) : option string :=
  match fuel with
  | O => None
  | S fuel' =>
      match parse_dot_length (str_take 2 input) with
      | None => Some EmptyString
      | Some len =>
          let rest := str_drop 2 input in
          if Nat.ltb (String.length rest) (N.to_nat len) then Some EmptyString
          else
            '(_, answer) ← process_dns_query (str_take (N.to_nat len) rest) cfg z forward;
            match answer with
            | Err _ => Some EmptyString
            | Ok resp =>
                tail ← dot_connection fuel' (str_drop (N.to_nat len) rest) cfg z forward;
                Some (encode_dot_frame resp +:+ tail)
            end
      end
  end.

(** One DoH request: path, query, method, headers and body (an error is one of the
    body stream); the status and the body of the answer. *)
Definition doh_request `{!Base64Url} (path query method : string) (headers : HeaderMap)
    (body : result string string) (cfg : DnsConfig) (z : Zone)
    (forward : string -> result string string) : option (N * string) :=
  if negb (String.eqb path (dc_doh_path cfg)) then Some (404%N, "Not Found"%string)
  else
    match
      (if String.eqb method "GET" then
         match head (omap (strip_prefix "dns=") (split_on "&" query)) with
         | None => Err (400%N, "Missing dns param"%string)
         | Some val =>
             match decode_doh_base64url val with
             | Some packet => Ok packet
             | None => Err (400%N, "Invalid dns param"%string)
             end
         end
       else if String.eqb method "POST" then
         if negb (bool_decide (hm_get headers "content-type" = Some "application/dns-message"%string))
         then Err (415%N, "Unsupported media type"%string)
         else match body with Ok b => Ok b | Err _ => Err (400%N, "Body error"%string) end
       else Err (405%N, "Method not allowed"%string))
    with
    | Err answer => Some answer
    | Ok packet =>
        '(_, answer) ← process_dns_query packet cfg z forward;
        Some (match answer with
              | Ok resp => (200%N, resp)
              | Err _ => (500%N, "Server error"%string)
              end)
    end.

(** ** Lemmas: reading *)

Lemma get_None_length n s : String.get n s = None <-> String.length s <= n.
Proof.
  revert n. induction s as [|c s IH]; intros [|n]; simpl; try (split; (done || lia)).
  rewrite IH. lia.
Qed.

Lemma get_Some_length n s c : String.get n s = Some c -> n < String.length s.
Proof.
  intros H. destruct (decide (n < String.length s)); [done|].
  assert (String.get n s = None) by (apply get_None_length; lia). congruence.
Qed.

Lemma get_app_length a c b : String.get (String.length a) (a +:+ String c b) = Some c.
Proof. induction a; [done|]. by simpl. Qed.

Lemma str_slice_mid a b c : str_slice (String.length a) (String.length b) (a +:+ b +:+ c) = b.
Proof. unfold str_slice. by rewrite str_drop_app, str_take_app. Qed.

Lemma str_slice_at off n a b c :
  off = String.length a -> n = String.length b -> str_slice off n (a +:+ b +:+ c) = b.
Proof. intros -> ->. apply str_slice_mid. Qed.

Lemma u16_at_put off a n b :
  off = String.length a -> (n <= u16_max)%N -> u16_at off (a +:+ put_u16 n +:+ b) = n.
Proof.
  intros Hoff Hn. unfold u16_at. rewrite (str_slice_at off 2 a (put_u16 n) b) by done.
  rewrite put_u16_value. apply N.mod_small. unfold u16_max in Hn. lia.
Qed.

(** The measure that decreases: the jumps left, then the bytes left. *)
Lemma read_name_loop_total fuel buf off end_off jumped hops labels :
  hops <= 10 ->
  (10 - hops) * S (String.length buf) + (String.length buf - off) < fuel ->
  is_Some (read_name_loop fuel buf off end_off jumped hops labels).
Proof.
  revert off end_off jumped hops labels.
  induction fuel as [|fuel IH]; intros off end_off jumped hops labels Hh Hf;
    [by apply Nat.nlt_0_r in Hf|]. simpl.
  destruct (String.get off buf) as [c|] eqn:Hc; [|done]. apply get_Some_length in Hc.
  destruct (char_code c =? 0)%N eqn:Hz; [done|]. apply N.eqb_neq in Hz.
  destruct (_ =? 192)%N.
  - destruct (String.get (S off) buf) as [c'|]; [|done].
    destruct (Nat.ltb 10 (S hops)) eqn:Hl; [done|]. apply Nat.ltb_ge in Hl. apply IH; [lia|].
    replace (10 - hops) with (S (10 - S hops)) in Hf by lia. rewrite Nat.mul_succ_l in Hf.
    revert Hf. generalize ((10 - S hops) * S (String.length buf)). lia.
  - destruct (Nat.ltb _ _) eqn:Hl; [done|]. apply Nat.ltb_ge in Hl.
    destruct (negb _); [done|]. apply IH; [done|]. lia.
Qed.

Lemma read_name_Some buf off : is_Some (read_name buf off).
Proof. apply read_name_loop_total; [lia|]. unfold name_fuel. lia. Qed.

Lemma parse_query_Some buf : is_Some (parse_query buf).
Proof.
  unfold parse_query. repeat case_match; try done.
  destruct (read_name_Some buf 12) as [[[name off]|e] ->]; simpl; [|done]. by case_match.
Qed.

Lemma process_Some packet cfg z forward : is_Some (process_dns_query packet cfg z forward).
Proof.
  unfold process_dns_query. destruct (parse_query_Some packet) as [[q|e] ->]; simpl; [|done].
  case_match; [done|]. by case_match.
Qed.

Lemma dot_connection_Some fuel input cfg z forward :
  String.length input < fuel -> is_Some (dot_connection fuel input cfg z forward).
Proof.
  revert input. induction fuel as [|fuel IH]; intros input Hf; [lia|].
  cbn [dot_connection]. unfold parse_dot_length. destruct (Nat.ltb (String.length (str_take 2 input)) 2) eqn:Hl; [done|].
  rewrite str_take_length in Hl. apply Nat.ltb_ge in Hl. set (n := N.to_nat (u16_at 0 _)).
  case_match; [done|].
  destruct (process_Some (str_take n (str_drop 2 input)) cfg z forward) as [[? [resp|e]] ->];
    cbn [mbind option_bind]; [|done].
  assert (Ht : is_Some (dot_connection fuel (str_drop n (str_drop 2 input)) cfg z forward)).
  { apply IH. rewrite !str_drop_length. lia. }
  by destruct Ht as [t ->].
Qed.

(** ** Lemmas: queries on the wire *)

Definition label_wire (l : string) : string := put_u8 (str_len l) +:+ l.
Definition name_wire (labels : list string) : string :=
  foldr (fun l s => label_wire l +:+ s) (put_u8 0) labels.

(** A label as RFC 1035 allows it, in UTF-8. *)
Definition label_ok (l : string) : bool :=
  (1 <=? str_len l)%N && (str_len l <=? 63)%N && String.eqb (from_utf8_lossy l) l.

(** A message with one question; [counts] are the three other counts. *)
Definition query_wire (id flags : N) (counts : string) (labels : list string) (qtype qclass : N)
    (extra : string) : string :=
  put_u16 id +:+ put_u16 flags +:+ put_u16 1 +:+ counts +:+ name_wire labels +:+ put_u16 qtype +:+
  put_u16 qclass +:+ extra.

Lemma short_not_pointer n : (n <= 63)%N -> (N.land n 192 =? 192)%N = false.
Proof.
  intros Hn. assert (Hall : forallb (fun k => negb (N.land (N.of_nat k) 192 =? 192)%N) (seq 0 64) = true)
    by reflexivity.
  rewrite forallb_forall in Hall. specialize (Hall (N.to_nat n)).
  rewrite N2Nat.id in Hall. apply negb_true_iff, Hall, in_seq. lia.
Qed.

Lemma read_name_loop_labels labels fuel pre rest end_off hops acc :
  forallb label_ok labels = true -> length labels < fuel ->
  read_name_loop fuel (pre +:+ name_wire labels +:+ rest) (String.length pre) end_off false hops acc =
  Some (Ok (join "." (acc ++ (to_ascii_lowercase <$> labels)),
            String.length pre + String.length (name_wire labels))).
Proof.
  revert fuel pre end_off acc. induction labels as [|l labels IH]; intros fuel pre end_off acc Hok Hf;
    (destruct fuel as [|fuel]; [simpl in Hf; lia|]).
  - cbn [read_name_loop name_wire foldr put_u8 String.append].
    rewrite get_app_length. simpl. rewrite app_nil_r. do 3 f_equal. lia.
  - cbn [forallb] in Hok. apply andb_true_iff in Hok as [Hl Hok]. unfold label_ok in Hl. bool_hyps.
    cbn [name_wire foldr]. fold (name_wire labels). unfold label_wire at 1 2.
    assert (Hcode : char_code (byte (str_len l)) = str_len l).
    { rewrite char_code_byte. apply N.mod_small. lia. }
    cbn [read_name_loop put_u8 String.append]. rewrite get_app_length, Hcode.
    rewrite (proj2 (N.eqb_neq _ _)) by lia. rewrite short_not_pointer by lia.
    replace (N.to_nat (str_len l)) with (String.length l) by (unfold str_len; lia).
    set (c := byte (str_len l)).
    replace (pre +:+ String c ((l +:+ name_wire labels) +:+ rest))
      with ((pre +:+ String c EmptyString) +:+ l +:+ name_wire labels +:+ rest)
      by (by rewrite !string_app_assoc).
    assert (Hlen : S (String.length pre) = String.length (pre +:+ String c EmptyString))
      by (rewrite string_length_app; simpl; lia).
    rewrite (proj2 (Nat.ltb_ge _ _)) by (rewrite !string_length_app; simpl; lia).
    rewrite Hlen, str_slice_mid, (proj2 (String.eqb_eq _ _)) by done. cbn [negb].
    replace (String.length (pre +:+ String c EmptyString) + String.length l)
      with (String.length ((pre +:+ String c EmptyString) +:+ l)) by (by rewrite string_length_app).
    rewrite <- (string_app_assoc _ l). simpl in Hf. rewrite IH by (try done; lia).
    rewrite fmap_cons, <- app_assoc. simpl. do 3 f_equal. rewrite !string_length_app. simpl. lia.
Qed.

Lemma name_wire_length labels : length labels < String.length (name_wire labels).
Proof.
  induction labels as [|l labels IH]; [simpl; lia|]. cbn [name_wire foldr]. fold (name_wire labels).
  unfold label_wire. rewrite !string_length_app. simpl. lia.
Qed.

Lemma parse_query_wire id flags counts labels qtype qclass extra :
  (id <= u16_max)%N -> (flags <= u16_max)%N -> (qtype <= u16_max)%N -> (qclass <= u16_max)%N ->
  N.testbit flags 15 = false -> String.length counts = 6 -> forallb label_ok labels = true ->
  parse_query (query_wire id flags counts labels qtype qclass extra) =
  Some (Ok {| qy_id := id; qy_recursion_desired := negb (N.land flags 256 =? 0)%N;
              qy_question := {| qu_name := join "." (to_ascii_lowercase <$> labels);
                                qu_qtype := qtype; qu_qclass := qclass |};
              qy_question_bytes := name_wire labels +:+ put_u16 qtype +:+ put_u16 qclass |}).
Proof.
  intros Hid Hfl Hty Hcl Hqr Hcnt Hlab. unfold parse_query.
  set (pre := put_u16 id +:+ put_u16 flags +:+ put_u16 1 +:+ counts).
  set (tail := put_u16 qtype +:+ put_u16 qclass +:+ extra).
  assert (Hw : query_wire id flags counts labels qtype qclass extra = pre +:+ name_wire labels +:+ tail)
    by (unfold pre, tail, query_wire; by rewrite !string_app_assoc).
  assert (Hpre : String.length pre = 12) by (unfold pre; rewrite !string_length_app, Hcnt; done).
  assert (Htail : 4 <= String.length tail) by (unfold tail; rewrite !string_length_app; simpl; lia).
  assert (H0 : u16_at 0 (query_wire id flags counts labels qtype qclass extra) = id)
    by (by apply (u16_at_put 0 EmptyString)).
  assert (H2 : u16_at 2 (query_wire id flags counts labels qtype qclass extra) = flags)
    by (by apply (u16_at_put 2 (put_u16 id))).
  assert (H4 : u16_at 4 (query_wire id flags counts labels qtype qclass extra) = 1%N).
  { unfold query_wire. rewrite <- (string_app_assoc (put_u16 id)). by apply u16_at_put. }
  rewrite H0, H2, H4, Hqr. clear H0 H2 H4. rewrite Hw.
  rewrite (proj2 (Nat.ltb_ge _ _)) by (rewrite string_length_app; lia). cbn [negb N.eqb Pos.eqb].
  unfold read_name. rewrite <- Hpre at 1 2.
  rewrite read_name_loop_labels; [|done|].
  2: { pose proof (name_wire_length labels). unfold name_fuel. rewrite !string_length_app. lia. }
  cbn [mbind option_bind]. rewrite Hpre.
  set (n := String.length (name_wire labels)).
  rewrite (proj2 (Nat.ltb_ge _ _)) by (rewrite !string_length_app; unfold n; lia).
  assert (Hoff : 12 + n = String.length (pre +:+ name_wire labels)) by (rewrite string_length_app, Hpre; done).
  do 2 f_equal. f_equal.
  - f_equal.
    + rewrite <- (string_app_assoc pre). unfold tail. by apply u16_at_put.
    + rewrite <- (string_app_assoc pre). unfold tail.
      rewrite <- (string_app_assoc (pre +:+ name_wire labels)). apply u16_at_put; [|done].
      rewrite string_length_app, <- Hoff. done.
  - unfold tail. rewrite <- (string_app_assoc (put_u16 qtype)), <- (string_app_assoc (name_wire labels)).
    apply str_slice_at; [done|]. rewrite !string_length_app. fold n. simpl. lia.
Qed.

(** ** Lemmas: zones *)

Lemma find_app {A} (P : A -> bool) (l k : list A) :
  List.find P (l ++ k) = match List.find P l with Some x => Some x | None => List.find P k end.
Proof. induction l as [|x l IH]; simpl; [done|]. by destruct (P x). Qed.

Lemma add_exact_lookup n a q z :
  is_Some (zone_lookup q z) \/ normalize_name q = n -> is_Some (zone_lookup q (add_exact n a z)).
Proof.
  unfold zone_lookup. simpl. destruct (decide (normalize_name q = n)) as [->|Hn].
  - by rewrite lookup_insert_eq.
  - rewrite lookup_insert_ne by done. naive_solver.
Qed.

Lemma add_suffix_lookup n a q z :
  is_Some (zone_lookup q z) \/ suffix_matches (normalize_name q) n = true ->
  is_Some (zone_lookup q (add_suffix n a z)).
Proof.
  unfold zone_lookup. simpl. destruct (z_exact z !! normalize_name q); [done|].
  rewrite find_app. destruct (List.find _ (z_suffixes z)); [done|]. simpl.
  intros [[? [=]]|Hm]. by rewrite Hm.
Qed.

(** A rule only ever adds names. *)
Lemma parse_line_keeps z line z' q :
  parse_line z line = Ok z' -> is_Some (zone_lookup q z) -> is_Some (zone_lookup q z').
Proof.
  intros Hp Hq. unfold parse_line in Hp.
  repeat case_match; simplify_eq; auto using add_exact_lookup, add_suffix_lookup.
Qed.

Lemma zone_parse_lines_keeps n lines z z' q :
  zone_parse_lines n lines z = Ok z' -> is_Some (zone_lookup q z) -> is_Some (zone_lookup q z').
Proof.
  revert n z. induction lines as [|raw lines IH]; intros n z; simpl; [by intros [= ->]|].
  case_match; [apply IH|]. destruct (parse_line z _) as [z1|e] eqn:Hl; [|done].
  intros Hp Hq. eapply IH; [exact Hp|]. by eapply parse_line_keeps.
Qed.

Lemma zone_parse_lines_line n lines z z' raw q :
  zone_parse_lines n lines z = Ok z' -> raw ∈ lines ->
  str_is_empty (trim (strip_comment raw)) || starts_with (trim (strip_comment raw)) "$" = false ->
  (forall z0 z1, parse_line z0 (trim (strip_comment raw)) = Ok z1 -> is_Some (zone_lookup q z1)) ->
  is_Some (zone_lookup q z').
Proof.
  intros Hp Hin Hne Hl. revert n z Hp. induction Hin as [raw lines|raw raw' lines Hin IH]; intros n z; simpl.
  - rewrite Hne. destruct (parse_line z _) as [z1|e] eqn:Hz; [|done].
    intros Hp. eapply zone_parse_lines_keeps; [exact Hp|]. by eapply Hl.
  - case_match; [by apply IH|]. destruct (parse_line z _) as [z1|e]; [|done]. by apply IH.
Qed.

(** The four ways of writing a rule for the name [ls]; [below] says whether the rule
    covers the names below it. *)
Inductive zone_rule (ls : list string) : bool -> string -> Prop :=
| zr_plain : zone_rule ls false (join "." ls)
| zr_below : zone_rule ls true ("." +:+ join "." ls)
| zr_rpz : zone_rule ls false (join "." ls +:+ ". CNAME .")
| zr_wild : zone_rule ls true ("*." +:+ join "." ls +:+ ". CNAME .").

Lemma ldh_not (d : ascii) c : ldh_char d = false -> ldh_char c = true -> Ascii.eqb d c = false.
Proof. intros Hd Hc. destruct (Ascii.eqb_spec d c); congruence. Qed.

Lemma parse_line_cname z name_raw :
  all_chars (fun c => negb (is_whitespace c)) name_raw = true -> name_raw <> EmptyString ->
  parse_line z (name_raw +:+ " CNAME .") =
  Ok (match strip_prefix "*." name_raw with
      | Some s => add_suffix (normalize_name s) ZonePolicy z
      | None => add_exact (normalize_name name_raw) ZonePolicy z
      end).
Proof.
  intros Hsp Hne. unfold parse_line.
  change (name_raw +:+ " CNAME .") with (name_raw +:+ String " " "CNAME .").
  rewrite split_whitespace_field by done. reflexivity.
Qed.

Section Rules.
Variables (l : string) (ls : list string).
Hypothesis Hls : forallb ldh_label (l :: ls) = true.
Let name := join "." (l :: ls).

Lemma name_normal : normalize_name name = name /\ normalize_name (name +:+ ".") = name.
Proof.
  pose proof (ldh_labels_plain _ Hls) as Hp. pose proof (join_plain_chars _ Hp) as Hc.
  destruct (host_or_dot_clean name Hc) as [Ht Hlow]. unfold normalize_name.
  split.
  - unfold name in *. by rewrite Ht, trim_dots_join.
  - rewrite trim_id by (apply host_or_dot_no_space; rewrite all_chars_app; fold name in Hc; by rewrite Hc).
    rewrite trim_end_matches_snoc. unfold name in *. by rewrite trim_dots_join.
Qed.

Lemma name_no_space : all_chars (fun c => negb (is_whitespace c)) name = true.
Proof. apply host_or_dot_no_space, join_plain_chars, ldh_labels_plain, Hls. Qed.

(** The first character of the name is neither a dot nor a star. *)
Lemma name_head : exists c s, name = String c s /\ ldh_char c = true.
Proof.
  cbn [forallb] in Hls. apply andb_true_iff in Hls as [Hl _]. unfold ldh_label in Hl.
  destruct l as [|c l']; [done|]. simpl in Hl. apply andb_true_iff in Hl as [Hl _].
  unfold name. destruct ls; simpl; eauto.
Qed.

Lemma parse_line_rule z below line :
  zone_rule (l :: ls) below line ->
  parse_line z line = Ok (if below then add_suffix name ZonePolicy z else add_exact name ZonePolicy z).
Proof.
  destruct name_normal as [Hn Hnd]. destruct name_head as (c & s & Hc & Hl).
  pose proof name_no_space as Hsp.
  assert (Hne : name <> EmptyString) by (rewrite Hc; done).
  assert (Hdot : strip_prefix "." name = None) by (rewrite Hc; cbn [strip_prefix]; by rewrite ldh_not).
  assert (Hstar : strip_prefix "*." (name +:+ ".") = None)
    by (rewrite Hc; cbn [String.append strip_prefix]; by rewrite ldh_not).
  assert (Hsp1 : all_chars (fun c => negb (is_whitespace c)) (name +:+ ".") = true)
    by (rewrite all_chars_app, Hsp; done).
  intros Hr. destruct Hr; fold name.
  - unfold parse_line. rewrite split_whitespace_one by done. by rewrite Hdot, Hn.
  - unfold parse_line. rewrite split_whitespace_one by done. by rewrite <- Hn at 2.
  - change (name +:+ ". CNAME .") with (name +:+ ("." +:+ " CNAME .")).
    rewrite <- string_app_assoc, parse_line_cname, Hstar, Hnd; [done|done|]. by rewrite Hc.
  - change ("*." +:+ name +:+ ". CNAME .") with ("*." +:+ (name +:+ ("." +:+ " CNAME ."))).
    rewrite <- (string_app_assoc name), <- (string_app_assoc "*."), parse_line_cname by done.
    change (strip_prefix "*." ("*." +:+ name +:+ ".")) with (Some (name +:+ ".")).
    cbv beta iota. by rewrite Hnd.
Qed.

End Rules.

Lemma rule_not_skipped l ls below line :
  forallb ldh_label (l :: ls) = true -> zone_rule (l :: ls) below line ->
  str_is_empty line || starts_with line "$" = false.
Proof.
  intros Hls Hr. destruct (name_head l ls Hls) as (c & s & Hc & Hl).
  assert (Hd : Ascii.eqb "$" c = false) by by apply ldh_not.
  destruct Hr; rewrite ?Hc; unfold starts_with; cbn [String.append str_is_empty strip_prefix orb];
    by rewrite ?Hd.
Qed.

Lemma build_response_id q rcode answers : str_take 2 (build_response q rcode answers) = put_u16 (qy_id q).
Proof. unfold build_response. by rewrite str_take_app. Qed.

(** Every answer of the sinkhole's own echoes the identifier. *)
Lemma block_response_id cfg q a : str_take 2 (build_block_response cfg q a) = put_u16 (qy_id q).
Proof. unfold build_block_response. repeat case_match; apply build_response_id. Qed.

(** ** Properties *)

(** C30: the sinkhole always answers: parsing a packet terminates for every sequence
    of bytes, whatever loops its compression pointers form, so every packet and
    every DoT connection is processed to the end without running out of fuel. *)
Theorem dns_processing_total packet input cfg z forward :
  is_Some (process_dns_query packet cfg z forward) /\
  is_Some (dot_connection (S (String.length input)) input cfg z forward).
Proof. split; [apply process_Some|apply dot_connection_Some; lia]. Qed.

(** A well-formed question is read back from the wire, whatever the flags but
    the response bit, the other counts and the bytes that follow it. *)
Theorem dns_query_roundtrip id flags counts labels qtype qclass extra :
  (id <= u16_max)%N -> (flags <= u16_max)%N -> (qtype <= u16_max)%N -> (qclass <= u16_max)%N ->
  N.testbit flags 15 = false -> String.length counts = 6 -> forallb label_ok labels = true ->
  parse_query (query_wire id flags counts labels qtype qclass extra) =
  Some (Ok {| qy_id := id; qy_recursion_desired := negb (N.land flags 256 =? 0)%N;
              qy_question := {| qu_name := join "." (to_ascii_lowercase <$> labels);
                                qu_qtype := qtype; qu_qclass := qclass |};
              qy_question_bytes := name_wire labels +:+ put_u16 qtype +:+ put_u16 qclass |}).
Proof. apply parse_query_wire. Qed.

(** A listed name is never resolved upstream: when the zone file holds a rule
    for a name, in any of its four forms and with any comment after it, a question
    for that name (or, if the rule covers them, for a name below it), in any letter
    case, is answered by the sinkhole itself, under the identifier of the query. *)
Theorem listed_name_sinkholed text z raw below line l ls sub qlabels id flags counts qtype extra cfg
    forward :
  zone_parse text = Ok z -> raw ∈ str_lines text -> trim (strip_comment raw) = line ->
  zone_rule (l :: ls) below line -> (below = false -> sub = []) ->
  forallb ldh_label (sub ++ l :: ls) = true ->
  to_ascii_lowercase <$> qlabels = sub ++ l :: ls -> forallb label_ok qlabels = true ->
  (id <= u16_max)%N -> (flags <= u16_max)%N -> (qtype <= u16_max)%N ->
  N.testbit flags 15 = false -> String.length counts = 6 ->
  exists resp,
    process_dns_query (query_wire id flags counts qlabels qtype CLASS_IN extra) cfg z forward =
      Some (false, Ok resp) /\
    str_take 2 resp = put_u16 id.
Proof.
  intros Hz Hin Hline Hrule Hsub Hls Hq Hok Hid Hfl Hty Hqr Hcnt. unfold process_dns_query.
  rewrite parse_query_wire by done. cbn [mbind option_bind qy_question qu_qclass qu_name]. cbn [negb N.eqb CLASS_IN Pos.eqb].
  rewrite Hq. assert (Hl : is_Some (zone_lookup (join "." (sub ++ l :: ls)) z)).
  { assert (Hls' : forallb ldh_label (l :: ls) = true) by (by rewrite forallb_app in Hls; apply andb_true_iff in Hls as [_ ?]).
    eapply zone_parse_lines_line; [exact Hz|exact Hin| |].
    - rewrite Hline. by eapply rule_not_skipped.
    - intros z0 z1. rewrite Hline, (parse_line_rule _ _ Hls' _ _ _ Hrule). intros [= <-].
      destruct (sub ++ l :: ls) as [|q qs] eqn:Hs; [by destruct sub|].
      destruct (name_normal _ _ Hls) as [Hn _].
      destruct below; [apply add_suffix_lookup|apply add_exact_lookup]; right; rewrite Hn, <- Hs.
      + unfold suffix_matches. destruct sub as [|s sub]; [by rewrite String.eqb_refl|].
        rewrite join_app by done. rewrite (proj2 (ends_with_spec _ _)); [by rewrite orb_true_r|]. eauto.
      + by rewrite Hsub. }
  destruct Hl as [a ->]. eexists. split; [done|]. apply block_response_id.
Qed.

(** ** Witnesses *)

Definition demo_counts : string := put_u16 0 +:+ put_u16 0 +:+ put_u16 1.

Definition demo_dns_config : DnsConfig :=
  {| dc_action := Sinkhole; dc_sinkhole_a := 2130706433; dc_sinkhole_aaaa := 1; dc_ttl := 60;
     dc_doh_path := "/dns-query" |}.

Definition newline : string := String "010" EmptyString.

Definition demo_rule : string := "*.evil.example. CNAME .".

Definition demo_zone_text : string :=
  "; blocklist" +:+ newline +:+ demo_rule +:+ " # reported" +:+ newline +:+ "fixed.test A 10.0.0.1".

Definition demo_zone : Zone :=
  match zone_parse demo_zone_text with Ok z => z | Err _ => empty_zone end.

Lemma dns_query_roundtrip_witness :
  parse_query (query_wire 4660 256 demo_counts ["Blocked"; "test"]%string TYPE_A CLASS_IN EmptyString) =
  Some (Ok {| qy_id := 4660; qy_recursion_desired := true;
              qy_question := {| qu_name := "blocked.test"; qu_qtype := TYPE_A; qu_qclass := CLASS_IN |};
              qy_question_bytes :=
                name_wire ["Blocked"; "test"]%string +:+ put_u16 TYPE_A +:+ put_u16 CLASS_IN |}).
Proof.
  rewrite (dns_query_roundtrip 4660 256 demo_counts ["Blocked"; "test"]%string TYPE_A CLASS_IN EmptyString)
    by (reflexivity || (vm_compute; discriminate)).
  reflexivity.
Defined.

Lemma listed_name_sinkholed_witness :
  exists resp,
    process_dns_query
      (query_wire 4660 256 demo_counts ["WWW"; "Evil"; "example"]%string TYPE_A CLASS_IN EmptyString)
      demo_dns_config demo_zone (fun _ => Err "unreachable"%string) = Some (false, Ok resp) /\
    str_take 2 resp = put_u16 4660.
Proof.
  apply (listed_name_sinkholed demo_zone_text demo_zone (demo_rule +:+ " # reported") true demo_rule
           "evil" ["example"]%string ["www"]%string ["WWW"; "Evil"; "example"]%string).
  - vm_compute. reflexivity.
  - vm_compute. apply list_elem_of_further, list_elem_of_here.
  - reflexivity.
  - apply (zr_wild ["evil"; "example"]%string).
  - discriminate.
  - reflexivity.
  - reflexivity.
  - reflexivity.
  - discriminate.
  - discriminate.
  - discriminate.
  - reflexivity.
  - reflexivity.
Defined.
