(* ===== verification/RpzApi.v ===== *)
(** * The RPZ management API (src/proxy/src/rpz_api.rs)

    Block lists and custom rules, how they are compiled to the zone file of the
    DNS sinkhole, and the API that edits them.

    JSON documents are read by a parameter; the clock, downloads and the outcome
    of file writes are arguments.  The files under [lists/] are a map from list id
    to content.  Fields that only the console shows are left out. *)

From Stdlib Require Import Ascii String NArith ZArith Lia.
From stdpp Require Import base option gmap sets strings pretty numbers list.
From S2P Require Import Prelude Hosts Net Dns.

Inductive RpzListFormat := RpzZone | Hosts | DomainList.
Inductive RpzAction := Nxdomain | Nodata | Passthru | Drop | SinkholeAction.
Inductive RpzListSource := Upload | UrlFeed | Inline.

#[export] Instance RpzAction_eq_dec : EqDecision RpzAction.
Proof. solve_decision. Defined.

Definition as_api (a : RpzAction) : string :=
  match a with
  | Nxdomain => "NXDOMAIN" | Nodata => "NODATA" | Passthru => "PASSTHRU" | Drop => "DROP"
  | SinkholeAction => "SINKHOLE"
  end.

Record RpzList := {
  li_id : string;
  li_name : string;
  li_description : string;
  li_source : RpzListSource;
  li_format : RpzListFormat;
  li_url : option string;
  li_default_action : RpzAction;
  li_rule_count : N;
  li_active : bool;
  li_priority : Z;
  li_last_updated : string;
  li_sync_error : option string;
  li_tags : list string;
}.

Record RpzRule := {
  ru_id : string;
  ru_list_id : string;
  ru_list_name : string;
  ru_domain : string;
  ru_action : RpzAction;
  ru_target_ip : option string;
  ru_target_cname : option string;
  ru_comment : option string;
  ru_created_at : string;
}.

Record DnsSinkholeConfig := {
  sc_enabled : bool;
  sc_default_action : RpzAction;
  sc_sinkhole_ipv4 : string;
  sc_sinkhole_ipv6 : string;
  sc_sinkhole_cname : string;
  sc_log_blocks : bool;
  sc_wildcard_matching : bool;
  sc_upstream_dns : list string;
  sc_doh_enabled : bool;
  sc_doh_bind : string;
  sc_doh_path : string;
  sc_dot_enabled : bool;
  sc_dot_bind : string;
}.

Definition DnsSinkholeConfig_default : DnsSinkholeConfig := {|
  sc_enabled := true; sc_default_action := SinkholeAction; sc_sinkhole_ipv4 := "127.0.0.1";
  sc_sinkhole_ipv6 := "::1"; sc_sinkhole_cname := EmptyString; sc_log_blocks := true;
  sc_wildcard_matching := true; sc_upstream_dns := ["1.1.1.1"%string]; sc_doh_enabled := false;
  sc_doh_bind := "0.0.0.0:8443"; sc_doh_path := "/dns-query"; sc_dot_enabled := false;
  sc_dot_bind := "0.0.0.0:853" |}.

Record RpzStateFile := {
  st_lists : list RpzList;
  st_custom_rules : list RpzRule;
  st_config : DnsSinkholeConfig;
}.

(** ** Compiling the zone *)

(** Lines that are empty, comments or directives. *)
Definition skipped_line (t : string) : bool :=
  str_is_empty t || starts_with t "#" || starts_with t ";" || starts_with t "$".

Definition count_rules (content : string) : N :=
  N.of_nat (length (List.filter (fun l => negb (skipped_line (trim l))) (str_lines content))).

Definition domain_policy_line (domain : string) (action : RpzAction) : string :=
  match action with
  | Passthru => "; passthru " +:+ domain +:+ nl
  | _ => domain +:+ ". CNAME ." +:+ nl
  end.

(** What one line of a list adds to the zone. *)
Definition normalize_list_line (format : RpzListFormat) (action : RpzAction) (line : string) : string :=
  let t := trim line in
  if skipped_line t then EmptyString
  else
    match format with
    | RpzZone => t +:+ nl
    | Hosts =>
        match split_whitespace t with
        | _ :: dom :: _ => domain_policy_line (trim_end_matches "." dom) action
        | _ => EmptyString
        end
    | DomainList =>
        let dom := trim_end_matches "." (default EmptyString (head (split_whitespace t))) in
        if str_is_empty dom then EmptyString else domain_policy_line dom action
    end.

Definition normalize_list_content (content : string) (format : RpzListFormat) (action : RpzAction)
    : string :=
  foldl (fun out line => out +:+ normalize_list_line format action line) EmptyString (str_lines content).

Definition rule_to_zone_line (rule : RpzRule) : string :=
  if decide (ru_action rule = Passthru) then
    "; passthru " +:+ ru_domain rule +:+ " # " +:+ default EmptyString (ru_comment rule)
  else trim_end_matches "." (ru_domain rule) +:+ ". CNAME .".

(** The active lists, highest priority first; an [i32] is shifted to compare. *)
Definition active_lists (st : RpzStateFile) : list RpzList :=
  sort_desc (fun l => Z.to_N (li_priority l + 2147483648)) (List.filter li_active (st_lists st)).

Definition compile_list (files : gmap string string) (l : RpzList) : string :=
  "; list " +:+ li_id l +:+ " (" +:+ li_name l +:+ ")" +:+ nl +:+
  match files !! li_id l with
  | Some content => normalize_list_content content (li_format l) (li_default_action l)
  | None => EmptyString
  end +:+ nl.

Definition compile_zone (st : RpzStateFile) (files : gmap string string) : string :=
  let out := "; Generated by BSDM RPZ API — do not edit by hand" +:+ nl +:+ "$TTL 300" +:+ nl +:+ nl in
  let out := foldl (fun out l => out +:+ compile_list files l) out (active_lists st) in
  let out := out +:+ "; custom rules" +:+ nl in
  foldl (fun out r => out +:+ rule_to_zone_line r +:+ nl) out (st_custom_rules st).

(** ** The API *)

Record AddListIn := {
  al_name : string;
  al_description : string;
  al_source : RpzListSource;
  al_format : RpzListFormat;
  al_url : option string;
  al_content : option string;
  al_default_action : RpzAction;
  al_priority : option Z;
}.

Record AddRuleIn := {
  ar_domain : string;
  ar_action : RpzAction;
  ar_comment : option string;
}.

(** [serde_json::from_slice] on the bodies of the requests. *)
Class RpzJson := {
  add_list_of_json : string -> result AddListIn string;
  add_rule_of_json : string -> result AddRuleIn string;
  active_of_json : string -> result bool string;
  config_of_json : string -> result DnsSinkholeConfig string;
}.

(** The state in memory, the list files and the zone file the sinkhole reads. *)
Record RpzApi := {
  ap_state : RpzStateFile;
  ap_files : gmap string string;
  ap_zone : option string;
}.

Inductive RpzAnswer :=
| AnsError (status : N) (msg : string)
| AnsList (l : RpzList)
| AnsLists (ls : list RpzList)
| AnsRule (r : RpzRule)
| AnsRules (rs : list RpzRule)
| AnsConfig (c : DnsSinkholeConfig)
| AnsTest (domain : string) (hit : option (string * RpzAction * string * string)) (response : string)
| AnsStats (lists active rules : N)
| AnsStatus (s : string).

Section api.
Context `{!RpzJson}.

(** [fetch] is what a download returns, [now] the time in milliseconds and [stamp]
    as a date, [list_io] whether a list file could be written or removed, [io]
    whether the state and zone could. *)
Variables (fetch : string -> result string string) (now : N) (stamp : string) (list_io io : result unit string).

(** The change of memory stays when the files cannot be written. *)
Definition persist (st : RpzStateFile) (files : gmap string string) (ok : RpzAnswer) (api : RpzApi)
    : RpzApi * RpzAnswer :=
  match io with
  | Ok _ => ({| ap_state := st; ap_files := files; ap_zone := Some (compile_zone st files) |}, ok)
  | Err e => ({| ap_state := st; ap_files := files; ap_zone := ap_zone api |}, AnsError 500 e)
  end.

Definition with_lists (ls : list RpzList) (st : RpzStateFile) : RpzStateFile :=
  {| st_lists := ls; st_custom_rules := st_custom_rules st; st_config := st_config st |}.

Definition with_custom_rules (rs : list RpzRule) (st : RpzStateFile) : RpzStateFile :=
  {| st_lists := st_lists st; st_custom_rules := rs; st_config := st_config st |}.

(** The content given, or downloaded when there is none. *)
Definition list_content (input : AddListIn) : result string string :=
  let content := default EmptyString (al_content input) in
  if str_is_empty content then
    match al_url input with Some url => fetch url | None => Ok content end
  else Ok content.

(** [format!("{:?}", format).to_lowercase()]. *)
Definition format_tag (f : RpzListFormat) : string :=
  match f with RpzZone => "rpzzone" | Hosts => "hosts" | DomainList => "domainlist" end.

Definition add_list (body : string) (api : RpzApi) : RpzApi * RpzAnswer :=
  match add_list_of_json body with
  | Err e => (api, AnsError 400 e)
  | Ok input =>
      let id := "rpz-" +:+ pretty now in
      match list_content input with
      | Err e => (api, AnsError 502 ("fetch feed: " +:+ e))
      | Ok content =>
          let l := {| li_id := id; li_name := al_name input; li_description := al_description input;
                      li_source := al_source input; li_format := al_format input;
                      li_url := al_url input; li_default_action := al_default_action input;
                      li_rule_count := count_rules content; li_active := true;
                      li_priority := default 10%Z (al_priority input); li_last_updated := stamp;
                      li_sync_error := None; li_tags := [format_tag (al_format input)] |} in
          match list_io with
          | Err e => (api, AnsError 500 e)
          | Ok _ =>
              persist (with_lists (l :: st_lists (ap_state api)) (ap_state api))
                (<[id := content]> (ap_files api)) (AnsList l) api
          end
      end
  end.

(** Change the first list with the id. *)
Fixpoint update_list (id : string) (f : RpzList -> RpzList) (ls : list RpzList)
    : option (list RpzList * RpzList) :=
  match ls with
  | [] => None
  | l :: ls' =>
      if String.eqb (li_id l) id then Some (f l :: ls', f l)
      else '(ls'', l') ← update_list id f ls'; Some (l :: ls'', l')
  end.

Definition set_active (active : bool) (l : RpzList) : RpzList :=
  {| li_id := li_id l; li_name := li_name l; li_description := li_description l; li_source := li_source l;
     li_format := li_format l; li_url := li_url l; li_default_action := li_default_action l;
     li_rule_count := li_rule_count l; li_active := active; li_priority := li_priority l;
     li_last_updated := stamp; li_sync_error := li_sync_error l; li_tags := li_tags l |}.

Definition toggle_list (id body : string) (api : RpzApi) : RpzApi * RpzAnswer :=
  match active_of_json body with
  | Err e => (api, AnsError 400 e)
  | Ok active =>
      match update_list id (set_active active) (st_lists (ap_state api)) with
      | None => (api, AnsError 404 "list not found")
      | Some (ls, _) =>
          persist (with_lists ls (ap_state api)) (ap_files api) (AnsStatus "ok") api
      end
  end.

Definition synced (count : N) (error : option string) (l : RpzList) : RpzList :=
  {| li_id := li_id l; li_name := li_name l; li_description := li_description l; li_source := li_source l;
     li_format := li_format l; li_url := li_url l; li_default_action := li_default_action l;
     li_rule_count := count; li_active := li_active l; li_priority := li_priority l;
     li_last_updated := stamp; li_sync_error := error; li_tags := li_tags l |}.

Definition sync_one (l : RpzList) : RpzList :=
  match fetch <$> li_url l with
  | Some (Ok content) => synced (count_rules content) None l
  | Some (Err e) => synced (li_rule_count l) (Some e) l
  | None => synced (li_rule_count l) (li_sync_error l) l
  end.

Definition sync_list (id : string) (api : RpzApi) : RpzApi * RpzAnswer :=
  match List.find (fun l => String.eqb (li_id l) id) (st_lists (ap_state api)),
        update_list id sync_one (st_lists (ap_state api)) with
  | Some l, Some (ls, l') =>
      let files :=
        match fetch <$> li_url l, list_io with
        | Some (Ok content), Ok _ => <[id := content]> (ap_files api)
        | _, _ => ap_files api
        end in
      persist (with_lists ls (ap_state api)) files (AnsList l') api
  | _, _ => (api, AnsError 404 "list not found")
  end.

Definition delete_list (id : string) (api : RpzApi) : RpzApi * RpzAnswer :=
  let before := st_lists (ap_state api) in
  let ls := List.filter (fun l => negb (String.eqb (li_id l) id)) before in
  if Nat.eqb (length ls) (length before) then (api, AnsError 404 "list not found")
  else
    persist (with_lists ls (ap_state api))
      (if is_ok list_io then delete id (ap_files api) else ap_files api) (AnsStatus "deleted") api.

Definition put_config (body : string) (api : RpzApi) : RpzApi * RpzAnswer :=
  match config_of_json body with
  | Err e => (api, AnsError 400 e)
  | Ok cfg =>
      persist {| st_lists := st_lists (ap_state api); st_custom_rules := st_custom_rules (ap_state api);
                 st_config := cfg |} (ap_files api) (AnsConfig cfg) api
  end.

Definition rpz_add_rule (body : string) (api : RpzApi) : RpzApi * RpzAnswer :=
  match add_rule_of_json body with
  | Err e => (api, AnsError 400 e)
  | Ok input =>
      let r := {| ru_id := "rule-" +:+ pretty now; ru_list_id := "custom-inline";
                  ru_list_name := "Custom Overrides"; ru_domain := normalize_name (ar_domain input);
                  ru_action := ar_action input; ru_target_ip := None; ru_target_cname := None;
                  ru_comment := ar_comment input; ru_created_at := stamp |} in
      persist (with_custom_rules (r :: st_custom_rules (ap_state api)) (ap_state api)) (ap_files api)
        (AnsRule r) api
  end.

Definition rpz_delete_rule (id : string) (api : RpzApi) : RpzApi * RpzAnswer :=
  let before := st_custom_rules (ap_state api) in
  let rs := List.filter (fun r => negb (String.eqb (ru_id r) id)) before in
  if Nat.eqb (length rs) (length before) then (api, AnsError 404 "rule not found")
  else persist (with_custom_rules rs (ap_state api)) (ap_files api) (AnsStatus "deleted") api.

End api.

(** ** The test endpoint *)

Definition domain_matches (q pattern : string) : bool :=
  let p := to_ascii_lowercase (trim_start_matches "." (trim_start_matches "*" (trim pattern))) in
  String.eqb q p || ends_with q ("." +:+ p).

Definition content_has_domain (content domain : string) : bool :=
  existsb (fun line =>
    let t := to_ascii_lowercase (trim line) in
    negb (str_is_empty t || starts_with t "#" || starts_with t ";") && str_contains t domain)
    (str_lines content).

(** What the endpoint finds for a domain (after decoding): the domain, the action,
    the list and its name of the first rule or list that matches. *)
Definition test_hit (domain : string) (api : RpzApi) : option (string * RpzAction * string * string) :=
  match List.find (fun r => domain_matches domain (ru_domain r)) (st_custom_rules (ap_state api)) with
  | Some r => Some (ru_domain r, ru_action r, ru_list_id r, ru_list_name r)
  | None =>
      (fun l => (domain, li_default_action l, li_id l, li_name l)) <$>
        List.find (fun l =>
          match ap_files api !! li_id l with
          | Some content => content_has_domain content domain
          | None => false
          end) (active_lists (ap_state api))
  end.

Definition test_domain (domain : string) (api : RpzApi) : option RpzAction :=
  (fun h => h.1.1.2) <$> test_hit (to_ascii_lowercase domain) api.

Definition action_response (action : RpzAction) (cfg : DnsSinkholeConfig) : string :=
  match action with
  | SinkholeAction => "A " +:+ sc_sinkhole_ipv4 cfg +:+ " / AAAA " +:+ sc_sinkhole_ipv6 cfg
  | Nxdomain => "NXDOMAIN (Name Error)"
  | Nodata => "NODATA"
  | Drop => "DROP"
  | Passthru => "PASSTHRU (Allowed to Upstream DNS)"
  end.

(** The decoding of the query: [+] is a space, and [%] with the two characters
    after it a byte, when more follow. *)
Definition hex_digit (c : ascii) : option N :=
  let b := char_code c in
  if ((48 <=? b) && (b <=? 57))%N then Some (b - 48)%N
  else if ((97 <=? b) && (b <=? 102))%N then Some (b - 97 + 10)%N
  else if ((65 <=? b) && (b <=? 70))%N then Some (b - 65 + 10)%N
  else None.

(** [u8::from_str_radix(.., 16)] takes a sign. *)
Definition hex_byte (c1 c2 : ascii) : option N :=
  match hex_digit c1, hex_digit c2 with
  | Some h, Some l => Some (h * 16 + l)%N
  | None, Some l => if Ascii.eqb c1 "+" then Some l else None
  | _, _ => None
  end.

Definition push_byte (b : N) : string :=
  if (b <? 128)%N then String (ascii_of_N b) EmptyString
  else String (ascii_of_N (N.lor 192 (N.shiftr b 6)))
         (String (ascii_of_N (N.lor 128 (N.land b 63))) EmptyString).

Definition plain_char (c : ascii) : string :=
  if Ascii.eqb c "+" then " " else push_byte (char_code c).

(** [i + 2 < b.len()]: two characters must follow. *)
Fixpoint query_decode (s : string) : string :=
  match s with
  | EmptyString => EmptyString
  | String c rest =>
      match rest with
      | String c1 (String c2 rest') =>
          match (if Ascii.eqb c "%" then hex_byte c1 c2 else None) with
          | Some b => push_byte b +:+ query_decode rest'
          | None => plain_char c +:+ query_decode rest
          end
      | _ => plain_char c +:+ query_decode rest
      end
  end.

(** The first parameter [domain=] of a query. *)
Fixpoint query_domain (params : list string) : string :=
  match params with
  | [] => EmptyString
  | p :: params =>
      match strip_prefix "domain=" p with
      | Some v => query_decode v
      | None => query_domain params
      end
  end.

Definition rpz_test (query : string) (api : RpzApi) : RpzAnswer :=
  let cfg := st_config (ap_state api) in
  let domain := to_ascii_lowercase (query_domain (split_on "&" query)) in
  let hit := test_hit domain api in
  AnsTest domain hit
    match hit with
    | Some (_, action, _, _) => action_response action cfg
    | None => "Allowed (upstream " +:+ default "1.1.1.1" (head (sc_upstream_dns cfg)) +:+ ")"
    end.

(** The sum of [u64]s is not checked in release builds. *)
Definition rpz_stats (api : RpzApi) : RpzAnswer :=
  let st := ap_state api in
  let active := List.filter li_active (st_lists st) in
  AnsStats (N.of_nat (length (st_lists st))) (N.of_nat (length active))
    (wrap 64 (foldr N.add 0 (li_rule_count <$> active) + N.of_nat (length (st_custom_rules st))))%N.

(** ** The start

    [load_or_default]: the state file when it parses, else one list for the zone
    file on disk, whose content becomes the list's. *)
Definition load_or_default (stamp : string) (state : option RpzStateFile) (seed : option string)
    (files : gmap string string) : RpzStateFile * gmap string string :=
  match state, seed with
  | Some st, _ => (st, files)
  | None, None => ({| st_lists := []; st_custom_rules := []; st_config := DnsSinkholeConfig_default |}, files)
  | None, Some content =>
      ({| st_lists :=
            [{| li_id := "local-zone"; li_name := "Local blocklist.rpz";
                li_description := "Seeded from DNS_SINKHOLE_ZONE_PATH / compose mount"; li_source := Upload;
                li_format := RpzZone; li_url := None; li_default_action := SinkholeAction;
                li_rule_count := count_rules content; li_active := true; li_priority := 100;
                li_last_updated := stamp; li_sync_error := None; li_tags := ["local"; "seed"]%string |}];
          st_custom_rules := []; st_config := DnsSinkholeConfig_default |},
       <["local-zone" := content]> files)
  end.

Definition RpzApi_from_env (stamp : string) (state : option RpzStateFile) (seed : option string)
    (files : gmap string string) (zone : option string) (io : result unit string) : RpzApi :=
  let '(st, files) := load_or_default stamp state seed files in
  {| ap_state := st; ap_files := files;
     ap_zone := if is_ok io then Some (compile_zone st files) else zone |}.

(** ** The routes *)

Inductive RpzMethod := RpzGet | RpzPost | RpzPut | RpzDelete | RpzOther.

(** [str::strip_suffix]. *)
Definition strip_suffix (suffix s : string) : option string :=
  if ends_with s suffix then Some (substring 0 (String.length s - String.length suffix) s) else None.

Section routes.
Context `{!RpzJson}.
Variables (fetch : string -> result string string) (now : N) (stamp : string) (list_io io : result unit string).

Definition method_not_allowed : RpzAnswer := AnsError 405 "method not allowed".

Definition rpz_handle_list (m : RpzMethod) (rest body : string) (api : RpzApi) : option (RpzApi * RpzAnswer) :=
  match strip_suffix "/toggle" rest, strip_suffix "/sync" rest, m with
  | Some id, _, RpzPost => Some (toggle_list stamp io id body api)
  | None, Some id, RpzPost => Some (sync_list fetch stamp list_io io id api)
  | _, _, RpzDelete => Some (delete_list list_io io rest api)
  | _, _, _ => None
  end.

Definition rpz_handle (m : RpzMethod) (path query body : string) (api : RpzApi) : RpzApi * RpzAnswer :=
  let not_found := (api, AnsError 404 "not found") in
  let handle_rest :=
    if String.eqb path "/api/dns/sinkhole/config" then
      match m with
      | RpzGet => (api, AnsConfig (st_config (ap_state api)))
      | RpzPut => put_config io body api
      | _ => (api, method_not_allowed)
      end
    else if String.eqb path "/api/dns/rpz/test" && match m with RpzPost => true | _ => false end then
      (api, rpz_test query api)
    else if String.eqb path "/api/dns/rpz/stats" && match m with RpzGet => true | _ => false end then
      (api, rpz_stats api)
    else if String.eqb path "/api/dns/rpz/rules/custom" then
      match m with
      | RpzGet => (api, AnsRules (st_custom_rules (ap_state api)))
      | RpzPost => rpz_add_rule now stamp io body api
      | _ => (api, method_not_allowed)
      end
    else
      match strip_prefix "/api/dns/rpz/rules/custom/" path, m with
      | Some id, RpzDelete => rpz_delete_rule io id api
      | _, _ => not_found
      end in
  if String.eqb path "/api/dns/rpz/lists" then
    match m with
    | RpzGet => (api, AnsLists (st_lists (ap_state api)))
    | RpzPost => add_list fetch now stamp list_io io body api
    | _ => (api, method_not_allowed)
    end
  else
    match strip_prefix "/api/dns/rpz/lists/" path with
    | Some rest =>
        match rpz_handle_list m rest body api with
        | Some r => r
        | None => handle_rest
        end
    | None => handle_rest
    end.

Definition rpz_dispatch (m : RpzMethod) (path query body : string) (api : RpzApi)
    : option (RpzApi * RpzAnswer) :=
  if negb (starts_with path "/api/dns/") then None else Some (rpz_handle m path query body api).

End routes.

(** ** Lemmas: lines *)

(** The zone as a list of lines. *)
Definition list_zone_line (format : RpzListFormat) (action : RpzAction) (line : string) : list string :=
  let policy dom := match action with Passthru => "; passthru " +:+ dom | _ => dom +:+ ". CNAME ." end in
  let t := trim line in
  if skipped_line t then []
  else
    match format with
    | RpzZone => [t]
    | Hosts =>
        match split_whitespace t with
        | _ :: dom :: _ => [policy (trim_end_matches "." dom)]
        | _ => []
        end
    | DomainList =>
        let dom := trim_end_matches "." (default EmptyString (head (split_whitespace t))) in
        if str_is_empty dom then [] else [policy dom]
    end.

Definition list_zone_lines (files : gmap string string) (l : RpzList) : list string :=
  ["; list " +:+ li_id l +:+ " (" +:+ li_name l +:+ ")"] ++
  match files !! li_id l with
  | Some content => mjoin (list_zone_line (li_format l) (li_default_action l) <$> str_lines content)
  | None => []
  end ++ [EmptyString].

Definition zone_lines (st : RpzStateFile) (files : gmap string string) : list string :=
  ["; Generated by BSDM RPZ API — do not edit by hand"; "$TTL 300"; EmptyString]%string ++
  mjoin (list_zone_lines files <$> active_lists st) ++
  ["; custom rules"%string] ++ (rule_to_zone_line <$> st_custom_rules st).

Lemma normalize_list_line_lines format action line :
  normalize_list_line format action line = unlines (list_zone_line format action line).
Proof.
  unfold normalize_list_line, list_zone_line, domain_policy_line.
  repeat case_match; simplify_eq; cbn [unlines foldr]; rewrite ?string_app_nil_r, ?string_app_assoc; done.
Qed.

Lemma foldl_unlines {A} (f : string -> A -> string) (g : A -> list string) (l : list A) out :
  (forall out x, f out x = out +:+ unlines (g x)) ->
  foldl f out l = out +:+ unlines (mjoin (g <$> l)).
Proof.
  intros Hf. revert out. induction l as [|x l IH]; intros out; [by rewrite string_app_nil_r|].
  cbn [foldl fmap list_fmap mjoin list_join]. rewrite IH, Hf, unlines_app. by rewrite string_app_assoc.
Qed.

Lemma compile_list_lines files l : compile_list files l = unlines (list_zone_lines files l).
Proof.
  unfold compile_list, list_zone_lines. rewrite !unlines_app. cbn [unlines foldr].
  rewrite string_app_nil_r, !string_app_assoc. do 6 f_equal.
  destruct (files !! li_id l) as [content|]; [|done]. f_equal. unfold normalize_list_content.
  rewrite (foldl_unlines _ (list_zone_line (li_format l) (li_default_action l))); [done|].
  intros out x. by rewrite normalize_list_line_lines.
Qed.

Lemma compile_zone_lines st files : compile_zone st files = unlines (zone_lines st files).
Proof.
  unfold compile_zone, zone_lines. rewrite !unlines_app.
  rewrite (foldl_unlines _ (fun r => [rule_to_zone_line r])).
  2: { intros out r. cbn [unlines foldr]. by rewrite string_app_nil_r. }
  rewrite (foldl_unlines _ (list_zone_lines files)).
  2: { intros out l. by rewrite compile_list_lines. }
  assert (Hr : mjoin ((fun r => [rule_to_zone_line r]) <$> st_custom_rules st) =
               rule_to_zone_line <$> st_custom_rules st)
    by (induction (st_custom_rules st) as [|r rs IH]; [done|]; exact (f_equal (cons _) IH)).
  rewrite Hr. cbn [unlines foldr]. by rewrite !string_app_nil_r, !string_app_assoc.
Qed.

(** ** Lemmas: zones of plain names *)

Definition dns_name (d : string) : Prop := exists l ls, d = join "." (l :: ls) /\ forallb ldh_label (l :: ls) = true.

Lemma strip_comment_id s :
  all_chars (fun c => negb (char_code c =? 34)%N && negb (Ascii.eqb c ";" || Ascii.eqb c "#")) s = true ->
  strip_comment s = s.
Proof.
  unfold strip_comment. induction s as [|c s IH]; cbn [all_chars strip_comment_go]; [done|].
  intros [[Hq Hc]%andb_true_iff Hs]%andb_true_iff. apply negb_true_iff in Hq, Hc. rewrite Hq, Hc. simpl.
  by rewrite IH.
Qed.

Lemma trim_end_snoc s c : is_whitespace c = false -> trim_end (s +:+ String c EmptyString) = s +:+ String c EmptyString.
Proof.
  intros Hc. induction s as [|c' s IH]; simpl; [by rewrite Hc|]. rewrite IH. by destruct s.
Qed.

Lemma policy_line_clean d :
  dns_name d -> trim (strip_comment (d +:+ ". CNAME .")) = d +:+ ". CNAME .".
Proof.
  intros (l & ls & -> & Hls). destruct (name_head l ls Hls) as (c & s & Hc & Hl).
  rewrite strip_comment_id.
  - unfold trim. replace (trim_start (join "." (l :: ls) +:+ ". CNAME ."))
      with (join "." (l :: ls) +:+ ". CNAME .").
    + change ". CNAME ." with (". CNAME " +:+ String "." EmptyString).
      rewrite <- string_app_assoc. by apply trim_end_snoc.
    + rewrite Hc. cbn [String.append trim_start].
      apply (ldh_chars_satisfy (fun c => negb (is_whitespace c)) eq_refl), negb_true_iff in Hl.
      by rewrite Hl.
  - rewrite all_chars_app. apply andb_true_iff. split; [|done].
    apply join_ldh_chars; [|done|done]. apply ldh_chars_satisfy. vm_compute. reflexivity.
Qed.

(** A line of the zone: one the sinkhole skips, or the rule for a name. *)
Inductive clean_line : string -> option string -> Prop :=
| clean_skip line :
    str_is_empty (trim (strip_comment line)) || starts_with (trim (strip_comment line)) "$" = true ->
    clean_line line None
| clean_rule d : dns_name d -> clean_line (d +:+ ". CNAME .") (Some d).

Definition add_names (names : list (option string)) (z : Zone) : Zone :=
  foldl (fun z o => match o with Some d => add_exact d ZonePolicy z | None => z end) z names.

Lemma zone_parse_clean lines names n z :
  Forall2 clean_line lines names -> zone_parse_lines n lines z = Ok (add_names names z).
Proof.
  intros Hc. revert n z. induction Hc as [|line o lines names Hl _ IH]; intros n z; [done|].
  cbn [zone_parse_lines add_names foldl]. destruct Hl as [line Hs|d (l & ls & -> & Hls)].
  - rewrite Hs. apply IH.
  - assert (Hr : zone_rule (l :: ls) false (join "." (l :: ls) +:+ ". CNAME .")) by constructor.
    rewrite policy_line_clean by (by exists l, ls). rewrite (rule_not_skipped _ _ _ _ Hls Hr).
    rewrite (parse_line_rule _ _ Hls _ _ _ Hr). apply IH.
Qed.

Lemma dns_name_normal q : dns_name q -> normalize_name q = q.
Proof. intros (l & ls & -> & Hls). apply (name_normal l ls Hls). Qed.

Lemma add_names_lookup names z q :
  dns_name q -> z_suffixes z = [] ->
  zone_lookup q (add_names names z) =
  if decide (Some q ∈ names) then Some ZonePolicy else zone_lookup q z.
Proof.
  intros Hq. revert z. induction names as [|o names IH]; intros z Hz; cbn [add_names foldl]; [done|].
  fold (add_names names). unfold add_names in IH. rewrite IH by (by destruct o).
  destruct (decide (Some q ∈ names)) as [Hin|Hin].
  - by rewrite decide_True by (by right).
  - destruct o as [d|].
    + unfold zone_lookup at 1. rewrite dns_name_normal by done. cbn [z_exact z_suffixes add_exact].
      destruct (decide (d = q)) as [->|Hne].
      * rewrite lookup_insert_eq. by rewrite decide_True by left.
      * rewrite lookup_insert_ne by done. rewrite decide_False by set_solver.
        unfold zone_lookup. by rewrite dns_name_normal.
    + by rewrite decide_False by set_solver.
Qed.

(** ** What a state blocks *)

(** The name a line of a list is about. *)
Definition line_domain (format : RpzListFormat) (line : string) : option string :=
  let t := trim line in
  if skipped_line t then None
  else
    match format with
    | RpzZone => None
    | Hosts =>
        match split_whitespace t with _ :: dom :: _ => Some (trim_end_matches "." dom) | _ => None end
    | DomainList =>
        let dom := trim_end_matches "." (default EmptyString (head (split_whitespace t))) in
        if str_is_empty dom then None else Some dom
    end.

Definition policy_domain (action : RpzAction) (d : string) : option string :=
  if decide (action = Passthru) then None else Some d.

Definition list_names (files : gmap string string) (l : RpzList) : list string :=
  match files !! li_id l with
  | Some content => omap (line_domain (li_format l)) (str_lines content)
  | None => []
  end.

Definition blocked_domains (st : RpzStateFile) (files : gmap string string) : list string :=
  mjoin ((fun l => omap (policy_domain (li_default_action l)) (list_names files l)) <$> active_lists st) ++
  omap (fun r => policy_domain (ru_action r) (ru_domain r)) (st_custom_rules st).

(** Lists of names (not zone files) and rules whose names are host names, with ids,
    titles and comments that are single lines. *)
Record clean_state (st : RpzStateFile) (files : gmap string string) : Prop := {
  cs_lists l : l ∈ active_lists st ->
    one_line (li_id l) = true /\ one_line (li_name l) = true /\ li_format l <> RpzZone /\
    Forall dns_name (list_names files l);
  cs_rules r : r ∈ st_custom_rules st ->
    dns_name (ru_domain r) /\ one_line (default EmptyString (ru_comment r)) = true;
}.

Lemma one_line_app a b : one_line (a +:+ b) = one_line a && one_line b.
Proof. apply all_chars_app. Qed.

Lemma dns_name_one_line d : dns_name d -> one_line d = true.
Proof.
  intros (l & ls & -> & Hls). apply join_ldh_chars; [|done|done].
  apply ldh_chars_satisfy. vm_compute. reflexivity.
Qed.

Lemma dns_name_trim d : dns_name d -> trim_end_matches "." d = d.
Proof. intros (l & ls & -> & Hls). by apply trim_dots_join, ldh_labels_plain. Qed.

(** A line of a policy for a name: its text and what the sinkhole makes of it. *)
Lemma policy_line_spec action d rest :
  dns_name d -> one_line rest = true ->
  let line := match action with Passthru => "; passthru " +:+ d +:+ rest | _ => d +:+ ". CNAME ." end in
  one_line line = true /\ clean_line line (policy_domain action d).
Proof.
  intros Hd Hr. pose proof (dns_name_one_line d Hd) as Ho.
  destruct action; cbn zeta; rewrite !one_line_app, Ho, ?Hr; (split; [done|]); by constructor.
Qed.

Lemma list_zone_line_spec format action line :
  format <> RpzZone ->
  (forall d, line_domain format line = Some d -> dns_name d) ->
  forallb one_line (list_zone_line format action line) = true /\
  Forall2 clean_line (list_zone_line format action line)
    (policy_domain action <$> option_list (line_domain format line)).
Proof.
  intros Hf Hd. assert (Hl : list_zone_line format action line =
    match line_domain format line with
    | Some d => [match action with Passthru => "; passthru " +:+ d +:+ EmptyString | _ => d +:+ ". CNAME ." end]
    | None => []
    end).
  { unfold list_zone_line, line_domain. destruct format; [done| |];
      repeat case_match; simplify_eq; rewrite ?string_app_nil_r; done. }
  rewrite Hl. destruct (line_domain format line) as [d|]; [|by split].
  destruct (policy_line_spec action d EmptyString (Hd d eq_refl) eq_refl) as [Ho Hc].
  split; [cbn [forallb]; by rewrite Ho|]. by repeat constructor.
Qed.

Lemma content_spec format action lines :
  format <> RpzZone -> Forall dns_name (omap (line_domain format) lines) ->
  forallb one_line (mjoin (list_zone_line format action <$> lines)) = true /\
  Forall2 clean_line (mjoin (list_zone_line format action <$> lines))
    (policy_domain action <$> omap (line_domain format) lines).
Proof.
  intros Hf. induction lines as [|line lines IH]; [by split|].
  change (omap (line_domain format) (line :: lines)) with
    (match line_domain format line with
     | Some d => d :: omap (line_domain format) lines | None => omap (line_domain format) lines end).
  intros Hd. destruct (list_zone_line_spec format action line Hf) as [Ho Hc].
  { intros d Hl. rewrite Hl in Hd. by inversion Hd. }
  destruct IH as [Ho' Hc'].
  { destruct (line_domain format line); [by inversion Hd|done]. }
  cbn [fmap list_fmap mjoin list_join]. rewrite forallb_app, Ho. split; [done|].
  destruct (line_domain format line) as [d|]; cbn [option_list fmap list_fmap] in *.
  - change (policy_domain action d :: (policy_domain action <$> omap (line_domain format) lines))
      with ([policy_domain action d] ++ (policy_domain action <$> omap (line_domain format) lines)).
    by apply Forall2_app.
  - change (policy_domain action <$> omap (line_domain format) lines)
      with ([] ++ (policy_domain action <$> omap (line_domain format) lines)). by apply Forall2_app.
Qed.

Lemma comment_clean s : clean_line (String ";" s) None.
Proof. by constructor. Qed.

Lemma list_zone_lines_spec files l :
  one_line (li_id l) = true -> one_line (li_name l) = true -> li_format l <> RpzZone ->
  Forall dns_name (list_names files l) ->
  forallb one_line (list_zone_lines files l) = true /\
  Forall2 clean_line (list_zone_lines files l)
    ([None] ++ (policy_domain (li_default_action l) <$> list_names files l) ++ [None]).
Proof.
  intros Hi Hn Hf Hd. unfold list_zone_lines, list_names in *.
  assert (Hbody : forallb one_line match files !! li_id l with
      | Some content => mjoin (list_zone_line (li_format l) (li_default_action l) <$> str_lines content)
      | None => [] end = true /\
    Forall2 clean_line match files !! li_id l with
      | Some content => mjoin (list_zone_line (li_format l) (li_default_action l) <$> str_lines content)
      | None => [] end
      (policy_domain (li_default_action l) <$> match files !! li_id l with
      | Some content => omap (line_domain (li_format l)) (str_lines content) | None => [] end)).
  { destruct (files !! li_id l); [by apply content_spec|by split]. }
  destruct Hbody as [Ho Hc]. split.
  - rewrite !forallb_app, Ho. cbn [forallb]. by rewrite !one_line_app, Hi, Hn.
  - apply Forall2_app; [by repeat constructor|]. apply Forall2_app; [done|]. by repeat constructor.
Qed.

Lemma mjoin_cons {A} (l : list A) ls : mjoin (l :: ls) = l ++ mjoin ls.
Proof. done. Qed.

Lemma omap_id_fmap {A B} (f : A -> option B) (l : list A) : omap id (f <$> l) = omap f l.
Proof.
  induction l as [|x l IH]; [done|]. cbn [fmap list_fmap omap list_omap]. unfold id at 1.
  destruct (f x); [f_equal|]; apply IH.
Qed.

Lemma lists_spec st files :
  clean_state st files -> exists names,
  forallb one_line (mjoin (list_zone_lines files <$> active_lists st)) = true /\
  Forall2 clean_line (mjoin (list_zone_lines files <$> active_lists st)) names /\
  omap id names =
    mjoin ((fun l => omap (policy_domain (li_default_action l)) (list_names files l)) <$> active_lists st).
Proof.
  intros [Hl _]. induction (active_lists st) as [|l ls IH]; [by exists []|].
  destruct IH as (names & Ho & Hc & Hn); [intros l' Hl'; apply Hl; by right|].
  destruct (Hl l) as (Hid & Hna & Hf & Hd); [by left|].
  destruct (list_zone_lines_spec files l Hid Hna Hf Hd) as [Ho' Hc'].
  eexists (_ ++ names). rewrite !fmap_cons, !mjoin_cons, forallb_app, Ho', Ho.
  split; [done|]. split; [by apply Forall2_app|].
  rewrite !omap_app, Hn, omap_id_fmap. cbn [omap list_omap app]. by rewrite app_nil_r.
Qed.

Lemma rule_line_spec r :
  dns_name (ru_domain r) -> one_line (default EmptyString (ru_comment r)) = true ->
  one_line (rule_to_zone_line r) = true /\
  clean_line (rule_to_zone_line r) (policy_domain (ru_action r) (ru_domain r)).
Proof.
  intros Hd Hr. destruct (policy_line_spec (ru_action r) (ru_domain r)
    (" # " +:+ default EmptyString (ru_comment r)) Hd) as [Ho Hc].
  { by rewrite one_line_app, Hr. }
  unfold rule_to_zone_line. rewrite dns_name_trim by done. by destruct (ru_action r).
Qed.

Lemma rules_spec rs :
  (forall r, r ∈ rs -> dns_name (ru_domain r) /\ one_line (default EmptyString (ru_comment r)) = true) ->
  forallb one_line (rule_to_zone_line <$> rs) = true /\
  Forall2 clean_line (rule_to_zone_line <$> rs)
    ((fun r => policy_domain (ru_action r) (ru_domain r)) <$> rs).
Proof.
  intros Hr. induction rs as [|r rs IH]; [by split|].
  destruct IH as [Ho Hc]; [intros r' Hr'; apply Hr; by right|].
  destruct (Hr r) as [Hd Hcm]; [by left|]. destruct (rule_line_spec r Hd Hcm) as [Ho' Hc'].
  split; [cbn [fmap list_fmap forallb]; by rewrite Ho'|]. by constructor.
Qed.

(** The zone of a clean state, name by name. *)
Lemma compiled_zone_spec st files q :
  clean_state st files -> dns_name q ->
  exists z, zone_parse (compile_zone st files) = Ok z /\
  zone_lookup q z = if decide (q ∈ blocked_domains st files) then Some ZonePolicy else None.
Proof.
  intros Hcs Hq. destruct (lists_spec st files Hcs) as (names & Ho & Hc & Hn).
  destruct (rules_spec (st_custom_rules st) (cs_rules _ _ Hcs)) as [Ho' Hc'].
  set (all := [None; None; None] ++ names ++ [None] ++
    ((fun r => policy_domain (ru_action r) (ru_domain r)) <$> st_custom_rules st)).
  exists (add_names all empty_zone). split.
  - unfold zone_parse. rewrite compile_zone_lines, str_lines_unlines.
    + apply zone_parse_clean. unfold all. by repeat first [done | apply Forall2_app | constructor].
    + unfold zone_lines. by rewrite !forallb_app, Ho, Ho'.
  - rewrite add_names_lookup by done.
    assert (Hin : Some q ∈ all <-> q ∈ blocked_domains st files).
    { unfold blocked_domains. rewrite <- Hn, elem_of_app, list_elem_of_omap.
      unfold all. rewrite !elem_of_app, !elem_of_cons, list_elem_of_fmap, list_elem_of_omap.
      split; [intros [[|[|[|[]%not_elem_of_nil]]]|[?|[[|[]%not_elem_of_nil]|(r & ? & ?)]]]; try done|].
      - left. by exists (Some q).
      - right. by exists r.
      - intros [(o & ? & Heq)|(r & ? & ?)]; [right; left|do 3 right; by exists r].
        by rewrite <- Heq. }
    destruct (decide (Some q ∈ all)) as [Ha|Ha], (decide (q ∈ blocked_domains st files)) as [Hb|Hb];
      by first [done | apply Hin in Ha | apply Hin in Hb].
Qed.

(** Compiling and serving agree.  For a state whose lists are lists of names
    and whose rules name hosts, the sinkhole parses the zone the API writes, and in
    it a name has the block policy exactly when an active list or a custom rule
    names it with an action other than PASSTHRU; every other name is not in the
    zone, its subdomains included. *)
Theorem compiled_zone_exact st files q :
  clean_state st files -> dns_name q ->
  exists z, zone_parse (compile_zone st files) = Ok z /\
  zone_lookup q z = if decide (q ∈ blocked_domains st files) then Some ZonePolicy else None.
Proof. apply compiled_zone_spec. Qed.

(** The zone file is the one compiled from the state and the lists. *)
Definition zone_current (api : RpzApi) : Prop :=
  ap_zone api = Some (compile_zone (ap_state api) (ap_files api)).

Lemma persist_current u st files ok api : zone_current (persist (Ok u) st files ok api).1.
Proof. done. Qed.

Section keeps.
Context `{!RpzJson} (fetch : string -> result string string) (now : N) (stamp : string) (list_io : result unit string).
Context (u : unit) (api : RpzApi) (Hcurrent : zone_current api).

Lemma add_list_current body : zone_current (add_list fetch now stamp list_io (Ok u) body api).1.
Proof. unfold add_list. destruct (add_list_of_json body), list_io; try done; by destruct (list_content fetch _). Qed.

Lemma list_edits_current id body :
  zone_current (toggle_list stamp (Ok u) id body api).1
  /\ zone_current (sync_list fetch stamp list_io (Ok u) id api).1
  /\ zone_current (delete_list list_io (Ok u) id api).1.
Proof.
  split; [|split].
  - unfold toggle_list. destruct (active_of_json body); [|done]. by destruct (update_list id _ _) as [[ls l]|].
  - unfold sync_list. destruct (List.find _ _); [|done]. by destruct (update_list id _ _) as [[ls l]|].
  - unfold delete_list. by destruct (Nat.eqb _ _).
Qed.

Lemma rule_edits_current id body :
  zone_current (put_config (Ok u) body api).1
  /\ zone_current (rpz_add_rule now stamp (Ok u) body api).1
  /\ zone_current (rpz_delete_rule (Ok u) id api).1.
Proof.
  split; [|split].
  - unfold put_config. by destruct (config_of_json body).
  - unfold rpz_add_rule. by destruct (add_rule_of_json body).
  - unfold rpz_delete_rule. by destruct (Nat.eqb _ _).
Qed.

End keeps.

(** C37: Every change of the API reaches the zone: while files can be written, the zone
    file the sinkhole reads is the one compiled from the lists and rules in memory,
    after every request. *)
Theorem requests_keep_zone_current `{!RpzJson} (fetch : string -> result string string) (now : N) (stamp : string)
    (list_io : result unit string) (u : unit) (m : RpzMethod) (path query body : string) (api : RpzApi)
    (Hcurrent : zone_current api) :
  zone_current (rpz_handle fetch now stamp list_io (Ok u) m path query body api).1.
Proof.
  pose proof (add_list_current fetch now stamp list_io u api Hcurrent body) as Hadd.
  pose proof (fun id => list_edits_current fetch stamp list_io u api Hcurrent id body) as Hlist.
  pose proof (fun id => rule_edits_current now stamp u api Hcurrent id body) as Hrule.
  unfold rpz_handle. destruct (String.eqb path "/api/dns/rpz/lists"); [by destruct m|].
  set (rest := if String.eqb path "/api/dns/sinkhole/config" then _ else _).
  assert (Hrest : zone_current rest.1).
  { unfold rest. destruct (String.eqb _ _); [destruct m; try done; apply (Hrule EmptyString)|].
    do 2 (destruct (String.eqb _ _ && _); [done|]).
    destruct (String.eqb _ _); [destruct m; try done; apply (Hrule EmptyString)|].
    destruct (strip_prefix _ _) as [id|]; [|done]. destruct m; try done. apply Hrule. }
  destruct (strip_prefix "/api/dns/rpz/lists/" path) as [r|]; [|done]. unfold rpz_handle_list.
  destruct (strip_suffix "/toggle" r) as [id|], (strip_suffix "/sync" r) as [id'|], m; try done; apply Hlist.
Qed.

(** ** Examples *)

Definition demo_list : RpzList :=
  {| li_id := "rpz-1"; li_name := "ads"; li_description := EmptyString; li_source := Inline;
     li_format := Hosts; li_url := None; li_default_action := Nxdomain; li_rule_count := 2; li_active := true;
     li_priority := 10; li_last_updated := EmptyString; li_sync_error := None; li_tags := [] |}.

Definition demo_hosts : string :=
  "# ads" +:+ nl +:+ "0.0.0.0 ads.example.com" +:+ nl +:+ "0.0.0.0 track.example.net. # x" +:+ nl.

Definition demo_rule (d : string) (a : RpzAction) : RpzRule :=
  {| ru_id := "rule-1"; ru_list_id := "custom-inline"; ru_list_name := "Custom Overrides"; ru_domain := d;
     ru_action := a; ru_target_ip := None; ru_target_cname := None; ru_comment := None;
     ru_created_at := EmptyString |}.

Definition demo_rpz : RpzStateFile :=
  {| st_lists := [demo_list];
     st_custom_rules := [demo_rule "evil.test" Drop; demo_rule "ads.example.com" Passthru];
     st_config := DnsSinkholeConfig_default |}.

Definition demo_files : gmap string string := {[ "rpz-1" := demo_hosts ]}.

Lemma demo_rpz_clean : clean_state demo_rpz demo_files.
Proof.
  split.
  - intros l Hl. assert (l = demo_list) as -> by (by apply list_elem_of_singleton).
    repeat split; [done|]. change (list_names demo_files demo_list) with ["ads.example.com"; "track.example.net"]%string.
    repeat constructor; [by exists "ads", ["example"; "com"]%string|by exists "track", ["example"; "net"]%string].
  - intros r Hr. unfold demo_rpz in Hr. cbn [st_custom_rules] in Hr. rewrite !elem_of_cons in Hr.
    destruct Hr as [->|[->|[]%not_elem_of_nil]]; (split; [|done]); cbn [demo_rule ru_domain].
    + by exists "evil", ["test"]%string.
    + by exists "ads", ["example"; "com"]%string.
Qed.

(** The PASSTHRU rule for [ads.example.com] does not exempt it. *)
Lemma compiled_zone_exact_witness :
  exists z, zone_parse (compile_zone demo_rpz demo_files) = Ok z /\
  zone_lookup "ads.example.com" z = Some ZonePolicy.
Proof.
  destruct (compiled_zone_exact demo_rpz demo_files "ads.example.com" demo_rpz_clean) as (z & Hz & Hq).
  - by exists "ads", ["example"; "com"]%string.
  - exists z. split; [exact Hz|]. rewrite Hq. vm_compute. reflexivity.
Defined.

Definition demo_api : RpzApi :=
  {| ap_state := demo_rpz; ap_files := demo_files; ap_zone := Some (compile_zone demo_rpz demo_files) |}.

(** The test endpoint and the zone disagree on overrides and on subdomains. *)
Example test_endpoint_override :
  test_domain "ads.example.com" demo_api = Some Passthru /\
  (zone_lookup "ads.example.com" <$> match zone_parse (compile_zone demo_rpz demo_files) with
     | Ok z => Some z | Err _ => None end) = Some (Some ZonePolicy).
Proof. split; vm_compute; reflexivity. Qed.

Example test_endpoint_subdomain :
  test_domain "www.evil.test" demo_api = Some Drop /\
  (zone_lookup "www.evil.test" <$> match zone_parse (compile_zone demo_rpz demo_files) with
     | Ok z => Some z | Err _ => None end) = Some None.
Proof. split; vm_compute; reflexivity. Qed.

(** A record of another type in a zone-format list makes the sinkhole refuse the
    whole zone. *)
Example foreign_record_refused :
  let soa := {| li_id := "rpz-1"; li_name := "feed"; li_description := EmptyString; li_source := Inline;
                li_format := RpzZone; li_url := None; li_default_action := Nxdomain; li_rule_count := 1;
                li_active := true; li_priority := 10; li_last_updated := EmptyString; li_sync_error := None;
                li_tags := [] |} in
  exists e, zone_parse (compile_zone {| st_lists := [soa]; st_custom_rules := [];
                                        st_config := DnsSinkholeConfig_default |}
    {[ "rpz-1" := "feed.test. SOA ns.feed.test. admin.feed.test. 1 2 3 4 5" ]}) = Err e.
Proof. eexists. vm_compute. reflexivity. Qed.

#[local] Instance demo_rpz_json : RpzJson := {|
  add_list_of_json _ := Err "no list"%string;
  add_rule_of_json body := Ok {| ar_domain := body; ar_action := Drop; ar_comment := None |};
  active_of_json _ := Err "no flag"%string;
  config_of_json _ := Err "no config"%string;
|}.

(** A rule added over the API is in the zone file. *)
Lemma requests_keep_zone_current_witness :
  let api := (rpz_handle (fun _ => Err "offline"%string) 7 "now" (Ok tt) (Ok tt) RpzPost "/api/dns/rpz/rules/custom"
                EmptyString "new.test" demo_api).1 in
  zone_current api /\ length (st_custom_rules (ap_state api)) = 3.
Proof. split; [apply requests_keep_zone_current; reflexivity|vm_compute; reflexivity]. Defined.
