(* ===== verification/Sessions.v ===== *)
(** * Sessions (src/proxy/src/session.rs, src/proxy/src/session_store.rs)

    The correlator that gives events a session and links a request to the redirect
    that led to it, and the store of console sessions shared through Redis.

    Instants, fresh identifiers and Redis replies are arguments; [None] is the
    panic of an instant past its range.  The mutexes make each update of a table
    one step; the two tables are independent. *)

From Stdlib Require Import Ascii String NArith Lia.
From stdpp Require Import base option gmap sets strings pretty numbers list.
From S2P Require Import Prelude CacheDigest.

(** ** Urls

    The [url] crate: parsing, joining, the parts that are changed, printing. *)

Class UrlCrate := {
  Url : Type;
  url_parse : string -> option Url;
  url_join : Url -> string -> option Url;
  url_set_fragment_none : Url -> Url;
  url_host_str : Url -> option string;
  url_set_host : string -> Url -> Url;
  url_to_string : Url -> string;
}.

Section urls.
Context `{!UrlCrate}.

Definition normalize_url (raw : string) : string :=
  match url_parse raw with
  | None => trim_end_matches "#" raw
  | Some url =>
      let url := url_set_fragment_none url in
      url_to_string
        match url_host_str url with
        | Some host => url_set_host (to_ascii_lowercase host) url
        | None => url
        end
  end.

Definition resolve_location (request_url location : string) : string :=
  let loc := trim location in
  if starts_with loc "http://" || starts_with loc "https://" then normalize_url loc
  else
    match base ← url_parse request_url; url_join base loc with
    | Some joined => normalize_url (url_to_string joined)
    | None => normalize_url loc
    end.

Definition redirect_key (client_ip url : string) : string :=
  client_ip +:+ String "000" EmptyString +:+ normalize_url url.

End urls.

Definition is_redirect_status (status : N) : bool := bool_decide (status ∈ [301; 302; 303; 307; 308]%N).

(** ** The correlator *)

Record SessionCorrelation := {
  co_session_id : string;
  co_parent_event_id : option string;
}.

Record SessionEntry := {
  se_session_id : string;
  se_last_seen : N;
}.

Record PendingRedirect := {
  pr_event_id : string;
  pr_expires_at : N;
}.

Record SessionCorrelator := {
  sessions : gmap string SessionEntry;
  redirects : gmap string PendingRedirect;
  sc_idle : N;
  sc_redirect_ttl : N;
  sc_max_sessions : N;
  sc_max_redirects : N;
}.

Definition SessionCorrelator_from_env (env : Env) : SessionCorrelator := {|
  sessions := ∅;
  redirects := ∅;
  sc_idle := from_secs (N.max (env_parse parse_u64 env "SESSION_IDLE_SECONDS" 1800%N) 60);
  sc_redirect_ttl := from_secs (N.max (env_parse parse_u64 env "SESSION_REDIRECT_TTL_SECONDS" 60%N) 5);
  sc_max_sessions := N.max (env_parse parse_usize env "SESSION_MAX_KEYS" 50000%N) 100;
  sc_max_redirects := N.max (env_parse parse_usize env "SESSION_MAX_REDIRECTS" 20000%N) 100;
|}.

Definition with_sessions (m : gmap string SessionEntry) (c : SessionCorrelator) : SessionCorrelator :=
  {| sessions := m; redirects := redirects c; sc_idle := sc_idle c; sc_redirect_ttl := sc_redirect_ttl c;
     sc_max_sessions := sc_max_sessions c; sc_max_redirects := sc_max_redirects c |}.

Definition with_redirects (m : gmap string PendingRedirect) (c : SessionCorrelator) : SessionCorrelator :=
  {| sessions := sessions c; redirects := m; sc_idle := sc_idle c; sc_redirect_ttl := sc_redirect_ttl c;
     sc_max_sessions := sc_max_sessions c; sc_max_redirects := sc_max_redirects c |}.

(** [map.keys().next()] when the table is full: [pick] is the first key of the
    iteration. *)
Definition make_room {A} (pick : gmap string A -> option string) (max : N) (m : gmap string A)
    : gmap string A :=
  if (max <=? N.of_nat (size m))%N then
    match pick m with Some k => delete k m | None => m end
  else m.

Section correlator.
Context `{!Sha256, !UrlCrate}.
Variables (pick_session : gmap string SessionEntry -> option string)
  (pick_redirect : gmap string PendingRedirect -> option string).

Definition session_key (client_ip : string) (username user_agent : option string) : string :=
  let zero := String "000" EmptyString in
  hex_encode (sha256 (client_ip +:+ zero +:+ default EmptyString username +:+ zero +:+
                      default EmptyString user_agent)).

Definition evict_idle_sessions (idle now : N) (m : gmap string SessionEntry) : gmap string SessionEntry :=
  filter (fun '(_, e) => now - se_last_seen e <= idle)%N m.

Definition evict_expired_redirects (now : N) (m : gmap string PendingRedirect)
    : gmap string PendingRedirect :=
  filter (fun '(_, p) => now < pr_expires_at p)%N m.

(** [fresh] is the random id of a new session. *)
Definition get_or_create_session (now : N) (fresh client_ip : string) (username user_agent : option string)
    (c : SessionCorrelator) : SessionCorrelator * string :=
  let key := session_key client_ip username user_agent in
  let create :=
    let m := evict_idle_sessions (sc_idle c) now (sessions c) in
    let m := make_room pick_session (sc_max_sessions c) m in
    (with_sessions (<[key := {| se_session_id := fresh; se_last_seen := now |}]> m) c, fresh) in
  match sessions c !! key with
  | Some entry =>
      if (now - se_last_seen entry <=? sc_idle c)%N then
        (with_sessions
           (<[key := {| se_session_id := se_session_id entry; se_last_seen := now |}]> (sessions c)) c,
         se_session_id entry)
      else create
  | None => create
  end.

Definition take_pending_redirect (now : N) (client_ip request_url : string) (c : SessionCorrelator)
    : SessionCorrelator * option string :=
  let key := redirect_key client_ip request_url in
  let m := evict_expired_redirects now (redirects c) in
  (with_redirects (delete key m) c, pr_event_id <$> m !! key).

Definition begin_request (now1 now2 : N) (fresh client_ip : string) (username user_agent : option string)
    (request_url : string) (c : SessionCorrelator) : SessionCorrelator * SessionCorrelation :=
  let '(c, sid) := get_or_create_session now1 fresh client_ip username user_agent c in
  let '(c, parent) := take_pending_redirect now2 client_ip request_url c in
  (c, {| co_session_id := sid; co_parent_event_id := parent |}).

(** The key a response leaves a redirect under, if it does. *)
Definition noted_key (client_ip : string) (status : N) (request_url : string) (location : option string)
    : option string :=
  if is_redirect_status status then
    match location with
    | Some loc =>
        if str_is_empty loc then None
        else Some (redirect_key client_ip (resolve_location request_url loc))
    | None => None
    end
  else None.

Definition note_redirect (now1 now2 : N) (client_ip event_id : string) (status : N) (request_url : string)
    (location : option string) (c : SessionCorrelator) : option SessionCorrelator :=
  match noted_key client_ip status request_url location with
  | None => Some c
  | Some key =>
      let m := evict_expired_redirects now1 (redirects c) in
      let m := make_room pick_redirect (sc_max_redirects c) m in
      expires ← checked_add_time now2 (sc_redirect_ttl c);
      Some (with_redirects (<[key := {| pr_event_id := event_id; pr_expires_at := expires |}]> m) c)
  end.

(** ** Runs of the correlator *)

Inductive session_op :=
| SBegin (now1 now2 : N) (fresh client_ip : string) (username user_agent : option string)
    (request_url : string)
| SNote (now1 now2 : N) (client_ip event_id : string) (status : N) (request_url : string)
    (location : option string).

Definition session_apply (op : session_op) (c : SessionCorrelator) : option SessionCorrelator :=
  match op with
  | SBegin now1 now2 fresh ip user ua url => Some (begin_request now1 now2 fresh ip user ua url c).1
  | SNote now1 now2 ip ev status url loc => note_redirect now1 now2 ip ev status url loc c
  end.

Fixpoint session_run (ops : list session_op) (c : SessionCorrelator) : option SessionCorrelator :=
  match ops with
  | [] => Some c
  | op :: ops' => session_apply op c ≫= session_run ops'
  end.

(** The operation comes before [t] and does not touch the redirect [key] / the
    session [key]. *)
Definition leaves_redirect (key : string) (t : N) (op : session_op) : Prop :=
  match op with
  | SBegin _ now2 _ ip _ _ url => (now2 <= t)%N /\ redirect_key ip url <> key
  | SNote now1 _ ip _ status url loc => (now1 <= t)%N /\ noted_key ip status url loc <> Some key
  end.

Definition leaves_session (key : string) (t : N) (op : session_op) : Prop :=
  match op with
  | SBegin now1 _ _ ip user ua _ => (now1 <= t)%N /\ session_key ip user ua <> key
  | SNote _ _ _ _ _ _ _ => True
  end.

End correlator.

(** ** The store of console sessions *)

Record GlobalSessionStore := {
  local_sessions : gmap string string;
  gs_key_prefix : string;
  gs_ttl_secs : N;
}.

Inductive SessionCmd :=
| SessGet (key : string)
| SessSetEx (key value : string) (ttl : N)
| SessDel (key : string).

Definition GlobalSessionStore_new (env : Env) : GlobalSessionStore := {|
  local_sessions := ∅;
  gs_key_prefix := default "bsdm:session:" (env "REDIS_SESSION_PREFIX");
  gs_ttl_secs := env_parse parse_u64 env "REDIS_SESSION_TTL" 86400%N;
|}.

Definition with_local (m : gmap string string) (s : GlobalSessionStore) : GlobalSessionStore :=
  {| local_sessions := m; gs_key_prefix := gs_key_prefix s; gs_ttl_secs := gs_ttl_secs s |}.

(** [redis] is the reply to a GET, when connected; the commands sent are returned. *)
Definition gs_get_session (redis : option (string -> result (option string) string)) (session_id : string)
    (s : GlobalSessionStore) : GlobalSessionStore * option string * list SessionCmd :=
  match local_sessions s !! session_id with
  | Some user => (s, Some user, [])
  | None =>
      match redis with
      | None => (s, None, [])
      | Some reply =>
          let key := gs_key_prefix s +:+ session_id in
          match reply key with
          | Ok (Some username) =>
              (with_local (<[session_id := username]> (local_sessions s)) s, Some username, [SessGet key])
          | _ => (s, None, [SessGet key])
          end
      end
  end.

Definition gs_create_session (connected : bool) (fresh username : string) (s : GlobalSessionStore)
    : GlobalSessionStore * string * list SessionCmd :=
  (with_local (<[fresh := username]> (local_sessions s)) s, fresh,
   if connected then [SessSetEx (gs_key_prefix s +:+ fresh) username (gs_ttl_secs s)] else []).

(** [deleted] is the count Redis answers to a DEL, when connected. *)
Definition gs_remove_session (deleted : option (result N string)) (session_id : string)
    (s : GlobalSessionStore) : GlobalSessionStore * bool * list SessionCmd :=
  let removed := present (local_sessions s !! session_id) in
  let s' := with_local (delete session_id (local_sessions s)) s in
  match deleted with
  | None => (s', removed, [])
  | Some reply =>
      (s', match reply with Ok count => (0 <? count)%N || removed | Err _ => removed end,
       [SessDel (gs_key_prefix s +:+ session_id)])
  end.

(** ** Lemmas *)

Lemma make_room_lookup {A} (pick : gmap string A -> option string) max (m : gmap string A) k :
  (N.of_nat (size m) < max)%N -> make_room pick max m !! k = m !! k.
Proof. intros Hm. unfold make_room. by rewrite (proj2 (N.leb_gt _ _)) by lia. Qed.

Lemma make_room_size {A} (pick : gmap string A -> option string) max (m : gmap string A) :
  picks_key pick -> (0 < max)%N -> (N.of_nat (size m) <= max)%N ->
  (N.of_nat (size (make_room pick max m)) < max)%N.
Proof.
  intros Hp Hmax Hm. unfold make_room. destruct (max <=? _)%N eqn:Hle; [|by apply N.leb_gt].
  apply N.leb_le in Hle. destruct (Hp m) as (k & -> & v & Hv).
  - intros ->. rewrite map_size_empty in Hle. lia.
  - rewrite map_size_delete_Some by eauto. assert (size m <> 0); [|lia].
    apply map_size_non_empty_iff. intros ->. by rewrite lookup_empty in Hv.
Qed.

Lemma size_filter {A} (P : string * A -> Prop) `{!forall x, Decision (P x)} (m : gmap string A) :
  size (filter P m) <= size m.
Proof. apply map_subseteq_size, map_filter_subseteq. Qed.

Lemma size_insert {A} (m : gmap string A) k x : size (<[k := x]> m) <= S (size m).
Proof. rewrite map_size_insert. destruct (m !! k); simpl; lia. Qed.

Lemma size_make_room {A} (pick : gmap string A -> option string) max (m : gmap string A) :
  size (make_room pick max m) <= size m.
Proof.
  unfold make_room. destruct (_ <=? _)%N; [|done]. destruct (pick m); [|done].
  apply map_subseteq_size, delete_subseteq.
Qed.

Lemma size_delete {A} (m : gmap string A) k : size (delete k m) <= size m.
Proof. apply map_subseteq_size, delete_subseteq. Qed.

Lemma size_evict_redirects now m : size (evict_expired_redirects now m) <= size m.
Proof. apply size_filter. Qed.

Lemma size_evict_sessions idle now m : size (evict_idle_sessions idle now m) <= size m.
Proof. apply size_filter. Qed.

Lemma live_redirect m key p t :
  m !! key = Some p -> (t < pr_expires_at p)%N -> evict_expired_redirects t m !! key = Some p.
Proof. intros Hm Ht. by apply map_lookup_filter_Some. Qed.

Lemma live_session m key e idle t :
  m !! key = Some e -> (t - se_last_seen e <= idle)%N -> evict_idle_sessions idle t m !! key = Some e.
Proof. intros Hm Ht. by apply map_lookup_filter_Some. Qed.

Section correlator_lemmas.
Context `{!Sha256, !UrlCrate}.
Context (pick_session : gmap string SessionEntry -> option string)
  (pick_redirect : gmap string PendingRedirect -> option string).

Lemma get_or_create_redirects now fresh ip user ua c :
  redirects (get_or_create_session pick_session now fresh ip user ua c).1 = redirects c /\
  sc_max_redirects (get_or_create_session pick_session now fresh ip user ua c).1 = sc_max_redirects c.
Proof. unfold get_or_create_session. by repeat case_match. Qed.

(** An operation that leaves the redirect alone keeps it, and adds at most one. *)
Lemma redirect_kept op c c' key t p :
  session_apply pick_session pick_redirect op c = Some c' -> leaves_redirect key t op ->
  redirects c !! key = Some p -> (t < pr_expires_at p)%N ->
  (N.of_nat (size (redirects c)) < sc_max_redirects c)%N ->
  redirects c' !! key = Some p /\ size (redirects c') <= S (size (redirects c)) /\
  sc_max_redirects c' = sc_max_redirects c.
Proof.
  intros Ha Hl Hp Ht Hs. destruct op as [now1 now2 fresh ip user ua url|now1 now2 ip ev status url loc];
    cbn [session_apply leaves_redirect] in *; destruct Hl as [Hn Hk].
  - injection Ha as <-. unfold begin_request, take_pending_redirect.
    destruct (get_or_create_session pick_session now1 fresh ip user ua c) as [c1 sid] eqn:Hc.
    destruct (get_or_create_redirects now1 fresh ip user ua c) as [Hr Hm]. rewrite Hc in Hr, Hm.
    cbn [fst] in *. cbn [redirects with_redirects sc_max_redirects]. rewrite Hr, Hm. split_and!; [|..|done].
    + rewrite lookup_delete_ne by done. apply live_redirect; [done|lia].
    + etrans; [apply size_delete|]. etrans; [apply size_evict_redirects|]. lia.
  - unfold note_redirect in Ha. destruct (noted_key ip status url loc) as [k|]; [|simplify_eq; split_and!; auto].
    destruct (checked_add_time now2 _) as [ex|]; [|done]. injection Ha as <-.
    cbn [redirects with_redirects sc_max_redirects].
    pose proof (size_evict_redirects now1 (redirects c)) as Hf. split_and!; [|..|done].
    + rewrite lookup_insert_ne by congruence. rewrite make_room_lookup by lia. apply live_redirect; [done|lia].
    + etrans; [apply size_insert|]. apply le_n_S. etrans; [apply size_make_room|]. done.
Qed.

Lemma redirect_kept_run ops c c' key t p :
  session_run pick_session pick_redirect ops c = Some c' -> Forall (leaves_redirect key t) ops ->
  redirects c !! key = Some p -> (t < pr_expires_at p)%N ->
  (N.of_nat (size (redirects c) + length ops) <= sc_max_redirects c)%N ->
  redirects c' !! key = Some p.
Proof.
  intros Hr Hl. revert c Hr. induction Hl as [|op ops Hop _ IH]; intros c Hr Hp Ht Hs; cbn [session_run] in Hr.
  - by simplify_eq.
  - destruct (session_apply _ _ op c) as [c1|] eqn:Ha; [|done]. cbn [length] in Hs.
    destruct (redirect_kept op c c1 key t p Ha Hop Hp Ht) as (Hp' & Hs' & Hm); [lia|].
    apply (IH c1); [done|done|done|lia].
Qed.

Lemma take_pending_redirect_live now ip url c p :
  redirects c !! redirect_key ip url = Some p -> (now < pr_expires_at p)%N ->
  (take_pending_redirect now ip url c).2 = Some (pr_event_id p) /\
  redirects (take_pending_redirect now ip url c).1 !! redirect_key ip url = None.
Proof.
  intros Hp Ht. unfold take_pending_redirect. cbn [fst snd redirects with_redirects].
  rewrite (live_redirect _ _ p) by done. split; [done|]. apply lookup_delete_eq.
Qed.

(** Redirect chains are linked.  When a response redirects a client, and the
    client asks for the target before the redirect expires, the request's event
    names the redirect's event as its parent, whatever other requests happen in
    between, as long as they do not ask for or redirect to the same target and the
    table has room; the redirect is then used up. *)
Theorem redirect_chain_linked c0 c1 c2 ops n1 n2 ip ev status url loc now1 now2 fresh user ua target :
  note_redirect pick_redirect n1 n2 ip ev status url (Some loc) c0 = Some c1 ->
  is_redirect_status status = true -> str_is_empty loc = false ->
  redirect_key ip target = redirect_key ip (resolve_location url loc) ->
  session_run pick_session pick_redirect ops c1 = Some c2 ->
  Forall (leaves_redirect (redirect_key ip target) now2) ops ->
  (N.of_nat (size (redirects c1) + length ops) <= sc_max_redirects c1)%N ->
  (now2 < n2 + sc_redirect_ttl c0)%N ->
  let '(c3, corr) := begin_request pick_session now1 now2 fresh ip user ua target c2 in
  co_parent_event_id corr = Some ev /\ redirects c3 !! redirect_key ip target = None.
Proof.
  intros Hn Hst Hloc Hk Hr Hl Hs Ht. unfold note_redirect, noted_key in Hn. rewrite Hst, Hloc in Hn.
  destruct (checked_add_time n2 _) as [ex|] eqn:Hex; [|done]. cbn in Hn. injection Hn as <-.
  unfold checked_add_time in Hex. destruct (_ <=? _)%N; [|done]. injection Hex as <-.
  eapply redirect_kept_run in Hr; [|done|rewrite Hk; apply lookup_insert_eq|done|done].
  unfold begin_request. destruct (get_or_create_session pick_session now1 fresh ip user ua c2) as [c3 sid] eqn:Hc.
  pose proof (proj1 (get_or_create_redirects now1 fresh ip user ua c2)) as Hrd. rewrite Hc in Hrd.
  cbn [fst] in Hrd. rewrite <- Hrd in Hr. destruct (take_pending_redirect_live now2 ip target c3 _ Hr Ht) as [Hp Hd].
  destruct (take_pending_redirect now2 ip target c3) as [c4 par]. by split.
Qed.

(** An operation that leaves the session alone keeps it. *)
Lemma session_kept op c c' key t e :
  session_apply pick_session pick_redirect op c = Some c' -> leaves_session key t op ->
  sessions c !! key = Some e -> (t - se_last_seen e <= sc_idle c)%N ->
  (N.of_nat (size (sessions c)) < sc_max_sessions c)%N ->
  sessions c' !! key = Some e /\ size (sessions c') <= S (size (sessions c)) /\
  sc_max_sessions c' = sc_max_sessions c /\ sc_idle c' = sc_idle c.
Proof.
  intros Ha Hl He Ht Hs. destruct op as [now1 now2 fresh ip user ua url|now1 now2 ip ev status url loc];
    cbn [session_apply leaves_session] in *.
  - destruct Hl as [Hn Hk]. injection Ha as <-. unfold begin_request, take_pending_redirect.
    assert (Hnew : forall x, let m := evict_idle_sessions (sc_idle c) now1 (sessions c) in
      <[session_key ip user ua := x]> (make_room pick_session (sc_max_sessions c) m) !! key = Some e /\
      size (<[session_key ip user ua := x]> (make_room pick_session (sc_max_sessions c) m)) <= S (size (sessions c))).
    { intros x m. pose proof (size_evict_sessions (sc_idle c) now1 (sessions c)) as Hf. split.
      - rewrite lookup_insert_ne by done. rewrite make_room_lookup by (subst m; lia). apply live_session; [done|lia].
      - etrans; [apply size_insert|]. apply le_n_S. etrans; [apply size_make_room|]. done. }
    unfold get_or_create_session. repeat case_match; simplify_eq; cbn [fst sessions with_sessions with_redirects
      sc_max_sessions sc_idle]; split_and!; try done; try apply Hnew.
    + by rewrite lookup_insert_ne by done.
    + apply size_insert.
  - unfold note_redirect in Ha. destruct (noted_key ip status url loc) as [k|]; [|simplify_eq; split_and!; auto].
    destruct (checked_add_time now2 _) as [ex|]; [|done]. injection Ha as <-. split_and!; simpl; auto.
Qed.

Lemma session_kept_run ops c c' key t e :
  session_run pick_session pick_redirect ops c = Some c' -> Forall (leaves_session key t) ops ->
  sessions c !! key = Some e -> (t - se_last_seen e <= sc_idle c)%N ->
  (N.of_nat (size (sessions c) + length ops) <= sc_max_sessions c)%N ->
  sessions c' !! key = Some e /\ sc_idle c' = sc_idle c.
Proof.
  intros Hr Hl. revert c Hr. induction Hl as [|op ops Hop _ IH]; intros c Hr He Ht Hs; cbn [session_run] in Hr.
  - by simplify_eq.
  - destruct (session_apply _ _ op c) as [c1|] eqn:Ha; [|done]. cbn [length] in Hs.
    destruct (session_kept op c c1 key t e Ha Hop He Ht) as (He' & Hs' & Hm & Hi); [lia|].
    rewrite <- Hi in Ht |- *. apply (IH c1); [done|done|done|lia].
Qed.

Lemma begin_request_session now1 now2 fresh ip user ua url c :
  let '(c', corr) := begin_request pick_session now1 now2 fresh ip user ua url c in
  sessions c' !! session_key ip user ua = Some {| se_session_id := co_session_id corr; se_last_seen := now1 |} /\
  sc_idle c' = sc_idle c.
Proof.
  unfold begin_request, get_or_create_session, take_pending_redirect.
  repeat case_match; simplify_eq; cbn; by rewrite lookup_insert_eq.
Qed.

(** Sessions continue.  Two requests of a client (same address, user and
    agent) no more than the idle time apart have the same session, whatever other
    clients do in between while the table has room. *)
Theorem session_continues c0 c1 c2 ops t1 t1' fresh ip user ua url corr t2 t2' fresh' url' :
  begin_request pick_session t1 t1' fresh ip user ua url c0 = (c1, corr) ->
  session_run pick_session pick_redirect ops c1 = Some c2 ->
  Forall (leaves_session (session_key ip user ua) t2) ops ->
  (t2 - t1 <= sc_idle c0)%N ->
  (N.of_nat (size (sessions c1) + length ops) <= sc_max_sessions c1)%N ->
  co_session_id (begin_request pick_session t2 t2' fresh' ip user ua url' c2).2 = co_session_id corr.
Proof.
  intros Hb Hr Hl Ht Hs. pose proof (begin_request_session t1 t1' fresh ip user ua url c0) as Hc.
  rewrite Hb in Hc. destruct Hc as [He Hi]. rewrite <- Hi in Ht.
  destruct (session_kept_run ops c1 c2 _ t2 _ Hr Hl He Ht Hs) as [He2 Hi2].
  unfold begin_request, get_or_create_session. rewrite He2. cbn [se_last_seen se_session_id].
  rewrite (proj2 (N.leb_le _ _)) by (rewrite Hi2; done). by destruct (take_pending_redirect _ _ _ _).
Qed.

(** ** The tables are bounded *)

Definition sessions_ok (c : SessionCorrelator) : Prop :=
  (0 < sc_max_sessions c)%N /\ (0 < sc_max_redirects c)%N /\
  (N.of_nat (size (sessions c)) <= sc_max_sessions c)%N /\
  (N.of_nat (size (redirects c)) <= sc_max_redirects c)%N.

Lemma room_insert {A} (pick : gmap string A -> option string) max (m : gmap string A) k x :
  picks_key pick -> (0 < max)%N -> (N.of_nat (size m) <= max)%N ->
  (N.of_nat (size (<[k := x]> (make_room pick max m))) <= max)%N.
Proof.
  intros Hp Hmax Hm. pose proof (make_room_size pick max m Hp Hmax Hm).
  pose proof (size_insert (make_room pick max m) k x). lia.
Qed.

Lemma session_apply_ok op c c' :
  picks_key pick_session -> picks_key pick_redirect ->
  sessions_ok c -> session_apply pick_session pick_redirect op c = Some c' -> sessions_ok c'.
Proof.
  intros Hps Hpr (Hs0 & Hr0 & Hs & Hr) Ha.
  destruct op as [now1 now2 fresh ip user ua url|now1 now2 ip ev status url loc]; cbn [session_apply] in Ha.
  - injection Ha as <-. unfold begin_request, take_pending_redirect.
    assert (Hd : forall k, (N.of_nat (size (delete k (evict_expired_redirects now2 (redirects c)))) <= sc_max_redirects c)%N).
    { intros k. pose proof (size_delete (evict_expired_redirects now2 (redirects c)) k).
      pose proof (size_evict_redirects now2 (redirects c)). lia. }
    pose proof (size_evict_sessions (sc_idle c) now1 (sessions c)) as Hf.
    unfold get_or_create_session. repeat case_match; simplify_eq; split_and!; cbn; try done;
      try (by apply room_insert; [..|lia]); try apply Hd.
    rewrite map_size_insert_Some by eauto. done.
  - unfold note_redirect in Ha. destruct (noted_key ip status url loc) as [k|]; [|by simplify_eq].
    destruct (checked_add_time now2 _) as [ex|]; [|done]. injection Ha as <-. split_and!; cbn; try done.
    apply room_insert; [done..|]. pose proof (size_evict_redirects now1 (redirects c)). lia.
Qed.

Lemma session_tables_bounded env ops c :
  picks_key pick_session -> picks_key pick_redirect ->
  session_run pick_session pick_redirect ops (SessionCorrelator_from_env env) = Some c -> sessions_ok c.
Proof.
  intros Hps Hpr. assert (Hi : sessions_ok (SessionCorrelator_from_env env)).
  { unfold sessions_ok, SessionCorrelator_from_env. cbn [sessions redirects sc_max_sessions sc_max_redirects].
    rewrite !map_size_empty. lia. }
  revert Hi. generalize (SessionCorrelator_from_env env).
  induction ops as [|op ops IH]; intros c0 Hi Hr; cbn [session_run] in Hr; [by simplify_eq|].
  destruct (session_apply _ _ op c0) as [c1|] eqn:Ha; [|done]. eapply IH; [|done]. by eapply session_apply_ok.
Qed.

End correlator_lemmas.

(** ** Console sessions *)

(** A session that was created is found; once removed it is found only if Redis
    still has it. *)
Lemma gs_create_get connected fresh user s redis :
  (gs_get_session redis fresh (gs_create_session connected fresh user s).1.1).1.2 = Some user.
Proof. unfold gs_get_session, gs_create_session. cbn. by rewrite lookup_insert_eq. Qed.

Lemma gs_remove_get deleted sid s reply :
  (gs_get_session None sid (gs_remove_session deleted sid s).1.1).1.2 = None /\
  ((gs_get_session (Some reply) sid (gs_remove_session deleted sid s).1.1).1.2 =
   match reply (gs_key_prefix s +:+ sid) with Ok o => o | Err _ => None end).
Proof.
  unfold gs_get_session, gs_remove_session.
  destruct deleted; cbn; rewrite lookup_delete_eq; (split; [done|]); by destruct (reply _) as [[]|].
Qed.

(** ** Witnesses *)

#[local] Instance toy_sha256 : Sha256 := {| sha256 := fun s => s; hex_encode := fun s => s |}.

(** Urls as text; a relative reference is appended to the base. *)
#[local] Instance text_urls : UrlCrate := {|
  Url := string;
  url_parse s := if str_contains s "://" then Some s else None;
  url_join b r := Some (trim_end_matches "/" b +:+ r);
  url_set_fragment_none u := match split_once "#" u with Some (a, _) => a | None => u end;
  url_host_str u := None;
  url_set_host _ u := u;
  url_to_string u := u;
|}.

Definition demo_correlator : SessionCorrelator := SessionCorrelator_from_env (fun _ => None).

Definition demo_hop : SessionCorrelator :=
  default demo_correlator
    (note_redirect first_listed 10 10 "10.0.0.1" "ev1" 302 "http://a.test" (Some "/login") demo_correlator).

Definition demo_between : list session_op :=
  [SBegin 20 20 "s2" "10.0.0.2" None None "http://a.test/login"].

Lemma redirect_chain_linked_witness :
  co_parent_event_id
    (begin_request first_listed 30 30 "s1" "10.0.0.1" None None "http://a.test/login#top"
       (default demo_hop (session_run first_listed first_listed demo_between demo_hop))).2 = Some "ev1"%string.
Proof.
  pose proof (redirect_chain_linked first_listed first_listed demo_correlator demo_hop
    (default demo_hop (session_run first_listed first_listed demo_between demo_hop)) demo_between
    10 10 "10.0.0.1" "ev1" 302 "http://a.test" "/login" 30 30 "s1" None None "http://a.test/login#top"
    eq_refl eq_refl eq_refl eq_refl eq_refl) as Hlink.
  destruct (begin_request first_listed 30 30 "s1" "10.0.0.1" None None "http://a.test/login#top" _) as [c3 corr].
  apply Hlink.
  - repeat constructor; [lia|]. vm_compute. discriminate.
  - vm_compute. discriminate.
  - vm_compute. reflexivity.
Defined.

Lemma session_continues_witness :
  co_session_id (begin_request first_listed 1000 1000 "s9" "10.0.0.1" None None "http://b.test/"
    (default demo_hop (session_run first_listed first_listed demo_between
       (begin_request first_listed 5 5 "s1" "10.0.0.1" None None "http://a.test/" demo_hop).1))).2 = "s1"%string.
Proof.
  apply (session_continues first_listed first_listed demo_hop
    (begin_request first_listed 5 5 "s1" "10.0.0.1" None None "http://a.test/" demo_hop).1
    (default demo_hop (session_run first_listed first_listed demo_between
       (begin_request first_listed 5 5 "s1" "10.0.0.1" None None "http://a.test/" demo_hop).1)) demo_between
    5 5 "s1" "10.0.0.1" None None "http://a.test/"
    {| co_session_id := "s1"; co_parent_event_id := None |} 1000 1000 "s9" "http://b.test/").
  - vm_compute. reflexivity.
  - vm_compute. reflexivity.
  - repeat constructor; [lia|]. vm_compute. discriminate.
  - vm_compute. discriminate.
  - vm_compute. discriminate.
Defined.
