(* ===== verification/SemanticCache.v ===== *)
(** * The LLM cache (src/proxy/src/semantic_cache.rs)

    Keys of POST bodies, embeddings in single precision, the in-memory and Qdrant
    indexes of similar requests, and the store decision of their responses.

    serde_json is a class (its [Value] is the type below); HTTP exchanges with the
    embedding service and Qdrant are functions of the request, and the requests
    sent are returned. *)

From Stdlib Require Import Ascii String NArith ZArith Lia.
From Stdlib Require Import Floats.SpecFloat.
From stdpp Require Import base option gmap sets strings pretty numbers list.
From S2P Require Import Prelude Float64 CacheEntry CacheDigest Utf8.

(** ** JSON *)

(** [serde_json::Value]; the members of an object are in key order. *)
Inductive json :=
| JNull
| JBool (b : bool)
| JNumber (text : string)
| JString (s : string)
| JArray (l : list json)
| JObject (members : list (string * json)).

Class SerdeJson := {
  json_from_slice : string -> option json;
  json_to_vec : json -> string;
  number_as_f64 : string -> option f64;
}.

(** What is printed reads back. *)
Class SerdeJsonLaws (J : SerdeJson) := {
  json_roundtrip v : json_from_slice (json_to_vec v) = Some v;
}.

Definition member (members : list (string * json)) (name : string) : option json :=
  snd <$> List.find (fun '(k, _) => String.eqb k name) members.

(** [Value::get]. *)
Definition json_get (name : string) (v : json) : option json :=
  match v with JObject members => member members name | _ => None end.

Definition as_array (v : json) : option (list json) := match v with JArray l => Some l | _ => None end.
Definition as_str (v : json) : option string := match v with JString s => Some s | _ => None end.

(** ** Configuration *)

Inductive VectorBackendKind := VectorLocal | VectorQdrant.
Inductive EmbedProviderKind := EmbedLocal | EmbedHttp.

Record SemanticCacheConfig := {
  sm_enabled : bool;
  sm_path_prefixes : list string;
  sm_ttl : N;
  sm_similarity_threshold : f32;
  sm_embed_dims : N;
  sm_max_index_entries : N;
  sm_vector_backend : VectorBackendKind;
  sm_vector_url : option string;
  sm_vector_collection : string;
  sm_vector_api_key : option string;
  sm_embed_provider : EmbedProviderKind;
  sm_embed_url : option string;
}.

Definition default_prefixes : list string :=
  ["/v1/chat/completions"; "/v1/completions"; "/chat/completions"].

Definition env_opt (env : Env) (name : string) : option string :=
  s ← env name; let t := trim s in if str_is_empty t then None else Some t.

Definition path_prefixes_from_env (env : Env) : list string :=
  match env "SEMANTIC_CACHE_PATH_PREFIXES" with
  | None => default_prefixes
  | Some s =>
      let ps := List.filter (fun p => negb (str_is_empty p)) (trim <$> split_on "," s) in
      let ps := (fun p => if starts_with p "/" then p else "/" +:+ p) <$> ps in
      if decide (ps = []) then default_prefixes else ps
  end.

Definition SemanticCacheConfig_from_env (env : Env) : SemanticCacheConfig := {|
  sm_enabled := env_flag_default_off env "SEMANTIC_CACHE_ENABLED";
  sm_path_prefixes := path_prefixes_from_env env;
  sm_ttl := from_secs (N.max (env_parse parse_u64 env "SEMANTIC_CACHE_TTL_SECONDS" 3600%N) 1);
  sm_similarity_threshold :=
    f_clamp (f32_of_Z 0) (f32_of_Z 1) (env_parse parse_f32 env "SEMANTIC_CACHE_SIMILARITY" (f32_of_Z 1));
  sm_embed_dims := N.max 8 (N.min 512 (env_parse parse_usize env "SEMANTIC_CACHE_EMBED_DIMS" 64%N));
  sm_max_index_entries := N.max (env_parse parse_usize env "SEMANTIC_CACHE_MAX_INDEX" 10000%N) 1;
  sm_vector_backend :=
    if String.eqb (to_ascii_lowercase (default "local" (env "SEMANTIC_VECTOR_BACKEND"))) "qdrant"
    then VectorQdrant else VectorLocal;
  sm_vector_url := env_opt env "SEMANTIC_VECTOR_URL";
  sm_vector_collection := default "bsdm_semantic" (env_opt env "SEMANTIC_VECTOR_COLLECTION");
  sm_vector_api_key := env_opt env "SEMANTIC_VECTOR_API_KEY";
  sm_embed_provider :=
    if String.eqb (to_ascii_lowercase (default "local" (env "SEMANTIC_EMBED_PROVIDER"))) "http"
    then EmbedHttp else EmbedLocal;
  sm_embed_url := env_opt env "SEMANTIC_EMBED_URL";
|}.

(** The text from the first [/] on. *)
Fixpoint from_slash (s : string) : option string :=
  match s with
  | EmptyString => None
  | String c s' => if Ascii.eqb c "/" then Some s else from_slash s'
  end.

Definition url_path (url : string) : string :=
  let before_query p := default p (head (split_on "?" p)) in
  match (match strip_prefix "http://" url with Some r => Some r | None => strip_prefix "https://" url end) with
  | Some rest => before_query (default "/" (from_slash rest))
  | None => before_query url
  end.

Definition path_matches (url : string) (prefixes : list string) : bool :=
  let path := url_path url in
  existsb (fun p => String.eqb path p || starts_with path (p +:+ "/")) prefixes.

Definition applies (cfg : SemanticCacheConfig) (method url : string) : bool :=
  sm_enabled cfg && eq_ignore_ascii_case method "POST" && path_matches url (sm_path_prefixes cfg).

Definition near_hit_enabled (cfg : SemanticCacheConfig) : bool :=
  SFltb (sm_similarity_threshold cfg) (f32_of_Z 1).

(** Why an embedding or an index operation failed (messages in the code). *)
Inductive SemanticError :=
| EmbedUrlMissing
| EmbedTransport (e : string)
| EmbedStatus (status : N)
| EmbedJson
| EmbedMissing
| EmbedDims (got want : N)
| QdrantTransport (e : string)
| QdrantStatus (status : N) (body : string)
| QdrantEnsure (status : N) (body : string)
| QdrantJson.

(** ** Bodies *)

Section bodies.
Context `{!SerdeJson, !Sha256, !UnicodeTables}.

Definition normalize_llm_body (body : string) : string :=
  match json_from_slice body with
  | Some (JObject obj) =>
      let model := (fun m => ("model"%string, m)) <$> member obj "model" in
      match member obj "messages", member obj "prompt" with
      | Some messages, _ => json_to_vec (JObject (("messages"%string, messages) :: option_list model))
      | None, Some prompt => json_to_vec (JObject (option_list model ++ [("prompt"%string, prompt)]))
      | None, None => body
      end
  | _ => body
  end.

Definition content_cache_key (method url normalized_body : string) : string :=
  hex_encode (sha256 (method +:+ ":" +:+ url +:+ ":" +:+ normalized_body)).

Definition json_text (v : json) : string :=
  match v with JString s => s | other => json_to_vec other end.

Definition extract_embed_text (body : string) : string :=
  match json_from_slice body with
  | None => from_utf8_lossy body
  | Some value =>
      let model := option_list (json_get "model" value ≫= as_str) in
      let parts :=
        model ++
        match json_get "messages" value ≫= as_array with
        | Some messages => omap (fun msg => json_text <$> json_get "content" msg) messages
        | None => option_list (json_text <$> json_get "prompt" value)
        end in
      if decide (parts = []) then from_utf8_lossy body
      else join (String "010" EmptyString) parts
  end.

(** ** Embeddings *)

Definition digest_byte (digest : string) (i : nat) : N := from_option char_code 0%N (String.get i digest).

Definition token_slot (dims : N) (token : string) : nat * f32 :=
  let digest := sha256 (to_ascii_lowercase token) in
  let d i := digest_byte digest i in
  let idx := ((d 0%nat + 256 * d 1%nat + 65536 * d 2%nat + 16777216 * d 3%nat) mod dims)%N in
  (N.to_nat idx, if N.even (d 4%nat) then f32_of_Z 1 else f32_of_Z (-1)).

Definition hash_embed (text : string) (dims : N) : list f32 :=
  let dims := N.max dims 1 in
  let vec :=
    foldl (fun vec token => let '(idx, sign) := token_slot dims token in alter (fun x => fadd32 x sign) idx vec)
      (replicate (N.to_nat dims) (f32_of_Z 0)) (alphanumeric_tokens text) in
  let norm := fsqrt32 (foldl fadd32 (f32_of_Z 0) ((fun x => fmul32 x x) <$> vec)) in
  if SFltb (f32_of_Z 0) norm then (fun x => fdiv32 x norm) <$> vec else vec.

(** [reply] is what the embedding service answers: the status and the body. *)
Definition embed (cfg : SemanticCacheConfig) (reply : string -> string -> result (N * string) string)
    (text : string) : result (list f32) SemanticError :=
  match sm_embed_provider cfg with
  | EmbedLocal => Ok (hash_embed text (sm_embed_dims cfg))
  | EmbedHttp =>
      match sm_embed_url cfg with
      | None => Err EmbedUrlMissing
      | Some url =>
          match reply url text with
          | Err e => Err (EmbedTransport e)
          | Ok (status, body) =>
              if negb ((200 <=? status) && (status <=? 299))%N then
                Err (EmbedStatus status)
              else
                match json_from_slice body with
                | None => Err EmbedJson
                | Some v =>
                    match json_get "embedding" v ≫= as_array with
                    | None => Err EmbedMissing
                    | Some arr =>
                        let number v :=
                          match v with JNumber t => default (S754_zero false) (number_as_f64 t)
                          | _ => S754_zero false end in
                        let out := (fun v => f32_of_f64 (number v)) <$> arr in
                        if (N.of_nat (length out) =? sm_embed_dims cfg)%N then Ok out
                        else Err (EmbedDims (N.of_nat (length out)) (sm_embed_dims cfg))
                    end
                end
          end
      end
  end.

End bodies.

Definition cosine_similarity (a b : list f32) : f32 :=
  if negb (Nat.eqb (length a) (length b)) || Nat.eqb (length a) 0 then f32_of_Z 0
  else
    f_clamp (f32_of_Z (-1)) (f32_of_Z 1)
      (foldl (fun dot '(x, y) => fadd32 dot (fmul32 x y)) (f32_of_Z 0) (zip a b)).

(** ** The in-memory index *)

Record IndexEntry := {
  ie_embedding : list f32;
  ie_cache_key : string;
}.

Record LocalIndex := {
  lx_inner : list IndexEntry;
  lx_max_entries : N;
}.

Definition LocalIndex_new (max_entries : N) : LocalIndex :=
  {| lx_inner := []; lx_max_entries := N.max max_entries 1 |}.

(** Entries are dropped from the front while there are too many. *)
Definition local_insert (embedding : list f32) (cache_key : string) (ix : LocalIndex) : LocalIndex :=
  let kept := List.filter (fun e => negb (String.eqb (ie_cache_key e) cache_key)) (lx_inner ix) in
  let all := kept ++ [{| ie_embedding := embedding; ie_cache_key := cache_key |}] in
  {| lx_inner := drop (length all - N.to_nat (lx_max_entries ix)) all;
     lx_max_entries := lx_max_entries ix |}.

Definition similar_step (embedding : list f32) (threshold : f32) (best : option (f32 * string))
    (entry : IndexEntry) : option (f32 * string) :=
  let score := cosine_similarity embedding (ie_embedding entry) in
  if SFleb threshold score &&
     match best with Some (s, _) => SFltb s score | None => true end
  then Some (score, ie_cache_key entry) else best.

Definition local_find_similar (embedding : list f32) (threshold : f32) (ix : LocalIndex) : option string :=
  snd <$> foldl (similar_step embedding threshold) None (lx_inner ix).

(** ** The Qdrant index *)

Record QdrantIndex := {
  qd_base_url : string;
  qd_collection : string;
  qd_api_key : option string;
  qd_dims : N;
  qd_ensured : bool;
}.

(** Requests to Qdrant, all of them with the API key when there is one. *)
Inductive QdrantRequest :=
| QPutCollection (url : string) (dims : N)
| QGetCollection (url : string)
| QPutPoint (url : string) (id : N) (vector : list f32) (cache_key : string)
| QSearch (url : string) (vector : list f32) (threshold : f32).

Definition QdrantIndex_new (cfg : SemanticCacheConfig) : option QdrantIndex :=
  url ← sm_vector_url cfg;
  Some {| qd_base_url := trim_end_matches "/" url; qd_collection := sm_vector_collection cfg;
          qd_api_key := sm_vector_api_key cfg; qd_dims := sm_embed_dims cfg; qd_ensured := false |}.

Definition ok_status (status : N) : bool := (200 <=? status)%N && (status <=? 299)%N.

Section qdrant.
Context `{!SerdeJson, !Sha256}.
Variable send : QdrantRequest -> result (N * string) string.

Definition point_id_u64 (cache_key : string) : N :=
  foldr (fun i acc => digest_byte (sha256 cache_key) i + 256 * acc)%N 0%N (seq 0 8).

(** The requests sent, and the error if the collection is not there. *)
Definition ensure_collection (q : QdrantIndex) : QdrantIndex * list QdrantRequest * result unit SemanticError :=
  if qd_ensured q then (q, [], Ok tt)
  else
    let url := qd_base_url q +:+ "/collections/" +:+ qd_collection q in
    let put := QPutCollection url (qd_dims q) in
    let done_ := {| qd_base_url := qd_base_url q; qd_collection := qd_collection q;
                    qd_api_key := qd_api_key q; qd_dims := qd_dims q; qd_ensured := true |} in
    match send put with
    | Err e => (q, [put], Err (QdrantTransport e))
    | Ok (status, body) =>
        if ok_status status || (status =? 409)%N then (done_, [put], Ok tt)
        else
          let get := QGetCollection url in
          match send get with
          | Err e => (q, [put; get], Err (QdrantTransport e))
          | Ok (st, _) =>
              if ok_status st then (done_, [put; get], Ok tt)
              else (q, [put; get], Err (QdrantEnsure status body))
          end
    end.

Definition upsert (embedding : list f32) (cache_key : string) (q : QdrantIndex)
    : QdrantIndex * list QdrantRequest * result unit SemanticError :=
  match ensure_collection q with
  | (q, sent, Err e) => (q, sent, Err e)
  | (q, sent, Ok _) =>
      let req := QPutPoint (qd_base_url q +:+ "/collections/" +:+ qd_collection q +:+ "/points?wait=true")
                   (point_id_u64 cache_key) embedding cache_key in
      (q, sent ++ [req],
       match send req with
       | Err e => Err (QdrantTransport e)
       | Ok (status, body) =>
           if ok_status status then Ok tt
           else Err (QdrantStatus status body)
       end)
  end.

Definition search_result (body : string) : result (option string) SemanticError :=
  match json_from_slice body with
  | None => Err QdrantJson
  | Some v =>
      Ok (hits ← json_get "result" v ≫= as_array; hit ← head hits;
          (json_get "payload" hit ≫= json_get "cache_key") ≫= as_str)
  end.

Definition search (embedding : list f32) (threshold : f32) (q : QdrantIndex)
    : QdrantIndex * list QdrantRequest * result (option string) SemanticError :=
  match ensure_collection q with
  | (q, sent, Err e) => (q, sent, Err e)
  | (q, sent, Ok _) =>
      let req := QSearch (qd_base_url q +:+ "/collections/" +:+ qd_collection q +:+ "/points/search")
                   embedding threshold in
      (q, sent ++ [req],
       match send req with
       | Err e => Err (QdrantTransport e)
       | Ok (status, body) =>
           if ok_status status then search_result body
           else Err (QdrantStatus status body)
       end)
  end.

(** ** The index in use *)

Inductive SemanticIndex :=
| IdxLocal (ix : LocalIndex)
| IdxQdrant (q : QdrantIndex).

Definition SemanticIndex_from_config (cfg : SemanticCacheConfig) : SemanticIndex :=
  match sm_vector_backend cfg, QdrantIndex_new cfg with
  | VectorQdrant, Some q => IdxQdrant q
  | _, _ => IdxLocal (LocalIndex_new (sm_max_index_entries cfg))
  end.

Definition semantic_insert (embedding : list f32) (cache_key : string) (ix : SemanticIndex)
    : SemanticIndex * list QdrantRequest * result unit SemanticError :=
  match ix with
  | IdxLocal l => (IdxLocal (local_insert embedding cache_key l), [], Ok tt)
  | IdxQdrant q => let '(q, sent, r) := upsert embedding cache_key q in (IdxQdrant q, sent, r)
  end.

Definition find_similar (embedding : list f32) (threshold : f32) (ix : SemanticIndex)
    : SemanticIndex * list QdrantRequest * result (option string) SemanticError :=
  match ix with
  | IdxLocal l => (ix, [], Ok (local_find_similar embedding threshold l))
  | IdxQdrant q => let '(q, sent, r) := search embedding threshold q in (IdxQdrant q, sent, r)
  end.

End qdrant.

Definition evaluate_llm_store (status body_size max_body_size ttl : N) : CacheStoreDecision :=
  if negb (status =? 200)%N || (body_size =? 0)%N || (max_body_size <? body_size)%N then bypass
  else {| sd_store := true; sd_ttl := ttl; sd_is_negative := false; sd_must_revalidate := false;
          sd_etag := None; sd_last_modified := None |}.

(** ** Lemmas: embeddings *)

Lemma clamp_not_below lo hi x : SFltb hi lo = false -> SFltb (f_clamp lo hi x) lo = false.
Proof.
  intros H. unfold f_clamp. destruct (SFltb x lo) eqn:Hx; [apply flt_irrefl|].
  by destruct (SFltb hi x).
Qed.

Lemma clamp_not_above lo hi x : SFltb hi lo = false -> SFltb hi (f_clamp lo hi x) = false.
Proof.
  intros H. unfold f_clamp. destruct (SFltb x lo) eqn:Hx; [done|].
  destruct (SFltb hi x) eqn:Hh; [apply flt_irrefl|done].
Qed.

Section embed_lemmas.
Context `{!SerdeJson, !Sha256, !UnicodeTables}.

Lemma tokens_length dims ts (l : list f32) :
  length (foldl (fun vec token => let '(idx, sign) := token_slot dims token in
                   alter (fun x => fadd32 x sign) idx vec) l ts) = length l.
Proof.
  revert l. induction ts as [|t ts IH]; intros l; cbn [foldl]; [done|]. rewrite IH.
  destruct (token_slot dims t) as [i x]. apply length_alter.
Qed.

Lemma hash_embed_length text dims : N.of_nat (length (hash_embed text dims)) = N.max dims 1.
Proof.
  unfold hash_embed. cbv zeta. destruct (SFltb _ _); rewrite ?length_fmap, tokens_length, length_replicate; lia.
Qed.


(** ** Lemmas: keys of bodies *)

Context {JL : SerdeJsonLaws _}.

Lemma json_to_vec_inj v w : json_to_vec v = json_to_vec w -> v = w.
Proof. intros Heq. pose proof (json_roundtrip v) as Hv. rewrite Heq, json_roundtrip in Hv. by injection Hv. Qed.

(** What a chat request is cached by.  Two chat bodies (JSON objects with
    [messages]) are the same request for the cache exactly when their model and
    their messages are equal; temperature, tools, streaming, the number of answers
    and every other member play no part. *)
Theorem llm_bodies_equal_iff b1 b2 o1 o2 m1 m2 :
  json_from_slice b1 = Some (JObject o1) -> json_from_slice b2 = Some (JObject o2) ->
  member o1 "messages" = Some m1 -> member o2 "messages" = Some m2 ->
  normalize_llm_body b1 = normalize_llm_body b2 <->
  m1 = m2 /\ member o1 "model" = member o2 "model".
Proof.
  intros Hb1 Hb2 Hm1 Hm2. unfold normalize_llm_body. rewrite Hb1, Hb2, Hm1, Hm2. split.
  - intros [= -> Hmod]%json_to_vec_inj. split; [done|].
    destruct (member o1 "model"), (member o2 "model"); simpl in Hmod; congruence.
  - by intros [-> ->].
Qed.

End embed_lemmas.

(** ** Lemmas: the index *)

Section index_lemmas.
Context (embedding : list f32) (threshold : f32).

Abbreviation score := (fun e => cosine_similarity embedding (ie_embedding e)).

(** The best entry so far: it meets the threshold and none seen is better. *)
Definition best_of (seen : list IndexEntry) (best : option (f32 * string)) : Prop :=
  match best with
  | Some (s, k) =>
      (exists e, e ∈ seen /\ ie_cache_key e = k /\ score e = s /\ SFleb threshold s = true) /\
      (forall e, e ∈ seen -> SFltb s (score e) = false)
  | None => forall e, e ∈ seen -> SFleb threshold (score e) = false
  end.

Lemma fle_flt_false x y z : SFleb x y = true -> SFleb x z = false -> SFltb y z = false.
Proof.
  intros Hxy Hxz. destruct (SFltb y z) eqn:Hyz; [|done]. exfalso.
  unfold SFleb, SFltb in *. destruct (SFcompare x y) as [[]|] eqn:Hc; try done.
  - destruct x as [s|s| |s m e], y as [s'|s'| |s' m' e'], z as [s''|s''| |s'' m'' e''];
      try done; destruct s, s', s''; try done; simpl in *;
      change (Pos.compare_cont Eq) with Pos.compare in *;
      repeat match goal with
      | H : context [Z.compare ?a ?b] |- _ => destruct (Z.compare_spec a b); simpl in *; try done
      | H : context [Pos.compare ?a ?b] |- _ => destruct (Pos.compare_spec a b); simpl in *; try done
      end; subst; lia.
  - assert (Hlt : flt x z = true).
    { apply (flt_trans x y z); unfold flt, SFltb; [by rewrite Hc|done]. }
    unfold flt, SFltb in Hlt. by destruct (SFcompare x z) as [[]|].
Qed.

Lemma elem_of_snoc {A} (x y : A) l : x ∈ l ++ [y] <-> x ∈ l \/ x = y.
Proof. by rewrite elem_of_app, list_elem_of_singleton. Qed.

Lemma similar_step_best seen best e :
  best_of seen best -> best_of (seen ++ [e]) (similar_step embedding threshold best e).
Proof.
  intros Hb. unfold similar_step. destruct (SFleb threshold (score e)) eqn:Ht; cbn [andb].
  - destruct best as [[s k]|]; cbn [best_of] in Hb.
    + destruct Hb as [(e0 & Hin & Hk & Hs & Hts) Hall]. destruct (SFltb s (score e)) eqn:Hlt; cbn [best_of].
      * split; [exists e; rewrite elem_of_snoc; auto|].
        intros e' [Hin'| ->]%elem_of_snoc; [|apply flt_irrefl].
        destruct (SFltb (score e) (score e')) eqn:Hc; [|done].
        rewrite <- (Hall e' Hin'). symmetry. by apply (flt_trans s (score e)).
      * split; [exists e0; rewrite elem_of_snoc; auto|].
        intros e' [Hin'| ->]%elem_of_snoc; auto.
    + split; [exists e; rewrite elem_of_snoc; auto|].
      intros e' [Hin'| ->]%elem_of_snoc; [|apply flt_irrefl].
      apply (fle_flt_false threshold); auto.
  - destruct best as [[s k]|]; cbn [best_of] in *.
    + destruct Hb as [(e0 & Hin & Hk & Hs & Hts) Hall]. split; [exists e0; rewrite elem_of_snoc; auto|].
      intros e' [Hin'| ->]%elem_of_snoc; [auto|]. by apply (fle_flt_false threshold).
    + intros e' [Hin'| ->]%elem_of_snoc; auto.
Qed.

Lemma similar_fold_best es : best_of es (foldl (similar_step embedding threshold) None es).
Proof.
  induction es as [|e es IH] using rev_ind; [by intros e ?%not_elem_of_nil|].
  rewrite foldl_app. by apply similar_step_best.
Qed.

End index_lemmas.

(** The near hit is the nearest.  The in-memory index answers the key of an
    entry whose similarity meets the threshold and that no entry exceeds, and
    answers nothing exactly when no entry meets the threshold. *)
Theorem near_hit_nearest emb threshold ix :
  match local_find_similar emb threshold ix with
  | Some key =>
      exists e, e ∈ lx_inner ix /\ ie_cache_key e = key /\
        SFleb threshold (cosine_similarity emb (ie_embedding e)) = true /\
        forall e', e' ∈ lx_inner ix ->
          SFltb (cosine_similarity emb (ie_embedding e)) (cosine_similarity emb (ie_embedding e')) = false
  | None =>
      forall e, e ∈ lx_inner ix -> SFleb threshold (cosine_similarity emb (ie_embedding e)) = false
  end.
Proof.
  unfold local_find_similar. pose proof (similar_fold_best emb threshold (lx_inner ix)) as Hb.
  destruct (foldl _ _ _) as [[s k]|]; cbn [fmap option_fmap option_map snd]; [|done].
  destruct Hb as [(e & Hin & Hk & <- & Ht) Hall]. exists e. split_and!; auto.
Qed.

(** Keys are distinct and the size is bounded, after any number of insertions. *)
Definition index_ok (ix : LocalIndex) : Prop :=
  NoDup (ie_cache_key <$> lx_inner ix) /\ (N.of_nat (length (lx_inner ix)) <= lx_max_entries ix)%N /\
  (1 <= lx_max_entries ix)%N.

Lemma drop_NoDup {A} n (l : list A) : NoDup l -> NoDup (drop n l).
Proof.
  intros Hl. rewrite <- (take_drop n l) in Hl. apply NoDup_app in Hl. tauto.
Qed.

Lemma filter_keys_NoDup (P : IndexEntry -> bool) l :
  NoDup (ie_cache_key <$> l) -> NoDup (ie_cache_key <$> List.filter P l).
Proof.
  induction l as [|e l IH]; cbn [fmap list_fmap List.filter]; [done|]. intros [Hn Hd]%NoDup_cons.
  destruct (P e); [|by apply IH]. apply NoDup_cons. split; [|by apply IH].
  intros (e' & He & Hin)%list_elem_of_fmap. apply Hn, list_elem_of_fmap. exists e'. split; [done|].
  by apply list_elem_of_In, filter_In in Hin as [Hin%list_elem_of_In _].
Qed.

Lemma local_insert_ok emb key ix : index_ok ix -> index_ok (local_insert emb key ix).
Proof.
  intros (Hd & Hs & Hm). unfold index_ok, local_insert. cbn [lx_inner lx_max_entries].
  split_and!; [|rewrite length_drop; lia|done].
  rewrite fmap_drop. apply drop_NoDup. rewrite fmap_app. apply NoDup_app. split_and!.
  - by apply filter_keys_NoDup.
  - intros k (e & -> & Hin)%list_elem_of_fmap Hk%list_elem_of_singleton.
    apply list_elem_of_In, filter_In in Hin as [_ Hne%negb_true_iff%String.eqb_neq]. done.
  - apply NoDup_singleton.
Qed.

(** The entry just inserted is in the index. *)
Lemma local_insert_last emb key ix :
  index_ok ix ->
  {| ie_embedding := emb; ie_cache_key := key |} ∈ lx_inner (local_insert emb key ix).
Proof.
  intros (_ & _ & Hm). unfold local_insert. cbn [lx_inner].
  rewrite drop_app_le by (rewrite length_app; simpl; lia). apply elem_of_app. right. by left.
Qed.

(** ** Witnesses

    A JSON text that reads back: the code of the tree of a value, in binary. *)

Fixpoint json_tree (v : json) : gen_tree string :=
  match v with
  | JNull => GenNode 0 []
  | JBool b => GenNode (if b then 2 else 1) []
  | JNumber t => GenNode 3 [GenLeaf t]
  | JString s => GenLeaf s
  | JArray l => GenNode 4 (json_tree <$> l)
  | JObject ms => GenNode 5 ((fun '(k, w) => GenNode 6 [GenLeaf k; json_tree w]) <$> ms)
  end.

Fixpoint tree_json (t : gen_tree string) : json :=
  match t with
  | GenLeaf s => JString s
  | GenNode 1 _ => JBool false
  | GenNode 2 _ => JBool true
  | GenNode 3 [GenLeaf s] => JNumber s
  | GenNode 4 ts => JArray (tree_json <$> ts)
  | GenNode 5 ts =>
      JObject ((fun c => match c with GenNode _ [GenLeaf k; w] => (k, tree_json w) | _ => (EmptyString, JNull) end)
               <$> ts)
  | _ => JNull
  end.

Lemma json_tree_json : forall v, tree_json (json_tree v) = v.
Proof.
  fix IH 1. intros [|[]|t|s|l|ms]; cbn [json_tree tree_json]; try done.
  - f_equal. induction l as [|w l IHl]; [done|]. cbn [fmap list_fmap]. by rewrite IH, IHl.
  - f_equal. induction ms as [|[k w] ms IHl]; [done|]. cbn [fmap list_fmap]. by rewrite IH, IHl.
Qed.

#[local] Instance binary_json : SerdeJson := {|
  json_from_slice s := tree_json <$> of_text s;
  json_to_vec v := to_text (json_tree v);
  number_as_f64 t := parse_f64 t;
|}.

#[local] Instance binary_json_laws : SerdeJsonLaws binary_json.
Proof.
  split. intros v. unfold json_from_slice, json_to_vec, binary_json.
  rewrite of_to_text. simpl. by rewrite json_tree_json.
Qed.

#[local] Instance plain_sha : Sha256 := {| sha256 s := s; hex_encode s := s |}.
#[local] Instance ascii_only : UnicodeTables := fun _ => false.

Definition chat (extra : list (string * json)) : list (string * json) :=
  [("messages", JArray [JObject [("content", JString "hello")]]); ("model", JString "m")]%string ++ extra.

(** A streamed and a plain request for the same chat share their cache entry. *)
Lemma llm_bodies_equal_iff_witness :
  normalize_llm_body (json_to_vec (JObject (chat [("stream"%string, JBool true)]))) =
  normalize_llm_body (json_to_vec (JObject (chat [("temperature"%string, JNumber "0.9")]))).
Proof.
  apply (llm_bodies_equal_iff _ _ (chat [("stream"%string, JBool true)])
    (chat [("temperature"%string, JNumber "0.9")])
    (JArray [JObject [("content"%string, JString "hello")]])
    (JArray [JObject [("content"%string, JString "hello")]])).
  - apply json_roundtrip.
  - apply json_roundtrip.
  - reflexivity.
  - reflexivity.
  - split; reflexivity.
Defined.


(** Two entries above the threshold: the nearer is answered. *)
Example near_hit_sample :
  let e (a b : Z) := [f32_of_Z a; f32_of_Z b] in
  let ix := local_insert (e 0%Z 1%Z) "k2" (local_insert (e 1%Z 0%Z) "k1" (LocalIndex_new 10)) in
  local_find_similar (e 0%Z 1%Z) (f32_of_Z 0) ix = Some "k2"%string /\
  local_find_similar (e 0%Z (-1)%Z) (f32_of_Z 1) ix = None.
Proof. split; vm_compute; reflexivity. Qed.
