(* ===== verification/ClickHouse.v ===== *)
(** * ClickHouse (src/alert-worker/src/clickhouse.rs, src/ml-worker/src/clickhouse.rs)

    The HTTP client the two workers share the shape of, and how they read the values of
    a row.  Requests are data and replies are arguments.  serde_json is the class of
    SemanticCache; how it reads a number as [u64] and writes an [f64], the text of its
    errors and of a status, and how [format!] prints an [f64] are classes. *)

From Stdlib Require Import Ascii String NArith ZArith Lia.
From Stdlib Require Import Floats.SpecFloat.
From stdpp Require Import base option gmap strings pretty numbers list.
From S2P Require Import Prelude Float64 SemanticCache.

Local Open Scope rust_scope.

Class JsonNumbers := {
  number_as_u64 : string -> option N;
  json_of_f64 : f64 -> json;
}.

(** [{}] and [{:.n}] of an [f64]. *)
Class FloatText := {
  f64_display : f64 -> string;
  f64_fixed : nat -> f64 -> string;
}.

(** [{}] of serde_json's error on a text, and of a [StatusCode]. *)
Class DisplayText := {
  json_parse_error : string -> string;
  status_display : N -> string;
}.

(** Lines with a line break between them. *)
Fixpoint join_lines (ls : list string) : string :=
  match ls with
  | [] => EmptyString
  | [l] => l
  | l :: ls => l +:+ nl +:+ join_lines ls
  end.

(** ** Requests *)

Record ChClient := {
  ch_url : string;
  ch_user : option string;
  ch_password : option string;
}.

Definition ChClient_new (url : string) (user password : option string) : ChClient :=
  {| ch_url := trim_end_matches "/" url; ch_user := user; ch_password := password |}.

Record ChRequest := {
  cr_method : string;
  cr_url : string;
  cr_query : option string;
  cr_content_type : option string;
  cr_auth : option (string * string);
  cr_body : string;
}.

(** Credentials are sent only when both are set. *)
Definition ch_auth (c : ChClient) : option (string * string) :=
  match ch_user c, ch_password c with Some u, Some p => Some (u, p) | _, _ => None end.

Definition ping_request (c : ChClient) : ChRequest :=
  {| cr_method := "GET"; cr_url := ch_url c +:+ "/ping"; cr_query := None; cr_content_type := None;
     cr_auth := ch_auth c; cr_body := EmptyString |}.

Definition query_request (c : ChClient) (sql : string) : ChRequest :=
  {| cr_method := "POST"; cr_url := ch_url c; cr_query := Some sql; cr_content_type := None; cr_auth := ch_auth c;
     cr_body := EmptyString |}.

(** A reply: status and body, or the error of the exchange. *)
Abbreviation ChReply := (result (N * string) string).

Definition is_success (status : N) : bool := (200 <=? status)%N && (status <? 300)%N.

Section client.
Context {SJ : SerdeJson} {DT : DisplayText}.

Fixpoint parse_rows (lines : list string) : result (list json) string :=
  match lines with
  | [] => Ok []
  | line :: lines =>
      let line := trim line in
      if str_is_empty line then parse_rows lines
      else
        match json_from_slice line with
        | None => Err (json_parse_error line)
        | Some row => let? rows := parse_rows lines in Ok (row :: rows)
        end
  end.

Definition parse_json_each_row (body : string) : result (list json) string := parse_rows (str_lines body).

Definition query_rows (reply : ChReply) : result (list json) string :=
  let? r := reply in
  if is_success r.1 then parse_json_each_row r.2
  else Err ("ClickHouse query failed (HTTP " +:+ status_display r.1 +:+ "): " +:+ r.2).

Definition ping_outcome (reply : ChReply) : result unit string :=
  let? r := reply in
  if is_success r.1 then Ok tt else Err ("ClickHouse ping failed: HTTP " +:+ status_display r.1).

Definition rows_body (rows : list json) : string := unlines (json_to_vec <$> rows).

(** No request for no rows. *)
Definition insert_request (c : ChClient) (table : string) (rows : list json) : option ChRequest :=
  match rows with
  | [] => None
  | _ =>
      Some {| cr_method := "POST"; cr_url := ch_url c; cr_query := Some ("INSERT INTO " +:+ table +:+ " FORMAT JSONEachRow");
              cr_content_type := Some "application/x-ndjson"%string; cr_auth := ch_auth c; cr_body := rows_body rows |}
  end.

Definition insert_outcome (reply : ChReply) : result unit string :=
  let? r := reply in
  if is_success r.1 then Ok tt else Err ("ClickHouse insert failed (HTTP " +:+ status_display r.1 +:+ "): " +:+ r.2).

(** ** The values of a row *)

Context {JN : JsonNumbers}.

Definition row_string (v : option json) : result string string :=
  match v ≫= as_str with Some s => Ok s | None => Err "expected string"%string end.

(** [f as u64]: towards zero, saturating, and 0 for NaN. *)
Definition f64_as_u64 (x : f64) : N :=
  match x with
  | S754_zero _ | S754_nan => 0
  | S754_infinity s => if s then 0 else u64_max
  | S754_finite s m e => if s then 0 else N.min (Z.to_N (Z.shiftl (Zpos m) e)) u64_max
  end.

(** [{}] of a [ParseIntError] and of a [ParseFloatError]: at each character the digit is
    looked at before the overflow. *)
Fixpoint int_error_go (acc : N) (s : string) : string :=
  match s with
  | EmptyString => "invalid digit found in string"
  | String c s =>
      if is_ascii_digit c then
        let acc := (acc * 10 + (char_code c - 48))%N in
        if (u64_max <? acc)%N then "number too large to fit in target type" else int_error_go acc s
      else "invalid digit found in string"
  end.

Definition parse_u64_error (s : string) : string :=
  match s with
  | EmptyString => "cannot parse integer from empty string"
  | String c rest => int_error_go 0 (if Ascii.eqb c "+" then rest else s)
  end.

Definition parse_f64_error (s : string) : string :=
  if str_is_empty s then "cannot parse float from empty string" else "invalid float literal".

Definition row_u64 (v : option json) : result N string :=
  match v with
  | Some (JNumber t) =>
      match number_as_u64 t with
      | Some n => Ok n
      | None => match number_as_f64 t with Some f => Ok (f64_as_u64 f) | None => Err "bad number"%string end
      end
  | Some (JString s) => match parse_u64 s with Some n => Ok n | None => Err (parse_u64_error s) end
  | _ => Err "expected u64"%string
  end.

Definition row_f64 (v : option json) : result f64 string :=
  match v with
  | Some (JNumber t) => match number_as_f64 t with Some f => Ok f | None => Err "bad float"%string end
  | Some (JString s) => match parse_f64 s with Some f => Ok f | None => Err (parse_f64_error s) end
  | _ => Err "expected f64"%string
  end.

End client.

(** ** Rows that are written can be read *)

(** Compact JSON has no line break, and begins and ends with neither blanks nor nothing. *)
Class CompactJson (SJ : SerdeJson) := {
  compact_line v : one_line (json_to_vec v) = true;
  compact_trim v : trim (json_to_vec v) = json_to_vec v;
  compact_some v : json_to_vec v <> EmptyString;
}.

(** Rows inserted as JSONEachRow are read back as they were. *)
Theorem rows_roundtrip {SJ : SerdeJson} {DT : DisplayText} {SL : SerdeJsonLaws SJ} {CJ : CompactJson SJ} (rows : list json) :
  parse_json_each_row (rows_body rows) = Ok rows.
Proof.
  unfold parse_json_each_row, rows_body. rewrite str_lines_unlines.
  - induction rows as [|row rows IH]; [done|]. cbn [fmap list_fmap parse_rows]. rewrite compact_trim, json_roundtrip.
    assert (str_is_empty (json_to_vec row) = false) as ->.
    { pose proof (compact_some row). by destruct (json_to_vec row). }
    cbn [fmap] in IH. by rewrite IH.
  - apply forallb_forall. intros l Hl%list_elem_of_In. apply list_elem_of_fmap in Hl as (row & -> & _). apply compact_line.
Qed.
