(* ===== verification/Auth.v ===== *)
(** * Proxy authentication (src/proxy/src/auth.rs)

    Basic, LDAP and NTLM/Kerberos authentication: credentials, the cache of
    verified passwords, the cache of a connection, the multi-round handshakes, the
    directory queries and the local users.

    The directory (the [ldap3] crate and its servers), the SSPI engine of
    [auth_sspi.rs], JSON, SHA-256 and base64 are classes.  One request reads the
    clock once in the model; locks make each update of a table one step. *)

From Stdlib Require Import Ascii String NArith Lia.
From stdpp Require Import base option gmap sets strings pretty numbers list.
From S2P Require Import Prelude Http Utf8 CacheDigest AclApi.

Local Open Scope rust_scope.

Inductive AuthBackend := Basic | Ldap | Ntlm | Kerberos.

#[export] Instance AuthBackend_eq_dec : EqDecision AuthBackend.
Proof. solve_decision. Defined.

Record UserInfo := {
  ui_username : string;
  ui_display_name : option string;
  ui_email : option string;
  ui_groups : list string;
  ui_authenticated_at : N;
}.

Record CachedUser := {
  cu_user_info : UserInfo;
  cu_password_hash : string;
  cu_cached_at : N;
  cu_ttl : N;
}.

Record BasicUser := {
  bu_username : string;
  bu_password_hash : string;
  bu_role : string;
}.

Record LdapConfig := {
  ld_servers : list string;
  ld_base_dn : string;
  ld_bind_dn : option string;
  ld_bind_password : option string;
  ld_user_filter : string;
  ld_group_filter : option string;
  ld_timeout : N;
  ld_use_tls : bool;
  ld_group_enrichment : bool;
}.

Record NtlmConfig := {
  nt_domain : string;
  nt_workstation : option string;
  nt_helper_command : option string;
  nt_candidate_users_file : option string;
}.

Record KerberosConfig := {
  kb_keytab_path : string;
  kb_service_principal : string;
  kb_kdc_url : option string;
  kb_hostname : string;
  kb_max_time_skew : N;
}.

Record AuthConfig := {
  au_enabled : bool;
  au_backend : AuthBackend;
  au_realm : string;
  au_cache_ttl : N;
  au_conn_cache_ttl : N;
  au_basic_users_file : option string;
  au_ldap : option LdapConfig;
  au_ntlm : option NtlmConfig;
  au_kerberos : option KerberosConfig;
}.

Inductive ProxyAuthOutcome :=
| Anonymous
| Authenticated (user : UserInfo)
| Challenge (authenticate_header : string).

(** ** The classes *)

Record SearchEntry := {
  en_dn : string;
  en_attrs : gmap string (list string);
}.

(** The calls of [ldap3] on a server.  A bind and a search return the result code
    of the server (0 is success); an error is a failure to talk to it. *)
Class LdapDirectory := {
  ldap_connect : string -> result unit string;
  ldap_simple_bind : string -> string -> string -> result N string;
  ldap_search : string -> string -> string -> result (N * list SearchEntry) string;
}.

Inductive SspiStepResult :=
| SspiComplete (username : string) (display_name : option string)
| SspiChallenge (token_b64 : string)
| SspiFailed (reason : string).

(** The engine of [auth_sspi.rs] over the [sspi] crate. *)
Class SspiEngine := {
  SspiSession : Type;
  sspi_scheme : string;
  sspi_begin_session : result SspiSession string;
  sspi_process_token : SspiSession -> option string -> SspiSession * result SspiStepResult string;
}.

Class UsersJson := basic_users_of_json : string -> option (list BasicUser).

(** [str::replace]: occurrences from the left, not overlapping. *)
Fixpoint str_replace_go (pat by_ : string) (skip : nat) (s : string) : string :=
  match s with
  | EmptyString => EmptyString
  | String c s' =>
      match skip with
      | S k => str_replace_go pat by_ k s'
      | 0 =>
          if starts_with s pat then by_ +:+ str_replace_go pat by_ (String.length pat - 1) s'
          else String c (str_replace_go pat by_ 0 s')
      end
  end.

Definition str_replace (pat by_ s : string) : string := str_replace_go pat by_ 0 s.

(** [str::split_once] with a text. *)
Fixpoint split_once_str (pat s : string) : option (string * string) :=
  match strip_prefix pat s with
  | Some rest => Some (EmptyString, rest)
  | None =>
      match s with
      | EmptyString => None
      | String c s' => '(a, b) ← split_once_str pat s'; Some (String c a, b)
      end
  end.

(** ** The cache of a connection *)

Record ConnAuthEntry := {
  ce_user : UserInfo;
  ce_cred_fingerprint : option string;
  ce_authenticated_at : N;
}.

Record ConnAuthCache := {
  cn_ttl : N;
  cn_inner : option ConnAuthEntry;
}.

Definition ConnAuthCache_new (ttl : N) : ConnAuthCache := {| cn_ttl := ttl; cn_inner := None |}.

Definition conn_get (now : N) (cred_fingerprint : option string) (c : ConnAuthCache) : option UserInfo :=
  if (cn_ttl c =? 0)%N then None
  else
    entry ← cn_inner c;
    if (cn_ttl c <? now - ce_authenticated_at entry)%N then None
    else
      match cred_fingerprint, ce_cred_fingerprint entry with
      | None, _ => Some (ce_user entry)
      | Some fp, Some cached => if String.eqb fp cached then Some (ce_user entry) else None
      | Some _, None => Some (ce_user entry)
      end.

Definition conn_store (now : N) (user : UserInfo) (cred_fingerprint : option string) (c : ConnAuthCache)
    : ConnAuthCache :=
  if (cn_ttl c =? 0)%N then c
  else
    {| cn_ttl := cn_ttl c;
       cn_inner := Some {| ce_user := user; ce_cred_fingerprint := cred_fingerprint;
                           ce_authenticated_at := now |} |}.

Definition conn_invalidate (c : ConnAuthCache) : ConnAuthCache := {| cn_ttl := cn_ttl c; cn_inner := None |}.

(** ** The directory *)

Definition ldap_account_name_from_principal (principal : string) : string :=
  match split_once (ascii_of_N 92) principal with
  | Some (_, user) => user
  | None => match split_once "@" principal with Some (user, _) => user | None => principal end
  end.

Record LdapUserAttrs := {
  la_display_name : option string;
  la_email : option string;
  la_groups : list string;
}.

Definition ldap_attrs_from_entry (entry : SearchEntry) : LdapUserAttrs := {|
  la_display_name := en_attrs entry !! "cn"%string ≫= head;
  la_email := en_attrs entry !! "mail"%string ≫= head;
  la_groups := default [] (en_attrs entry !! "memberOf"%string);
|}.

Section ldap.
Context `{!LdapDirectory}.

(** The result code of the bind is not read. *)
Definition ldap_service_bind (server : string) (config : LdapConfig) : result unit string :=
  match ld_bind_dn config, ld_bind_password config with
  | Some bind_dn, Some bind_password =>
      match ldap_simple_bind server bind_dn bind_password with
      | Ok _ => Ok tt
      | Err e => Err ("LDAP bind failed: " +:+ e)
      end
  | _, _ => Ok tt
  end.

Definition ldap_search_first (server : string) (config : LdapConfig) (flt : string)
    : result (option SearchEntry) string :=
  match ldap_search server (ld_base_dn config) flt with
  | Err e => Err ("LDAP search failed: " +:+ e)
  | Ok (rc, entries) =>
      if (rc =? 0)%N then Ok (head entries) else Err ("LDAP search error: " +:+ pretty rc)
  end.

Definition ldap_search_user_entry (server : string) (config : LdapConfig) (principal : string)
    (filter_username : option string) : result SearchEntry string :=
  let account := default (ldap_account_name_from_principal principal) filter_username in
  let flt := str_replace "{username}" account (ld_user_filter config) in
  let? entry := ldap_search_first server config flt in
  let? entry :=
    match entry with
    | None =>
        if str_contains principal "@" then
          ldap_search_first server config ("(userPrincipalName=" +:+ principal +:+ ")")
        else Ok None
    | Some e => Ok (Some e)
    end in
  match entry with
  | Some e => Ok e
  | None => Err ("User not found in LDAP for principal '" +:+ principal +:+ "'")
  end.

(** The user is bound with the password; again the result code is not read. *)
Definition try_ldap_server (now : N) (server : string) (config : LdapConfig) (username password : string)
    : result UserInfo string :=
  let? _ := ldap_connect server in
  let? _ := ldap_service_bind server config in
  let? entry := ldap_search_user_entry server config username (Some username) in
  match ldap_simple_bind server (en_dn entry) password with
  | Err _ => Err "Invalid credentials"%string
  | Ok _ =>
      let attrs := ldap_attrs_from_entry entry in
      Ok {| ui_username := username; ui_display_name := la_display_name attrs; ui_email := la_email attrs;
            ui_groups := la_groups attrs; ui_authenticated_at := now |}
  end.

Fixpoint authenticate_ldap_servers (now : N) (servers : list string) (config : LdapConfig)
    (username password : string) : result UserInfo string :=
  match servers with
  | [] => Err "All LDAP servers failed"%string
  | server :: rest =>
      match try_ldap_server now server config username password with
      | Ok user => Ok user
      | Err _ => authenticate_ldap_servers now rest config username password
      end
  end.

Definition authenticate_ldap (now : N) (config : AuthConfig) (username password : string)
    : result UserInfo string :=
  match au_ldap config with
  | None => Err "LDAP not configured"%string
  | Some ldap_config =>
      authenticate_ldap_servers now (ld_servers ldap_config) ldap_config username password
  end.

Definition try_ldap_lookup_server (server : string) (config : LdapConfig) (principal : string)
    : result LdapUserAttrs string :=
  let? _ := ldap_connect server in
  let? _ := ldap_service_bind server config in
  let? entry := ldap_search_user_entry server config principal None in
  Ok (ldap_attrs_from_entry entry).

Fixpoint lookup_ldap_user_attrs (servers : list string) (config : LdapConfig) (principal : string)
    : result LdapUserAttrs string :=
  match servers with
  | [] => Err "All LDAP servers failed for group enrichment"%string
  | server :: rest =>
      match try_ldap_lookup_server server config principal with
      | Ok attrs => Ok attrs
      | Err _ => lookup_ldap_user_attrs rest config principal
      end
  end.

Definition should_enrich_groups_from_ldap (config : AuthConfig) : bool :=
  au_enabled config && from_option ld_group_enrichment false (au_ldap config) &&
  match au_backend config with Ntlm | Kerberos => true | _ => false end.

Definition apply_ldap_group_enrichment (config : AuthConfig) (user : UserInfo) : UserInfo :=
  if should_enrich_groups_from_ldap config then
    match au_ldap config with
    | None => user
    | Some ldap_config =>
        match lookup_ldap_user_attrs (ld_servers ldap_config) ldap_config (ui_username user) with
        | Err _ => user
        | Ok attrs =>
            {| ui_username := ui_username user;
               ui_display_name :=
                 match ui_display_name user with Some d => Some d | None => la_display_name attrs end;
               ui_email := match ui_email user with Some e => Some e | None => la_email attrs end;
               ui_groups := la_groups attrs;
               ui_authenticated_at := ui_authenticated_at user |}
        end
    end
  else user.

End ldap.

(** ** The manager *)

Record AuthManager `{SspiEngine} := {
  am_config : AuthConfig;
  am_user_cache : gmap string CachedUser;
  am_basic_users : gmap string BasicUser;
  am_salt : string;
  (** whether the engine could be built for the backend *)
  am_sspi : bool;
  am_handshakes : gmap string (SspiSession * N);
  am_principals : gmap string UserInfo;
}.

Section manager.
Context `{!Sha256, !Base64, !HeaderText, !LdapDirectory, !UsersJson} `{!SspiEngine}.

Definition with_user_cache (m : gmap string CachedUser) (a : AuthManager) : AuthManager :=
  {| am_config := am_config a; am_user_cache := m; am_basic_users := am_basic_users a; am_salt := am_salt a;
     am_sspi := am_sspi a; am_handshakes := am_handshakes a; am_principals := am_principals a |}.

Definition with_basic_users (m : gmap string BasicUser) (a : AuthManager) : AuthManager :=
  {| am_config := am_config a; am_user_cache := am_user_cache a; am_basic_users := m; am_salt := am_salt a;
     am_sspi := am_sspi a; am_handshakes := am_handshakes a; am_principals := am_principals a |}.

Definition with_handshakes (m : gmap string (SspiSession * N)) (a : AuthManager) : AuthManager :=
  {| am_config := am_config a; am_user_cache := am_user_cache a; am_basic_users := am_basic_users a;
     am_salt := am_salt a; am_sspi := am_sspi a; am_handshakes := m; am_principals := am_principals a |}.

Definition with_principals (m : gmap string UserInfo) (a : AuthManager) : AuthManager :=
  {| am_config := am_config a; am_user_cache := am_user_cache a; am_basic_users := am_basic_users a;
     am_salt := am_salt a; am_sspi := am_sspi a; am_handshakes := am_handshakes a; am_principals := m |}.

(** [read_file] is the content of the users file, when it can be read; [sspi] whether
    the engine of the backend could be built. *)
Definition AuthManager_new (config : AuthConfig) (read_file : string -> option string) (salt : string)
    (sspi : bool) : AuthManager := {|
  am_config := config;
  am_user_cache := ∅;
  am_basic_users :=
    match (path ← au_basic_users_file config; read_file path) ≫= basic_users_of_json with
    | Some users => foldl (fun m u => <[bu_username u := u]> m) ∅ users
    | None => ∅
    end;
  am_salt := salt;
  am_sspi := sspi;
  am_handshakes := ∅;
  am_principals := ∅;
|}.

Definition hash_password (password salt : string) : string := hex_encode (sha256 (salt +:+ password)).
Definition hash_password_stable (password : string) : string := hex_encode (sha256 password).

Definition cached_is_expired (now : N) (u : CachedUser) : bool := (cu_ttl u <? now - cu_cached_at u)%N.

Definition proxy_auth_fingerprint (headers : HeaderMap) (salt : string) : option string :=
  (fun v => hash_password v salt) <$> hm_get_str headers "proxy-authorization".

Definition auth_header_name (reverse_proxy : bool) : string :=
  if reverse_proxy then "authorization" else "proxy-authorization".

Definition extract_credentials (headers : HeaderMap) (reverse_proxy : bool) (a : AuthManager)
    : option (string * string) :=
  auth_str ← hm_get_str headers (auth_header_name reverse_proxy);
  match au_backend (am_config a) with
  | Basic | Ldap =>
      encoded ← strip_prefix "Basic " auth_str;
      decoded ← base64_decode encoded;
      credentials ← from_utf8 decoded;
      split_once ":" credentials
  | Ntlm | Kerberos => None
  end.

Definition extract_proxy_token (headers : HeaderMap) (reverse_proxy : bool) : option (string * string) :=
  auth_str ← hm_get_str headers (auth_header_name reverse_proxy);
  '(scheme, encoded) ← split_once " " auth_str;
  decoded ← base64_decode (trim encoded);
  Some (scheme, decoded).

Definition quote_char : string := String (ascii_of_N 34) EmptyString.

Definition initial_auth_header (reverse_proxy : bool) (a : AuthManager) : string :=
  let auth_type := if reverse_proxy then "WWW-Authenticate" else "Proxy-Authenticate" in
  match au_backend (am_config a) with
  | Basic | Ldap => auth_type +:+ ": Basic realm=" +:+ quote_char +:+ au_realm (am_config a) +:+ quote_char
  | Ntlm => auth_type +:+ ": NTLM"
  | Kerberos => auth_type +:+ ": Negotiate"
  end.

(** Status, header name and value of the challenge. *)
Definition create_auth_challenge_response (authenticate_header : string) (reverse_proxy : bool)
    : N * string * string :=
  let value :=
    match split_once_str ": " authenticate_header with
    | Some (_, v) => v
    | None => authenticate_header
    end in
  if reverse_proxy then (401%N, "www-authenticate"%string, value)
  else (407%N, "proxy-authenticate"%string, value).

Definition authenticate_basic (now : N) (username password : string) (a : AuthManager)
    : result UserInfo string :=
  let user groups := {| ui_username := username; ui_display_name := Some username; ui_email := None;
                        ui_groups := groups; ui_authenticated_at := now |} in
  if bool_decide (am_basic_users a = ∅) && negb (present (au_basic_users_file (am_config a))) then Ok (user [])
  else
    match am_basic_users a !! username with
    | Some u =>
        if String.eqb (bu_password_hash u) (hash_password_stable password) then Ok (user [bu_role u])
        else Err "Invalid username or password"%string
    | None => Err "Invalid username or password"%string
    end.

(** The check of the backend, without the cache. *)
Definition backend_authenticate (now : N) (username password : string) (a : AuthManager)
    : result UserInfo string :=
  match au_backend (am_config a) with
  | Basic => authenticate_basic now username password a
  | Ldap => authenticate_ldap now (am_config a) username password
  | Ntlm => Err "NTLM uses multi-round handshake; call handle_proxy_auth()"%string
  | Kerberos => Err "Kerberos uses multi-round handshake; call handle_proxy_auth()"%string
  end.

Definition cache_user (now : N) (username password : string) (user_info : UserInfo) (a : AuthManager)
    : AuthManager :=
  with_user_cache
    (<[username := {| cu_user_info := user_info; cu_password_hash := hash_password password (am_salt a);
                      cu_cached_at := now; cu_ttl := au_cache_ttl (am_config a) |}]> (am_user_cache a)) a.

Definition authenticate (now : N) (username password : string) (a : AuthManager)
    : AuthManager * result UserInfo string :=
  let cached :=
    match am_user_cache a !! username with
    | Some c =>
        if negb (cached_is_expired now c) &&
           constant_time_eq (cu_password_hash c) (hash_password password (am_salt a))
        then Some (cu_user_info c) else None
    | None => None
    end in
  match cached with
  | Some user => (a, Ok user)
  | None =>
      match backend_authenticate now username password a with
      | Err e => (a, Err e)
      | Ok user => (cache_user now username password user a, Ok user)
      end
  end.

(** The token of the request, when it is of the engine's scheme. *)
Definition sspi_token (headers : HeaderMap) (reverse_proxy : bool) : option string :=
  '(scheme, bytes) ← extract_proxy_token headers reverse_proxy;
  if eq_ignore_ascii_case scheme sspi_scheme then Some bytes else None.

(** A request without token may be admitted from the connection or from the address. *)
Definition sspi_remembered (now : N) (client_key : string) (conn : option ConnAuthCache) (a : AuthManager)
    : option UserInfo :=
  match conn ≫= conn_get now None with
  | Some user => Some user
  | None =>
      user ← am_principals a !! client_key;
      if (now - ui_authenticated_at user <? au_cache_ttl (am_config a))%N then Some user else None
  end.

(** One round of the handshake of a client. *)
Definition sspi_step (now : N) (client_key : string) (token : option string) (reverse_proxy : bool)
    (conn : option ConnAuthCache) (session : SspiSession) (a : AuthManager)
    : AuthManager * option ConnAuthCache * ProxyAuthOutcome :=
  let initial := Challenge (initial_auth_header reverse_proxy a) in
  let '(session', step) := sspi_process_token session token in
  let created := from_option snd now (am_handshakes a !! client_key) in
  let a := with_handshakes (<[client_key := (session', created)]> (am_handshakes a)) a in
  let ended := with_handshakes (delete client_key (am_handshakes a)) a in
  match step with
  | Ok (SspiComplete username display_name) =>
      let user := apply_ldap_group_enrichment (am_config a)
        {| ui_username := username; ui_display_name := display_name; ui_email := None; ui_groups := [];
           ui_authenticated_at := now |} in
      (with_principals (<[client_key := user]> (am_principals a)) ended,
       conn_store now user None <$> conn, Authenticated user)
  | Ok (SspiChallenge token_b64) => (a, conn, Challenge (sspi_scheme +:+ " " +:+ token_b64))
  | Ok (SspiFailed _) => (ended, conn_invalidate <$> conn, initial)
  | Err _ => (ended, conn, initial)
  end.

Definition handle_sspi_auth (now : N) (client_key : string) (headers : HeaderMap)
    (conn : option ConnAuthCache) (reverse_proxy : bool) (a : AuthManager)
    : AuthManager * option ConnAuthCache * ProxyAuthOutcome :=
  let token := sspi_token headers reverse_proxy in
  match (match token with None => sspi_remembered now client_key conn a | Some _ => None end) with
  | Some user => (a, conn, Authenticated user)
  | None =>
      match am_handshakes a !! client_key with
      | Some (session, _) => sspi_step now client_key token reverse_proxy conn session a
      | None =>
          match sspi_begin_session with
          | Err _ => (a, conn, Challenge (initial_auth_header reverse_proxy a))
          | Ok session => sspi_step now client_key token reverse_proxy conn session a
          end
      end
  end.

Definition handle_proxy_auth (now : N) (client_key : string) (headers : HeaderMap)
    (conn : option ConnAuthCache) (reverse_proxy : bool) (a : AuthManager)
    : AuthManager * option ConnAuthCache * ProxyAuthOutcome :=
  if am_sspi a then handle_sspi_auth now client_key headers conn reverse_proxy a
  else
    let cred_fp := proxy_auth_fingerprint headers (am_salt a) in
    match conn ≫= conn_get now cred_fp with
    | Some user => (a, conn, Authenticated user)
    | None =>
        match extract_credentials headers reverse_proxy a with
        | None => (a, conn, Challenge (initial_auth_header reverse_proxy a))
        | Some (username, password) =>
            match authenticate now username password a with
            | (a, Ok user) => (a, conn_store now user cred_fp <$> conn, Authenticated user)
            | (a, Err _) =>
                (a, conn_invalidate <$> conn, Challenge (initial_auth_header reverse_proxy a))
            end
        end
    end.

(** [ProxyService::authenticate_proxy]: a challenge also clears the connection. *)
Definition authenticate_proxy (now : N) (client_ip : string) (headers : HeaderMap)
    (conn : option ConnAuthCache) (auth : option AuthManager)
    : option AuthManager * option ConnAuthCache * result (option UserInfo) (N * string * string) :=
  match auth with
  | None => (None, conn, Ok None)
  | Some a =>
      if au_enabled (am_config a) then
        let '(a, conn, outcome) := handle_proxy_auth now client_ip headers conn false a in
        match outcome with
        | Anonymous => (Some a, conn, Ok None)
        | Authenticated user => (Some a, conn, Ok (Some user))
        | Challenge h => (Some a, conn_invalidate <$> conn, Err (create_auth_challenge_response h false))
        end
      else (Some a, conn, Ok None)
  end.

(** ** Local users

    [io] is the outcome of writing the users file, when one is configured. *)

Definition sync_basic_users_to_disk (io : result unit string) (a : AuthManager) : result unit string :=
  match au_basic_users_file (am_config a) with Some _ => io | None => Ok tt end.

Definition put_basic_user (io : result unit string) (username : string) (password : option string)
    (role : string) (a : AuthManager) : AuthManager * result unit string :=
  let password_hash :=
    match password with
    | Some p => Some (hash_password_stable p)
    | None => bu_password_hash <$> am_basic_users a !! username
    end in
  match password_hash with
  | None => (a, Err "Password is required for new users"%string)
  | Some h =>
      let a := with_basic_users
        (<[username := {| bu_username := username; bu_password_hash := h; bu_role := role |}]>
           (am_basic_users a)) a in
      (a, sync_basic_users_to_disk io a)
  end.

Definition remove_basic_user (io : result unit string) (username : string) (a : AuthManager)
    : AuthManager * result bool string :=
  match am_basic_users a !! username with
  | None => (a, Ok false)
  | Some _ =>
      let a := with_basic_users (delete username (am_basic_users a)) a in
      (a, let? _ := sync_basic_users_to_disk io a in Ok true)
  end.

Definition cleanup_cache (now : N) (a : AuthManager) : AuthManager :=
  let ttl := au_cache_ttl (am_config a) in
  let a := with_user_cache (filter (fun '(_, u) => cached_is_expired now u = false) (am_user_cache a)) a in
  let a := with_handshakes (filter (fun '(_, (_, created)) => now - created < ttl)%N (am_handshakes a)) a in
  with_principals (filter (fun '(_, u) => now - ui_authenticated_at u < ttl)%N (am_principals a)) a.

End manager.

(** ** The system: one manager, its connections, and the verifications so far

    [sy_log] is a ghost: the credentials a request presented and the backend would
    accept at that time. *)

Record verification := {
  vf_time : N;
  vf_username : string;
  vf_password : string;
  vf_user : UserInfo;
}.

Section system.
Context `{!Sha256, !Base64, !HeaderText, !LdapDirectory, !UsersJson} `{!SspiEngine}.

Record auth_system := {
  sy_auth : AuthManager;
  sy_conns : gmap nat ConnAuthCache;
  sy_log : list verification;
}.

Inductive auth_op :=
| AoConnect (conn : nat)
| AoRequest (conn : nat) (client_key : string) (headers : HeaderMap) (reverse_proxy : bool)
| AoPut (io : result unit string) (username : string) (password : option string) (role : string)
| AoRemove (io : result unit string) (username : string)
| AoCleanup.

Definition request_verification (now : N) (headers : HeaderMap) (reverse_proxy : bool) (a : AuthManager)
    : list verification :=
  match extract_credentials headers reverse_proxy a with
  | Some (u, p) =>
      match backend_authenticate now u p a with
      | Ok user => [{| vf_time := now; vf_username := u; vf_password := p; vf_user := user |}]
      | Err _ => []
      end
  | None => []
  end.

Definition auth_apply (now : N) (op : auth_op) (s : auth_system) : auth_system :=
  let a := sy_auth s in
  match op with
  | AoConnect conn =>
      {| sy_auth := a; sy_log := sy_log s;
         sy_conns := <[conn := ConnAuthCache_new (au_conn_cache_ttl (am_config a))]> (sy_conns s) |}
  | AoRequest conn key headers rp =>
      let '(a', conn', _) := handle_proxy_auth now key headers (sy_conns s !! conn) rp a in
      {| sy_auth := a'; sy_log := request_verification now headers rp a ++ sy_log s;
         sy_conns := match conn' with Some c => <[conn := c]> (sy_conns s) | None => sy_conns s end |}
  | AoPut io u p role =>
      {| sy_auth := (put_basic_user io u p role a).1; sy_log := sy_log s; sy_conns := sy_conns s |}
  | AoRemove io u => {| sy_auth := (remove_basic_user io u a).1; sy_log := sy_log s; sy_conns := sy_conns s |}
  | AoCleanup => {| sy_auth := cleanup_cache now a; sy_log := sy_log s; sy_conns := sy_conns s |}
  end.

Inductive auth_reachable (a0 : AuthManager) : N -> auth_system -> Prop :=
| auth_start t : auth_reachable a0 t {| sy_auth := a0; sy_conns := ∅; sy_log := [] |}
| auth_step t now op s :
    auth_reachable a0 t s -> (t <= now)%N -> auth_reachable a0 now (auth_apply now op s).

(** ** Lemmas *)

(** What a manager keeps of a configuration; what an operation keeps of a manager. *)
Definition same_setup (a a' : AuthManager) : Prop :=
  am_config a' = am_config a /\ am_salt a' = am_salt a /\ am_sspi a' = am_sspi a.

Definition cache_ok (log : list verification) (a : AuthManager) : Prop :=
  forall u c, am_user_cache a !! u = Some c ->
  cu_ttl c = au_cache_ttl (am_config a) /\
  exists v, v ∈ log /\ vf_time v = cu_cached_at c /\ vf_username v = u /\
    hash_password (vf_password v) (am_salt a) = cu_password_hash c /\ vf_user v = cu_user_info c.

Definition conn_ok (log : list verification) (a : AuthManager) (c : ConnAuthCache) : Prop :=
  cn_ttl c = au_conn_cache_ttl (am_config a) /\
  forall e, cn_inner c = Some e -> exists v, v ∈ log /\ vf_user v = ce_user e /\
    (vf_time v <= ce_authenticated_at e <= vf_time v + au_cache_ttl (am_config a))%N.

Lemma cache_ok_mono log log' a : (forall v, v ∈ log -> v ∈ log') -> cache_ok log a -> cache_ok log' a.
Proof. intros Hl Hc u c Hu. destruct (Hc u c Hu) as (Ht & v & Hv & ?). split; [done|]. exists v. eauto. Qed.

Lemma conn_ok_mono log log' a c : (forall v, v ∈ log -> v ∈ log') -> conn_ok log a c -> conn_ok log' a c.
Proof. intros Hl [Ht Hc]. split; [done|]. intros e He. destruct (Hc e He) as (v & Hv & ?). exists v. eauto. Qed.

Lemma same_setup_trans a b c : same_setup a b -> same_setup b c -> same_setup a c.
Proof. unfold same_setup. intuition congruence. Qed.

(** A password is accepted because the backend accepts it now, or because one with
    the same salted hash was verified within the time to live. *)
Lemma authenticate_sound log now u p a a' user :
  cache_ok log a -> Forall (fun v => vf_time v <= now)%N log ->
  authenticate now u p a = (a', Ok user) ->
  exists v, v ∈ (match backend_authenticate now u p a with
                 | Ok usr => [{| vf_time := now; vf_username := u; vf_password := p; vf_user := usr |}]
                 | Err _ => [] end) ++ log /\
    vf_user v = user /\ vf_username v = u /\
    hash_password (vf_password v) (am_salt a) = hash_password p (am_salt a) /\
    (vf_time v <= now <= vf_time v + au_cache_ttl (am_config a))%N.
Proof.
  intros Hc Hl. unfold authenticate. destruct (am_user_cache a !! u) as [c|] eqn:Hu.
  - destruct (negb (cached_is_expired now c) && _) eqn:Hok.
    + apply andb_true_iff in Hok as [Hex%negb_true_iff Hp%constant_time_eq_true]. intros [= <- <-].
      destruct (Hc u c Hu) as (Ht & v & Hv & Hvt & Hvu & Hvp & Hvi). exists v.
      pose proof (proj1 (Forall_forall _ _) Hl v Hv) as Hle. unfold cached_is_expired in Hex.
      apply N.ltb_ge in Hex. rewrite elem_of_app. split_and!; [by right|congruence..|done|lia].
    + destruct (backend_authenticate now u p a) as [usr|]; [|done]. intros [= _ <-].
      eexists. split; [by left|]. cbn. split_and!; [done..|lia].
  - destruct (backend_authenticate now u p a) as [usr|]; [|done]. intros [= _ <-].
    eexists. split; [by left|]. cbn. split_and!; [done..|lia].
Qed.

Lemma authenticate_keeps log now u p a a' r :
  cache_ok log a -> authenticate now u p a = (a', r) ->
  same_setup a a' /\
  cache_ok ((match backend_authenticate now u p a with
             | Ok usr => [{| vf_time := now; vf_username := u; vf_password := p; vf_user := usr |}]
             | Err _ => [] end) ++ log) a'.
Proof.
  intros Hc. unfold authenticate.
  assert (Hstay : forall l, cache_ok (l ++ log) a).
  { intros l. eapply cache_ok_mono; [|done]. intros v Hv. apply elem_of_app. by right. }
  destruct (match am_user_cache a !! u with Some _ => _ | None => _ end) as [user|].
  - intros [= <- _]. done.
  - destruct (backend_authenticate now u p a) as [usr|]; intros [= <- _]; [|done]. split; [done|].
    intros u' c'. cbn [cache_user with_user_cache am_user_cache].
    destruct (decide (u' = u)) as [->|Hne].
    + rewrite lookup_insert_eq. intros [= <-]. cbn. split; [done|]. eexists. split; [by left|]. done.
    + rewrite lookup_insert_ne by done. apply Hstay.
Qed.

Lemma conn_store_ok log a now user fp c v :
  conn_ok log a c -> v ∈ log -> vf_user v = user ->
  (vf_time v <= now <= vf_time v + au_cache_ttl (am_config a))%N -> conn_ok log a (conn_store now user fp c).
Proof.
  intros [Ht Hc] Hv Hu Hn. unfold conn_store. destruct (cn_ttl c =? 0)%N; [done|]. split; [done|].
  intros e [= <-]. exists v. eauto.
Qed.

Lemma conn_invalidate_ok log a c : conn_ok log a c -> conn_ok log a (conn_invalidate c).
Proof. intros [Ht _]. by split. Qed.

(** A remembered connection was verified within the two times to live. *)
Lemma conn_get_ok log a now fp c user :
  conn_ok log a c -> Forall (fun v => vf_time v <= now)%N log ->
  conn_get now fp c = Some user ->
  exists v, v ∈ log /\ vf_user v = user /\
    (vf_time v <= now <= vf_time v + au_cache_ttl (am_config a) + au_conn_cache_ttl (am_config a))%N.
Proof.
  intros [Ht Hc] Hl. unfold conn_get. destruct (cn_ttl c =? 0)%N; [done|].
  destruct (cn_inner c) as [e|] eqn:He; [|done]. cbn [mbind option_bind].
  destruct (cn_ttl c <? _)%N eqn:Hex; [done|]. apply N.ltb_ge in Hex. intros Hu.
  destruct (Hc e eq_refl) as (v & Hv & Hvu & Hvt). exists v. split; [done|].
  pose proof (proj1 (Forall_forall _ _) Hl v Hv) as Hle. split; [|cbn in Hle; lia].
  rewrite Hvu. destruct fp as [fp|], (ce_cred_fingerprint e) as [fp'|]; try (by injection Hu).
  destruct (String.eqb fp fp'); [by injection Hu|done].
Qed.

Definition conn_bound (a : AuthManager) (now : N) (v : verification) : Prop :=
  (vf_time v <= now <= vf_time v + au_cache_ttl (am_config a) + au_conn_cache_ttl (am_config a))%N.

(** One request of a backend without handshakes. *)
Lemma request_ok log now key headers conn rp a a' conn' outcome :
  am_sspi a = false -> cache_ok log a -> (forall c, conn = Some c -> conn_ok log a c) ->
  Forall (fun v => vf_time v <= now)%N log ->
  handle_proxy_auth now key headers conn rp a = (a', conn', outcome) ->
  let log' := request_verification now headers rp a ++ log in
  same_setup a a' /\ cache_ok log' a' /\ (forall c, conn' = Some c -> conn_ok log' a c) /\
  (forall user, outcome = Authenticated user -> exists v, v ∈ log' /\ vf_user v = user /\ conn_bound a now v).
Proof.
  intros Hs Hc Hconn Hl. unfold handle_proxy_auth. rewrite Hs. cbv zeta.
  assert (Hsub : forall l v, v ∈ log -> v ∈ l ++ log) by (intros; apply elem_of_app; by right).
  destruct (conn ≫= conn_get now (proxy_auth_fingerprint headers (am_salt a))) as [user|] eqn:Hg.
  - intros [= <- <- <-]. split_and!; [done|by eapply cache_ok_mono, Hc; auto| |].
    + intros c Hcc. eapply conn_ok_mono, Hconn; auto.
    + intros u [= <-]. destruct conn as [c|]; [|done]. cbn in Hg.
      destruct (conn_get_ok log a now _ c user (Hconn c eq_refl) Hl Hg) as (v & Hv & ?). exists v. auto.
  - unfold request_verification. destruct (extract_credentials headers rp a) as [[u p]|] eqn:He.
    + destruct (authenticate now u p a) as [a1 r] eqn:Ha.
      destruct (authenticate_keeps log now u p a a1 r Hc Ha) as [Hss Hc'].
      destruct r as [user|e]; intros [= <- <- <-]; (split_and!; [done|done| |]).
      * destruct (authenticate_sound log now u p a a1 user Hc Hl Ha) as (v & Hv & Hvu & _ & _ & Hvt).
        intros c Hcc. destruct conn as [c0|]; [|done]. injection Hcc as <-.
        eapply conn_store_ok; [by eapply conn_ok_mono, Hconn; auto|done..].
      * destruct (authenticate_sound log now u p a a1 user Hc Hl Ha) as (v & Hv & Hvu & _ & _ & Hvt).
        intros usr [= <-]. exists v. split_and!; [done..|]. unfold conn_bound. lia.
      * intros c Hcc. destruct conn as [c0|]; [|done]. injection Hcc as <-.
        apply conn_invalidate_ok. eapply conn_ok_mono, Hconn; auto.
      * done.
    + intros [= <- <- <-]. split_and!; [done|done| |done]. intros c Hcc. by apply Hconn.
Qed.

Record system_ok (a0 : AuthManager) (t : N) (s : auth_system) : Prop := {
  so_setup : same_setup a0 (sy_auth s);
  so_log : Forall (fun v => vf_time v <= t)%N (sy_log s);
  so_cache : cache_ok (sy_log s) (sy_auth s);
  so_conns : forall i c, sy_conns s !! i = Some c -> conn_ok (sy_log s) (sy_auth s) c;
}.

Lemma conn_ok_setup log a a' c : same_setup a a' -> conn_ok log a c -> conn_ok log a' c.
Proof. intros (Hc & _ & _). unfold conn_ok. by rewrite Hc. Qed.

Lemma request_verification_now now headers rp a :
  Forall (fun v => vf_time v <= now)%N (request_verification now headers rp a).
Proof. unfold request_verification. repeat case_match; repeat constructor; simpl; lia. Qed.

Lemma system_step_ok a0 t now op s :
  am_sspi a0 = false -> system_ok a0 t s -> (t <= now)%N -> system_ok a0 now (auth_apply now op s).
Proof.
  intros Hs [Hsetup Hlog Hcache Hconns] Ht.
  assert (Hl : Forall (fun v => vf_time v <= now)%N (sy_log s)).
  { eapply Forall_impl; [done|]. simpl. lia. }
  assert (Hsame : forall a', same_setup (sy_auth s) a' -> cache_ok (sy_log s) a' ->
    system_ok a0 now {| sy_auth := a'; sy_log := sy_log s; sy_conns := sy_conns s |}).
  { intros a' Hss Hc. split; cbn; [by eapply same_setup_trans|done..|].
    intros i c Hi. eapply conn_ok_setup; [done|]. by eapply Hconns. }
  destruct op as [conn|conn key headers rp|io u p role|io u|]; cbn [auth_apply].
  - split; cbn; [done..|]. intros i c. rewrite lookup_insert_Some. intros [[<- <-]|[_ Hi]]; [by split|].
    by eapply Hconns.
  - destruct (handle_proxy_auth now key headers (sy_conns s !! conn) rp (sy_auth s)) as [[a' conn'] oc] eqn:Hh.
    destruct (request_ok (sy_log s) now key headers (sy_conns s !! conn) rp (sy_auth s) a' conn' oc)
      as (Hss & Hc' & Hconn' & _); [destruct Hsetup as (_ & _ & ->); done|done|eauto|done|done|].
    split; cbn; [by eapply same_setup_trans| |done|].
    + apply Forall_app. split; [apply request_verification_now|done].
    + assert (Hold : forall i c, sy_conns s !! i = Some c -> conn_ok
        (request_verification now headers rp (sy_auth s) ++ sy_log s) a' c).
      { intros i c Hi. eapply conn_ok_setup, conn_ok_mono, Hconns; [done| |done].
        intros v Hv. apply elem_of_app. by right. }
      intros i c. destruct conn' as [c'|]; [|apply Hold].
      rewrite lookup_insert_Some. intros [[<- <-]|[_ Hi]]; [|by eapply Hold].
      eapply conn_ok_setup; [done|]. by apply Hconn'.
  - apply Hsame; unfold put_basic_user; repeat case_match; try done.
  - apply Hsame; unfold remove_basic_user; repeat case_match; try done.
  - apply Hsame; [done|]. intros u c. unfold cleanup_cache. cbn [with_user_cache with_handshakes with_principals
      am_user_cache am_config am_salt]. intros [Hu _]%map_lookup_filter_Some. by apply Hcache.
Qed.

Lemma system_reachable_ok a0 t s :
  am_sspi a0 = false -> am_user_cache a0 = ∅ -> auth_reachable a0 t s -> system_ok a0 t s.
Proof.
  intros Hs He Hr. induction Hr as [t|t now op s Hr IH Ht]; [|by eapply system_step_ok].
  split; cbn; [done|constructor| |done]. intros u c Hu. by rewrite He, lookup_empty in Hu.
Qed.

(** C8: Nobody is admitted on stale grounds.  With the Basic or LDAP backend,
    through any sequence of requests on any connections, edits of users and
    cleanups, a request is authenticated as a user only if the backend accepted
    credentials for that user no longer ago than the lifetimes of the password
    cache and of the connection cache together. *)
Theorem admission_bounded config read_file salt t s now conn key headers rp a' conn' user :
  auth_reachable (AuthManager_new config read_file salt false) t s -> (t <= now)%N ->
  handle_proxy_auth now key headers (sy_conns s !! conn) rp (sy_auth s) =
    (a', conn', Authenticated user) ->
  exists v, v ∈ sy_log (auth_apply now (AoRequest conn key headers rp) s) /\ vf_user v = user /\
    (vf_time v <= now <= vf_time v + au_cache_ttl config + au_conn_cache_ttl config)%N.
Proof.
  intros Hr Ht Hh. destruct (system_reachable_ok (AuthManager_new config read_file salt false) t s eq_refl
    eq_refl Hr) as [Hsetup Hlog Hcache Hconns].
  destruct (request_ok (sy_log s) now key headers (sy_conns s !! conn) rp (sy_auth s) a' conn'
    (Authenticated user)) as (_ & _ & _ & Hout); [destruct Hsetup as (_ & _ & ->); done|done|eauto| |done|].
  { eapply Forall_impl; [done|]. simpl. lia. }
  destruct (Hout user eq_refl) as (v & Hv & Hvu & Hb). exists v. cbn [auth_apply]. rewrite Hh.
  split_and!; [done|done|..]; unfold conn_bound in Hb; destruct Hsetup as (Hcfg & _); rewrite Hcfg in Hb;
    cbn in Hb; lia.
Qed.

End system.

(** ** Logins *)

Section logins.
Context `{!Sha256, !Base64, !HeaderText, !LdapDirectory, !UsersJson} `{!SspiEngine}.
Context {BL : Base64Laws _}.

Lemma strip_prefix_app p s : strip_prefix p (p +:+ s) = Some s.
Proof. induction p as [|c p IH]; [done|]. cbn [String.append strip_prefix]. by rewrite Ascii.eqb_refl. Qed.

(** The credentials a client encodes are the ones read. *)
Lemma extract_credentials_encoded headers rp a u p :
  hm_get_str headers (auth_header_name rp) = Some ("Basic " +:+ base64_encode (u +:+ ":" +:+ p)) ->
  au_backend (am_config a) = Basic \/ au_backend (am_config a) = Ldap ->
  free_of ":" u = true -> utf8_valid (u +:+ ":" +:+ p) = true ->
  extract_credentials headers rp a = Some (u, p).
Proof.
  intros Hh Hb Hu Hv. unfold extract_credentials. rewrite Hh. cbn [mbind option_bind].
  assert (Hd : (encoded ← strip_prefix "Basic " ("Basic " +:+ base64_encode (u +:+ ":" +:+ p));
    decoded ← base64_decode encoded; credentials ← from_utf8 decoded; split_once ":" credentials) = Some (u, p)).
  { rewrite strip_prefix_app. cbn [mbind option_bind]. rewrite base64_inverse. cbn [mbind option_bind].
    unfold from_utf8. rewrite Hv. cbn [mbind option_bind]. by apply split_once_free. }
  by destruct Hb as [-> | ->].
Qed.

(** Basic logins.  With local users configured, a client whose password is not
    cached and whose connection is not known is admitted exactly when the
    [user:password] pair it encodes is that of a local user, and then with the
    role of that user as its group. *)
Theorem basic_login_exact now key headers a u p :
  am_sspi a = false -> au_backend (am_config a) = Basic ->
  (am_basic_users a <> ∅ \/ is_Some (au_basic_users_file (am_config a))) ->
  am_user_cache a !! u = None ->
  hm_get_str headers "proxy-authorization" = Some ("Basic " +:+ base64_encode (u +:+ ":" +:+ p)) ->
  free_of ":" u = true -> utf8_valid (u +:+ ":" +:+ p) = true ->
  forall user, (handle_proxy_auth now key headers None false a).2 = Authenticated user <->
  exists b, am_basic_users a !! u = Some b /\ bu_password_hash b = hash_password_stable p /\
    user = {| ui_username := u; ui_display_name := Some u; ui_email := None; ui_groups := [bu_role b];
              ui_authenticated_at := now |}.
Proof.
  intros Hs Hb Hne Hu Hh Hf Hv user. unfold handle_proxy_auth. rewrite Hs. cbn [mbind option_bind].
  rewrite (extract_credentials_encoded headers false a u p) by auto.
  unfold authenticate, backend_authenticate. rewrite Hu, Hb. unfold authenticate_basic.
  assert (Hg : bool_decide (am_basic_users a = ∅) && negb (present (au_basic_users_file (am_config a))) = false).
  { destruct Hne as [Hne|[f ->]]; [by rewrite bool_decide_eq_false_2|apply andb_false_r]. }
  rewrite Hg. destruct (am_basic_users a !! u) as [b|]; cbn.
  - destruct (String.eqb_spec (bu_password_hash b) (hash_password_stable p)) as [He|He]; cbn.
    + split; [intros [= <-]; by exists b|]. by intros (b' & [= <-] & _ & ->).
    + split; [done|]. by intros (b' & [= <-] & ? & _).
  - split; [done|]. by intros (b' & ? & _).
Qed.

(** ** What goes wrong *)

(** A removed user stays admitted.  After a login that was not cached before,
    removing the user (or changing its password) does not keep the old password
    from being accepted until the cache entry expires. *)
Theorem removed_user_stays_admitted now now' io u p a a1 user :
  am_user_cache a !! u = None -> authenticate now u p a = (a1, Ok user) ->
  (now' - now <= au_cache_ttl (am_config a))%N ->
  (authenticate now' u p (remove_basic_user io u a1).1).2 = Ok user.
Proof.
  intros Hu Ha Ht. unfold authenticate in Ha. rewrite Hu in Ha.
  destruct (backend_authenticate now u p a) as [usr|]; [|done]. injection Ha as <- <-.
  assert (Hr : forall a', am_user_cache a' !! u = Some {| cu_user_info := usr;
      cu_password_hash := hash_password p (am_salt a); cu_cached_at := now;
      cu_ttl := au_cache_ttl (am_config a) |} -> am_salt a' = am_salt a ->
    (authenticate now' u p a').2 = Ok usr).
  { intros a' Hc Hsalt. unfold authenticate. rewrite Hc, Hsalt. unfold cached_is_expired. cbn.
    rewrite (proj2 (N.ltb_ge _ _)) by done. cbn.
    by rewrite (proj2 (constant_time_eq_true _ _) eq_refl). }
  apply Hr; unfold remove_basic_user; case_match; try done; apply lookup_insert_eq.
Qed.

(** The directory's verdict on the password is not read.  When the server
    answers, and finds an entry for the user, the login succeeds with every
    password the bind is answered for, whatever result code the answer carries. *)
Theorem ldap_result_code_ignored now server config u p entry rc :
  ldap_connect server = Ok tt -> ldap_service_bind server config = Ok tt ->
  ldap_search_user_entry server config u (Some u) = Ok entry ->
  ldap_simple_bind server (en_dn entry) p = Ok rc ->
  exists user, try_ldap_server now server config u p = Ok user /\ ui_username user = u.
Proof.
  intros Hc Hb Hs Hp. unfold try_ldap_server. rewrite Hc. cbn [res_bind]. rewrite Hb. cbn [res_bind].
  rewrite Hs. cbn [res_bind]. rewrite Hp. eexists. split; [done|]. done.
Qed.

(** Handshakes are remembered by address.  When a client completes an NTLM or
    Kerberos handshake, any other client behind the same address that sends no
    token is admitted as the same user until the entry expires, on any connection. *)
Theorem address_inherits_principal now now' key token rp conn session a username display other headers :
  (sspi_process_token session token).2 = Ok (SspiComplete username display) ->
  am_sspi a = true -> sspi_token headers rp = None ->
  (now' - now < au_cache_ttl (am_config a))%N -> cn_inner other = None ->
  let '(a', _, _) := sspi_step now key token rp conn session a in
  exists user, (handle_proxy_auth now' key headers (Some other) rp a').2 = Authenticated user /\
    ui_username user = username.
Proof.
  intros Hp Hs Ht Hn Ho. unfold sspi_step. destruct (sspi_process_token session token) as [session' step].
  cbn [snd] in Hp. subst step. unfold handle_proxy_auth. cbn [am_sspi with_principals with_handshakes].
  rewrite Hs. unfold handle_sspi_auth. rewrite Ht. unfold sspi_remembered. cbn [mbind option_bind].
  assert (Hg : conn_get now' None other = None).
  { unfold conn_get. rewrite Ho. by destruct (cn_ttl other =? 0)%N. }
  rewrite Hg. cbn [am_principals with_principals am_config with_handshakes]. rewrite lookup_insert_eq.
  set (user := apply_ldap_group_enrichment _ _).
  assert (Huser : ui_authenticated_at user = now /\ ui_username user = username).
  { unfold user, apply_ldap_group_enrichment. repeat case_match; done. }
  destruct Huser as [Hua Hun]. cbn [mbind option_bind]. rewrite Hua, (proj2 (N.ltb_lt _ _)) by done. by exists user.
Qed.

End logins.

(** ** Witnesses *)

#[local] Instance hex_sha : Sha256 := {| sha256 s := s; hex_encode s := s |}.
#[local] Instance clear_base64 : Base64 := {| base64_encode s := s; base64_decode s := Some s |}.
#[local] Instance clear_base64_laws : Base64Laws clear_base64.
Proof. by split. Qed.
#[local] Instance text_headers : HeaderText := {| hv_to_str := Some |}.
#[local] Instance one_user_json : UsersJson := fun _ => Some
  [{| bu_username := "ann"; bu_password_hash := "secret"; bu_role := "staff" |}].

(** A directory with one user, that refuses every bind of the user with code 49
    (invalidCredentials). *)
#[local] Instance refusing_directory : LdapDirectory := {|
  ldap_connect _ := Ok tt;
  ldap_simple_bind _ _ _ := Ok 49%N;
  ldap_search _ _ _ := Ok (0%N, [{| en_dn := "cn=ann"; en_attrs := ∅ |}]);
|}.

(** An engine that accepts any first token. *)
#[local] Instance eager_sspi : SspiEngine := {|
  SspiSession := unit;
  sspi_scheme := "NTLM";
  sspi_begin_session := Ok tt;
  sspi_process_token s _ := (s, Ok (SspiComplete "ann" None));
|}.

Definition demo_auth_config (b : AuthBackend) : AuthConfig :=
  {| au_enabled := true; au_backend := b; au_realm := "r"; au_cache_ttl := 300; au_conn_cache_ttl := 100;
     au_basic_users_file := Some "users.json"; au_ldap := None; au_ntlm := None; au_kerberos := None |}.

Definition demo_auth (b : AuthBackend) : AuthManager :=
  AuthManager_new (demo_auth_config b) (fun _ => Some EmptyString) "salt" false.

Definition demo_login : HeaderMap := [("proxy-authorization", "Basic ann:secret")]%string.

Definition ann (t : N) : UserInfo :=
  {| ui_username := "ann"; ui_display_name := Some "ann"; ui_email := None; ui_groups := ["staff"];
     ui_authenticated_at := t |}%string.

Definition demo_session : auth_system :=
  auth_apply 20 (AoRemove (Ok tt) "ann")
    (auth_apply 10 (AoRequest 1 "10.0.0.1" demo_login false)
      (auth_apply 5 (AoConnect 1) {| sy_auth := demo_auth Basic; sy_conns := ∅; sy_log := [] |})).

(** The connection admits the user at 90 although it was removed at 20. *)
Lemma admission_bounded_witness :
  (handle_proxy_auth 90 "10.0.0.1" [] (sy_conns demo_session !! 1) false (sy_auth demo_session)).2 =
    Authenticated (ann 10) /\
  exists v, v ∈ sy_log (auth_apply 90 (AoRequest 1 "10.0.0.1" [] false) demo_session) /\ vf_user v = ann 10 /\
    (vf_time v <= 90 <= vf_time v + 300 + 100)%N.
Proof.
  split; [vm_compute; reflexivity|].
  apply (admission_bounded (demo_auth_config Basic) (fun _ => Some EmptyString) "salt" 20 demo_session 90 1
    "10.0.0.1" [] false (sy_auth demo_session) (sy_conns demo_session !! 1)).
  - apply (auth_step _ 10 20); [|lia]. apply (auth_step _ 5 10); [|lia]. apply (auth_step _ 0 5); [|lia].
    apply auth_start.
  - lia.
  - vm_compute. reflexivity.
Defined.

Lemma basic_login_exact_witness :
  (handle_proxy_auth 10 "10.0.0.1" demo_login None false (demo_auth Basic)).2 = Authenticated (ann 10).
Proof.
  apply (basic_login_exact 10 "10.0.0.1" demo_login (demo_auth Basic) "ann" "secret" eq_refl eq_refl).
  - right. by eexists.
  - reflexivity.
  - reflexivity.
  - reflexivity.
  - reflexivity.
  - exists {| bu_username := "ann"; bu_password_hash := "secret"; bu_role := "staff" |}.
    split; [vm_compute; reflexivity|]. split; reflexivity.
Defined.

Lemma removed_user_stays_admitted_witness :
  (authenticate 200 "ann" "secret"
     (remove_basic_user (Ok tt) "ann" (authenticate 10 "ann" "secret" (demo_auth Basic)).1).1).2 = Ok (ann 10).
Proof.
  apply (removed_user_stays_admitted 10 200 (Ok tt) "ann" "secret" (demo_auth Basic)).
  - reflexivity.
  - vm_compute. reflexivity.
  - vm_compute. discriminate.
Defined.

Definition demo_ldap : LdapConfig :=
  {| ld_servers := ["ldap://d"]; ld_base_dn := "dc=x"; ld_bind_dn := None; ld_bind_password := None;
     ld_user_filter := "(sAMAccountName={username})"; ld_group_filter := None; ld_timeout := 5000000000;
     ld_use_tls := false; ld_group_enrichment := false |}%string.

Lemma ldap_result_code_ignored_witness :
  ldap_simple_bind "ldap://d" "cn=ann" "wrong" = Ok 49%N /\
  exists user, try_ldap_server 10 "ldap://d" demo_ldap "ann" "wrong" = Ok user /\ ui_username user = "ann"%string.
Proof.
  split; [reflexivity|].
  apply (ldap_result_code_ignored 10 "ldap://d" demo_ldap "ann" "wrong" {| en_dn := "cn=ann"; en_attrs := ∅ |} 49);
    reflexivity.
Defined.

Lemma address_inherits_principal_witness :
  exists user,
    (handle_proxy_auth 50 "10.0.0.1" [] (Some (ConnAuthCache_new 100)) false
       (sspi_step 10 "10.0.0.1" (Some "tok"%string) false None tt
          (AuthManager_new (demo_auth_config Ntlm) (fun _ => None) "salt" true)).1.1).2 = Authenticated user /\
    ui_username user = "ann"%string.
Proof.
  apply (address_inherits_principal 10 50 "10.0.0.1" (Some "tok"%string) false None (tt : @SspiSession eager_sspi)
    (AuthManager_new (demo_auth_config Ntlm) (fun _ => None) "salt" true) "ann" None (ConnAuthCache_new 100) []);
    reflexivity.
Defined.
