(* ===== verification/ReverseProxy.v ===== *)
(** * The reverse proxy's sessions and OIDC logins (src/proxy/src/reverse_proxy.rs)

    Session and state tables, the redirect to the identity provider, the callback
    that exchanges the code for a token, and the checks of the token.

    The [http] crate's [Uri], serde's derived readers, base64 and the token endpoint
    are classes or arguments; random identifiers and the time in seconds are
    arguments; [None] is a panic ([unwrap] of a header that is not valid). *)

From Stdlib Require Import Ascii String NArith Lia.
From stdpp Require Import base option gmap sets strings pretty numbers list.
From S2P Require Import Prelude CacheEntry Http Inspection CacheDigest SemanticCache Auth.

(** ** Requests *)

Class UriCrate := {
  Uri : Type;
  uri_path : Uri -> string;
  uri_query : Uri -> option string;
  uri_path_and_query : Uri -> option string;
  uri_to_string : Uri -> string;
  uri_parse : string -> option Uri;
}.

(** A request; its body as the frames that arrive. *)
Record Request `{UriCrate} := {
  rq_method : string;
  rq_uri : Uri;
  rq_headers : HeaderMap;
  rq_body : list (result BodyFrame string);
}.

Definition response (status : N) (body : string) : HttpResponse :=
  {| hr_status := status; hr_headers := ∅; hr_body := body |}.

(** ** Configuration and tables *)

Record OidcConfig := {
  oc_client_id : string;
  oc_client_secret : string;
  oc_issuer_url : string;
  oc_redirect_uri : string;
}.

Definition OidcConfig_from_env (env : Env) : option OidcConfig :=
  client_id ← env "OIDC_CLIENT_ID";
  client_secret ← env "OIDC_CLIENT_SECRET";
  issuer_url ← env "OIDC_ISSUER_URL";
  Some {| oc_client_id := client_id; oc_client_secret := client_secret; oc_issuer_url := issuer_url;
          oc_redirect_uri := default "http://localhost:1488/-/callback" (env "OIDC_REDIRECT_URI") |}.

Record ReverseProxyConfig := {
  rp_upstream_url : string;
  rp_oidc : option OidcConfig;
  rp_admin_group : option string;
  rp_sessions : gmap string string;
  rp_states : gmap string N;
}.

Definition ReverseProxyConfig_from_env (env : Env) : option ReverseProxyConfig :=
  upstream_url ← non_empty (env "REVERSE_PROXY_UPSTREAM");
  Some {| rp_upstream_url := upstream_url; rp_oidc := OidcConfig_from_env env;
          rp_admin_group := non_empty (env "REVERSE_PROXY_ADMIN_GROUP");
          rp_sessions := ∅; rp_states := ∅ |}.

Definition with_tables (sessions : gmap string string) (states : gmap string N) (c : ReverseProxyConfig)
    : ReverseProxyConfig :=
  {| rp_upstream_url := rp_upstream_url c; rp_oidc := rp_oidc c; rp_admin_group := rp_admin_group c;
     rp_sessions := sessions; rp_states := states |}.

(** The first cookie of a name ([extract_session_cookie], [extract_oidc_state_cookie]). *)
Definition extract_cookie `{!HeaderText} (prefix : string) (headers : HeaderMap) : option string :=
  val ← hm_get_str headers "cookie";
  head (omap (fun part => strip_prefix prefix (trim part)) (split_on ";" val)).

Definition get_session (session_id : string) (c : ReverseProxyConfig) : option string :=
  rp_sessions c !! session_id.

Definition create_session (fresh username : string) (c : ReverseProxyConfig) : ReverseProxyConfig :=
  with_tables (<[fresh := username]> (rp_sessions c)) (rp_states c) c.

Definition generate_state (now : N) (fresh : string) (c : ReverseProxyConfig) : ReverseProxyConfig :=
  with_tables (rp_sessions c) (<[fresh := now]> (rp_states c)) c.

(** The state is removed whether or not it is still valid. *)
Definition verify_and_remove_state (now : N) (state : string) (c : ReverseProxyConfig)
    : ReverseProxyConfig * bool :=
  match rp_states c !! state with
  | Some created_at =>
      (with_tables (rp_sessions c) (delete state (rp_states c)) c, (now - created_at <=? 600)%N)
  | None => (c, false)
  end.

(** ** The redirect to the provider *)

Section oidc.
Context `{!HeaderText, !HeaderCodec, !Base64, !UriCrate}.

Definition redirect_response (location cookie : string) : option HttpResponse :=
  loc ← HeaderValue_from_str location;
  ck ← HeaderValue_from_str cookie;
  Some {| hr_status := 302; hr_headers := {[ "location"%string := loc; "set-cookie"%string := ck ]};
          hr_body := EmptyString |}.

Definition handle_unauthenticated (now : N) (fresh : string) (c : ReverseProxyConfig)
    : ReverseProxyConfig * option HttpResponse :=
  match rp_oidc c with
  | Some oidc =>
      let auth_url := trim_end_matches "/" (oc_issuer_url oidc) +:+
        "/authorize?response_type=code&client_id=" +:+ oc_client_id oidc +:+ "&redirect_uri=" +:+
        oc_redirect_uri oidc +:+ "&scope=openid profile email&state=" +:+ fresh in
      (generate_state now fresh c,
       redirect_response auth_url
         ("bsdm_oidc_state=" +:+ fresh +:+ "; HttpOnly; Path=/; SameSite=Lax; Max-Age=600"))
  | None => (c, Some (response 401 "401 Unauthorized (OIDC not configured)"))
  end.

(** ** The token *)

(** The claims of a token that are read. *)
Record JwtPayload := {
  jw_iss : option string;
  jw_aud : option json;
  jw_email : option string;
  jw_sub : string;
  jw_exp : option N;
}.

(** serde's derived readers of the two records: the [id_token] of the token
    response, and the claims. *)
Class OidcJson := {
  token_response_of_json : string -> option string;
  jwt_payload_of_json : string -> option JwtPayload;
}.

Context `{!OidcJson}.

Inductive JwtError := InvalidJwt | InvalidJwtBase64 | InvalidJwtJson.

(** The payload of a token; the signature is not read. *)
Definition jwt_payload (id_token : string) : result JwtPayload JwtError :=
  match split_on "." id_token with
  | [_; payload; _] =>
      let b64 := replace_char "_" "/" (replace_char "-" "+" payload) in
      let b64 :=
        match String.length b64 mod 4 with
        | 2 => b64 +:+ "=="
        | 3 => b64 +:+ "="
        | _ => b64
        end in
      match base64_decode b64 with
      | None => Err InvalidJwtBase64
      | Some decoded =>
          match jwt_payload_of_json decoded with
          | None => Err InvalidJwtJson
          | Some jwt => Ok jwt
          end
      end
  | _ => Err InvalidJwt
  end.

Definition jwt_error_response (e : JwtError) : HttpResponse :=
  match e with
  | InvalidJwt => response 502 "Invalid JWT"
  | InvalidJwtBase64 => response 502 "Invalid JWT base64"
  | InvalidJwtJson => response 502 "Invalid JWT JSON"
  end.

Definition issuer_ok (oidc : OidcConfig) (jwt : JwtPayload) : bool :=
  match jw_iss jwt with
  | Some iss => String.eqb (trim_end_matches "/" iss) (trim_end_matches "/" (oc_issuer_url oidc))
  | None => true
  end.

Definition audience_ok (oidc : OidcConfig) (jwt : JwtPayload) : bool :=
  match jw_aud jwt with
  | Some (JString s) => String.eqb s (oc_client_id oidc)
  | Some (JArray arr) =>
      existsb (fun v => match v with JString s => String.eqb s (oc_client_id oidc) | _ => false end) arr
  | Some _ => false
  | None => true
  end.

Definition unexpired (now : N) (jwt : JwtPayload) : bool :=
  match jw_exp jwt with Some exp => (now <? exp)%N | None => true end.

(** The last [code] and [state] of the query. *)
Definition callback_params (query : string) : option string * option string :=
  foldl (fun '(code, state) param =>
    match split_once "=" param with
    | Some (k, v) =>
        if String.eqb k "code" then (Some v, state)
        else if String.eqb k "state" then (code, Some v)
        else (code, state)
    | None => (code, state)
    end) (None, None) (split_on "&" query).

(** The answer to a token that was received. *)
Definition login_with_token (now : N) (fresh : string) (oidc : OidcConfig) (id_token : string)
    (c : ReverseProxyConfig) : ReverseProxyConfig * option HttpResponse :=
  match jwt_payload id_token with
  | Err e => (c, Some (jwt_error_response e))
  | Ok jwt =>
      if negb (issuer_ok oidc jwt) then (c, Some (response 401 "JWT issuer mismatch"))
      else if negb (audience_ok oidc jwt) then (c, Some (response 401 "JWT audience mismatch"))
      else if negb (unexpired now jwt) then (c, Some (response 401 "JWT expired"))
      else
        let username := default (jw_sub jwt) (jw_email jwt) in
        (create_session fresh username c,
         redirect_response "/" ("bsdm_session=" +:+ fresh +:+ "; HttpOnly; Path=/; SameSite=Lax"))
  end.

(** [exchange] is the token endpoint: the url and the form it is sent, and the
    status and body it answers. *)
Definition handle_oidc_callback (exchange : string -> list (string * string) -> result (N * string) string)
    (now now' : N) (fresh : string) (req : Request) (c : ReverseProxyConfig)
    : ReverseProxyConfig * option HttpResponse :=
  match rp_oidc c with
  | None => (c, Some (response 404 "OIDC not configured"))
  | Some oidc =>
      match callback_params (default EmptyString (uri_query (rq_uri req))) with
      | (None, _) => (c, Some (response 400 "Missing code parameter"))
      | (Some _, None) => (c, Some (response 400 "Missing state parameter"))
      | (Some code, Some state_param) =>
          let mismatch := response 400 "CSRF state mismatch or state expired" in
          if bool_decide (extract_cookie "bsdm_oidc_state=" (rq_headers req) = Some state_param) then
            let '(c, valid) := verify_and_remove_state now state_param c in
            if negb valid then (c, Some mismatch)
            else
              let form := [("grant_type", "authorization_code"); ("code", code);
                           ("redirect_uri", oc_redirect_uri oidc); ("client_id", oc_client_id oidc);
                           ("client_secret", oc_client_secret oidc)]%string in
              match exchange (trim_end_matches "/" (oc_issuer_url oidc) +:+ "/token") form with
              | Err e => (c, Some (response 502 ("IDP Error: " +:+ e)))
              | Ok (status, body) =>
                  if negb (ok_status status) then (c, Some (response 502 "IDP returned error"))
                  else
                    match token_response_of_json body with
                    | None => (c, Some (response 502 "Invalid response from IDP"))
                    | Some id_token => login_with_token now' fresh oidc id_token c
                    end
              end
          else (c, Some mismatch)
      end
  end.

(** ** Theorems *)

(** C12: Who an OIDC callback logs in.  A callback adds a session only when its state
    parameter is the state cookie, the state was issued no more than ten minutes
    before and is now used up, the provider returned a token for the code, and the
    issuer, audience and expiry of the token, where it has them, are right; and
    then exactly one session is added, for the email or else the subject. *)
Theorem oidc_login_sound exchange now now' fresh req c c' resp :
  handle_oidc_callback exchange now now' fresh req c = (c', resp) ->
  rp_sessions c' <> rp_sessions c ->
  exists oidc code state created body id_token jwt,
    rp_oidc c = Some oidc /\
    callback_params (default EmptyString (uri_query (rq_uri req))) = (Some code, Some state) /\
    extract_cookie "bsdm_oidc_state=" (rq_headers req) = Some state /\
    rp_states c !! state = Some created /\ (now - created <= 600)%N /\
    rp_states c' = delete state (rp_states c) /\
    (exists status, ok_status status = true /\
     exchange (trim_end_matches "/" (oc_issuer_url oidc) +:+ "/token")
       [("grant_type", "authorization_code"); ("code", code); ("redirect_uri", oc_redirect_uri oidc);
        ("client_id", oc_client_id oidc); ("client_secret", oc_client_secret oidc)]%string = Ok (status, body)) /\
    token_response_of_json body = Some id_token /\ jwt_payload id_token = Ok jwt /\
    issuer_ok oidc jwt = true /\ audience_ok oidc jwt = true /\ unexpired now' jwt = true /\
    rp_sessions c' = <[fresh := default (jw_sub jwt) (jw_email jwt)]> (rp_sessions c).
Proof.
  unfold handle_oidc_callback. destruct (rp_oidc c) as [oidc|] eqn:Ho; [|intros [= <- _]; done].
  destruct (callback_params _) as [[code|] [state|]] eqn:Hp; try (intros [= <- _]; done).
  case_bool_decide as Hck; [|intros [= <- _]; done]. unfold verify_and_remove_state.
  destruct (rp_states c !! state) as [created|] eqn:Hst; [|intros [= <- _]; done].
  destruct (now - created <=? 600)%N eqn:Hage; [|intros [= <- _]; done]. apply N.leb_le in Hage. cbn [negb].
  destruct (exchange _ _) as [[status body]|e] eqn:Hx; [|intros [= <- _]; done].
  destruct (ok_status status) eqn:Hs; [|intros [= <- _]; done]. cbn [negb].
  destruct (token_response_of_json body) as [tok|] eqn:Ht; [|intros [= <- _]; done].
  unfold login_with_token. destruct (jwt_payload tok) as [jwt|] eqn:Hj; [|intros [= <- _]; done].
  destruct (issuer_ok oidc jwt) eqn:Hi; [|intros [= <- _]; done]. cbn [negb].
  destruct (audience_ok oidc jwt) eqn:Ha; [|intros [= <- _]; done]. cbn [negb].
  destruct (unexpired now' jwt) eqn:Hu; [|intros [= <- _]; done]. cbn [negb]. intros [= <- _] _.
  exists oidc, code, state, created, body, tok, jwt. split_and!; eauto.
Qed.

(** A state that is not in the table logs nobody in and changes nothing. *)
Lemma unknown_state_refused exchange now now' fresh req c oidc code state :
  rp_oidc c = Some oidc ->
  callback_params (default EmptyString (uri_query (rq_uri req))) = (Some code, Some state) ->
  rp_states c !! state = None ->
  handle_oidc_callback exchange now now' fresh req c =
    (c, Some (response 400 "CSRF state mismatch or state expired")).
Proof.
  intros Ho Hp Hs. unfold handle_oidc_callback. rewrite Ho, Hp. unfold verify_and_remove_state. rewrite Hs.
  by case_bool_decide.
Qed.

Definition set_admin_group (g : option string) (c : ReverseProxyConfig) : ReverseProxyConfig :=
  {| rp_upstream_url := rp_upstream_url c; rp_oidc := rp_oidc c; rp_admin_group := g;
     rp_sessions := rp_sessions c; rp_states := rp_states c |}.

(** The callback does not look at the required group.  Whatever group the
    reverse proxy is restricted to, the callback answers the same and logs the same
    users in. *)
Theorem oidc_ignores_admin_group exchange now now' fresh req g c :
  handle_oidc_callback exchange now now' fresh req (set_admin_group g c) =
  let '(c', resp) := handle_oidc_callback exchange now now' fresh req c in (set_admin_group g c', resp).
Proof.
  unfold handle_oidc_callback. cbn [rp_oidc set_admin_group]. destruct (rp_oidc c) as [oidc|]; [|done].
  destruct (callback_params _) as [[code|] [state|]]; try done. case_bool_decide; [|done].
  unfold verify_and_remove_state. cbn [rp_states set_admin_group].
  destruct (rp_states c !! state) as [created|]; [|done]. destruct (now - created <=? 600)%N; [|done].
  cbn [negb]. destruct (exchange _ _) as [[status body]|e]; [|done]. destruct (ok_status status); [|done].
  cbn [negb]. destruct (token_response_of_json body) as [tok|]; [|done]. unfold login_with_token.
  destruct (jwt_payload tok) as [jwt|]; [|done]. by repeat case_match.
Qed.

End oidc.

(** ** Witness *)

#[local] Instance plain_uri : UriCrate := {|
  Uri := string; uri_path u := u; uri_query u := Some u; uri_path_and_query u := Some u;
  uri_to_string u := u; uri_parse u := Some u;
|}.
#[local] Instance any_header : HeaderText := {| hv_to_str := Some |}.
#[local] Instance any_header_codec : HeaderCodec := {|
  HeaderName_from_bytes s := Some s; HeaderValue_from_str s := Some s |}.
#[local] Instance clear_b64 : Base64 := {| base64_encode s := s; base64_decode s := Some s |}.
#[local] Instance tiny_json : OidcJson := {|
  token_response_of_json s := Some s;
  jwt_payload_of_json s :=
    Some {| jw_iss := None; jw_aud := None; jw_email := None; jw_sub := s; jw_exp := None |};
|}.

Definition demo_rp : ReverseProxyConfig :=
  {| rp_upstream_url := "http://app"; rp_admin_group := Some "admins"; rp_sessions := ∅;
     rp_states := {[ "st"%string := 100%N ]};
     rp_oidc := Some {| oc_client_id := "id"; oc_client_secret := "s"; oc_issuer_url := "https://idp/";
                        oc_redirect_uri := "http://app/-/callback" |} |}.

Definition demo_callback : Request :=
  {| rq_method := "GET"; rq_uri := "code=c&state=st"; rq_headers := [("cookie", "bsdm_oidc_state=st")];
     rq_body := [] |}%string.

Lemma oidc_login_sound_witness :
  let r := handle_oidc_callback (fun _ _ => Ok (200%N, "h.user.x"%string)) 300 301 "sid" demo_callback demo_rp in
  exists state created, extract_cookie "bsdm_oidc_state=" (rq_headers demo_callback) = Some state /\
    rp_states demo_rp !! state = Some created /\ rp_states r.1 !! state = None /\
    rp_sessions r.1 = {[ "sid"%string := "user"%string ]}.
Proof.
  intros r. destruct (oidc_login_sound (fun _ _ => Ok (200%N, "h.user.x"%string)) 300 301 "sid" demo_callback
    demo_rp r.1 r.2) as (oidc & code & state & created & body & tok & jwt & _ & _ & Hck & Hst & _ & Hdel & _).
  - vm_compute. reflexivity.
  - vm_compute. discriminate.
  - exists state, created. split_and!; [done|done| |vm_compute; reflexivity].
    rewrite Hdel. apply lookup_delete_eq.
Defined.
