(* ===== verification/Devices.v ===== *)
(** * The registry of agent devices (src/proxy/src/device_registry.rs)

    The devices a control plane knows: enrolment with a bearer token, heartbeats,
    revocation, and the checks of tokens, fingerprints and serials, in memory, in a
    file and, when nodes share one, in Redis.

    Clocks, random bytes and the outcomes of file writes are arguments; serde_json
    is [DeviceJson]; the iteration order of hash tables is [MapOrder].  Redis has a
    state of its own, shared by the nodes, and any command may fail, before or after
    it took effect ([Fate]).  Each call of the registry is one step. *)

From Stdlib Require Import Ascii String NArith Lia Sorting.Sorted Sorting.Permutation.
From stdpp Require Import base option gmap sets strings pretty numbers list sorting.
From S2P Require Import Prelude CacheDigest AclApi.

(** ** Hash tables and Redis *)

Class MapOrder := map_listing : forall A : Type, gmap string A -> list (string * A).
Arguments map_listing {_ A} m.
Class MapOrderLaws `{!MapOrder} :=
  map_listing_perm : forall A (m : gmap string A), map_listing m ≡ₚ map_to_list m.

(** What becomes of a command: done; refused, without effect; or done with the
    reply lost. *)
Inductive Fate := Done | Refused | Lost.

(** String keys and hashes; [rd_clock] counts the commands. *)
Record RedisDb := {
  rd_keys : gmap string string;
  rd_hashes : gmap string (gmap string string);
  rd_clock : N;
}.

Definition redis_tick (r : RedisDb) : RedisDb :=
  {| rd_keys := rd_keys r; rd_hashes := rd_hashes r; rd_clock := rd_clock r + 1 |}.

Definition with_keys (ks : gmap string string) (r : RedisDb) : RedisDb :=
  {| rd_keys := ks; rd_hashes := rd_hashes r; rd_clock := rd_clock r |}.

Definition with_hash (h : string) (m : gmap string string) (r : RedisDb) : RedisDb :=
  {| rd_keys := rd_keys r; rd_hashes := <[h := m]> (rd_hashes r); rd_clock := rd_clock r |}.

Definition hash_of (h : string) (r : RedisDb) : gmap string string := default ∅ (rd_hashes r !! h).

Section redis.
Context (fate : N -> Fate).

(** A command that changes the store answers whether it succeeded. *)
Definition redis_write (f : RedisDb -> RedisDb) (r : RedisDb) : RedisDb * bool :=
  match fate (rd_clock r) with
  | Done => (redis_tick (f r), true)
  | Refused => (redis_tick r, false)
  | Lost => (redis_tick (f r), false)
  end.

(** A command that reads answers [None] for an error. *)
Definition redis_read {A} (f : RedisDb -> A) (r : RedisDb) : RedisDb * option A :=
  (redis_tick r, match fate (rd_clock r) with Done => Some (f r) | _ => None end).

Definition hset (h field value : string) : RedisDb -> RedisDb * bool :=
  redis_write (fun r => with_hash h (<[field := value]> (hash_of h r)) r).
Definition hget (h field : string) : RedisDb -> RedisDb * option (option string) :=
  redis_read (fun r => hash_of h r !! field).
Definition hgetall (h : string) : RedisDb -> RedisDb * option (gmap string string) :=
  redis_read (hash_of h).
Definition redis_set (k value : string) : RedisDb -> RedisDb * bool :=
  redis_write (fun r => with_keys (<[k := value]> (rd_keys r)) r).
Definition redis_del (k : string) : RedisDb -> RedisDb * bool :=
  redis_write (fun r => with_keys (delete k (rd_keys r)) r).
Definition redis_fetch (k : string) : RedisDb -> RedisDb * option (option string) :=
  redis_read (fun r => rd_keys r !! k).

End redis.

(** ** Devices *)

Definition FILE_VERSION : N := 1.
Definition MAX_DEVICES : N := 10000.
Definition TOKEN_PREFIX : string := "bsdmagent_".

Record RegisteredDevice := {
  dev_id : string;
  dev_name : string;
  dev_ip : string;
  dev_type : string;
  dev_agent_status : string;
  dev_agent_version : option string;
  dev_policy_version : option string;
  dev_cert_subject : option string;
  dev_cert_fingerprint : option string;
  dev_cert_serial : option string;
  dev_trust_score : option N;
  dev_last_seen : N;
  dev_revoked : bool;
  dev_platform : option string;
  dev_user_identity : option string;
  dev_enrolled_at : option N;
  dev_token_hash : option string;
  dev_capabilities : list string;
}.

#[global] Instance RegisteredDevice_eq_dec : EqDecision RegisteredDevice.
Proof. solve_decision. Defined.

(** The status column of [to_api_row]. *)
Definition api_status (d : RegisteredDevice) : string :=
  if dev_revoked d then "Revoked"
  else if eq_ignore_ascii_case (dev_agent_status d) "healthy" then "Secured"
  else "Flagged".

Record ApiRow := {
  row_device : RegisteredDevice;
  row_status : string;
  row_connection : string;
  row_enrolled : bool;
}.

Definition to_api_row (d : RegisteredDevice) : ApiRow := {|
  row_device := d;
  row_status := api_status d;
  row_connection := pretty (dev_last_seen d);
  row_enrolled := present (dev_token_hash d) || present (dev_enrolled_at d);
|}.

Record EnrollRequest := {
  en_device_id : option string;
  en_platform : string;
  en_name : option string;
  en_user_identity : option string;
  en_capabilities : list string;
  en_device_type : option string;
  en_cert_subject : option string;
  en_cert_fingerprint : option string;
  en_cert_serial : option string;
}.

Record EnrollResult := {
  er_device_id : string;
  er_device_token : string;
  er_platform : string;
  er_enrolled_at : N;
  er_persisted : bool;
  er_reenrolled : bool;
  er_cert_subject : option string;
  er_cert_fingerprint : option string;
  er_cert_serial : option string;
}.

Inductive EnrollError := InvalidPlatform | EnrollEmptyDeviceId | EnrollRevoked.

Record HeartbeatUpdate := {
  hb_device_id : string;
  hb_status : option string;
  hb_agent_version : option string;
  hb_policy_version : option string;
  hb_name : option string;
  hb_ip : option string;
  hb_device_type : option string;
  hb_cert_subject : option string;
  hb_cert_fingerprint : option string;
  hb_trust_score : option N;
}.

Inductive HeartbeatError := HbEmptyDeviceId | InvalidTrustScore.
Inductive RevokeError := InvalidId | RevokeNotFound.

Record DevicesFile := {
  df_version : N;
  df_devices : list RegisteredDevice;
}.

Class DeviceJson := {
  device_to_json : RegisteredDevice -> option string;
  device_from_json : string -> option RegisteredDevice;
  devices_to_json : DevicesFile -> result string string;
  devices_from_json : string -> result DevicesFile string;
}.

(** Serializing these types does not fail, and what was written is read back. *)
Class DeviceJsonLaws (J : DeviceJson) := {
  device_json_some d : exists j, device_to_json d = Some j /\ device_from_json j = Some d;
  devices_json_some f :
    exists j, devices_to_json f = Ok j /\ devices_from_json j = Ok f /\ str_is_empty (trim j) = false;
}.

(** A node's registry.  [reg_path] is the configured file and [reg_file] what it
    holds ([None] when it does not exist); [reg_redis] is the key prefix of the
    shared store, when attached. *)
Record DeviceRegistry := {
  reg_devices : gmap string RegisteredDevice;
  reg_path : option string;
  reg_file : option string;
  reg_redis : option string;
}.

Definition with_devices (m : gmap string RegisteredDevice) (reg : DeviceRegistry) : DeviceRegistry :=
  {| reg_devices := m; reg_path := reg_path reg; reg_file := reg_file reg; reg_redis := reg_redis reg |}.

Definition memory_only : DeviceRegistry :=
  {| reg_devices := ∅; reg_path := None; reg_file := None; reg_redis := None |}.

Definition is_persistent (reg : DeviceRegistry) : bool := present (reg_path reg) || present (reg_redis reg).

(** [Option::filter(|s| !s.trim().is_empty())]. *)
Definition non_blank (o : option string) : option string :=
  match o with Some s => if str_is_empty (trim s) then None else Some s | None => None end.

Definition is_kind (k : string) : bool := String.eqb k "desktop" || String.eqb k "phone".

Definition known_kind (o : option string) : option string :=
  match o with Some k => if is_kind k then Some k else None | None => None end.

(** [o.or_else(|| p)]. *)
Definition or_else {A} (o p : option A) : option A := match o with Some _ => o | None => p end.

(** *** Settings *)

Definition trimmed_var (env : Env) (name : string) : option string :=
  match env name with
  | Some v => if str_is_empty (trim v) then None else Some (trim v)
  | None => None
  end.

Definition redis_url_from_env (env : Env) : option string :=
  match trimmed_var env "AGENT_DEVICES_REDIS_URL" with
  | Some url => Some url
  | None =>
      let enabled :=
        match env "AGENT_DEVICES_REDIS" with
        | Some v => bool_decide (to_ascii_lowercase v ∈ ["1"; "true"; "yes"; "on"])
        | None => false
        end in
      if negb enabled then None else trimmed_var env "REDIS_URL"
  end.

Definition redis_key_prefix_from_env (env : Env) : string :=
  default "bsdm:agent:" (trimmed_var env "AGENT_REDIS_PREFIX").

Definition path_from_env (env : Env) : option string := trimmed_var env "AGENT_DEVICES_PATH".

Definition sni_deny_patterns_from_env (env : Env) : list string :=
  match env "AGENT_SNI_DENY_PATTERNS" with
  | Some raw =>
      if str_is_empty (trim raw) then ["*.evil.com"; "badsite.test"]
      else List.filter (fun p => negb (str_is_empty p)) (trim <$> split_on "," raw)
  | None => ["*.evil.com"; "badsite.test"]
  end.

Definition devices_hash (prefix : string) : string := prefix +:+ "devices".
Definition token_key (prefix h : string) : string := prefix +:+ "tok:" +:+ h.
Definition fp_key (prefix fp : string) : string := prefix +:+ "fp:" +:+ fp.
Definition serial_key (prefix serial : string) : string := prefix +:+ "ser:" +:+ serial.

(** Order of ids in the file. *)
Definition id_le (a b : RegisteredDevice) : Prop := String.le (dev_id a) (dev_id b).
#[global] Instance id_le_dec : RelDecision id_le := fun a b => _.

(** *** The registry *)

Section registry.
Context {SH : Sha256} {DJ : DeviceJson} {MO : MapOrder}.
Context (fate : N -> Fate).

Definition hash_device_token (token : string) : string := hex_encode (sha256 token).
Definition generate_device_token (random : string) : string := TOKEN_PREFIX +:+ hex_encode random.

Definition load_device (m : gmap string RegisteredDevice) (d : RegisteredDevice)
    : gmap string RegisteredDevice :=
  if str_is_empty (trim (dev_id d)) then m else <[dev_id d := d]> m.

(** [load]: [read] is what reading an existing file gives. *)
Definition load_devices (read : option (result string string))
    : result (gmap string RegisteredDevice) string :=
  match read with
  | None => Ok ∅
  | Some (Err e) => Err ("read AGENT_DEVICES_PATH: " +:+ e)
  | Some (Ok raw) =>
      if str_is_empty (trim raw) then Ok ∅
      else
        match devices_from_json raw with
        | Err e => Err ("parse AGENT_DEVICES_PATH: " +:+ e)
        | Ok file =>
            if negb (df_version file =? FILE_VERSION)%N then
              Err ("unsupported agent devices file version " +:+ pretty (df_version file))
            else if (MAX_DEVICES <? N.of_nat (length (df_devices file)))%N then
              Err ("agent devices file has " +:+ pretty (N.of_nat (length (df_devices file))) +:+ " entries")
            else
              Ok (foldl load_device ∅ (df_devices file))
        end
  end.

Definition registry_from_env (env : Env) (disk : string -> option (result string string)) : DeviceRegistry :=
  match path_from_env env with
  | None => memory_only
  | Some path =>
      {| reg_devices := match load_devices (disk path) with Ok m => m | Err _ => ∅ end;
         reg_path := Some path; reg_file := disk path ≫= res_ok; reg_redis := None |}
  end.

(** [save]: the payload, or why it is refused; the temporary file is renamed over
    the old one. *)
Definition save_payload (m : gmap string RegisteredDevice) : result string string :=
  if (MAX_DEVICES <? N.of_nat (size m))%N then
    Err ("refusing to persist " +:+ pretty (N.of_nat (size m)) +:+ " devices")
  else
    devices_to_json {| df_version := FILE_VERSION;
                       df_devices := merge_sort id_le (map_listing m).*2 |}.

(** [io]: whether the directory, the temporary file and the renaming succeed. *)
Definition persist_locked (io : bool) (reg : DeviceRegistry) : DeviceRegistry * bool :=
  match reg_path reg, save_payload (reg_devices reg) with
  | Some _, Ok payload =>
      if io then
        ({| reg_devices := reg_devices reg; reg_path := reg_path reg; reg_file := Some payload;
            reg_redis := reg_redis reg |}, true)
      else (reg, false)
  | _, _ => (reg, false)
  end.

Definition cache_device (d : RegisteredDevice) (reg : DeviceRegistry) : DeviceRegistry :=
  with_devices (<[dev_id d := d]> (reg_devices reg)) reg.

Definition redis_put_device (reg : DeviceRegistry) (d : RegisteredDevice) (old_token_hash : option string)
    (r : RedisDb) : RedisDb * bool :=
  match reg_redis reg with
  | None => (r, false)
  | Some prefix =>
      match device_to_json d with
      | None => (r, false)
      | Some json =>
          let '(r, ok) := hset fate (devices_hash prefix) (dev_id d) json r in
          if negb ok then (r, false)
          else
            let r :=
              match old_token_hash with
              | Some old =>
                  if match dev_token_hash d with Some h => negb (String.eqb h old) | None => true end
                  then (redis_del fate (token_key prefix old) r).1 else r
              | None => r
              end in
            let r :=
              match dev_token_hash d, old_token_hash with
              | Some h, _ => (redis_set fate (token_key prefix h) (dev_id d) r).1
              | None, Some old => (redis_del fate (token_key prefix old) r).1
              | None, None => r
              end in
            let r :=
              match dev_cert_fingerprint d with
              | Some fp => (redis_set fate (fp_key prefix (to_ascii_lowercase fp)) (dev_id d) r).1
              | None => r
              end in
            let r :=
              match dev_cert_serial d with
              | Some ser => (redis_set fate (serial_key prefix (to_ascii_lowercase ser)) (dev_id d) r).1
              | None => r
              end in
            (r, true)
      end
  end.

(** [conn.hget(..).await.ok()?] and the parse of what it found. *)
Definition redis_hget_device (prefix id : string) (r : RedisDb) : RedisDb * option RegisteredDevice :=
  let '(r, json) := hget fate (devices_hash prefix) id r in
  (r, mjoin json ≫= device_from_json).

Definition redis_get_device (reg : DeviceRegistry) (id : string) (r : RedisDb)
    : RedisDb * option RegisteredDevice :=
  match reg_redis reg with
  | None => (r, None)
  | Some prefix => redis_hget_device prefix id r
  end.

(** The id under an index key, then its device. *)
Definition redis_get_indexed (key_of : string -> string) (reg : DeviceRegistry) (r : RedisDb)
    : RedisDb * option RegisteredDevice :=
  match reg_redis reg with
  | None => (r, None)
  | Some prefix =>
      let '(r, id) := redis_fetch fate (key_of prefix) r in
      match mjoin id with
      | None => (r, None)
      | Some id => redis_hget_device prefix id r
      end
  end.

Definition redis_get_by_token_hash (reg : DeviceRegistry) (h : string) :=
  redis_get_indexed (fun prefix => token_key prefix h) reg.
Definition redis_get_by_fp (reg : DeviceRegistry) (fp : string) :=
  redis_get_indexed (fun prefix => fp_key prefix fp) reg.
Definition redis_get_by_serial (reg : DeviceRegistry) (serial : string) :=
  redis_get_indexed (fun prefix => serial_key prefix serial) reg.

(** One device of the shared store: the newer of the two stays. *)
Definition merge_device (acc : gmap string RegisteredDevice * N) (json : string)
    : gmap string RegisteredDevice * N :=
  let '(m, merged) := acc in
  match device_from_json json with
  | None => acc
  | Some d =>
      if str_is_empty (trim (dev_id d)) then acc
      else
        match m !! dev_id d with
        | Some l =>
            if (dev_last_seen d <=? dev_last_seen l)%N then acc else (<[dev_id d := d]> m, merged + 1)%N
        | None => (<[dev_id d := d]> m, merged + 1)%N
        end
  end.

Definition pull_from_redis (reg : DeviceRegistry) (r : RedisDb) : DeviceRegistry * RedisDb * N :=
  match reg_redis reg with
  | None => (reg, r, 0%N)
  | Some prefix =>
      let '(r, remote) := hgetall fate (devices_hash prefix) r in
      match remote with
      | None => (reg, r, 0%N)
      | Some remote =>
          let '(m, merged) := foldl merge_device (reg_devices reg, 0%N) (map_listing remote).*2 in
          (with_devices m reg, r, merged)
      end
  end.

Definition attach_redis (env : Env) (reg : DeviceRegistry) (r : RedisDb) : DeviceRegistry * RedisDb * N :=
  pull_from_redis {| reg_devices := reg_devices reg; reg_path := reg_path reg; reg_file := reg_file reg;
                     reg_redis := Some (redis_key_prefix_from_env env) |} r.

(** The record a heartbeat leaves, given the one before it. *)
Definition heartbeat_device (now : N) (hb : HeartbeatUpdate) (previous : option RegisteredDevice)
    : RegisteredDevice := {|
  dev_id := hb_device_id hb;
  dev_name := default (hb_device_id hb) (or_else (non_blank (hb_name hb)) (dev_name <$> previous));
  dev_ip := default EmptyString (or_else (hb_ip hb) (dev_ip <$> previous));
  dev_type := default "desktop" (or_else (known_kind (hb_device_type hb)) (dev_type <$> previous));
  dev_agent_status := default "healthy" (hb_status hb);
  dev_agent_version := or_else (hb_agent_version hb) (previous ≫= dev_agent_version);
  dev_policy_version := or_else (hb_policy_version hb) (previous ≫= dev_policy_version);
  dev_cert_subject := or_else (hb_cert_subject hb) (previous ≫= dev_cert_subject);
  dev_cert_fingerprint := or_else (hb_cert_fingerprint hb) (previous ≫= dev_cert_fingerprint);
  dev_cert_serial := previous ≫= dev_cert_serial;
  dev_trust_score := or_else (hb_trust_score hb) (previous ≫= dev_trust_score);
  dev_last_seen := now;
  dev_revoked := match previous with Some d => dev_revoked d | None => false end;
  dev_platform := previous ≫= dev_platform;
  dev_user_identity := previous ≫= dev_user_identity;
  dev_enrolled_at := previous ≫= dev_enrolled_at;
  dev_token_hash := previous ≫= dev_token_hash;
  dev_capabilities := default [] (dev_capabilities <$> previous);
|}.

(** Insert, write the file, write to Redis: the end of the three updates. *)
Definition store_device (io : bool) (d : RegisteredDevice) (old : option string) (reg : DeviceRegistry)
    (r : RedisDb) : DeviceRegistry * RedisDb * bool :=
  let '(reg, file_ok) := persist_locked io (cache_device d reg) in
  let '(r, redis_ok) := redis_put_device reg d old r in
  (reg, r, file_ok || redis_ok).

Definition apply_heartbeat (now : N) (io : bool) (hb : HeartbeatUpdate) (reg : DeviceRegistry) (r : RedisDb)
    : DeviceRegistry * RedisDb * result bool HeartbeatError :=
  if str_is_empty (trim (hb_device_id hb)) then (reg, r, Err HbEmptyDeviceId)
  else if match hb_trust_score hb with Some score => (100 <? score)%N | None => false end then
    (reg, r, Err InvalidTrustScore)
  else
    let device := heartbeat_device now hb (reg_devices reg !! hb_device_id hb) in
    let '(reg, r, persisted) := store_device io device None reg r in
    (reg, r, Ok persisted).

Definition is_platform (p : string) : bool :=
  String.eqb p "linux" || String.eqb p "macos" || String.eqb p "windows".

Definition enroll_id (random_id : string) (req : EnrollRequest) : result string EnrollError :=
  match en_device_id req with
  | Some id =>
      let id := trim id in
      if str_is_empty id || str_contains id "/" then Err EnrollEmptyDeviceId else Ok id
  | None => Ok ("dev-" +:+ hex_encode random_id)
  end.

(** The record an enrolment leaves. *)
Definition enrolled_device (now : N) (id platform token_hash : string) (req : EnrollRequest)
    (previous : option RegisteredDevice) : RegisteredDevice := {|
  dev_id := id;
  dev_name := default id (or_else (non_blank (en_name req)) (dev_name <$> previous));
  dev_ip := default EmptyString (dev_ip <$> previous);
  dev_type := default "desktop" (or_else (known_kind (en_device_type req)) (dev_type <$> previous));
  dev_agent_status := default "healthy" (dev_agent_status <$> previous);
  dev_agent_version := previous ≫= dev_agent_version;
  dev_policy_version := previous ≫= dev_policy_version;
  dev_cert_subject := or_else (non_blank (en_cert_subject req)) (previous ≫= dev_cert_subject);
  dev_cert_fingerprint := or_else (non_blank (en_cert_fingerprint req)) (previous ≫= dev_cert_fingerprint);
  dev_cert_serial := or_else (non_blank (en_cert_serial req)) (previous ≫= dev_cert_serial);
  dev_trust_score := previous ≫= dev_trust_score;
  dev_last_seen := now;
  dev_revoked := false;
  dev_platform := Some platform;
  dev_user_identity := or_else (non_blank (en_user_identity req)) (previous ≫= dev_user_identity);
  dev_enrolled_at := Some now;
  dev_token_hash := Some token_hash;
  dev_capabilities :=
    match en_capabilities req with
    | [] => default ["local-proxy"%string] (dev_capabilities <$> previous)
    | cs => cs
    end;
|}.

(** [random_id] and [random] are the draws of the id, when none is given, and of
    the token. *)
Definition enroll (now : N) (random_id random : string) (io : bool) (req : EnrollRequest)
    (reg : DeviceRegistry) (r : RedisDb) : DeviceRegistry * RedisDb * result EnrollResult EnrollError :=
  let platform := to_ascii_lowercase (en_platform req) in
  if negb (is_platform platform) then (reg, r, Err InvalidPlatform)
  else
    match enroll_id random_id req with
    | Err e => (reg, r, Err e)
    | Ok id =>
        let previous := reg_devices reg !! id in
        if match previous with Some d => dev_revoked d | None => false end then
          (reg, r, Err EnrollRevoked)
        else
          let plaintext := generate_device_token random in
          let device := enrolled_device now id platform (hash_device_token plaintext) req previous in
          let '(reg, r, persisted) := store_device io device (previous ≫= dev_token_hash) reg r in
          (reg, r, Ok {|
            er_device_id := id; er_device_token := plaintext; er_platform := platform;
            er_enrolled_at := now; er_persisted := persisted; er_reenrolled := present previous;
            er_cert_subject := dev_cert_subject device;
            er_cert_fingerprint := dev_cert_fingerprint device;
            er_cert_serial := dev_cert_serial device |})
    end.

(** [devices.values().any(..)]. *)
Definition any_device (P : RegisteredDevice -> bool) (reg : DeviceRegistry) : bool :=
  existsb P (map_listing (reg_devices reg)).*2.

Definition field_is (o : option string) (value : string) : bool :=
  match o with Some h => constant_time_eq h value | None => false end.

Definition field_is_lower (o : option string) (value : string) : bool :=
  match o with Some h => constant_time_eq (to_ascii_lowercase h) value | None => false end.

(** The common shape of the three checks: the local table, then the index in
    Redis, whose device is cached. *)
Definition check_device (P : RegisteredDevice -> bool)
    (remote : RedisDb -> RedisDb * option RegisteredDevice) (reg : DeviceRegistry) (r : RedisDb)
    : DeviceRegistry * RedisDb * bool :=
  if any_device (fun d => negb (dev_revoked d) && P d) reg then (reg, r, true)
  else
    let '(r, found) := remote r in
    match found with
    | Some d => if negb (dev_revoked d) then (cache_device d reg, r, true) else (reg, r, false)
    | None => (reg, r, false)
    end.

Definition device_token_valid (token : string) (reg : DeviceRegistry) (r : RedisDb)
    : DeviceRegistry * RedisDb * bool :=
  if str_is_empty token then (reg, r, false)
  else
    let h := hash_device_token token in
    check_device (fun d => field_is (dev_token_hash d) h) (redis_get_by_token_hash reg h) reg r.

Definition cert_fingerprint_valid (fingerprint : string) (reg : DeviceRegistry) (r : RedisDb)
    : DeviceRegistry * RedisDb * bool :=
  if str_is_empty fingerprint then (reg, r, false)
  else
    let fp := to_ascii_lowercase fingerprint in
    check_device (fun d => field_is_lower (dev_cert_fingerprint d) fp) (redis_get_by_fp reg fp) reg r.

Definition cert_serial_valid (serial_hex : string) (reg : DeviceRegistry) (r : RedisDb)
    : DeviceRegistry * RedisDb * bool :=
  if str_is_empty serial_hex then (reg, r, false)
  else
    let s := to_ascii_lowercase serial_hex in
    check_device (fun d => field_is_lower (dev_cert_serial d) s) (redis_get_by_serial reg s) reg r.

Definition cert_fingerprint_known (fingerprint : string) (reg : DeviceRegistry) (r : RedisDb)
    : RedisDb * bool :=
  if str_is_empty fingerprint then (r, false)
  else
    let fp := to_ascii_lowercase fingerprint in
    if any_device (fun d => field_is_lower (dev_cert_fingerprint d) fp) reg then (r, true)
    else let '(r, found) := redis_get_by_fp reg fp r in (r, present found).

Definition cert_serial_known (serial_hex : string) (reg : DeviceRegistry) (r : RedisDb) : RedisDb * bool :=
  if str_is_empty serial_hex then (r, false)
  else
    let s := to_ascii_lowercase serial_hex in
    if any_device (fun d => field_is_lower (dev_cert_serial d) s) reg then (r, true)
    else let '(r, found) := redis_get_by_serial reg s r in (r, present found).

Definition revoked_device (d : RegisteredDevice) : RegisteredDevice := {|
  dev_id := dev_id d; dev_name := dev_name d; dev_ip := dev_ip d; dev_type := dev_type d;
  dev_agent_status := dev_agent_status d; dev_agent_version := dev_agent_version d;
  dev_policy_version := dev_policy_version d; dev_cert_subject := dev_cert_subject d;
  dev_cert_fingerprint := dev_cert_fingerprint d; dev_cert_serial := dev_cert_serial d;
  dev_trust_score := dev_trust_score d; dev_last_seen := dev_last_seen d; dev_revoked := true;
  dev_platform := dev_platform d; dev_user_identity := dev_user_identity d;
  dev_enrolled_at := dev_enrolled_at d; dev_token_hash := None;
  dev_capabilities := dev_capabilities d |}.

(** [get_mut] changes the record under its key. *)
Definition revoke (io : bool) (id : string) (reg : DeviceRegistry) (r : RedisDb)
    : DeviceRegistry * RedisDb * result (bool * option string * option string) RevokeError :=
  if str_is_empty id || str_contains id "/" then (reg, r, Err InvalidId)
  else
    let '(reg, r) :=
      match reg_devices reg !! id with
      | Some _ => (reg, r)
      | None =>
          let '(r, remote) := redis_get_device reg id r in
          match remote with
          | Some d => (cache_device d reg, r)
          | None => (reg, r)
          end
      end in
    match reg_devices reg !! id with
    | None => (reg, r, Err RevokeNotFound)
    | Some d =>
        let stored := revoked_device d in
        let reg := with_devices (<[id := stored]> (reg_devices reg)) reg in
        let '(reg, file_ok) := persist_locked io reg in
        let '(r, redis_ok) := redis_put_device reg stored (dev_token_hash d) r in
        (reg, r, Ok (file_ok || redis_ok, dev_cert_fingerprint d, dev_cert_serial d))
    end.

(** The rows, most recently seen first; the sort is stable. *)
Definition list_api_rows (reg : DeviceRegistry) (r : RedisDb) : DeviceRegistry * RedisDb * list ApiRow :=
  let '(reg, r, _) := pull_from_redis reg r in
  (reg, r, sort_desc (fun row => dev_last_seen (row_device row)) (to_api_row <$> (map_listing (reg_devices reg)).*2)).

End registry.

(** ** Sequences of calls *)

Inductive RegOp :=
  | OpHeartbeat (now : N) (io : bool) (hb : HeartbeatUpdate)
  | OpEnroll (now : N) (random_id random : string) (io : bool) (req : EnrollRequest)
  | OpRevoke (io : bool) (id : string)
  | OpToken (token : string)
  | OpFingerprint (fp : string)
  | OpSerial (serial : string)
  | OpList.

Inductive RegAnswer :=
  | AnsHeartbeat (res : result bool HeartbeatError)
  | AnsEnroll (res : result EnrollResult EnrollError)
  | AnsRevoke (res : result (bool * option string * option string) RevokeError)
  | AnsValid (ok : bool)
  | AnsRows (rows : list ApiRow).

Section calls.
Context {SH : Sha256} {DJ : DeviceJson} {MO : MapOrder}.
Context (fate : N -> Fate).

Definition reg_step (op : RegOp) (reg : DeviceRegistry) (r : RedisDb) : DeviceRegistry * RedisDb * RegAnswer :=
  match op with
  | OpHeartbeat now io hb => let '(reg, r, a) := apply_heartbeat fate now io hb reg r in (reg, r, AnsHeartbeat a)
  | OpEnroll now rid rnd io req => let '(reg, r, a) := enroll fate now rid rnd io req reg r in (reg, r, AnsEnroll a)
  | OpRevoke io id => let '(reg, r, a) := revoke fate io id reg r in (reg, r, AnsRevoke a)
  | OpToken t => let '(reg, r, b) := device_token_valid fate t reg r in (reg, r, AnsValid b)
  | OpFingerprint fp => let '(reg, r, b) := cert_fingerprint_valid fate fp reg r in (reg, r, AnsValid b)
  | OpSerial s => let '(reg, r, b) := cert_serial_valid fate s reg r in (reg, r, AnsValid b)
  | OpList => let '(reg, r, rows) := list_api_rows fate reg r in (reg, r, AnsRows rows)
  end.

Fixpoint reg_run (ops : list RegOp) (reg : DeviceRegistry) (r : RedisDb)
    : DeviceRegistry * RedisDb * list RegAnswer :=
  match ops with
  | [] => (reg, r, [])
  | op :: ops =>
      let '(reg, r, a) := reg_step op reg r in
      let '(reg, r, l) := reg_run ops reg r in
      (reg, r, a :: l)
  end.

End calls.

(** ** What the registry promises of tokens

    A device is unknown, known without a token, active with the token of its last
    enrolment, or banned for good. *)

Inductive Standing := Unenrolled | Active (token : string) | Banned.

#[global] Instance Standing_eq_dec : EqDecision Standing.
Proof. solve_decision. Defined.

Inductive TokenAnswer :=
  | Issued (id token : string)
  | Refusal (e : EnrollError)
  | BanOk
  | BanFailed (e : RevokeError)
  | Accepted (ok : bool)
  | Other.

Section promise.
Context {SH : Sha256}.

Definition spec_has (t : string) (st : gmap string Standing) : bool :=
  bool_decide (map_Exists (fun _ s => s = Active t) st).

Definition spec_step (op : RegOp) (st : gmap string Standing) : gmap string Standing * TokenAnswer :=
  match op with
  | OpHeartbeat _ _ hb =>
      if str_is_empty (trim (hb_device_id hb))
         || match hb_trust_score hb with Some score => (100 <? score)%N | None => false end
      then (st, Other)
      else (match st !! hb_device_id hb with
            | Some _ => st
            | None => <[hb_device_id hb := Unenrolled]> st
            end, Other)
  | OpEnroll _ rid rnd _ req =>
      if negb (is_platform (to_ascii_lowercase (en_platform req))) then (st, Refusal InvalidPlatform)
      else
        match enroll_id rid req with
        | Err e => (st, Refusal e)
        | Ok id =>
            match st !! id with
            | Some Banned => (st, Refusal EnrollRevoked)
            | _ => (<[id := Active (generate_device_token rnd)]> st, Issued id (generate_device_token rnd))
            end
        end
  | OpRevoke _ id =>
      if str_is_empty id || str_contains id "/" then (st, BanFailed InvalidId)
      else
        match st !! id with
        | None => (st, BanFailed RevokeNotFound)
        | Some _ => (<[id := Banned]> st, BanOk)
        end
  | OpToken t => (st, Accepted (negb (str_is_empty t) && spec_has t st))
  | OpFingerprint _ | OpSerial _ | OpList => (st, Other)
  end.

Fixpoint spec_run (ops : list RegOp) (st : gmap string Standing) : list TokenAnswer :=
  match ops with
  | [] => []
  | op :: ops => let '(st, a) := spec_step op st in a :: spec_run ops st
  end.

(** What an answer says of tokens. *)
Definition token_answer (op : RegOp) (a : RegAnswer) : TokenAnswer :=
  match op, a with
  | _, AnsEnroll (Ok e) => Issued (er_device_id e) (er_device_token e)
  | _, AnsEnroll (Err e) => Refusal e
  | _, AnsRevoke (Ok _) => BanOk
  | _, AnsRevoke (Err e) => BanFailed e
  | OpToken _, AnsValid b => Accepted b
  | _, _ => Other
  end.

(** The tokens a sequence issues or presents. *)
Definition op_token (op : RegOp) : option string :=
  match op with
  | OpEnroll _ _ rnd _ _ => Some (generate_device_token rnd)
  | OpToken t => Some t
  | _ => None
  end.

(** No two of them have the same digest. *)
Definition collision_free (tokens : list string) : Prop :=
  forall t t', t ∈ tokens -> t' ∈ tokens -> hash_device_token t = hash_device_token t' -> t = t'.

(** A record shows the standing of its device. *)
Definition shows (tokens : list string) (d : option RegisteredDevice) (s : option Standing) : Prop :=
  match d, s with
  | None, None => True
  | Some d, Some Unenrolled => dev_revoked d = false /\ dev_token_hash d = None
  | Some d, Some (Active t) =>
      t ∈ tokens /\ dev_revoked d = false /\ dev_token_hash d = Some (hash_device_token t)
  | Some d, Some Banned => dev_revoked d = true /\ dev_token_hash d = None
  | _, _ => False
  end.

Definition registry_shows (tokens : list string) (reg : DeviceRegistry) (st : gmap string Standing) : Prop :=
  reg_redis reg = None /\ forall id, shows tokens (reg_devices reg !! id) (st !! id).

End promise.

(** ** Lemmas *)

Section lemmas.
Context {SH : Sha256} {DJ : DeviceJson} {MO : MapOrder} {MOL : MapOrderLaws}.
Context (fate : N -> Fate).

Lemma listing_values_elem {A} (m : gmap string A) x :
  x ∈ (map_listing m).*2 <-> exists k, m !! k = Some x.
Proof.
  rewrite (map_listing_perm A m), list_elem_of_fmap. split.
  - intros ([k y] & -> & H%elem_of_map_to_list). by exists k.
  - intros [k H]. exists (k, x). by rewrite elem_of_map_to_list.
Qed.

Lemma any_device_true P reg :
  any_device P reg = true <-> exists id d, reg_devices reg !! id = Some d /\ P d = true.
Proof.
  unfold any_device. rewrite existsb_exists. split.
  - intros (d & [id H]%list_elem_of_In%listing_values_elem & HP). by exists id, d.
  - intros (id & d & H & HP). exists d. split; [|done]. apply list_elem_of_In, listing_values_elem. by exists id.
Qed.

Lemma persist_locked_devices io reg : reg_devices (persist_locked io reg).1 = reg_devices reg.
Proof. unfold persist_locked. repeat case_match; done. Qed.

Lemma persist_locked_redis io reg : reg_redis (persist_locked io reg).1 = reg_redis reg.
Proof. unfold persist_locked. repeat case_match; done. Qed.

(** Storing a device in a node of its own. *)
Lemma store_device_local io d old reg r :
  reg_redis reg = None ->
  exists reg' b, store_device fate io d old reg r = (reg', r, b) /\ reg_redis reg' = None
    /\ reg_devices reg' = <[dev_id d := d]> (reg_devices reg).
Proof.
  intros Hr. unfold store_device.
  pose proof (persist_locked_devices io (cache_device d reg)) as Hd.
  pose proof (persist_locked_redis io (cache_device d reg)) as Hn.
  destruct (persist_locked io (cache_device d reg)) as [reg' b]; simpl in *.
  unfold redis_put_device. rewrite Hn, Hr. exists reg', (b || false). by rewrite Hn.
Qed.

Lemma field_is_true o v : field_is o v = true <-> o = Some v.
Proof.
  destruct o as [h|]; simpl; [|by split]. rewrite constant_time_eq_true. split; [by intros ->|by intros [= ->]].
Qed.

Lemma check_device_local P remote reg r :
  (forall r, remote r = (r, None)) ->
  check_device P remote reg r = (reg, r, any_device (fun d => negb (dev_revoked d) && P d) reg).
Proof. intros H. unfold check_device. case_match; [done|]. by rewrite H. Qed.

Lemma get_indexed_local key_of reg r :
  reg_redis reg = None -> redis_get_indexed fate key_of reg r = (r, None).
Proof. intros H. unfold redis_get_indexed. by rewrite H. Qed.

Lemma shows_insert tokens reg reg' st id d s :
  registry_shows tokens reg st -> reg_redis reg' = None ->
  reg_devices reg' = <[id := d]> (reg_devices reg) -> shows tokens (Some d) (Some s) ->
  registry_shows tokens reg' (<[id := s]> st).
Proof.
  intros [_ Hs] Hr Hd Hnew. split; [done|]. intros i. rewrite Hd.
  destruct (decide (i = id)) as [->|Hi]; [by rewrite !lookup_insert_eq|]. by rewrite !lookup_insert_ne.
Qed.

(** A heartbeat leaves the standing of its device. *)
Lemma heartbeat_shows tokens reg reg' st now hb :
  registry_shows tokens reg st -> reg_redis reg' = None ->
  reg_devices reg' = <[hb_device_id hb := heartbeat_device now hb (reg_devices reg !! hb_device_id hb)]> (reg_devices reg) ->
  registry_shows tokens reg'
    match st !! hb_device_id hb with Some _ => st | None => <[hb_device_id hb := Unenrolled]> st end.
Proof.
  intros Hs Hr Hd. pose proof (proj2 Hs (hb_device_id hb)) as Hi.
  destruct (st !! hb_device_id hb) as [s|] eqn:Es.
  - replace st with (<[hb_device_id hb := s]> st) by (by apply insert_id).
    eapply shows_insert; [done..|]. revert Hi. destruct (reg_devices reg !! hb_device_id hb); [|done]. by destruct s.
  - eapply shows_insert; [done..|]. revert Hi. by destruct (reg_devices reg !! hb_device_id hb).
Qed.

Lemma spec_has_true t st : spec_has t st = true <-> exists id, st !! id = Some (Active t).
Proof.
  unfold spec_has. rewrite bool_decide_eq_true. split.
  - intros (id & s & H & ->). by exists id.
  - intros [id H]. by exists id, (Active t).
Qed.

Lemma token_accepted tokens reg st t :
  registry_shows tokens reg st -> collision_free tokens -> t ∈ tokens ->
  any_device (fun d => negb (dev_revoked d) && field_is (dev_token_hash d) (hash_device_token t)) reg
  = spec_has t st.
Proof.
  intros [_ Hs] Hc Ht. apply eq_true_iff_eq. rewrite any_device_true, spec_has_true. split.
  - intros (id & d & Hd & [Hr%negb_true_iff Hf%field_is_true]%andb_true_iff). exists id.
    specialize (Hs id). rewrite Hd in Hs. destruct (st !! id) as [[|t'|]|]; simpl in Hs; [| |naive_solver..].
    + naive_solver.
    + destruct Hs as (Ht' & _ & Hh). rewrite Hf in Hh. injection Hh as Hh. f_equal. f_equal. by apply Hc.
  - intros [id Hid]. specialize (Hs id). rewrite Hid in Hs.
    destruct (reg_devices reg !! id) as [d|] eqn:Hd; [|done]. simpl in Hs. destruct Hs as (_ & Hr & Hh).
    exists id, d. split; [done|]. by rewrite Hr, Hh, (proj2 (field_is_true _ _) eq_refl).
Qed.

(** One call follows the promise. *)
Definition follows (tokens : list string) (op : RegOp) (reg : DeviceRegistry) (r : RedisDb)
    (st : gmap string Standing) : Prop :=
  exists reg' a, reg_step fate op reg r = (reg', r, a)
    /\ registry_shows tokens reg' (spec_step op st).1 /\ token_answer op a = (spec_step op st).2.

Lemma heartbeat_follows tokens now io hb reg r st :
  registry_shows tokens reg st -> follows tokens (OpHeartbeat now io hb) reg r st.
Proof.
  intros Hs. unfold follows; cbn [reg_step spec_step]. unfold apply_heartbeat.
  destruct (str_is_empty (trim (hb_device_id hb))); [by eexists _, _|]. cbn [orb].
  destruct (match hb_trust_score hb with Some _ => _ | None => _ end); [by eexists _, _|].
  edestruct (store_device_local io) as (reg' & b & -> & Hr & Hd); [apply Hs|].
  eexists reg', _. split; [done|]. split; [|done]. by eapply heartbeat_shows.
Qed.

Lemma enroll_follows tokens now rid rnd io req reg r st :
  registry_shows tokens reg st -> generate_device_token rnd ∈ tokens ->
  follows tokens (OpEnroll now rid rnd io req) reg r st.
Proof.
  intros Hs Ht. unfold follows; cbn [reg_step spec_step]. unfold enroll.
  destruct (is_platform _); [|by eexists _, _]. cbn [negb].
  destruct (enroll_id rid req) as [id|e]; [|by eexists _, _].
  pose proof (proj2 Hs id) as Hi.
  destruct (match reg_devices reg !! id with Some d => dev_revoked d | None => false end) eqn:Er.
  - assert (st !! id = Some Banned) as ->; [|by eexists _, _].
    destruct (reg_devices reg !! id) as [d|], (st !! id) as [[]|]; simpl in Hi; naive_solver congruence.
  - assert (st !! id <> Some Banned).
    { intros E. rewrite E in Hi. destruct (reg_devices reg !! id); simpl in Hi; naive_solver congruence. }
    edestruct (store_device_local io) as (reg' & b & -> & Hr & Hd); [apply Hs|].
    assert (registry_shows tokens reg' (<[id := Active (generate_device_token rnd)]> st))
      by (by eapply shows_insert).
    eexists reg', _. split; [done|]. destruct (st !! id) as [[]|]; done.
Qed.

Lemma revoke_follows tokens io id reg r st :
  registry_shows tokens reg st -> follows tokens (OpRevoke io id) reg r st.
Proof.
  intros Hs. unfold follows; cbn [reg_step spec_step]. unfold revoke.
  destruct (str_is_empty id || str_contains id "/"); [by eexists _, _|].
  pose proof (proj2 Hs id) as Hi. destruct (reg_devices reg !! id) as [d|] eqn:Hd.
  - rewrite Hd. set (reg1 := with_devices _ reg).
    pose proof (persist_locked_devices io reg1) as Hp. pose proof (persist_locked_redis io reg1) as Hn.
    destruct (persist_locked io reg1) as [reg2 b]; simpl in Hp, Hn.
    unfold redis_put_device. rewrite Hn, (proj1 Hs). eexists reg2, _. split; [done|].
    destruct (st !! id); [|done]. split; [|done]. eapply shows_insert; [done| |done|done].
    rewrite Hn. apply Hs.
  - unfold redis_get_device. rewrite (proj1 Hs), Hd. destruct (st !! id); [done|]. by eexists _, _.
Qed.

Lemma reg_step_follows tokens op reg r st :
  registry_shows tokens reg st -> collision_free tokens ->
  (forall t, op_token op = Some t -> t ∈ tokens) -> follows tokens op reg r st.
Proof.
  intros Hs Hc Ht. destruct op; [by apply heartbeat_follows|by apply enroll_follows, Ht|by apply revoke_follows|..].
  - unfold follows; cbn [reg_step spec_step]. unfold device_token_valid.
    destruct (str_is_empty token); [by eexists _, _|].
    rewrite check_device_local by (intros; apply get_indexed_local, Hs).
    rewrite (token_accepted tokens _ st) by auto. by eexists _, _.
  - unfold follows; cbn [reg_step]. unfold cert_fingerprint_valid. destruct (str_is_empty fp); [by eexists _, _|].
    rewrite check_device_local by (intros; apply get_indexed_local, Hs). by eexists _, _.
  - unfold follows; cbn [reg_step]. unfold cert_serial_valid. destruct (str_is_empty serial); [by eexists _, _|].
    rewrite check_device_local by (intros; apply get_indexed_local, Hs). by eexists _, _.
  - unfold follows; cbn [reg_step]. unfold list_api_rows, pull_from_redis. rewrite (proj1 Hs). by eexists _, _.
Qed.

Lemma reg_run_follows tokens ops reg r st :
  registry_shows tokens reg st -> collision_free tokens ->
  (forall t, t ∈ omap op_token ops -> t ∈ tokens) ->
  zip_with token_answer ops (reg_run fate ops reg r).2 = spec_run ops st.
Proof.
  intros Hs Hc. revert reg st Hs. induction ops as [|op ops IH]; intros reg st Hs Ht; [done|].
  cbn [reg_run spec_run]. destruct (reg_step_follows tokens op reg r st) as (reg' & a & -> & Hs' & Ha); [done..| |].
  { intros t E. apply Ht. simpl. rewrite E. left. }
  destruct (spec_step op st) as [st' a']; simpl in Hs', Ha.
  specialize (IH reg' st' Hs'). destruct (reg_run fate ops reg' r) as [[reg'' r'] l]. simpl in *.
  rewrite Ha, IH; [done|]. intros t E. apply Ht. destruct (op_token op); [by right|done].
Qed.

(** *** Merging the shared store *)

(** What the store says of a device, under the key of its id. *)
Definition store_keyed (prefix : string) (r : RedisDb) : Prop :=
  forall field json d, hash_of (devices_hash prefix) r !! field = Some json ->
    device_from_json json = Some d -> dev_id d = field.

Lemma merge_keeps jsons m n id l :
  m !! id = Some l ->
  (forall json d, json ∈ jsons -> device_from_json json = Some d -> dev_id d = id ->
     (dev_last_seen d <= dev_last_seen l)%N) ->
  (foldl merge_device (m, n) jsons).1 !! id = Some l.
Proof.
  revert m n. induction jsons as [|json jsons IH]; intros m n Hm Hold; [done|]. cbn [foldl].
  assert (Hrest : forall json' d, json' ∈ jsons -> device_from_json json' = Some d -> dev_id d = id ->
    (dev_last_seen d <= dev_last_seen l)%N) by (intros json' d Hin; apply (Hold json'); by right).
  cbn [merge_device]. destruct (device_from_json json) as [d|] eqn:Hj; [|by apply IH].
  destruct (str_is_empty (trim (dev_id d))); [by apply IH|].
  destruct (decide (dev_id d = id)) as [<-|Hne].
  - rewrite Hm. destruct (N.leb_spec (dev_last_seen d) (dev_last_seen l)); [by apply IH|].
    assert (dev_last_seen d <= dev_last_seen l)%N by (apply (Hold json); [left|done..]). lia.
  - destruct (m !! dev_id d) as [l'|]; [case_match|]; apply IH; try done; by rewrite lookup_insert_ne.
Qed.

Lemma merge_takes jsons m n d :
  str_is_empty (trim (dev_id d)) = false ->
  (exists json, json ∈ jsons /\ device_from_json json = Some d) ->
  (forall json d', json ∈ jsons -> device_from_json json = Some d' -> dev_id d' = dev_id d -> d' = d) ->
  (forall l, m !! dev_id d = Some l -> l = d \/ (dev_last_seen l < dev_last_seen d)%N) ->
  (foldl merge_device (m, n) jsons).1 !! dev_id d = Some d.
Proof.
  intros Hblank. revert m n. induction jsons as [|json jsons IH]; intros m n (json' & Hin & Hj') Huniq Hm; [by apply not_elem_of_nil in Hin|].
  cbn [foldl].
  assert (Hrest : forall json' d', json' ∈ jsons -> device_from_json json' = Some d' -> dev_id d' = dev_id d -> d' = d)
    by (intros json'' d' Hin'; apply (Huniq json''); by right).
  destruct (decide (device_from_json json = Some d)) as [Hj|Hj].
  - cbn [merge_device]. rewrite Hj, Hblank.
    assert (Hkeep : forall m n, m !! dev_id d = Some d -> (foldl merge_device (m, n) jsons).1 !! dev_id d = Some d).
    { intros m' n' Hd. apply merge_keeps; [done|]. intros j d' Hi Hf Hid. by rewrite (Hrest j d'). }
    destruct (m !! dev_id d) as [l|] eqn:Hl; [|apply Hkeep, lookup_insert_eq].
    destruct (Hm l eq_refl) as [->|Hlt]; [by rewrite N.leb_refl; apply Hkeep|].
    rewrite (proj2 (N.leb_gt _ _) Hlt). apply Hkeep, lookup_insert_eq.
  - assert (Hin' : json' ∈ jsons) by (apply elem_of_cons in Hin as [->|]; done).
    assert (IH' := fun m n => IH m n (ex_intro _ json' (conj Hin' Hj')) Hrest).
    cbn [merge_device]. destruct (device_from_json json) as [d'|] eqn:Hd'; [|by apply IH'].
    destruct (str_is_empty (trim (dev_id d'))); [by apply IH'|].
    assert (dev_id d' <> dev_id d).
    { intros E. apply Hj. f_equal. apply (Huniq json); [left|done..]. }
    destruct (m !! dev_id d') as [l'|]; [case_match|]; apply IH'; try done; by rewrite lookup_insert_ne.
Qed.

(** *** The file *)

(** Records lie under their ids, which are not blank. *)
Definition devices_keyed (m : gmap string RegisteredDevice) : Prop :=
  forall id d, m !! id = Some d -> dev_id d = id /\ str_is_empty (trim id) = false.

Lemma load_fold_lookup l (m : gmap string RegisteredDevice) id x :
  (forall d, d ∈ l -> str_is_empty (trim (dev_id d)) = false) ->
  (forall d, d ∈ l -> dev_id d = id -> Some d = x) ->
  (m !! id = x \/ exists d, d ∈ l /\ dev_id d = id) ->
  foldl load_device m l !! id = x.
Proof.
  revert m. induction l as [|d l IH]; intros m Hb Hu Hx.
  - destruct Hx as [Hx|(d & Hd & _)]; [done|by apply not_elem_of_nil in Hd].
  - cbn [foldl]. unfold load_device at 2. rewrite (Hb d) by left. apply IH.
    + intros d' Hd'. apply Hb. by right.
    + intros d' Hd'. apply Hu. by right.
    + destruct (decide (dev_id d = id)) as [<-|Hne].
      * left. rewrite lookup_insert_eq. apply Hu; [left|done].
      * rewrite lookup_insert_ne by done. destruct Hx as [Hx|(d' & Hd' & Hid)]; [by left|right].
        exists d'. apply elem_of_cons in Hd' as [->|]; done.
Qed.

Lemma listing_values_size {A} (m : gmap string A) : length (map_listing m).*2 = size m.
Proof. by rewrite length_fmap, (map_listing_perm A m), length_map_to_list. Qed.

(** What was saved is loaded. *)
Lemma load_saved {JL : DeviceJsonLaws DJ} m payload :
  devices_keyed m -> save_payload m = Ok payload -> load_devices (Some (Ok payload)) = Ok m.
Proof.
  intros Hk. unfold save_payload. destruct (N.ltb_spec MAX_DEVICES (N.of_nat (size m))) as [|Hs]; [done|].
  set (l := merge_sort id_le _). destruct (devices_json_some {| df_version := FILE_VERSION; df_devices := l |})
    as (j & -> & Hj & Hb). intros [= <-].
  assert (Hl : l ≡ₚ (map_listing m).*2) by (unfold l; apply merge_sort_Permutation).
  assert (Hin : forall d, d ∈ l <-> m !! dev_id d = Some d).
  { intros d. rewrite Hl, listing_values_elem. split; [|eauto]. intros [k Hd]. by rewrite (proj1 (Hk k d Hd)). }
  unfold load_devices. rewrite Hb, Hj. cbn [df_version df_devices]. rewrite N.eqb_refl. cbn [negb].
  rewrite Hl, listing_values_size at 1.
  destruct (N.ltb_spec MAX_DEVICES (N.of_nat (size m))); [lia|]. f_equal. apply map_eq. intros id.
  apply load_fold_lookup.
  - intros d Hd%Hin. apply (Hk _ _ Hd).
  - intros d Hd%Hin <-. done.
  - destruct (m !! id) as [d|] eqn:Hd; [|by left]. right. exists d.
    pose proof (proj1 (Hk id d Hd)) as <-. by rewrite Hin.
Qed.

(** A node of its own: no Redis, and records under their ids. *)
Definition own_registry (reg : DeviceRegistry) : Prop :=
  reg_redis reg = None /\ devices_keyed (reg_devices reg).

Lemma keyed_insert m d :
  devices_keyed m -> str_is_empty (trim (dev_id d)) = false -> devices_keyed (<[dev_id d := d]> m).
Proof. intros Hk Hb id d' [(<- & <-)|(_ & Hd)]%lookup_insert_Some; [done|by apply Hk]. Qed.

(** A successful write leaves a file that loads as the table. *)
Lemma persist_loads {JL : DeviceJsonLaws DJ} io reg reg' :
  devices_keyed (reg_devices reg) -> persist_locked io reg = (reg', true) ->
  load_devices (Ok <$> reg_file reg') = Ok (reg_devices reg').
Proof.
  intros Hk. unfold persist_locked. destruct (reg_path reg); [|done].
  destruct (save_payload (reg_devices reg)) as [payload|] eqn:Hs; [|done]. destruct io; [|done].
  intros [= <-]. by apply load_saved.
Qed.

(** Storing, and what it says of the file. *)
Lemma store_device_own {JL : DeviceJsonLaws DJ} io d old reg r :
  own_registry reg -> str_is_empty (trim (dev_id d)) = false ->
  exists reg' b, store_device fate io d old reg r = (reg', r, b) /\ own_registry reg'
    /\ (b = true -> load_devices (Ok <$> reg_file reg') = Ok (reg_devices reg')).
Proof.
  intros [Hr Hk] Hb. unfold store_device.
  pose proof (persist_locked_devices io (cache_device d reg)) as Hd.
  pose proof (persist_locked_redis io (cache_device d reg)) as Hn.
  destruct (persist_locked io (cache_device d reg)) as [reg' b] eqn:Hp; simpl in Hd, Hn.
  assert (Hk' : devices_keyed (<[dev_id d := d]> (reg_devices reg))) by (by apply keyed_insert).
  unfold redis_put_device. rewrite Hn, Hr. exists reg', (b || false). split; [done|]. split.
  - split; [by rewrite Hn|by rewrite Hd].
  - rewrite orb_false_r. intros ->. eapply persist_loads; [|exact Hp]. exact Hk'.
Qed.

Definition persisted (a : RegAnswer) : bool :=
  match a with
  | AnsHeartbeat (Ok b) => b
  | AnsEnroll (Ok e) => er_persisted e
  | AnsRevoke (Ok (b, _, _)) => b
  | _ => false
  end.

(** One call on a node of its own keeps the shape of its table; when it says it
    persisted, the file loads as the table. *)
Definition durable_step (op : RegOp) (reg : DeviceRegistry) (r : RedisDb) : Prop :=
  exists reg' a, reg_step fate op reg r = (reg', r, a) /\ own_registry reg'
    /\ (persisted a = true -> load_devices (Ok <$> reg_file reg') = Ok (reg_devices reg')).

Lemma enroll_id_not_blank rid req id :
  enroll_id rid req = Ok id -> str_is_empty (trim id) = false.
Proof.
  unfold enroll_id. destruct (en_device_id req) as [i|].
  - destruct (str_is_empty (trim i)) eqn:Hi; [done|]. destruct (str_contains _ _); [done|].
    intros [= <-]. by rewrite trim_idemp.
  - intros [= <-]. unfold trim.
    change (str_is_empty (trim_end (String "d" ("ev-" +:+ hex_encode rid))) = false). by rewrite trim_end_cons.
Qed.

Lemma revoke_durable {JL : DeviceJsonLaws DJ} io id reg r :
  own_registry reg -> durable_step (OpRevoke io id) reg r.
Proof.
  intros [Hr Hk]. unfold durable_step; cbn [reg_step]. unfold revoke.
  destruct (str_is_empty id || str_contains id "/"); [by eexists _, _|].
  destruct (reg_devices reg !! id) as [d|] eqn:Hd.
  - rewrite Hd. set (reg1 := with_devices _ reg). destruct (Hk id d Hd) as [Hid Hb].
    assert (Hk1 : devices_keyed (reg_devices reg1)).
    { unfold reg1. rewrite <- Hid in Hb |- *. by apply (keyed_insert _ (revoked_device d)). }
    pose proof (persist_locked_devices io reg1) as Hm. pose proof (persist_locked_redis io reg1) as Hn.
    destruct (persist_locked io reg1) as [reg2 b] eqn:Hp; simpl in Hm, Hn.
    unfold redis_put_device. rewrite Hn, Hr. eexists reg2, _. split; [done|]. split.
    + split; [by rewrite Hn|by rewrite Hm].
    + cbn [persisted]. rewrite orb_false_r. intros ->. by eapply persist_loads.
  - unfold redis_get_device. rewrite Hr, Hd. by eexists _, _.
Qed.

Lemma reg_step_durable {JL : DeviceJsonLaws DJ} op reg r :
  own_registry reg -> durable_step op reg r.
Proof.
  intros Hown. destruct op; unfold durable_step; cbn [reg_step]; [| |by apply revoke_durable|..].
  - unfold apply_heartbeat. destruct (str_is_empty (trim (hb_device_id hb))) eqn:Hb; [by eexists _, _|].
    destruct (match hb_trust_score hb with Some _ => _ | None => _ end); [by eexists _, _|].
    edestruct (store_device_own io) as (reg' & b & -> & Ho & Hf); [done| |by eexists _, _]. done.
  - unfold enroll. destruct (is_platform _); [|by eexists _, _]. cbn [negb].
    destruct (enroll_id random_id req) as [id|e] eqn:Hid; [|by eexists _, _].
    destruct (match reg_devices reg !! id with Some _ => _ | None => _ end); [by eexists _, _|].
    apply enroll_id_not_blank in Hid.
    edestruct (store_device_own io) as (reg' & b & -> & Ho & Hf); [done| |by eexists _, _]. done.
  - unfold device_token_valid. destruct (str_is_empty token); [by eexists _, _|].
    rewrite check_device_local by (intros; apply get_indexed_local, Hown). by eexists _, _.
  - unfold cert_fingerprint_valid. destruct (str_is_empty fp); [by eexists _, _|].
    rewrite check_device_local by (intros; apply get_indexed_local, Hown). by eexists _, _.
  - unfold cert_serial_valid. destruct (str_is_empty serial); [by eexists _, _|].
    rewrite check_device_local by (intros; apply get_indexed_local, Hown). by eexists _, _.
  - unfold list_api_rows, pull_from_redis. rewrite (proj1 Hown). by eexists _, _.
Qed.

Lemma reg_run_own {JL : DeviceJsonLaws DJ} ops reg r :
  own_registry reg -> own_registry (reg_run fate ops reg r).1.1.
Proof.
  revert reg r. induction ops as [|op ops IH]; intros reg r Hown; [done|]. cbn [reg_run].
  destruct (reg_step_durable op reg r Hown) as (reg' & a & -> & Ho & _).
  specialize (IH reg' r Ho). by destruct (reg_run fate ops reg' r) as [[reg'' r'] l].
Qed.

(** *** With Redis up *)

Hypothesis up : forall n, fate n = Done.

Lemma redis_write_up f r : redis_write fate f r = (redis_tick (f r), true).
Proof. unfold redis_write. by rewrite up. Qed.

Lemma redis_key_writes_up h r k v :
  hash_of h (redis_set fate k v r).1 = hash_of h r /\ hash_of h (redis_del fate k r).1 = hash_of h r.
Proof. unfold redis_set, redis_del. by rewrite !redis_write_up. Qed.

Lemma hset_up h f v r :
  exists r', hset fate h f v r = (r', true) /\ hash_of h r' = <[f := v]> (hash_of h r).
Proof.
  unfold hset. rewrite redis_write_up. eexists; split; [done|]. unfold hash_of at 1. simpl.
  by rewrite lookup_insert_eq.
Qed.

Lemma put_device_up reg prefix d json old r :
  reg_redis reg = Some prefix -> device_to_json d = Some json ->
  exists r', redis_put_device fate reg d old r = (r', true)
    /\ hash_of (devices_hash prefix) r' = <[dev_id d := json]> (hash_of (devices_hash prefix) r).
Proof.
  intros Hp Hj. unfold redis_put_device. rewrite Hp, Hj.
  destruct (hset_up (devices_hash prefix) (dev_id d) json r) as (r1 & -> & <-). cbn [negb].
  eexists; split; [done|].
  repeat case_match; rewrite ?(proj1 (redis_key_writes_up _ _ _ _)), ?(proj2 (redis_key_writes_up _ _ _ EmptyString)); done.
Qed.

Lemma pull_up reg prefix r :
  reg_redis reg = Some prefix ->
  exists reg' n, pull_from_redis fate reg r = (reg', redis_tick r, n) /\ reg_redis reg' = Some prefix
    /\ reg_devices reg'
       = (foldl merge_device (reg_devices reg, 0%N) (map_listing (hash_of (devices_hash prefix) r)).*2).1.
Proof.
  intros Hp. unfold pull_from_redis, hgetall, redis_read. rewrite Hp, up.
  destruct (foldl merge_device _ _) as [m n]. eexists _, n. by split.
Qed.

(** A node keeps its record when the store's is not newer, and takes a newer one. *)
Lemma pull_keeps reg prefix r id l :
  reg_redis reg = Some prefix -> store_keyed prefix r -> reg_devices reg !! id = Some l ->
  (forall json d, hash_of (devices_hash prefix) r !! id = Some json -> device_from_json json = Some d ->
     (dev_last_seen d <= dev_last_seen l)%N) ->
  exists reg' n, pull_from_redis fate reg r = (reg', redis_tick r, n) /\ reg_redis reg' = Some prefix
    /\ reg_devices reg' !! id = Some l.
Proof.
  intros Hp Hk Hl Hold. destruct (pull_up reg prefix r Hp) as (reg' & n & E & Hp' & Hd).
  exists reg', n. split; [done|]. split; [done|]. rewrite Hd. apply merge_keeps; [done|].
  intros json d [field Hf]%listing_values_elem Hj <-. pose proof (Hk field json d Hf Hj) as <-. by eapply Hold.
Qed.

Lemma pull_takes reg prefix r json d l :
  reg_redis reg = Some prefix -> store_keyed prefix r -> str_is_empty (trim (dev_id d)) = false ->
  hash_of (devices_hash prefix) r !! dev_id d = Some json -> device_from_json json = Some d ->
  reg_devices reg !! dev_id d = Some l -> (dev_last_seen l < dev_last_seen d)%N ->
  exists reg' n, pull_from_redis fate reg r = (reg', redis_tick r, n) /\ reg_devices reg' !! dev_id d = Some d.
Proof.
  intros Hp Hk Hb Hh Hj Hl Hlt. destruct (pull_up reg prefix r Hp) as (reg' & n & E & Hp' & Hd).
  exists reg', n. split; [done|]. rewrite Hd. apply merge_takes; [done| | |].
  - exists json. split; [|done]. apply listing_values_elem. by eexists.
  - intros json' d' [field Hf]%listing_values_elem Hj' Hid.
    pose proof (Hk field json' d' Hf Hj') as Hfield. congruence.
  - intros l' Hl'. right. congruence.
Qed.

Lemma store_keyed_put prefix r r' d json :
  store_keyed prefix r -> device_from_json json = Some d ->
  hash_of (devices_hash prefix) r' = <[dev_id d := json]> (hash_of (devices_hash prefix) r) ->
  store_keyed prefix r'.
Proof.
  intros Hk Hj Hh field json' d'. rewrite Hh. intros [(<- & <-)|(_ & Hf)]%lookup_insert_Some Hj'; [congruence|].
  by eapply Hk.
Qed.

Lemma token_valid_held t id d reg r :
  str_is_empty t = false -> reg_devices reg !! id = Some d -> dev_revoked d = false ->
  dev_token_hash d = Some (hash_device_token t) -> (device_token_valid fate t reg r).2 = true.
Proof.
  intros Ht Hd Hr Hh. unfold device_token_valid, check_device. rewrite Ht.
  rewrite (proj2 (any_device_true _ reg)); [done|]. exists id, d.
  by rewrite Hr, Hh, (proj2 (field_is_true _ _) eq_refl).
Qed.

(** A revocation of a record held here. *)
Lemma revoke_up {JL : DeviceJsonLaws DJ} io id d reg prefix r :
  reg_redis reg = Some prefix -> str_is_empty id || str_contains id "/" = false ->
  reg_devices reg !! id = Some d -> dev_id d = id ->
  exists reg' r' json b, revoke fate io id reg r = (reg', r', Ok (b, dev_cert_fingerprint d, dev_cert_serial d))
    /\ reg_redis reg' = Some prefix /\ reg_devices reg' !! id = Some (revoked_device d)
    /\ device_from_json json = Some (revoked_device d)
    /\ hash_of (devices_hash prefix) r' = <[id := json]> (hash_of (devices_hash prefix) r).
Proof.
  intros Hp Hid Hd Heq. unfold revoke. rewrite Hid, Hd, Hd. set (reg1 := with_devices _ reg).
  pose proof (persist_locked_devices io reg1) as Hm. pose proof (persist_locked_redis io reg1) as Hn.
  destruct (persist_locked io reg1) as [reg2 b]; simpl in Hm, Hn.
  destruct (device_json_some (revoked_device d)) as (json & Hj & Hj').
  destruct (put_device_up reg2 prefix (revoked_device d) json (dev_token_hash d) r) as (r' & -> & Hh); [by rewrite Hn|done|].
  exists reg2, r', json, (b || true). split; [done|]. rewrite Hn, Hm, lookup_insert_eq, <- Heq. done.
Qed.

Lemma heartbeat_up {JL : DeviceJsonLaws DJ} now io hb d reg prefix r :
  reg_redis reg = Some prefix -> str_is_empty (trim (hb_device_id hb)) = false -> hb_trust_score hb = None ->
  reg_devices reg !! hb_device_id hb = Some d ->
  exists reg' r' json, apply_heartbeat fate now io hb reg r = (reg', r', Ok true)
    /\ device_from_json json = Some (heartbeat_device now hb (Some d))
    /\ hash_of (devices_hash prefix) r' = <[hb_device_id hb := json]> (hash_of (devices_hash prefix) r).
Proof.
  intros Hp Hb Ht Hd. unfold apply_heartbeat, store_device. rewrite Hb, Ht, Hd. set (reg1 := cache_device _ reg).
  pose proof (persist_locked_redis io reg1) as Hn. destruct (persist_locked io reg1) as [reg2 b]; simpl in Hn.
  destruct (device_json_some (heartbeat_device now hb (Some d))) as (json & Hj & Hj').
  destruct (put_device_up reg2 prefix (heartbeat_device now hb (Some d)) json None r) as (r' & -> & Hh); [by rewrite Hn|done|].
  exists reg2, r', json. rewrite orb_true_r. done.
Qed.

End lemmas.

(** ** Theorems *)

(** C13: Device tokens on a node of its own: for every sequence of enrolments,
    heartbeats, revocations and checks, whatever the file does, the registry
    answers as the promise does.  An enrolment gives a fresh token and ends the
    one before it, a token is accepted exactly while it is the last one issued to
    a device that was not revoked, and a revoked device stays revoked. *)
Theorem device_tokens_refine {SH : Sha256} {DJ : DeviceJson} {MO : MapOrder} {MOL : MapOrderLaws}
    (fate : N -> Fate) (ops : list RegOp) (path file : option string) (r : RedisDb)
    (Hfree : collision_free (omap op_token ops)) :
  zip_with token_answer ops
    (reg_run fate ops {| reg_devices := ∅; reg_path := path; reg_file := file; reg_redis := None |} r).2
  = spec_run ops ∅.
Proof. apply (reg_run_follows fate (omap op_token ops)); [by split|done|done]. Qed.

(** Revocation and nodes that share Redis (a defect): a node that holds the record
    of a device goes on accepting its token after another node revoked the device,
    because a revocation does not advance the time by which records are merged;
    and the next heartbeat the node receives writes the old record back, newer than
    the revocation, so that the node that revoked the device accepts the token
    again.  Redis answers every command. *)
Theorem revocation_undone {SH : Sha256} {DJ : DeviceJson} {JL : DeviceJsonLaws DJ} {MO : MapOrder}
    {MOL : MapOrderLaws} (fate : N -> Fate) (up : forall n, fate n = Done)
    (a b : DeviceRegistry) (r : RedisDb) (prefix t id : string) (d : RegisteredDevice) (io io' : bool)
    (now : N) (hb : HeartbeatUpdate)
    (Ha : reg_redis a = Some prefix) (Hb : reg_redis b = Some prefix) (Hstore : store_keyed prefix r)
    (Hida : reg_devices a !! id = Some d) (Hidb : reg_devices b !! id = Some d) (Hid : dev_id d = id)
    (Hlive : dev_revoked d = false) (Htoken : dev_token_hash d = Some (hash_device_token t))
    (Ht : str_is_empty t = false) (Hslash : str_contains id "/" = false) (Hblank : str_is_empty (trim id) = false)
    (Hhb : hb_device_id hb = id) (Hscore : hb_trust_score hb = None) (Hnow : (dev_last_seen d < now)%N) :
  let '(a1, r1, res) := revoke fate io id a r in
  let '(b1, r2, _) := pull_from_redis fate b r1 in
  let '(b2, r3, _) := apply_heartbeat fate now io' hb b1 r2 in
  let '(a2, r4, _) := pull_from_redis fate a1 r3 in
  is_ok res = true /\ (device_token_valid fate t b1 r2).2 = true /\ (device_token_valid fate t a2 r4).2 = true.
Proof.
  assert (Hne : str_is_empty id || str_contains id "/" = false) by (rewrite Hslash; by destruct id).
  destruct (revoke_up fate up io id d a prefix r) as (a1 & r1 & j1 & c & -> & Ha1 & Hd1 & Hj1 & Hh1); [done..|].
  assert (Hk1 : store_keyed prefix r1) by (eapply store_keyed_put; [done|done|by rewrite Hh1, <- Hid]).
  destruct (pull_keeps fate up b prefix r1 id d) as (b1 & n1 & -> & Hb1 & Hdb); [done..| |].
  { intros json d'. rewrite Hh1, lookup_insert_eq. intros [= <-] Hj. by simplify_eq. }
  rewrite <- Hhb in Hdb, Hblank.
  destruct (heartbeat_up fate up now io' hb d b1 prefix (redis_tick r1)) as (b2 & r3 & j3 & -> & Hj3 & Hh3); [done..|].
  assert (Hk3 : store_keyed prefix r3) by (by eapply (store_keyed_put prefix (redis_tick r1))).
  destruct (pull_takes fate up a1 prefix r3 j3 (heartbeat_device now hb (Some d)) (revoked_device d))
    as (a2 & n2 & -> & Hda);
    [done|done|done|by rewrite Hh3; apply lookup_insert_eq|done|by cbn; rewrite Hhb|done|].
  split; [done|]. split; by eapply token_valid_held.
Qed.

(** Durability on a node of its own: after any calls on an empty registry, when a
    call answers that it persisted, a restart that reads the file finds exactly the
    table of devices, revocations and token hashes included. *)
Theorem persisted_is_durable {SH : Sha256} {DJ : DeviceJson} {JL : DeviceJsonLaws DJ} {MO : MapOrder}
    {MOL : MapOrderLaws} (fate : N -> Fate) (ops : list RegOp) (op : RegOp) (path file : option string)
    (r : RedisDb)
    (Hpersisted :
      let '(reg, r, _) :=
        reg_run fate ops {| reg_devices := ∅; reg_path := path; reg_file := file; reg_redis := None |} r in
      persisted (reg_step fate op reg r).2 = true) :
  let '(reg, r, _) :=
    reg_run fate ops {| reg_devices := ∅; reg_path := path; reg_file := file; reg_redis := None |} r in
  let '(reg', _, _) := reg_step fate op reg r in
  load_devices (Ok <$> reg_file reg') = Ok (reg_devices reg').
Proof.
  set (reg0 := {| reg_devices := ∅; reg_path := path; reg_file := file; reg_redis := None |}) in *.
  pose proof (reg_run_own fate ops reg0 r ltac:(by split)) as Hown.
  destruct (reg_run fate ops reg0 r) as [[reg r'] l]; simpl in Hown.
  destruct (reg_step_durable fate op reg r' Hown) as (reg' & a & E & _ & Hl). rewrite E in *. by apply Hl.
Qed.

(** ** Instances *)

Module Demo.

#[local] Instance plain_sha : Sha256 := {| sha256 s := s; hex_encode s := s |}.
#[local] Instance plain_order : MapOrder := fun _ m => map_to_list m.
#[local] Instance plain_order_laws : MapOrderLaws.
Proof. by intros A m. Qed.

Definition device_code (d : RegisteredDevice) : list positive :=
  [encode (dev_id d); encode (dev_name d); encode (dev_ip d); encode (dev_type d);
   encode (dev_agent_status d); encode (dev_agent_version d); encode (dev_policy_version d);
   encode (dev_cert_subject d); encode (dev_cert_fingerprint d); encode (dev_cert_serial d);
   encode (dev_trust_score d); encode (dev_last_seen d); encode (dev_revoked d);
   encode (dev_platform d); encode (dev_user_identity d); encode (dev_enrolled_at d);
   encode (dev_token_hash d); encode (dev_capabilities d)].

Definition device_decode (l : list positive) : option RegisteredDevice :=
  match l with
  | [a1; a2; a3; a4; a5; a6; a7; a8; a9; a10; a11; a12; a13; a14; a15; a16; a17; a18] =>
      b1 ← decode a1; b2 ← decode a2; b3 ← decode a3; b4 ← decode a4; b5 ← decode a5; b6 ← decode a6;
      b7 ← decode a7; b8 ← decode a8; b9 ← decode a9; b10 ← decode a10; b11 ← decode a11; b12 ← decode a12;
      b13 ← decode a13; b14 ← decode a14; b15 ← decode a15; b16 ← decode a16; b17 ← decode a17;
      b18 ← decode a18;
      Some {| dev_id := b1; dev_name := b2; dev_ip := b3; dev_type := b4; dev_agent_status := b5;
              dev_agent_version := b6; dev_policy_version := b7; dev_cert_subject := b8;
              dev_cert_fingerprint := b9; dev_cert_serial := b10; dev_trust_score := b11;
              dev_last_seen := b12; dev_revoked := b13; dev_platform := b14; dev_user_identity := b15;
              dev_enrolled_at := b16; dev_token_hash := b17; dev_capabilities := b18 |}
  | _ => None
  end.

Lemma device_decode_code d : device_decode (device_code d) = Some d.
Proof. destruct d. unfold device_decode, device_code. cbn -[encode decode]. by rewrite !decode_encode. Qed.

#[export] Instance text_json : DeviceJson := {|
  device_to_json d := Some (to_text (device_code d));
  device_from_json s := of_text s ≫= device_decode;
  devices_to_json f := Ok (to_text (df_version f, device_code <$> df_devices f));
  devices_from_json s :=
    match (c ← of_text s; ds ← mapM device_decode c.2; Some {| df_version := c.1; df_devices := ds |}) with
    | Some f => Ok f
    | None => Err "not a devices file"
    end;
|}.

#[export] Instance text_json_laws : DeviceJsonLaws text_json.
Proof.
  split; cbn [device_to_json device_from_json devices_to_json devices_from_json text_json].
  - intros d. eexists. split; [done|]. rewrite of_to_text. simpl. apply device_decode_code.
  - intros [v ds]. eexists. split; [done|]. split; [|apply to_text_not_blank].
    rewrite of_to_text. cbn [mbind option_bind fst snd df_version df_devices].
    rewrite (proj2 (mapM_Some device_decode (device_code <$> ds) ds)); [done|].
    rewrite Forall2_fmap_l. apply Forall2_same_length_lookup_2; [done|].
    intros i x y Hx Hy. simplify_eq. apply device_decode_code.
Qed.

Definition laptop : EnrollRequest := {|
  en_device_id := Some " laptop "%string; en_platform := "Linux"; en_name := None; en_user_identity := None;
  en_capabilities := []; en_device_type := None; en_cert_subject := None; en_cert_fingerprint := None;
  en_cert_serial := None |}.

Definition beat : HeartbeatUpdate := {|
  hb_device_id := "laptop"; hb_status := None; hb_agent_version := None; hb_policy_version := None;
  hb_name := None; hb_ip := None; hb_device_type := None; hb_cert_subject := None;
  hb_cert_fingerprint := None; hb_trust_score := None |}.

Definition up : N -> Fate := fun _ => Done.
Definition empty_db : RedisDb := {| rd_keys := ∅; rd_hashes := ∅; rd_clock := 0 |}.

Definition day : list RegOp :=
  [OpEnroll 10 EmptyString "a" true laptop; OpToken "bsdmagent_a"; OpHeartbeat 11 true beat; OpToken "bsdmagent_a";
   OpEnroll 12 EmptyString "b" false laptop; OpToken "bsdmagent_a"; OpToken "bsdmagent_b";
   OpRevoke true "laptop"; OpToken "bsdmagent_b"; OpHeartbeat 13 true beat; OpToken "bsdmagent_b";
   OpEnroll 14 EmptyString "c" true laptop].

Lemma device_tokens_refine_witness :
  zip_with token_answer day
    (reg_run up day {| reg_devices := ∅; reg_path := Some "f"%string; reg_file := None; reg_redis := None |} empty_db).2
  = [Issued "laptop" "bsdmagent_a"; Accepted true; Other; Accepted true; Issued "laptop" "bsdmagent_b";
     Accepted false; Accepted true; BanOk; Accepted false; Other; Accepted false; Refusal EnrollRevoked].
Proof.
  rewrite (device_tokens_refine up day (Some "f"%string) None empty_db); [vm_compute; reflexivity|].
  by intros t t' _ _.
Defined.

Lemma persisted_is_durable_witness :
  let '(reg, r, _) :=
    reg_run up (take 5 day) {| reg_devices := ∅; reg_path := Some "f"%string; reg_file := None; reg_redis := None |} empty_db in
  let '(reg', _, _) := reg_step up (OpRevoke true "laptop") reg r in
  load_devices (Ok <$> reg_file reg') = Ok (reg_devices reg').
Proof.
  apply (persisted_is_durable up (take 5 day) (OpRevoke true "laptop") (Some "f"%string) None empty_db).
  vm_compute. reflexivity.
Defined.

(** Two nodes after an enrolment on one of them and a pull on the other. *)
Definition node : DeviceRegistry :=
  {| reg_devices := ∅; reg_path := None; reg_file := None; reg_redis := Some "bsdm:agent:"%string |}.

Definition enrolled_a : DeviceRegistry * RedisDb := (enroll up 10 EmptyString "a" true laptop node empty_db).1.
Definition enrolled_b : DeviceRegistry * RedisDb * N := pull_from_redis up node enrolled_a.2.
Definition record : RegisteredDevice :=
  enrolled_device 10 "laptop" "linux" "bsdmagent_a" laptop None.

Lemma revocation_undone_witness :
  let '(a1, r1, res) := revoke up true "laptop" enrolled_a.1 enrolled_b.1.2 in
  let '(b1, r2, _) := pull_from_redis up enrolled_b.1.1 r1 in
  let '(b2, r3, _) := apply_heartbeat up 11 true beat b1 r2 in
  let '(a2, r4, _) := pull_from_redis up a1 r3 in
  is_ok res = true /\ (device_token_valid up "bsdmagent_a" b1 r2).2 = true
  /\ (device_token_valid up "bsdmagent_a" a2 r4).2 = true.
Proof.
  apply (revocation_undone up (fun _ => eq_refl) enrolled_a.1 enrolled_b.1.1 enrolled_b.1.2 "bsdm:agent:"
           "bsdmagent_a" "laptop" record true true 11 beat); try (vm_compute; reflexivity).
  intros field json d.
  replace (hash_of (devices_hash "bsdm:agent:") enrolled_b.1.2)
    with ({["laptop"%string := to_text (device_code record)]} : gmap string string) by (vm_compute; reflexivity).
  intros [<- <-]%lookup_singleton_Some. cbn [device_from_json text_json].
  rewrite of_to_text. cbn [mbind option_bind]. rewrite device_decode_code. by intros [= <-].
Defined.

End Demo.
