(* ===== verification/AgentCrl.v ===== *)
(** * Revocation of agent certificates (src/proxy/src/agent_crl.rs,
    src/proxy/src/agent_ocsp.rs)

    The list of revoked client certificates, in memory, in a file and in Redis, and
    the status responder that reads it together with the device registry.

    serde_json is [CrlJson]; the X.509 crates (decoding a request, the range of
    generalized times, signing a response) are [OcspCodec].  Clocks and the outcomes
    of file writes are arguments, and Redis is that of Devices. *)

From Stdlib Require Import Ascii String NArith Lia.
From stdpp Require Import base option gmap sets strings pretty numbers list.
From S2P Require Import Prelude CacheDigest AclApi Devices.

(** ** The list *)

Record CrlEntry := {
  ce_fingerprint : string;
  ce_serial_hex : option string;
  ce_device_id : string;
  ce_revoked_at : N;
  ce_reason : string;
}.

Record CrlFile := {
  cf_version : N;
  cf_crl_number : N;
  cf_entries : list CrlEntry;
}.

Class CrlJson := {
  entry_to_json : CrlEntry -> option string;
  entry_from_json : string -> option CrlEntry;
  crl_to_json : CrlFile -> result string string;
  crl_from_json : string -> result CrlFile string;
}.

Class CrlJsonLaws (J : CrlJson) := {
  entry_json_some e : exists j, entry_to_json e = Some j /\ entry_from_json j = Some e;
  crl_json_some f : exists j, crl_to_json f = Ok j /\ crl_from_json j = Ok f /\ str_is_empty (trim j) = false;
}.

(** As in the registry: the configured file and what it holds, and the key prefix
    of the shared store. *)
Record AgentCrl := {
  crl_entries : list CrlEntry;
  crl_path : option string;
  crl_file : option string;
  crl_number : N;
  crl_redis : option string;
}.

Definition crl_memory_only : AgentCrl :=
  {| crl_entries := []; crl_path := None; crl_file := None; crl_number := 1; crl_redis := None |}.

Definition with_entries (es : list CrlEntry) (n : N) (c : AgentCrl) : AgentCrl :=
  {| crl_entries := es; crl_path := crl_path c; crl_file := crl_file c; crl_number := n; crl_redis := crl_redis c |}.

Definition entries_hash (prefix : string) : string := prefix +:+ "crl".
Definition number_key (prefix : string) : string := prefix +:+ "crl_number".

Definition has_fingerprint (fp : string) (es : list CrlEntry) : bool :=
  existsb (fun e => String.eqb (ce_fingerprint e) fp) es.

Section crl.
Context {CJ : CrlJson} {MO : MapOrder}.
Context (fate : N -> Fate).

Definition crl_load (read : option (result string string)) : result (list CrlEntry * N) string :=
  match read with
  | None => Ok ([], 1%N)
  | Some (Err e) => Err ("read CRL: " +:+ e)
  | Some (Ok raw) =>
      if str_is_empty (trim raw) then Ok ([], 1%N)
      else
        match crl_from_json raw with
        | Err e => Err ("parse CRL: " +:+ e)
        | Ok file =>
            if negb (cf_version file =? FILE_VERSION)%N then
              Err ("unsupported CRL file version " +:+ pretty (cf_version file))
            else Ok (cf_entries file, N.max (cf_crl_number file) 1)
        end
  end.

Definition crl_from_env (env : Env) (disk : string -> option (result string string)) : AgentCrl :=
  match trimmed_var env "AGENT_CRL_PATH" with
  | None => crl_memory_only
  | Some p =>
      let '(es, n) := match crl_load (disk p) with Ok (es, n) => (es, N.max n 1) | Err _ => ([], 1%N) end in
      {| crl_entries := es; crl_path := Some p; crl_file := disk p ≫= res_ok; crl_number := n; crl_redis := None |}
  end.

(** One entry of the shared store. *)
Definition merge_entry (acc : list CrlEntry * N) (json : string) : list CrlEntry * N :=
  let '(es, added) := acc in
  match entry_from_json json with
  | None => acc
  | Some e => if has_fingerprint (ce_fingerprint e) es then acc else (es ++ [e], added + 1)%N
  end.

Definition crl_pull (c : AgentCrl) (r : RedisDb) : AgentCrl * RedisDb * N :=
  match crl_redis c with
  | None => (c, r, 0%N)
  | Some prefix =>
      let '(r, remote) := hgetall fate (entries_hash prefix) r in
      match remote with
      | None => (c, r, 0%N)
      | Some remote =>
          let '(r, n) := redis_fetch fate (number_key prefix) r in
          let number := N.max (default 1%N (mjoin n ≫= parse_u64)) 1 in
          let '(es, added) := foldl merge_entry (crl_entries c, 0%N) (map_listing remote).*2 in
          (with_entries es (if (crl_number c <? number)%N then number else crl_number c) c, r, added)
      end
  end.

Definition crl_attach_redis (env : Env) (c : AgentCrl) (r : RedisDb) : AgentCrl * RedisDb * N :=
  crl_pull {| crl_entries := crl_entries c; crl_path := crl_path c; crl_file := crl_file c;
              crl_number := crl_number c; crl_redis := Some (redis_key_prefix_from_env env) |} r.

Definition by_fingerprint (fp : string) (e : CrlEntry) : bool :=
  constant_time_eq (to_ascii_lowercase (ce_fingerprint e)) fp.
Definition by_serial (s : string) (e : CrlEntry) : bool := field_is_lower (ce_serial_hex e) s.

(** The four look-ups pull first. *)
Definition crl_find (matches : string -> CrlEntry -> bool) (value : string) (c : AgentCrl) (r : RedisDb)
    : AgentCrl * RedisDb * option CrlEntry :=
  if str_is_empty value then (c, r, None)
  else
    let '(c, r, _) := crl_pull c r in
    (c, r, List.find (matches (to_ascii_lowercase value)) (crl_entries c)).

Definition entry_by_fingerprint := crl_find by_fingerprint.
Definition entry_by_serial := crl_find by_serial.

Definition is_fingerprint_revoked (fp : string) (c : AgentCrl) (r : RedisDb) : AgentCrl * RedisDb * bool :=
  if str_is_empty fp then (c, r, false)
  else
    let '(c, r, _) := crl_pull c r in
    (c, r, existsb (by_fingerprint (to_ascii_lowercase fp)) (crl_entries c)).

Definition is_serial_revoked (serial_hex : string) (c : AgentCrl) (r : RedisDb) : AgentCrl * RedisDb * bool :=
  if str_is_empty serial_hex then (c, r, false)
  else
    let '(c, r, _) := crl_pull c r in
    (c, r, existsb (by_serial (to_ascii_lowercase serial_hex)) (crl_entries c)).

Definition crl_persist (io : bool) (c : AgentCrl) : AgentCrl * bool :=
  match crl_path c, crl_to_json {| cf_version := FILE_VERSION; cf_crl_number := crl_number c;
                                   cf_entries := crl_entries c |} with
  | Some _, Ok payload =>
      if io then
        ({| crl_entries := crl_entries c; crl_path := crl_path c; crl_file := Some payload;
            crl_number := crl_number c; crl_redis := crl_redis c |}, true)
      else (c, false)
  | _, _ => (c, false)
  end.

Definition redis_put_entry (c : AgentCrl) (e : CrlEntry) (r : RedisDb) : RedisDb :=
  match crl_redis c with
  | None => r
  | Some prefix =>
      match entry_to_json e with
      | None => r
      | Some json =>
          let '(r, ok) := hset fate (entries_hash prefix) (ce_fingerprint e) json r in
          if negb ok then r else (redis_set fate (number_key prefix) (pretty (crl_number c)) r).1
      end
  end.

Definition trimmed (o : option string) : option string := trim <$> non_blank o.

Definition new_entry (now : N) (device_id fp : string) (serial_hex : option string) (reason : string)
    : CrlEntry := {|
  ce_fingerprint := fp;
  ce_serial_hex := to_ascii_lowercase <$> trimmed serial_hex;
  ce_device_id := device_id;
  ce_revoked_at := now;
  ce_reason := if str_is_empty reason then "unspecified" else reason;
|}.

(** [fetch_add] wraps. *)
Definition crl_revoke (now : N) (io : bool) (device_id : string) (fingerprint serial_hex : option string)
    (reason : string) (c : AgentCrl) (r : RedisDb) : AgentCrl * RedisDb * bool :=
  match trimmed fingerprint with
  | None => (c, r, false)
  | Some fp =>
      let fp := to_ascii_lowercase fp in
      let '(c, r, _) := crl_pull c r in
      if existsb (fun e => constant_time_eq (ce_fingerprint e) fp) (crl_entries c) then (c, r, false)
      else
        let e := new_entry now device_id fp serial_hex reason in
        let c := with_entries (crl_entries c ++ [e]) (wrap 64 (crl_number c + 1)) c in
        let '(c, _) := crl_persist io c in
        (c, redis_put_entry c e r, true)
  end.

Definition crl_list (c : AgentCrl) (r : RedisDb) : AgentCrl * RedisDb * list CrlEntry :=
  let '(c, r, _) := crl_pull c r in (c, r, crl_entries c).

(** [to_json_document]: the number is read after the pull of [list]. *)
Definition to_json_document (c : AgentCrl) (r : RedisDb) : AgentCrl * RedisDb * (N * N * list CrlEntry) :=
  let '(c, r, es) := crl_list c r in (c, r, (crl_number c, N.of_nat (length es), es)).

End crl.

(** ** The responder *)

Inductive OcspCertStatus := Good | Revoked | Unknown.

Record OcspStatusResponse := {
  os_status : OcspCertStatus;
  os_fingerprint : option string;
  os_serial : option string;
  os_device_id : option string;
  os_this_update : N;
  os_next_update : N;
  os_revoked_at : option N;
  os_reason : option string;
}.

Definition NEXT_UPDATE_SECS : N := 300.

Definition revoked_response (ser : option string) (e : CrlEntry) (now next : N) : OcspStatusResponse := {|
  os_status := Revoked;
  os_fingerprint := Some (ce_fingerprint e);
  os_serial := or_else (ce_serial_hex e) (to_ascii_lowercase <$> ser);
  os_device_id := Some (ce_device_id e);
  os_this_update := now;
  os_next_update := next;
  os_revoked_at := Some (ce_revoked_at e);
  os_reason := Some (ce_reason e);
|}.

Definition plain_response (status : OcspCertStatus) (fp ser : option string) (now next : N)
    (revoked_at : option N) (reason : option string) : OcspStatusResponse := {|
  os_status := status;
  os_fingerprint := to_ascii_lowercase <$> fp;
  os_serial := to_ascii_lowercase <$> ser;
  os_device_id := None;
  os_this_update := now;
  os_next_update := next;
  os_revoked_at := revoked_at;
  os_reason := reason;
|}.

Inductive CrlReason :=
  | KeyCompromise | CaCompromise | AffiliationChanged | Superseded | CessationOfOperation
  | CertificateHold | PrivilegeWithdrawn | AaCompromise.

Inductive CertStatus :=
  | CertGood
  | CertUnknown
  | CertRevoked (revocation_time : N) (reason : option CrlReason).

Class OcspCodec := {
  (** The serials of a request, in hex, and its nonce. *)
  ocsp_from_der : string -> result (list string * option string) string;
  (** The seconds a generalized time can hold. *)
  ocsp_time : N -> result N string;
  sign_basic_response : list (string * CertStatus * N * N) -> option string -> result string string;
}.

(** The state a request to the responder runs in. *)
Record Trust := {
  tr_crl : AgentCrl;
  tr_devices : DeviceRegistry;
  tr_redis : RedisDb;
}.

Section ocsp.
Context {SH : Sha256} {DJ : DeviceJson} {CJ : CrlJson} {MO : MapOrder} {OC : OcspCodec}.
Context (fate : N -> Fate).

Definition find_revoked (find : string -> AgentCrl -> RedisDb -> AgentCrl * RedisDb * option CrlEntry)
    (value : option string) (t : Trust) : Trust * option CrlEntry :=
  match value with
  | None => (t, None)
  | Some v =>
      let '(c, r, e) := find v (tr_crl t) (tr_redis t) in
      ({| tr_crl := c; tr_devices := tr_devices t; tr_redis := r |}, e)
  end.

Definition ask_valid (check : string -> DeviceRegistry -> RedisDb -> DeviceRegistry * RedisDb * bool)
    (value : option string) (t : Trust) : Trust * bool :=
  match value with
  | None => (t, false)
  | Some v =>
      let '(reg, r, b) := check v (tr_devices t) (tr_redis t) in
      ({| tr_crl := tr_crl t; tr_devices := reg; tr_redis := r |}, b)
  end.

Definition ask_known (check : string -> DeviceRegistry -> RedisDb -> RedisDb * bool)
    (value : option string) (t : Trust) : Trust * bool :=
  match value with
  | None => (t, false)
  | Some v =>
      let '(r, b) := check v (tr_devices t) (tr_redis t) in
      ({| tr_crl := tr_crl t; tr_devices := tr_devices t; tr_redis := r |}, b)
  end.

(** The fingerprint is asked first, and the serial only when that fails. *)
Definition ask_either (ask_fp ask_ser : Trust -> Trust * bool) (t : Trust) : Trust * bool :=
  let '(t, b) := ask_fp t in if b then (t, true) else ask_ser t.

Definition check_status (now : N) (fingerprint serial : option string) (t : Trust)
    : Trust * result OcspStatusResponse string :=
  let fp := trimmed fingerprint in
  let ser := trimmed serial in
  if negb (present fp) && negb (present ser) then
    (t, Err "fingerprint or serial query parameter required")
  else
    let next := (now + NEXT_UPDATE_SECS)%N in
    let '(t, entry) := find_revoked (entry_by_fingerprint fate) fp t in
    match entry with
    | Some e => (t, Ok (revoked_response ser e now next))
    | None =>
        let '(t, entry) := find_revoked (entry_by_serial fate) ser t in
        match entry with
        | Some e => (t, Ok (revoked_response ser e now next))
        | None =>
            let '(t, good) :=
              ask_either (ask_valid (cert_fingerprint_valid fate) fp) (ask_valid (cert_serial_valid fate) ser) t in
            if good then (t, Ok (plain_response Good fp ser now next None None))
            else
              let '(t, known) :=
                ask_either (ask_known (cert_fingerprint_known fate) fp) (ask_known (cert_serial_known fate) ser) t in
              if known then
                (t, Ok (plain_response Revoked fp ser now next (Some now) (Some "device-revoked"%string)))
              else (t, Ok (plain_response Unknown fp ser now next None None))
        end
    end.

Definition crl_reason (reason : option string) : CrlReason :=
  match reason with
  | Some s =>
      if String.eqb s "keyCompromise" || String.eqb s "key_compromise" then KeyCompromise
      else if String.eqb s "cACompromise" then CaCompromise
      else if String.eqb s "affiliationChanged" then AffiliationChanged
      else if String.eqb s "superseded" then Superseded
      else if String.eqb s "cessationOfOperation" || String.eqb s "cessation" then CessationOfOperation
      else if String.eqb s "certificateHold" then CertificateHold
      else if String.eqb s "privilegeWithdrawn" then PrivilegeWithdrawn
      else if String.eqb s "aACompromise" then AaCompromise
      else CessationOfOperation
  | None => CessationOfOperation
  end.

Definition cert_status_from_lab (s : OcspStatusResponse) : result CertStatus string :=
  match os_status s with
  | Good => Ok CertGood
  | Unknown => Ok CertUnknown
  | Revoked =>
      match ocsp_time (default (os_this_update s) (os_revoked_at s)) with
      | Err e => Err ("ocsp time: " +:+ e)
      | Ok when => Ok (CertRevoked when (Some (crl_reason (os_reason s))))
      end
  end.

(** The loop over the request list; the clock is read again for every entry. *)
Fixpoint respond_each (clock : nat -> N) (this_update next_update : N) (serials : list string) (t : Trust)
    : Trust * result (list (string * CertStatus * N * N)) string :=
  match serials with
  | [] => (t, Ok [])
  | s :: serials =>
      let '(t, lab) := check_status (clock (length serials)) None (Some s) t in
      match lab with
      | Err e => (t, Err e)
      | Ok lab =>
          match cert_status_from_lab lab with
          | Err e => (t, Err e)
          | Ok status =>
              let '(t, rest) := respond_each clock this_update next_update serials t in
              (t, match rest with Ok l => Ok ((s, status, this_update, next_update) :: l) | Err e => Err e end)
          end
      end
  end.

(** [now] and [now'] are the two readings of the clock for the response's own
    times; [ca] is whether the CA certificate parses. *)
Definition respond_der (clock : nat -> N) (now now' : N) (ca : result unit string) (request_der : string) (t : Trust)
    : Trust * result string string :=
  if str_is_empty request_der then (t, Err "empty OCSP request")
  else
    match ocsp_from_der request_der with
    | Err e => (t, Err ("decode OCSP request: " +:+ e))
    | Ok ([], _) => (t, Err "OCSP request has empty requestList")
    | Ok (serials, nonce) =>
        match ca, ocsp_time now, ocsp_time (now' + NEXT_UPDATE_SECS)%N with
        | Err e, _, _ => (t, Err e)
        | Ok _, Err e, _ => (t, Err ("ocsp time: " +:+ e))
        | Ok _, Ok _, Err e => (t, Err ("ocsp time: " +:+ e))
        | Ok _, Ok this_update, Ok next_update =>
            let '(t, responses) := respond_each clock this_update next_update serials t in
            (t, match responses with Err e => Err e | Ok l => sign_basic_response l nonce end)
        end
    end.

End ocsp.

(** [decode_b64_request]: the padding the client may have left out. *)
Definition decode_b64_request {B : Base64} (b64 : string) : result string string :=
  let s := replace_char "_" "/" (replace_char "-" "+" (trim b64)) in
  let padded :=
    match (str_len s mod 4)%N with
    | 2%N => s +:+ "=="
    | 3%N => s +:+ "="
    | _ => s
    end in
  match base64_decode padded with
  | Some der => Ok der
  | None => Err "OCSP request base64"
  end.

(** ** Sequences of changes *)

Inductive CrlOp :=
  | CrlRevoke (now : N) (io : bool) (device_id : string) (fingerprint serial_hex : option string) (reason : string)
  | CrlPull.

Section changes.
Context {CJ : CrlJson} {MO : MapOrder}.
Context (fate : N -> Fate).

Definition crl_step (op : CrlOp) (c : AgentCrl) (r : RedisDb) : AgentCrl * RedisDb :=
  match op with
  | CrlRevoke now io id fp ser reason => (crl_revoke fate now io id fp ser reason c r).1
  | CrlPull => (crl_pull fate c r).1
  end.

Fixpoint crl_run (ops : list CrlOp) (c : AgentCrl) (r : RedisDb) : AgentCrl * RedisDb :=
  match ops with
  | [] => (c, r)
  | op :: ops => let '(c, r) := crl_step op c r in crl_run ops c r
  end.

(** ** Lemmas *)

(** [c'] lists what [c] lists, in order, and more; fingerprints stay distinct. *)
Definition extends (c c' : AgentCrl) : Prop :=
  crl_entries c `prefix_of` crl_entries c'
  /\ (NoDup (ce_fingerprint <$> crl_entries c) -> NoDup (ce_fingerprint <$> crl_entries c')).

Lemma extends_refl c c' : crl_entries c' = crl_entries c -> extends c c'.
Proof. intros E. unfold extends. by rewrite E. Qed.

Lemma extends_trans a b c : extends a b -> extends b c -> extends a c.
Proof. intros [P1 N1] [P2 N2]. split; [by etrans|auto]. Qed.

Lemma has_fingerprint_true fp es : has_fingerprint fp es = true <-> fp ∈ ce_fingerprint <$> es.
Proof.
  unfold has_fingerprint. rewrite existsb_exists, list_elem_of_fmap. split.
  - intros (e & He%list_elem_of_In & <-%String.eqb_eq). by exists e.
  - intros (e & -> & He). exists e. by rewrite <- list_elem_of_In, String.eqb_refl.
Qed.

Lemma NoDup_snoc_fingerprint es e :
  NoDup (ce_fingerprint <$> es) -> ce_fingerprint e ∉ ce_fingerprint <$> es ->
  NoDup (ce_fingerprint <$> (es ++ [e])).
Proof.
  intros Hn He. rewrite fmap_app. apply NoDup_app. split; [done|]. split; [|apply NoDup_singleton].
  intros x Hx ->%list_elem_of_singleton. done.
Qed.

Lemma merge_entries_extend jsons es n :
  es `prefix_of` (foldl merge_entry (es, n) jsons).1
  /\ (NoDup (ce_fingerprint <$> es) -> NoDup (ce_fingerprint <$> (foldl merge_entry (es, n) jsons).1)).
Proof.
  revert es n. induction jsons as [|j jsons IH]; intros es n; [done|]. cbn [foldl merge_entry].
  destruct (entry_from_json j) as [e|]; [|apply IH].
  destruct (has_fingerprint (ce_fingerprint e) es) eqn:Hf; [apply IH|].
  destruct (IH (es ++ [e]) (n + 1)%N) as [P Hn]. split.
  - etrans; [|apply P]. by exists [e].
  - intros Hes. apply Hn, NoDup_snoc_fingerprint; [done|]. rewrite <- has_fingerprint_true. by rewrite Hf.
Qed.

Lemma crl_pull_extends c r : extends c (crl_pull fate c r).1.1.
Proof.
  unfold crl_pull. destruct (crl_redis c) as [prefix|]; [|by apply extends_refl].
  destruct (hgetall fate (entries_hash prefix) r) as [r1 [remote|]]; [|by apply extends_refl].
  destruct (redis_fetch fate (number_key prefix) r1) as [r2 n].
  pose proof (merge_entries_extend (map_listing remote).*2 (crl_entries c) 0) as H.
  by destruct (foldl merge_entry _ _) as [es added].
Qed.

Lemma crl_persist_entries io c : crl_entries (crl_persist io c).1 = crl_entries c.
Proof. unfold crl_persist. repeat case_match; done. Qed.

Lemma exists_fingerprint fp es :
  existsb (fun e => constant_time_eq (ce_fingerprint e) fp) es = has_fingerprint fp es.
Proof.
  unfold has_fingerprint. induction es as [|e es IH]; [done|]. cbn [existsb]. rewrite IH. f_equal.
  apply eq_true_iff_eq. by rewrite constant_time_eq_true, String.eqb_eq.
Qed.

(** A revocation: the list after it, and whether the entry is new. *)
Lemma crl_revoke_entries now io id fp ser reason c r f :
  trimmed fp = Some f ->
  let c1 := (crl_pull fate c r).1.1 in
  let '(c', _, added) := crl_revoke fate now io id fp ser reason c r in
  let e := new_entry now id (to_ascii_lowercase f) ser reason in
  added = negb (has_fingerprint (to_ascii_lowercase f) (crl_entries c1))
  /\ crl_entries c' = crl_entries c1 ++ (if added then [e] else []).
Proof.
  intros Hf. unfold crl_revoke. rewrite Hf. destruct (crl_pull fate c r) as [[c1 r1] n]; cbn [fst].
  rewrite exists_fingerprint. destruct (has_fingerprint _ (crl_entries c1)); cbn [negb].
  - by rewrite app_nil_r.
  - set (c2 := with_entries _ _ c1). pose proof (crl_persist_entries io c2) as Hp.
    destruct (crl_persist io c2) as [c3 b]. split; [done|]. exact Hp.
Qed.

Lemma crl_step_extends op c r : extends c (crl_step op c r).1.
Proof.
  destruct op as [now io id fp ser reason|]; cbn [crl_step]; [|apply crl_pull_extends].
  destruct (trimmed fp) as [f|] eqn:Hf; [|by unfold crl_revoke; rewrite Hf; apply extends_refl].
  pose proof (crl_revoke_entries now io id fp ser reason c r f Hf) as H. cbn zeta in H.
  destruct (crl_revoke fate now io id fp ser reason c r) as [[c' r'] added]. destruct H as [Ha He].
  eapply extends_trans; [apply (crl_pull_extends c r)|]. unfold extends. cbn [fst]. rewrite He. split; [by eexists|].
  intros Hn. destruct added; [|by rewrite app_nil_r]. apply NoDup_snoc_fingerprint; [done|].
  rewrite <- has_fingerprint_true. cbn. by destruct (has_fingerprint _ _).
Qed.

Lemma crl_run_extends ops c r : extends c (crl_run ops c r).1.
Proof.
  revert c r. induction ops as [|op ops IH]; intros c r; [by apply extends_refl|]. cbn [crl_run].
  pose proof (crl_step_extends op c r) as H. destruct (crl_step op c r) as [c1 r1].
  eapply extends_trans; [exact H|apply IH].
Qed.

Lemma find_extends {c c'} (P : CrlEntry -> bool) :
  extends c c' -> existsb P (crl_entries c) = true -> existsb P (crl_entries c') = true.
Proof. intros [[k Hk] _] He. by rewrite Hk, existsb_app, He. Qed.

Lemma revoked_after_pull P c r :
  existsb P (crl_entries c) = true ->
  existsb P (crl_entries (crl_pull fate c r).1.1) = true.
Proof. apply find_extends, crl_pull_extends. Qed.

Lemma is_fingerprint_revoked_listed fp c r :
  str_is_empty fp = false -> existsb (by_fingerprint (to_ascii_lowercase fp)) (crl_entries c) = true ->
  (is_fingerprint_revoked fate fp c r).2 = true.
Proof.
  intros Hf He. unfold is_fingerprint_revoked. rewrite Hf.
  pose proof (revoked_after_pull _ c r He) as H. by destruct (crl_pull fate c r) as [[c1 r1] n].
Qed.

Lemma is_serial_revoked_listed s c r :
  str_is_empty s = false -> existsb (by_serial (to_ascii_lowercase s)) (crl_entries c) = true ->
  (is_serial_revoked fate s c r).2 = true.
Proof.
  intros Hf He. unfold is_serial_revoked. rewrite Hf.
  pose proof (revoked_after_pull _ c r He) as H. by destruct (crl_pull fate c r) as [[c1 r1] n].
Qed.

Lemma field_is_lower_refl s : field_is_lower (Some (to_ascii_lowercase s)) (to_ascii_lowercase s) = true.
Proof. simpl. rewrite to_ascii_lowercase_idemp. by apply constant_time_eq_true. Qed.

(** What a revocation lists. *)
Lemma crl_revoke_listed now io id fp ser reason c r f :
  trimmed fp = Some f ->
  let '(c', _, added) := crl_revoke fate now io id fp ser reason c r in
  extends c c' /\ existsb (by_fingerprint (to_ascii_lowercase f)) (crl_entries c') = true
  /\ (forall s, added = true -> trimmed ser = Some s ->
        existsb (by_serial (to_ascii_lowercase s)) (crl_entries c') = true).
Proof.
  intros Hf. pose proof (crl_revoke_entries now io id fp ser reason c r f Hf) as H. cbn zeta in H.
  pose proof (crl_step_extends (CrlRevoke now io id fp ser reason) c r) as Hx. cbn [crl_step] in Hx.
  destruct (crl_revoke fate now io id fp ser reason c r) as [[c' r'] added]. cbn [fst] in Hx.
  destruct H as [Ha ->]. split; [done|]. split.
  - rewrite existsb_app. destruct (has_fingerprint (to_ascii_lowercase f) _) eqn:Hh.
    + apply orb_true_iff. left. apply existsb_exists in Hh as (e & He & E%String.eqb_eq).
      apply existsb_exists. exists e. split; [done|]. unfold by_fingerprint. apply constant_time_eq_true.
      by rewrite E, to_ascii_lowercase_idemp.
    + subst added. cbn. unfold by_fingerprint. cbn. rewrite to_ascii_lowercase_idemp.
      by rewrite (proj2 (constant_time_eq_true _ _) eq_refl), orb_true_r.
  - intros s -> Hs. rewrite existsb_app. cbn. unfold by_serial. cbn. rewrite Hs.
    cbn [fmap option_fmap option_map]. by rewrite field_is_lower_refl, orb_true_r.
Qed.

End changes.

(** ** What the responder says, on a node of its own *)

Section status.
Context {SH : Sha256} {DJ : DeviceJson} {CJ : CrlJson} {MO : MapOrder} {MOL : MapOrderLaws}.
Context (fate : N -> Fate).

(** A certificate is listed when an entry has its fingerprint or its serial; a
    device carries it when its record does. *)
Definition listed (fp ser : option string) (es : list CrlEntry) : bool :=
  existsb (fun e => match fp with Some f => by_fingerprint (to_ascii_lowercase f) e | None => false end
                    || match ser with Some s => by_serial (to_ascii_lowercase s) e | None => false end) es.

Definition carries (fp ser : option string) (d : RegisteredDevice) : bool :=
  match fp with Some f => field_is_lower (dev_cert_fingerprint d) (to_ascii_lowercase f) | None => false end
  || match ser with Some s => field_is_lower (dev_cert_serial d) (to_ascii_lowercase s) | None => false end.

Definition own_trust (t : Trust) : Prop := crl_redis (tr_crl t) = None /\ reg_redis (tr_devices t) = None.

Definition status_of (fp ser : option string) (t : Trust) : OcspCertStatus :=
  if listed fp ser (crl_entries (tr_crl t)) then Revoked
  else if any_device (fun d => negb (dev_revoked d) && carries fp ser d) (tr_devices t) then Good
  else if any_device (carries fp ser) (tr_devices t) then Revoked
  else Unknown.

Lemma find_existsb {A} (P : A -> bool) l : present (List.find P l) = existsb P l.
Proof. induction l as [|x l IH]; [done|]. simpl. by destruct (P x). Qed.

Lemma find_revoked_own matches value t :
  own_trust t -> (forall v, value = Some v -> str_is_empty v = false) ->
  find_revoked (crl_find fate matches) value t
  = (t, v ← value; List.find (matches (to_ascii_lowercase v)) (crl_entries (tr_crl t))).
Proof.
  intros [Hc _] Hv. unfold find_revoked. destruct value as [v|]; [|by destruct t].
  unfold crl_find. rewrite (Hv v eq_refl). unfold crl_pull. rewrite Hc. by destruct t.
Qed.

Lemma ask_valid_own get key_of value t :
  own_trust t -> (forall v, value = Some v -> str_is_empty v = false) ->
  ask_valid (fun v reg r => if str_is_empty v then (reg, r, false) else
      check_device (fun d => field_is_lower (get d) (to_ascii_lowercase v))
        (redis_get_indexed fate (key_of (to_ascii_lowercase v)) reg) reg r) value t
  = (t, match value with
        | Some v => any_device (fun d => negb (dev_revoked d) && field_is_lower (get d) (to_ascii_lowercase v)) (tr_devices t)
        | None => false
        end).
Proof.
  intros [_ Hr] Hv. unfold ask_valid. destruct value as [v|]; [|by destruct t]. rewrite (Hv v eq_refl).
  rewrite check_device_local by (intros; by apply get_indexed_local). by destruct t.
Qed.

Lemma ask_known_own get key_of value t :
  own_trust t -> (forall v, value = Some v -> str_is_empty v = false) ->
  ask_known (fun v reg r => if str_is_empty v then (r, false) else
      if any_device (fun d => field_is_lower (get d) (to_ascii_lowercase v)) reg then (r, true)
      else let '(r, found) := redis_get_indexed fate (key_of (to_ascii_lowercase v)) reg r in (r, present found)) value t
  = (t, match value with
        | Some v => any_device (fun d => field_is_lower (get d) (to_ascii_lowercase v)) (tr_devices t)
        | None => false
        end).
Proof.
  intros [_ Hr] Hv. unfold ask_known. destruct value as [v|]; [|by destruct t]. rewrite (Hv v eq_refl).
  rewrite get_indexed_local by done. destruct (any_device _ _); by destruct t.
Qed.

Lemma any_device_or (P Q R : RegisteredDevice -> bool) reg :
  (forall d, R d = P d || Q d) -> any_device R reg = any_device P reg || any_device Q reg.
Proof.
  intros H. unfold any_device. induction (map_listing (reg_devices reg)).*2 as [|d l IH]; [done|].
  simpl. rewrite H, IH. by destruct (P d), (Q d), (existsb P l).
Qed.

Lemma any_device_none reg : any_device (fun _ => false) reg = false.
Proof. unfold any_device. by induction (map_listing (reg_devices reg)).*2. Qed.

Lemma trimmed_not_empty o v : trimmed o = Some v -> str_is_empty v = false.
Proof.
  unfold trimmed, non_blank. destruct o as [s|]; [|done].
  destruct (str_is_empty (trim s)) eqn:Hs; [done|]. by intros [= <-].
Qed.

Lemma listed_split fp ser es :
  listed fp ser es
  = present (v ← fp; List.find (by_fingerprint (to_ascii_lowercase v)) es)
    || present (v ← ser; List.find (by_serial (to_ascii_lowercase v)) es).
Proof.
  destruct fp as [f|], ser as [s|]; cbn [mbind option_bind]; rewrite ?find_existsb; unfold listed;
    induction es as [|e es IH]; try done; cbn [existsb] in *; rewrite IH; cbn [present];
    rewrite ?orb_false_r; try done.
  by destruct (by_fingerprint _ e), (by_serial _ e), (existsb (by_fingerprint _) es).
Qed.

Lemma any_device_option (v : option string) (Q : string -> RegisteredDevice -> bool) reg :
  any_device (fun d => match v with Some f => Q f d | None => false end) reg
  = match v with Some f => any_device (Q f) reg | None => false end.
Proof. destruct v; [done|apply any_device_none]. Qed.

(** The status of a certificate, from a list and a registry. *)
Lemma check_status_own now fp ser t :
  own_trust t -> present (trimmed fp) || present (trimmed ser) = true ->
  exists resp, check_status fate now fp ser t = (t, Ok resp)
    /\ os_status resp = status_of (trimmed fp) (trimmed ser) t.
Proof.
  intros Ht Hp. unfold check_status, status_of. rewrite listed_split.
  rewrite <- negb_orb, Hp. cbn [negb].
  set (f := trimmed fp). set (s := trimmed ser).
  assert (Hf : forall v, f = Some v -> str_is_empty v = false) by (intros v; apply trimmed_not_empty).
  assert (Hs : forall v, s = Some v -> str_is_empty v = false) by (intros v; apply trimmed_not_empty).
  unfold entry_by_fingerprint, entry_by_serial. rewrite !find_revoked_own by done.
  destruct (v ← f; List.find (by_fingerprint (to_ascii_lowercase v)) _); [by eexists|].
  destruct (v ← s; List.find (by_serial (to_ascii_lowercase v)) _); [by eexists|]. cbn [present orb].
  unfold ask_either, cert_fingerprint_valid, cert_serial_valid, cert_fingerprint_known, cert_serial_known,
    redis_get_by_fp, redis_get_by_serial.
  rewrite (ask_valid_own dev_cert_fingerprint (fun v p => fp_key p v) f t) by done.
  rewrite (any_device_or (fun d => match f with Some f => negb (dev_revoked d) && field_is_lower (dev_cert_fingerprint d) (to_ascii_lowercase f) | None => false end)
             (fun d => match s with Some s => negb (dev_revoked d) && field_is_lower (dev_cert_serial d) (to_ascii_lowercase s) | None => false end)
             (fun d => negb (dev_revoked d) && carries f s d))
    by (intros d; unfold carries; by destruct f, s, (dev_revoked d)).
  rewrite !any_device_option.
  destruct (match f with Some _ => _ | None => _ end); [by eexists|].
  rewrite (ask_valid_own dev_cert_serial (fun v p => serial_key p v) s t) by done. cbn [orb].
  destruct (match s with Some _ => _ | None => _ end); [by eexists|].
  rewrite (ask_known_own dev_cert_fingerprint (fun v p => fp_key p v) f t) by done.
  rewrite (any_device_or (fun d => match f with Some f => field_is_lower (dev_cert_fingerprint d) (to_ascii_lowercase f) | None => false end)
             (fun d => match s with Some s => field_is_lower (dev_cert_serial d) (to_ascii_lowercase s) | None => false end)
             (carries f s)) by done.
  rewrite !any_device_option.
  destruct (match f with Some _ => _ | None => _ end); [by eexists|].
  rewrite (ask_known_own dev_cert_serial (fun v p => serial_key p v) s t) by done. cbn [orb].
  destruct (match s with Some _ => _ | None => _ end); by eexists.
Qed.

End status.

(** ** Theorems *)

(** A revoked certificate stays revoked: once a fingerprint was revoked, and
    whatever is revoked, pulled from Redis or lost on the way afterwards, it is
    reported as revoked, in any spelling of its hex digits; so is the serial, when
    the revocation was new; and fingerprints are never listed twice. *)
Theorem revoked_certificate_stays {CJ : CrlJson} {MO : MapOrder} (fate : N -> Fate) (now : N) (io : bool)
    (id reason : string) (fp ser : option string) (f fp' : string) (c : AgentCrl) (r : RedisDb)
    (ops : list CrlOp)
    (Hfp : trimmed fp = Some f) (Hsame : to_ascii_lowercase fp' = to_ascii_lowercase f)
    (Hne : str_is_empty fp' = false) (Hc : NoDup (ce_fingerprint <$> crl_entries c)) :
  let '(c1, r1, added) := crl_revoke fate now io id fp ser reason c r in
  let '(c2, r2) := crl_run fate ops c1 r1 in
  (is_fingerprint_revoked fate fp' c2 r2).2 = true
  /\ NoDup (ce_fingerprint <$> crl_entries c2)
  /\ (forall s s', added = true -> trimmed ser = Some s -> to_ascii_lowercase s' = to_ascii_lowercase s ->
        str_is_empty s' = false -> (is_serial_revoked fate s' c2 r2).2 = true).
Proof.
  pose proof (crl_revoke_listed fate now io id fp ser reason c r f Hfp) as H.
  destruct (crl_revoke fate now io id fp ser reason c r) as [[c1 r1] added]. destruct H as (Hx & Hf & Hs).
  pose proof (crl_run_extends fate ops c1 r1) as Hx2. destruct (crl_run fate ops c1 r1) as [c2 r2].
  cbn [fst] in Hx2. split; [|split].
  - apply is_fingerprint_revoked_listed; [done|]. rewrite Hsame. by eapply find_extends.
  - apply Hx2, Hx, Hc.
  - intros s s' Hadd Hser Heq Hne'. apply is_serial_revoked_listed; [done|]. rewrite Heq.
    eapply find_extends; [done|]. by apply Hs.
Qed.

(** ** Instances *)

Module Demo.

#[local] Instance plain_order : MapOrder := fun _ m => map_to_list m.

Definition entry_code (e : CrlEntry) : list positive :=
  [encode (ce_fingerprint e); encode (ce_serial_hex e); encode (ce_device_id e); encode (ce_revoked_at e);
   encode (ce_reason e)].

Definition entry_decode (l : list positive) : option CrlEntry :=
  match l with
  | [a1; a2; a3; a4; a5] =>
      b1 ← decode a1; b2 ← decode a2; b3 ← decode a3; b4 ← decode a4; b5 ← decode a5;
      Some {| ce_fingerprint := b1; ce_serial_hex := b2; ce_device_id := b3; ce_revoked_at := b4; ce_reason := b5 |}
  | _ => None
  end.

Lemma entry_decode_code e : entry_decode (entry_code e) = Some e.
Proof. destruct e. unfold entry_decode, entry_code. cbn -[encode decode]. by rewrite !decode_encode. Qed.

#[export] Instance text_crl : CrlJson := {|
  entry_to_json e := Some (to_text (entry_code e));
  entry_from_json s := of_text s ≫= entry_decode;
  crl_to_json f := Ok (to_text (cf_version f, cf_crl_number f, entry_code <$> cf_entries f));
  crl_from_json s :=
    match (c ← of_text s; es ← mapM entry_decode c.2;
           Some {| cf_version := c.1.1; cf_crl_number := c.1.2; cf_entries := es |}) with
    | Some f => Ok f
    | None => Err "not a list"
    end;
|}.

#[export] Instance text_crl_laws : CrlJsonLaws text_crl.
Proof.
  split; cbn [entry_to_json entry_from_json crl_to_json crl_from_json text_crl].
  - intros e. eexists. split; [done|]. rewrite of_to_text. cbn [mbind option_bind]. apply entry_decode_code.
  - intros [v n es]. eexists. split; [done|]. split; [|apply to_text_not_blank].
    rewrite of_to_text. cbn [mbind option_bind fst snd cf_version cf_crl_number cf_entries].
    rewrite (proj2 (mapM_Some entry_decode (entry_code <$> es) es)); [done|].
    rewrite Forall2_fmap_l. apply Forall2_same_length_lookup_2; [done|].
    intros i x y Hx Hy. simplify_eq. apply entry_decode_code.
Qed.

(** Redis refuses the second command. *)
Definition flaky (n : N) : Fate := if (n =? 1)%N then Refused else Done.
Definition db : RedisDb := {| rd_keys := ∅; rd_hashes := ∅; rd_clock := 0 |}.
Definition shared : AgentCrl :=
  {| crl_entries := []; crl_path := None; crl_file := None; crl_number := 1; crl_redis := Some "p:"%string |}.

Lemma revoked_certificate_stays_witness :
  let '(c1, r1, added) :=
    crl_revoke flaky 5 true "laptop" (Some " AB01 "%string) (Some "0C"%string) "cessationOfOperation" shared db in
  let '(c2, r2) := crl_run flaky [CrlPull; CrlRevoke 6 false "phone" (Some "ff"%string) None EmptyString] c1 r1 in
  (is_fingerprint_revoked flaky "aB01" c2 r2).2 = true
  /\ NoDup (ce_fingerprint <$> crl_entries c2)
  /\ (forall s s', added = true -> trimmed (Some "0C"%string) = Some s ->
        to_ascii_lowercase s' = to_ascii_lowercase s ->
        str_is_empty s' = false -> (is_serial_revoked flaky s' c2 r2).2 = true).
Proof.
  apply (revoked_certificate_stays flaky 5 true "laptop" "cessationOfOperation" (Some " AB01 "%string)
           (Some "0C"%string) "AB01" "aB01" shared db
           [CrlPull; CrlRevoke 6 false "phone" (Some "ff"%string) None EmptyString]); [reflexivity..|].
  apply NoDup_nil_2.
Defined.

End Demo.
