(* ===== verification/Effects.v ===== *)
(** * Programs over commands

    A request handler is a program: a tree of commands to the shared components
    and to the outside, each followed by what is done with the answer.  Other
    requests and the outside act between two commands, so a run of a program is
    any sequence of answers; what a theorem needs of the answers it assumes.

    [prog] is the type, [runs] its runs with their traces, [exec] runs a program
    with a handler of commands, and [wp] proves protocols: a monitor with a state,
    a guard on the commands and a step by command and answer. *)

From stdpp Require Import base list relations.
From S2P Require Import Prelude.

Section programs.
Context {Cmd : Type -> Type}.

Inductive prog (A : Type) : Type :=
| Ret (a : A)
| Do {X : Type} (c : Cmd X) (k : X -> prog A).
Arguments Ret {_} _.
Arguments Do {_ _} _ _.

Definition call {X} (c : Cmd X) : prog X := Do c Ret.

Fixpoint prog_bind {A B} (f : A -> prog B) (p : prog A) : prog B :=
  match p with
  | Ret a => f a
  | Do c k => Do c (fun x => prog_bind f (k x))
  end.

(** A command with its answer. *)
Inductive event : Type :=
| Ev {X : Type} (c : Cmd X) (x : X).

Inductive runs {A} : prog A -> list event -> A -> Prop :=
| runs_ret a : runs (Ret a) [] a
| runs_do {X} (c : Cmd X) k x tr a : runs (k x) tr a -> runs (Do c k) (Ev c x :: tr) a.

Section exec.
Context {W : Type} (handler : forall X, Cmd X -> W -> option (W * X)).

(** The state at the end, the trace and the result; a command the handler has no
    answer to ends the run. *)
Fixpoint exec {A} (p : prog A) (w : W) : option (W * list event * A) :=
  match p with
  | Ret a => Some (w, [], a)
  | Do c k =>
      match handler _ c w with
      | Some (w, x) =>
          match exec (k x) w with
          | Some (w, tr, a) => Some (w, Ev c x :: tr, a)
          | None => None
          end
      | None => None
      end
  end.

Lemma exec_runs {A} (p : prog A) w w' tr a : exec p w = Some (w', tr, a) -> runs p tr a.
Proof.
  revert w tr. induction p as [b|X c k IH]; intros w tr; cbn [exec].
  - intros [= _ <- <-]. constructor.
  - destruct (handler X c w) as [[w1 x]|]; [|done].
    destruct (exec (k x) w1) as [[[w2 tr'] b]|] eqn:He; [|done].
    intros [= -> <- <-]. constructor. by apply (IH x w1).
Qed.

End exec.

(** ** Protocols *)

Section wp.
Context {S : Type}.
Context (guard : forall X, Cmd X -> S -> Prop) (step : forall X, Cmd X -> X -> S -> S).

Fixpoint wp {A} (p : prog A) (Q : A -> S -> Prop) (s : S) : Prop :=
  match p with
  | Ret a => Q a s
  | Do c k => guard _ c s /\ forall x, wp (k x) Q (step _ c x s)
  end.

Lemma wp_mono {A} (p : prog A) (Q Q' : A -> S -> Prop) s :
  (forall a s', Q a s' -> Q' a s') -> wp p Q s -> wp p Q' s.
Proof.
  intros HQ. revert s. induction p as [a|X c k IH]; intros s; cbn [wp]; [apply HQ|].
  intros [Hg Hk]. split; [done|]. intros x. by apply IH.
Qed.

Lemma wp_bind {A B} (p : prog A) (f : A -> prog B) Q s :
  wp p (fun a s' => wp (f a) Q s') s -> wp (prog_bind f p) Q s.
Proof.
  revert s. induction p as [a|X c k IH]; intros s; cbn [wp prog_bind]; [done|].
  intros [Hg Hk]. split; [done|]. intros x. by apply IH.
Qed.

Lemma wp_call {X} (c : Cmd X) (Q : X -> S -> Prop) s :
  guard _ c s -> (forall x, Q x (step _ c x s)) -> wp (call c) Q s.
Proof. intros Hg HQ. by split. Qed.

Definition ev_step (s : S) (e : event) : S := match e with Ev c x => step _ c x s end.

(** The monitor's state after a trace. *)
Definition after (tr : list event) (s : S) : S := foldl ev_step s tr.

Definition ev_guard (e : event) (s : S) : Prop := match e with Ev c _ => guard _ c s end.

(** Every run of a program that keeps a protocol ends as the protocol promises,
    and every command of its trace was allowed when it was issued. *)
Lemma wp_runs {A} (p : prog A) Q s tr a :
  wp p Q s -> runs p tr a ->
  Q a (after tr s) /\
  forall before e rest, tr = before ++ e :: rest -> ev_guard e (after before s).
Proof.
  intros Hwp Hr. revert s Hwp. induction Hr as [a|X c k x tr a Hr IH]; intros s Hwp.
  - split; [done|]. intros before e rest Heq. by destruct before.
  - destruct Hwp as [Hg Hk]. destruct (IH _ (Hk x)) as [HQ Hall]. split; [done|].
    intros before e rest Heq. destruct before as [|e' before]; cbn in Heq; injection Heq as <- Heq; [done|].
    by apply (Hall before e rest).
Qed.

End wp.

End programs.

Arguments prog : clear implicits.
Arguments Ret {_ _} _.
Arguments Do {_ _ _} _ _.
Arguments event : clear implicits.
Arguments Ev {_ _} _ _.

#[export] Instance prog_mret {Cmd} : MRet (prog Cmd) := fun A a => Ret a.
#[export] Instance prog_mbind {Cmd} : MBind (prog Cmd) := fun A B f p => prog_bind f p.

Section sequence.
Context {Cmd : Type -> Type} {S : Type}.
Context (guard : forall X, Cmd X -> S -> Prop) (step : forall X, Cmd X -> X -> S -> S).

Lemma wp_seq {A B} (p : prog Cmd A) (f : A -> prog Cmd B) Q s :
  wp guard step p (fun a s' => wp guard step (f a) Q s') s -> wp guard step (p ≫= f) Q s.
Proof. apply wp_bind. Qed.

(** A part that keeps a protocol, followed by one that keeps it from there. *)
Lemma wp_seq_mono {A B} (p : prog Cmd A) (f : A -> prog Cmd B) R Q s :
  wp guard step p R s -> (forall a s', R a s' -> wp guard step (f a) Q s') ->
  wp guard step (p ≫= f) Q s.
Proof. intros Hp Hf. apply wp_seq. by eapply wp_mono. Qed.

End sequence.

(** ** Protocols over the history

    The monitor's state is the trace so far. *)

Section history.
Context {Cmd : Type -> Type}.

Abbreviation history := (list (event Cmd)).

Definition record_ev (X : Type) (c : Cmd X) (x : X) (h : history) : history := h ++ [Ev c x].

Context (guard : forall X, Cmd X -> history -> Prop).

Definition hwp {A} (p : prog Cmd A) (Q : A -> history -> Prop) (h : history) : Prop :=
  wp guard record_ev p Q h.

Lemma after_history tr h : after record_ev tr h = h ++ tr.
Proof.
  revert h. induction tr as [|[X c x] tr IH]; intros h; [by rewrite app_nil_r|].
  unfold after in *. cbn [foldl ev_step]. rewrite IH. unfold record_ev. by rewrite <- (assoc_L (++)).
Qed.

(** Every run of a program that keeps a protocol keeps it at every command. *)
Lemma hwp_runs {A} (p : prog Cmd A) Q tr a :
  hwp p Q [] -> runs p tr a ->
  Q a tr /\ forall X (c : Cmd X) x before rest, tr = before ++ Ev c x :: rest -> guard X c before.
Proof.
  intros Hp Hr. destruct (wp_runs guard record_ev p Q [] tr a Hp Hr) as [HQ Hall].
  rewrite after_history in HQ. split; [done|]. intros X c x before rest Heq.
  specialize (Hall before (Ev c x) rest Heq). by rewrite after_history in Hall.
Qed.

Lemma hwp_ret {A} (a : A) (Q : A -> history -> Prop) h : Q a h -> hwp (mret a) Q h.
Proof. done. Qed.

Lemma hwp_call {X} (c : Cmd X) (Q : X -> history -> Prop) h :
  guard X c h -> (forall x, Q x (h ++ [Ev c x])) -> hwp (call c) Q h.
Proof. intros Hg HQ. by apply wp_call. Qed.

Lemma hwp_mono {A} (p : prog Cmd A) (Q Q' : A -> history -> Prop) h :
  hwp p Q h -> (forall a h', Q a h' -> Q' a h') -> hwp p Q' h.
Proof. intros Hp HQ. by eapply wp_mono. Qed.

Lemma hwp_bind {A B} (p : prog Cmd A) (f : A -> prog Cmd B) Q h :
  hwp p (fun a h' => hwp (f a) Q h') h -> hwp (p ≫= f) Q h.
Proof. apply wp_seq. Qed.

Lemma hwp_bind_mono {A B} (p : prog Cmd A) (f : A -> prog Cmd B) R Q h :
  hwp p R h -> (forall a h', R a h' -> hwp (f a) Q h') -> hwp (p ≫= f) Q h.
Proof. apply wp_seq_mono. Qed.

(** Once an invariant holds that later events keep and that allows every command,
    any program keeps the protocol. *)
Lemma hwp_invariant {A} (I : history -> Prop) (p : prog Cmd A) h :
  (forall h' e, I h' -> I (h' ++ [e])) -> (forall X (c : Cmd X) h', I h' -> guard X c h') ->
  I h -> hwp p (fun _ h' => I h') h.
Proof.
  intros Hmono Hguard. unfold hwp. revert h. induction p as [a|X c k IH]; intros h HI; cbn [wp]; [done|].
  split; [by apply Hguard|]. intros x. apply IH. by apply Hmono.
Qed.

End history.

(** ** Programs that issue only some commands

    [only P R p]: every command of [p] satisfies [P] and every result [R]. *)

Section only.
Context {Cmd : Type -> Type}.
Context (P : forall X, Cmd X -> Prop).

Fixpoint only {A} (R : A -> Prop) (p : prog Cmd A) : Prop :=
  match p with
  | Ret a => R a
  | Do c k => P _ c /\ forall x, only R (k x)
  end.

Lemma only_ret {A} (R : A -> Prop) (a : A) : R a -> only R (mret a : prog Cmd A).
Proof. done. Qed.

Lemma only_call {X} (R : X -> Prop) (c : Cmd X) : P X c -> (forall x, R x) -> only R (call c).
Proof. by split. Qed.

Lemma only_bind {A B} (R : B -> Prop) (p : prog Cmd A) (f : A -> prog Cmd B) :
  only (fun _ => True) p -> (forall a, only R (f a)) -> only R (p ≫= f).
Proof.
  intros Hp Hf. unfold mbind, prog_mbind. induction p as [a|X c k IH]; cbn [prog_bind only] in *; [apply Hf|].
  destruct Hp as [Hc Hk]. split; [done|]. intros x. by apply IH.
Qed.

Lemma only_bind_mono {A B} (R : A -> Prop) (R' : B -> Prop) (p : prog Cmd A) (f : A -> prog Cmd B) :
  only R p -> (forall a, R a -> only R' (f a)) -> only R' (p ≫= f).
Proof.
  intros Hp Hf. unfold mbind, prog_mbind. induction p as [a|X c k IH]; cbn [prog_bind only] in *; [by apply Hf|].
  destruct Hp as [Hc Hk]. split; [done|]. intros x. by apply IH.
Qed.

(** Every command of every run is one of them. *)
Lemma only_runs_Forall {A} (R : A -> Prop) (p : prog Cmd A) tr a :
  only R p -> runs p tr a -> Forall (fun e : event Cmd => match e with Ev c _ => P _ c end) tr.
Proof.
  intros Hp Hr. revert Hp. induction Hr as [|X c k x tr b Hr IH]; intros Hp; constructor; [apply Hp|].
  apply IH, Hp.
Qed.

Lemma only_runs {A} (R : A -> Prop) (p : prog Cmd A) tr a :
  only R p -> runs p tr a ->
  forall X (c : Cmd X) x before rest, tr = before ++ Ev c x :: rest -> P X c.
Proof.
  intros Hp Hr X c x before rest ->.
  destruct (proj1 (Forall_app _ _ _) (only_runs_Forall R p _ a Hp Hr)) as [_ Hall].
  by apply Forall_cons in Hall as [Hc _].
Qed.

(** Such a program keeps every invariant those commands keep. *)
Lemma hwp_only {A} (guard : forall X, Cmd X -> list (event Cmd) -> Prop) (I : list (event Cmd) -> Prop)
    (R : A -> Prop) (p : prog Cmd A) h :
  only R p ->
  (forall X (c : Cmd X) h', P X c -> I h' -> guard X c h' /\ forall x, I (h' ++ [Ev c x])) ->
  I h -> hwp guard p (fun a h' => R a /\ I h') h.
Proof.
  intros Hp HI. unfold hwp. revert h. induction p as [a|X c k IH]; intros h Hh; cbn [wp only] in *; [done|].
  destruct Hp as [Hc Hk], (HI X c h Hc Hh) as [Hg Hn]. split; [done|]. intros x. apply IH; [done|]. apply Hn.
Qed.

End only.

(** ** Programs that a handler answers to the end

    [answers p Q w]: from [w] the handler answers every command of [p], and the
    result and the state at the end satisfy [Q]. *)

Section answers.
Context {Cmd : Type -> Type} {W : Type} (handler : forall X, Cmd X -> W -> option (W * X)).

Definition answers {A} (p : prog Cmd A) (Q : A -> W -> Prop) (w : W) : Prop :=
  exists w' tr a, exec handler p w = Some (w', tr, a) /\ Q a w'.

Lemma exec_seq {A B} (p : prog Cmd A) (f : A -> prog Cmd B) w :
  exec handler (p ≫= f) w =
  match exec handler p w with
  | Some (w1, tr1, a) =>
      match exec handler (f a) w1 with Some (w2, tr2, b) => Some (w2, tr1 ++ tr2, b) | None => None end
  | None => None
  end.
Proof.
  unfold mbind, prog_mbind. revert w. induction p as [a|X c k IH]; intros w; cbn [prog_bind exec].
  - by destruct (exec handler (f a) w) as [[[]]|].
  - destruct (handler X c w) as [[w1 x]|]; [|done]. rewrite IH.
    destruct (exec handler (k x) w1) as [[[w2 tr] a]|]; [|done].
    by destruct (exec handler (f a) w2) as [[[]]|].
Qed.

Lemma answers_ret {A} (a : A) (Q : A -> W -> Prop) w : Q a w -> answers (mret a) Q w.
Proof. intros HQ. by exists w, [], a. Qed.

Lemma answers_call {X} (c : Cmd X) (Q : X -> W -> Prop) w w' x :
  handler X c w = Some (w', x) -> Q x w' -> answers (call c) Q w.
Proof. intros Hh HQ. exists w', [Ev c x], x. cbn. by rewrite Hh. Qed.

Lemma answers_mono {A} (p : prog Cmd A) (Q Q' : A -> W -> Prop) w :
  answers p Q w -> (forall a w', Q a w' -> Q' a w') -> answers p Q' w.
Proof. intros (w' & tr & a & He & HQ) Hm. exists w', tr, a. auto. Qed.

Lemma answers_bind {A B} (p : prog Cmd A) (f : A -> prog Cmd B) R Q w :
  answers p R w -> (forall a w', R a w' -> answers (f a) Q w') -> answers (p ≫= f) Q w.
Proof.
  intros (w1 & tr1 & a & He & HR) Hf. destruct (Hf a w1 HR) as (w2 & tr2 & b & He' & HQ).
  exists w2, (tr1 ++ tr2), b. by rewrite exec_seq, He, He'.
Qed.

(** A program of commands that are always answered and keep an invariant. *)
Lemma answers_only {A} (P : forall X, Cmd X -> Prop) (R : A -> Prop) (I : W -> Prop) (p : prog Cmd A) w :
  only P R p ->
  (forall X (c : Cmd X) w, P X c -> I w -> exists w' x, handler X c w = Some (w', x) /\ I w') ->
  I w -> answers p (fun a w' => R a /\ I w') w.
Proof.
  intros Hp HI. revert w. induction p as [a|X c k IH]; intros w Hw; cbn [only] in Hp; [by apply answers_ret|].
  destruct Hp as [Hc Hk]. destruct (HI X c w Hc Hw) as (w1 & x & Hh & Hw1).
  destruct (IH x (Hk x) w1 Hw1) as (w2 & tr & a & He & HQ).
  exists w2, (Ev c x :: tr), a. cbn [exec]. by rewrite Hh, He.
Qed.

End answers.

(** ** Programs side by side

    Several programs over one state: a step is one command of one of them, so
    anything may happen to the state between two commands of the same program.
    [abides P V R p]: [p] issues only commands that satisfy [P] and ends with a result
    that satisfies [R], as long as the answers it gets are in [V]. *)

Section pool.
Context {Cmd : Type -> Type} {W : Type} (react : forall X, Cmd X -> W -> W -> X -> Prop).

Inductive pool_step {A} : W * list (prog Cmd A) -> W * list (prog Cmd A) -> Prop :=
| pool_do before after X (c : Cmd X) k w w' x :
    react X c w w' x ->
    pool_step (w, before ++ Do c k :: after) (w', before ++ k x :: after).

(** A schedule: the number of the program that is next, again and again. *)
Definition pool_turn {A} (handler : forall X, Cmd X -> W -> option (W * X)) (s : option (W * list (prog Cmd A)))
    (i : nat) : option (W * list (prog Cmd A)) :=
  '(w, ps) ← s;
  p ← ps !! i;
  match p with
  | Ret _ => None
  | Do c k => '(w, x) ← handler _ c w; Some (w, <[i := k x]> ps)
  end.

Lemma pool_turns_steps {A} handler schedule (s s' : W * list (prog Cmd A)) :
  (forall X (c : Cmd X) w w' x, handler X c w = Some (w', x) -> react X c w w' x) ->
  foldl (pool_turn handler) (Some s) schedule = Some s' -> rtc pool_step s s'.
Proof.
  intros Hh. revert s. induction schedule as [|i schedule IH]; intros [w ps]; cbn [foldl].
  - intros [= <-]. done.
  - destruct (pool_turn handler (Some (w, ps)) i) as [s2|] eqn:E; cycle 1.
    { intros H. exfalso. revert H. clear. by induction schedule. }
    intros H. eapply rtc_l; [|by apply IH]. cbn in E. destruct (ps !! i) as [p|] eqn:Ep; [|done]. cbn in E.
    destruct p as [a|X c k]; [done|]. destruct (handler X c w) as [[w' x]|] eqn:Ec; [|done]. injection E as <-.
    rewrite (insert_take_drop _ _ _ (lookup_lt_Some _ _ _ Ep)). rewrite <- (take_drop_middle ps i _ Ep) at 1.
    constructor. by apply Hh.
Qed.

Context (P : forall X, Cmd X -> Prop) (V : forall X, Cmd X -> X -> Prop).

Fixpoint abides {A} (R : A -> Prop) (p : prog Cmd A) : Prop :=
  match p with
  | Ret a => R a
  | Do c k => P _ c /\ forall x, V _ c x -> abides R (k x)
  end.

Lemma abides_ret {A} (R : A -> Prop) (a : A) : R a -> abides R (mret a).
Proof. done. Qed.

Lemma abides_call {X} (R : X -> Prop) (c : Cmd X) : P X c -> (forall x, V X c x -> R x) -> abides R (call c).
Proof. by split. Qed.

Lemma abides_bind {A B} (R : A -> Prop) (R' : B -> Prop) (p : prog Cmd A) (f : A -> prog Cmd B) :
  abides R p -> (forall a, R a -> abides R' (f a)) -> abides R' (p ≫= f).
Proof.
  intros Hp Hf. unfold mbind, prog_mbind. induction p as [a|X c k IH]; cbn [prog_bind abides] in *; [by apply Hf|].
  destruct Hp as [Hc Hk]. split; [done|]. intros x Hx. by apply IH, Hk.
Qed.

(** An invariant of the state that the commands keep and that gives the answers holds
    in every interleaving, and every program that ends has its result. *)
Lemma pool_invariant {A} (I : W -> Prop) (Rs : list (A -> Prop)) w ps w' ps' :
  (forall X (c : Cmd X) w w' x, I w -> P X c -> react X c w w' x -> I w' /\ V X c x) ->
  I w -> Forall2 abides Rs ps -> rtc pool_step (w, ps) (w', ps') ->
  I w' /\ Forall2 abides Rs ps'.
Proof.
  intros HI Hw Hps Hrun. remember (w, ps) as s eqn:Es. remember (w', ps') as s' eqn:Es'.
  revert w ps w' ps' Es Es' Hw Hps. induction Hrun as [s|s1 s2 s3 Hstep _ IH]; intros w ps w' ps' -> E Hw Hps.
  - by injection E as <- <-.
  - inversion Hstep as [before after X c k ? w2 x Hr Eq1 Eq2]; subst.
    apply Forall2_app_inv_r in Hps as (R1 & R2 & H1 & H2 & ->).
    apply Forall2_cons_inv_r in H2 as (R & R3 & [Hc Hk] & H3 & ->).
    destruct (HI X c w w2 x Hw Hc Hr) as [Hw2 Hx]. eapply IH; [done|done|done|].
    apply Forall2_app; [done|]. constructor; [by apply Hk|done].
Qed.

End pool.
