(* ===== verification/AlertWorker.v ===== *)
(** * The alert worker (src/alert-worker/src)

    A cycle queries ClickHouse for each rule, turns rows into findings, suppresses those
    it fired recently and posts the others.  The clocks, the replies of ClickHouse and of
    the webhook and the random ids of a cycle are its inputs; its requests are returned in
    the order they are sent.  SHA-256, serde_json, the text of numbers, the binary
    logarithm and the order a [HashMap] is listed in are classes. *)

From Stdlib Require Import Ascii String NArith ZArith Lia.
From Stdlib Require Import Floats.SpecFloat.
From stdpp Require Import base option gmap strings pretty numbers list sorting.
From S2P Require Import Prelude Float64 Utf8 CacheDigest SemanticCache ClickHouse Devices.

Local Open Scope rust_scope.

(** [f64::log2]. *)
Class Libm := f64_log2 : f64 -> f64.

(** ** Entropy (entropy.rs) *)

Inductive HighEntropyMode := Shannon | Legacy | Either.

Definition HighEntropyMode_parse (raw : string) : HighEntropyMode :=
  let s := to_ascii_lowercase (trim raw) in
  if bool_decide (s ∈ ["shannon"; "sha"]%string) then Shannon
  else if bool_decide (s ∈ ["legacy"; "digits"]%string) then Legacy
  else Either.

Record HighEntropyMatch := {
  he_entropy : f64;
  he_shannon_hit : bool;
  he_legacy_hit : bool;
}.

Definition kind_label (m : HighEntropyMatch) : string :=
  match he_shannon_hit m, he_legacy_hit m with
  | true, true => "shannon+legacy"
  | true, false => "shannon"
  | false, true => "legacy"
  | false, false => "none"
  end.

(** How often each character occurs. *)
Definition char_counts (cs : list string) : gmap string N :=
  foldl (fun m c => <[c := (default 0 (m !! c) + 1)%N]> m) ∅ cs.

Section entropy.
Context {LM : Libm} {MO : MapOrder}.

Definition shannon_entropy (s : string) : f64 :=
  let cs := utf8_chars s in
  let len := N.of_nat (length cs) in
  if (len =? 0)%N then S754_zero false
  else
    foldl (fun acc count => let p := fdiv (f64_of_N count) (f64_of_N len) in fsub acc (fmul p (f64_log2 p)))
      (S754_zero false) (snd <$> map_listing (char_counts cs)).

Definition leftmost_label (domain : string) : string :=
  trim_end_matches "." (default domain (head (split_on "." domain))).

Definition domain_label_entropy (domain : string) : f64 := shannon_entropy (to_ascii_lowercase (leftmost_label domain)).

(** Four digits in a row; [run] is the length of the current one. *)
Fixpoint digit_run_4 (run : nat) (s : string) : bool :=
  match s with
  | EmptyString => false
  | String c s => if is_ascii_digit c then (4 <=? S run) || digit_run_4 (S run) s else digit_run_4 0 s
  end.

Definition legacy_high_entropy_domain (domain : string) (min_domain_len : N) : bool :=
  if (str_len domain <? min_domain_len)%N then false else digit_run_4 0 domain.

Definition matches_high_entropy (domain : string) (mode : HighEntropyMode) (shannon_min_bits : f64)
    (min_label_len legacy_min_domain_len : N) : option HighEntropyMatch :=
  let entropy := domain_label_entropy domain in
  let label_len := N.of_nat (length (utf8_chars (leftmost_label domain))) in
  let shannon_hit := (min_label_len <=? label_len)%N && fle shannon_min_bits entropy in
  let legacy_hit := legacy_high_entropy_domain domain legacy_min_domain_len in
  let ok := match mode with Shannon => shannon_hit | Legacy => legacy_hit | Either => shannon_hit || legacy_hit end in
  if ok then Some {| he_entropy := entropy; he_shannon_hit := shannon_hit; he_legacy_hit := legacy_hit |} else None.

End entropy.

(** ** Settings (config.rs) *)

Record AlertConfig := {
  al_webhook_url : string;
  al_webhook_timeout : N;
  al_webhook_headers : gmap string string;
  al_clickhouse_url : string;
  al_clickhouse_database : string;
  al_clickhouse_table : string;
  al_clickhouse_user : option string;
  al_clickhouse_password : option string;
  al_poll_interval : N;
  al_lookback : N;
  al_dedupe_ttl : N;
  al_metrics_port : N;
  al_source : string;
  al_rules : list string;
  al_blocked_burst_threshold : N;
  al_domain_burst_threshold : N;
  al_high_entropy_min_requests : N;
  al_high_entropy_min_domain_len : N;
  al_shannon_min_label_len : N;
  al_shannon_min_bits : f64;
  al_high_entropy_mode : HighEntropyMode;
  al_high_entropy_legacy_min_domain_len : N;
  al_off_hours_min_events : N;
  al_beacon_lookback : N;
  al_beacon_min_hits : N;
  al_beacon_min_interval_secs : N;
  al_beacon_max_interval_secs : N;
  al_beacon_max_gap_cv : f64;
}.

Definition parse_rules_list (raw : string) : list string :=
  List.filter (fun s => negb (str_is_empty s)) (trim <$> split_on "," raw).

Fixpoint headers_of_members (members : list (string * json)) (out : gmap string string)
    : result (gmap string string) string :=
  match members with
  | [] => Ok out
  | (k, v) :: members =>
      match as_str v with
      | Some s => headers_of_members members (<[k := s]> out)
      | None => Err ("ALERT_WEBHOOK_HEADERS[" +:+ k +:+ "] must be a string")
      end
  end.

Definition parse_headers_json {SJ : SerdeJson} {DT : DisplayText} (raw : string) : result (gmap string string) string :=
  match json_from_slice raw with
  | None => Err ("ALERT_WEBHOOK_HEADERS: " +:+ json_parse_error raw)
  | Some (JObject members) => headers_of_members members ∅
  | Some _ => Err "ALERT_WEBHOOK_HEADERS must be a JSON object"%string
  end.

Definition non_empty_env (env : Env) (name : string) : option string :=
  match env name with Some s => if str_is_empty s then None else Some s | None => None end.

Definition AlertConfig_from_env {SJ : SerdeJson} {DT : DisplayText} (env : Env) : result AlertConfig string :=
  match env "ALERT_WEBHOOK_URL"%string with
  | None => Err "ALERT_WEBHOOK_URL is required"%string
  | Some webhook_url =>
      if str_is_empty (trim webhook_url) then Err "ALERT_WEBHOOK_URL must not be empty"%string
      else
        let? webhook_headers := parse_headers_json (default "{}"%string (env "ALERT_WEBHOOK_HEADERS"%string)) in
        let secs name dflt := from_secs (env_parse parse_u64 env name dflt) in
        let num name dflt := env_parse parse_u64 env name dflt in
        let str name dflt := default dflt (env name) in
        Ok {| al_webhook_url := webhook_url;
              al_webhook_timeout := secs "ALERT_WEBHOOK_TIMEOUT_SECS"%string 10%N;
              al_webhook_headers := webhook_headers;
              al_clickhouse_url := str "CLICKHOUSE_URL"%string "http://127.0.0.1:8123"%string;
              al_clickhouse_database := str "CLICKHOUSE_DATABASE"%string "bsdm"%string;
              al_clickhouse_table := str "CLICKHOUSE_TABLE"%string "http_cache"%string;
              al_clickhouse_user := non_empty_env env "CLICKHOUSE_USER";
              al_clickhouse_password := non_empty_env env "CLICKHOUSE_PASSWORD";
              al_poll_interval := secs "ALERT_POLL_INTERVAL_SECS"%string 60%N;
              al_lookback := secs "ALERT_LOOKBACK_SECS"%string 300%N;
              al_dedupe_ttl := secs "ALERT_DEDUPE_TTL_SECS"%string 3600%N;
              al_metrics_port := (num "METRICS_PORT"%string 8090 mod 65536)%N;
              al_source := str "ALERT_SOURCE"%string "bsdm-proxy-alert-worker"%string;
              al_rules := parse_rules_list (str "ALERT_RULES"%string
                "blocked_burst,domain_burst,off_hours_threat,high_entropy_domain,beacon_periodic"%string);
              al_blocked_burst_threshold := num "ALERT_BLOCKED_BURST_THRESHOLD"%string 10%N;
              al_domain_burst_threshold := num "ALERT_DOMAIN_BURST_THRESHOLD"%string 50%N;
              al_high_entropy_min_requests := num "ALERT_HIGH_ENTROPY_MIN_REQUESTS"%string 5%N;
              al_high_entropy_min_domain_len := num "ALERT_HIGH_ENTROPY_MIN_DOMAIN_LEN"%string 16%N;
              al_shannon_min_label_len := num "ALERT_SHANNON_MIN_LABEL_LEN"%string 12%N;
              al_shannon_min_bits := env_parse parse_f64 env "ALERT_SHANNON_MIN_BITS" (f64_of_decimal false 35 (-1));
              al_high_entropy_mode := HighEntropyMode_parse (str "ALERT_HIGH_ENTROPY_MODE"%string "either"%string);
              al_high_entropy_legacy_min_domain_len := num "ALERT_HIGH_ENTROPY_LEGACY_MIN_DOMAIN_LEN"%string 25%N;
              al_off_hours_min_events := num "ALERT_OFF_HOURS_MIN_EVENTS"%string 1%N;
              al_beacon_lookback := secs "ALERT_BEACON_LOOKBACK_SECS"%string 3600%N;
              al_beacon_min_hits := num "ALERT_BEACON_MIN_HITS"%string 5%N;
              al_beacon_min_interval_secs := num "ALERT_BEACON_MIN_INTERVAL_SECS"%string 45%N;
              al_beacon_max_interval_secs := num "ALERT_BEACON_MAX_INTERVAL_SECS"%string 900%N;
              al_beacon_max_gap_cv := env_parse parse_f64 env "ALERT_BEACON_MAX_GAP_CV" (f64_of_decimal false 25 (-2)) |}
  end.

Definition fq_table (c : AlertConfig) : string := al_clickhouse_database c +:+ "." +:+ al_clickhouse_table c.

(** ** Queries (rules.rs) *)

Definition blocked_burst_sql (c : AlertConfig) : string :=
  join_lines [
    "SELECT"; "  coalesce(username, '') AS username,"; "  toString(client_ip) AS client_ip,";
    "  count() AS value"; "FROM " +:+ fq_table c;
    "WHERE ts >= now() - INTERVAL " +:+ pretty (as_secs (al_lookback c)) +:+ " SECOND";
    "  AND (acl_action = 'deny' OR cache_status = 'DENY')"; "GROUP BY username, client_ip";
    "HAVING value >= " +:+ pretty (al_blocked_burst_threshold c); "ORDER BY value DESC"; "LIMIT 100";
    "FORMAT JSONEachRow"].

Definition domain_burst_sql (c : AlertConfig) : string :=
  join_lines [
    "SELECT"; "  toString(client_ip) AS client_ip,"; "  domain,"; "  count() AS value";
    "FROM " +:+ fq_table c;
    "WHERE ts >= now() - INTERVAL " +:+ pretty (as_secs (al_lookback c)) +:+ " SECOND";
    "  AND domain != ''"; "GROUP BY client_ip, domain";
    "HAVING value >= " +:+ pretty (al_domain_burst_threshold c); "ORDER BY value DESC"; "LIMIT 100";
    "FORMAT JSONEachRow"].

Definition off_hours_threat_sql (c : AlertConfig) : string :=
  join_lines [
    "SELECT"; "  coalesce(username, '') AS username,"; "  toString(client_ip) AS client_ip,"; "  domain,";
    "  count() AS value"; "FROM " +:+ fq_table c;
    "WHERE ts >= now() - INTERVAL " +:+ pretty (as_secs (al_lookback c)) +:+ " SECOND";
    "  AND (toHour(ts) >= 22 OR toHour(ts) < 6)"; "  AND length(threat_sources) > 0";
    "GROUP BY username, client_ip, domain"; "HAVING value >= " +:+ pretty (al_off_hours_min_events c);
    "ORDER BY value DESC"; "LIMIT 100"; "FORMAT JSONEachRow"].

Definition high_entropy_domain_sql (c : AlertConfig) : string :=
  join_lines [
    "SELECT"; "  domain,"; "  count() AS value,"; "  uniqExact(client_ip) AS clients";
    "FROM " +:+ fq_table c;
    "WHERE ts >= now() - INTERVAL " +:+ pretty (as_secs (al_lookback c)) +:+ " SECOND";
    "  AND length(domain) >= " +:+ pretty (al_high_entropy_min_domain_len c); "GROUP BY domain";
    "HAVING value >= " +:+ pretty (al_high_entropy_min_requests c); "ORDER BY value DESC"; "LIMIT 200";
    "FORMAT JSONEachRow"].

Definition beacon_periodic_sql {FT : FloatText} (c : AlertConfig) : string :=
  join_lines [
    "WITH ordered AS ("; "  SELECT"; "    toString(client_ip) AS client_ip,"; "    domain,"; "    ts,";
    "    dateDiff("; "      'second',";
    "      lagInFrame(ts) OVER (PARTITION BY client_ip, domain ORDER BY ts),"; "      ts";
    "    ) AS gap_sec"; "  FROM " +:+ fq_table c;
    "  WHERE ts >= now() - INTERVAL " +:+ pretty (as_secs (al_beacon_lookback c)) +:+ " SECOND";
    "    AND domain != ''"; ")"; "SELECT"; "  client_ip,"; "  domain,"; "  count() AS value,";
    "  avg(gap_sec) AS avg_gap,"; "  if(avg(gap_sec) = 0, 1, stddevPop(gap_sec) / avg(gap_sec)) AS gap_cv";
    "FROM ordered"; "WHERE gap_sec IS NOT NULL";
    "  AND gap_sec BETWEEN " +:+ pretty (al_beacon_min_interval_secs c) +:+ " AND " +:+ pretty (al_beacon_max_interval_secs c);
    "GROUP BY client_ip, domain"; "HAVING value >= " +:+ pretty (al_beacon_min_hits c);
    "  AND gap_cv <= " +:+ f64_display (al_beacon_max_gap_cv c); "ORDER BY value DESC"; "LIMIT 100";
    "FORMAT JSONEachRow"].


(** A rule that is not known has none. *)
Definition rule_sql {FT : FloatText} (c : AlertConfig) (rule : string) : option string :=
  if String.eqb rule "blocked_burst" then Some (blocked_burst_sql c)
  else if String.eqb rule "domain_burst" then Some (domain_burst_sql c)
  else if String.eqb rule "off_hours_threat" then Some (off_hours_threat_sql c)
  else if String.eqb rule "high_entropy_domain" then Some (high_entropy_domain_sql c)
  else if String.eqb rule "beacon_periodic" then Some (beacon_periodic_sql c)
  else None.

Definition build_queries {FT : FloatText} (c : AlertConfig) : list (string * string) :=
  omap (fun rule => (fun sql => (rule, sql)) <$> rule_sql c rule) (al_rules c).

(** ** Findings (payload.rs, rules.rs) *)

(** A [BTreeMap] of labels: pairs in the order of their keys. *)
Abbreviation Labels := (list (string * string)).

Fixpoint label_insert (k v : string) (l : Labels) : Labels :=
  match l with
  | [] => [(k, v)]
  | (k', v') :: l' =>
      match String.compare k k' with
      | Lt => (k, v) :: l
      | Eq => (k, v) :: l'
      | Gt => (k', v') :: label_insert k v l'
      end
  end.

Definition label_get (k : string) (l : Labels) : option string :=
  snd <$> List.find (fun '(k', _) => String.eqb k' k) l.

Record Finding := {
  fi_rule : string;
  fi_severity : string;
  fi_title : string;
  fi_description : string;
  fi_value : f64;
  fi_labels : Labels;
  fi_window_secs : N;
}.

Record AlertPayload := {
  ap_version : N;
  ap_source : string;
  ap_alert_id : string;
  ap_rule : string;
  ap_severity : string;
  ap_title : string;
  ap_description : string;
  ap_fired_at : string;
  ap_window_secs : N;
  ap_value : f64;
  ap_labels : Labels;
  ap_fingerprint : string;
}.

Definition fingerprint_input (rule : string) (labels : Labels) : string :=
  rule +:+ "|" +:+ foldr (fun '(k, v) s => k +:+ "=" +:+ v +:+ ";" +:+ s) EmptyString labels.

Definition fingerprint_for {SH : Sha256} (rule : string) (labels : Labels) : string :=
  hex_encode (sha256 (fingerprint_input rule labels)).

Definition fingerprint {SH : Sha256} (f : Finding) : string := fingerprint_for (fi_rule f) (fi_labels f).

Definition into_payload {SH : Sha256} (source alert_id fired_at : string) (f : Finding) : AlertPayload :=
  {| ap_version := 1; ap_source := source; ap_alert_id := alert_id; ap_rule := fi_rule f; ap_severity := fi_severity f;
     ap_title := fi_title f; ap_description := fi_description f; ap_fired_at := fired_at;
     ap_window_secs := fi_window_secs f; ap_value := fi_value f; ap_labels := fi_labels f;
     ap_fingerprint := fingerprint f |}.

Section findings.
Context {SJ : SerdeJson} {FT : FloatText} {LM : Libm} {MO : MapOrder}.

Definition json_number (v : json) : option f64 :=
  match v with
  | JNumber t => number_as_f64 t
  | JString s => parse_f64 s
  | _ => None
  end.

Definition text_label (row : json) (labels : Labels) (key : string) : Labels :=
  match json_get key row ≫= as_str with
  | Some v => if str_is_empty v then labels else label_insert key v labels
  | None => labels
  end.

Definition number_label (row : json) (key label : string) (text : f64 -> string) (labels : Labels) : Labels :=
  match json_get key row ≫= json_number with
  | Some x => label_insert label (text x) labels
  | None => labels
  end.

(** The labels every rule has. *)
Definition row_labels (row : json) : Labels :=
  let labels := foldl (text_label row) [] ["username"; "client_ip"; "domain"]%string in
  let labels := number_label row "clients" "clients" f64_display labels in
  let labels := number_label row "avg_gap" "avg_gap_secs" (f64_fixed 1) labels in
  number_label row "gap_cv" "gap_cv" (f64_fixed 3) labels.

(** The filter of the entropy rule, and the labels it adds. *)
Definition entropy_labels (c : AlertConfig) (rule : string) (labels : Labels) : option Labels :=
  if String.eqb rule "high_entropy_domain" then
    domain ← label_get "domain" labels;
    m ← matches_high_entropy domain (al_high_entropy_mode c) (al_shannon_min_bits c) (al_shannon_min_label_len c)
          (al_high_entropy_legacy_min_domain_len c);
    Some (label_insert "entropy_match" (kind_label m) (label_insert "shannon_bits" (f64_fixed 3 (he_entropy m)) labels))
  else Some labels.

(** Severity, title, description and window of a rule. *)
Definition describe (c : AlertConfig) (rule : string) (value : f64) (labels : Labels)
    : option (string * string * string * N) :=
  let value := f64_display value in
  let lookback := as_secs (al_lookback c) in
  let label k dflt := default dflt (label_get k labels) in
  if String.eqb rule "blocked_burst" then
    Some ("critical", "ACL deny burst", "Client hit " +:+ value +:+
      " blocked requests in the lookback window (user/IP threshold exceeded)", lookback)%string
  else if String.eqb rule "domain_burst" then
    Some ("warning", "Domain request burst", "Same client issued " +:+ value +:+
      " requests to one domain in the lookback window", lookback)%string
  else if String.eqb rule "off_hours_threat" then
    Some ("warning", "Off-hours threat traffic", value +:+
      " threat-tagged request(s) between 22:00–06:00 UTC in the lookback window", lookback)%string
  else if String.eqb rule "high_entropy_domain" then
    Some ("warning", "Suspicious high-entropy domain", "Domain matched " +:+ label "entropy_match" "shannon" +:+
      " heuristic (shannon=" +:+ label "shannon_bits" "?" +:+ " bits/char) with " +:+ value +:+
      " request(s) in the lookback window", lookback)%string
  else if String.eqb rule "beacon_periodic" then
    Some ("warning", "Periodic C&C beacon candidate", "Client→domain shows " +:+ value +:+
      " regular intervals (avg_gap=" +:+ label "avg_gap_secs" "?" +:+ "s, cv=" +:+ label "gap_cv" "?" +:+
      ") — possible beacon", as_secs (al_beacon_lookback c))%string
  else None.

Definition find_from_row (rule : string) (row : json) (c : AlertConfig) : option Finding :=
  value ← json_get "value" row ≫= json_number;
  labels ← entropy_labels c rule (row_labels row);
  '(severity, title, description, window_secs) ← describe c rule value labels;
  Some {| fi_rule := rule; fi_severity := severity; fi_title := title; fi_description := description; fi_value := value;
          fi_labels := labels; fi_window_secs := window_secs |}.

Definition findings_from_rows (rule : string) (rows : list json) (c : AlertConfig) : list Finding :=
  omap (fun row => find_from_row rule row c) rows.

End findings.

(** ** Deduplication (dedupe.rs) *)

(** Fingerprints with the instant they fired. *)
Record DedupeCache := {
  dd_seen : gmap string N;
}.

Definition DedupeCache_new : DedupeCache := {| dd_seen := ∅ |}.

(** [Instant::duration_since]: zero when the other instant is later. *)
Definition young (now ttl stamped : N) : bool := (saturating_sub now stamped <? ttl)%N.

Definition dedupe_evict (now ttl : N) (d : DedupeCache) : DedupeCache :=
  {| dd_seen := filter (fun kv : string * N => young now ttl kv.2 = true) (dd_seen d) |}.

Definition should_fire (fp : string) (now ttl : N) (d : DedupeCache) : DedupeCache * bool :=
  let d := dedupe_evict now ttl d in
  let fired := {| dd_seen := <[fp := now]> (dd_seen d) |} in
  match dd_seen d !! fp with
  | Some prev => if young now ttl prev then (d, false) else (fired, true)
  | None => (fired, true)
  end.

(** ** The webhook (webhook.rs) *)

Record WebhookClient := {
  wh_url : string;
  wh_headers : list (string * string);
}.

Definition WebhookClient_new {MO : MapOrder} (c : AlertConfig) : WebhookClient :=
  {| wh_url := al_webhook_url c; wh_headers := map_listing (al_webhook_headers c) |}.

(** A POST with the payload as its JSON body. *)
Record WebhookRequest := {
  wr_url : string;
  wr_headers : list (string * string);
  wr_json : AlertPayload;
}.

Definition webhook_request (w : WebhookClient) (payload : AlertPayload) : WebhookRequest :=
  {| wr_url := wh_url w; wr_headers := wh_headers w; wr_json := payload |}.

(** The reply is a status and a body (empty when it cannot be read), or an error. *)
Definition webhook_outcome {DT : DisplayText} (reply : result (N * string) string) : result unit string :=
  let? r := reply in
  if is_success r.1 then Ok tt else Err ("webhook HTTP " +:+ status_display r.1 +:+ ": " +:+ r.2).

(** ** Counters (metrics.rs) *)

Record WorkerMetrics := {
  wm_evaluations : N;
  wm_findings : gmap string N;
  wm_webhook_sent : N;
  wm_webhook_errors : N;
  wm_dedupe_suppressed : N;
  wm_clickhouse_errors : N;
}.

Definition WorkerMetrics_new : WorkerMetrics :=
  {| wm_evaluations := 0; wm_findings := ∅; wm_webhook_sent := 0; wm_webhook_errors := 0; wm_dedupe_suppressed := 0;
     wm_clickhouse_errors := 0 |}.

(** A counter is an atomic 64-bit word. *)
Definition inc (n : N) : N := ((n + 1) mod 2 ^ 64)%N.

Definition with_findings (f : gmap string N -> gmap string N) (m : WorkerMetrics) : WorkerMetrics :=
  {| wm_evaluations := wm_evaluations m; wm_findings := f (wm_findings m); wm_webhook_sent := wm_webhook_sent m;
     wm_webhook_errors := wm_webhook_errors m; wm_dedupe_suppressed := wm_dedupe_suppressed m;
     wm_clickhouse_errors := wm_clickhouse_errors m |}.

Definition inc_finding (rule : string) : WorkerMetrics -> WorkerMetrics :=
  with_findings (fun fs => <[rule := inc (default 0%N (fs !! rule))]> fs).

Inductive Counter := Evaluations | WebhookSent | WebhookErrors | DedupeSuppressed | ClickhouseErrors.

Definition inc_counter (k : Counter) (m : WorkerMetrics) : WorkerMetrics :=
  {| wm_evaluations := (match k with Evaluations => inc | _ => id end) (wm_evaluations m);
     wm_findings := wm_findings m;
     wm_webhook_sent := (match k with WebhookSent => inc | _ => id end) (wm_webhook_sent m);
     wm_webhook_errors := (match k with WebhookErrors => inc | _ => id end) (wm_webhook_errors m);
     wm_dedupe_suppressed := (match k with DedupeSuppressed => inc | _ => id end) (wm_dedupe_suppressed m);
     wm_clickhouse_errors := (match k with ClickhouseErrors => inc | _ => id end) (wm_clickhouse_errors m) |}.

(** ** A cycle (main.rs) *)

Record AlertState := {
  st_dedupe : DedupeCache;
  st_metrics : WorkerMetrics;
}.

Definition AlertState_new : AlertState := {| st_dedupe := DedupeCache_new; st_metrics := WorkerMetrics_new |}.

Definition on_metrics (f : WorkerMetrics -> WorkerMetrics) (st : AlertState) : AlertState :=
  {| st_dedupe := st_dedupe st; st_metrics := f (st_metrics st) |}.

(** What a cycle meets: the two clocks, ClickHouse's reply to the query of each place in
    the list, and the id and the reply of each post. *)
Record CycleInput := {
  ci_now : N;
  ci_fired_at : string;
  ci_replies : nat -> ChReply;
  ci_ids : nat -> string;
  ci_posts : nat -> result (N * string) string;
}.

Inductive AlertEvent :=
| EvQuery (r : ChRequest)
| EvPost (r : WebhookRequest).

Definition is_post (e : AlertEvent) : option AlertPayload :=
  match e with EvPost r => Some (wr_json r) | EvQuery _ => None end.

Definition posted (es : list AlertEvent) : list AlertPayload := omap is_post es.

Section cycle.
Context {SJ : SerdeJson} {DT : DisplayText} {FT : FloatText} {LM : Libm} {SH : Sha256} {MO : MapOrder}.
Context (c : AlertConfig) (ch : ChClient) (wh : WebhookClient).

(** One finding; [n] posts were made in the cycle so far. *)
Definition handle_finding (i : CycleInput) (n : nat) (f : Finding) (st : AlertState) : AlertState * list AlertEvent :=
  let st := on_metrics (inc_finding (fi_rule f)) st in
  let '(dedupe, ok) := should_fire (fingerprint f) (ci_now i) (al_dedupe_ttl c) (st_dedupe st) in
  let st := {| st_dedupe := dedupe; st_metrics := st_metrics st |} in
  if ok then
    let payload := into_payload (al_source c) (ci_ids i n) (ci_fired_at i) f in
    let st := match webhook_outcome (ci_posts i n) with
              | Ok _ => on_metrics (inc_counter WebhookSent) st
              | Err _ => on_metrics (inc_counter WebhookErrors) st
              end in
    (st, [EvPost (webhook_request wh payload)])
  else (on_metrics (inc_counter DedupeSuppressed) st, []).

Fixpoint handle_findings (i : CycleInput) (n : nat) (fs : list Finding) (st : AlertState)
    : AlertState * list AlertEvent :=
  match fs with
  | [] => (st, [])
  | f :: fs =>
      let '(st, es) := handle_finding i n f st in
      let '(st, es') := handle_findings i (n + length es) fs st in
      (st, es ++ es')
  end.

(** The findings a reply to a rule's query has; a failed query has none. *)
Definition reply_findings (rule : string) (reply : ChReply) : list Finding :=
  match query_rows reply with Ok rows => findings_from_rows rule rows c | Err _ => [] end.

(** The queries from place [k] on. *)
Fixpoint handle_queries (i : CycleInput) (k n : nat) (queries : list (string * string)) (st : AlertState)
    : AlertState * list AlertEvent :=
  match queries with
  | [] => (st, [])
  | (rule, sql) :: queries =>
      let '(st, es) :=
        match query_rows (ci_replies i k) with
        | Err _ => (on_metrics (inc_counter ClickhouseErrors) st, [])
        | Ok rows => handle_findings i n (findings_from_rows rule rows c) st
        end in
      let '(st, es') := handle_queries i (S k) (n + length es) queries st in
      (st, EvQuery (query_request ch sql) :: es ++ es')
  end.

Definition evaluate_once (i : CycleInput) (st : AlertState) : AlertState * list AlertEvent :=
  let '(st, es) := handle_queries i 0 0 (build_queries c) st in
  (on_metrics (inc_counter Evaluations) st, es).

(** The loop of [main], over the inputs of its cycles. *)
Fixpoint alert_loop (inputs : list CycleInput) (st : AlertState) : AlertState * list (list AlertEvent) :=
  match inputs with
  | [] => (st, [])
  | i :: inputs =>
      let '(st, es) := evaluate_once i st in
      let '(st, ess) := alert_loop inputs st in
      (st, es :: ess)
  end.

End cycle.

(** ** The admin port (main.rs) *)

Definition http_response (status : N) (content_type body : string) : string :=
  let reason := if (status =? 200)%N then "OK" else if (status =? 404)%N then "Not Found"
                else if (status =? 500)%N then "Internal Server Error" else "Error" in
  let crlf := String "013" nl in
  "HTTP/1.1 " +:+ pretty status +:+ " " +:+ reason +:+ crlf +:+ "Content-Type: " +:+ content_type +:+ crlf
  +:+ "Content-Length: " +:+ pretty (str_len body) +:+ crlf +:+ "Connection: close" +:+ crlf +:+ crlf +:+ body.

(** [metrics]: the encoding of the counters, when it succeeds. *)
Definition handle_admin (metrics : option string) (req : string) : string :=
  let parts := split_whitespace (default EmptyString (head (str_lines req))) in
  let method := default EmptyString (parts !! 0%nat) in
  let path := default "/"%string (parts !! 1%nat) in
  if String.eqb method "GET" && starts_with path "/metrics" then
    match metrics with
    | Some m => http_response 200 "text/plain; version=0.0.4" m
    | None => http_response 500 "text/plain" "encode error"
    end
  else if String.eqb method "GET" && (String.eqb path "/health" || starts_with path "/health?") then
    http_response 200 "text/plain" "ok"
  else http_response 404 "text/plain" "not found".

(** A connection of the port: the bytes of its first read, of at most 4096. *)
Definition admin_connection (metrics : option string) (first_read : string) : option string :=
  if str_is_empty first_read then None else Some (handle_admin metrics (from_utf8_lossy first_read)).

(** ** The digit heuristic *)

(** Four digits in a row, somewhere. *)
Definition digit_window (s : string) : Prop :=
  exists a c1 c2 c3 c4 b, s = a +:+ String c1 (String c2 (String c3 (String c4 b))) /\
    is_ascii_digit c1 && is_ascii_digit c2 && is_ascii_digit c3 && is_ascii_digit c4 = true.

Fixpoint leading_digits (s : string) : nat :=
  match s with String c s => if is_ascii_digit c then S (leading_digits s) else 0 | EmptyString => 0 end.

Lemma leading_digits_4 s :
  4 <= leading_digits s <-> exists c1 c2 c3 c4 b, s = String c1 (String c2 (String c3 (String c4 b))) /\
    is_ascii_digit c1 && is_ascii_digit c2 && is_ascii_digit c3 && is_ascii_digit c4 = true.
Proof.
  split.
  - destruct s as [|c1 [|c2 [|c3 [|c4 b]]]]; cbn; repeat case_match; intros; try lia.
    exists c1, c2, c3, c4, b. split; [done|]. by rewrite !andb_true_iff.
  - intros (c1 & c2 & c3 & c4 & b & -> & H). rewrite !andb_true_iff in H. destruct H as [[[H1 H2] H3] H4].
    cbn. rewrite H1, H2, H3, H4. lia.
Qed.

Lemma digit_window_cons c s : digit_window (String c s) <-> digit_window s \/ 4 <= leading_digits (String c s).
Proof.
  rewrite leading_digits_4. split.
  - intros ([|c' a] & c1 & c2 & c3 & c4 & b & E & H); cbn in E.
    + right. by exists c1, c2, c3, c4, b.
    + left. injection E as -> ->. by exists a, c1, c2, c3, c4, b.
  - intros [(a & c1 & c2 & c3 & c4 & b & -> & H)|(c1 & c2 & c3 & c4 & b & E & H)].
    + by exists (String c a), c1, c2, c3, c4, b.
    + by exists EmptyString, c1, c2, c3, c4, b.
Qed.

Lemma leading_digits_window s : 4 <= leading_digits s -> digit_window s.
Proof. destruct s; [cbn; lia|]. intros H. apply digit_window_cons. by right. Qed.

Lemma digit_run_spec s run :
  digit_run_4 run s = true <-> digit_window s \/ (leading_digits s <> 0 /\ 4 <= run + leading_digits s).
Proof.
  revert run. induction s as [|c s IH]; intros run.
  - cbn. split; [done|]. intros [([|] & ? & ? & ? & ? & ? & [=] & _)|]; lia.
  - rewrite digit_window_cons. pose proof (leading_digits_window s) as Hw.
    cbn [digit_run_4 leading_digits]. destruct (is_ascii_digit c).
    + rewrite orb_true_iff, Nat.leb_le, IH. split.
      * intros [|[|]]; [right; lia|by left; left|right; lia].
      * intros [[|]|[]]; [by right; left| |];
          destruct (decide (leading_digits s = 0)); (left; lia) || (right; right; lia).
    + rewrite IH. cbn. split; [intros [|[]]; [by left; left|left; left; apply Hw; lia]|intros [[|]|]; [by left|lia..]].
Qed.

(** The legacy heuristic accepts a name exactly when it is long enough and has four
    digits in a row, wherever they are. *)
Theorem legacy_four_digits (domain : string) (min_len : N) :
  legacy_high_entropy_domain domain min_len = true <-> (min_len <= str_len domain)%N /\ digit_window domain.
Proof.
  unfold legacy_high_entropy_domain. destruct (N.ltb_spec (str_len domain) min_len) as [Hl|Hl].
  - split; [done|lia].
  - rewrite digit_run_spec. pose proof (leading_digits_window domain). split; [intros [|[]]; [done|split; [done|auto]]|].
    intros [_ Hd]. by left.
Qed.

(** ** Deduplication against the whole history of posts *)

(** The reference: every post with its fingerprint and instant, nothing forgotten. *)
Abbreviation History := (list (string * N)).

Definition recent (now ttl : N) (fp : string) (h : History) : bool :=
  existsb (fun e => String.eqb e.1 fp && young now ttl e.2) h.

(** What is posted for the fingerprints of a cycle, in order. *)
Fixpoint spec_posts (now ttl : N) (fps : list string) (h : History) : History * list string :=
  match fps with
  | [] => (h, [])
  | fp :: fps =>
      if recent now ttl fp h then spec_posts now ttl fps h
      else let '(h, out) := spec_posts now ttl fps ((fp, now) :: h) in (h, fp :: out)
  end.

Fixpoint spec_loop (ttl : N) (cycles : list (N * list string)) (h : History) : list (list string) :=
  match cycles with
  | [] => []
  | (now, fps) :: cycles => let '(h, out) := spec_posts now ttl fps h in out :: spec_loop ttl cycles h
  end.

(** The cache against the history, from [now] on. *)
Record tracks (now ttl : N) (d : DedupeCache) (h : History) : Prop := {
  tr_past : forall e, e ∈ h -> (e.2 <= now)%N;
  tr_sound : forall fp t, dd_seen d !! fp = Some t -> (fp, t) ∈ h;
  tr_complete : forall fp t, (fp, t) ∈ h -> young now ttl t = true -> exists t', dd_seen d !! fp = Some t' /\ (t <= t')%N;
}.

Lemma young_later now now' ttl t : (now <= now')%N -> young now' ttl t = true -> young now ttl t = true.
Proof. unfold young, saturating_sub. rewrite !N.ltb_lt. lia. Qed.

Lemma young_newer now ttl t t' : (t <= t')%N -> young now ttl t = true -> young now ttl t' = true.
Proof. unfold young, saturating_sub. rewrite !N.ltb_lt. lia. Qed.

Lemma tracks_later now now' ttl d h : (now <= now')%N -> tracks now ttl d h -> tracks now' ttl d h.
Proof.
  intros Hn [Hp Hs Hc]. split; [|done|].
  - intros e He. specialize (Hp e He). lia.
  - intros fp t He Hy. apply (Hc fp t He). by apply (young_later now now').
Qed.

Lemma recent_true now ttl fp h : recent now ttl fp h = true <-> exists t, (fp, t) ∈ h /\ young now ttl t = true.
Proof.
  unfold recent. rewrite existsb_exists. split.
  - intros ([k t] & Hin%list_elem_of_In & [E%String.eqb_eq Hy]%andb_true_iff). cbn in *. subst. by exists t.
  - intros (t & Hin & Hy). exists (fp, t). split; [by apply list_elem_of_In|]. cbn. by rewrite String.eqb_refl.
Qed.

Lemma dedupe_evict_Some now ttl d fp t :
  dd_seen (dedupe_evict now ttl d) !! fp = Some t <-> dd_seen d !! fp = Some t /\ young now ttl t = true.
Proof. unfold dedupe_evict. cbn [dd_seen]. by rewrite map_lookup_filter_Some. Qed.

Lemma tracks_evict now ttl d h : tracks now ttl d h -> tracks now ttl (dedupe_evict now ttl d) h.
Proof.
  intros [Hp Hs Hc]. split; [done| |].
  - intros fp t [H _]%dedupe_evict_Some. by apply Hs.
  - intros fp t He Hy. destruct (Hc fp t He Hy) as (t' & Hl & Ht). exists t'. split; [|done].
    apply dedupe_evict_Some. split; [done|]. by apply (young_newer now ttl t).
Qed.

Lemma tracks_insert now ttl d h fp :
  tracks now ttl d h -> tracks now ttl {| dd_seen := <[fp := now]> (dd_seen d) |} ((fp, now) :: h).
Proof.
  intros [Hp Hs Hc]. split; cbn [dd_seen].
  - intros e [->|He]%elem_of_cons; [done|by apply Hp].
  - intros k t. rewrite lookup_insert_Some, elem_of_cons. intros [[-> ->]|[_ Hl]]; [by left|right; by apply Hs].
  - intros k t Hin Hy. destruct (decide (k = fp)) as [->|Hk].
    + exists now. rewrite lookup_insert_eq. split; [done|].
      apply elem_of_cons in Hin as [[= ->]|Hin]; [done|apply (Hp _ Hin)].
    + rewrite lookup_insert_ne by congruence. apply elem_of_cons in Hin as [[= -> ->]|Hin]; [done|by apply Hc].
Qed.

(** The cache answers as the history does, and follows it. *)
Lemma should_fire_tracks now ttl d h fp : tracks now ttl d h ->
  (should_fire fp now ttl d).2 = negb (recent now ttl fp h) /\
  tracks now ttl (should_fire fp now ttl d).1 (if recent now ttl fp h then h else (fp, now) :: h).
Proof.
  intros Ht. apply tracks_evict in Ht. unfold should_fire.
  destruct (recent now ttl fp h) eqn:Hr.
  - apply recent_true in Hr as (t & Hin & Hy). destruct (tr_complete _ _ _ _ Ht fp t Hin Hy) as (t' & Hl & Hle).
    rewrite Hl, (young_newer _ _ _ _ Hle Hy). done.
  - assert (dd_seen (dedupe_evict now ttl d) !! fp = None) as Hn.
    { destruct (dd_seen (dedupe_evict now ttl d) !! fp) as [t|] eqn:Hl; [|done]. exfalso. apply not_true_iff_false in Hr.
      apply Hr, recent_true. exists t. split; [by apply (tr_sound _ _ _ _ Ht)|by apply dedupe_evict_Some in Hl as [_ ?]]. }
    rewrite Hn. split; [done|]. by apply tracks_insert.
Qed.

Section exact.
Context {SJ : SerdeJson} {DT : DisplayText} {FT : FloatText} {LM : Libm} {SH : Sha256} {MO : MapOrder}.
Context (c : AlertConfig) (ch : ChClient) (wh : WebhookClient).

(** The fingerprints of the findings of the queries from place [k] on. *)
Fixpoint found_from (i : CycleInput) (k : nat) (queries : list (string * string)) : list string :=
  match queries with
  | [] => []
  | (rule, _) :: queries => (fingerprint <$> reply_findings c rule (ci_replies i k)) ++ found_from i (S k) queries
  end.

Definition found (i : CycleInput) : list string := found_from i 0 (build_queries c).

Definition posted_fps (es : list AlertEvent) : list string := ap_fingerprint <$> posted es.

Lemma posted_fps_app es es' : posted_fps (es ++ es') = posted_fps es ++ posted_fps es'.
Proof. unfold posted_fps, posted. by rewrite omap_app, fmap_app. Qed.

Lemma spec_posts_app now ttl fps fps' h :
  spec_posts now ttl (fps ++ fps') h =
  let '(h1, out1) := spec_posts now ttl fps h in
  let '(h2, out2) := spec_posts now ttl fps' h1 in (h2, out1 ++ out2).
Proof.
  revert h. induction fps as [|fp fps IH]; intros h; cbn [spec_posts app].
  - by destruct (spec_posts now ttl fps' h).
  - destruct (recent now ttl fp h); rewrite IH; [done|].
    destruct (spec_posts now ttl fps _) as [h1 out1]. by destruct (spec_posts now ttl fps' h1).
Qed.

(** What a stage of a cycle does, against the reference. *)
Definition refines (i : CycleInput) (fps : list string) (run : AlertState * list AlertEvent) (h : History) : Prop :=
  let '(h', out) := spec_posts (ci_now i) (al_dedupe_ttl c) fps h in
  posted_fps run.2 = out /\ tracks (ci_now i) (al_dedupe_ttl c) (st_dedupe run.1) h'.

Lemma handle_finding_refines i n f st h : tracks (ci_now i) (al_dedupe_ttl c) (st_dedupe st) h ->
  refines i [fingerprint f] (handle_finding c wh i n f st) h.
Proof.
  intros Ht. destruct (should_fire_tracks _ _ _ _ (fingerprint f) Ht) as [Hf Ht'].
  unfold refines, handle_finding. cbn [st_dedupe on_metrics spec_posts].
  destruct (should_fire _ _ _ _) as [dedupe ok]. cbn in Hf, Ht'. subst ok.
  destruct (recent _ _ _ h); cbn; [done|]. by destruct (webhook_outcome _).
Qed.

Lemma handle_findings_refines i n fs st h : tracks (ci_now i) (al_dedupe_ttl c) (st_dedupe st) h ->
  refines i (fingerprint <$> fs) (handle_findings c wh i n fs st) h.
Proof.
  revert n st h. induction fs as [|f fs IH]; intros n st h Ht; [done|].
  pose proof (handle_finding_refines i n f st h Ht) as H1. unfold refines in *. rewrite fmap_cons.
  change (?x :: ?l) with ([x] ++ l) at 1. rewrite spec_posts_app. cbn [handle_findings].
  destruct (handle_finding c wh i n f st) as [st1 es1], (spec_posts _ _ [_] h) as [h1 out1]. destruct H1 as [<- H1].
  specialize (IH (n + length es1) st1 h1 H1). destruct (handle_findings _ _ _ _ _ _) as [st2 es2].
  destruct (spec_posts _ _ _ h1) as [h2 out2]. destruct IH as [<- IH]. cbn [fst snd] in *. by rewrite posted_fps_app.
Qed.

Lemma handle_queries_refines i k n queries st h : tracks (ci_now i) (al_dedupe_ttl c) (st_dedupe st) h ->
  refines i (found_from i k queries) (handle_queries c ch wh i k n queries st) h.
Proof.
  revert k n st h. induction queries as [|[rule sql] queries IH]; intros k n st h Ht; [done|].
  unfold refines in *. cbn [found_from handle_queries]. rewrite spec_posts_app.
  set (run := match query_rows (ci_replies i k) with Err _ => _ | Ok rows => _ end).
  assert (refines i (fingerprint <$> reply_findings c rule (ci_replies i k)) run h) as H1.
  { subst run. unfold reply_findings. destruct (query_rows _); [by apply handle_findings_refines|done]. }
  unfold refines in H1. destruct run as [st1 es1], (spec_posts _ _ (_ <$> _) h) as [h1 out1]. destruct H1 as [<- H1].
  specialize (IH (S k) (n + length es1) st1 h1 H1). destruct (handle_queries _ _ _ _ _ _ _ _) as [st2 es2].
  destruct (spec_posts _ _ _ h1) as [h2 out2]. destruct IH as [<- IH]. cbn [fst snd] in *. split; [|done].
  change (EvQuery ?r :: ?l) with ([EvQuery r] ++ l). by rewrite !posted_fps_app.
Qed.

Lemma alert_loop_refines inputs now st h : Sorted N.le (now :: (ci_now <$> inputs)) ->
  tracks now (al_dedupe_ttl c) (st_dedupe st) h ->
  posted_fps <$> (alert_loop c ch wh inputs st).2 =
  spec_loop (al_dedupe_ttl c) ((fun i => (ci_now i, found i)) <$> inputs) h.
Proof.
  revert now st h. induction inputs as [|i inputs IH]; intros now st h Hs Ht; [done|].
  apply Sorted_inv in Hs as [Hs Hn]. rewrite fmap_cons in Hn. apply HdRel_inv in Hn.
  apply (tracks_later _ (ci_now i)) in Ht; [|done].
  pose proof (handle_queries_refines i 0 0 (build_queries c) st h Ht) as H1. unfold refines in H1.
  rewrite fmap_cons. cbn [alert_loop spec_loop]. unfold evaluate_once. unfold found at 1.
  destruct (handle_queries _ _ _ _ _ _ _ _) as [st1 es1], (spec_posts _ _ _ h) as [h1 out1]. destruct H1 as [<- H1].
  specialize (IH (ci_now i) (on_metrics (inc_counter Evaluations) st1) h1 Hs H1).
  destruct (alert_loop _ _ _ _ _) as [st2 ess]. cbn in *. by rewrite IH.
Qed.

(** C19: the alert worker's deduplication is exact.  Over any number of cycles, whatever
    ClickHouse and the webhook answer, with an [Instant] that does not go back, the
    findings posted in each cycle are those whose fingerprint was not posted less than the
    TTL before, judged against the complete history of posts: the eviction of the cache
    never forgets a post that still counts, and never keeps one that does not. *)
Theorem alert_dedupe_exact (inputs : list CycleInput) : Sorted N.le (ci_now <$> inputs) ->
  posted_fps <$> (alert_loop c ch wh inputs AlertState_new).2 =
  spec_loop (al_dedupe_ttl c) ((fun i => (ci_now i, found i)) <$> inputs) [].
Proof.
  intros Hs. apply (alert_loop_refines inputs 0%N).
  - constructor; [done|]. destruct inputs; constructor. lia.
  - split; [by intros e ?%not_elem_of_nil|by intros fp t; cbn; rewrite lookup_empty|by intros fp t ?%not_elem_of_nil].
Qed.

(** ** Every finding is accounted for *)

Definition findings_total (m : WorkerMetrics) : N := map_fold (fun _ v acc => (v + acc)%N) 0%N (wm_findings m).

Definition balanced (st : AlertState) : Prop :=
  let m := st_metrics st in
  (findings_total m mod 2 ^ 64 = (wm_webhook_sent m + wm_webhook_errors m + wm_dedupe_suppressed m) mod 2 ^ 64)%N.

Lemma inc_mod n : (inc n mod 2 ^ 64 = (n + 1) mod 2 ^ 64)%N.
Proof. unfold inc. by rewrite N.Div0.mod_mod. Qed.

Lemma map_sum_insert (m : gmap string N) k v :
  map_fold (fun _ v acc => (v + acc)%N) 0%N (<[k := v]> m) =
  (v + map_fold (fun _ v acc => (v + acc)%N) 0%N (delete k m))%N.
Proof.
  rewrite <- insert_delete_eq. apply (map_fold_insert_L (fun _ v acc => (v + acc)%N)); [intros; lia|].
  by rewrite lookup_delete_eq.
Qed.

Lemma map_sum_delete (m : gmap string N) k :
  map_fold (fun _ v acc => (v + acc)%N) 0%N m =
  (default 0 (m !! k) + map_fold (fun _ v acc => (v + acc)%N) 0%N (delete k m))%N.
Proof.
  destruct (m !! k) as [v|] eqn:E; cbn; [by rewrite <- map_sum_insert, insert_id|by rewrite delete_id].
Qed.

Lemma findings_total_inc rule m :
  (findings_total (inc_finding rule m) mod 2 ^ 64 = (findings_total m + 1) mod 2 ^ 64)%N.
Proof.
  unfold findings_total. cbn [inc_finding with_findings wm_findings].
  rewrite map_sum_insert, (map_sum_delete (wm_findings m) rule).
  rewrite <- N.Div0.add_mod_idemp_l, inc_mod, N.Div0.add_mod_idemp_l. f_equal. lia.
Qed.

(** One more on both sides of a sum. *)
Lemma balance_step t t' x y z x' y' z' :
  (t mod 2 ^ 64 = (x + y + z) mod 2 ^ 64)%N -> (t' mod 2 ^ 64 = (t + 1) mod 2 ^ 64)%N ->
  ((x' + y' + z') mod 2 ^ 64 = (x + y + z + 1) mod 2 ^ 64)%N -> (t' mod 2 ^ 64 = (x' + y' + z') mod 2 ^ 64)%N.
Proof.
  intros Ht -> ->. rewrite <- (N.Div0.add_mod_idemp_l t), Ht. apply N.Div0.add_mod_idemp_l.
Qed.

Lemma inc_sum n r : ((inc n + r) mod 2 ^ 64 = (n + r + 1) mod 2 ^ 64)%N.
Proof. rewrite <- N.Div0.add_mod_idemp_l, inc_mod, N.Div0.add_mod_idemp_l. f_equal. lia. Qed.

Lemma handle_finding_balanced i n f st : balanced st -> balanced (handle_finding c wh i n f st).1.
Proof.
  unfold balanced. intros Hb. unfold handle_finding. destruct (should_fire _ _ _ _) as [dedupe ok].
  destruct ok; [destruct (webhook_outcome _)|]; cbn [fst on_metrics st_metrics];
    (eapply balance_step; [exact Hb|exact (findings_total_inc (fi_rule f) _)|]);
    cbn [inc_counter inc_finding with_findings wm_webhook_sent wm_webhook_errors wm_dedupe_suppressed id].
  - rewrite <- N.add_assoc, inc_sum. f_equal. lia.
  - rewrite (N.add_comm (wm_webhook_sent _)), <- N.add_assoc, inc_sum. f_equal. lia.
  - rewrite N.add_comm, inc_sum. f_equal. lia.
Qed.

Lemma handle_findings_balanced i n fs st : balanced st -> balanced (handle_findings c wh i n fs st).1.
Proof.
  revert n st. induction fs as [|f fs IH]; intros n st Hb; [done|]. cbn [handle_findings].
  pose proof (handle_finding_balanced i n f st Hb) as H1. destruct (handle_finding _ _ _ _ _ _) as [st1 es].
  specialize (IH (n + length es) st1 H1). by destruct (handle_findings _ _ _ _ _ _).
Qed.

Lemma handle_queries_balanced i k n queries st : balanced st -> balanced (handle_queries c ch wh i k n queries st).1.
Proof.
  revert k n st. induction queries as [|[rule sql] queries IH]; intros k n st Hb; [done|]. cbn [handle_queries].
  set (run := match query_rows (ci_replies i k) with Err _ => _ | Ok rows => _ end).
  assert (balanced run.1) as H1 by (subst run; destruct (query_rows _); [by apply handle_findings_balanced|done]).
  destruct run as [st1 es]. specialize (IH (S k) (n + length es) st1 H1).
  by destruct (handle_queries _ _ _ _ _ _ _ _).
Qed.

(** No finding is lost or counted twice: after any cycles, the findings counted over
    all rules are those posted with success, those whose post failed and those suppressed,
    up to the wrap-around of the 64-bit counters. *)
Theorem alert_metrics_balanced (inputs : list CycleInput) :
  balanced (alert_loop c ch wh inputs AlertState_new).1.
Proof.
  assert (balanced AlertState_new) as Hb by done. revert Hb. generalize AlertState_new.
  induction inputs as [|i inputs IH]; intros st Hb; [done|]. cbn [alert_loop]. unfold evaluate_once.
  pose proof (handle_queries_balanced i 0 0 (build_queries c) st Hb) as H1.
  destruct (handle_queries _ _ _ _ _ _ _ _) as [st1 es].
  specialize (IH (on_metrics (inc_counter Evaluations) st1) H1). by destruct (alert_loop _ _ _ _ _).
Qed.

End exact.

(** ** A run *)

Module Demo.

Definition burst_row : json :=
  JObject [("client_ip", JString "10.0.0.1"); ("username", JString "alice"); ("value", JNumber "15")]%string.

#[local] Instance row_json : SerdeJson := {|
  json_from_slice s := if String.eqb s "{}" then Some (JObject []) else if String.eqb s "row" then Some burst_row else None;
  json_to_vec _ := "row"%string;
  number_as_f64 := parse_f64;
|}.
#[local] Instance plain_text : DisplayText := {| json_parse_error s := s; status_display n := pretty n |}.
#[local] Instance plain_float : FloatText := {| f64_display _ := "15"%string; f64_fixed _ _ := "0"%string |}.
#[local] Instance no_log : Libm := fun x => x.
#[local] Instance plain_sha : Sha256 := {| sha256 s := s; hex_encode s := s |}.
#[local] Instance plain_order : MapOrder := fun _ m => map_to_list m.

Definition env : Env := fun k =>
  if String.eqb k "ALERT_WEBHOOK_URL" then Some "http://siem/hook"%string
  else if String.eqb k "ALERT_RULES" then Some " blocked_burst, nope"%string else None.

Definition config : option AlertConfig := match AlertConfig_from_env env with Ok c => Some c | Err _ => None end.

(** A cycle at second [s] in which ClickHouse returns the row and the webhook [status]. *)
Definition cycle (s status : N) : CycleInput :=
  {| ci_now := from_secs s; ci_fired_at := "now"; ci_replies _ := Ok (200%N, "row"%string); ci_ids _ := "id"%string;
     ci_posts _ := Ok (status, EmptyString) |}.

Definition cycles : list CycleInput := [cycle 1 503; cycle 61 200; cycle 3600 200; cycle 3601 200].

Definition run (c : AlertConfig) : AlertState * list (list AlertEvent) :=
  alert_loop c (ChClient_new (al_clickhouse_url c) None None) (WebhookClient_new c) cycles AlertState_new.

Lemma alert_dedupe_exact_witness :
  match config with
  | Some c =>
      Sorted N.le (ci_now <$> cycles) /\
      posted_fps <$> (run c).2 = spec_loop (al_dedupe_ttl c) ((fun i => (ci_now i, found c i)) <$> cycles) [] /\
      (length <$> (posted <$> (run c).2)) = [1; 0; 0; 1]
  | None => False
  end.
Proof.
  assert (Sorted N.le (ci_now <$> cycles)) as Hs by (repeat constructor; vm_compute; congruence).
  destruct config as [c|] eqn:E; [|vm_compute in E; congruence].
  split; [exact Hs|]. split; [exact (alert_dedupe_exact c _ _ cycles Hs)|].
  vm_compute in E. injection E as <-. vm_compute. reflexivity.
Defined.

(** An alert whose post fails is not sent again for the TTL: its fingerprint is recorded
    before the post, so the next cycles suppress it as though it had been delivered. *)
Example failed_alert_not_retried :
  match config with
  | Some c =>
      let st := (alert_loop c (ChClient_new (al_clickhouse_url c) None None) (WebhookClient_new c)
                   [cycle 1 503; cycle 61 200; cycle 3600 200] AlertState_new).1 in
      wm_webhook_errors (st_metrics st) = 1%N /\ wm_webhook_sent (st_metrics st) = 0%N /\
      wm_dedupe_suppressed (st_metrics st) = 2%N
  | None => False
  end.
Proof. vm_compute. auto. Qed.

End Demo.

(** Labels are joined without escaping: the fingerprint of a request without a user to a
    host named [evil.test;username=bob] is that of one by bob to [evil.test]. *)
Theorem fingerprint_collision {SH : Sha256} (rule ip host user : string) :
  fingerprint_for rule [("client_ip", ip); ("domain", host +:+ ";username=" +:+ user)]%string =
  fingerprint_for rule [("client_ip", ip); ("domain", host); ("username", user)]%string.
Proof.
  unfold fingerprint_for, fingerprint_input. do 2 f_equal. cbn [foldr].
  by rewrite !string_app_assoc.
Qed.
