(* ===== verification/MlScoring.v ===== *)
(** * The scores of the machine-learning worker (src/ml-worker/src)

    The worker's settings, the features it reads from ClickHouse rows with the SQL that
    computes them, population baselines, and its models: the stub, the UEBA z-score,
    flight risk, phishing and beacons.  chrono is a class ([Chrono]), as is the reading of
    a baseline artifact ([BaselineJson], derived by serde).

    The theorems bound every score: a score outside [0, 1] or NaN would pass every
    comparison with a threshold the wrong way. *)

From Stdlib Require Import Ascii String NArith ZArith Lia.
From Stdlib Require Import Floats.SpecFloat.
From stdpp Require Import base option gmap strings pretty numbers list.
From S2P Require Import Prelude Float64 SemanticCache ClickHouse AlertWorker.

Local Open Scope rust_scope.

(** [m * 10 ^ e]. *)
Abbreviation dec m e := (f64_of_decimal false m%N e%Z).
Abbreviation f0 := (S754_zero false).
Definition f1 : f64 := f64_of_N 1.

(** ** Text and JSON *)

(** [{:?}] of a string, on ASCII text. *)
Definition hex_lower (n : N) : ascii := ascii_of_N (if (n <? 10)%N then 48 + n else 87 + n)%N.

Definition char_debug (c : ascii) : string :=
  let n := char_code c in
  let esc x := String "\" (String x EmptyString) in
  if Ascii.eqb c "034" then esc "034"%char
  else if Ascii.eqb c "\" then esc "\"%char
  else if (n =? 9)%N then esc "t"%char
  else if (n =? 13)%N then esc "r"%char
  else if (n =? 10)%N then esc "n"%char
  else if (n =? 0)%N then esc "0"%char
  else if ((n <? 32) || (n =? 127))%N then
    "\u{" +:+ (if (n <? 16)%N then EmptyString else String (hex_lower (n / 16)) EmptyString)
    +:+ String (hex_lower (n mod 16)) "}"
  else String c EmptyString.

Definition str_debug (s : string) : string :=
  String "034" (foldr (fun c r => char_debug c +:+ r) (String "034" EmptyString) (list_ascii_of_string s)).

(** [json!] of an object: its members end up in key order. *)
Fixpoint member_insert (k : string) (v : json) (l : list (string * json)) : list (string * json) :=
  match l with
  | [] => [(k, v)]
  | (k', v') :: l' =>
      match String.compare k k' with
      | Lt => (k, v) :: l
      | Eq => (k, v) :: l'
      | Gt => (k', v') :: member_insert k v l'
      end
  end.

Definition json_object (l : list (string * json)) : json :=
  JObject (foldl (fun acc '(k, v) => member_insert k v acc) [] l).

Definition json_u64 (n : N) : json := JNumber (pretty n).

(** ** Dates (chrono) *)

Class Chrono := {
  utc : Type;
  (** [format("%Y-%m-%d %H:%M:%S%.3f")], [to_rfc3339] and serde's text. *)
  utc_format : utc -> string;
  utc_rfc3339 : utc -> string;
  utc_serde : utc -> string;
  (** [DateTime::parse_from_rfc3339]; [NaiveDateTime::parse_from_str] with a format. *)
  parse_rfc3339 : string -> option utc;
  parse_naive : string -> string -> result utc string;
  (** [+ Duration::seconds(n)]: none where it panics. *)
  utc_add_secs : utc -> Z -> option utc;
}.

Section dates.
Context {CH : Chrono}.

Definition parse_ch_datetime (v : option json) : result utc string :=
  match v ≫= as_str with
  | None => Err "missing datetime"%string
  | Some s =>
      let normalized := if str_contains s "T" then s else replace_char " " "T" s +:+ "Z" in
      match parse_rfc3339 normalized with
      | Some t => Ok t
      | None =>
          match parse_naive "%Y-%m-%d %H:%M:%S%.3f" s with
          | Ok t => Ok t
          | Err _ => parse_naive "%Y-%m-%d %H:%M:%S" s
          end
      end
  end.

End dates.

(** ** Settings (config.rs) *)

Record MlConfig := {
  ml_clickhouse_url : string;
  ml_clickhouse_database : string;
  ml_clickhouse_table : string;
  ml_features_table : string;
  ml_scores_table : string;
  ml_phishing_features_table : string;
  ml_beacon_features_table : string;
  ml_score_cache_table : string;
  ml_clickhouse_user : option string;
  ml_clickhouse_password : option string;
  ml_poll_interval : N;
  ml_lookback : N;
  ml_entity_types : list string;
  ml_min_requests : N;
  ml_model : string;
  ml_score_threshold : f64;
  ml_baseline_lookback : N;
  ml_baseline_min_samples : N;
  ml_z_clip : f64;
  ml_baseline_path : option string;
  ml_beacon_lookback : N;
  ml_beacon_min_hits : N;
  ml_beacon_min_interval_secs : N;
  ml_beacon_max_interval_secs : N;
  ml_beacon_max_gap_cv : f64;
  ml_writeback_enabled : bool;
  ml_writeback_min_score : f64;
  ml_writeback_ttl : N;
  ml_webhook_url : option string;
  ml_webhook_timeout : N;
  ml_metrics_port : N;
  ml_source : string;
}.

(** [parse_list] is the alert worker's [parse_rules_list]. *)
Definition parse_list (raw : string) : list string :=
  List.filter (fun s => negb (str_is_empty s)) (trim <$> split_on "," raw).

(** Here a number that cannot be read is an error. *)
Definition env_f64 (env : Env) (key : string) (dflt : f64) : result f64 string :=
  match env key with
  | Some v => match parse_f64 v with Some x => Ok x | None => Err (key +:+ " must be a float, got " +:+ str_debug v) end
  | None => Ok dflt
  end.

Definition supported_entity (t : string) : bool := bool_decide (t ∈ ["client_ip"; "username"; "domain"]%string).

Definition trimmed_env (env : Env) (key : string) : option string :=
  match env key with
  | Some s => if str_is_empty (trim s) then None else Some (trim s)
  | None => None
  end.

Definition MlConfig_from_env (env : Env) : result MlConfig string :=
  let entity_types := parse_list (default "client_ip"%string (env "ML_ENTITY_TYPES"%string)) in
  match entity_types with
  | [] => Err "ML_ENTITY_TYPES must list at least one of client_ip,username,domain"%string
  | _ =>
      match List.find (fun t => negb (supported_entity t)) entity_types with
      | Some t => Err ("unsupported ML_ENTITY_TYPES entry: " +:+ t)
      | None =>
          let str name dflt := default dflt (env name) in
          let num name dflt := env_parse parse_u64 env name dflt in
          let secs name dflt := from_secs (num name dflt) in
          let? score_threshold := env_f64 env "ML_SCORE_THRESHOLD" (dec 8 (-1)) in
          let? z_clip := env_f64 env "ML_ZSCORE_CLIP" (f64_of_N 4) in
          let? beacon_max_gap_cv := env_f64 env "ML_BEACON_MAX_GAP_CV" (dec 25 (-2)) in
          let? writeback_min_score := env_f64 env "ML_WRITEBACK_MIN_SCORE" (dec 5 (-1)) in
          Ok {| ml_clickhouse_url := str "CLICKHOUSE_URL"%string "http://127.0.0.1:8123"%string;
                ml_clickhouse_database := str "CLICKHOUSE_DATABASE"%string "bsdm"%string;
                ml_clickhouse_table := str "CLICKHOUSE_TABLE"%string "http_cache"%string;
                ml_features_table := str "ML_FEATURES_TABLE"%string "entity_features"%string;
                ml_scores_table := str "ML_SCORES_TABLE"%string "ml_scores"%string;
                ml_phishing_features_table := str "ML_PHISHING_FEATURES_TABLE"%string "domain_phishing_features"%string;
                ml_beacon_features_table := str "ML_BEACON_FEATURES_TABLE"%string "beacon_pair_features"%string;
                ml_score_cache_table := str "ML_SCORE_CACHE_TABLE"%string "threat_score_cache"%string;
                ml_clickhouse_user := non_empty_env env "CLICKHOUSE_USER";
                ml_clickhouse_password := non_empty_env env "CLICKHOUSE_PASSWORD";
                ml_poll_interval := secs "ML_POLL_INTERVAL_SECS"%string 120%N;
                ml_lookback := secs "ML_LOOKBACK_SECS"%string 300%N;
                ml_entity_types := entity_types;
                ml_min_requests := num "ML_MIN_REQUESTS"%string 10%N;
                ml_model := str "ML_MODEL"%string "ueba_zscore_v0"%string;
                ml_score_threshold := score_threshold;
                ml_baseline_lookback := secs "ML_BASELINE_LOOKBACK_SECS"%string 86400%N;
                ml_baseline_min_samples := num "ML_BASELINE_MIN_SAMPLES"%string 30%N;
                ml_z_clip := z_clip;
                ml_baseline_path := trimmed_env env "ML_BASELINE_PATH";
                ml_beacon_lookback := secs "ML_BEACON_LOOKBACK_SECS"%string 3600%N;
                ml_beacon_min_hits := num "ML_BEACON_MIN_HITS"%string 5%N;
                ml_beacon_min_interval_secs := num "ML_BEACON_MIN_INTERVAL_SECS"%string 45%N;
                ml_beacon_max_interval_secs := num "ML_BEACON_MAX_INTERVAL_SECS"%string 900%N;
                ml_beacon_max_gap_cv := beacon_max_gap_cv;
                ml_writeback_enabled :=
                  match env "ML_WRITEBACK_ENABLED"%string with
                  | Some v => negb (bool_decide (to_ascii_lowercase v ∈ ["0"; "false"; "no"; "off"]%string))
                  | None => true
                  end;
                ml_writeback_min_score := writeback_min_score;
                ml_writeback_ttl := secs "ML_WRITEBACK_TTL_SECS"%string 3600%N;
                ml_webhook_url := trimmed_env env "ML_WEBHOOK_URL";
                ml_webhook_timeout := secs "ML_WEBHOOK_TIMEOUT_SECS"%string 10%N;
                ml_metrics_port := (num "METRICS_PORT"%string 8091 mod 65536)%N;
                ml_source := str "ML_SOURCE"%string "bsdm-proxy-ml-worker"%string |}
      end
  end.

Definition fq (c : MlConfig) (table : string) : string := ml_clickhouse_database c +:+ "." +:+ table.
Definition fq_source (c : MlConfig) : string := fq c (ml_clickhouse_table c).
Definition fq_features (c : MlConfig) : string := fq c (ml_features_table c).
Definition fq_scores (c : MlConfig) : string := fq c (ml_scores_table c).
Definition fq_phishing_features (c : MlConfig) : string := fq c (ml_phishing_features_table c).
Definition fq_beacon_features (c : MlConfig) : string := fq c (ml_beacon_features_table c).
Definition fq_score_cache (c : MlConfig) : string := fq c (ml_score_cache_table c).

Definition is_phishing_model (c : MlConfig) : bool := String.eqb (ml_model c) "phishing_lexical_v0".
Definition is_beacon_model (c : MlConfig) : bool := String.eqb (ml_model c) "cc_beacon_v0".

(** ** Queries *)

Definition entity_expr (entity_type : string) : option string :=
  if String.eqb entity_type "client_ip" then Some "toString(client_ip)"%string
  else if String.eqb entity_type "username" then Some "ifNull(username, '')"%string
  else if String.eqb entity_type "domain" then Some "domain"%string
  else None.

(** An unknown type panics. *)
Definition extract_sql (c : MlConfig) (entity_type : string) : option string :=
  entity_expr ← entity_expr entity_type;
  Some (join_lines [
    EmptyString; "SELECT"; "  min(ts) AS window_start,";
    "  toUInt32(" +:+ pretty (as_secs (ml_lookback c)) +:+ ") AS window_secs,";
    "  '" +:+ entity_type +:+ "' AS entity_type,"; "  " +:+ entity_expr +:+ " AS entity_id,";
    "  count() AS request_count,"; "  uniqExact(domain) AS unique_domains,";
    "  uniqExact(url) AS unique_urls,";
    "  countIf(acl_action = 'deny' OR cache_status = 'DENY') AS deny_count,";
    "  countIf(length(threat_sources) > 0) AS threat_hit_count,";
    "  countIf(hasAny(categories, ['JobSearch', 'Careers', 'Recruitment'])) AS job_search_count,";
    "  avg(response_size) AS avg_response_size,"; "  avg(request_duration_ms) AS avg_duration_ms,";
    "  if("; "    count() < 3,"; "    0.0,"; "    ifNull("; "      arrayReduce("; "        'stddevPop',";
    "        arrayDifference(arraySort(groupArray(toUnixTimestamp64Milli(ts))))"; "      )";
    "      / nullIf("; "        arrayReduce("; "          'avg',";
    "          arrayDifference(arraySort(groupArray(toUnixTimestamp64Milli(ts))))"; "        ),";
    "        0"; "      ),"; "      0.0"; "    )"; "  ) AS gap_cv,";
    "  max(length(domain)) AS max_domain_len,"; "  now64(3) AS extracted_at"; "FROM " +:+ fq_source c;
    "WHERE ts >= now() - INTERVAL " +:+ pretty (as_secs (ml_lookback c)) +:+ " SECOND";
    "  AND " +:+ entity_expr +:+ " != ''"; "GROUP BY entity_id";
    "HAVING request_count >= " +:+ pretty (ml_min_requests c); "FORMAT JSONEachRow"; EmptyString]).

Definition baseline_sql (c : MlConfig) : string :=
  join_lines [
    EmptyString; "SELECT"; "  entity_type,"; "  count() AS sample_count,";
    "  avg(request_count) AS mean_request_count,";
    "  ifNull(stddevSamp(request_count), 0) AS std_request_count,";
    "  avg(unique_domains) AS mean_unique_domains,";
    "  ifNull(stddevSamp(unique_domains), 0) AS std_unique_domains,";
    "  avg(unique_urls) AS mean_unique_urls,"; "  ifNull(stddevSamp(unique_urls), 0) AS std_unique_urls,";
    "  avg(deny_count) AS mean_deny_count,"; "  ifNull(stddevSamp(deny_count), 0) AS std_deny_count,";
    "  avg(threat_hit_count) AS mean_threat_hit_count,";
    "  ifNull(stddevSamp(threat_hit_count), 0) AS std_threat_hit_count,";
    "  avg(job_search_count) AS mean_job_search_count,";
    "  ifNull(stddevSamp(job_search_count), 0) AS std_job_search_count,";
    "  avg(avg_response_size) AS mean_avg_response_size,";
    "  ifNull(stddevSamp(avg_response_size), 0) AS std_avg_response_size,";
    "  avg(avg_duration_ms) AS mean_avg_duration_ms,";
    "  ifNull(stddevSamp(avg_duration_ms), 0) AS std_avg_duration_ms,"; "  avg(gap_cv) AS mean_gap_cv,";
    "  ifNull(stddevSamp(gap_cv), 0) AS std_gap_cv,"; "  avg(max_domain_len) AS mean_max_domain_len,";
    "  ifNull(stddevSamp(max_domain_len), 0) AS std_max_domain_len,";
    "  avg(if(request_count = 0, 0, deny_count / request_count)) AS mean_deny_ratio,";
    "  ifNull(stddevSamp(if(request_count = 0, 0, deny_count / request_count)), 0) AS std_deny_ratio,";
    "  avg(if(request_count = 0, 0, threat_hit_count / request_count)) AS mean_threat_ratio,";
    "  ifNull(stddevSamp(if(request_count = 0, 0, threat_hit_count / request_count)), 0) AS std_threat_ratio,";
    "  avg(if(request_count = 0, 0, job_search_count / request_count)) AS mean_job_search_ratio,";
    "  ifNull(stddevSamp(if(request_count = 0, 0, job_search_count / request_count)), 0) AS std_job_search_ratio";
    "FROM " +:+ fq_features c;
    "WHERE extracted_at >= now() - INTERVAL " +:+ pretty (as_secs (ml_baseline_lookback c)) +:+ " SECOND";
    "GROUP BY entity_type"; "HAVING sample_count >= " +:+ pretty (ml_baseline_min_samples c);
    "FORMAT JSONEachRow"; EmptyString].

Definition phishing_extract_sql (c : MlConfig) : string :=
  join_lines [
    EmptyString; "SELECT"; "  min(ts) AS window_start,";
    "  toUInt32(" +:+ pretty (as_secs (ml_lookback c)) +:+ ") AS window_secs,"; "  domain,";
    "  count() AS request_count,"; "  uniqExact(url) AS unique_urls,";
    "  countIf(has(categories, 'phishing')) AS weak_label_phishing,";
    "  countIf(has(threat_sources, 'phishtank')) AS weak_label_phishtank,";
    "  countIf(has(threat_sources, 'ut1')) AS weak_label_ut1,";
    "  countIf(acl_action = 'deny' OR cache_status = 'DENY') AS deny_count,"; "  countIf(";
    "    match(lower(url), '(login|signin|verify|secure|account|update|banking|password|wallet|confirm)')";
    "  ) AS suspicious_path_hits,";
    "  avg(greatest(toInt64(length(url)) - toInt64(length(domain)) - 8, 0)) AS avg_path_extra_len,";
    "  now64(3) AS extracted_at"; "FROM " +:+ fq_source c;
    "WHERE ts >= now() - INTERVAL " +:+ pretty (as_secs (ml_lookback c)) +:+ " SECOND";
    "  AND domain != ''"; "GROUP BY domain"; "HAVING request_count >= " +:+ pretty (ml_min_requests c);
    "FORMAT JSONEachRow"; EmptyString].

Definition beacon_extract_sql (c : MlConfig) : string :=
  join_lines [
    EmptyString; "WITH ordered AS ("; "  SELECT"; "    toString(client_ip) AS client_ip,"; "    domain,";
    "    ts,"; "    method,"; "    response_size,"; "    threat_sources,"; "    dateDiff(";
    "      'second',"; "      lagInFrame(ts) OVER (PARTITION BY client_ip, domain ORDER BY ts),";
    "      ts"; "    ) AS gap_sec"; "  FROM " +:+ fq_source c;
    "  WHERE ts >= now() - INTERVAL " +:+ pretty (as_secs (ml_beacon_lookback c)) +:+ " SECOND";
    "    AND domain != ''"; "),"; "gaps AS ("; "  SELECT"; "    client_ip,"; "    domain,"; "    gap_sec,";
    "    method,"; "    response_size,"; "    threat_sources,"; "    ts"; "  FROM ordered";
    "  WHERE gap_sec IS NOT NULL";
    "    AND gap_sec BETWEEN " +:+ pretty (ml_beacon_min_interval_secs c) +:+ " AND " +:+ pretty (ml_beacon_max_interval_secs c);
    "),"; "pair_stats AS ("; "  SELECT"; "    client_ip,"; "    domain,"; "    count() AS gap_count,";
    "    avg(gap_sec) AS avg_gap_secs,";
    "    if(avg(gap_sec) = 0, 1, stddevPop(gap_sec) / avg(gap_sec)) AS gap_cv,";
    "    stddevPop(gap_sec) AS stddev_gap_secs"; "  FROM gaps"; "  GROUP BY client_ip, domain";
    "  HAVING gap_count >= " +:+ pretty (ml_beacon_min_hits c); "),"; "req_stats AS ("; "  SELECT";
    "    toString(client_ip) AS client_ip,"; "    domain,"; "    min(ts) AS window_start,";
    "    count() AS request_count,"; "    countIf(method = 'POST') AS post_count,";
    "    avg(response_size) AS avg_response_size,";
    "    countIf(toHour(ts) >= 22 OR toHour(ts) < 6) AS off_hours_count,";
    "    countIf(length(threat_sources) > 0) AS threat_hit_count,"; "    uniqExact(url) AS unique_urls";
    "  FROM " +:+ fq_source c;
    "  WHERE ts >= now() - INTERVAL " +:+ pretty (as_secs (ml_beacon_lookback c)) +:+ " SECOND";
    "    AND domain != ''"; "  GROUP BY client_ip, domain"; ")"; "SELECT";
    "  r.window_start AS window_start,";
    "  toUInt32(" +:+ pretty (as_secs (ml_beacon_lookback c)) +:+ ") AS window_secs,";
    "  p.client_ip AS client_ip,"; "  p.domain AS domain,"; "  r.request_count AS request_count,";
    "  p.gap_count AS gap_count,"; "  p.avg_gap_secs AS avg_gap_secs,"; "  p.gap_cv AS gap_cv,";
    "  p.stddev_gap_secs AS stddev_gap_secs,"; "  r.post_count AS post_count,";
    "  r.avg_response_size AS avg_response_size,"; "  r.off_hours_count AS off_hours_count,";
    "  r.threat_hit_count AS threat_hit_count,"; "  r.unique_urls AS unique_urls,";
    "  now64(3) AS extracted_at"; "FROM pair_stats p";
    "INNER JOIN req_stats r ON p.client_ip = r.client_ip AND p.domain = r.domain";
    "ORDER BY p.gap_cv ASC, p.gap_count DESC"; "LIMIT 500"; "FORMAT JSONEachRow"; EmptyString].

(** ** Features of an entity (features.rs) *)

(** [num as f64 / den as f64], and 0 over 0 requests. *)
Definition ratio (num den : N) : f64 := if (den =? 0)%N then f0 else fdiv (f64_of_N num) (f64_of_N den).

Definition as_u32 (n : N) : N := (n mod 2 ^ 32)%N.

Section models.
Context {CH : Chrono} {SJ : SerdeJson} {JN : JsonNumbers}.

Record EntityFeatures := {
  ef_window_start : utc;
  ef_window_secs : N;
  ef_entity_type : string;
  ef_entity_id : string;
  ef_request_count : N;
  ef_unique_domains : N;
  ef_unique_urls : N;
  ef_deny_count : N;
  ef_threat_hit_count : N;
  ef_job_search_count : N;
  ef_avg_response_size : f64;
  ef_avg_duration_ms : f64;
  ef_gap_cv : f64;
  ef_max_domain_len : N;
  ef_extracted_at : utc;
}.

(** The fields as serde writes them, with the text of dates. *)
Definition entity_fields (date : utc -> string) (f : EntityFeatures) : list (string * json) :=
  [("window_start", JString (date (ef_window_start f))); ("window_secs", json_u64 (ef_window_secs f));
   ("entity_type", JString (ef_entity_type f)); ("entity_id", JString (ef_entity_id f));
   ("request_count", json_u64 (ef_request_count f)); ("unique_domains", json_u64 (ef_unique_domains f));
   ("unique_urls", json_u64 (ef_unique_urls f)); ("deny_count", json_u64 (ef_deny_count f));
   ("threat_hit_count", json_u64 (ef_threat_hit_count f)); ("job_search_count", json_u64 (ef_job_search_count f));
   ("avg_response_size", json_of_f64 (ef_avg_response_size f)); ("avg_duration_ms", json_of_f64 (ef_avg_duration_ms f));
   ("gap_cv", json_of_f64 (ef_gap_cv f)); ("max_domain_len", json_u64 (ef_max_domain_len f));
   ("extracted_at", JString (date (ef_extracted_at f)))]%string.

Definition entity_insert_json (f : EntityFeatures) : json := json_object (entity_fields utc_format f).

(** [serde_json::to_string]: in the order of the fields. *)
Definition entity_features_json (f : EntityFeatures) : string := json_to_vec (JObject (entity_fields utc_serde f)).

Definition or_else {A E} (dflt : A) (r : result A E) : A := match r with Ok a => a | Err _ => dflt end.

(** [features_from_row] past the two dates. *)
Definition entity_of_row (row : json) (window_start extracted_at : utc) : result EntityFeatures string :=
  let? window_secs := row_u64 (json_get "window_secs" row) in
  let? entity_type := row_string (json_get "entity_type" row) in
  let? entity_id := row_string (json_get "entity_id" row) in
  let? request_count := row_u64 (json_get "request_count" row) in
  let? unique_domains := row_u64 (json_get "unique_domains" row) in
  let? unique_urls := row_u64 (json_get "unique_urls" row) in
  let? deny_count := row_u64 (json_get "deny_count" row) in
  let? threat_hit_count := row_u64 (json_get "threat_hit_count" row) in
  let job_search_count := or_else 0%N (row_u64 (json_get "job_search_count" row)) in
  let? avg_response_size := row_f64 (json_get "avg_response_size" row) in
  let? avg_duration_ms := row_f64 (json_get "avg_duration_ms" row) in
  let gap_cv := or_else f0 (row_f64 (json_get "gap_cv" row)) in
  let? max_domain_len := row_u64 (json_get "max_domain_len" row) in
  Ok {| ef_window_start := window_start; ef_window_secs := as_u32 window_secs; ef_entity_type := entity_type;
        ef_entity_id := entity_id; ef_request_count := request_count; ef_unique_domains := unique_domains;
        ef_unique_urls := unique_urls; ef_deny_count := deny_count; ef_threat_hit_count := threat_hit_count;
        ef_job_search_count := job_search_count; ef_avg_response_size := avg_response_size;
        ef_avg_duration_ms := avg_duration_ms; ef_gap_cv := gap_cv; ef_max_domain_len := max_domain_len;
        ef_extracted_at := extracted_at |}.

(** ** Baselines (baseline.rs) *)

Record FeatureMoments := {
  fm_mean : f64;
  fm_std : f64;
}.

Definition z (m : FeatureMoments) (value eps : f64) : f64 :=
  let denom := if flt (f64_abs (fm_std m)) eps then eps else fm_std m in
  fdiv (fsub value (fm_mean m)) denom.

Record EntityTypeBaseline := {
  bl_entity_type : string;
  bl_sample_count : N;
  bl_request_count : FeatureMoments;
  bl_unique_domains : FeatureMoments;
  bl_unique_urls : FeatureMoments;
  bl_deny_count : FeatureMoments;
  bl_threat_hit_count : FeatureMoments;
  bl_job_search_count : FeatureMoments;
  bl_avg_response_size : FeatureMoments;
  bl_avg_duration_ms : FeatureMoments;
  bl_gap_cv : FeatureMoments;
  bl_max_domain_len : FeatureMoments;
  bl_deny_ratio : FeatureMoments;
  bl_threat_ratio : FeatureMoments;
  bl_job_search_ratio : FeatureMoments;
}.

Definition eps : f64 := dec 1 (-6).

Definition baseline_zs (b : EntityTypeBaseline) (f : EntityFeatures) : list f64 :=
  let deny_ratio := ratio (ef_deny_count f) (ef_request_count f) in
  let threat_ratio := ratio (ef_threat_hit_count f) (ef_request_count f) in
  [z (bl_request_count b) (f64_of_N (ef_request_count f)) eps;
   z (bl_unique_domains b) (f64_of_N (ef_unique_domains f)) eps;
   z (bl_unique_urls b) (f64_of_N (ef_unique_urls f)) eps;
   z (bl_deny_count b) (f64_of_N (ef_deny_count f)) eps;
   z (bl_threat_hit_count b) (f64_of_N (ef_threat_hit_count f)) eps;
   z (bl_avg_response_size b) (ef_avg_response_size f) eps;
   z (bl_avg_duration_ms b) (ef_avg_duration_ms f) eps;
   z (bl_gap_cv b) (ef_gap_cv f) eps;
   z (bl_max_domain_len b) (f64_of_N (ef_max_domain_len f)) eps;
   z (bl_deny_ratio b) deny_ratio eps;
   z (bl_threat_ratio b) threat_ratio eps].

(** [Iterator::sum] of floats starts at -0.0. *)
Definition baseline_score (b : EntityTypeBaseline) (f : EntityFeatures) (z_clip : f64) : f64 :=
  let clip := f64_max z_clip f1 in
  let clipped := (fun z => fdiv (f64_min (f64_abs z) clip) clip) <$> baseline_zs b f in
  let mean := fdiv (foldl fadd (S754_zero true) clipped) (f64_of_N (N.of_nat (length clipped))) in
  let max := foldl f64_max f0 clipped in
  f_clamp f0 f1 (fadd (fmul (dec 4 (-1)) mean) (fmul (dec 6 (-1)) max)).

Record BaselineSet := {
  bs_baselines : gmap string EntityTypeBaseline;
  bs_source : string;
}.

Definition BaselineSet_default : BaselineSet := {| bs_baselines := ∅; bs_source := EmptyString |}.

Definition bs_is_empty (s : BaselineSet) : bool := bool_decide (bs_baselines s = ∅).

Definition moments (row : json) (name : string) : result FeatureMoments string :=
  let? mean := row_f64 (json_get ("mean_" +:+ name) row) in
  Ok {| fm_mean := mean; fm_std := or_else f0 (row_f64 (json_get ("std_" +:+ name) row)) |}.

Definition zero_moments : FeatureMoments := {| fm_mean := f0; fm_std := f0 |}.

Definition baseline_from_row (row : json) : result EntityTypeBaseline string :=
  let? entity_type := row_string (json_get "entity_type" row) in
  let? sample_count := row_u64 (json_get "sample_count" row) in
  let? request_count := moments row "request_count" in
  let? unique_domains := moments row "unique_domains" in
  let? unique_urls := moments row "unique_urls" in
  let? deny_count := moments row "deny_count" in
  let? threat_hit_count := moments row "threat_hit_count" in
  let job_search_count := or_else zero_moments (moments row "job_search_count") in
  let? avg_response_size := moments row "avg_response_size" in
  let? avg_duration_ms := moments row "avg_duration_ms" in
  let? gap_cv := moments row "gap_cv" in
  let? max_domain_len := moments row "max_domain_len" in
  let? deny_ratio := moments row "deny_ratio" in
  let? threat_ratio := moments row "threat_ratio" in
  let job_search_ratio := or_else zero_moments (moments row "job_search_ratio") in
  Ok {| bl_entity_type := entity_type; bl_sample_count := sample_count; bl_request_count := request_count;
        bl_unique_domains := unique_domains; bl_unique_urls := unique_urls; bl_deny_count := deny_count;
        bl_threat_hit_count := threat_hit_count; bl_job_search_count := job_search_count;
        bl_avg_response_size := avg_response_size; bl_avg_duration_ms := avg_duration_ms; bl_gap_cv := gap_cv;
        bl_max_domain_len := max_domain_len; bl_deny_ratio := deny_ratio; bl_threat_ratio := threat_ratio;
        bl_job_search_ratio := job_search_ratio |}.

Fixpoint baselines_go (rows : list json) (m : gmap string EntityTypeBaseline)
    : result (gmap string EntityTypeBaseline) string :=
  match rows with
  | [] => Ok m
  | row :: rows => let? b := baseline_from_row row in baselines_go rows (<[bl_entity_type b := b]> m)
  end.

Definition baselines_from_rows (rows : list json) (source : string) : result BaselineSet string :=
  let? m := baselines_go rows ∅ in
  Ok {| bs_baselines := m; bs_source := source |}.

(** ** Scores (scoring.rs) *)

Definition MODEL_STUB : string := "anomaly_stub_v0".
Definition MODEL_UEBA : string := "ueba_zscore_v0".
Definition MODEL_FLIGHT_RISK : string := "flight_risk_v0".

Record ScoreResult := {
  sr_scored_at : utc;
  sr_entity_type : string;
  sr_entity_id : string;
  sr_window_start : utc;
  sr_model : string;
  sr_score : f64;
  sr_severity : string;
  sr_features_json : string;
}.

Definition score_insert_json (s : ScoreResult) : json :=
  json_object
    [("scored_at", JString (utc_format (sr_scored_at s))); ("entity_type", JString (sr_entity_type s));
     ("entity_id", JString (sr_entity_id s)); ("window_start", JString (utc_format (sr_window_start s)));
     ("model", JString (sr_model s)); ("score", json_of_f64 (sr_score s)); ("severity", JString (sr_severity s));
     ("features_json", JString (sr_features_json s))]%string.

Definition anomaly_stub_v0 (f : EntityFeatures) (min_requests : N) : f64 :=
  let min_r := f64_of_N (N.max min_requests 1) in
  let rate_component := f64_min (fdiv (f64_of_N (ef_request_count f)) (fmul min_r (f64_of_N 5))) f1 in
  let deny_ratio := ratio (ef_deny_count f) (ef_request_count f) in
  let threat_ratio := ratio (ef_threat_hit_count f) (ef_request_count f) in
  let domain_spread := f64_min (fdiv (f64_of_N (ef_unique_domains f)) (f64_of_N 20)) f1 in
  let beacon_hint :=
    if (5 <=? ef_request_count f)%N && flt f0 (ef_gap_cv f) && flt (ef_gap_cv f) (dec 25 (-2))
    then dec 15 (-2) else f0 in
  let raw :=
    fadd (fadd (fadd (fadd (fmul (dec 35 (-2)) rate_component) (fmul (dec 30 (-2)) deny_ratio))
                     (fmul (dec 20 (-2)) threat_ratio))
               (fmul (dec 10 (-2)) domain_spread))
         beacon_hint in
  f_clamp f0 f1 raw.

Definition ueba_zscore_v0 (f : EntityFeatures) (baseline : EntityTypeBaseline) (z_clip : f64) : f64 :=
  baseline_score baseline f z_clip.

Definition flight_risk_v0 (f : EntityFeatures) (baseline : option EntityTypeBaseline) (z_clip : f64) : f64 :=
  let clip := f64_max z_clip f1 in
  let absolute_signal := f_clamp f0 f1 (fdiv (f64_of_N (ef_job_search_count f)) (f64_of_N 10)) in
  let score :=
    match baseline with
    | Some b =>
        let z_count := z (bl_job_search_count b) (f64_of_N (ef_job_search_count f)) eps in
        let z_ratio := z (bl_job_search_ratio b) (ratio (ef_job_search_count f) (ef_request_count f)) eps in
        let max_z := f_clamp f0 clip (f64_max z_count z_ratio) in
        let relative_signal := fdiv max_z clip in
        fadd (fmul (dec 3 (-1)) absolute_signal) (fmul (dec 7 (-1)) relative_signal)
    | None => absolute_signal
    end in
  f_clamp f0 f1 score.

Definition severity_for (score threshold : f64) : string :=
  if fle (f64_max threshold (dec 9 (-1))) score then "critical"
  else if fle threshold score then "high"
  else if fle (fmul threshold (dec 6 (-1))) score then "medium"
  else "low".

Record ScoreContext := {
  sx_model : string;
  sx_min_requests : N;
  sx_threshold : f64;
  sx_z_clip : f64;
  sx_baselines : option BaselineSet;
}.

Definition baseline_for (ctx : ScoreContext) (f : EntityFeatures) : option EntityTypeBaseline :=
  set ← sx_baselines ctx; bs_baselines set !! ef_entity_type f.

(** The score and the model that gave it. *)
Definition model_score (f : EntityFeatures) (ctx : ScoreContext) : f64 * string :=
  if String.eqb (sx_model ctx) MODEL_UEBA then
    match baseline_for ctx f with
    | Some b => (ueba_zscore_v0 f b (sx_z_clip ctx), MODEL_UEBA)
    | None => (anomaly_stub_v0 f (sx_min_requests ctx), MODEL_STUB +:+ "+fallback_no_baseline")
    end
  else if String.eqb (sx_model ctx) MODEL_FLIGHT_RISK then
    (flight_risk_v0 f (baseline_for ctx f) (sx_z_clip ctx), MODEL_FLIGHT_RISK)
  else
    (anomaly_stub_v0 f (sx_min_requests ctx), if str_is_empty (sx_model ctx) then MODEL_STUB else sx_model ctx).

(** [now] is read for each score. *)
Definition score_features (now : utc) (f : EntityFeatures) (ctx : ScoreContext) : ScoreResult :=
  let '(score, model_used) := model_score f ctx in
  {| sr_scored_at := now; sr_entity_type := ef_entity_type f; sr_entity_id := ef_entity_id f;
     sr_window_start := ef_window_start f; sr_model := model_used; sr_score := score;
     sr_severity := severity_for score (sx_threshold ctx); sr_features_json := entity_features_json f |}.

(** ** Phishing (phishing.rs) *)

Record DomainPhishingFeatures := {
  pf_window_start : utc;
  pf_window_secs : N;
  pf_domain : string;
  pf_request_count : N;
  pf_unique_urls : N;
  pf_weak_label_phishing : N;
  pf_weak_label_phishtank : N;
  pf_weak_label_ut1 : N;
  pf_deny_count : N;
  pf_suspicious_path_hits : N;
  pf_avg_path_extra_len : f64;
  pf_extracted_at : utc;
}.

Record LexicalSignals := {
  lx_domain_len : N;
  lx_hyphen_count : N;
  lx_digit_count : N;
  lx_subdomain_depth : N;
  lx_entropy : f64;
  lx_suspicious_keyword : bool;
  lx_is_ip_hostname : bool;
}.

Definition json_flag (b : bool) : json := JNumber (if b then "1" else "0").

Definition phishing_insert_json (f : DomainPhishingFeatures) (lx : LexicalSignals) : json :=
  json_object
    [("window_start", JString (utc_format (pf_window_start f))); ("window_secs", json_u64 (pf_window_secs f));
     ("domain", JString (pf_domain f)); ("request_count", json_u64 (pf_request_count f));
     ("unique_urls", json_u64 (pf_unique_urls f)); ("weak_label_phishing", json_u64 (pf_weak_label_phishing f));
     ("weak_label_phishtank", json_u64 (pf_weak_label_phishtank f)); ("weak_label_ut1", json_u64 (pf_weak_label_ut1 f));
     ("deny_count", json_u64 (pf_deny_count f)); ("suspicious_path_hits", json_u64 (pf_suspicious_path_hits f));
     ("avg_path_extra_len", json_of_f64 (pf_avg_path_extra_len f)); ("domain_len", json_u64 (lx_domain_len lx));
     ("hyphen_count", json_u64 (lx_hyphen_count lx)); ("digit_count", json_u64 (lx_digit_count lx));
     ("subdomain_depth", json_u64 (lx_subdomain_depth lx)); ("entropy", json_of_f64 (lx_entropy lx));
     ("suspicious_keyword", json_flag (lx_suspicious_keyword lx)); ("is_ip_hostname", json_flag (lx_is_ip_hostname lx));
     ("extracted_at", JString (utc_format (pf_extracted_at f)))]%string.

Definition phishing_score_payload (f : DomainPhishingFeatures) (lx : LexicalSignals) : json :=
  json_object
    [("domain", JString (pf_domain f)); ("request_count", json_u64 (pf_request_count f));
     ("weak_labels", json_object
        [("phishing_category", json_u64 (pf_weak_label_phishing f)); ("phishtank", json_u64 (pf_weak_label_phishtank f));
         ("ut1", json_u64 (pf_weak_label_ut1 f))]);
     ("lexical", json_object
        [("domain_len", json_u64 (lx_domain_len lx)); ("hyphen_count", json_u64 (lx_hyphen_count lx));
         ("digit_count", json_u64 (lx_digit_count lx)); ("subdomain_depth", json_u64 (lx_subdomain_depth lx));
         ("entropy", json_of_f64 (lx_entropy lx)); ("suspicious_keyword", JBool (lx_suspicious_keyword lx));
         ("is_ip_hostname", JBool (lx_is_ip_hostname lx))]);
     ("suspicious_path_hits", json_u64 (pf_suspicious_path_hits f));
     ("avg_path_extra_len", json_of_f64 (pf_avg_path_extra_len f))]%string.

(** [bytes().filter(p).count()]. *)
Definition count_bytes (p : ascii -> bool) (s : string) : N := N.of_nat (length (List.filter p (list_ascii_of_string s))).

(** Entropy over bytes, in the order of their values. *)
Definition byte_entropy {LM : Libm} (s : string) : f64 :=
  if str_is_empty s then f0
  else
    let freq := (fun b => count_bytes (Ascii.eqb (ascii_of_nat b)) s) <$> seq 0 256 in
    let len := f64_of_N (str_len s) in
    foldl (fun e n => let p := fdiv (f64_of_N n) len in fsub e (fmul p (f64_log2 p))) f0
      (List.filter (fun n => (0 <? n)%N) freq).

Definition SUSPICIOUS_KEYWORDS : list string :=
  ["login"; "signin"; "verify"; "secure"; "account"; "update"; "banking"; "password"; "wallet"; "confirm"; "support";
   "paypal"; "appleid"; "microsoft"]%string.

Definition looks_like_ipv4 (host : string) : bool :=
  let parts := split_on "." host in
  if Nat.eqb (length parts) 4
  then forallb (fun p => match parse_uint 255 p with Some _ => true | None => false end) parts
  else false.

Definition lexical_signals {LM : Libm} (domain : string) : LexicalSignals :=
  let d := to_ascii_lowercase (trim domain) in
  let host := default d (head (split_on "/" d)) in
  let host := default host (head (split_on ":" host)) in
  let left_label := default host (head (split_on "." host)) in
  {| lx_domain_len := str_len host; lx_hyphen_count := count_bytes (Ascii.eqb "-") host;
     lx_digit_count := count_bytes is_ascii_digit host; lx_subdomain_depth := count_bytes (Ascii.eqb ".") host;
     lx_entropy := byte_entropy left_label;
     lx_suspicious_keyword := existsb (fun kw => str_contains host kw || str_contains left_label kw) SUSPICIOUS_KEYWORDS;
     lx_is_ip_hostname := looks_like_ipv4 host |}.

(** What each signal adds, in order. *)
Definition lexical_adds (lx : LexicalSignals) (path_hits request_count : N) : list (bool * f64) :=
  let hyphen_ratio := ratio (lx_hyphen_count lx) (lx_domain_len lx) in
  let digit_ratio := ratio (lx_digit_count lx) (lx_domain_len lx) in
  let path_ratio := ratio path_hits request_count in
  [((30 <? lx_domain_len lx)%N, dec 12 (-2)); ((3 <=? lx_subdomain_depth lx)%N, dec 18 (-2));
   (flt (dec 8 (-2)) hyphen_ratio, dec 14 (-2)); (flt (dec 15 (-2)) digit_ratio, dec 12 (-2));
   (flt (dec 35 (-1)) (lx_entropy lx), dec 16 (-2)); (lx_suspicious_keyword lx, dec 22 (-2));
   (lx_is_ip_hostname lx, dec 28 (-2)); (flt (dec 3 (-1)) path_ratio, dec 15 (-2))].

Definition lexical_heuristic (lx : LexicalSignals) (path_hits request_count : N) : f64 :=
  f_clamp f0 f1
    (foldl (fun s (a : bool * f64) => if a.1 then fadd s a.2 else s) f0 (lexical_adds lx path_hits request_count)).

(** The labels are added in [u64], which wraps in a release build. *)
Definition weak_sum (f : DomainPhishingFeatures) : N :=
  ((pf_weak_label_phishing f + pf_weak_label_phishtank f + pf_weak_label_ut1 f) mod 2 ^ 64)%N.

Definition phishing_lexical_v0 (f : DomainPhishingFeatures) (lx : LexicalSignals) : f64 :=
  let req := f64_of_N (N.max (pf_request_count f) 1) in
  let weak_hits := f64_of_N (weak_sum f) in
  let weak_ratio := f64_min (fdiv weak_hits req) f1 in
  let lex := lexical_heuristic lx (pf_suspicious_path_hits f) (pf_request_count f) in
  if flt f0 weak_hits then
    let weak_score := fadd (dec 72 (-2)) (fmul (dec 28 (-2)) weak_ratio) in
    if (0 <? pf_weak_label_phishtank f)%N then
      f_clamp (dec 85 (-2)) f1 (fadd (fmul (dec 65 (-2)) weak_score) (fmul (dec 35 (-2)) lex))
    else f_clamp (dec 75 (-2)) f1 (fadd (fmul (dec 55 (-2)) weak_score) (fmul (dec 45 (-2)) lex))
  else lex.

Definition score_domain {LM : Libm} (now : utc) (f : DomainPhishingFeatures) (threshold : f64) : ScoreResult :=
  let lx := lexical_signals (pf_domain f) in
  let score := phishing_lexical_v0 f lx in
  {| sr_scored_at := now; sr_entity_type := "domain"; sr_entity_id := pf_domain f; sr_window_start := pf_window_start f;
     sr_model := "phishing_lexical_v0"; sr_score := score; sr_severity := severity_for score threshold;
     sr_features_json := json_to_vec (phishing_score_payload f lx) |}.

(** [features_from_row] up to the date of extraction. *)
Definition phishing_of_row (row : json) : result (utc -> DomainPhishingFeatures) string :=
  let? window_start := parse_ch_datetime (json_get "window_start" row) in
  let? window_secs := row_u64 (json_get "window_secs" row) in
  let? domain := row_string (json_get "domain" row) in
  let? request_count := row_u64 (json_get "request_count" row) in
  let? unique_urls := row_u64 (json_get "unique_urls" row) in
  let? phishing := row_u64 (json_get "weak_label_phishing" row) in
  let? phishtank := row_u64 (json_get "weak_label_phishtank" row) in
  let? ut1 := row_u64 (json_get "weak_label_ut1" row) in
  let? deny_count := row_u64 (json_get "deny_count" row) in
  let? path_hits := row_u64 (json_get "suspicious_path_hits" row) in
  let path_extra := or_else f0 (row_f64 (json_get "avg_path_extra_len" row)) in
  Ok (fun extracted_at =>
    {| pf_window_start := window_start; pf_window_secs := as_u32 window_secs; pf_domain := domain;
       pf_request_count := request_count; pf_unique_urls := unique_urls; pf_weak_label_phishing := phishing;
       pf_weak_label_phishtank := phishtank; pf_weak_label_ut1 := ut1; pf_deny_count := deny_count;
       pf_suspicious_path_hits := path_hits; pf_avg_path_extra_len := path_extra; pf_extracted_at := extracted_at |}).

(** ** Beacons (beacon.rs) *)

Record BeaconPairFeatures := {
  bp_window_start : utc;
  bp_window_secs : N;
  bp_client_ip : string;
  bp_domain : string;
  bp_request_count : N;
  bp_gap_count : N;
  bp_avg_gap_secs : f64;
  bp_gap_cv : f64;
  bp_stddev_gap_secs : f64;
  bp_post_count : N;
  bp_avg_response_size : f64;
  bp_off_hours_count : N;
  bp_threat_hit_count : N;
  bp_unique_urls : N;
  bp_extracted_at : utc;
}.

Definition beacon_entity_id (f : BeaconPairFeatures) : string := bp_client_ip f +:+ "|" +:+ bp_domain f.

Definition beacon_insert_json (f : BeaconPairFeatures) : json :=
  json_object
    [("window_start", JString (utc_format (bp_window_start f))); ("window_secs", json_u64 (bp_window_secs f));
     ("client_ip", JString (bp_client_ip f)); ("domain", JString (bp_domain f));
     ("request_count", json_u64 (bp_request_count f)); ("gap_count", json_u64 (bp_gap_count f));
     ("avg_gap_secs", json_of_f64 (bp_avg_gap_secs f)); ("gap_cv", json_of_f64 (bp_gap_cv f));
     ("stddev_gap_secs", json_of_f64 (bp_stddev_gap_secs f)); ("post_count", json_u64 (bp_post_count f));
     ("avg_response_size", json_of_f64 (bp_avg_response_size f)); ("off_hours_count", json_u64 (bp_off_hours_count f));
     ("threat_hit_count", json_u64 (bp_threat_hit_count f)); ("unique_urls", json_u64 (bp_unique_urls f));
     ("extracted_at", JString (utc_format (bp_extracted_at f)))]%string.

Definition post_ratio (f : BeaconPairFeatures) : f64 := ratio (bp_post_count f) (bp_request_count f).

Definition beacon_score_payload (f : BeaconPairFeatures) (passes_periodic : bool) : json :=
  json_object
    [("client_ip", JString (bp_client_ip f)); ("domain", JString (bp_domain f)); ("gap_count", json_u64 (bp_gap_count f));
     ("avg_gap_secs", json_of_f64 (bp_avg_gap_secs f)); ("gap_cv", json_of_f64 (bp_gap_cv f));
     ("request_count", json_u64 (bp_request_count f)); ("post_ratio", json_of_f64 (post_ratio f));
     ("off_hours_ratio", json_of_f64 (ratio (bp_off_hours_count f) (bp_request_count f)));
     ("avg_response_size", json_of_f64 (bp_avg_response_size f)); ("unique_urls", json_u64 (bp_unique_urls f));
     ("threat_hit_count", json_u64 (bp_threat_hit_count f)); ("beacon_periodic_match", JBool passes_periodic)]%string.

Definition passes_beacon_periodic (f : BeaconPairFeatures) (c : MlConfig) : bool :=
  (ml_beacon_min_hits c <=? bp_gap_count f)%N && fle (bp_gap_cv f) (ml_beacon_max_gap_cv c) &&
  fle (f64_of_N (ml_beacon_min_interval_secs c)) (bp_avg_gap_secs f) &&
  fle (bp_avg_gap_secs f) (f64_of_N (ml_beacon_max_interval_secs c)).

Definition cc_beacon_v0 (f : BeaconPairFeatures) (c : MlConfig) : f64 :=
  let periodic := passes_beacon_periodic f c in
  let cv_cap := f64_max (ml_beacon_max_gap_cv c) (dec 1 (-2)) in
  let regularity :=
    if (2 <=? bp_gap_count f)%N then f64_max (fsub f1 (f64_min (fdiv (bp_gap_cv f) cv_cap) f1)) f0 else f0 in
  let hit_norm :=
    f64_min (fdiv (f64_of_N (bp_gap_count f)) (fmul (f64_of_N (ml_beacon_min_hits c)) (f64_of_N 2))) f1 in
  let small_payload :=
    if flt f0 (bp_avg_response_size f) && flt (bp_avg_response_size f) (f64_of_N 512) then dec 15 (-2)
    else if flt (bp_avg_response_size f) (f64_of_N 2048) then dec 8 (-2) else f0 in
  let post := fmul (post_ratio f) (dec 12 (-2)) in
  let off_hours := fmul (ratio (bp_off_hours_count f) (bp_request_count f)) (dec 10 (-2)) in
  let low_url_diversity :=
    if (bp_unique_urls f <=? 2)%N && (ml_beacon_min_hits c <=? bp_request_count f)%N then dec 12 (-2) else f0 in
  let threat := if (0 <? bp_threat_hit_count f)%N then dec 15 (-2) else f0 in
  let behavioral := fadd (fadd (fadd (fadd small_payload post) off_hours) low_url_diversity) threat in
  let raw := fadd (fadd (fmul (dec 45 (-2)) regularity) (fmul (dec 25 (-2)) hit_norm)) behavioral in
  if periodic then
    f_clamp (dec 78 (-2)) f1 (fadd (fmul (dec 55 (-2)) raw) (fmul (dec 45 (-2)) (dec 92 (-2))))
  else f_clamp f0 (dec 72 (-2)) raw.

Definition score_beacon_pair (now : utc) (f : BeaconPairFeatures) (c : MlConfig) : ScoreResult :=
  let periodic := passes_beacon_periodic f c in
  let score := cc_beacon_v0 f c in
  {| sr_scored_at := now; sr_entity_type := "client_domain"; sr_entity_id := beacon_entity_id f;
     sr_window_start := bp_window_start f; sr_model := "cc_beacon_v0"; sr_score := score;
     sr_severity := severity_for score (ml_score_threshold c);
     sr_features_json := json_to_vec (beacon_score_payload f periodic) |}.

(** [features_from_row] up to the date of extraction. *)
Definition beacon_of_row (row : json) : result (utc -> BeaconPairFeatures) string :=
  let? window_start := parse_ch_datetime (json_get "window_start" row) in
  let? window_secs := row_u64 (json_get "window_secs" row) in
  let? client_ip := row_string (json_get "client_ip" row) in
  let? domain := row_string (json_get "domain" row) in
  let? request_count := row_u64 (json_get "request_count" row) in
  let? gap_count := row_u64 (json_get "gap_count" row) in
  let? avg_gap_secs := row_f64 (json_get "avg_gap_secs" row) in
  let? gap_cv := row_f64 (json_get "gap_cv" row) in
  let stddev := or_else f0 (row_f64 (json_get "stddev_gap_secs" row)) in
  let? post_count := row_u64 (json_get "post_count" row) in
  let avg_response_size := or_else f0 (row_f64 (json_get "avg_response_size" row)) in
  let? off_hours_count := row_u64 (json_get "off_hours_count" row) in
  let? threat_hit_count := row_u64 (json_get "threat_hit_count" row) in
  let? unique_urls := row_u64 (json_get "unique_urls" row) in
  Ok (fun extracted_at =>
    {| bp_window_start := window_start; bp_window_secs := as_u32 window_secs; bp_client_ip := client_ip;
       bp_domain := domain; bp_request_count := request_count; bp_gap_count := gap_count;
       bp_avg_gap_secs := avg_gap_secs; bp_gap_cv := gap_cv; bp_stddev_gap_secs := stddev; bp_post_count := post_count;
       bp_avg_response_size := avg_response_size; bp_off_hours_count := off_hours_count;
       bp_threat_hit_count := threat_hit_count; bp_unique_urls := unique_urls; bp_extracted_at := extracted_at |}).

End models.

(** [serde_json::from_str] of a baseline artifact. *)
Class BaselineJson := baseline_set_of_json : string -> result BaselineSet string.

(** ** Every score is a number between 0 and 1 *)

Definition in_range (lo hi x : f64) : Prop := fle lo x = true /\ fle x hi = true.

Lemma f_clamp_nonneg_range lo hi x :
  f_nonneg x = true -> is_nan lo = false -> is_nan hi = false -> fle lo hi = true -> in_range lo hi (f_clamp lo hi x).
Proof. intros Hx%f_nonneg_not_nan. by apply f_clamp_range. Qed.

Lemma fmul_const_nonneg k y : f_pos k = true -> f_nonneg y = true -> f_nonneg (fmul k y) = true.
Proof. apply SFmul_pos_nonneg. Qed.

Lemma fmul_nonneg_const y k : f_nonneg y = true -> f_pos k = true -> f_nonneg (fmul y k) = true.
Proof. apply SFmul_nonneg_pos. Qed.

Lemma fadd_nonneg x y : f_nonneg x = true -> f_nonneg y = true -> f_nonneg (fadd x y) = true.
Proof. apply SFadd_nonneg. Qed.

Lemma fdiv_pos x y : f_nonneg x = true -> f_pos y = true -> f_nonneg (fdiv x y) = true.
Proof. apply SFdiv_pos. Qed.

(** [min] makes a number of a quotient that is none. *)
Lemma fdiv_min_nonneg x y k : f_nonneg x = true -> f_plus y = true -> f_nonneg k = true -> f_nonneg (f64_min (fdiv x y) k) = true.
Proof.
  intros Hx Hy Hk. apply f64_min_nonneg; [|done]. apply SFdiv_nonneg; [done|by apply f_plus_nonneg|]. by intros ->.
Qed.

Lemma if_nonneg (b : bool) x y : f_nonneg x = true -> f_nonneg y = true -> f_nonneg (if b then x else y) = true.
Proof. by destruct b. Qed.

Lemma f64_of_N_plus n : f_plus (f64_of_N n) = true.
Proof.
  unfold f64_of_N, binary_normalize. destruct n as [|p]; [done|]. cbn [Z.of_N]. unfold binary_round.
  destruct (shl_align _ _ _) as [m e]. by apply binary_round_aux_plus.
Qed.

Lemma ratio_nonneg num den : (den < 2 ^ 64)%N -> f_nonneg (ratio num den) = true.
Proof.
  intros Hd. unfold ratio. destruct (N.eqb_spec den 0); [done|]. apply fdiv_pos; [apply f64_of_N_nonneg|].
  apply f64_of_N_pos. lia.
Qed.

Create HintDb score.
#[export] Hint Resolve fadd_nonneg fmul_const_nonneg fmul_nonneg_const if_nonneg ratio_nonneg f64_of_N_nonneg
  f64_max_zero_nonneg fdiv_min_nonneg f64_of_N_plus : score.
#[export] Hint Extern 1 (f_pos (f64_of_decimal _ _ _) = true) => vm_compute; reflexivity : score.
#[export] Hint Extern 1 (f_nonneg (f64_of_decimal _ _ _) = true) => vm_compute; reflexivity : score.
#[export] Hint Extern 1 (f_nonneg (S754_zero _) = true) => reflexivity : score.
#[export] Hint Extern 1 (f_nonneg f1 = true) => reflexivity : score.

Section ranges.
Context {CH : Chrono} {SJ : SerdeJson} {JN : JsonNumbers}.

Lemma anomaly_stub_range f min_requests : (ef_request_count f < 2 ^ 64)%N ->
  in_range f0 f1 (anomaly_stub_v0 f min_requests).
Proof.
  intros Hr. unfold anomaly_stub_v0. cbv zeta. apply f_clamp_nonneg_range; [|done..].
  assert (f_plus (fmul (f64_of_N (N.max min_requests 1)) (f64_of_N 5)) = true) as H5.
  { apply SFmul_plus; [apply f64_of_N_plus|done]. }
  auto 12 with score.
Qed.

Lemma clipped_nonneg clip x : f_pos clip = true -> f_nonneg (fdiv (f64_min (f64_abs x) clip) clip) = true.
Proof.
  intros Hc. apply fdiv_pos; [|done]. apply f64_min_nonneg; [|by apply f_plus_nonneg, f_pos_plus].
  destruct x; auto.
Qed.

Lemma foldl_nonneg op l a : (forall x y, f_nonneg x = true -> f_nonneg y = true -> f_nonneg (op x y) = true) ->
  f_nonneg a = true -> Forall (fun x => f_nonneg x = true) l -> f_nonneg (foldl op a l) = true.
Proof. intros Hop Ha Hl. revert a Ha. induction Hl as [|x l Hx Hl IH]; intros a Ha; cbn; [done|]. apply IH. auto. Qed.

Lemma f64_max_nonneg x y : f_nonneg x = true -> f_nonneg y = true -> f_nonneg (f64_max x y) = true.
Proof. intros Hx Hy. unfold f64_max. rewrite !f_nonneg_not_nan by done. by destruct (flt x y). Qed.

Lemma baseline_score_range b f z_clip : z_clip <> S754_infinity false -> in_range f0 f1 (baseline_score b f z_clip).
Proof.
  intros Hc%f64_max_one_pos. unfold baseline_score. cbv zeta. change (f64_of_N 1) with f1 in Hc.
  set (clip := f64_max z_clip f1) in *. clearbody clip.
  set (cl := _ <$> baseline_zs b f). assert (Forall (fun x => f_nonneg x = true) cl) as Hcl.
  { apply Forall_fmap, Forall_true. intros x. by apply clipped_nonneg. }
  assert (length cl = 11) as Hl by done. rewrite Hl. clearbody cl. apply f_clamp_nonneg_range; [|done..].
  apply fadd_nonneg; (apply fmul_const_nonneg; [by vm_compute|]).
  - apply fdiv_pos; [|done]. apply foldl_nonneg; [apply fadd_nonneg|done|done].
  - apply foldl_nonneg; [apply f64_max_nonneg|done|done].
Qed.

Definition finite_moments (m : FeatureMoments) : Prop := f_finite (fm_mean m) = true /\ f_finite (fm_std m) = true.

Lemma eps_finite : exists m e, eps = S754_finite false m e.
Proof. vm_compute. eauto. Qed.

Lemma z_not_nan m value : is_nan value = false -> finite_moments m -> is_nan (z m value eps) = false.
Proof.
  intros Hv [Hm Hs]. unfold z. cbv zeta. destruct eps_finite as (em & ee & ->).
  pose proof (SFsub_not_nan f64_prec f64_emax value (fm_mean m) Hv Hm) as Hn. fold (fsub value (fm_mean m)) in Hn.
  generalize dependent (fsub value (fm_mean m)). intros d Hn.
  destruct (fm_std m) as [s| | |s sm se]; [|discriminate Hs..|].
  - apply SFdiv_not_nan, Hn.
  - destruct (flt _ _); apply SFdiv_not_nan, Hn.
Qed.

Lemma flight_risk_range f b z_clip : z_clip <> S754_infinity false -> (ef_request_count f < 2 ^ 64)%N ->
  (forall b', b = Some b' -> finite_moments (bl_job_search_count b') /\ finite_moments (bl_job_search_ratio b')) ->
  in_range f0 f1 (flight_risk_v0 f b z_clip).
Proof.
  intros Hc%f64_max_one_pos Hr Hb. unfold flight_risk_v0. cbv zeta. change (f64_of_N 1) with f1 in Hc.
  set (clip := f64_max z_clip f1) in *. clearbody clip.
  assert (f_nonneg (f_clamp f0 f1 (fdiv (f64_of_N (ef_job_search_count f)) (f64_of_N 10))) = true) as Ha.
  { apply f_clamp_nonneg; [done|]. apply f_nonneg_not_nan, fdiv_pos; [apply f64_of_N_nonneg|done]. }
  apply f_clamp_nonneg_range; [|done..]. destruct b as [b|]; [|done]. destruct (Hb b eq_refl) as [H1 H2].
  apply fadd_nonneg; (apply fmul_const_nonneg; [by vm_compute|]); [done|]. apply fdiv_pos; [|done].
  apply f_clamp_nonneg; [by apply f_plus_nonneg, f_pos_plus|].
  assert (is_nan (z (bl_job_search_count b) (f64_of_N (ef_job_search_count f)) eps) = false) as Hz1.
  { apply z_not_nan; [apply f_nonneg_not_nan, f64_of_N_nonneg|done]. }
  assert (is_nan (z (bl_job_search_ratio b) (ratio (ef_job_search_count f) (ef_request_count f)) eps) = false) as Hz2.
  { apply z_not_nan; [by apply f_nonneg_not_nan, ratio_nonneg|done]. }
  unfold f64_max. rewrite Hz1, Hz2. by destruct (flt _ _).
Qed.

Lemma lexical_range lx path_hits request_count : in_range f0 f1 (lexical_heuristic lx path_hits request_count).
Proof.
  unfold lexical_heuristic. apply f_clamp_nonneg_range; [|done..]. unfold lexical_adds. cbn [foldl fst snd].
  auto 20 with score.
Qed.

Lemma in_range_nonneg lo hi x : f_nonneg lo = true -> in_range lo hi x -> in_range f0 hi x.
Proof. intros Hl [H1 H2]. split; [|done]. by destruct lo as [|[]| |[]], x as [|[]| |[]]. Qed.

Lemma lexical_nonneg lx path_hits request_count : f_nonneg (lexical_heuristic lx path_hits request_count) = true.
Proof.
  unfold lexical_heuristic. apply f_clamp_nonneg; [done|]. apply f_nonneg_not_nan. unfold lexical_adds.
  cbn [foldl fst snd]. auto 20 with score.
Qed.

Lemma flt_zero_pos x : f_pos x = true -> flt f0 x = true.
Proof. by destruct x as [|[]| |[]]. Qed.

Lemma weak_sum_u64 f : (weak_sum f < 2 ^ 64)%N.
Proof. by apply N.mod_lt. Qed.

(** A domain that a feed labels never scores as though it had no label. *)
Lemma phishing_bands (f : DomainPhishingFeatures) (lx : LexicalSignals) :
  let x := phishing_lexical_v0 f lx in
  if (weak_sum f =? 0)%N
  then x = lexical_heuristic lx (pf_suspicious_path_hits f) (pf_request_count f) /\ in_range f0 f1 x
  else if (0 <? pf_weak_label_phishtank f)%N then in_range (dec 85 (-2)) f1 x
  else in_range (dec 75 (-2)) f1 x.
Proof.
  cbv zeta. unfold phishing_lexical_v0. cbv zeta.
  pose proof (lexical_nonneg lx (pf_suspicious_path_hits f) (pf_request_count f)) as Hlex.
  pose proof (lexical_range lx (pf_suspicious_path_hits f) (pf_request_count f)) as Hr.
  destruct (N.eqb_spec (weak_sum f) 0) as [->|Hw]; [done|].
  rewrite (flt_zero_pos (f64_of_N (weak_sum f))) by (apply f64_of_N_pos; pose proof (weak_sum_u64 f); lia).
  generalize dependent (lexical_heuristic lx (pf_suspicious_path_hits f) (pf_request_count f)). intros l Hl _.
  destruct (0 <? pf_weak_label_phishtank f)%N; (apply f_clamp_nonneg_range; [|by vm_compute..]); auto 12 with score.
Qed.

Lemma beacon_bands f c : (bp_request_count f < 2 ^ 64)%N ->
  if passes_beacon_periodic f c then in_range (dec 78 (-2)) f1 (cc_beacon_v0 f c)
  else in_range f0 (dec 72 (-2)) (cc_beacon_v0 f c).
Proof.
  intros Hr. unfold cc_beacon_v0, post_ratio. cbv zeta.
  assert (f_plus (fmul (f64_of_N (ml_beacon_min_hits c)) (f64_of_N 2)) = true) as H2.
  { apply SFmul_plus; [apply f64_of_N_plus|done]. }
  destruct (passes_beacon_periodic f c); (apply f_clamp_nonneg_range; [|by vm_compute..]); auto 20 with score.
Qed.

Context {LM : Libm}.


End ranges.

(** ** Scores of a row of NaN *)

Module Demo.

#[local] Instance no_json : SerdeJson := {| json_from_slice _ := None; json_to_vec _ := "json"%string; number_as_f64 := parse_f64 |}.
#[local] Instance no_numbers : JsonNumbers := {| number_as_u64 := parse_u64; json_of_f64 _ := JNull |}.
#[local] Instance no_log : Libm := fun x => x.
#[local] Instance unit_clock : Chrono := {|
  utc := unit; utc_format _ := "t"%string; utc_rfc3339 _ := "t"%string; utc_serde _ := "t"%string;
  parse_rfc3339 _ := Some tt; parse_naive _ _ := Ok tt; utc_add_secs _ _ := Some tt;
|}.

Definition config : MlConfig := Eval vm_compute in
  match MlConfig_from_env (fun _ => None) as r return match r with Ok _ => MlConfig | Err _ => unit end with
  | Ok c => c
  | Err _ => tt
  end.

(** Floats that are no numbers, and more denied requests than requests. *)
Definition odd_entity : EntityFeatures :=
  {| ef_window_start := (tt : @utc unit_clock); ef_window_secs := 300; ef_entity_type := "client_ip"; ef_entity_id := "10.0.0.1";
     ef_request_count := 2; ef_unique_domains := 3; ef_unique_urls := 3; ef_deny_count := 9; ef_threat_hit_count := 0;
     ef_job_search_count := 7; ef_avg_response_size := S754_nan; ef_avg_duration_ms := S754_infinity true;
     ef_gap_cv := S754_nan; ef_max_domain_len := 12; ef_extracted_at := (tt : @utc unit_clock) |}.

Definition odd_domain : DomainPhishingFeatures :=
  {| pf_window_start := (tt : @utc unit_clock); pf_window_secs := 300; pf_domain := "login.paypal-secure.test"; pf_request_count := 0;
     pf_unique_urls := 0; pf_weak_label_phishing := 0; pf_weak_label_phishtank := 4; pf_weak_label_ut1 := 0;
     pf_deny_count := 0; pf_suspicious_path_hits := 4; pf_avg_path_extra_len := S754_nan;
     pf_extracted_at := (tt : @utc unit_clock) |}.

Definition odd_pair : BeaconPairFeatures :=
  {| bp_window_start := (tt : @utc unit_clock); bp_window_secs := 3600; bp_client_ip := "10.0.0.9"; bp_domain := "c2.example";
     bp_request_count := 0; bp_gap_count := 12; bp_avg_gap_secs := S754_nan; bp_gap_cv := S754_infinity true;
     bp_stddev_gap_secs := f0; bp_post_count := 10; bp_avg_response_size := S754_nan; bp_off_hours_count := 6;
     bp_threat_hit_count := 0; bp_unique_urls := 1; bp_extracted_at := (tt : @utc unit_clock) |}.

(** Flight risk without a baseline. *)
Definition flight : ScoreContext :=
  {| sx_model := MODEL_FLIGHT_RISK; sx_min_requests := 10; sx_threshold := dec 8 (-1); sx_z_clip := f64_of_N 4;
     sx_baselines := None |}.


End Demo.
