(* ===== verification/MlWorker.v ===== *)
(** * The machine-learning worker (src/ml-worker/src)

    The cycles of the worker as programs over commands: queries and inserts of ClickHouse,
    posts of the webhook, the clock, random ids, the baseline file, the snapshot served to
    the proxy and the counters.  A cycle ends with [None] where it panics.

    The theorems say what a cycle publishes, when it panics, and, with ThreatScore, what
    the proxy makes of it. *)

From Stdlib Require Import Ascii String NArith ZArith Lia.
From Stdlib Require Import Floats.SpecFloat.
From stdpp Require Import base option gmap strings pretty numbers list.
From S2P Require Import Prelude Float64 Utf8 Acl SemanticCache ClickHouse ThreatScore Effects AlertWorker MlScoring.

Local Open Scope rust_scope.

(** ** Write-back (writeback.rs) *)

Record ThreatScoreEntry := {
  tse_entity_type : string;
  tse_entity_id : string;
  tse_score : f64;
  tse_severity : string;
  tse_model : string;
  tse_scored_at : string;
  tse_expires_at : string;
}.

Record ThreatScoreSnapshot := {
  tss_generated_at : string;
  tss_scores : list ThreatScoreEntry;
}.

Definition new_snapshot_store : ThreatScoreSnapshot := {| tss_generated_at := EmptyString; tss_scores := [] |}.

(** [n as i64]. *)
Definition as_i64 (n : N) : Z := if (n <? 2 ^ 63)%N then Z.of_N n else (Z.of_N n - 2 ^ 64)%Z.

Section writeback.
Context {CH : Chrono} {SJ : SerdeJson} {JN : JsonNumbers}.

(** None where the date of expiry overflows, which panics. *)
Definition to_cache_entry (s : ScoreResult) (ttl_secs : N) (min_score : f64) : option (option ThreatScoreEntry) :=
  if flt (sr_score s) min_score then Some None
  else
    expires ← utc_add_secs (sr_scored_at s) (as_i64 ttl_secs);
    Some (Some {| tse_entity_type := sr_entity_type s; tse_entity_id := sr_entity_id s; tse_score := sr_score s;
                  tse_severity := sr_severity s; tse_model := sr_model s;
                  tse_scored_at := utc_format (sr_scored_at s); tse_expires_at := utc_format expires |}).

Fixpoint entries_from_scores (scores : list ScoreResult) (c : MlConfig) : option (list ThreatScoreEntry) :=
  match scores with
  | [] => Some []
  | s :: scores =>
      e ← to_cache_entry s (as_secs (ml_writeback_ttl c)) (ml_writeback_min_score c);
      es ← entries_from_scores scores c;
      Some (option_list e ++ es)
  end.

Definition entry_json (e : ThreatScoreEntry) : json :=
  json_object
    [("entity_type", JString (tse_entity_type e)); ("entity_id", JString (tse_entity_id e));
     ("score", json_of_f64 (tse_score e)); ("severity", JString (tse_severity e)); ("model", JString (tse_model e));
     ("scored_at", JString (tse_scored_at e)); ("expires_at", JString (tse_expires_at e))]%string.

(** [serde_json::to_string] of the snapshot, in the order of the fields. *)
Definition snapshot_json (s : ThreatScoreSnapshot) : string :=
  json_to_vec (JObject
    [("generated_at", JString (tss_generated_at s));
     ("scores", JArray ((fun e => JObject
        [("entity_type", JString (tse_entity_type e)); ("entity_id", JString (tse_entity_id e));
         ("score", json_of_f64 (tse_score e)); ("severity", JString (tse_severity e)); ("model", JString (tse_model e));
         ("scored_at", JString (tse_scored_at e)); ("expires_at", JString (tse_expires_at e))]) <$> tss_scores s))]%string).

End writeback.

(** ** Commands *)

Inductive MlMetric :=
| Cycles
| FeaturesWritten (n : N)
| ScoresWritten (n : N)
| WebhooksSent
| Errors
| LastCycleFeatures (n : N).

Section worker.
Context {CH : Chrono} {SJ : SerdeJson} {JN : JsonNumbers} {DT : DisplayText} {LM : Libm} {BJ : BaselineJson}.

Inductive MlCmd : Type -> Type :=
| MQuery (r : ChRequest) : MlCmd ChReply
| MInsert (r : ChRequest) : MlCmd ChReply
| MPost (url : string) (body : json) : MlCmd (result (N * string) string)
| MUtc : MlCmd utc
| MUuid : MlCmd string
| MReadFile (path : string) : MlCmd (result string string)
| MSnapshot (s : ThreatScoreSnapshot) : MlCmd unit
| MMetric (m : MlMetric) : MlCmd unit.

Context (c : MlConfig).

Definition ch_client : ChClient := ChClient_new (ml_clickhouse_url c) (ml_clickhouse_user c) (ml_clickhouse_password c).

Definition query (sql : string) : prog MlCmd (result (list json) string) :=
  reply ← call (MQuery (query_request ch_client sql));
  mret (query_rows reply).

Definition insert_rows (table : string) (rows : list json) : prog MlCmd (result unit string) :=
  match insert_request ch_client table rows with
  | None => mret (Ok tt)
  | Some r => reply ← call (MInsert r); mret (insert_outcome reply)
  end.

Definition metric (m : MlMetric) : prog MlCmd unit := call (MMetric m).

Definition rows_len {A} (l : list A) : N := N.of_nat (length l).

(** ** The webhook (webhook.rs) *)

Definition score_body (alert_id : string) (s : ScoreResult) : json :=
  json_object
    [("alert_id", JString alert_id); ("rule", JString "ml_anomaly"); ("model", JString (sr_model s));
     ("severity", JString (sr_severity s)); ("score", json_of_f64 (sr_score s));
     ("entity_type", JString (sr_entity_type s)); ("entity_id", JString (sr_entity_id s));
     ("window_start", JString (utc_rfc3339 (sr_window_start s))); ("scored_at", JString (utc_rfc3339 (sr_scored_at s)));
     ("source", JString (ml_source c)); ("features", default (JObject []) (json_from_slice (sr_features_json s)))]%string.

Definition post_score (url : string) (s : ScoreResult) : prog MlCmd (result unit string) :=
  alert_id ← call MUuid;
  reply ← call (MPost url (score_body alert_id s));
  mret (webhook_outcome reply).

(** ** Write-back *)

(** The length published, an error, or a panic before anything is published. *)
Definition publish_writeback (scores : list ScoreResult) : prog MlCmd (option (result N string)) :=
  if negb (ml_writeback_enabled c) then mret (Some (Ok 0%N))
  else
    match entries_from_scores scores c with
    | None => mret None
    | Some entries =>
        now ← call MUtc;
        _ ← call (MSnapshot {| tss_generated_at := utc_format now; tss_scores := entries |});
        r ← insert_rows (fq_score_cache c) (entry_json <$> entries);
        mret (Some (match r with Ok _ => Ok (rows_len entries) | Err e => Err e end))
    end.

(** ** Cycles (main.rs) *)

(** The posts of the scores that reach the threshold. *)
Fixpoint post_scores (scored : list ScoreResult) : prog MlCmd unit :=
  match scored with
  | [] => mret tt
  | s :: scored =>
      _ ← match ml_webhook_url c with
          | Some url =>
              if fle (ml_score_threshold c) (sr_score s) then
                r ← post_score url s;
                match r with Ok _ => metric WebhooksSent | Err _ => metric Errors end
              else mret tt
          | None => mret tt
          end;
      post_scores scored
  end.

Definition persist_scores (scored : list ScoreResult) : prog MlCmd (option (result unit string)) :=
  _ ← post_scores scored;
  r ← insert_rows (fq_scores c) (score_insert_json <$> scored);
  match r with
  | Err e => mret (Some (Err e))
  | Ok _ =>
      _ ← metric (ScoresWritten (rows_len scored));
      w ← publish_writeback scored;
      match w with
      | None => mret None
      | Some w =>
          _ ← match w with Ok _ => mret tt | Err _ => metric Errors end;
          _ ← metric Cycles;
          mret (Some (Ok tt))
      end
  end.

(** The rows that can be read; each of the others is an error. *)
Fixpoint read_rows {A} (from_row : json -> prog MlCmd (result A string)) (rows : list json) : prog MlCmd (list A) :=
  match rows with
  | [] => mret []
  | row :: rows =>
      r ← from_row row;
      match r with
      | Ok f => fs ← read_rows from_row rows; mret (f :: fs)
      | Err _ => _ ← metric Errors; read_rows from_row rows
      end
  end.

(** [parse_ch_datetime(..).unwrap_or_else(|_| Utc::now())]. *)
Definition extracted_at (row : json) : prog MlCmd utc :=
  match parse_ch_datetime (json_get "extracted_at" row) with Ok t => mret t | Err _ => call MUtc end.

Definition entity_from_row (row : json) : prog MlCmd (result EntityFeatures string) :=
  match parse_ch_datetime (json_get "window_start" row) with
  | Err e => mret (Err e)
  | Ok window_start => t ← extracted_at row; mret (entity_of_row row window_start t)
  end.

Definition phishing_from_row (row : json) : prog MlCmd (result DomainPhishingFeatures string) :=
  match phishing_of_row row with
  | Err e => mret (Err e)
  | Ok mk => t ← extracted_at row; mret (Ok (mk t))
  end.

Definition beacon_from_row (row : json) : prog MlCmd (result BeaconPairFeatures string) :=
  match beacon_of_row row with
  | Err e => mret (Err e)
  | Ok mk => t ← extracted_at row; mret (Ok (mk t))
  end.

(** The clock is read for each score. *)
Fixpoint score_all {A} (score : utc -> A -> ScoreResult) (fs : list A) : prog MlCmd (list ScoreResult) :=
  match fs with
  | [] => mret []
  | f :: fs => now ← call MUtc; ss ← score_all score fs; mret (score now f :: ss)
  end.

(** The features are written, then scored, then the scores are persisted. *)
Definition store_features (table : string) (rows : list json) : prog MlCmd (result unit string) :=
  r ← insert_rows table rows;
  match r with
  | Err e => mret (Err e)
  | Ok _ =>
      _ ← metric (FeaturesWritten (rows_len rows));
      _ ← metric (LastCycleFeatures (rows_len rows));
      mret (Ok tt)
  end.

Definition cycle_beacon : prog MlCmd (option (result unit string)) :=
  q ← query (beacon_extract_sql c);
  match q with
  | Err e => mret (Some (Err e))
  | Ok rows =>
      pairs ← read_rows beacon_from_row rows;
      r ← store_features (fq_beacon_features c) (beacon_insert_json <$> pairs);
      match r with
      | Err e => mret (Some (Err e))
      | Ok _ => scored ← score_all (fun now f => score_beacon_pair now f c) pairs; persist_scores scored
      end
  end.

Definition cycle_phishing : prog MlCmd (option (result unit string)) :=
  q ← query (phishing_extract_sql c);
  match q with
  | Err e => mret (Some (Err e))
  | Ok rows =>
      domains ← read_rows phishing_from_row rows;
      r ← store_features (fq_phishing_features c)
            ((fun f => phishing_insert_json f (lexical_signals (pf_domain f))) <$> domains);
      match r with
      | Err e => mret (Some (Err e))
      | Ok _ => scored ← score_all (fun now f => score_domain now f (ml_score_threshold c)) domains; persist_scores scored
      end
  end.

Definition load_baselines : prog MlCmd (result BaselineSet string) :=
  match ml_baseline_path c with
  | Some path =>
      raw ← call (MReadFile path);
      mret (match raw with Err e => Err e | Ok text => baseline_set_of_json text end)
  | None =>
      if negb (String.eqb (ml_model c) MODEL_UEBA) then mret (Ok BaselineSet_default)
      else
        q ← query (baseline_sql c);
        mret (match q with Err e => Err e | Ok rows => baselines_from_rows rows "clickhouse_live" end)
  end.

(** The features of the entity types one after the other. *)
Fixpoint extract_all (types : list string) : prog MlCmd (option (result (list EntityFeatures) string)) :=
  match types with
  | [] => mret (Some (Ok []))
  | t :: types =>
      match extract_sql c t with
      | None => mret None
      | Some sql =>
          q ← query sql;
          match q with
          | Err e => mret (Some (Err e))
          | Ok rows =>
              fs ← read_rows entity_from_row rows;
              rest ← extract_all types;
              mret (match rest with Some (Ok fs') => Some (Ok (fs ++ fs')) | _ => rest end)
          end
      end
  end.

Definition score_context (baselines : BaselineSet) : ScoreContext :=
  {| sx_model := ml_model c; sx_min_requests := ml_min_requests c; sx_threshold := ml_score_threshold c;
     sx_z_clip := ml_z_clip c; sx_baselines := if bs_is_empty baselines then None else Some baselines |}.

Definition cycle_ueba : prog MlCmd (option (result unit string)) :=
  all ← extract_all (ml_entity_types c);
  match all with
  | None => mret None
  | Some (Err e) => mret (Some (Err e))
  | Some (Ok features) =>
      r ← store_features (fq_features c) (entity_insert_json <$> features);
      match r with
      | Err e => mret (Some (Err e))
      | Ok _ =>
          b ← load_baselines;
          match b with
          | Err e => mret (Some (Err e))
          | Ok baselines =>
              scored ← score_all (fun now f => score_features now f (score_context baselines)) features;
              persist_scores scored
          end
      end
  end.

Definition cycle_once : prog MlCmd (option (result unit string)) :=
  if is_phishing_model c then cycle_phishing
  else if is_beacon_model c then cycle_beacon
  else cycle_ueba.

(** A turn of the loop of [main]: false when the process dies. *)
Definition cycle_turn : prog MlCmd bool :=
  r ← cycle_once;
  match r with
  | None => mret false
  | Some (Err _) => _ ← metric Errors; mret true
  | Some (Ok _) => mret true
  end.

End worker.

(** ** The admin port (main.rs) *)

(** [metrics]: their encoding, when it succeeds; the buffer is 1024 bytes of which the
    request is the start and the rest zeros. *)
Definition ml_handle_admin {SJ : SerdeJson} {JN : JsonNumbers} (metrics : option string) (snapshot : ThreatScoreSnapshot)
    (buf : string) : string :=
  let req := from_utf8_lossy buf in
  let quote := String "034" EmptyString in
  let field k v := quote +:+ k +:+ quote +:+ ":" +:+ quote +:+ v +:+ quote in
  let '(status, body, ctype) :=
    if starts_with req "GET /health" then
      ("200 OK", "{" +:+ field "status" "ok" +:+ "," +:+ field "service" "ml-worker" +:+ "}", "application/json")%string
    else if starts_with req "GET /metrics" then
      match metrics with
      | Some b => ("200 OK"%string, b, "text/plain; version=0.0.4"%string)
      | None => ("500 Internal Server Error"%string, EmptyString, "text/plain"%string)
      end
    else if starts_with req "GET /api/threat-scores" then ("200 OK"%string, snapshot_json snapshot, "application/json"%string)
    else ("404 Not Found", "not found", "text/plain")%string in
  let crlf := String "013" nl in
  "HTTP/1.1 " +:+ status +:+ crlf +:+ "Content-Type: " +:+ ctype +:+ crlf +:+ "Content-Length: "
  +:+ pretty (str_len body) +:+ crlf +:+ "Connection: close" +:+ crlf +:+ crlf +:+ body.

(** ** What a cycle publishes *)

Section publishes.
Context {CH : Chrono} {SJ : SerdeJson} {JN : JsonNumbers} {DT : DisplayText} {LM : Libm} {BJ : BaselineJson}.

(** The snapshots published and the bodies posted so far. *)
Record Published := {
  pb_snapshots : list ThreatScoreSnapshot;
  pb_posts : list json;
}.

Definition publish_step (X : Type) (m : MlCmd X) (x : X) (p : Published) : Published :=
  match m with
  | MSnapshot s => {| pb_snapshots := pb_snapshots p ++ [s]; pb_posts := pb_posts p |}
  | MPost _ body => {| pb_snapshots := pb_snapshots p; pb_posts := pb_posts p ++ [body] |}
  | _ => p
  end.

Definition nothing_published : Published := {| pb_snapshots := []; pb_posts := [] |}.

(** What a run published. *)
Definition published (tr : list (event MlCmd)) : Published := after publish_step tr nothing_published.

Abbreviation pwp p Q := (wp (fun _ _ _ => True) publish_step p Q).

Context (c : MlConfig).

Lemma pwp_insert_rows table rows p (Q : result unit string -> Published -> Prop) :
  (forall r, Q r p) -> pwp (insert_rows c table rows) Q p.
Proof. intros HQ. unfold insert_rows. destruct (insert_request _ _ _); cbn; [split; [done|]; intros x|]; apply HQ. Qed.

(** The scores that are posted. *)
Definition alerting (scored : list ScoreResult) : list ScoreResult :=
  match ml_webhook_url c with
  | Some _ => List.filter (fun s => fle (ml_score_threshold c) (sr_score s)) scored
  | None => []
  end.

(** The bodies are those of the scores, each with some id. *)
Definition bodies (ss : list ScoreResult) (posts : list json) : Prop :=
  Forall2 (fun s body => exists id, body = score_body c id s) ss posts.

Lemma pwp_post_scores scored p :
  pwp (post_scores c scored)
    (fun _ p' => pb_snapshots p' = pb_snapshots p /\
                 exists posts, pb_posts p' = pb_posts p ++ posts /\ bodies (alerting scored) posts) p.
Proof.
  revert p. induction scored as [|s scored IH]; intros p.
  { split; [done|]. exists []. split; [by rewrite app_nil_r|]. unfold alerting. destruct (ml_webhook_url c); constructor. }
  cbn [post_scores]. apply wp_seq. unfold alerting, bodies in *. destruct (ml_webhook_url c) as [url|]; [|apply IH].
  cbn [List.filter]. destruct (fle (ml_score_threshold c) (sr_score s)); [|apply IH].
  unfold post_score. cbn [wp prog_bind mbind prog_mbind call mret prog_mret]. split; [done|]. intros id. split; [done|].
  intros reply.
  assert (forall m, pwp (metric m)
    (fun _ s' => pwp (post_scores c scored) (fun _ p' => pb_snapshots p' = pb_snapshots p /\
      exists posts, pb_posts p' = pb_posts p ++ posts /\
        Forall2 (fun s body => exists id, body = score_body c id s)
          (s :: List.filter (fun s => fle (ml_score_threshold c) (sr_score s)) scored) posts) s')
    {| pb_snapshots := pb_snapshots p; pb_posts := pb_posts p ++ [score_body c id s] |}) as Hm.
  { intros m. cbn [wp metric call]. split; [done|]. intros []. eapply wp_mono; [|exact (IH _)]. intros _ p' [Hs (posts & Hp & Hb)]. split; [done|].
    exists (score_body c id s :: posts). cbn [publish_step pb_posts] in Hp. split; [by rewrite Hp, <- (assoc_L (++))|]. constructor; [by exists id|done]. }
  destruct (webhook_outcome reply); apply Hm.
Qed.

(** The outcome of the persistence of scores against what it published. *)
Definition persisted (scored : list ScoreResult) (res : option (result unit string)) (p : Published) : Prop :=
  bodies (alerting scored) (pb_posts p) /\
  match res with
  | Some (Ok _) =>
      if ml_writeback_enabled c
      then exists entries t, entries_from_scores scored c = Some entries /\
             pb_snapshots p = [{| tss_generated_at := t; tss_scores := entries |}]
      else pb_snapshots p = []
  | Some (Err _) => pb_snapshots p = []
  | None => ml_writeback_enabled c = true /\ entries_from_scores scored c = None /\ pb_snapshots p = []
  end.

Lemma pwp_persist_scores scored : pwp (persist_scores c scored) (persisted scored) nothing_published.
Proof.
  unfold persist_scores. eapply wp_seq_mono; [apply pwp_post_scores|]. intros _ p [Hs (posts & Hp & Hb)]. cbn in Hs, Hp.
  apply wp_seq, pwp_insert_rows. intros [[]|e]; [|cbn [wp mret prog_mret]; split; [by rewrite Hp|by rewrite Hs]].
  cbn [wp prog_bind mbind prog_mbind call mret prog_mret metric]. split; [done|]. intros [].
  apply wp_bind. unfold publish_writeback. destruct (ml_writeback_enabled c) eqn:Ew; cbn [negb].
  2: { cbn. split; [done|]. intros []. split; [by rewrite Hp|]. by rewrite Ew. }
  destruct (entries_from_scores scored c) as [entries|] eqn:Ee; [|cbn; split; [by rewrite Hp|by rewrite Hs]].
  cbn [wp prog_bind mbind prog_mbind call mret prog_mret]. split; [done|]. intros now. split; [done|]. intros [].
  apply wp_bind, pwp_insert_rows. intros r. cbn [wp mret prog_mret].
  assert (persisted scored (Some (Ok tt))
    {| pb_snapshots := pb_snapshots p ++ [{| tss_generated_at := utc_format now; tss_scores := entries |}];
       pb_posts := pb_posts p |}) as Hd.
  { split; [by rewrite Hp|]. rewrite Ew. exists entries, (utc_format now). by rewrite Hs. }
  destruct r as [[]|e]; cbn; split; try done; intros []; try done.
Qed.

(** *** Stages that publish nothing *)

Definition quiet (X : Type) (m : MlCmd X) : Prop := match m with MSnapshot _ | MPost _ _ => False | _ => True end.

Lemma pwp_quiet {A} (R : A -> Prop) (p : prog MlCmd A) st : only quiet R p -> pwp p (fun a st' => R a /\ st' = st) st.
Proof.
  induction p as [a|X m k IH]; cbn [only wp]; [done|]. intros [Hm Hk]. split; [done|]. intros x.
  replace (publish_step X m x st) with st by (by destruct m). by apply IH.
Qed.

Lemma quiet_query sql : only quiet (fun _ => True) (query c sql).
Proof. by split. Qed.

Lemma quiet_insert_rows table rows : only quiet (fun _ => True) (insert_rows c table rows).
Proof. unfold insert_rows. by destruct (insert_request _ _ _). Qed.

Lemma quiet_store_features table rows : only quiet (fun _ => True) (store_features c table rows).
Proof. apply only_bind; [apply quiet_insert_rows|]. by intros [[]|]. Qed.

Lemma quiet_read_rows {A} (P : A -> Prop) from_row rows :
  (forall row, only quiet (fun r => forall f, r = Ok f -> P f) (from_row row)) ->
  only quiet (Forall P) (read_rows from_row rows).
Proof.
  intros Hrow. induction rows as [|row rows IH]; cbn [read_rows]; [by apply only_ret|].
  eapply only_bind_mono; [apply Hrow|]. intros [f|e] Hf.
  - eapply only_bind_mono; [exact IH|]. intros fs Hfs. apply only_ret. constructor; [by apply Hf|done].
  - apply only_bind; [by split|done].
Qed.

Lemma quiet_score_all {A} (P : A -> Prop) (S : ScoreResult -> Prop) score fs :
  Forall P fs -> (forall now f, P f -> S (score now f)) -> only quiet (Forall S) (score_all score fs).
Proof.
  intros Hfs HS. induction Hfs as [|f fs Hf Hfs IH]; cbn [score_all]; [by apply only_ret|].
  apply only_bind; [by split|]. intros now. eapply only_bind_mono; [exact IH|]. intros ss Hss. apply only_ret.
  constructor; auto.
Qed.

Lemma quiet_extracted_at row : only quiet (fun _ => True) (extracted_at row).
Proof. unfold extracted_at. by destruct (parse_ch_datetime _). Qed.

(** *** The counts of a row are 64-bit *)

(** [Number::as_u64]. *)
Context (as_u64_bound : forall t n, number_as_u64 t = Some n -> (n < 2 ^ 64)%N).

Lemma row_u64_bound v n : row_u64 v = Ok n -> (n < 2 ^ 64)%N.
Proof using as_u64_bound.
  unfold row_u64. destruct v as [[| |t|s| |]|]; try done.
  - destruct (number_as_u64 t) eqn:E; [intros [= <-]; eauto|]. destruct (number_as_f64 t) as [x|]; [|done].
    intros [= <-]. unfold f64_as_u64. change u64_max with (2 ^ 64 - 1)%N. destruct x as [| [] | | []]; lia.
  - destruct (parse_u64 s) as [k|] eqn:E; [|done]. intros [= <-]. apply parse_uint_le in E. unfold u64_max in E. lia.
Qed.

Ltac inv_row H :=
  repeat (apply res_bind_Ok in H as (? & ? & H)).

Lemma quiet_entity_row row :
  only quiet (fun r => forall f, r = Ok f -> (ef_request_count f < 2 ^ 64)%N) (entity_from_row row).
Proof using as_u64_bound.
  unfold entity_from_row. destruct (parse_ch_datetime _); [|by apply only_ret].
  apply only_bind; [apply quiet_extracted_at|]. intros t. apply only_ret. intros f Hf. unfold entity_of_row in Hf.
  inv_row Hf. apply Ok_inj in Hf. subst f. cbn. eauto using row_u64_bound.
Qed.

Lemma quiet_phishing_row row : only quiet (fun r => forall f, r = Ok f -> True) (phishing_from_row row).
Proof.
  unfold phishing_from_row. destruct (phishing_of_row row); [|by apply only_ret].
  apply only_bind; [apply quiet_extracted_at|]. by intros t.
Qed.

Lemma quiet_beacon_row row :
  only quiet (fun r => forall f, r = Ok f -> (bp_request_count f < 2 ^ 64)%N) (beacon_from_row row).
Proof using as_u64_bound.
  unfold beacon_from_row. destruct (beacon_of_row row) as [mk|] eqn:E; [|by apply only_ret].
  apply only_bind; [apply quiet_extracted_at|]. intros t. apply only_ret. intros f [= <-]. unfold beacon_of_row in E.
  inv_row E. apply Ok_inj in E. subst mk. cbn. eauto using row_u64_bound.
Qed.

(** *** Whole cycles *)

Definition in_unit (s : ScoreResult) : Prop := in_range f0 f1 (sr_score s).

(** An entry the proxy may get. *)
Definition publishable (e : ThreatScoreEntry) : Prop :=
  in_range f0 f1 (tse_score e) /\ flt (tse_score e) (ml_writeback_min_score c) = false.

(** What any cycle has published when it ends. *)
Definition sound_publication (res : option (result unit string)) (p : Published) : Prop :=
  length (pb_snapshots p) <= 1 /\ (forall e, res = Some (Err e) -> pb_snapshots p = []) /\
  Forall (fun s => Forall publishable (tss_scores s)) (pb_snapshots p).

Lemma entries_publishable scored entries :
  Forall in_unit scored -> entries_from_scores scored c = Some entries -> Forall publishable entries.
Proof.
  intros Hs. revert entries. induction Hs as [|s scored Hs _ IH]; intros entries; cbn [entries_from_scores].
  { intros [= <-]. constructor. }
  unfold to_cache_entry. destruct (flt (sr_score s) (ml_writeback_min_score c)) eqn:Ef; cbn [mbind option_bind].
  - destruct (entries_from_scores scored c) as [es|]; cbn; [|done]. intros [= <-]. by apply IH.
  - destruct (utc_add_secs _ _) as [t|]; cbn; [|done]. destruct (entries_from_scores scored c) as [es|]; cbn; [|done].
    intros [= <-]. constructor; [done|]. by apply IH.
Qed.

Lemma persisted_sound scored res p : Forall in_unit scored -> persisted scored res p -> sound_publication res p.
Proof.
  intros Hs [_ Hp]. unfold sound_publication. destruct res as [[[]|e]|].
  - destruct (ml_writeback_enabled c); [|rewrite Hp; split_and!; [cbn; lia|done|constructor]].
    destruct Hp as (entries & t & He & ->). split_and!; [done|done|]. constructor; [|constructor].
    by apply (entries_publishable scored).
  - rewrite Hp. split_and!; [cbn; lia|done|constructor].
  - destruct Hp as (_ & _ & ->). split_and!; [cbn; lia|done|constructor].
Qed.

Lemma silent_sound res : sound_publication res nothing_published.
Proof. split_and!; [cbn; lia|done|constructor]. Qed.

(** Quiet stages, the scores, their persistence. *)
Lemma pwp_score_persist {A} (P : A -> Prop) score fs :
  Forall P fs -> (forall now f, P f -> in_unit (score now f)) ->
  pwp (scored ← score_all score fs; persist_scores c scored) sound_publication nothing_published.
Proof.
  intros Hfs HS. eapply wp_seq_mono; [by apply pwp_quiet, (quiet_score_all P in_unit)|].
  intros scored st [Hs ->]. eapply wp_mono; [|apply pwp_persist_scores]. intros res p. by apply persisted_sound.
Qed.

Lemma pwp_cycle_beacon : pwp (cycle_beacon c) sound_publication nothing_published.
Proof using as_u64_bound.
  unfold cycle_beacon. eapply wp_seq_mono; [apply pwp_quiet, quiet_query|].
  intros [rows|e] st [_ ->]; [|apply silent_sound].
  eapply wp_seq_mono; [apply pwp_quiet, quiet_read_rows, quiet_beacon_row|]. intros pairs st [Hp ->].
  eapply wp_seq_mono; [apply pwp_quiet, quiet_store_features|]. intros [[]|e] st [_ ->]; [|apply silent_sound].
  eapply pwp_score_persist; [exact Hp|]. intros now f Hf. unfold in_unit, score_beacon_pair. cbn [sr_score].
  pose proof (beacon_bands f c Hf) as Hb. destruct (passes_beacon_periodic f c).
  - by apply (in_range_nonneg (dec 78 (-2))); [vm_compute|].
  - destruct Hb as [H1 H2]. split; [done|]. by apply (fle_trans _ (dec 72 (-2))); [|vm_compute].
Qed.

Lemma pwp_cycle_phishing : pwp (cycle_phishing c) sound_publication nothing_published.
Proof.
  unfold cycle_phishing. eapply wp_seq_mono; [apply pwp_quiet, quiet_query|].
  intros [rows|e] st [_ ->]; [|apply silent_sound].
  eapply wp_seq_mono; [apply pwp_quiet, quiet_read_rows, quiet_phishing_row|]. intros domains st [Hp ->].
  eapply wp_seq_mono; [apply pwp_quiet, quiet_store_features|]. intros [[]|e] st [_ ->]; [|apply silent_sound].
  eapply pwp_score_persist; [exact Hp|]. intros now f _. unfold in_unit, score_domain. cbv zeta. cbn [sr_score].
  pose proof (phishing_bands f (lexical_signals (pf_domain f))) as Hb. cbv zeta in Hb.
  destruct (weak_sum f =? 0)%N; [apply Hb|]. destruct (0 <? pf_weak_label_phishtank f)%N.
  - by apply (in_range_nonneg (dec 85 (-2))); [vm_compute|].
  - by apply (in_range_nonneg (dec 75 (-2))); [vm_compute|].
Qed.

Lemma quiet_extract_all types :
  only quiet (fun r => forall fs, r = Some (Ok fs) -> Forall (fun f => (ef_request_count f < 2 ^ 64)%N) fs) (extract_all c types).
Proof using as_u64_bound.
  induction types as [|t types IH]; cbn [extract_all]; [apply only_ret; by intros fs [= <-]|].
  destruct (extract_sql c t) as [sql|]; [|by apply only_ret].
  apply only_bind; [apply quiet_query|]. intros [rows|e]; [|by apply only_ret].
  eapply only_bind_mono; [apply quiet_read_rows, quiet_entity_row|]. intros fs Hfs.
  eapply only_bind_mono; [exact IH|]. intros rest Hr. apply only_ret. intros fs'.
  destruct rest as [[fs2|]|]; try done. intros [= <-]. apply Forall_app. split; [done|by apply Hr].
Qed.

(** Flight risk reads no baseline of ClickHouse. *)
Lemma quiet_load_baselines :
  only quiet (fun b => ml_model c = MODEL_FLIGHT_RISK -> ml_baseline_path c = None -> b = Ok BaselineSet_default)
    (load_baselines c).
Proof.
  unfold load_baselines. destruct (ml_baseline_path c) as [path|]; [by split; [|intros x]|].
  destruct (String.eqb_spec (ml_model c) MODEL_UEBA) as [->|]; cbn [negb]; [|by apply only_ret].
  apply only_bind; [apply quiet_query|]. intros q. by apply only_ret.
Qed.

Context (finite_clip : ml_z_clip c <> S754_infinity false).
Context (flight_no_file : ml_model c = MODEL_FLIGHT_RISK -> ml_baseline_path c = None).

Lemma pwp_cycle_ueba : pwp (cycle_ueba c) sound_publication nothing_published.
Proof using as_u64_bound finite_clip flight_no_file.
  unfold cycle_ueba. eapply wp_seq_mono; [apply pwp_quiet, quiet_extract_all|].
  intros [[features|e]|] st [Hf ->]; [|apply silent_sound..]. specialize (Hf features eq_refl).
  eapply wp_seq_mono; [apply pwp_quiet, quiet_store_features|]. intros [[]|e] st [_ ->]; [|apply silent_sound].
  eapply wp_seq_mono; [apply pwp_quiet, quiet_load_baselines|]. intros [b|e] st [Hb ->]; [|apply silent_sound].
  eapply pwp_score_persist; [exact Hf|]. intros now f Hr. unfold in_unit, score_features, model_score.
  cbn [score_context sx_model sx_min_requests sx_z_clip].
  destruct (String.eqb_spec (ml_model c) MODEL_UEBA).
  { destruct (baseline_for _ f); [by apply baseline_score_range|by apply anomaly_stub_range]. }
  destruct (String.eqb_spec (ml_model c) MODEL_FLIGHT_RISK) as [E|]; [|by apply anomaly_stub_range].
  apply flight_risk_range; [done|done|]. specialize (Hb E (flight_no_file E)). apply Ok_inj in Hb. subst b.
  unfold baseline_for, score_context, bs_is_empty, BaselineSet_default. cbn. done.
Qed.

Lemma pwp_cycle_once : pwp (cycle_once c) sound_publication nothing_published.
Proof using as_u64_bound finite_clip flight_no_file.
  unfold cycle_once. destruct (is_phishing_model c); [apply pwp_cycle_phishing|].
  destruct (is_beacon_model c); [apply pwp_cycle_beacon|apply pwp_cycle_ueba].
Qed.

End publishes.

(** ** What the proxy makes of it *)

(** A row of the proxy's poll ([PollScoreRow]): the fields it keeps. *)
Definition hit_of_entry (e : ThreatScoreEntry) : ThreatScoreHit :=
  {| th_score := tse_score e; th_severity := tse_severity e; th_model := tse_model e; th_entity_type := tse_entity_type e;
     th_entity_id := tse_entity_id e |}.

(** The proxy's reading of a snapshot: a score that is no finite number is written as
    [null], which the proxy cannot read as a number. *)
Definition poll_answer (err : string) (s : ThreatScoreSnapshot) : result (list ThreatScoreHit) string :=
  if forallb (fun e => f_finite (tse_score e)) (tss_scores s) then Ok (hit_of_entry <$> tss_scores s) else Err err.

Definition hit_key (h : ThreatScoreHit) : string := threat_key (th_entity_type h) (th_entity_id h).

Section polled.
Context (t0 : N).

Abbreviation put := (fun (m : gmap string ThreatEntry) row => <[threat_key (th_entity_type row) (th_entity_id row) :=
  {| te_hit := row; te_cached_at := t0 |}]> m).

Lemma replace_keeps rows m k : k ∉ hit_key <$> rows -> foldl put m rows !! k = m !! k.
Proof.
  revert m. induction rows as [|r rows IH]; intros m Hk; [done|]. rewrite fmap_cons, not_elem_of_cons in Hk.
  destruct Hk as [Hr Hk]. cbn. rewrite IH by done. by rewrite lookup_insert_ne.
Qed.

Lemma replace_has rows m h : NoDup (hit_key <$> rows) -> h ∈ rows ->
  foldl put m rows !! hit_key h = Some {| te_hit := h; te_cached_at := t0 |}.
Proof.
  revert m. induction rows as [|r rows IH]; intros m Hn Hh; [by apply not_elem_of_nil in Hh|].
  rewrite fmap_cons, NoDup_cons in Hn. destruct Hn as [Hr Hn]. apply elem_of_cons in Hh as [->|Hh]; cbn; [|by apply IH].
  rewrite replace_keeps by done. apply lookup_insert_eq.
Qed.

Lemma replace_from rows m k te : foldl put m rows !! k = Some te -> m !! k = Some te \/ te_hit te ∈ rows.
Proof.
  revert m. induction rows as [|r rows IH]; intros m; cbn; [by left|]. intros [H|H]%IH; [|right; by right].
  apply lookup_insert_Some in H as [[_ <-]|[_ H]]; [right; by left|by left].
Qed.

End polled.

Lemma in_unit_finite x : in_range f0 f1 x -> f_finite x = true.
Proof. intros [H1 H2]. by destruct x as [|[]| |[]]. Qed.

Lemma in_unit_not_nan x : in_range f0 f1 x -> is_nan x = false.
Proof. intros [H1 H2]. by destruct x. Qed.

Section enforced.
Context {CH : Chrono} {SJ : SerdeJson} {JN : JsonNumbers} {DT : DisplayText} {LM : Libm} {BJ : BaselineJson} {ST : ScoreText}.
Context (as_u64_bound : forall t n, number_as_u64 t = Some n -> (n < 2 ^ 64)%N).

(** What a cycle publishes.  Whatever ClickHouse, the webhook and the clock answer,
    every run of the persistence of scores posts to the webhook exactly the scores that
    reach the alert threshold, in order.  When it succeeds and write-back is on, it
    publishes one snapshot, of exactly the scores not below the minimum; when the insert
    of the scores fails, it publishes none, so the snapshot the proxy polls stays the one
    of an earlier cycle. *)
Theorem persist_scores_exact (c : MlConfig) (scored : list ScoreResult) (tr : list (event MlCmd))
    (res : option (result unit string)) :
  runs (persist_scores c scored) tr res -> persisted c scored res (published tr).
Proof.
  intros Hr. by destruct (wp_runs _ _ _ _ _ _ _ (pwp_persist_scores c scored) Hr).
Qed.

(** Whatever ClickHouse returns, a cycle of any model publishes at most one snapshot,
    none when it fails, and every score of it is a number from 0 to 1 that is not below
    the minimum: rows with NaN, infinities, negative or absurd counts cannot change
    that.  The clip must not be infinite, and flight risk must not read a baseline file. *)
Theorem cycle_publication_sound (c : MlConfig) (tr : list (event MlCmd)) (res : option (result unit string)) :
  ml_z_clip c <> S754_infinity false -> (ml_model c = MODEL_FLIGHT_RISK -> ml_baseline_path c = None) ->
  runs (cycle_once c) tr res -> sound_publication c res (published tr).
Proof using as_u64_bound.
  intros Hc Hf Hr. by destruct (wp_runs _ _ _ _ _ _ _ (pwp_cycle_once c as_u64_bound Hc Hf) Hr).
Qed.

(** A fresh score at or above the block threshold denies the request. *)
Lemma fresh_score_blocks (now : N) domain ip sources cache h :
  ts_enabled (tc_config cache) = true -> block_enabled (tc_config cache) = true ->
  (forall k h', threat_fresh now cache k h' -> is_nan (th_score h') = false) ->
  hit_key h ∈ threat_candidates domain ip -> threat_fresh now cache (hit_key h) h ->
  fge (th_score h) (ts_block_threshold (tc_config cache)) = true ->
  is_Some (apply_to_policy now domain ip sources None cache).2.
Proof.
  intros He Hb Hn Hk Hf Hs. unfold apply_to_policy, threat_lookup. rewrite He. cbn [negb].
  pose proof (threat_fold_spec now cache (threat_candidates domain ip) None) as Hfold.
  destruct (foldl _ _ _) as [best|]; [|by destruct (proj2 Hfold _ _ Hk Hf)].
  destruct Hfold as ([?|(k & Hin & Hbest)] & _ & Hmax); [done|].
  assert (fge (th_score best) (ts_block_threshold (tc_config cache)) = true) as Hge.
  { unfold fge in *. apply (fle_trans _ (th_score h)); [done|].
    apply flt_false_fle; [by eapply Hn|by eapply Hn|]. by apply (Hmax (hit_key h)). }
  rewrite Hb, Hge. cbn. by eexists.
Qed.


End enforced.

(** ** No cycle ends the process *)

Lemma from_env_entity_types env c : MlConfig_from_env env = Ok c ->
  Forall (fun t => supported_entity t = true) (ml_entity_types c).
Proof.
  unfold MlConfig_from_env. set (types := parse_list _). destruct types as [|t0 types0] eqn:Et; [done|].
  destruct (List.find _ _) eqn:Ef; [done|]. intros H. repeat (apply res_bind_Ok in H as (? & ? & H)).
  apply Ok_inj in H. subst c. cbn [ml_entity_types]. apply Forall_forall. intros t Ht%list_elem_of_In.
  pose proof (find_none _ _ Ef t Ht) as Hn. by apply negb_false_iff in Hn.
Qed.

Lemma extract_sql_supported c t : supported_entity t = true -> is_Some (extract_sql c t).
Proof.
  unfold supported_entity, extract_sql, entity_expr. intros H%bool_decide_eq_true_1. rewrite !elem_of_cons in H.
  destruct H as [-> | [-> | [-> | H]]]; [by eexists..|]. by apply not_elem_of_nil in H.
Qed.

Section survives.
Context {CH : Chrono} {SJ : SerdeJson} {JN : JsonNumbers} {DT : DisplayText} {LM : Libm} {BJ : BaselineJson}.
Context (c : MlConfig).

Abbreviation ends R p := (only (fun X (_ : MlCmd X) => True) R p).

Lemma ends_any {A} (p : prog MlCmd A) : ends (fun _ => True) p.
Proof. induction p as [|X m k IH]; cbn; [done|]. split; [done|apply IH]. Qed.

Lemma ends_seq {A B} (R : B -> Prop) (p : prog MlCmd A) (f : A -> prog MlCmd B) :
  (forall a, ends R (f a)) -> ends R (p ≫= f).
Proof. apply only_bind, ends_any. Qed.

Definition survives (r : option (result unit string)) : Prop := r <> None.

Context (dates : forall t, is_Some (utc_add_secs t (as_i64 (as_secs (ml_writeback_ttl c))))).

Lemma entries_some scored : is_Some (entries_from_scores scored c).
Proof using dates.
  induction scored as [|s scored [es IH]]; cbn [entries_from_scores]; [by eexists|].
  unfold to_cache_entry. destruct (flt _ _); cbn; [rewrite IH; by eexists|].
  destruct (dates (sr_scored_at s)) as [t ->]. cbn. rewrite IH. by eexists.
Qed.

Lemma ends_publish scored : ends (fun r => r <> None) (publish_writeback c scored).
Proof using dates.
  unfold publish_writeback. destruct (negb _); [done|]. destruct (entries_some scored) as [es ->].
  do 3 (apply ends_seq; intros ?). done.
Qed.

Lemma ends_persist scored : ends survives (persist_scores c scored).
Proof using dates.
  do 2 (apply ends_seq; intros ?). case_match; [|done]. apply ends_seq. intros _.
  eapply only_bind_mono; [apply ends_publish|]. intros [w|] Hw; [|done]. by do 2 (apply ends_seq; intros _).
Qed.

Lemma ends_extract types : Forall (fun t => supported_entity t = true) types ->
  ends (fun r => r <> None) (extract_all c types).
Proof.
  induction 1 as [|t types Ht _ IH]; cbn [extract_all]; [done|].
  destruct (extract_sql_supported c t Ht) as [sql ->]. apply ends_seq. intros [rows|e]; [|done].
  apply ends_seq. intros fs. eapply only_bind_mono; [exact IH|]. intros rest Hr. apply only_ret.
  by destruct rest as [[]|].
Qed.

Lemma ends_cycle : Forall (fun t => supported_entity t = true) (ml_entity_types c) -> ends survives (cycle_once c).
Proof using dates.
  intros Ht. unfold cycle_once. destruct (is_phishing_model c); [|destruct (is_beacon_model c)].
  - apply ends_seq. intros [|]; [|done]. do 2 (apply ends_seq; intros ?). case_match; [|done].
    apply ends_seq. apply ends_persist.
  - apply ends_seq. intros [|]; [|done]. do 2 (apply ends_seq; intros ?). case_match; [|done].
    apply ends_seq. apply ends_persist.
  - eapply only_bind_mono; [by apply ends_extract|]. intros [[fs|e]|] Hne; [|done..].
    do 1 (apply ends_seq; intros ?). case_match; [|done]. apply ends_seq. intros ?. case_match; [|done].
    apply ends_seq. apply ends_persist.
Qed.

End survives.

Lemma only_result {Cmd : Type -> Type} (P : forall X, Cmd X -> Prop) {A} (R : A -> Prop) (p : prog Cmd A) tr a :
  only P R p -> runs p tr a -> R a.
Proof. intros Hp Hr. induction Hr; cbn in Hp; [done|]. by apply IHHr, Hp. Qed.

(** The loop of the worker does not die: with settings that [from_env] accepted and a
    write-back TTL whose dates exist, no answer of ClickHouse, the webhook, the file
    system or the clock makes a cycle panic; it ends with success or an error that the
    loop counts. *)
Theorem cycle_survives {CH : Chrono} {SJ : SerdeJson} {JN : JsonNumbers} {DT : DisplayText} {LM : Libm}
    {BJ : BaselineJson} (env : Env) (c : MlConfig) (tr : list (event MlCmd)) (res : option (result unit string)) :
  MlConfig_from_env env = Ok c ->
  (forall t, is_Some (utc_add_secs t (as_i64 (as_secs (ml_writeback_ttl c))))) ->
  runs (cycle_once c) tr res -> exists r, res = Some r.
Proof.
  intros Hc Hd Hr. pose proof (only_result _ _ _ _ _ (ends_cycle c Hd (from_env_entity_types env c Hc)) Hr) as Hs.
  destruct res as [r|]; [by exists r|]. by destruct Hs.
Qed.

(** ** A run *)

Module Demo.

Definition beacon_row : json :=
  JObject [("avg_gap_secs", JNumber "60"); ("avg_response_size", JNumber "128"); ("client_ip", JString "10.0.0.9");
           ("domain", JString "c2.example"); ("gap_count", JNumber "12"); ("gap_cv", JNumber "0.05");
           ("off_hours_count", JNumber "6"); ("post_count", JNumber "10"); ("request_count", JNumber "13");
           ("threat_hit_count", JNumber "0"); ("unique_urls", JNumber "1"); ("window_secs", JNumber "3600");
           ("window_start", JString "start")]%string.

#[local] Instance row_json : SerdeJson := {|
  json_from_slice s := if String.eqb s "row" then Some beacon_row else None;
  json_to_vec _ := "json"%string;
  number_as_f64 := parse_f64;
|}.
#[local] Instance plain_numbers : JsonNumbers := {| number_as_u64 := parse_u64; json_of_f64 _ := JNull |}.
#[local] Instance plain_text : DisplayText := {| json_parse_error s := s; status_display n := pretty n |}.
#[local] Instance no_log : Libm := fun x => x.
#[local] Instance no_baseline : BaselineJson := fun _ => Err "none"%string.
#[local] Instance score_two : ScoreText := fun _ => "score"%string.
#[local] Instance count_clock : Chrono := {|
  utc := N; utc_format t := pretty t; utc_rfc3339 t := pretty t; utc_serde t := pretty t;
  parse_rfc3339 _ := Some 7%N; parse_naive _ _ := Err "none"%string; utc_add_secs t s := Some (t + Z.to_N s)%N;
|}.

Lemma u64_bound t n : number_as_u64 t = Some n -> (n < 2 ^ 64)%N.
Proof. intros H%parse_uint_le. unfold u64_max in H. lia. Qed.

Definition env : Env := fun k => if String.eqb k "ML_MODEL" then Some "cc_beacon_v0"%string else None.

(** The settings of that environment. *)
Definition config : MlConfig := Eval vm_compute in
  match MlConfig_from_env env as r return match r with Ok _ => MlConfig | Err _ => unit end with
  | Ok c => c
  | Err _ => tt
  end.

(** ClickHouse answers every query with the row, and accepts every insert. *)
Definition answer (X : Type) (m : MlCmd X) (w : N) : option (N * X) :=
  match m with
  | MQuery _ => Some (w, Ok (200%N, "row"%string))
  | MInsert _ => Some (w, Ok (200%N, EmptyString))
  | MPost _ _ => Some (w, Ok (200%N, EmptyString))
  | MUtc => Some ((w + 1)%N, w)
  | MUuid => Some (w, "id"%string)
  | MReadFile _ => Some (w, Err "none"%string)
  | MSnapshot _ => Some (w, tt)
  | MMetric _ => Some (w, tt)
  end.

(** The trace of a program, and whether it ends with success. *)
Definition trace_of (p : prog MlCmd (option (result unit string))) : list (event MlCmd) :=
  match exec answer p 1%N with Some (_, tr, _) => tr | None => [] end.

Definition succeeds (p : prog MlCmd (option (result unit string))) : bool :=
  match exec answer p 1%N with Some (_, _, Some (Ok _)) => true | _ => false end.

Lemma succeeds_runs p : succeeds p = true -> runs p (trace_of p) (Some (Ok tt)).
Proof.
  unfold succeeds, trace_of. destruct (exec answer p 1%N) as [[[w tr] [[[]|]|]]|] eqn:E; try done. intros _.
  exact (exec_runs answer _ 1%N w tr _ E).
Qed.

Definition the_trace : list (event MlCmd) := trace_of (cycle_once config).

Lemma the_run_ok : runs (cycle_once config) the_trace (Some (Ok tt)).
Proof. apply succeeds_runs. vm_compute. reflexivity. Qed.

Definition the_snapshot : ThreatScoreSnapshot := default new_snapshot_store (head (pb_snapshots (published the_trace))).

(** The proxy blocks from 0.75 on. *)
Definition proxy : ThreatScoreCache :=
  ThreatScoreCache_new
    {| ts_enabled := true; ts_poll_url := "http://ml:8091/api/threat-scores"; ts_poll_interval := from_secs 60;
       ts_cache_ttl := from_secs 300; ts_warn_threshold := dec 5 (-1); ts_block_threshold := dec 75 (-2) |}.


(** The pair the row holds. *)
Definition the_pair : BeaconPairFeatures :=
  {| bp_window_start := (7%N : @utc count_clock); bp_window_secs := 3600; bp_client_ip := "10.0.0.9"; bp_domain := "c2.example";
     bp_request_count := 13; bp_gap_count := 12; bp_avg_gap_secs := f64_of_N 60; bp_gap_cv := dec 5 (-2);
     bp_stddev_gap_secs := f0; bp_post_count := 10; bp_avg_response_size := f64_of_N 128; bp_off_hours_count := 6;
     bp_threat_hit_count := 0; bp_unique_urls := 1; bp_extracted_at := (7%N : @utc count_clock) |}.

Definition the_score : ScoreResult := score_beacon_pair (1%N : @utc count_clock) the_pair config.

Lemma persist_scores_exact_witness :
  in_range (dec 78 (-2)) f1 (sr_score the_score) /\
  persisted config [the_score] (Some (Ok tt))
    (published (trace_of (persist_scores config [the_score]))).
Proof.
  split; [vm_compute; auto|]. apply persist_scores_exact, succeeds_runs. vm_compute. reflexivity.
Defined.

Lemma cycle_publication_sound_witness : sound_publication config (Some (Ok tt)) (published the_trace).
Proof.
  apply (cycle_publication_sound u64_bound config the_trace (Some (Ok tt)));
    [discriminate|discriminate|exact the_run_ok].
Defined.

Lemma cycle_survives_witness :
  MlConfig_from_env env = Ok config /\ exists r, (Some (Ok tt) : option (result unit string)) = Some r.
Proof.
  assert (MlConfig_from_env env = Ok config) as E by (vm_compute; reflexivity).
  split; [exact E|]. apply (cycle_survives env config the_trace (Some (Ok tt)) E); [|exact the_run_ok].
  intros t. eexists. reflexivity.
Defined.

End Demo.
