(* ===== verification/ProxyService.v ===== *)
(** * The request pipeline (src/proxy/src/proxy_service.rs, src/proxy/src/perf.rs)

    [handle_request] from the reverse-proxy gate to the stored response, as a
    program over commands ([Effects]).  Each command is one atomic use of a shared
    component (a cache, the limiter, the flights, the policy, ...), one read of the
    clock or of randomness, or one exchange with the outside (the origin, a peer,
    ICAP, Redis, ...); the component's own file says what it does.  A component
    that panics gives no answer, and the run ends there.

    Prometheus metrics and logging have no effect on answers and are left out.
    Tasks that are spawned and forgotten (digest, L2 and index updates, peer
    statistics) appear as commands where they are spawned. *)

From Stdlib Require Import Ascii String NArith ZArith Lia.
From stdpp Require Import base option gmap sets strings pretty numbers list.
From S2P Require Import Prelude Float64 CacheEntry L2Cache MissCoalesce Http RateLimit Inspection.
From S2P Require Import CacheDigest Peers Hierarchy Acl Categorization Policy Sessions Utf8.
From S2P Require Import SemanticCache Auth ReverseProxy Effects.

(** ** Performance switches (perf.rs) *)

Record PerfConfig := {
  fast_cache_hit : bool;
  worker_count : N;
  http_preserve_header_case : bool;
  kafka_sample_rate : N;
  metrics_sample_rate : N;
  streaming_miss_enabled : bool;
  miss_coalesce_enabled : bool;
}.

Definition env_truthy (value : string) : bool :=
  bool_decide (to_ascii_lowercase (trim value) ∈ ["1"; "true"; "yes"; "on"]%string).

Definition env_bool (env : Env) (key : string) (dflt : bool) : bool :=
  from_option env_truthy dflt (env key).

Definition PerfConfig_from_env (env : Env) : PerfConfig := {|
  fast_cache_hit := env_bool env "PERF_FAST_CACHE_HIT" false || env_bool env "BSM_PERF_MODE" false;
  worker_count :=
    match env "WORKER_COUNT" ≫= parse_usize with
    | Some n => if (0 <? n)%N then n else 1%N
    | None => 1%N
    end;
  http_preserve_header_case := env_bool env "HTTP_PRESERVE_HEADER_CASE" true;
  kafka_sample_rate := env_parse parse_u32 env "KAFKA_SAMPLE_RATE" 0%N;
  metrics_sample_rate := env_parse parse_u32 env "METRICS_SAMPLE_RATE" 0%N;
  streaming_miss_enabled := env_bool env "STREAMING_MISS_ENABLED" true;
  miss_coalesce_enabled := env_bool env "MISS_COALESCE_ENABLED" true;
|}.

(** ** Data *)

Record CacheEvent := {
  ev_url : string;
  ev_method : string;
  ev_status : N;
  ev_cache_key : string;
  ev_cache_status : string;
  ev_timestamp : N;
  ev_headers : gmap string string;
  ev_user_id : option string;
  ev_username : option string;
  ev_client_ip : string;
  ev_domain : string;
  ev_response_size : N;
  ev_request_duration_ms : N;
  ev_content_type : option string;
  ev_user_agent : option string;
  ev_categories : list string;
  ev_threat_sources : list string;
  ev_acl_action : option string;
  ev_acl_rule_id : option string;
  ev_acl_reason : option string;
  ev_session_id : string;
  ev_parent_event_id : option string;
  ev_redirect_url : option string;
  ev_dlp_violation : option string;
  ev_casb_alert : option string;
  ev_decision_source : option string;
  ev_bypass_reason : option string;
  ev_event_id : string;
}.

Inductive WasmHookDecision :=
| WasmAllow (set_headers : list (string * string))
| WasmDeny (reason : string).

Inductive IcapOutcome :=
| IcapAllow
| IcapHttpResponse (status : N) (headers : gmap string string) (body : string).

(** What the origin or a peer answers; the body arrives frame by frame. *)
Record UpstreamResponse := {
  us_status : N;
  us_headers : HeaderMap;
  us_body : Upstream;
}.

Section service.
Context `{!UriCrate, !UrlCrate, !UrlParser, !HeaderText, !HeaderCodec, !Base64, !Sha256, !Codec,
          !SerdeJson, !AhoCorasick}.
(** The iteration order of a [HashMap]. *)
Context (hm_iter : gmap string string -> list (string * string)).

(** A request to the origin or to a peer, with its whole body. *)
Record OutRequest := {
  or_method : string;
  or_uri : Uri;
  or_headers : HeaderMap;
  or_body : string;
}.

Inductive Cmd : Type -> Type :=
(** clock, randomness, disk *)
| CNow : Cmd N
| CRandom : Cmd N
| CEventId : Cmd string
| CSpillOk : Cmd bool
(** a panic: there is no answer *)
| CPanic : Cmd Empty_set
(** reverse proxy and authentication *)
| COidcCallback (req : Request) : Cmd HttpResponse
| CGetSession (session_id : string) : Cmd (option string)
| CCreateSession (username : string) : Cmd string
| CUnauthenticated : Cmd HttpResponse
| CProxyAuth (client_ip : string) (headers : HeaderMap) : Cmd ProxyAuthOutcome
(** admission *)
| CRateCheck (client_ip : string) (username api_key : option string) : Cmd (option RateLimitViolation)
| CWasm (method url client_ip : string) (username : option string) (headers : HeaderMap)
    : Cmd (result WasmHookDecision string)
| CPolicy (url domain : string) (username : option string) (groups : list string) (client_ip : string)
    : Cmd (option AclDecision * list string * list string)
| CDlpState : Cmd DlpState
| CIsLlmProvider (domain : string) : Cmd bool
(** events *)
| CBegin (client_ip : string) (username user_agent : option string) (url : string) : Cmd SessionCorrelation
| CNote (client_ip event_id : string) (status : N) (url : string) (location : option string) : Cmd unit
| CDispatch (e : CacheEvent) : Cmd unit
(** caches *)
| CL1Get (key : string) : Cmd (option CachedResponse)
| CL1Insert (key : string) (value : CachedResponse) : Cmd unit
| CL2Get (key : string) : Cmd (option CachedResponse)
| CL2Set (key : string) (value : CachedResponse) : Cmd unit
| CDigestInsert (key : string) : Cmd unit
| CEmbed (text : string) : Cmd (result (list f32) SemanticError)
| CFindSimilar (embedding : list f32) (threshold : f32) : Cmd (result (option string) SemanticError)
| CIndexInsert (embedding : list f32) (key : string) : Cmd (result unit SemanticError)
(** flights *)
| CFlightJoin (key : string) : Cmd CoalesceJoin
| CFlightWait (flight : nat) : Cmd (option CachedResponse)
| CFlightComplete (key : string) (res : option CachedResponse) : Cmd unit
(** outside *)
| CReqmod (method url : string) (headers : gmap string string) (body : string) : Cmd (result IcapOutcome string)
| CRespmod (method url : string) (req_headers : gmap string string) (status : N)
    (resp_headers : gmap string string) (body : string) : Cmd (result IcapOutcome string)
| CResolve (url : string) : Cmd HierarchyResult
| CPeerFetch (peer : cell) (req : OutRequest) : Cmd (result UpstreamResponse string)
| CPeerError (peer : cell) : Cmd unit
| CPeerHit (peer : cell) (bytes : N) : Cmd unit
| CUpstream (req : OutRequest) : Cmd (result UpstreamResponse string).

Abbreviation prog := (Effects.prog Cmd).

(** ** Configuration *)

Record IcapFlags := {
  ic_fail_open : bool;
  ic_reqmod : bool;
  ic_respmod : bool;
}.

(** The parts of [ProxyService] that do not change; which optional components
    there are. *)
Record ProxyService := {
  sv_perf : PerfConfig;
  sv_cache_config : CacheConfig;
  sv_semantic : SemanticCacheConfig;
  sv_rate_config : RateLimitConfig;
  sv_reverse_proxy : option ReverseProxyConfig;
  sv_auth_enabled : bool;
  sv_l2 : bool;
  sv_digest : bool;
  sv_hierarchy : bool;
  sv_icap : option IcapFlags;
  (** the hook's [fail_open] *)
  sv_wasm : option bool;
}.

(** ** Small operations *)

Definition extract_domain (url : string) : string :=
  match url_host url with Some (Some h) => h | _ => "unknown" end.

Definition request_header_str (req : Request) (name : string) : option string :=
  hm_get_str (rq_headers req) name.

Definition extract_user_info (req : Request) : option string :=
  auth_str ← hm_get_str (rq_headers req) "authorization";
  encoded ← strip_prefix "Basic " auth_str;
  decoded ← base64_decode encoded;
  credentials ← from_utf8 decoded;
  fst <$> split_once ":" credentials.

(** The text headers of a [HeaderMap] as a [HashMap]: a later value replaces an
    earlier one of the same name. *)
Definition headers_map (headers : HeaderMap) : gmap string string :=
  foldl (fun m '(k, v) => match hv_to_str v with Some s => <[k := s]> m | None => m end) ∅ headers.

Definition insert_header (m : gmap string string) (kv : string * string) : gmap string string :=
  match HeaderName_from_bytes kv.1, HeaderValue_from_str kv.2 with
  | Some name, Some val => <[name := val]> m
  | _, _ => m
  end.

Definition apply_response_headers (headers : gmap string string) (resp : gmap string string)
    : gmap string string := foldl insert_header resp (hm_iter headers).

(** [HeaderMap::insert]: the value replaces all values of the name. *)
Definition hm_insert (headers : HeaderMap) (kv : string * string) : HeaderMap :=
  match HeaderName_from_bytes kv.1, HeaderValue_from_str kv.2 with
  | Some name, Some val =>
      List.filter (fun '(k, _) => negb (String.eqb k name)) headers ++ [(name, val)]
  | _, _ => headers
  end.

Definition text_response (status : N) (body : string) : HttpResponse :=
  {| hr_status := status; hr_headers := {[ "content-type"%string := "text/plain; charset=utf-8"%string ]};
     hr_body := body |}.

Definition policy_response (decision : AclDecision) : HttpResponse :=
  match d_action decision with
  | Deny => text_response 403 ("403 Forbidden: " +:+ d_reason decision)
  | Redirect =>
      let target := default "about:blank"%string (non_empty (d_redirect_url decision)) in
      match HeaderValue_from_str target with
      | Some v => {| hr_status := 302; hr_headers := {[ "location"%string := v ]}; hr_body := EmptyString |}
      | None => response 200 EmptyString
      end
  | Allow => response 200 EmptyString
  end.

Definition rate_limit_response (violation : RateLimitViolation) : HttpResponse :=
  let limited body :=
    {| hr_status := 429; hr_body := body;
       hr_headers := {[ "content-type"%string := "text/plain; charset=utf-8"%string;
                        "retry-after"%string := "1"%string ]} |} in
  match violation with
  | RlIp | RlUser => limited "429 Too Many Requests: rate limit exceeded"%string
  | RlApiKey => limited "429 Too Many Requests: API key rate limit exceeded"%string
  | RlApiKeyMissing => text_response 401 "401 Unauthorized: API key required"
  end.

(** [rand::random::<u32>().is_multiple_of(n)], or all of them for 0. *)
Definition sampled (rate : N) : prog bool :=
  if (rate =? 0)%N then mret true else r ← call CRandom; mret (r mod rate =? 0)%N.

Definition record_detailed_metrics (sv : ProxyService) : prog bool := sampled (metrics_sample_rate (sv_perf sv)).
Definition should_emit_kafka_event (sv : ProxyService) : prog bool := sampled (kafka_sample_rate (sv_perf sv)).

Definition send_cache_event (sv : ProxyService) (e : CacheEvent) : prog unit :=
  emit ← should_emit_kafka_event sv;
  if emit : bool then call (CDispatch e) else mret tt.

(** ** The context of a request *)

Record ReqCtx := {
  cx_method : string;
  cx_url : string;
  cx_client_ip : string;
  cx_user_id : option string;
  cx_username : option string;
  cx_user_agent : option string;
  cx_categories : list string;
  cx_threat_sources : list string;
  cx_start : N;
  cx_detailed : bool;
}.

Definition elapsed_ms (cx : ReqCtx) (now : N) : N := ((now - cx_start cx) / 1000000)%N.

(** An event of the request; the fields most events leave empty are filled by the
    callers that set them. *)
Definition base_event (cx : ReqCtx) (now : N) (event_id key cache_status : string) (status size : N)
    (headers : gmap string string) (domain : string) (corr : SessionCorrelation)
    (redirect_url content_type : option string) (decision : option AclDecision) (source : string)
    : CacheEvent := {|
  ev_url := cx_url cx; ev_method := cx_method cx; ev_status := status; ev_cache_key := key;
  ev_cache_status := cache_status; ev_timestamp := as_secs now; ev_headers := headers;
  ev_user_id := cx_user_id cx; ev_username := cx_username cx; ev_client_ip := cx_client_ip cx;
  ev_domain := domain; ev_response_size := size; ev_request_duration_ms := elapsed_ms cx now;
  ev_content_type := content_type; ev_user_agent := cx_user_agent cx; ev_categories := cx_categories cx;
  ev_threat_sources := cx_threat_sources cx;
  ev_acl_action := (fun d => match d_action d with Allow => "allow" | Deny => "deny" | Redirect => "redirect" end)
                   <$> decision;
  ev_acl_rule_id := decision ≫= d_rule_id; ev_acl_reason := d_reason <$> decision;
  ev_session_id := co_session_id corr; ev_parent_event_id := co_parent_event_id corr;
  ev_redirect_url := redirect_url; ev_dlp_violation := None; ev_casb_alert := None;
  ev_decision_source := Some source; ev_bypass_reason := None; ev_event_id := event_id;
|}.

Definition header_ci (headers : list (string * string)) (name : string) : option string :=
  snd <$> List.find (fun '(k, _) => eq_ignore_ascii_case k name) headers.

(** The correlation of an event: its session and parent, and the redirect it leaves. *)
Definition correlate (cx : ReqCtx) (event_id : string) (status : N) (redirect_url : option string)
    : prog SessionCorrelation :=
  corr ← call (CBegin (cx_client_ip cx) (cx_username cx) (cx_user_agent cx) (cx_url cx));
  call (CNote (cx_client_ip cx) event_id status (cx_url cx) redirect_url);;
  mret corr.

Definition emit_cache_hit_event (sv : ProxyService) (cx : ReqCtx) (key cache_status : string)
    (cached : CachedResponse) : prog unit :=
  now ← call CNow;
  event_id ← call CEventId;
  let redirect_url := resolve_location (cx_url cx) <$> header_ci (cr_headers cached) "location" in
  corr ← correlate cx event_id (cr_status cached) redirect_url;
  send_cache_event sv
    (base_event cx now event_id key cache_status (cr_status cached) (cr_uncompressed_len cached) ∅
       (extract_domain (cx_url cx)) corr redirect_url (header_ci (cr_headers cached) "content-type") None
       (request_decision_source (cx_url cx))).

Definition emit_policy_event (sv : ProxyService) (cx : ReqCtx) (key : string) (decision : AclDecision)
    (domain source : string) : prog unit :=
  now ← call CNow;
  event_id ← call CEventId;
  let status := match d_action decision with Deny => 403%N | Redirect => 302%N | Allow => 200%N end in
  let redirect_url := resolve_location (cx_url cx) <$> d_redirect_url decision in
  corr ← correlate cx event_id status redirect_url;
  send_cache_event sv
    (base_event cx now event_id key "BLOCKED" status 0 ∅ domain corr redirect_url None (Some decision) source).

(** ** Serving from the caches *)

Definition serve_l1_hit (sv : ProxyService) (cx : ReqCtx) (key : string) (cached : CachedResponse)
    (label x_status : string) : prog HttpResponse :=
  (if cx_detailed cx then emit_cache_hit_event sv cx key label cached else mret tt);;
  mret (to_response_with_cache_status cached x_status).

Definition store_in_l1_and_l2 (sv : ProxyService) (key : string) (cached : CachedResponse) : prog unit :=
  call (CL1Insert key cached);;
  (if sv_digest sv then call (CDigestInsert key) else mret tt);;
  (if sv_l2 sv then call (CL2Set key cached) else mret tt).

Definition try_l2_cache_get (sv : ProxyService) (key : string) : prog (option CachedResponse) :=
  if sv_l2 sv then call (CL2Get key) else mret None.

(** An entry found in L2 is put in L1 and served. *)
Definition serve_l2_hit (sv : ProxyService) (cx : ReqCtx) (key : string) (cached : CachedResponse)
    : prog HttpResponse :=
  call (CL1Insert key cached);;
  (if cx_detailed cx then
     emit_cache_hit_event sv cx key (if cr_is_negative cached then "NEGATIVE_HIT" else "L2_HIT") cached
   else mret tt);;
  mret (to_response_with_cache_status cached (if cr_is_negative cached then "NEGATIVE-HIT" else "L2-HIT")).

(** The request repeated with the entry's validators and an empty body; [None] when
    a validator is not a header value. *)
Definition build_conditional_request (req : Request) (cached : CachedResponse) : option OutRequest :=
  let validator name (v : option string) :=
    match v with
    | None => Some []
    | Some s => (fun hv => [(name, hv)]) <$> HeaderValue_from_str s
    end in
  inm ← validator "if-none-match"%string (cr_etag cached);
  ims ← validator "if-modified-since"%string (cr_last_modified cached);
  Some {| or_method := rq_method req; or_uri := rq_uri req; or_headers := rq_headers req ++ inm ++ ims;
          or_body := EmptyString |}.

Definition with_user_agent (user_agent : option string) (cx : ReqCtx) : ReqCtx :=
  {| cx_method := cx_method cx; cx_url := cx_url cx; cx_client_ip := cx_client_ip cx;
     cx_user_id := cx_user_id cx; cx_username := cx_username cx; cx_user_agent := user_agent;
     cx_categories := cx_categories cx; cx_threat_sources := cx_threat_sources cx; cx_start := cx_start cx;
     cx_detailed := cx_detailed cx |}.

Definition try_revalidate_stale (sv : ProxyService) (cx : ReqCtx) (req : Request) (key : string)
    (cached : CachedResponse) : prog (option HttpResponse) :=
  if negb (honor_cache_control (sv_cache_config sv)) || negb (has_validators cached) then mret None
  else
    match build_conditional_request req cached with
    | None => mret None
    | Some cond_req =>
        reply ← call (CUpstream cond_req);
        let cx := with_user_agent (request_header_str req "user-agent") cx in
        match reply with
        | Err _ => mret None
        | Ok resp =>
            if (us_status resp =? 304)%N then
              let ttl := refresh_ttl_from_headers (hm_iter (headers_map (us_headers resp)))
                           (default_ttl (sv_cache_config sv)) in
              now ← call CNow;
              let refreshed := refreshed_after_not_modified now cached ttl in
              store_in_l1_and_l2 sv key refreshed;;
              r ← serve_l1_hit sv cx key refreshed "REVALIDATED" "REVALIDATED";
              mret (Some r)
            else mret None
        end
    end.

(** The request without its user and without policy results, as the early lookup
    sees it. *)
Definition anonymous_ctx (cx : ReqCtx) : ReqCtx :=
  {| cx_method := cx_method cx; cx_url := cx_url cx; cx_client_ip := cx_client_ip cx; cx_user_id := None;
     cx_username := None; cx_user_agent := cx_user_agent cx; cx_categories := []; cx_threat_sources := [];
     cx_start := cx_start cx; cx_detailed := cx_detailed cx |}.

Definition try_serve_cache_before_policy (sv : ProxyService) (cx : ReqCtx) (req : Request) (key : string)
    : prog (option HttpResponse) :=
  let cx := anonymous_ctx cx in
  found ← call (CL1Get key);
  early ←
    match found with
    | None => mret None
    | Some cached =>
        now ← call CNow;
        if can_serve_fresh now cached then
          r ← (if cr_is_negative cached then serve_l1_hit sv cx key cached "NEGATIVE_HIT" "NEGATIVE-HIT"
               else serve_l1_hit sv cx key cached "HIT" "HIT");
          mret (Some r)
        else try_revalidate_stale sv cx req key cached
    end;
  match early with
  | Some r => mret (Some r)
  | None =>
      l2 ← try_l2_cache_get sv key;
      match l2 with
      | Some cached => r ← serve_l2_hit sv cx key cached; mret (Some r)
      | None => mret None
      end
  end.

(** ** Admission *)

Definition check_rate_limit (sv : ProxyService) (client_ip : string) (username : option string)
    (headers : HeaderMap) : prog (option HttpResponse) :=
  violation ← call (CRateCheck client_ip username (extract_api_key headers (sv_rate_config sv)));
  mret (option_map rate_limit_response violation).

(** The headers the guest may have changed, or the answer that ends the request. *)
Definition run_wasm_hook (sv : ProxyService) (cx : ReqCtx) (headers : HeaderMap)
    : prog (result HeaderMap HttpResponse) :=
  match sv_wasm sv with
  | None => mret (Ok headers)
  | Some fail_open =>
      decision ← call (CWasm (cx_method cx) (cx_url cx) (cx_client_ip cx) (cx_username cx) headers);
      mret
        match decision with
        | Err e =>
            if fail_open then Ok headers
            else Err (text_response 502 ("502 Bad Gateway: wasm hook: " +:+ e))
        | Ok (WasmAllow set_headers) => Ok (foldl hm_insert headers set_headers)
        | Ok (WasmDeny reason) =>
            Err {| hr_status := 403; hr_body := "403 Forbidden: " +:+ reason;
                   hr_headers := {[ "content-type"%string := "text/plain; charset=utf-8"%string;
                                    "x-wasm-hook"%string := "deny"%string ]} |}
        end
  end.

(** ** Request bodies *)

Definition body_error_message (e : BodyItem) : string :=
  match e with
  | ItemFrame _ => EmptyString
  | ItemError msg => msg
  | ItemViolation v => "DLP Violation: " +:+ dv_category v +:+ " (" +:+ dv_detail v +:+ ")"
  end.

Definition dlp_event (cx : ReqCtx) (key : string) (now : N) (event_id domain err_msg : string)
    (headers : HeaderMap) (is_casb : bool) : CacheEvent := {|
  ev_url := cx_url cx; ev_method := cx_method cx; ev_status := 403; ev_cache_key := key;
  ev_cache_status := "BLOCKED"; ev_timestamp := as_secs now; ev_headers := headers_map headers;
  ev_user_id := cx_user_id cx; ev_username := cx_username cx; ev_client_ip := cx_client_ip cx;
  ev_domain := domain; ev_response_size := 30; ev_request_duration_ms := elapsed_ms cx now;
  ev_content_type := None; ev_user_agent := cx_user_agent cx; ev_categories := cx_categories cx;
  ev_threat_sources := cx_threat_sources cx; ev_acl_action := Some "deny"%string; ev_acl_rule_id := None;
  ev_acl_reason := Some err_msg; ev_session_id := EmptyString; ev_parent_event_id := None;
  ev_redirect_url := None; ev_dlp_violation := Some err_msg;
  ev_casb_alert := if is_casb then Some "GenAI Leak Prevented"%string else None;
  ev_decision_source := Some "mitm"%string; ev_bypass_reason := None; ev_event_id := event_id;
|}.

(** The whole body through the DLP stream, or the answer; [leader] is the permit
    that is completed when the body is refused. *)
Definition collect_body (sv : ProxyService) (cx : ReqCtx) (key domain : string) (req : Request) (leader : bool)
    : prog (result string HttpResponse) :=
  is_casb ← call (CIsLlmProvider domain);
  s ← call CDlpState;
  match dlp_collect s (rq_body req) EmptyString with
  | None => x ← call CPanic; match x : Empty_set with end
  | Some (Ok body) => mret (Ok body)
  | Some (Err e) =>
      let err_msg := body_error_message e in
      (if leader then call (CFlightComplete key None) else mret tt);;
      if str_contains err_msg "DLP Violation" then
        emit ← should_emit_kafka_event sv;
        (if emit : bool then
           now ← call CNow;
           event_id ← call CEventId;
           send_cache_event sv (dlp_event cx key now event_id domain err_msg (rq_headers req) is_casb)
         else mret tt);;
        mret (Err (response 403 "403 Forbidden: DLP Violation"))
      else mret (Err (response 400 "400 Bad Request"))
  end.

(** ** The LLM cache *)

(** The key, normalised body and body of an LLM request, or the answer from the cache. *)
Definition llm_lookup (sv : ProxyService) (cx : ReqCtx) (url_key domain : string) (req : Request)
    : prog (result (string * string * string) HttpResponse) :=
  collected ← collect_body sv cx url_key domain req false;
  match collected with
  | Err resp => mret (Err resp)
  | Ok body =>
      let normalized := normalize_llm_body body in
      let key := content_cache_key (cx_method cx) (cx_url cx) normalized in
      let hit k label x_status :=
        found ← call (CL1Get k);
        match found with
        | None => mret None
        | Some cached =>
            now ← call CNow;
            if can_serve_fresh now cached then
              r ← serve_l1_hit sv cx k cached label x_status; mret (Some r)
            else mret None
        end : prog (option HttpResponse) in
      exact ← hit key "LLM_HIT"%string "LLM-HIT"%string;
      match exact with
      | Some r => mret (Err r)
      | None =>
          near ←
            (if near_hit_enabled (sv_semantic sv) then
               emb ← call (CEmbed (extract_embed_text normalized));
               match emb with
               | Err _ => mret None
               | Ok emb =>
                   similar ← call (CFindSimilar emb (sm_similarity_threshold (sv_semantic sv)));
                   match similar with
                   | Ok (Some near_key) => hit near_key "SEMANTIC_HIT"%string "SEMANTIC-HIT"%string
                   | _ => mret None
                   end
               end
             else mret None);
          mret match near with Some r => Err r | None => Ok (key, normalized, body) end
      end
  end.

(** ** The caches of a plain request *)

Definition cache_lookup (sv : ProxyService) (cx : ReqCtx) (key : string) (req : Request)
    : prog (option HttpResponse) :=
  found ← call (CL1Get key);
  early ←
    match found with
    | None => mret None
    | Some cached =>
        now ← call CNow;
        if can_serve_fresh now cached then
          r ← serve_l1_hit sv cx key cached "HIT" "HIT"; mret (Some r)
        else try_revalidate_stale sv cx req key cached
    end;
  match early with
  | Some r => mret (Some r)
  | None =>
      l2 ← try_l2_cache_get sv key;
      match l2 with
      | Some cached => r ← serve_l2_hit sv cx key cached; mret (Some r)
      | None => mret None
      end
  end.

(** Joining the flight of the key: a follower may be answered; otherwise, whether
    this request leads. *)
Definition join_flight (sv : ProxyService) (cx : ReqCtx) (key : string) (llm : bool)
    : prog (result bool HttpResponse) :=
  if miss_coalesce_enabled (sv_perf sv) && bool_decide (cx_method cx ∈ CACHEABLE_METHODS) && negb llm then
    joined ← call (CFlightJoin key);
    match joined with
    | Leader _ => mret (Ok true)
    | Follower flight =>
        outcome ← call (CFlightWait flight);
        match outcome with
        | Some cached => r ← serve_l1_hit sv cx key cached "COALESCED" "COALESCED-HIT"; mret (Err r)
        | None =>
            found ← call (CL1Get key);
            match found with
            | None => mret (Ok false)
            | Some cached =>
                now ← call CNow;
                if can_serve_fresh now cached then
                  r ← serve_l1_hit sv cx key cached "HIT" "HIT"; mret (Err r)
                else mret (Ok false)
            end
        end
    end
  else mret (Ok false).

(** ** Completing a miss *)

Definition miss_status (decision : CacheStoreDecision) (stored llm : bool) : string :=
  if stored && sd_store decision then
    (if sd_is_negative decision then "NEGATIVE_MISS" else if llm then "LLM_MISS" else "MISS")
  else "BYPASS".

(** The store half of [complete_cache_miss]; [llm] is the normalised body of an LLM
    request. *)
Definition complete_store (sv : ProxyService) (key : string) (status : N) (headers : gmap string string)
    (body : string) (decision : CacheStoreDecision) (stored : bool) (llm : option string) : prog unit :=
  if stored && sd_store decision then
    now ← call CNow;
    io_ok ← call CSpillOk;
    let cached := from_upstream now io_ok status (hm_iter headers) body (sd_ttl decision)
      (compression (sv_cache_config sv)) (spill_threshold_bytes (sv_cache_config sv)) (sd_etag decision)
      (sd_last_modified decision) (sd_is_negative decision) (sd_must_revalidate decision) in
    store_in_l1_and_l2 sv key cached;;
    match llm with
    | Some norm =>
        emb ← call (CEmbed (extract_embed_text norm));
        match emb with
        | Ok emb => _ ← call (CIndexInsert emb key); mret tt
        | Err _ => mret tt
        end
    | None => mret tt
    end;;
    call (CFlightComplete key (Some cached))
  else call (CFlightComplete key None).

Definition complete_cache_miss (sv : ProxyService) (cx : ReqCtx) (key domain : string) (status : N)
    (headers : gmap string string) (body : string) (decision : CacheStoreDecision) (stored : bool)
    (peer : option cell) (llm : option string) : prog unit :=
  (match peer with
   | Some p => if sv_hierarchy sv then call (CPeerHit p (str_len body)) else mret tt
   | None => mret tt
   end);;
  complete_store sv key status headers body decision stored llm;;
  emit ← should_emit_kafka_event sv;
  if emit : bool then
    now ← call CNow;
    event_id ← call CEventId;
    let redirect_url := resolve_location (cx_url cx) <$> header_ci (hm_iter headers) "location" in
    corr ← correlate cx event_id status redirect_url;
    send_cache_event sv
      (base_event cx now event_id key (miss_status decision stored (present llm)) status (str_len body) headers
         domain corr redirect_url (header_ci (hm_iter headers) "content-type") None
         (request_decision_source (cx_url cx)))
  else mret tt.

(** ** ICAP *)

Definition icap_to_response (fail_open : bool) (outcome : result IcapOutcome string) : option HttpResponse :=
  match outcome with
  | Ok IcapAllow => None
  | Ok (IcapHttpResponse status headers body) =>
      Some {| hr_status := if (100 <=? status)%N && (status <=? 999)%N then status else 403%N;
              hr_headers := <["x-icap-action"%string := "adapted"%string]> (apply_response_headers headers ∅);
              hr_body := body |}
  | Err e =>
      if fail_open then None
      else Some {| hr_status := 502; hr_body := "502 Bad Gateway: icap: " +:+ e;
                   hr_headers := {[ "content-type"%string := "text/plain; charset=utf-8"%string;
                                    "x-icap-action"%string := "error"%string ]} |}
  end.

Definition run_icap_reqmod (sv : ProxyService) (cx : ReqCtx) (headers : gmap string string) (body : string)
    : prog (option HttpResponse) :=
  match sv_icap sv with
  | Some ic =>
      if ic_reqmod ic then
        outcome ← call (CReqmod (cx_method cx) (cx_url cx) headers body);
        mret (icap_to_response (ic_fail_open ic) outcome)
      else mret None
  | None => mret None
  end.

Definition run_icap_respmod (sv : ProxyService) (cx : ReqCtx) (req_headers : gmap string string) (status : N)
    (headers : gmap string string) (body : string) : prog (N * gmap string string * string) :=
  match sv_icap sv with
  | Some ic =>
      if ic_respmod ic then
        outcome ← call (CRespmod (cx_method cx) (cx_url cx) req_headers status headers body);
        mret
          match outcome with
          | Ok IcapAllow => (status, headers, body)
          | Ok (IcapHttpResponse st hdrs b) => (st, hdrs, b)
          | Err e =>
              if ic_fail_open ic then (status, headers, body)
              else (502%N, {[ "content-type"%string := "text/plain; charset=utf-8"%string ]},
                    "502 Bad Gateway: icap: " +:+ e)
          end
      else mret (status, headers, body)
  | None => mret (status, headers, body)
  end.

(** ** Fetching *)

Definition try_fetch_via_hierarchy (sv : ProxyService) (cx : ReqCtx) (req : OutRequest)
    : prog (option (cell * UpstreamResponse)) :=
  if bool_decide (cx_method cx ∈ CACHEABLE_METHODS) && sv_hierarchy sv then
    source ← call (CResolve (cx_url cx));
    match source with
    | SiblingHit peer | ParentHit peer =>
        reply ← call (CPeerFetch peer req);
        match reply with
        | Ok resp => mret (Some (peer, resp))
        | Err _ => call (CPeerError peer);; mret None
        end
    | LocalHit | OriginRequired => mret None
    end
  else mret None.

(** The peer's answer, or else the origin's. *)
Definition fetch (sv : ProxyService) (cx : ReqCtx) (llm : bool) (req : OutRequest)
    : prog (option cell * result UpstreamResponse string) :=
  via_peer ← (if llm then mret None else try_fetch_via_hierarchy sv cx req);
  match via_peer with
  | Some (peer, resp) => mret (Some peer, Ok resp)
  | None => reply ← call (CUpstream req); mret (None, reply)
  end.

(** What the client gets: a whole response, or one whose body is drained from the
    upstream by a task that calls [on_complete] at the end. *)
Inductive ServiceResponse :=
| Full (r : HttpResponse)
| Streamed (status : N) (headers : gmap string string) (body : Upstream) (attempt_cache : bool)
    (max_body : N) (on_complete : string -> bool -> prog unit).

(** [BodyExt::collect]: the data of the frames, or an error. *)
Fixpoint collect_upstream (u : Upstream) : result string unit :=
  match u with
  | UEnd => Ok EmptyString
  | UError => Err tt
  | UFrame f rest =>
      match collect_upstream rest with
      | Ok s => Ok (match f with FData chunk => chunk +:+ s | _ => s end)
      | Err e => Err e
      end
  end.

Definition attach_x_cache_status (label : string) (headers : gmap string string) : gmap string string :=
  set_header "x-cache-status" label headers.

(** The store decision for a body of a size. *)
Definition store_decision (sv : ProxyService) (cx : ReqCtx) (llm : bool) (status : N)
    (headers : gmap string string) (size : N) : CacheStoreDecision :=
  if llm then evaluate_llm_store status size (max_body_size (sv_cache_config sv)) (sm_ttl (sv_semantic sv))
  else evaluate_store (cx_method cx) status (hm_iter headers) size (sv_cache_config sv).

(** The streaming answer: the client is sent the frames as they arrive, and the
    completion stores what was buffered. *)
Definition stream_miss (sv : ProxyService) (cx : ReqCtx) (key domain : string) (llm : option string)
    (peer : option cell) (resp : UpstreamResponse) : prog ServiceResponse :=
  let status := us_status resp in
  let headers := headers_map (us_headers resp) in
  let precheck :=
    if present llm then evaluate_llm_store status 0 (max_body_size (sv_cache_config sv)) (sm_ttl (sv_semantic sv))
    else evaluate_store_precheck (cx_method cx) status (hm_iter headers) (sv_cache_config sv) in
  let x_cache :=
    if present llm && sd_store precheck then "LLM-MISS-STREAMING"%string
    else miss_x_cache_status_header true precheck in
  mret
    (Streamed status (attach_x_cache_status x_cache (apply_response_headers headers ∅)) (us_body resp)
       (sd_store precheck) (max_body_size (sv_cache_config sv))
       (fun body stored =>
          let final := if negb stored then bypass
                       else store_decision sv cx (present llm) status headers (str_len body) in
          complete_cache_miss sv cx key domain status headers body final (stored && sd_store final) peer llm)).

(** The buffered answer: the body is read, adapted, stored and sent. *)
Definition buffer_miss (sv : ProxyService) (cx : ReqCtx) (key domain : string) (llm : option string)
    (leader : bool) (req_headers : gmap string string) (peer : option cell) (resp : UpstreamResponse)
    : prog ServiceResponse :=
  match collect_upstream (us_body resp) with
  | Err _ =>
      (if leader then call (CFlightComplete key None) else mret tt);;
      mret (Full (response 502 "502 Bad Gateway"))
  | Ok body =>
      '(status, headers, body) ←
        run_icap_respmod sv cx req_headers (us_status resp) (headers_map (us_headers resp)) body;
      let decision := store_decision sv cx (present llm) status headers (str_len body) in
      complete_cache_miss sv cx key domain status headers body decision (sd_store decision) peer llm;;
      let label :=
        if present llm && sd_store decision then "LLM-MISS"%string
        else miss_x_cache_status_header false decision in
      mret (Full {| hr_status := status_or_ok status; hr_body := body;
                    hr_headers := attach_x_cache_status label (apply_response_headers headers ∅) |})
  end.

(** A miss with its body: ICAP, the fetch, the answer. *)
Definition fetch_and_answer (sv : ProxyService) (cx : ReqCtx) (key domain : string) (llm : option string)
    (leader : bool) (req : Request) (body : string) : prog ServiceResponse :=
  let req_headers := headers_map (rq_headers req) in
  adapted ← run_icap_reqmod sv cx req_headers body;
  match adapted with
  | Some r =>
      (if leader then call (CFlightComplete key None) else mret tt);;
      mret (Full r)
  | None =>
      let out := {| or_method := rq_method req; or_uri := rq_uri req; or_headers := rq_headers req;
                    or_body := body |} in
      '(peer, reply) ← fetch sv cx (present llm) out;
      match reply with
      | Ok resp =>
          if streaming_miss_enabled (sv_perf sv) then stream_miss sv cx key domain llm peer resp
          else buffer_miss sv cx key domain llm leader req_headers peer resp
      | Err _ =>
          (if leader then call (CFlightComplete key None) else mret tt);;
          mret (Full (response 502 "502 Bad Gateway"))
      end
  end.

(** A miss: the flight, the body (already read for an LLM request), the fetch. *)
Definition handle_miss (sv : ProxyService) (cx : ReqCtx) (key domain : string) (llm early_body : option string)
    (req : Request) : prog ServiceResponse :=
  joined ← join_flight sv cx key (present llm);
  match joined with
  | Err r => mret (Full r)
  | Ok leader =>
      collected ←
        match early_body with
        | Some body => mret (Ok body)
        | None => collect_body sv cx key domain req leader
        end;
      match collected with
      | Err r => mret (Full r)
      | Ok body => fetch_and_answer sv cx key domain llm leader req body
      end
  end.

(** ** The reverse proxy *)

Definition with_uri (uri : Uri) (req : Request) : Request :=
  {| rq_method := rq_method req; rq_uri := uri; rq_headers := rq_headers req; rq_body := rq_body req |}.

Definition with_headers (headers : HeaderMap) (req : Request) : Request :=
  {| rq_method := rq_method req; rq_uri := rq_uri req; rq_headers := headers; rq_body := rq_body req |}.

(** [unwrap] of a built response: the header must be valid. *)
Definition unwrap_response (r : option HttpResponse) : prog HttpResponse :=
  match r with
  | Some r => mret r
  | None => x ← call CPanic; match x : Empty_set with end
  end.

Definition challenge_response (challenge : N * string * string) : option HttpResponse :=
  let '(status, name, value) := challenge in
  v ← HeaderValue_from_str value;
  Some {| hr_status := status; hr_headers := {[ name := v ]}; hr_body := EmptyString |}.

(** The login of a request without session; [None] goes on to the provider. *)
Definition rp_authenticate (sv : ProxyService) (rp : ReverseProxyConfig) (client_ip : string) (req : Request)
    : prog (option HttpResponse) :=
  if sv_auth_enabled sv then
    outcome ← call (CProxyAuth client_ip (rq_headers req));
    match outcome with
    | Authenticated user =>
        let allowed :=
          match rp_admin_group rp with Some g => bool_decide (g ∈ ui_groups user) | None => true end in
        if allowed then
          session_id ← call (CCreateSession (ui_username user));
          r ← unwrap_response
                (redirect_response (default "/" (uri_path_and_query (rq_uri req)))
                   ("bsdm_session=" +:+ session_id +:+ "; Path=/; HttpOnly"));
          mret (Some r)
        else mret (Some (response 403 "403 Forbidden: User not in required AD group"))
    | Challenge h => r ← unwrap_response (challenge_response (create_auth_challenge_response h true)); mret (Some r)
    | Anonymous => mret None
    end
  else mret None.

(** The request as it goes to the application, and its user; or the answer. *)
Definition rp_gate (sv : ProxyService) (client_ip : string) (req : Request)
    : prog (result (Request * option string) HttpResponse) :=
  match sv_reverse_proxy sv with
  | None => mret (Ok (req, None))
  | Some rp =>
      if String.eqb (uri_path (rq_uri req)) "/-/callback" then
        r ← call (COidcCallback req); mret (Err r)
      else
        rp_username ←
          match extract_cookie "bsdm_session=" (rq_headers req) with
          | Some id => call (CGetSession id)
          | None => mret None
          end;
        match rp_username with
        | None =>
            answered ← rp_authenticate sv rp client_ip req;
            match answered with
            | Some r => mret (Err r)
            | None => r ← call CUnauthenticated; mret (Err r)
            end
        | Some user =>
            let new_uri := trim_end_matches "/" (rp_upstream_url rp) +:+
                           default EmptyString (uri_path_and_query (rq_uri req)) in
            let req := match uri_parse new_uri with Some u => with_uri u req | None => req end in
            mret (Ok (with_headers (hm_insert (rq_headers req) ("x-forwarded-user"%string, user)) req,
                      Some user))
        end
  end.

(** ** The handler *)

(** After admission: the caches, then the miss. *)
Definition handle_admitted (sv : ProxyService) (cx : ReqCtx) (url_key domain : string) (llm : bool)
    (req : Request) : prog ServiceResponse :=
  if llm then
    looked ← llm_lookup sv cx url_key domain req;
    match looked with
    | Err r => mret (Full r)
    | Ok (key, normalized, body) => handle_miss sv cx key domain (Some normalized) (Some body) req
    end
  else
    hit ← cache_lookup sv cx url_key req;
    match hit with
    | Some r => mret (Full r)
    | None => handle_miss sv cx url_key domain None None req
    end.

(** The hook and the policy, then the caches. *)
Definition handle_checked (sv : ProxyService) (cx : ReqCtx) (key : string) (llm : bool) (groups : list string)
    (req : Request) : prog ServiceResponse :=
  hook ← run_wasm_hook sv cx (rq_headers req);
  match hook with
  | Err r => mret (Full r)
  | Ok headers =>
      let req := with_headers headers req in
      let domain := extract_domain (cx_url cx) in
      '(decision, categories, threat_sources) ←
        call (CPolicy (cx_url cx) domain (cx_username cx) groups (cx_client_ip cx));
      let cx :=
        {| cx_method := cx_method cx; cx_url := cx_url cx; cx_client_ip := cx_client_ip cx;
           cx_user_id := cx_user_id cx; cx_username := cx_username cx; cx_user_agent := cx_user_agent cx;
           cx_categories := categories; cx_threat_sources := threat_sources; cx_start := cx_start cx;
           cx_detailed := cx_detailed cx |} in
      match decision with
      | Some d =>
          emit_policy_event sv cx key d domain (request_decision_source (cx_url cx));;
          mret (Full (policy_response d))
      | None => handle_admitted sv cx key domain llm req
      end
  end.

Definition handle_request (sv : ProxyService) (req : Request) (client_ip : string)
    (proxy_user : option UserInfo) : prog ServiceResponse :=
  gate ← rp_gate sv client_ip req;
  match gate with
  | Err r => mret (Full r)
  | Ok (req, rp_username) =>
      let user :=
        match rp_username with
        | Some u => Some (u, ["reverse_proxy_users"%string])
        | None => (fun u => (ui_username u, ui_groups u)) <$> proxy_user
        end in
      detailed ← record_detailed_metrics sv;
      start ← call CNow;
      let method := rq_method req in
      let url := uri_to_string (rq_uri req) in
      let llm := applies (sv_semantic sv) method url in
      let key := http_cache_key method url in
      let username := match user with Some (u, _) => Some u | None => extract_user_info req end in
      let cx :=
        {| cx_method := method; cx_url := url; cx_client_ip := client_ip; cx_user_id := username;
           cx_username := username; cx_user_agent := request_header_str req "user-agent"; cx_categories := [];
           cx_threat_sources := []; cx_start := start; cx_detailed := detailed |} in
      limited ← check_rate_limit sv client_ip username (rq_headers req);
      match limited with
      | Some r => mret (Full r)
      | None =>
          early ←
            (if fast_cache_hit (sv_perf sv) && negb llm then try_serve_cache_before_policy sv cx req key
             else mret None);
          match early with
          | Some r => mret (Full r)
          | None => handle_checked sv cx key llm (from_option snd [] user) req
          end
      end
  end.

(** The request to its end: a streamed body is drained ([oks]: whether the client
    takes each frame) and its completion runs. *)
Definition serve (sv : ProxyService) (req : Request) (client_ip : string) (proxy_user : option UserInfo)
    (oks : list bool) : prog (N * gmap string string * list Sent) :=
  resp ← handle_request sv req client_ip proxy_user;
  match resp with
  | Full r => mret (hr_status r, hr_headers r, [SData (hr_body r)])
  | Streamed status headers body attempt_cache max_body on_complete =>
      let '(sent, (buffered, stored)) := spawn_upstream_drain body attempt_cache max_body oks in
      on_complete buffered stored;;
      mret (status, headers, sent)
  end.

End service.
