(* ===== verification/AgentPolicy.v ===== *)
(** * Agent policy and agent telemetry (src/proxy/src/agent_policy_hub.rs,
    src/proxy/src/agent_events.rs, src/proxy/src/device_registry.rs)

    The document agents enforce, the hub that publishes it and the long poll that
    waits for a change, and the ingest of the decisions agents report.

    serde_json and SHA-256 are parameters; clocks and fresh identifiers are
    arguments.  The long poll runs beside the publishers: it is a step relation. *)

From Stdlib Require Import Ascii String NArith Lia.
From stdpp Require Import base option gmap sets strings pretty numbers list.
From S2P Require Import Prelude Bytes CacheDigest SemanticCache Devices Pinning Policy ProxyService.

(** ** The document *)

Definition POLICY_VERSION : string := "v0.1.0".

(** [PolicyMode::as_str]. *)
Definition policy_mode_as_str (m : PolicyMode) : string :=
  match m with Sni => "sni" | SelectiveMitm => "selective-mitm" | FullMitm => "full-mitm" end.

Definition json_strings (l : list string) : json := JArray (JString <$> l).

Definition agent_policy_document (env : Env) (policy_mode : string) (mitm_categories pinning_exceptions : list string)
    : json :=
  let sni_deny := sni_deny_patterns_from_env env in
  JObject
    [("mitm_categories", json_strings mitm_categories);
     ("pinning_exceptions", json_strings pinning_exceptions);
     ("policy_mode", JString policy_mode);
     ("policy_version", JString POLICY_VERSION);
     ("sni_deny_patterns", json_strings sni_deny);
     ("sni_rules", JArray ((fun p => JObject [("action", JString "deny"); ("pattern", JString p)]) <$> sni_deny))].

(** [document[name] = value] on an object: members stay in key order. *)
Fixpoint set_member (name : string) (v : json) (members : list (string * json)) : list (string * json) :=
  match members with
  | [] => [(name, v)]
  | (k, w) :: rest =>
      match String.compare name k with
      | Eq => (name, v) :: rest
      | Lt => (name, v) :: members
      | Gt => (k, w) :: set_member name v rest
      end
  end.

Definition json_set (name : string) (v : json) (doc : json) : json :=
  match doc with JObject members => JObject (set_member name v members) | _ => doc end.

(** ** The hub *)

Record PolicySnapshot := {
  ps_version : string;
  ps_document : json;
  ps_pushed_at : N;
  ps_reason : string;
}.

(** [hub_seq] is the process-wide counter [PUSH_SEQ]. *)
Record PolicyHub := {
  hub_state : PolicySnapshot;
  hub_seq : N;
}.

(** [u64::to_le_bytes]. *)
Fixpoint le_bytes (n : nat) (x : N) : string :=
  match n with O => EmptyString | S n => String (byte x) (le_bytes n (x / 256)) end.

Section hub.
Context {SH : Sha256} {SJ : SerdeJson}.

Definition field_text (name : string) (doc : json) : string :=
  match json_get name doc with Some v => json_to_vec v | None => EmptyString end.

(** What is hashed. *)
Definition version_input (now seq : N) (doc : json) : string :=
  field_text "policy_mode" doc +:+ field_text "mitm_categories" doc +:+ field_text "pinning_exceptions" doc
  +:+ field_text "sni_deny_patterns" doc +:+ le_bytes 8 now +:+ le_bytes 8 seq.

Definition content_version (now seq : N) (doc : json) : string :=
  "v" +:+ hex_encode (str_take 8 (sha256 (version_input now seq doc))).

(** [snapshot_from_document], and the same lines in [publish]: the clock is read
    for the version, for the document and for the snapshot. *)
Definition snapshot_from_document (now1 now2 now3 seq : N) (doc : json) (reason : string) : PolicySnapshot :=
  let version := content_version now1 seq doc in
  {| ps_version := version;
     ps_document :=
       json_set "pushed_at" (JNumber (pretty now2))
         (json_set "push_reason" (JString reason) (json_set "policy_version" (JString version) doc));
     ps_pushed_at := now3;
     ps_reason := reason |}.

Definition publish (now1 now2 now3 : N) (doc : json) (reason : string) (h : PolicyHub) : PolicyHub :=
  {| hub_state := snapshot_from_document now1 now2 now3 (hub_seq h) doc reason;
     hub_seq := wrap 64 (hub_seq h + 1) |}.

Definition runtime_document (env : Env) (now : N) (pinning : PinningRegistry) : json :=
  agent_policy_document env (policy_mode_as_str (configured_policy_mode env)) (configured_mitm_categories env)
    (active_domains now pinning).

Definition publish_from_runtime (env : Env) (now now1 now2 now3 : N) (pinning : PinningRegistry) (reason : string)
    (h : PolicyHub) : PolicyHub :=
  publish now1 now2 now3 (runtime_document env now pinning) reason h.

Definition hub_from_runtime (env : Env) (now now1 now2 now3 seq : N) (pinning : PinningRegistry) : PolicyHub :=
  {| hub_state := snapshot_from_document now1 now2 now3 seq (runtime_document env now pinning) "startup";
     hub_seq := wrap 64 (seq + 1) |}.

End hub.

(** *** Waiting for a change

    [wait_change] reads the snapshot, then creates the [notified()] future, then
    sleeps.  [notify_waiters] wakes only the futures that exist. *)

Definition version_changed (since : option string) (snap : PolicySnapshot) : bool :=
  match since with
  | None => true
  | Some v => str_is_empty v || negb (String.eqb v (ps_version snap))
  end.

Inductive Waiter :=
  | Checking
  | Unarmed (snap : PolicySnapshot)
  | Waiting
  | Woken
  | Returned (snap : PolicySnapshot) (changed : bool).

(** A publication wakes a waiter that is waiting. *)
Definition wake (w : Waiter) : Waiter := match w with Waiting => Woken | _ => w end.

Inductive watch_step (since : option string) : PolicySnapshot * Waiter -> PolicySnapshot * Waiter -> Prop :=
  | WatchPublish snap snap' w : watch_step since (snap, w) (snap', wake w)
  | WatchChanged snap :
      version_changed since snap = true -> watch_step since (snap, Checking) (snap, Returned snap true)
  | WatchUnchanged snap :
      version_changed since snap = false -> watch_step since (snap, Checking) (snap, Unarmed snap)
  | WatchDeadline snap seen : watch_step since (snap, Unarmed seen) (snap, Returned seen false)
  | WatchArm snap seen : watch_step since (snap, Unarmed seen) (snap, Waiting)
  | WatchNotified snap : watch_step since (snap, Woken) (snap, Checking)
  | WatchTimeout snap w : w = Waiting \/ w = Woken -> watch_step since (snap, w) (snap, Returned snap false).

(** ** Agent events *)

Definition MAX_BATCH : N := 100.
Definition MAX_RECENT : nat := 200.

Record AgentEventItem := {
  ai_domain : string;
  ai_action : string;
  ai_decision_source : option string;
  ai_timestamp : option N;
  ai_reason : option string;
  ai_policy_version : option string;
}.

Record AgentEventBatch := {
  ab_device_id : string;
  ab_events : list AgentEventItem;
}.

Record RecentAgentEvent := {
  re_device_id : string;
  re_domain : string;
  re_action : string;
  re_decision_source : string;
  re_timestamp : N;
  re_reason : option string;
  re_policy_version : option string;
  re_event_id : string;
}.

Inductive BatchError :=
  | BatchEmptyDeviceId
  | EmptyBatch
  | BatchTooLarge (got : N)
  | InvalidEvent (index : nat) (message : string).

Definition batch_error_message (e : BatchError) : string :=
  match e with
  | BatchEmptyDeviceId => "device_id must not be empty"
  | EmptyBatch => "events must not be empty"
  | BatchTooLarge got => "events batch too large (" +:+ pretty got +:+ " > " +:+ pretty MAX_BATCH +:+ ")"
  | InvalidEvent index message => "events[" +:+ pretty (N.of_nat index) +:+ "]: " +:+ message
  end.

Definition is_agent_action (a : string) : bool :=
  String.eqb a "allow" || String.eqb a "deny" || String.eqb a "bypass" || String.eqb a "inspect".

Definition is_agent_source (s : string) : bool :=
  String.eqb s "local-agent" || String.eqb s "dns" || String.eqb s "sni" || String.eqb s "mitm"
  || String.eqb s "pinning-bypass".

Definition item_error (item : AgentEventItem) : option string :=
  if str_is_empty (trim (ai_domain item)) then Some "domain must not be empty"%string
  else if (253 <? str_len (ai_domain item))%N then Some "domain too long"%string
  else if negb (is_agent_action (to_ascii_lowercase (ai_action item))) then
    Some "action must be allow|deny|bypass|inspect"%string
  else
    match ai_decision_source item with
    | Some src => if is_agent_source (to_ascii_lowercase src) then None else Some "unsupported decision_source"%string
    | None => None
    end.

Fixpoint validate_items (index : nat) (items : list AgentEventItem) : result unit BatchError :=
  match items with
  | [] => Ok tt
  | item :: items =>
      match item_error item with
      | Some message => Err (InvalidEvent index message)
      | None => validate_items (S index) items
      end
  end.

Definition validate_batch (b : AgentEventBatch) : result unit BatchError :=
  if str_is_empty (trim (ab_device_id b)) then Err BatchEmptyDeviceId
  else
    match ab_events b with
    | [] => Err EmptyBatch
    | items =>
        if (MAX_BATCH <? N.of_nat (length items))%N then Err (BatchTooLarge (N.of_nat (length items)))
        else validate_items 0 items
    end.

Definition normalize_source (src : option string) : string :=
  match to_ascii_lowercase <$> src with
  | Some s => if negb (str_is_empty s) then s else "local-agent"
  | None => "local-agent"
  end.

Definition action_to_status_and_acl (action : string) : N * option string * option string :=
  if String.eqb action "deny" then (403%N, Some "deny"%string, Some "agent local deny"%string)
  else (200%N, None, None).

(** [now] is the clock when the item has no time of its own. *)
Definition to_events (now : N) (event_id device_id : string) (item : AgentEventItem)
    : CacheEvent * RecentAgentEvent :=
  let action := to_ascii_lowercase (ai_action item) in
  let decision_source := normalize_source (ai_decision_source item) in
  let timestamp := match ai_timestamp item with Some t => if (0 <? t)%N then t else now | None => now end in
  let domain := to_ascii_lowercase (trim (ai_domain item)) in
  let '(status, acl_action, acl_reason) := action_to_status_and_acl action in
  ({| ev_url := "https://" +:+ domain +:+ "/"; ev_method := "CONNECT"; ev_status := status;
      ev_cache_key := "agent:" +:+ device_id +:+ ":" +:+ domain +:+ ":" +:+ pretty timestamp;
      ev_cache_status := "AGENT"; ev_timestamp := timestamp; ev_headers := ∅; ev_user_id := None;
      ev_username := None; ev_client_ip := device_id; ev_domain := domain; ev_response_size := 0;
      ev_request_duration_ms := 0; ev_content_type := None;
      ev_user_agent := Some ("bsdm-agent/" +:+ device_id); ev_categories := []; ev_threat_sources := [];
      ev_acl_action := acl_action; ev_acl_rule_id := ai_policy_version item;
      ev_acl_reason := or_else (ai_reason item) acl_reason; ev_session_id := "agent:" +:+ device_id;
      ev_parent_event_id := None; ev_redirect_url := None; ev_dlp_violation := None; ev_casb_alert := None;
      ev_decision_source := Some decision_source;
      ev_bypass_reason :=
        if String.eqb action "bypass" then or_else (ai_reason item) (Some "agent_bypass"%string) else None;
      ev_event_id := event_id |},
   {| re_device_id := device_id; re_domain := domain; re_action := action;
      re_decision_source := decision_source; re_timestamp := timestamp; re_reason := ai_reason item;
      re_policy_version := ai_policy_version item; re_event_id := event_id |}).

(** The ring, newest first, and the events handed to the pipeline. *)
Record AgentEventIngestor := {
  ag_recent : list RecentAgentEvent;
  ag_pipeline : bool;
  ag_enqueued : list CacheEvent;
}.

(** [VecDeque::pop_back]. *)
Definition push_recent (event : RecentAgentEvent) (recent : list RecentAgentEvent) : list RecentAgentEvent :=
  event :: (if Nat.leb MAX_RECENT (length recent) then take (length recent - 1) recent else recent).

Definition ingest_item (now : N) (event_id device_id : string) (item : AgentEventItem) (g : AgentEventIngestor)
    : AgentEventIngestor :=
  let '(cache_event, recent) := to_events now event_id device_id item in
  {| ag_recent := push_recent recent (ag_recent g); ag_pipeline := ag_pipeline g;
     ag_enqueued := if ag_pipeline g then ag_enqueued g ++ [cache_event] else ag_enqueued g |}.

(** [fresh] gives the clock and the id of each item. *)
Fixpoint ingest_items (fresh : nat -> N * string) (i : nat) (device_id : string) (items : list AgentEventItem)
    (g : AgentEventIngestor) : AgentEventIngestor :=
  match items with
  | [] => g
  | item :: items =>
      ingest_items fresh (S i) device_id items (ingest_item (fresh i).1 (fresh i).2 device_id item g)
  end.

(** The report: accepted and enqueued. *)
Definition ingest (fresh : nat -> N * string) (b : AgentEventBatch) (g : AgentEventIngestor)
    : AgentEventIngestor * result (N * N) BatchError :=
  match validate_batch b with
  | Err e => (g, Err e)
  | Ok _ =>
      let accepted := N.of_nat (length (ab_events b)) in
      (ingest_items fresh 0 (trim (ab_device_id b)) (ab_events b) g,
       Ok (accepted, if ag_pipeline g then accepted else 0%N))
  end.

(** [limit.clamp(1, MAX_RECENT)]. *)
Definition recent_snapshot (limit : nat) (g : AgentEventIngestor) : list RecentAgentEvent :=
  take (Nat.min (Nat.max limit 1) MAX_RECENT) (ag_recent g).

(** ** Lemmas *)

Lemma push_recent_take e recent :
  length recent <= MAX_RECENT -> push_recent e recent = take MAX_RECENT (e :: recent).
Proof.
  intros Hl. unfold push_recent. destruct (Nat.leb_spec MAX_RECENT (length recent)) as [H|H].
  - replace (length recent) with MAX_RECENT by lia. reflexivity.
  - symmetry. apply take_ge. simpl. lia.
Qed.

(** The entries of a batch, in its order. *)
Fixpoint recent_entries (fresh : nat -> N * string) (i : nat) (device_id : string) (items : list AgentEventItem)
    : list RecentAgentEvent :=
  match items with
  | [] => []
  | item :: items =>
      (to_events (fresh i).1 (fresh i).2 device_id item).2 :: recent_entries fresh (S i) device_id items
  end.

Fixpoint pipeline_entries (fresh : nat -> N * string) (i : nat) (device_id : string) (items : list AgentEventItem)
    : list CacheEvent :=
  match items with
  | [] => []
  | item :: items =>
      (to_events (fresh i).1 (fresh i).2 device_id item).1 :: pipeline_entries fresh (S i) device_id items
  end.

Lemma take_app_take {A} n (l k : list A) : take n (l ++ take n k) = take n (l ++ k).
Proof.
  rewrite !take_app, take_take. f_equal. f_equal. lia.
Qed.

Lemma ingest_items_recent fresh i id items g :
  length (ag_recent g) <= MAX_RECENT ->
  let g' := ingest_items fresh i id items g in
  ag_recent g' = take MAX_RECENT (reverse (recent_entries fresh i id items) ++ ag_recent g)
  /\ ag_pipeline g' = ag_pipeline g
  /\ ag_enqueued g' = ag_enqueued g ++ (if ag_pipeline g then pipeline_entries fresh i id items else []).
Proof.
  revert i g. induction items as [|item items IH]; intros i g Hl; cbn [ingest_items recent_entries pipeline_entries].
  - cbn [reverse rev_append app]. rewrite take_ge by done. destruct (ag_pipeline g); by rewrite app_nil_r.
  - unfold ingest_item. destruct (to_events _ _ _ _) as [ce re]. set (g1 := {| ag_recent := _ |}).
    assert (Hr : ag_recent g1 = take MAX_RECENT (re :: ag_recent g)) by (apply push_recent_take, Hl).
    destruct (IH (S i) g1) as (H1 & H2 & H3).
    { rewrite Hr, length_take. lia. }
    rewrite H1, H2, H3, Hr, take_app_take. cbn [fst snd].
    rewrite reverse_cons, <- (assoc_L (++)). split; [done|]. split; [done|].
    unfold g1. cbn [ag_pipeline ag_enqueued]. destruct (ag_pipeline g); [|done]. by rewrite <- (assoc_L (++)).
Qed.

Lemma le_bytes_length n x : String.length (le_bytes n x) = n.
Proof. revert x. induction n as [|n IH]; intros x; [done|]. cbn [le_bytes String.length]. by rewrite IH. Qed.

Lemma byte_inj x y : byte x = byte y -> (x mod 256 = y mod 256)%N.
Proof.
  unfold byte. intros H. apply (f_equal N_of_ascii) in H.
  by rewrite !N_ascii_embedding in H by (apply N.mod_lt; lia).
Qed.

Lemma le_bytes_inj n x y :
  (x < 256 ^ N.of_nat n)%N -> (y < 256 ^ N.of_nat n)%N -> le_bytes n x = le_bytes n y -> x = y.
Proof.
  revert x y. induction n as [|n IH]; intros x y Hx Hy.
  - simpl in *. lia.
  - rewrite Nat2N.inj_succ, N.pow_succ_r' in Hx, Hy. cbn [le_bytes]. intros [= Hb%byte_inj Hr].
    assert (x / 256 = y / 256)%N as Hd by (apply IH; [by apply N.Div0.div_lt_upper_bound..|done]).
    rewrite (N.div_mod x 256), (N.div_mod y 256) by lia. by rewrite Hd, Hb.
Qed.

Lemma append_inj_r (a b c d : string) :
  String.length c = String.length d -> (a +:+ c = b +:+ d)%string -> c = d.
Proof.
  revert b. induction a as [|x a IH]; intros b Hl H.
  - destruct b as [|y b]; [done|]. exfalso.
    apply (f_equal String.length) in H. cbn in H. rewrite string_length_app in H. lia.
  - destruct b as [|y b].
    + exfalso. apply (f_equal String.length) in H. cbn in H. rewrite string_length_app in H. lia.
    + injection H as _ H. by apply (IH b).
Qed.

(** ** Theorems *)

(** Ingest of agent events: a batch is taken whole or not at all; when it is taken,
    its entries are the newest of the ring, last one first, the ring holds the 200
    newest, and a configured pipeline is handed every event of the batch in order. *)
Theorem ingest_exact (fresh : nat -> N * string) (b : AgentEventBatch) (g : AgentEventIngestor)
    (Hg : length (ag_recent g) <= MAX_RECENT) :
  let '(g', report) := ingest fresh b g in
  match validate_batch b with
  | Err e => g' = g /\ report = Err e
  | Ok _ =>
      let id := trim (ab_device_id b) in
      ag_recent g' = take MAX_RECENT (reverse (recent_entries fresh 0 id (ab_events b)) ++ ag_recent g)
      /\ ag_enqueued g'
         = ag_enqueued g ++ (if ag_pipeline g then pipeline_entries fresh 0 id (ab_events b) else [])
      /\ report = Ok (N.of_nat (length (ab_events b)),
                      if ag_pipeline g then N.of_nat (length (ab_events b)) else 0%N)
      /\ length (ag_recent g') <= MAX_RECENT
  end.
Proof.
  unfold ingest. destruct (validate_batch b) as [u|e]; [|done].
  destruct (ingest_items_recent fresh 0 (trim (ab_device_id b)) (ab_events b) g Hg) as (H1 & H2 & H3).
  rewrite H1. repeat split; [exact H3|]. rewrite length_take. lia.
Qed.

(** Versions: two publications in a row, of whatever documents at whatever times,
    hash different texts, because the counter ends them. *)
Theorem publications_hash_apart {SJ : SerdeJson} (h : PolicyHub) (now now' : N) (doc doc' : json)
    (Hseq : (hub_seq h <= u64_max)%N) :
  version_input now (hub_seq h) doc <> version_input now' (wrap 64 (hub_seq h + 1)) doc'.
Proof.
  unfold version_input. rewrite <- !string_app_assoc. intros H.
  apply append_inj_r in H; [|by rewrite !le_bytes_length].
  assert (Hw : wrap 64 (hub_seq h + 1) = ((hub_seq h + 1) mod 2 ^ 64)%N) by (unfold wrap; by rewrite N.land_ones).
  assert (Hp : (256 ^ N.of_nat 8 = 2 ^ 64)%N) by reflexivity.
  unfold u64_max in Hseq. apply le_bytes_inj in H; rewrite ?Hw, ?Hp in *; [|lia|apply N.mod_lt; lia].
  destruct (decide (hub_seq h + 1 < 2 ^ 64)%N) as [Hlt|Hge].
  - rewrite N.mod_small in H by done. lia.
  - assert (hub_seq h + 1 = 2 ^ 64)%N as E by lia. rewrite E, N.Div0.mod_same in H. lia.
Qed.

(** The long poll says "changed" only of a version other than the caller's. *)
Theorem policy_watch_sound (since : option string) (snap0 snap snap' : PolicySnapshot)
    (Hrun : rtc (watch_step since) (snap0, Checking) (snap, Returned snap' true)) :
  version_changed since snap' = true.
Proof.
  assert (H : forall s t, rtc (watch_step since) s t ->
    (forall x, s.2 = Returned x true -> version_changed since x = true) ->
    forall x, t.2 = Returned x true -> version_changed since x = true).
  { induction 1 as [s|s t u Hst _ IH]; [done|]. intros Hs. apply IH. intros x.
    destruct Hst as [? ? w| | | | | |]; cbn in *; [destruct w; cbn in *|..]; naive_solver. }
  by eapply (H _ _ Hrun).
Qed.

(** A missed publication (a defect): a policy published after the long poll compared
    versions and before it listens wakes nobody; the poll ends with its time-out and
    hands out the new document marked as not changed. *)
Theorem policy_watch_misses_change (v : string) (snap0 snap1 : PolicySnapshot)
    (Hv : str_is_empty v = false) (H0 : ps_version snap0 = v) (H1 : ps_version snap1 <> v) :
  rtc (watch_step (Some v)) (snap0, Checking) (snap1, Returned snap1 false)
  /\ version_changed (Some v) snap1 = true.
Proof.
  split.
  - eapply rtc_l; [apply WatchUnchanged; cbn; by rewrite Hv, H0, String.eqb_refl|].
    eapply rtc_l; [apply (WatchPublish _ snap0 snap1)|]. cbn [wake].
    eapply rtc_l; [apply WatchArm|]. eapply rtc_l; [apply WatchTimeout; by left|]. apply rtc_refl.
  - cbn. rewrite Hv. by destruct (String.eqb_spec v (ps_version snap1)) as [->|].
Qed.
