(* ===== verification/ControlConfig.v ===== *)
(** * Settings the control plane edits (src/proxy/src/runtime_config.rs,
    security_defaults.rs, threat_sync.rs, amneziawg.rs)

    The environment file of the admin console and the masking of secrets, what the
    control plane requires of its token, the log of shared threat indicators, and
    the configuration file of the AmneziaWG sidecar.

    The process environment and the files are state; the outcomes of writing files,
    of publishing to Redis and of running commands are arguments. *)

From Stdlib Require Import Ascii String NArith Lia Sorting.Sorted Sorting.Permutation.
From stdpp Require Import base option gmap sets strings pretty numbers list sorting.
From S2P Require Import Prelude Devices Policy.

(** ** The environment file (runtime_config.rs) *)

Definition ENV_HEADER : string :=
  "# Managed by BSDM Admin Console — do not edit while proxy is running" +:+ nl.

(** One line of the file. *)
Definition parse_env_line (m : gmap string string) (line : string) : gmap string string :=
  let trimmed := trim line in
  if str_is_empty trimmed || starts_with trimmed "#" then m
  else
    match split_once "=" trimmed with
    | None => m
    | Some (key, value) => if str_is_empty (trim key) then m else <[trim key := value]> m
    end.

Definition parse_env_text (text : string) : gmap string string := foldl parse_env_line ∅ (str_lines text).

Definition env_entry (vars : gmap string string) (key : string) : string :=
  match vars !! key with
  | Some value => if str_is_empty value then EmptyString else key +:+ "=" +:+ value +:+ nl
  | None => EmptyString
  end.

Definition format_env_file (vars : gmap string string) : string :=
  foldl (fun out key => out +:+ env_entry vars key) ENV_HEADER (merge_sort String.le (elements (dom vars))).

(** [std::env::set_var] and [remove_var] on the process environment. *)
Definition apply_env_map (vars process : gmap string string) : gmap string string :=
  map_fold (fun key value env => if str_is_empty value then delete key env else <[key := value]> env) process vars.

Definition SECRET_MARKERS : list string :=
  ["_TOKEN"; "_PASSWORD"; "_SECRET"; "_KEY"; "API_KEY"; "BIND_PASSWORD"; "CLIENT_SECRET"].

Definition char_upper (c : ascii) : ascii :=
  let b := char_code c in if ((97 <=? b) && (b <=? 122))%N then ascii_of_N (b - 32) else c.

Fixpoint to_ascii_uppercase (s : string) : string :=
  match s with EmptyString => EmptyString | String c s' => String (char_upper c) (to_ascii_uppercase s') end.

Definition is_secret_key (key : string) : bool :=
  existsb (fun marker => str_contains (to_ascii_uppercase key) marker) SECRET_MARKERS.

Definition mask_secret_value (key value : string) : string :=
  if is_secret_key key && negb (str_is_empty value) then "***" else value.

Definition mask_env_map (vars : gmap string string) : gmap string string := map_imap (fun k v => Some (mask_secret_value k v)) vars.

Definition config_env_path (env : Env) (etc_is_file : bool) : string :=
  match env "CONFIG_ENV_PATH" with
  | Some path => if negb (str_is_empty (trim path)) then path
                 else if etc_is_file then "/etc/bsdm-proxy/bsdm-proxy.env" else "./bsdm-proxy.env"
  | None => if etc_is_file then "/etc/bsdm-proxy/bsdm-proxy.env" else "./bsdm-proxy.env"
  end.

(** [file]: [None] when there is none, else what reading it gives. *)
Definition read_env_file (file : option (result string string)) : result (gmap string string) string :=
  match file with
  | None => Ok ∅
  | Some (Err e) => Err ("failed to read: " +:+ e)
  | Some (Ok content) => Ok (parse_env_text content)
  end.

Definition config_snapshot (file : option (result string string)) (process : gmap string string)
    : result (gmap string string) string :=
  match read_env_file file with
  | Err e => Err e
  | Ok env => Ok (mask_env_map (if bool_decide (env = ∅) then process else env))
  end.

(** The merge of an applied map into the file's. *)
Definition merge_env (request merged : gmap string string) : gmap string string :=
  map_fold (fun key value m => if str_is_empty value then delete key m else <[key := value]> m) merged request.

(** ** Token posture (security_defaults.rs) *)

Definition configured_deployment_profile (env : Env) : DeploymentProfile :=
  default Production (deployment_profile_from_str (default "production" (env "DEPLOYMENT_PROFILE"))).

Definition control_api_allow_insecure (env : Env) : bool := env_flag_default_off env "CONTROL_API_ALLOW_INSECURE".

Definition control_api_fail_closed (env : Env) : bool :=
  if control_api_allow_insecure env then false
  else
    match configured_deployment_profile env with
    | Production => true
    | Development | TestProfile => env_flag_default_off env "CONTROL_API_REQUIRE_TOKEN"
    end.

Definition non_empty_var (env : Env) (name : string) : option string :=
  match env name with Some t => if str_is_empty t then None else Some t | None => None end.

Definition control_api_token_from_env (env : Env) : option string :=
  or_else (non_empty_var env "CONTROL_API_TOKEN") (non_empty_var env "ACL_API_TOKEN").

Definition validate_control_plane_security (env : Env) : result unit string :=
  match configured_deployment_profile env, present (control_api_token_from_env env), control_api_allow_insecure env with
  | Production, false, false =>
      Err "CONTROL_API_TOKEN is required in production; set the token or CONTROL_API_ALLOW_INSECURE=true (lab only)"
  | _, _, _ => Ok tt
  end.

Definition metrics_bind_host (env : Env) : string := default "0.0.0.0" (trimmed_var env "METRICS_BIND").

Definition metrics_bind_addr (env : Env) (port : N) : string := metrics_bind_host env +:+ ":" +:+ pretty port.

Definition metrics_auth_token (env : Env) : option string :=
  or_else (non_empty_var env "METRICS_AUTH_TOKEN")
    (if env_flag_default_off env "METRICS_REQUIRE_AUTH" then control_api_token_from_env env else None).

(** ** Shared threat indicators (threat_sync.rs) *)

(** [threat_score] is an [f64] the engine only carries: its text. *)
Record ThreatSyncEvent := {
  te_id : string;
  te_ioc_type : string;
  te_value : string;
  te_threat_score : string;
  te_action : string;
  te_ttl_secs : N;
  te_origin_node : string;
  te_timestamp : N;
}.

Record ThreatSyncEngine := {
  ts_node_id : string;
  ts_redis : bool;
  ts_recent_events : list ThreatSyncEvent;
  ts_known_peers : list string;
}.

Definition get_peers (t : ThreatSyncEngine) : list string :=
  match ts_known_peers t with [] => ["local-node (" +:+ ts_node_id t +:+ ")"] | peers => peers end.

Definition record_event (event : ThreatSyncEvent) (t : ThreatSyncEngine) : ThreatSyncEngine :=
  let peers :=
    if negb (bool_decide (te_origin_node event ∈ ts_known_peers t))
       && negb (String.eqb (te_origin_node event) (ts_node_id t))
    then ts_known_peers t ++ [te_origin_node event] else ts_known_peers t in
  let events :=
    if negb (existsb (fun e => String.eqb (te_id e) (te_id event)) (ts_recent_events t)) then
      let l := event :: ts_recent_events t in
      if Nat.ltb 50 (length l) then take (length l - 1) l else l
    else ts_recent_events t in
  {| ts_node_id := ts_node_id t; ts_redis := ts_redis t; ts_recent_events := events; ts_known_peers := peers |}.

Definition completed_event (millis now : N) (event : ThreatSyncEvent) (t : ThreatSyncEngine) : ThreatSyncEvent :=
  {| te_id := if str_is_empty (te_id event) then "ioc-" +:+ ts_node_id t +:+ "-" +:+ pretty millis else te_id event;
     te_ioc_type := te_ioc_type event; te_value := te_value event; te_threat_score := te_threat_score event;
     te_action := te_action event; te_ttl_secs := te_ttl_secs event;
     te_origin_node := if str_is_empty (te_origin_node event) then ts_node_id t else te_origin_node event;
     te_timestamp := if (te_timestamp event =? 0)%N then now else te_timestamp event |}.

(** [publish]: the outcome of serializing and publishing. *)
Definition broadcast (millis now : N) (publish : result unit string) (event : ThreatSyncEvent) (t : ThreatSyncEngine)
    : ThreatSyncEngine * result unit string :=
  let t' := record_event (completed_event millis now event t) t in
  (t', if ts_redis t then publish else Ok tt).

(** ** The AmneziaWG sidecar (amneziawg.rs) *)

Record AwgObfuscationConfig := {
  aw_jc : N; aw_jmin : N; aw_jmax : N; aw_s1 : N; aw_s2 : N; aw_h1 : N; aw_h2 : N; aw_h3 : N; aw_h4 : N;
}.

Definition AwgObfuscationConfig_default : AwgObfuscationConfig := {|
  aw_jc := 4; aw_jmin := 40; aw_jmax := 70; aw_s1 := 15; aw_s2 := 25; aw_h1 := 10000001; aw_h2 := 10000002;
  aw_h3 := 10000003; aw_h4 := 10000004 |}.

Record AwgPeerConfig := {
  ap_id : string;
  ap_name : string;
  ap_public_key : string;
  ap_private_key : option string;
  ap_allowed_ips : string;
  ap_assigned_ip : string;
  ap_created_at : string;
  ap_rx_bytes : N;
  ap_tx_bytes : N;
  ap_latest_handshake_secs : N;
}.

Record AwgServerConfig := {
  aw_enabled : bool;
  aw_listen_port : N;
  aw_private_key : string;
  aw_public_key : string;
  aw_address : string;
  aw_obfuscation : AwgObfuscationConfig;
  aw_peers : list AwgPeerConfig;
  aw_last_reload_status : option string;
  aw_last_reload_at : option N;
}.

Definition AwgServerConfig_default : AwgServerConfig := {|
  aw_enabled := false; aw_listen_port := 51820; aw_private_key := "wP4k...placeholder...key=";
  aw_public_key := "pub...placeholder...key="; aw_address := "10.8.0.1/24";
  aw_obfuscation := AwgObfuscationConfig_default; aw_peers := [];
  aw_last_reload_status := Some "standalone_unconfigured"%string; aw_last_reload_at := None |}.

Definition with_peers (ps : list AwgPeerConfig) (c : AwgServerConfig) : AwgServerConfig := {|
  aw_enabled := aw_enabled c; aw_listen_port := aw_listen_port c; aw_private_key := aw_private_key c;
  aw_public_key := aw_public_key c; aw_address := aw_address c; aw_obfuscation := aw_obfuscation c;
  aw_peers := ps; aw_last_reload_status := aw_last_reload_status c; aw_last_reload_at := aw_last_reload_at c |}.

Definition with_reload (status : option string) (at_ : option N) (c : AwgServerConfig) : AwgServerConfig := {|
  aw_enabled := aw_enabled c; aw_listen_port := aw_listen_port c; aw_private_key := aw_private_key c;
  aw_public_key := aw_public_key c; aw_address := aw_address c; aw_obfuscation := aw_obfuscation c;
  aw_peers := aw_peers c; aw_last_reload_status := status; aw_last_reload_at := at_ |}.

Definition setting (name value : string) : string := name +:+ " = " +:+ value +:+ nl.

Definition obfuscation_lines (o : AwgObfuscationConfig) : string :=
  setting "Jc" (pretty (aw_jc o)) +:+ setting "Jmin" (pretty (aw_jmin o)) +:+ setting "Jmax" (pretty (aw_jmax o))
  +:+ setting "S1" (pretty (aw_s1 o)) +:+ setting "S2" (pretty (aw_s2 o)) +:+ setting "H1" (pretty (aw_h1 o))
  +:+ setting "H2" (pretty (aw_h2 o)) +:+ setting "H3" (pretty (aw_h3 o)) +:+ setting "H4" (pretty (aw_h4 o)).

Definition generate_client_conf (server_public_key server_endpoint : string) (peer : AwgPeerConfig)
    (o : AwgObfuscationConfig) (client_private_key : string) : string :=
  "[Interface]" +:+ nl +:+ setting "PrivateKey" client_private_key
  +:+ setting "Address" (ap_assigned_ip peer +:+ "/32") +:+ setting "DNS" "1.1.1.1, 8.8.8.8"
  +:+ obfuscation_lines o +:+ nl +:+ "[Peer]" +:+ nl +:+ setting "PublicKey" server_public_key
  +:+ setting "Endpoint" server_endpoint +:+ setting "AllowedIPs" "0.0.0.0/0, ::/0"
  +:+ setting "PersistentKeepalive" "25".

Definition peer_conf (peer : AwgPeerConfig) : string :=
  nl +:+ "[Peer]" +:+ nl +:+ "# Name: " +:+ ap_name peer +:+ " (ID: " +:+ ap_id peer +:+ ")" +:+ nl
  +:+ setting "PublicKey" (ap_public_key peer)
  +:+ setting "AllowedIPs"
        (if str_is_empty (ap_allowed_ips peer) then ap_assigned_ip peer +:+ "/32" else ap_allowed_ips peer).

Definition generate_server_conf (c : AwgServerConfig) : string :=
  foldl (fun out peer => out +:+ peer_conf peer)
    ("[Interface]" +:+ nl +:+ setting "Address" (aw_address c) +:+ setting "ListenPort" (pretty (aw_listen_port c))
     +:+ setting "PrivateKey" (aw_private_key c) +:+ obfuscation_lines (aw_obfuscation c))
    (aw_peers c).

(** The outcome of a command: started and successful, started and not, or not
    started. *)
Inductive CommandOutcome := Succeeded | ExitCode (shown : string) | NotLaunched (e : string).

(** [sync_sidecar_interface]: the configuration, what is written and the message.
    [save] is the outcome of writing the file. *)
Definition sync_sidecar_interface (env : Env) (now : N) (save : result unit string) (run : CommandOutcome)
    (path : string) (c : AwgServerConfig) : AwgServerConfig * option string * result string string :=
  match save with
  | Err e => (c, None, Err ("Failed to save awg0.conf: " +:+ e))
  | Ok _ =>
      let file := Some (generate_server_conf c) in
      match non_empty_var env "AWG_RELOAD_CMD" with
      | Some cmd =>
          match run with
          | Succeeded =>
              let msg := "Sidecar reloaded successfully via `" +:+ cmd +:+ "`" in
              (with_reload (Some msg) (Some now) c, file, Ok msg)
          | ExitCode shown =>
              let msg := "AWG reload command exit code: " +:+ shown in
              (with_reload (Some msg) (Some now) c, file, Err msg)
          | NotLaunched e =>
              let msg := "Failed to launch AWG reload command: " +:+ e in
              (with_reload (Some msg) (Some now) c, file, Err msg)
          end
      | None =>
          (with_reload (Some "saved_unreloaded"%string) (Some now) c, file,
           Ok ("Config saved to " +:+ path +:+ ". Set AWG_RELOAD_CMD to enable automatic sidecar sync."))
      end
  end.

Record PeerTelemetry := { pt_rx_bytes : N; pt_tx_bytes : N; pt_latest_handshake_secs : N }.

(** A line of the dump with at least seven columns. *)
Definition parse_telemetry_line (m : gmap string PeerTelemetry) (line : string) : gmap string PeerTelemetry :=
  match split_whitespace line with
  | pubkey :: _ :: _ :: _ :: hs :: rx :: tx :: _ =>
      <[pubkey := {| pt_rx_bytes := default 0%N (parse_u64 rx); pt_tx_bytes := default 0%N (parse_u64 tx);
                     pt_latest_handshake_secs := default 0%N (parse_u64 hs) |}]> m
  | _ => m
  end.

Definition parse_interface_telemetry (dump : string) : gmap string PeerTelemetry :=
  foldl parse_telemetry_line ∅ (str_lines dump).

(** ** Lemmas: the environment file *)

Definition clean_key (k : string) : Prop :=
  k <> EmptyString /\ one_line k = true /\ trim k = k /\ free_of "=" k = true /\ starts_with k "#" = false.

Definition clean_value (v : string) : Prop :=
  v <> EmptyString /\ one_line v = true /\ trim_end v = v.

Definition clean_env (m : gmap string string) : Prop := forall k v, m !! k = Some v -> clean_key k /\ clean_value v.

Lemma trim_end_app a v : v <> EmptyString -> trim_end v = v -> trim_end (a +:+ v) = a +:+ v.
Proof.
  intros Hne Hv. induction a as [|c a IH]; [done|]. cbn [String.append trim_end]. rewrite IH.
  destruct (a +:+ v) eqn:E; [|by destruct (is_whitespace c)]. by destruct a, v.
Qed.

Lemma trim_start_keeps k s : trim_start k = k -> k <> EmptyString -> trim_start (k +:+ s) = k +:+ s.
Proof.
  destruct k as [|c k]; [done|]. cbn [trim_start String.append]. destruct (is_whitespace c); [|done].
  intros H _. exfalso. assert (Hl : forall s, String.length (trim_start s) <= String.length s).
  { intros t. induction t as [|d t IH]; [done|]. cbn. destruct (is_whitespace d); cbn; lia. }
  specialize (Hl k). rewrite H in Hl. cbn in Hl. lia.
Qed.

Lemma trim_fixed s : trim s = s -> trim_start s = s.
Proof.
  intros H. transitivity (trim_start (trim s)); [by rewrite H|].
  unfold trim. rewrite trim_start_trim_end by apply trim_start_idemp. exact H.
Qed.

Lemma parse_env_line_entry m k v :
  clean_key k -> clean_value v -> parse_env_line m (k +:+ "=" +:+ v) = <[k := v]> m.
Proof.
  intros (Hk & _ & Ht & Hf & Hh) (Hv & _ & Hve). unfold parse_env_line.
  assert (Htrim : trim (k +:+ "=" +:+ v) = k +:+ "=" +:+ v).
  { unfold trim. rewrite trim_start_keeps by (done || by apply trim_fixed).
    rewrite <- string_app_assoc. by apply trim_end_app. }
  rewrite Htrim. assert (Hs : str_is_empty (k +:+ "=" +:+ v) = false) by (by destruct k).
  assert (Hst : starts_with (k +:+ "=" +:+ v) "#" = false).
  { destruct k as [|c k]; [done|]. revert Hh. unfold starts_with. cbn [String.append strip_prefix].
    by destruct (Ascii.eqb "#" c). }
  rewrite Hs, Hst. cbn [orb]. change ("=" +:+ v) with (String "=" v). rewrite split_once_free by done.
  rewrite Ht. by destruct k.
Qed.

(** The file as lines. *)
Lemma format_env_lines m keys out :
  (forall k, k ∈ keys -> exists v, m !! k = Some v /\ v <> EmptyString) ->
  foldl (fun out key => out +:+ env_entry m key) out keys
  = out +:+ unlines ((fun k => k +:+ "=" +:+ default EmptyString (m !! k)) <$> keys).
Proof.
  revert out. induction keys as [|k keys IH]; intros out Hk; cbn [foldl fmap list_fmap].
  - unfold unlines. cbn. by rewrite string_app_nil_r.
  - rewrite IH by (intros k' Hk'; apply Hk; by right).
    destruct (Hk k) as (v & Hm & Hv); [left|]. unfold env_entry. rewrite Hm. cbn [default].
    assert (str_is_empty v = false) as -> by (by destruct v). cbn [unlines foldr].
    by rewrite !string_app_assoc.
Qed.

Lemma parse_env_fold m keys acc k :
  clean_env m -> (forall k, k ∈ keys -> is_Some (m !! k)) ->
  (k ∈ keys \/ acc !! k = m !! k) ->
  (forall k, acc !! k = None \/ acc !! k = m !! k) ->
  foldl parse_env_line acc ((fun k => k +:+ "=" +:+ default EmptyString (m !! k)) <$> keys) !! k = m !! k.
Proof.
  intros Hm. revert acc. induction keys as [|x keys IH]; intros acc Hin Hk Hacc; cbn [fmap list_fmap foldl].
  - destruct Hk as [Hk|Hk]; [by apply not_elem_of_nil in Hk|done].
  - destruct (Hin x) as [v Hx]; [left|]. rewrite Hx. cbn [default]. destruct (Hm x v Hx) as [Hck Hcv].
    rewrite parse_env_line_entry by done. apply IH.
    + intros y Hy. apply Hin. by right.
    + destruct (decide (k = x)) as [->|Hne]; [right; by rewrite lookup_insert_eq|].
      rewrite lookup_insert_ne by done. destruct Hk as [Hk|]; [left|by right]. by apply elem_of_cons in Hk as [->|].
    + intros y. destruct (decide (y = x)) as [->|Hne]; [right; by rewrite lookup_insert_eq|].
      by rewrite lookup_insert_ne.
Qed.

(** ** Theorems *)

(** The environment file keeps the settings: a map of variables whose names and
    values fit on a line, trimmed and not empty, is read back exactly from the file
    that is written for it. *)
Theorem env_file_roundtrip (m : gmap string string) (Hm : clean_env m) :
  parse_env_text (format_env_file m) = m.
Proof.
  set (keys := merge_sort String.le (elements (dom m))).
  assert (Hkeys : forall k, k ∈ keys <-> is_Some (m !! k)).
  { intros k. unfold keys. rewrite merge_sort_Permutation, elem_of_elements. apply elem_of_dom. }
  unfold format_env_file. fold keys. rewrite format_env_lines.
  2: { intros k [v Hv]%Hkeys. exists v. split; [done|]. apply (Hm k v Hv). }
  set (body := _ <$> keys).
  assert (Hl : str_lines (ENV_HEADER +:+ unlines body)
    = "# Managed by BSDM Admin Console — do not edit while proxy is running"%string :: body).
  { change (ENV_HEADER +:+ unlines body) with
      (unlines ("# Managed by BSDM Admin Console — do not edit while proxy is running"%string :: body)).
    apply str_lines_unlines. cbn [forallb]. apply andb_true_iff. split; [reflexivity|].
    apply forallb_forall. intros l Hin. apply list_elem_of_In, list_elem_of_fmap in Hin as (k & -> & [v Hv]%Hkeys).
    rewrite Hv. cbn [default]. destruct (Hm k v Hv) as [(_ & Hk & _) (_ & Hv' & _)].
    unfold one_line in *. rewrite all_chars_app, Hk. exact Hv'. }
  unfold parse_env_text. rewrite Hl. cbn [foldl].
  change (parse_env_line ∅ "# Managed by BSDM Admin Console — do not edit while proxy is running"%string)
    with (∅ : gmap string string).
  apply map_eq. intros k. apply parse_env_fold; [done|intros x; apply Hkeys| |intros x; left; apply lookup_empty].
  destruct (m !! k) as [v|] eqn:Hv; [|right; by rewrite lookup_empty]. left. apply Hkeys. by eexists.
Qed.

(** Secrets do not leave: in the map the console reads, every value whose name
    carries one of the markers is hidden, and every other one is shown as it is. *)
Theorem masked_env_exact (m : gmap string string) (k : string) :
  mask_env_map m !! k
  = (fun v => if existsb (fun marker => str_contains (to_ascii_uppercase k) marker) SECRET_MARKERS
                 && negb (str_is_empty v) then "***"%string else v) <$> m !! k.
Proof. unfold mask_env_map. rewrite map_lookup_imap. by destruct (m !! k). Qed.

(** A value with a line break sets another variable (a defect). *)
Example line_break_sets_another_variable :
  parse_env_text (format_env_file {["NOTE"%string := "x" +:+ nl +:+ "CONTROL_API_TOKEN=known"]})
    !! "CONTROL_API_TOKEN"%string = Some "known"%string.
Proof. vm_compute. reflexivity. Qed.

Lemma env_file_roundtrip_witness :
  parse_env_text (format_env_file {["HTTP_PORT"%string := "1488"%string; "NAME"%string := " a = b"%string]})
  = {["HTTP_PORT"%string := "1488"%string; "NAME"%string := " a = b"%string]}.
Proof.
  apply env_file_roundtrip. intros k v Hk.
  apply lookup_insert_Some in Hk as [(<- & <-)|(_ & Hk)]; [repeat split; discriminate || reflexivity|].
  apply lookup_singleton_Some in Hk as [<- <-]. repeat split; discriminate || reflexivity.
Defined.
