(* ===== verification/AgentApi.v ===== *)
(** * The agent contract (src/proxy/src/agent_api.rs)

    The handlers of the control plane that agents and the console use for devices:
    policy, enrolment, heartbeats, events, revocation, the revocation list and the
    status responder, over the registry of Devices, the list of AgentCrl and the hub
    and ring of AgentPolicy.

    serde_json is [AgentJson]; signing with the CA is [CertAuthority]; clocks, random
    bytes, the outcomes of writes and the outcome of a long poll are [AgentInputs]. *)

From Stdlib Require Import Ascii String NArith Lia.
From stdpp Require Import base option gmap sets strings pretty numbers list.
From S2P Require Import Prelude CacheDigest AclApi SemanticCache Devices AgentCrl Pinning AgentPolicy.

Record AgentState := {
  ag_trust : Trust;
  ag_ingest : AgentEventIngestor;
  ag_hub : PolicyHub;
}.

Definition set_trust (t : Trust) (s : AgentState) : AgentState :=
  {| ag_trust := t; ag_ingest := ag_ingest s; ag_hub := ag_hub s |}.

Record EnrollDto := {
  ed_device_id : option string;
  ed_platform : string;
  ed_name : option string;
  ed_user_identity : option string;
  ed_capabilities : list string;
  ed_device_type : option string;
  ed_csr_pem : option string;
  ed_cert_validity_days : option N;
}.

Class AgentJson := {
  heartbeat_of_json : string -> result HeartbeatUpdate string;
  batch_of_json : string -> result AgentEventBatch string;
  enroll_of_json : string -> result EnrollDto string;
  push_of_json : string -> option (option string * option string);
}.

Record AgentClientCert := {
  cc_client_cert_pem : string;
  cc_ca_cert_pem : string;
  cc_subject : string;
  cc_fingerprint_sha256 : string;
  cc_serial_hex : string;
  cc_not_after_unix : N;
  cc_validity_days : N;
}.

(** The CA, when one is loaded. *)
Record CertAuthority := {
  ca_sign_agent_client_csr : string -> string -> option string -> string -> N -> result AgentClientCert string;
  ca_sign_agent_crl_pem : list (string * N) -> N -> result string string;
  ca_parses : result unit string;
}.

Record AgentInputs := {
  in_now : N;
  in_clock : nat -> N;
  in_pinning_now : N;
  in_hint : string;
  in_random : string;
  in_io : bool;
  in_crl_io : bool;
  in_fresh : nat -> N * string;
  in_watch : PolicySnapshot * bool;
}.

Inductive OcspResponseStatus := MalformedRequest | InternalError.

Inductive AgentBody :=
  | BError (msg : string)
  | BPolicy (doc : json)
  | BWatch (doc : json) (changed : bool)
  | BStream (doc : json)
  | BPushed (snap : PolicySnapshot)
  | BAcknowledged (persisted : bool)
  | BRows (rows : list ApiRow)
  | BRevoked (id : string) (persisted crl_added : bool) (fingerprint : option string)
  | BCrl (number count : N) (entries : list CrlEntry)
  | BCrlPem (pem : string)
  | BOcspStatus (status : OcspStatusResponse)
  | BOcspDer (der : string)
  | BOcspError (status : OcspResponseStatus)
  | BAccepted (accepted enqueued : N)
  | BRecent (events : list RecentAgentEvent)
  | BEnrolled (e : EnrollResult) (cert : option AgentClientCert)
  | BDeprecated (successor : string) (body : AgentBody).

Abbreviation AgentResponse := (N * AgentBody)%type.

Inductive HttpMethod := MGet | MPost | MPut | MDelete | MOptions | MOther.

#[export] Instance HttpMethod_eq_dec : EqDecision HttpMethod.
Proof. solve_decision. Defined.

(** *** Queries *)

(** The pairs of a query that have an [=]. *)
Definition query_pairs (query : option string) : list (string * string) :=
  match query with
  | None => []
  | Some q => omap (split_once "=") (split_on "&" q)
  end.

(** The last value of a name that is not empty. *)
Definition query_value (name : string) (pairs : list (string * string)) : option string :=
  foldl (fun acc '(k, v) => if String.eqb k name && negb (str_is_empty v) then Some v else acc) None pairs.

(** [v.replace("%2F", "/")]. *)
Fixpoint decode_slashes (s : string) : string :=
  match s with
  | EmptyString => EmptyString
  | String c rest =>
      match rest with
      | String c1 (String c2 rest') =>
          if Ascii.eqb c "%" && Ascii.eqb c1 "2" && Ascii.eqb c2 "F" then String "/" (decode_slashes rest')
          else String c (decode_slashes rest)
      | _ => String c (decode_slashes rest)
      end
  end.

Section api.
Context {SH : Sha256} {B64 : Base64} {SJ : SerdeJson} {DJ : DeviceJson} {CJ : CrlJson} {MO : MapOrder}
  {OC : OcspCodec} {AJ : AgentJson}.
Context (fate : N -> Fate) (env : Env) (ca : option CertAuthority) (pinning : PinningRegistry) (inp : AgentInputs).

Definition set_registry (reg : DeviceRegistry) (r : RedisDb) (s : AgentState) : AgentState :=
  set_trust {| tr_crl := tr_crl (ag_trust s); tr_devices := reg; tr_redis := r |} s.

Definition set_crl (c : AgentCrl) (r : RedisDb) (s : AgentState) : AgentState :=
  set_trust {| tr_crl := c; tr_devices := tr_devices (ag_trust s); tr_redis := r |} s.

Definition agent_policy (s : AgentState) : AgentResponse := (200%N, BPolicy (ps_document (hub_state (ag_hub s)))).

(** The time-out only bounds the wait, whose outcome is an input. *)
Definition agent_policy_watch (query : option string) (s : AgentState) : AgentResponse :=
  let since := query_value "since" (query_pairs query) in
  let snap := hub_state (ag_hub s) in
  let '(snap, news) := if version_changed since snap then (snap, true) else in_watch inp in
  (200%N, BWatch (json_set "timeout" (JBool (negb news)) (json_set "changed" (JBool news) (ps_document snap))) news).

Definition agent_policy_stream (s : AgentState) : AgentResponse :=
  (200%N, BStream (ps_document (hub_state (ag_hub s)))).

Definition agent_policy_push (body : string) (s : AgentState) : AgentState * AgentResponse :=
  let '(reason, _) := default (None, None) (push_of_json body) in
  let reason := default "manual-push" (non_blank reason) in
  let hub := publish_from_runtime env (in_pinning_now inp) (in_now inp) (in_now inp) (in_now inp) pinning reason (ag_hub s) in
  ({| ag_trust := ag_trust s; ag_ingest := ag_ingest s; ag_hub := hub |}, (200%N, BPushed (hub_state hub))).

Definition heartbeat_error_message (e : HeartbeatError) : string :=
  match e with
  | HbEmptyDeviceId => "device_id must not be empty"
  | InvalidTrustScore => "trust_score must be between 0 and 100"
  end.

Definition agent_heartbeat (body : string) (s : AgentState) : AgentState * AgentResponse :=
  match heartbeat_of_json body with
  | Err e => (s, (400%N, BError ("invalid heartbeat payload: " +:+ escape_json e)))
  | Ok hb =>
      let '(reg, r, res) :=
        apply_heartbeat fate (in_now inp) (in_io inp) hb (tr_devices (ag_trust s)) (tr_redis (ag_trust s)) in
      (set_registry reg r s,
       match res with
       | Ok persisted => (200%N, BAcknowledged persisted)
       | Err e => (400%N, BError (heartbeat_error_message e))
       end)
  end.

Definition registered_devices (s : AgentState) : AgentState * AgentResponse :=
  let '(reg, r, rows) := list_api_rows fate (tr_devices (ag_trust s)) (tr_redis (ag_trust s)) in
  (set_registry reg r s, (200%N, BRows rows)).

Definition revoke_device (id : string) (s : AgentState) : AgentState * AgentResponse :=
  let '(reg, r, res) := revoke fate (in_io inp) id (tr_devices (ag_trust s)) (tr_redis (ag_trust s)) in
  let s := set_registry reg r s in
  match res with
  | Err InvalidId => (s, (400%N, BError "invalid device id"))
  | Err RevokeNotFound => (s, (404%N, BError "device not found"))
  | Ok (persisted, fingerprint, serial) =>
      let '(c, r, crl_added) :=
        crl_revoke fate (in_now inp) (in_crl_io inp) id fingerprint serial "cessationOfOperation"
          (tr_crl (ag_trust s)) (tr_redis (ag_trust s)) in
      (set_crl c r s, (200%N, BRevoked id persisted crl_added fingerprint))
  end.

Definition agent_crl_json (s : AgentState) : AgentState * AgentResponse :=
  let '(c, r, (number, count, es)) := to_json_document fate (tr_crl (ag_trust s)) (tr_redis (ag_trust s)) in
  (set_crl c r s, (200%N, BCrl number count es)).

Definition agent_ocsp_der (body : string) (s : AgentState) : AgentState * AgentResponse :=
  match ca with
  | None => (s, (200%N, BOcspError InternalError))
  | Some ca =>
      let '(t, res) := respond_der fate (in_clock inp) (in_now inp) (in_now inp) (ca_parses ca) body (ag_trust s) in
      (set_trust t s,
       match res with
       | Ok der => (200%N, BOcspDer der)
       | Err _ => (200%N, BOcspError MalformedRequest)
       end)
  end.

Definition agent_ocsp_der_get (query : option string) (s : AgentState) : AgentState * AgentResponse :=
  match query_value "b64" (query_pairs query) with
  | None => (s, (400%N, BError "GET /api/v1/agent/ocsp requires ?b64= (base64 OCSP request); prefer POST"))
  | Some b64 =>
      match decode_b64_request b64 with
      | Ok der => agent_ocsp_der der s
      | Err e => (s, (400%N, BError e))
      end
  end.

Definition agent_ocsp_status (query : option string) (s : AgentState) : AgentState * AgentResponse :=
  let pairs := (fun '(k, v) => (k, decode_slashes v)) <$> query_pairs query in
  let '(t, res) := check_status fate (in_now inp) (query_value "fingerprint" pairs) (query_value "serial" pairs) (ag_trust s) in
  (set_trust t s,
   match res with
   | Ok status => (200%N, BOcspStatus status)
   | Err e => (400%N, BError e)
   end).

Definition agent_crl_pem (s : AgentState) : AgentState * AgentResponse :=
  match ca with
  | None => (s, (503%N, BError "CA not loaded; cannot sign X.509 CRL (use GET /api/v1/agent/crl JSON)"))
  | Some ca =>
      let '(c, r, es) := crl_list fate (tr_crl (ag_trust s)) (tr_redis (ag_trust s)) in
      let revoked := omap (fun e => (fun s => (s, ce_revoked_at e)) <$> ce_serial_hex e) es in
      (set_crl c r s,
       match ca_sign_agent_crl_pem ca revoked (crl_number c) with
       | Ok pem => (200%N, BCrlPem pem)
       | Err e => (400%N, BError ("X.509 CRL sign failed: " +:+ e))
       end)
  end.

Definition agent_events_ingest (body : string) (s : AgentState) : AgentState * AgentResponse :=
  match batch_of_json body with
  | Err e => (s, (400%N, BError ("invalid events payload: " +:+ escape_json e)))
  | Ok batch =>
      let '(g, res) := ingest (in_fresh inp) batch (ag_ingest s) in
      ({| ag_trust := ag_trust s; ag_ingest := g; ag_hub := ag_hub s |},
       match res with
       | Ok (accepted, enqueued) => (200%N, BAccepted accepted enqueued)
       | Err e => (400%N, BError (batch_error_message e))
       end)
  end.

Definition agent_events_recent (s : AgentState) : AgentResponse := (200%N, BRecent (recent_snapshot 50 (ag_ingest s))).

Definition enroll_error_message (e : EnrollError) : string :=
  match e with
  | InvalidPlatform => "platform must be linux|macos|windows"
  | EnrollEmptyDeviceId => "device_id must not be empty when provided"
  | EnrollRevoked => "device is revoked; clear revoke before re-enroll"
  end.

(** The certificate of a CSR: none without one, or the refusal. *)
Definition sign_enrolment (hint : string) (dto : EnrollDto) : result (option AgentClientCert) AgentResponse :=
  match trimmed (ed_csr_pem dto) with
  | None => Ok None
  | Some csr =>
      match ca with
      | None => Err (503%N, BError "CSR provided but CA not loaded on control plane")
      | Some ca =>
          match ca_sign_agent_client_csr ca csr hint (ed_user_identity dto) (ed_platform dto)
                  (default 90%N (ed_cert_validity_days dto)) with
          | Ok signed => Ok (Some signed)
          | Err e => Err (400%N, BError ("CSR sign failed: " +:+ e))
          end
      end
  end.

Definition agent_enroll (body : string) (s : AgentState) : AgentState * AgentResponse :=
  match enroll_of_json body with
  | Err e => (s, (400%N, BError ("invalid enroll payload: " +:+ escape_json e)))
  | Ok dto =>
      let hint := default ("dev-" +:+ hex_encode (in_hint inp)) (non_blank (ed_device_id dto)) in
      match sign_enrolment hint dto with
      | Err refused => (s, refused)
      | Ok cert =>
          let '(reg, r, res) :=
            enroll fate (in_now inp) EmptyString (in_random inp) (in_io inp)
              {| en_device_id := Some hint; en_platform := ed_platform dto; en_name := ed_name dto;
                 en_user_identity := ed_user_identity dto; en_capabilities := ed_capabilities dto;
                 en_device_type := ed_device_type dto; en_cert_subject := cc_subject <$> cert;
                 en_cert_fingerprint := cc_fingerprint_sha256 <$> cert;
                 en_cert_serial := cc_serial_hex <$> cert |}
              (tr_devices (ag_trust s)) (tr_redis (ag_trust s)) in
          (set_registry reg r s,
           match res with
           | Ok e => (200%N, BEnrolled e cert)
           | Err EnrollRevoked => (409%N, BError (enroll_error_message EnrollRevoked))
           | Err e => (400%N, BError (enroll_error_message e))
           end)
      end
  end.

Definition deprecated_agent_alias (successor : string) (r : AgentState * AgentResponse) : AgentState * AgentResponse :=
  (r.1, (r.2.1, BDeprecated successor r.2.2)).

(** [path.strip_prefix("/api/v1/devices/").and_then(|p| p.strip_suffix("/revoke"))]. *)
Definition strip_revoke (path : string) : option string :=
  p ← strip_prefix "/api/v1/devices/" path;
  if ends_with p "/revoke" then Some (substring 0 (String.length p - 7) p) else None.

(** The routes of one method; [None] when the path is not the agents'. *)
Definition dispatch_get (path : string) (query : option string) (s : AgentState) : option (AgentState * AgentResponse) :=
  if String.eqb path "/api/v1/devices" then Some (registered_devices s)
  else if String.eqb path "/api/v1/agent/policy" then Some (s, agent_policy s)
  else if String.eqb path "/api/v1/agent/policy/watch" then Some (s, agent_policy_watch query s)
  else if String.eqb path "/api/v1/agent/policy/stream" then Some (s, agent_policy_stream s)
  else if String.eqb path "/api/v1/agent/events/recent" then Some (s, agent_events_recent s)
  else if String.eqb path "/api/v1/agent/crl" then Some (agent_crl_json s)
  else if String.eqb path "/api/v1/agent/crl.pem" then Some (agent_crl_pem s)
  else if String.eqb path "/api/v1/agent/ocsp/status" then Some (agent_ocsp_status query s)
  else if String.eqb path "/api/v1/agent/ocsp" then Some (agent_ocsp_der_get query s)
  else if String.eqb path "/api/agent/policy" then
    Some (deprecated_agent_alias "/api/v1/agent/policy" (s, agent_policy s))
  else None.

Definition dispatch_post (path body : string) (s : AgentState) : option (AgentState * AgentResponse) :=
  match strip_revoke path with
  | Some id => Some (revoke_device id s)
  | None =>
      if String.eqb path "/api/v1/agent/policy/push" then Some (agent_policy_push body s)
      else if String.eqb path "/api/v1/agent/heartbeat" then Some (agent_heartbeat body s)
      else if String.eqb path "/api/v1/agent/events" then Some (agent_events_ingest body s)
      else if String.eqb path "/api/v1/agent/enroll" then Some (agent_enroll body s)
      else if String.eqb path "/api/v1/agent/ocsp" then Some (agent_ocsp_der body s)
      else if String.eqb path "/api/agent/heartbeat" then
        Some (deprecated_agent_alias "/api/v1/agent/heartbeat" (agent_heartbeat body s))
      else if String.eqb path "/api/agent/events" then
        Some (deprecated_agent_alias "/api/v1/agent/events" (agent_events_ingest body s))
      else if String.eqb path "/api/agent/enroll" then
        Some (deprecated_agent_alias "/api/v1/agent/enroll" (agent_enroll body s))
      else None
  end.

Definition dispatch_agent (m : HttpMethod) (path : string) (query : option string) (body : string) (s : AgentState)
    : option (AgentState * AgentResponse) :=
  match m with
  | MGet => dispatch_get path query s
  | MPost => dispatch_post path body s
  | _ => None
  end.

End api.

(** ** Revocation through the API, on a node of its own *)

Section revocation.
Context {SH : Sha256} {DJ : DeviceJson} {CJ : CrlJson} {MO : MapOrder} {MOL : MapOrderLaws}.
Context (fate : N -> Fate) (inp : AgentInputs).

Lemma status_of_listed f t :
  existsb (by_fingerprint (to_ascii_lowercase f)) (crl_entries (tr_crl t)) = true ->
  status_of (Some f) None t = Revoked.
Proof.
  intros H. unfold status_of, listed. replace (existsb _ _) with true; [done|]. symmetry.
  apply existsb_exists in H as (e & He & Hb). apply existsb_exists. exists e. by rewrite Hb.
Qed.

(** What revoking a device known here does to the registry and to the list. *)
Lemma revoke_device_own id d s :
  own_trust (ag_trust s) -> str_is_empty id || str_contains id "/" = false ->
  reg_devices (tr_devices (ag_trust s)) !! id = Some d ->
  exists persisted added c,
    let s' := (revoke_device fate inp id s).1 in
    (revoke_device fate inp id s).2 = (200%N, BRevoked id persisted added (dev_cert_fingerprint d))
    /\ own_trust (ag_trust s')
    /\ reg_devices (tr_devices (ag_trust s')) = <[id := revoked_device d]> (reg_devices (tr_devices (ag_trust s)))
    /\ crl_revoke fate (in_now inp) (in_crl_io inp) id (dev_cert_fingerprint d) (dev_cert_serial d)
         "cessationOfOperation" (tr_crl (ag_trust s)) (tr_redis (ag_trust s)) = (c, tr_redis (ag_trust s), added)
    /\ tr_crl (ag_trust s') = c.
Proof.
  intros [Hc Hr] Hid Hd. unfold revoke_device, revoke. rewrite Hid, Hd, Hd. set (reg1 := with_devices _ _).
  pose proof (persist_locked_devices (in_io inp) reg1) as Hm. pose proof (persist_locked_redis (in_io inp) reg1) as Hn.
  destruct (persist_locked (in_io inp) reg1) as [reg2 b]; simpl in Hm, Hn.
  unfold redis_put_device. rewrite Hn, Hr. cbn [ag_trust set_registry set_trust tr_crl tr_redis].
  destruct (crl_revoke fate _ _ id _ _ _ _ _) as [[c r] added] eqn:E.
  assert (Hcrl : r = tr_redis (ag_trust s) /\ crl_redis c = None).
  { revert E. unfold crl_revoke. destruct (trimmed _); [|by intros [= <- <- _]].
    unfold crl_pull. rewrite Hc. destruct (existsb _ _); [by intros [= <- <- _]|].
    set (c1 := with_entries _ _ _). assert (Hp : crl_redis (crl_persist (in_crl_io inp) c1).1 = None).
    { unfold crl_persist. repeat case_match; done. }
    destruct (crl_persist (in_crl_io inp) c1) as [c2 ok]. unfold redis_put_entry. cbn [fst] in Hp. rewrite Hp.
    by intros [= <- <- _]. }
  destruct Hcrl as [-> Hcr]. eexists _, added, c. split; [done|]. split; [|done]. split; [done|].
  cbn. by rewrite Hn.
Qed.

(** C17: A revoked device is not trusted any more.  On a node of its own, when the API
    revokes a known device whose certificate has a fingerprint, its token is refused
    (unless another device's token has the same digest), its certificate is refused
    by the check against the list, and the responder calls it revoked, in every
    spelling of the fingerprint. *)
Theorem revoked_device_untrusted (s : AgentState) (id f : string) (d : RegisteredDevice)
    (Hown : own_trust (ag_trust s)) (Hid : str_is_empty id || str_contains id "/" = false)
    (Hd : reg_devices (tr_devices (ag_trust s)) !! id = Some d)
    (Hfp : trimmed (dev_cert_fingerprint d) = Some f) :
  let '(s', resp) := revoke_device fate inp id s in
  let t := ag_trust s' in
  resp.1 = 200%N
  /\ (forall token,
       (forall id' d', reg_devices (tr_devices (ag_trust s)) !! id' = Some d' -> id' <> id ->
          dev_token_hash d' <> Some (hash_device_token token)) ->
       (device_token_valid fate token (tr_devices t) (tr_redis t)).2 = false)
  /\ (forall fp', str_is_empty fp' = false -> to_ascii_lowercase fp' = to_ascii_lowercase f ->
       (is_fingerprint_revoked fate fp' (tr_crl t) (tr_redis t)).2 = true)
  /\ (forall now fp' f', trimmed (Some fp') = Some f' -> to_ascii_lowercase f' = to_ascii_lowercase f ->
       exists status, check_status fate now (Some fp') None t = (t, Ok status) /\ os_status status = Revoked).
Proof.
  destruct (revoke_device_own id d s Hown Hid Hd) as (p & added & c & Hresp & Hown' & Hdev & Hcrl & Htc).
  destruct (revoke_device fate inp id s) as [s' resp]. cbn [fst snd] in *. subst resp. split; [done|].
  pose proof (crl_revoke_listed fate (in_now inp) (in_crl_io inp) id (dev_cert_fingerprint d) (dev_cert_serial d)
                "cessationOfOperation" (tr_crl (ag_trust s)) (tr_redis (ag_trust s)) f Hfp) as H.
  rewrite Hcrl in H. destruct H as (_ & Hlist & _). split; [|split].
  - intros token Hother. unfold device_token_valid. destruct (str_is_empty token); [done|].
    rewrite check_device_local by (intros; apply get_indexed_local, Hown'). cbn [snd].
    apply not_true_is_false. rewrite any_device_true. intros (id' & d' & Hl & [Hr%negb_true_iff Ht%field_is_true]%andb_true_iff).
    rewrite Hdev in Hl. apply lookup_insert_Some in Hl as [(<- & <-)|(Hne & Hl)]; [done|]. by apply (Hother id' d').
  - intros fp' Hne Heq. apply is_fingerprint_revoked_listed; [done|]. by rewrite Heq, Htc.
  - intros now fp' f' Htrim Heq. destruct (check_status_own fate now (Some fp') None (ag_trust s') Hown') as (st & Hst & Hs).
    { by rewrite Htrim. }
    exists st. split; [done|]. rewrite Hs, Htrim. apply status_of_listed. by rewrite Heq, Htc.
Qed.

End revocation.

(** ** Instances *)

Module Demo.

#[local] Instance plain_sha : Sha256 := {| sha256 s := s; hex_encode s := s |}.
#[local] Instance plain_order : MapOrder := fun _ m => map_to_list m.
#[local] Instance plain_order_laws : MapOrderLaws.
Proof. by intros A m. Qed.
#[local] Existing Instance Devices.Demo.text_json.
#[local] Existing Instance AgentCrl.Demo.text_crl.

(** The body of an enrolment is its CSR, and the certificate shows it. *)
#[local] Instance csr_json : AgentJson := {|
  heartbeat_of_json _ := Err "no heartbeat"%string;
  batch_of_json _ := Err "no batch"%string;
  enroll_of_json body := Ok {| ed_device_id := Some "laptop"%string; ed_platform := "linux"; ed_name := None;
    ed_user_identity := None; ed_capabilities := []; ed_device_type := None; ed_csr_pem := Some body;
    ed_cert_validity_days := None |};
  push_of_json _ := None;
|}.

Definition authority : CertAuthority := {|
  ca_sign_agent_client_csr csr id _ _ _ :=
    Ok {| cc_client_cert_pem := csr; cc_ca_cert_pem := "ca"; cc_subject := id; cc_fingerprint_sha256 := csr;
          cc_serial_hex := csr; cc_not_after_unix := 0; cc_validity_days := 90 |};
  ca_sign_agent_crl_pem _ _ := Ok "crl"%string;
  ca_parses := Ok tt;
|}.

Definition snapshot : PolicySnapshot :=
  {| ps_version := "v1"; ps_document := JObject []; ps_pushed_at := 0; ps_reason := "startup" |}.

Definition inputs : AgentInputs := {|
  in_now := 10; in_clock _ := 10%N; in_pinning_now := 10; in_hint := "h"; in_random := "a"; in_io := true; in_crl_io := true;
  in_fresh _ := (10%N, "e"%string); in_watch := (snapshot, false) |}.

Definition up : N -> Fate := fun _ => Done.

Definition fresh_state : AgentState := {|
  ag_trust := {| tr_crl := crl_memory_only; tr_devices := memory_only; tr_redis := Devices.Demo.empty_db |};
  ag_ingest := {| ag_recent := []; ag_pipeline := false; ag_enqueued := [] |};
  ag_hub := {| hub_state := snapshot; hub_seq := 0 |} |}.

Definition enrolled : AgentState := (agent_enroll up (Some authority) inputs "AB01" fresh_state).1.
Definition reenrolled : AgentState := (agent_enroll up (Some authority) inputs "CD02" enrolled).1.

Definition demo_record : RegisteredDevice :=
  enrolled_device 10 "laptop" "linux" "bsdmagent_a"
    {| en_device_id := Some "laptop"%string; en_platform := "linux"; en_name := None; en_user_identity := None;
       en_capabilities := []; en_device_type := None; en_cert_subject := Some "laptop"%string;
       en_cert_fingerprint := Some "AB01"%string; en_cert_serial := Some "AB01"%string |} None.

Lemma revoked_device_untrusted_witness :
  let '(s', resp) := revoke_device up inputs "laptop" enrolled in
  let t := ag_trust s' in
  resp.1 = 200%N /\ (device_token_valid up "bsdmagent_a" (tr_devices t) (tr_redis t)).2 = false
  /\ (is_fingerprint_revoked up "aB01" (tr_crl t) (tr_redis t)).2 = true.
Proof.
  pose proof (revoked_device_untrusted up inputs enrolled "laptop" "AB01" demo_record
    ltac:(split; reflexivity) ltac:(reflexivity) ltac:(vm_compute; reflexivity) ltac:(reflexivity)) as H.
  destruct (revoke_device up inputs "laptop" enrolled) as [s' resp]. destruct H as (H1 & H2 & H3 & _).
  split; [exact H1|]. split; [|apply H3; reflexivity]. apply H2. intros id' d' Hl Hne. exfalso.
  assert (Hs : reg_devices (tr_devices (ag_trust enrolled)) = {["laptop"%string := demo_record]}) by (vm_compute; reflexivity).
  rewrite Hs in Hl. apply lookup_singleton_Some in Hl as [<- _]. by apply Hne.
Defined.

(** The certificate of an earlier enrolment survives revocation (a defect): only the
    last one is listed, and the responder does not know the one before it. *)
Example superseded_certificate_survives :
  let t := ag_trust (revoke_device up inputs "laptop" reenrolled).1 in
  (is_fingerprint_revoked up "CD02" (tr_crl t) (tr_redis t)).2 = true
  /\ (is_fingerprint_revoked up "AB01" (tr_crl t) (tr_redis t)).2 = false
  /\ match (check_status up 11 (Some "AB01"%string) None t).2 with
     | Ok st => os_status st = Unknown
     | Err _ => False
     end.
Proof. vm_compute. repeat split. Qed.

End Demo.
