(* ===== verification/Tls.v ===== *)
(** * Certificates (src/proxy/src/tls.rs, src/proxy/src/control_mtls.rs)

    The proxy's CA: leaves for intercepted domains with their two caches, the
    certificates of agents, the signed revocation list, and the configuration of the
    mutual-TLS port.  rcgen, rustls, chrono and the DER code are classes.  The lookups
    of [server_config_for_domain] are a program over single uses of the locked maps,
    since many connections run it at once. *)

From Stdlib Require Import Ascii String NArith ZArith Lia.
From stdpp Require Import base option gmap strings pretty numbers list relations.
From S2P Require Import Prelude Bytes Utf8 CacheDigest AgentCrl AgentApi Effects.

Local Open Scope rust_scope.

(** ** Certificates to be *)

Inductive DnType := CommonName | OrganizationName | OrganizationalUnitName.
Inductive SanType := DnsName (s : string) | IpAddress (s : string) | Rfc822Name (s : string) | SanUri (s : string).
Inductive KeyUsage := KeyCertSign | DigitalSignature | CrlSign | KeyEncipherment.
Inductive ExtendedKeyUsage := ServerAuth | ClientAuth.
Inductive IsCa := NoCa | CaUnconstrained.

(** Year, month and day; a certificate's date means its midnight. *)
Record Date := { dt_year : Z; dt_month : N; dt_day : N }.

Record CertificateParams := {
  cp_sans : list SanType;
  cp_dn : list (DnType * string);
  cp_key_usages : list KeyUsage;
  cp_ext_key_usages : list ExtendedKeyUsage;
  cp_is_ca : IsCa;
  cp_serial : option N;
  (** from and until; rcgen has dates of its own when there are none *)
  cp_validity : option (Date * Date);
}.

Record RevokedCert := {
  rc_serial : string;
  rc_time : Date;
}.

Record CrlParams := {
  cl_this_update : Date;
  cl_next_update : Date;
  cl_number : N;
  cl_revoked : list RevokedCert;
}.

(** Certificates, keys and revocation lists are their DER; a PEM text is a string. *)
Class Rcgen := {
  KeyPair : Type;
  PublicKey : Type;
  Issuer : Type;
  key_from_pem : string -> result KeyPair string;
  key_to_pem : KeyPair -> string;
  public_key : KeyPair -> PublicKey;
  (** [CertificateParams::new]: a name as a domain or an address *)
  san_of : string -> result SanType string;
  ia5 : string -> result string string;
  csr_from_pem : string -> result PublicKey string;
  issuer_from_params : CertificateParams -> KeyPair -> Issuer;
  issuer_from_pem : string -> KeyPair -> result Issuer string;
  signed_by : CertificateParams -> PublicKey -> Issuer -> result string string;
  self_signed : CertificateParams -> KeyPair -> result string string;
  cert_to_pem : string -> string;
  crl_signed_by : CrlParams -> Issuer -> result string string;
  crl_to_pem : string -> result string string;
  hex_decode : string -> result string string;
}.

Class Rustls := {
  pem_certs : string -> result (list string) string;
  pem_private_key : string -> result (option string) string;
  (** a chain, a key and a staple that fit together *)
  single_cert : list string -> string -> option string -> result unit string;
  root_add : string -> result unit string;
  client_verifier : list string -> result unit string;
  (** the serial of the first certificate of a PEM text, in hex *)
  leaf_serial : string -> result string string;
  ca_certificate : string -> result unit string;
}.

(** UTC days of a time in seconds; the times chrono can hold. *)
Class Chrono := {
  utc_date : Z -> Date;
  from_timestamp : Z -> option Z;
}.

Record ServerConfig := {
  sc_chain : list string;
  sc_key : string;
  sc_ocsp : option string;
  sc_client_roots : option (list string);
  sc_alpn : list string;
}.

Record CachedServerConfig := {
  cs_config : ServerConfig;
  cs_stapled_at : N;
}.

(** ** Settings *)

Definition ocsp_stapling_enabled (env : Env) : bool :=
  match env "TLS_OCSP_STAPLING"%string with
  | Some v =>
      let t := trim v in
      negb (String.eqb t "0" || eq_ignore_ascii_case t "false" || eq_ignore_ascii_case t "no"
            || eq_ignore_ascii_case t "off")
  | None => true
  end.

Definition ocsp_staple_refresh_secs (env : Env) : N :=
  N.min (N.max (default 900%N (env "TLS_OCSP_STAPLE_REFRESH_SECS"%string ≫= parse_u64)) 60) (24 * 3600).

Definition STAPLE_NEXT_UPDATE_SECS : N := 3600.

Section tls.
Context {RG : Rcgen} {RL : Rustls} {CH : Chrono} {OC : OcspCodec} {SH : Sha256}.

(** The CA; its caches are the maps of the commands below. *)
Record CertCache := {
  cc_ca_key : KeyPair;
  cc_ca_pem : string;
  cc_in_memory_ca_params : option CertificateParams;
}.

(** ** The CA *)

Definition in_memory_ca_params : result CertificateParams string :=
  let? san := san_of "BSDM Proxy CA" in
  Ok {| cp_sans := [san]; cp_dn := [(CommonName, "BSDM Proxy CA"%string)];
        cp_key_usages := [KeyCertSign; DigitalSignature; CrlSign]; cp_ext_key_usages := [];
        cp_is_ca := CaUnconstrained; cp_serial := None; cp_validity := None |}.

Definition CertCache_from_pem (ca_key_pem ca_cert_pem : string) : result CertCache string :=
  let? ca_key := key_from_pem (from_utf8_lossy ca_key_pem) in
  if str_is_empty ca_cert_pem then
    let? params := in_memory_ca_params in
    let? der := self_signed params ca_key in
    Ok {| cc_ca_key := ca_key; cc_ca_pem := cert_to_pem der; cc_in_memory_ca_params := Some params |}
  else Ok {| cc_ca_key := ca_key; cc_ca_pem := ca_cert_pem; cc_in_memory_ca_params := None |}.

(** [files]: what reading a path gives; [fresh]: [KeyPair::generate]. *)
Definition read_ca_file (files : string -> result string string) (name : string) : result string string :=
  match files ("/certs/" +:+ name) with
  | Ok x => Ok x
  | Err _ => files ("./certs/" +:+ name)
  end.

Definition read_ca_cert (files : string -> result string string) : string :=
  match read_ca_file files "ca.crt" with Ok x => x | Err _ => EmptyString end.

Definition load_for_startup (files : string -> result string string) (fresh : result KeyPair string)
    (mitm_enabled : bool) : result CertCache string :=
  match read_ca_file files "ca.key" with
  | Ok ca_key => CertCache_from_pem ca_key (read_ca_cert files)
  | Err e =>
      if mitm_enabled then
        Err ("MITM enabled but CA key not found at /certs/ca.key or ./certs/ca.key: " +:+ e)
      else
        let? key_pair := fresh in
        CertCache_from_pem (key_to_pem key_pair) EmptyString
  end.

Definition issuer (cc : CertCache) : result Issuer string :=
  match cc_in_memory_ca_params cc with
  | Some params => Ok (issuer_from_params params (cc_ca_key cc))
  | None => issuer_from_pem (from_utf8_lossy (cc_ca_pem cc)) (cc_ca_key cc)
  end.

(** ** Leaves *)

(** The certificate of a server name; [organization] and the extended usages are what
    the two kinds differ in. *)
Definition server_params (organization : string) (usages : list ExtendedKeyUsage) (name : string) (san : SanType)
    : CertificateParams := {|
  cp_sans := [san]; cp_dn := [(CommonName, name); (OrganizationName, organization)];
  cp_key_usages := [DigitalSignature; KeyEncipherment]; cp_ext_key_usages := usages; cp_is_ca := NoCa;
  cp_serial := None; cp_validity := None |}.

(** The certificate and key of a name, in PEM. *)
Definition issue_server (cc : CertCache) (organization : string) (usages : list ExtendedKeyUsage) (name : string)
    (key_pair : KeyPair) : result (string * string) string :=
  let? san := san_of name in
  let? iss := issuer cc in
  let? der := signed_by (server_params organization usages name san) (public_key key_pair) iss in
  Ok (cert_to_pem der, key_to_pem key_pair).

Definition map_err {A} (label : string) (r : result A string) : result A string :=
  match r with Ok a => Ok a | Err e => Err (label +:+ ": " +:+ e) end.

Definition server_identity_pem (cc : CertCache) (fresh : result KeyPair string) (name : string)
    : result (string * string) string :=
  let? key_pair := map_err "server key" fresh in
  let? san := map_err "params" (san_of name) in
  let? iss := map_err "issuer" (issuer cc) in
  let? der := map_err "sign server leaf"
    (signed_by (server_params "BSDM Control" [ServerAuth] name san) (public_key key_pair) iss) in
  Ok (cert_to_pem der, key_to_pem key_pair).

Definition parse_private_key (pem : string) : result string string :=
  let? key := pem_private_key pem in
  match key with Some k => Ok k | None => Err "no private key found in PEM"%string end.

Definition build_server_config (cert_pem key_pem ca_cert_pem : string) (ocsp_der : option string)
    : result ServerConfig string :=
  let? leaf := pem_certs cert_pem in
  let? ca := pem_certs ca_cert_pem in
  let chain := leaf ++ ca in
  let? key := parse_private_key key_pem in
  let ocsp := match ocsp_der with Some o => if str_is_empty o then None else Some o | None => None end in
  let? _ := single_cert chain key ocsp in
  Ok {| sc_chain := chain; sc_key := key; sc_ocsp := ocsp; sc_client_roots := None; sc_alpn := [] |}.

(** [agent_ocsp::staple_good_for_leaf_pem]. *)
Definition staple_good_for_leaf_pem (now : N) (cc : CertCache) (leaf_pem : string) : result string string :=
  let? serial := leaf_serial leaf_pem in
  let? _ := ca_certificate (from_utf8_lossy (cc_ca_pem cc)) in
  let? this_update := ocsp_time now in
  let? next_update := ocsp_time (now + STAPLE_NEXT_UPDATE_SECS) in
  sign_basic_response [(serial, CertGood, this_update, next_update)] None.

(** ** The caches of leaves and configurations *)

Inductive CertCmd : Type -> Type :=
| ReadConfig (domain : string) : CertCmd (option CachedServerConfig)
| WriteConfig (domain : string) (entry : CachedServerConfig) : CertCmd unit
| ReadCert (domain : string) : CertCmd (option (string * string))
| WriteCert (domain : string) (leaf : string * string) : CertCmd unit
| GenerateKey : CertCmd (result KeyPair string)
| InstantNow : CertCmd N
| UnixNow : CertCmd N.

Definition get_or_generate (cc : CertCache) (domain : string) : prog CertCmd (result (string * string) string) :=
  cached ← call (ReadCert domain);
  match cached with
  | Some leaf => mret (Ok leaf)
  | None =>
      fresh ← call GenerateKey;
      match fresh with
      | Err e => mret (Err e)
      | Ok key_pair =>
          match issue_server cc "BSDM Proxy" [] domain key_pair with
          | Err e => mret (Err e)
          | Ok leaf => call (WriteCert domain leaf);; mret (Ok leaf)
          end
      end
  end.

(** The entry of the cache, when it is young enough. *)
Definition cached_config (env : Env) (domain : string) : prog CertCmd (option ServerConfig) :=
  entry ← call (ReadConfig domain);
  match entry with
  | None => mret None
  | Some entry =>
      now ← call InstantNow;
      mret (if (as_secs (now - cs_stapled_at entry) <? ocsp_staple_refresh_secs env)%N
            then Some (cs_config entry) else None)
  end.

Definition server_config_for_domain (env : Env) (cc : CertCache) (domain : string)
    : prog CertCmd (result ServerConfig string) :=
  cached ← cached_config env domain;
  match cached with
  | Some config => mret (Ok config)
  | None =>
      leaf ← get_or_generate cc domain;
      match leaf with
      | Err e => mret (Err e)
      | Ok (cert_pem, key_pem) =>
          ocsp ←
            (if ocsp_stapling_enabled env then
               now ← call UnixNow;
               mret match staple_good_for_leaf_pem now cc cert_pem with Ok der => Some der | Err _ => None end
             else mret None);
          match build_server_config cert_pem key_pem (cc_ca_pem cc) ocsp with
          | Err e => mret (Err e)
          | Ok config =>
              now ← call InstantNow;
              call (WriteConfig domain {| cs_config := config; cs_stapled_at := now |});;
              mret (Ok config)
          end
      end
  end.

(** ** Certificates of agents *)

Definition is_blank (s : string) : bool := str_is_empty (trim s).

(** [upn.contains('@')] of a user that is not blank. *)
Definition user_sans (user_identity : option string) : result (list SanType) string :=
  match user_identity with
  | Some upn =>
      if negb (is_blank upn) && str_contains upn "@" then
        let? email := map_err "user_identity email SAN" (ia5 upn) in Ok [Rfc822Name email]
      else Ok []
  | None => Ok []
  end.

(** What the control plane decides of an agent's certificate: all of it but the key.
    [serial] is the random number, [now] the time in seconds. *)
Definition agent_params (device_id : string) (user_identity : option string) (platform : string) (days serial : N)
    (now : Z) : result CertificateParams string :=
  let? users := user_sans user_identity in
  let? uri := map_err "device URI SAN" (ia5 ("urn:bsdm:device:" +:+ device_id)) in
  Ok {| cp_sans := users ++ [SanUri uri];
        cp_dn := [(CommonName, device_id); (OrganizationName, "BSDM Agent"%string); (OrganizationalUnitName, platform)];
        cp_key_usages := [DigitalSignature; KeyEncipherment]; cp_ext_key_usages := [ClientAuth]; cp_is_ca := NoCa;
        cp_serial := Some (N.lor serial 1);
        cp_validity := Some (utc_date (now - 300), utc_date (now + 86400 * Z.of_N days)) |}.

(** [{:016x}]. *)
Fixpoint hex_fixed (digits : nat) (n : N) (acc : string) : string :=
  match digits with
  | O => acc
  | S digits =>
      let d := (n mod 16)%N in
      hex_fixed digits (n / 16) (String (ascii_of_N (if (d <? 10)%N then 48 + d else 87 + d)) acc)
  end.

Definition clamp_days (validity_days : N) : N := N.min (N.max validity_days 1) 825.

Definition sign_agent_client_csr (serial : N) (now : Z) (cc : CertCache) (csr_pem device_id : string)
    (user_identity : option string) (platform : string) (validity_days : N) : result AgentClientCert string :=
  if is_blank device_id then Err "device_id required for client cert"%string
  else
    let? key := map_err "invalid CSR" (csr_from_pem (trim csr_pem)) in
    let days := clamp_days validity_days in
    let? params := agent_params device_id user_identity platform days serial now in
    let? iss := map_err "CA issuer" (issuer cc) in
    let? der := map_err "sign client cert" (signed_by params key iss) in
    Ok {| cc_client_cert_pem := cert_to_pem der; cc_ca_cert_pem := from_utf8_lossy (cc_ca_pem cc);
          cc_subject := "CN=" +:+ device_id +:+ ", OU=" +:+ platform +:+ ", O=BSDM Agent";
          cc_fingerprint_sha256 := hex_encode (sha256 der); cc_serial_hex := hex_fixed 16 (N.lor serial 1) EmptyString;
          cc_not_after_unix := Z.to_N (now + 86400 * Z.of_N days); cc_validity_days := days |}.

(** [u64 as i64]. *)
Definition as_i64 (n : N) : Z := if (n <? 2 ^ 63)%N then Z.of_N n else Z.of_N n - 2 ^ 64.

Fixpoint revoked_certs (now : Z) (revoked : list (string * N)) : result (list RevokedCert) string :=
  match revoked with
  | [] => Ok []
  | (serial_hex, revoked_at) :: revoked =>
      let? serial := map_err ("invalid serial hex " +:+ serial_hex) (hex_decode (trim serial_hex)) in
      let? rest := revoked_certs now revoked in
      Ok (if str_is_empty serial then rest
          else {| rc_serial := serial; rc_time := utc_date (default now (from_timestamp (as_i64 revoked_at))) |} :: rest)
  end.

Definition sign_agent_crl_pem (now : Z) (cc : CertCache) (revoked : list (string * N)) (crl_number : N)
    : result string string :=
  let? certs := revoked_certs now revoked in
  let params := {| cl_this_update := utc_date now; cl_next_update := utc_date (now + 86400 * 7);
                   cl_number := N.max crl_number 1; cl_revoked := certs |} in
  let? iss := map_err "CA issuer" (issuer cc) in
  let? crl := map_err "sign CRL" (crl_signed_by params iss) in
  map_err "CRL PEM" (crl_to_pem crl).

(** What the agent API is given. *)
Definition authority_of (serial : N) (now : Z) (cc : CertCache) : CertAuthority := {|
  ca_sign_agent_client_csr := sign_agent_client_csr serial now cc;
  ca_sign_agent_crl_pem := sign_agent_crl_pem now cc;
  ca_parses := ca_certificate (from_utf8_lossy (cc_ca_pem cc));
|}.

(** ** The mutual-TLS port (control_mtls.rs) *)

Record ControlMtlsConfig := {
  cm_enabled : bool;
  cm_bind : string;
  cm_cert_file : option string;
  cm_key_file : option string;
  cm_client_ca_file : option string;
  cm_server_name : string;
  cm_require_enrolled_fingerprint : bool;
  cm_check_crl : bool;
}.

Definition env_flag (env : Env) (name : string) : bool :=
  match env name with
  | Some v => bool_decide (to_ascii_lowercase v ∈ ["1"; "true"; "yes"]%string)
  | None => false
  end.

Definition mtls_env_path (env : Env) (name : string) : option string :=
  match env name with
  | Some s => if str_is_empty (trim s) then None else Some (trim s)
  | None => None
  end.

Definition ControlMtlsConfig_from_env (env : Env) : ControlMtlsConfig :=
  let enabled := env_flag env "CONTROL_MTLS_ENABLED" in
  {| cm_enabled := enabled;
     cm_bind := default "0.0.0.0:9443"%string (env "CONTROL_MTLS_BIND"%string);
     cm_cert_file := mtls_env_path env "CONTROL_MTLS_CERT_FILE";
     cm_key_file := mtls_env_path env "CONTROL_MTLS_KEY_FILE";
     cm_client_ca_file := mtls_env_path env "CONTROL_MTLS_CLIENT_CA_FILE";
     cm_server_name := default "control.bsdm.local"%string (env "CONTROL_MTLS_SERVER_NAME"%string);
     cm_require_enrolled_fingerprint := env_flag env "CONTROL_MTLS_REQUIRE_ENROLLED";
     cm_check_crl :=
       match env "CONTROL_MTLS_CHECK_CRL"%string with
       | Some _ => env_flag env "CONTROL_MTLS_CHECK_CRL"
       | None => enabled
       end |}.

Definition mtls_validate (c : ControlMtlsConfig) : result unit string :=
  if negb (cm_enabled c) then Ok tt
  else if is_blank (cm_bind c) then Err "CONTROL_MTLS_BIND must not be empty when mTLS enabled"%string
  else if negb (Bool.eqb (present (cm_cert_file c)) (present (cm_key_file c))) then
    Err "CONTROL_MTLS_CERT_FILE and CONTROL_MTLS_KEY_FILE must be set together"%string
  else Ok tt.

(** The first of the two default files that can be read and is not empty. *)
Definition default_ca_file (files : string -> result string string) : option string :=
  let usable path := match files path with Ok x => if str_is_empty x then None else Some x | Err _ => None end in
  match usable "./certs/ca.crt"%string with Some x => Some x | None => usable "/certs/ca.crt"%string end.

Definition load_client_ca_pem (files : string -> result string string) (c : ControlMtlsConfig) (cc : CertCache)
    : result string string :=
  match cm_client_ca_file c with
  | Some path => map_err "read CONTROL_MTLS_CLIENT_CA_FILE" (files path)
  | None =>
      match default_ca_file files with
      | Some x => Ok x
      | None =>
          let pem := from_utf8_lossy (cc_ca_pem cc) in
          if is_blank pem then
            Err "CONTROL_MTLS_CLIENT_CA_FILE unset and no ./certs/ca.crt (or CertCache CA)"%string
          else Ok pem
      end
  end.

Definition mtls_parse_certs (pem : string) : result (list string) string := map_err "parse certs PEM" (pem_certs pem).

Definition mtls_parse_private_key (pem : string) : result string string :=
  let? key := map_err "parse key PEM" (pem_private_key pem) in
  match key with Some k => Ok k | None => Err "no private key in PEM"%string end.

(** The chain, the key and the leaf's PEM. *)
Definition load_server_identity (files : string -> result string string) (fresh : result KeyPair string)
    (c : ControlMtlsConfig) (cc : CertCache) : result (list string * string * string) string :=
  match cm_cert_file c, cm_key_file c with
  | Some cert_path, Some key_path =>
      let? cert_pem := map_err "read CONTROL_MTLS_CERT_FILE" (files cert_path) in
      let? key_pem := map_err "read CONTROL_MTLS_KEY_FILE" (files key_path) in
      let? leaf := mtls_parse_certs cert_pem in
      let? ca :=
        match load_client_ca_pem files c cc with
        | Ok ca => mtls_parse_certs ca
        | Err _ => Ok []
        end in
      let? key := mtls_parse_private_key key_pem in
      Ok (leaf ++ ca, key, cert_pem)
  | _, _ =>
      let? made := map_err "generate control mTLS server identity" (server_identity_pem cc fresh (cm_server_name c)) in
      let? leaf := mtls_parse_certs made.1 in
      let? ca := mtls_parse_certs (from_utf8_lossy (cc_ca_pem cc)) in
      let? key := mtls_parse_private_key made.2 in
      Ok (leaf ++ ca, key, made.1)
  end.

Fixpoint add_roots (ders : list string) : result (list string) string :=
  match ders with
  | [] => Ok []
  | der :: ders =>
      let? _ := map_err "add client CA to trust store" (root_add der) in
      let? rest := add_roots ders in
      Ok (der :: rest)
  end.

Definition build_mtls_server_config (env : Env) (files : string -> result string string) (fresh : result KeyPair string)
    (now : N) (cc : CertCache) (c : ControlMtlsConfig) : result ServerConfig string :=
  let? _ := mtls_validate c in
  let? client_ca_pem := load_client_ca_pem files c cc in
  let? ca_certs := mtls_parse_certs client_ca_pem in
  let? roots := add_roots ca_certs in
  if bool_decide (roots = []) then Err "client CA trust store is empty"%string
  else
    let? _ := map_err "client cert verifier" (client_verifier roots) in
    let? identity := load_server_identity files fresh c cc in
    let ocsp :=
      if ocsp_stapling_enabled env then
        match staple_good_for_leaf_pem now cc identity.2 with Ok der => Some der | Err _ => None end
      else None in
    let? _ := map_err "server config" (single_cert identity.1.1 identity.1.2 ocsp) in
    Ok {| sc_chain := identity.1.1; sc_key := identity.1.2; sc_ocsp := ocsp; sc_client_roots := Some roots;
          sc_alpn := ["http/1.1"%string] |}.

End tls.

(** ** The caches under concurrency *)

Section caches.
Context {RG : Rcgen} {RL : Rustls} {OC : OcspCodec}.
Context (env : Env) (cc : CertCache).

Record Caches := {
  ca_certs : gmap string (string * string);
  ca_configs : gmap string CachedServerConfig;
}.

(** What a command may do to the maps and answer; keys and clocks are anything. *)
Definition cert_react (X : Type) (c : CertCmd X) (w w' : Caches) : X -> Prop :=
  match c in CertCmd X return X -> Prop with
  | ReadConfig d => fun x => w' = w /\ x = ca_configs w !! d
  | WriteConfig d e => fun _ => w' = {| ca_certs := ca_certs w; ca_configs := <[d := e]> (ca_configs w) |}
  | ReadCert d => fun x => w' = w /\ x = ca_certs w !! d
  | WriteCert d l => fun _ => w' = {| ca_certs := <[d := l]> (ca_certs w); ca_configs := ca_configs w |}
  | GenerateKey => fun _ => w' = w
  | InstantNow => fun _ => w' = w
  | UnixNow => fun _ => w' = w
  end.

(** A leaf the CA issued for a domain. *)
Definition issued_for (domain : string) (leaf : string * string) : Prop :=
  exists key_pair, issue_server cc "BSDM Proxy" [] domain key_pair = Ok leaf.

(** A configuration that presents a leaf of the domain, with its key, under the CA,
    and staples nothing but a good answer for that leaf. *)
Definition serves (domain : string) (config : ServerConfig) : Prop :=
  exists cert_pem key_pem leaf ca,
    issued_for domain (cert_pem, key_pem) /\ pem_certs cert_pem = Ok leaf /\ pem_certs (cc_ca_pem cc) = Ok ca /\
    sc_chain config = leaf ++ ca /\ parse_private_key key_pem = Ok (sc_key config) /\
    forall der, sc_ocsp config = Some der -> exists now, staple_good_for_leaf_pem now cc cert_pem = Ok der.

Definition caches_ok (w : Caches) : Prop :=
  (forall d leaf, ca_certs w !! d = Some leaf -> issued_for d leaf) /\
  (forall d entry, ca_configs w !! d = Some entry -> serves d (cs_config entry)).

(** What a call may write, and what it may rely on when it reads. *)
Definition cert_writes (X : Type) (c : CertCmd X) : Prop :=
  match c with
  | WriteConfig d e => serves d (cs_config e)
  | WriteCert d leaf => issued_for d leaf
  | _ => True
  end.

Definition cert_reads (X : Type) (c : CertCmd X) : X -> Prop :=
  match c in CertCmd X return X -> Prop with
  | ReadConfig d => fun x => forall e, x = Some e -> serves d (cs_config e)
  | ReadCert d => fun x => forall leaf, x = Some leaf -> issued_for d leaf
  | _ => fun _ => True
  end.

Lemma cert_react_ok X (c : CertCmd X) w w' x :
  caches_ok w -> cert_writes X c -> cert_react X c w w' x -> caches_ok w' /\ cert_reads X c x.
Proof.
  intros [Hc Hs] Hw Hr. destruct c; cbn in *; destruct_and?; subst;
    (split; [|by (done || intros; eauto)]); split; cbn; try done.
  - intros d e [[<- <-]|[_ H]]%lookup_insert_Some; [done|by apply Hs].
  - intros d l [[<- <-]|[_ H]]%lookup_insert_Some; [done|by apply Hc].
Qed.

Abbreviation sound := (abides cert_writes cert_reads).

Lemma get_or_generate_sound domain :
  sound (fun r => forall leaf, r = Ok leaf -> issued_for domain leaf) (get_or_generate cc domain).
Proof.
  unfold get_or_generate. eapply abides_bind; [by apply abides_call; [done|intros x Hx; exact Hx]|].
  intros [leaf|] Hl; [apply abides_ret; intros l [= <-]; by apply Hl|].
  eapply (abides_bind _ _ (fun _ => True)); [by apply abides_call|]. intros [key_pair|e] _; [|by apply abides_ret].
  destruct (issue_server cc "BSDM Proxy" [] domain key_pair) as [leaf|e] eqn:Ei; [|by apply abides_ret].
  eapply (abides_bind _ _ (fun _ => True)); [apply abides_call; [by exists key_pair|done]|]. intros _ _.
  apply abides_ret. intros l [= <-]. by exists key_pair.
Qed.

Lemma build_server_config_serves domain cert_pem key_pem ocsp config :
  issued_for domain (cert_pem, key_pem) ->
  (forall der, ocsp = Some der -> exists now, staple_good_for_leaf_pem now cc cert_pem = Ok der) ->
  build_server_config cert_pem key_pem (cc_ca_pem cc) ocsp = Ok config -> serves domain config.
Proof.
  intros Hi Ho. unfold build_server_config. destruct (pem_certs cert_pem) as [leaf|] eqn:El; [|done]. cbn.
  destruct (pem_certs (cc_ca_pem cc)) as [ca|] eqn:Ec; [|done]. cbn.
  destruct (parse_private_key key_pem) as [key|] eqn:Ek; [|done]. cbn. destruct (single_cert _ _ _); [|done].
  intros [= <-]. exists cert_pem, key_pem, leaf, ca. split_and!; try done. cbn. intros der H. apply Ho.
  destruct ocsp as [o|]; [|done]. by destruct (str_is_empty o).
Qed.

Lemma server_config_sound domain :
  sound (fun r => forall config, r = Ok config -> serves domain config) (server_config_for_domain env cc domain).
Proof.
  unfold server_config_for_domain.
  eapply (abides_bind _ _ (fun r => forall config, r = Some config -> serves domain config)).
  { unfold cached_config. eapply abides_bind; [by apply abides_call; [done|intros x Hx; exact Hx]|].
    intros [entry|] He; [|by apply abides_ret]. eapply (abides_bind _ _ (fun _ => True)); [by apply abides_call|].
    intros now _. apply abides_ret. intros config. destruct (_ <? _)%N; [|done]. intros [= <-]. by apply He. }
  intros [config|] Hc; [apply abides_ret; intros c [= <-]; by apply Hc|].
  eapply abides_bind; [apply get_or_generate_sound|]. intros [[cert_pem key_pem]|e] Hl; [|by apply abides_ret].
  specialize (Hl _ eq_refl).
  eapply (abides_bind _ _ (fun o => forall der, o = Some der -> exists now, staple_good_for_leaf_pem now cc cert_pem = Ok der)).
  { destruct (ocsp_stapling_enabled env); [|by apply abides_ret].
    eapply (abides_bind _ _ (fun _ => True)); [by apply abides_call|]. intros now _. apply abides_ret. intros der.
    destruct (staple_good_for_leaf_pem now cc cert_pem) eqn:Es; [|done]. intros [= <-]. by exists now. }
  intros ocsp Ho. destruct (build_server_config _ _ _ _) as [config|e] eqn:Eb; [|by apply abides_ret].
  pose proof (build_server_config_serves domain _ _ _ _ Hl Ho Eb) as Hs.
  eapply (abides_bind _ _ (fun _ => True)); [by apply abides_call|]. intros now _.
  eapply (abides_bind _ _ (fun _ => True)); [by apply abides_call|]. intros _ _.
  apply abides_ret. by intros c [= <-].
Qed.

Lemma server_configs_sound domains :
  Forall2 sound ((fun d r => forall config, r = Ok config -> serves d config) <$> domains)
    (server_config_for_domain env cc <$> domains).
Proof. induction domains as [|d ds IH]; constructor; [apply server_config_sound|exact IH]. Qed.

End caches.

(** ** Hexadecimal serials *)

Definition hex_value (c : ascii) : N := let n := N_of_ascii c in if (n <? 58)%N then n - 48 else n - 87.

Fixpoint hex_number (acc : N) (s : string) : N :=
  match s with
  | EmptyString => acc
  | String c s => hex_number (acc * 16 + hex_value c) s
  end.

Lemma hex_value_digit d : (d < 16)%N -> hex_value (ascii_of_N (if (d <? 10)%N then 48 + d else 87 + d)) = d.
Proof.
  intros H. unfold hex_value. destruct (N.ltb_spec d 10); rewrite N_ascii_embedding by lia;
    match goal with |- context [(?a <? 58)%N] => destruct (N.ltb_spec a 58) end; lia.
Qed.

Lemma hex_fixed_number digits n acc a :
  (n < 16 ^ N.of_nat digits)%N ->
  hex_number a (hex_fixed digits n acc) = hex_number (a * 16 ^ N.of_nat digits + n) acc.
Proof.
  revert n acc. induction digits as [|digits IH]; intros n acc Hn; cbn [hex_fixed].
  - change (16 ^ N.of_nat 0)%N with 1%N in *. f_equal. lia.
  - rewrite Nat2N.inj_succ, N.pow_succ_r' in *. pose proof (N.div_mod n 16 ltac:(done)) as Hd.
    rewrite IH by (apply N.Div0.div_lt_upper_bound; lia). cbn [hex_number].
    rewrite hex_value_digit by (by apply N.mod_lt). f_equal. lia.
Qed.

Lemma hex_fixed_inj n m : (n < 2 ^ 64)%N -> (m < 2 ^ 64)%N -> hex_fixed 16 n EmptyString = hex_fixed 16 m EmptyString -> n = m.
Proof.
  intros Hn Hm E. change (2 ^ 64)%N with (16 ^ N.of_nat 16)%N in *. apply (f_equal (hex_number 0)) in E.
  rewrite !hex_fixed_number in E by done. cbn [hex_number] in E. lia.
Qed.

(** ** Validity *)

(** chrono's date of a time is that of the day it is in, and rcgen's time of a date is
    its midnight. *)
Class ChronoLaws (CH : Chrono) := {
  midnight : Date -> Z;
  midnight_utc_date t : midnight (utc_date t) = (t - t mod 86400)%Z;
}.

Lemma validity_window now days :
  (1 <= days)%Z -> (now - 300 - (now - 300) mod 86400 <= now < now + 86400 * days - (now + 86400 * days) mod 86400)%Z.
Proof.
  intros Hd. assert (E : ((now + 86400 * days) mod 86400 = now mod 86400)%Z).
  { replace (86400 * days)%Z with (days * 86400)%Z by lia. apply Z_mod_plus_full. }
  rewrite E. pose proof (Z.mod_pos_bound now 86400 ltac:(lia)).
  pose proof (Z.mod_pos_bound (now - 300) 86400 ltac:(lia)). lia.
Qed.

Lemma odd_in_range n : (n < 2 ^ 64)%N -> (N.lor n 1 < 2 ^ 64)%N.
Proof.
  intros H. destruct (N.eq_dec n 0%N) as [->|Hn]; [done|]. apply N.log2_lt_pow2; [destruct n; done|].
  rewrite N.log2_lor. change (N.log2 1) with 0%N. apply N.max_lub_lt; [|done]. apply N.log2_lt_pow2; lia.
Qed.

Lemma map_err_Ok {A} label (r : result A string) a : map_err label r = Ok a -> r = Ok a.
Proof. by destruct r. Qed.

Lemma user_sans_no_uri {RG : Rcgen} user sans u : user_sans user = Ok sans -> ~ SanUri u ∈ sans.
Proof.
  unfold user_sans. destruct user as [upn|]; [|intros [= <-] H; by apply not_elem_of_nil in H].
  destruct (_ && _); [|intros [= <-] H; by apply not_elem_of_nil in H].
  destruct (ia5 upn); [|done]. cbn [map_err]. intros [= <-] H. by apply list_elem_of_singleton in H.
Qed.

(** ** Theorems *)

Section theorems.
Context {RG : Rcgen} {RL : Rustls} {CH : Chrono} {OC : OcspCodec} {SH : Sha256}.

(** C20: An intercepted connection presents a certificate of its own domain.  However the
    handshakes of any number of connections interleave on the two shared caches, a
    configuration one of them is given presents a leaf that the proxy's CA issued for
    exactly that connection's domain, with the leaf's own key, and staples nothing but a
    good answer for that leaf. *)
Theorem mitm_configs_own_domain (env : Env) (cc : CertCache) (domains : list string) (w0 w : Caches)
    (ps : list (prog CertCmd (result ServerConfig string))) (i : nat) (domain : string) (config : ServerConfig)
    (Hw0 : caches_ok cc w0)
    (Hrun : rtc (pool_step cert_react) (w0, server_config_for_domain env cc <$> domains) (w, ps))
    (Hdomain : domains !! i = Some domain) (Hdone : ps !! i = Some (Ret (Ok config))) :
  serves cc domain config.
Proof.
  destruct (pool_invariant cert_react (cert_writes cc) (cert_reads cc) (caches_ok cc)
    _ _ _ _ _ (cert_react_ok cc) Hw0 (server_configs_sound env cc domains) Hrun) as [_ Hall].
  eapply Forall2_lookup_lr in Hall; [|by rewrite list_lookup_fmap, Hdomain|done]. by apply Hall.
Qed.

(** An agent's certificate says what the control plane decided.  A signed certificate
    carries the key of the CSR and nothing else of it: its name and its URI are those of
    the device, it is no CA and only good for clients, its reported serial is its own, and
    it is valid when it is issued, for at most 825 days.  The expiry reported with it is
    up to a day after the one in the certificate, whose dates are midnights. *)
Theorem agent_certificate_sound {CL : ChronoLaws CH} (serial : N) (now : Z) (cc : CertCache) (csr_pem device_id : string)
    (user_identity : option string) (platform : string) (validity_days : N) (cert : AgentClientCert)
    (Hserial : (serial < 2 ^ 64)%N) (Hnow : (0 <= now)%Z)
    (Hok : sign_agent_client_csr serial now cc csr_pem device_id user_identity platform validity_days = Ok cert) :
  exists params key iss der uri from until s,
    csr_from_pem (trim csr_pem) = Ok key /\ issuer cc = Ok iss /\ signed_by params key iss = Ok der /\
    cc_client_cert_pem cert = cert_to_pem der /\ cc_fingerprint_sha256 cert = hex_encode (sha256 der) /\
    head (cp_dn params) = Some (CommonName, device_id) /\
    ia5 ("urn:bsdm:device:" +:+ device_id) = Ok uri /\ (forall u, SanUri u ∈ cp_sans params <-> u = uri) /\
    cp_is_ca params = NoCa /\ cp_ext_key_usages params = [ClientAuth] /\
    (cp_serial params = Some s /\ forall s', (s' < 2 ^ 64)%N -> hex_fixed 16 s' EmptyString = cc_serial_hex cert -> s' = s) /\
    cp_validity params = Some (from, until) /\ (midnight from <= now < midnight until /\ midnight until <= now + 86400 * 825)%Z /\
    (midnight until <= Z.of_N (cc_not_after_unix cert) < midnight until + 86400)%Z.
Proof.
  unfold sign_agent_client_csr in Hok. destruct (is_blank device_id); [done|]. set (days := clamp_days validity_days) in *.
  assert (Hdays : (1 <= days <= 825)%N) by (unfold days, clamp_days; lia).
  apply res_bind_Ok in Hok as (key & Ek%map_err_Ok & Hok). apply res_bind_Ok in Hok as (params & Hp & Hok).
  apply res_bind_Ok in Hok as (iss & Es%map_err_Ok & Hok). apply res_bind_Ok in Hok as (der & Ed%map_err_Ok & <-%Ok_inj).
  apply res_bind_Ok in Hp as (users & Eu & Hp). apply res_bind_Ok in Hp as (uri & Ei%map_err_Ok & <-%Ok_inj).
  eexists _, key, iss, der, uri, (utc_date (now - 300)), (utc_date (now + 86400 * Z.of_N days)), (N.lor serial 1).
  pose proof (validity_window now (Z.of_N days) ltac:(lia)). split_and!; [done|done|exact Ed|try done..].
  - intros u. cbn [cp_sans]. rewrite elem_of_app, list_elem_of_singleton. split.
    + intros [Hu|[= ->]]; [|done]. by destruct (user_sans_no_uri _ _ u Eu).
    + intros ->. by right.
  - intros s' Hs' E. cbn [cc_serial_hex] in E. exact (hex_fixed_inj _ _ Hs' (odd_in_range _ Hserial) E).
  - rewrite midnight_utc_date. lia.
  - rewrite midnight_utc_date. lia.
  - rewrite midnight_utc_date. pose proof (Z.mod_pos_bound (now + 86400 * Z.of_N days) 86400 ltac:(lia)). lia.
  - rewrite midnight_utc_date. cbn [cc_not_after_unix].
    pose proof (Z.mod_pos_bound (now + 86400 * Z.of_N days) 86400 ltac:(lia)). lia.
  - rewrite midnight_utc_date. cbn [cc_not_after_unix].
    pose proof (Z.mod_pos_bound (now + 86400 * Z.of_N days) 86400 ltac:(lia)). lia.
Qed.

(** A staple is served after it has expired (a defect).  Its answer is good for an hour,
    but a configuration may be kept for up to a day: with a refresh interval above the
    hour, a connection that comes when the hour is over is still given the old one. *)
Theorem expired_staple_served (env : Env) (cc : CertCache) (domain : string) (entry : CachedServerConfig)
    (Hrefresh : (STAPLE_NEXT_UPDATE_SECS < ocsp_staple_refresh_secs env)%N) :
  let now := (cs_stapled_at entry + STAPLE_NEXT_UPDATE_SECS * nanos_per_sec)%N in
  runs (server_config_for_domain env cc domain) [Ev (ReadConfig domain) (Some entry); Ev InstantNow now]
    (Ok (cs_config entry)).
Proof.
  intros now. unfold server_config_for_domain, cached_config. apply runs_do. apply runs_do. cbn.
  replace (as_secs (now - cs_stapled_at entry)) with STAPLE_NEXT_UPDATE_SECS.
  - rewrite (proj2 (N.ltb_lt _ _) Hrefresh). constructor.
  - unfold now, as_secs. rewrite N.add_comm, N.add_sub, N.div_mul; done.
Qed.

End theorems.

(** ** Examples *)

Module Demo.

#[local] Instance text_rcgen : Rcgen := {|
  KeyPair := string; PublicKey := string; Issuer := string;
  key_from_pem := Ok; key_to_pem k := k; public_key k := "pub-" +:+ k;
  san_of s := Ok (DnsName s); ia5 := Ok; csr_from_pem := Ok;
  issuer_from_params _ k := k; issuer_from_pem _ k := Ok k;
  signed_by p pk iss :=
    Ok (match cp_dn p with (_, cn) :: _ => cn | [] => EmptyString end +:+ "/" +:+ pk +:+ "/" +:+ iss);
  self_signed _ k := Ok k; cert_to_pem d := d; crl_signed_by _ _ := Ok EmptyString; crl_to_pem := Ok;
  hex_decode := Ok;
|}.

#[local] Instance text_rustls : Rustls := {|
  pem_certs s := Ok [s]; pem_private_key s := Ok (Some s); single_cert _ _ _ := Ok tt; root_add _ := Ok tt;
  client_verifier _ := Ok tt; leaf_serial := Ok; ca_certificate _ := Ok tt;
|}.

#[local] Instance text_ocsp : OcspCodec := {|
  ocsp_from_der _ := Err "none"%string; ocsp_time := Ok;
  sign_basic_response rs _ := Ok match rs with (s, _, _, _) :: _ => "good-" +:+ s | [] => EmptyString end;
|}.

#[local] Instance day_chrono : Chrono := {|
  utc_date t := {| dt_year := t - t mod 86400; dt_month := 1; dt_day := 1 |}; from_timestamp := Some |}.

#[local] Instance day_chrono_laws : ChronoLaws day_chrono.
Proof. by refine {| midnight := dt_year |}. Defined.

#[local] Instance text_sha : Sha256 := {| sha256 s := s; hex_encode s := s |}.

Definition env : Env := fun k => if String.eqb k "TLS_OCSP_STAPLE_REFRESH_SECS" then Some "7200"%string else None.

Definition cc : CertCache := {| cc_ca_key := "ca-key"%string; cc_ca_pem := "ca"; cc_in_memory_ca_params := None |}.

(** The maps, and how many keys were made. *)
Definition handler (keys : list string) (X : Type) (c : CertCmd X) (w : Caches) : option (Caches * X) :=
  match c in CertCmd X return option (Caches * X) with
  | ReadConfig d => Some (w, ca_configs w !! d)
  | WriteConfig d e => Some ({| ca_certs := ca_certs w; ca_configs := <[d := e]> (ca_configs w) |}, tt)
  | ReadCert d => Some (w, ca_certs w !! d)
  | WriteCert d l => Some ({| ca_certs := <[d := l]> (ca_certs w); ca_configs := ca_configs w |}, tt)
  | GenerateKey => Some (w, Ok (default "key"%string (keys !! size (ca_certs w))))
  | InstantNow => Some (w, 0%N)
  | UnixNow => Some (w, 0%N)
  end.

Lemma handler_reacts keys X (c : CertCmd X) w w' x : handler keys X c w = Some (w', x) -> cert_react X c w w' x.
Proof. destruct c; cbn; intros [= <- <-]; done. Qed.

Definition empty_caches : Caches := {| ca_certs := ∅; ca_configs := ∅ |}.

(** Two connections to one domain and one to another: the first two both miss. *)
Definition schedule : list nat := [0; 1; 2; 0; 1; 2; 0; 1; 0; 2; 1; 1; 0; 2; 1; 2; 0; 2; 1; 0; 2].

Lemma mitm_configs_own_domain_witness :
  serves cc "b.example"
    {| sc_chain := ["b.example/pub-k2/ca-key"; "ca"]%string; sc_key := "k2";
       sc_ocsp := Some "good-b.example/pub-k2/ca-key"%string; sc_client_roots := None; sc_alpn := [] |}.
Proof.
  assert (Hrun : exists w ps, foldl (pool_turn (handler ["k1"; "k2"]%string))
      (Some (empty_caches, server_config_for_domain env cc <$> ["a.example"; "a.example"; "b.example"]%string)) schedule
      = Some (w, ps) /\ ps !! 2 = Some (Ret (Ok
    {| sc_chain := ["b.example/pub-k2/ca-key"; "ca"]%string; sc_key := "k2"%string;
       sc_ocsp := Some "good-b.example/pub-k2/ca-key"%string; sc_client_roots := None; sc_alpn := [] |}))).
  { eexists _, _. split; vm_compute; reflexivity. }
  destruct Hrun as (w & ps & Hrun & Hps).
  apply (mitm_configs_own_domain env cc ["a.example"; "a.example"; "b.example"]%string empty_caches w ps 2).
  - split; intros d x H; cbn in H; by rewrite lookup_empty in H.
  - exact (pool_turns_steps cert_react _ schedule _ _ (handler_reacts _) Hrun).
  - reflexivity.
  - exact Hps.
Defined.

Lemma agent_certificate_sound_witness :
  exists params key iss der uri from until s,
    csr_from_pem (trim "csr") = Ok key /\ issuer cc = Ok iss /\ signed_by params key iss = Ok der /\
    head (cp_dn params) = Some (CommonName, "laptop"%string) /\ ia5 "urn:bsdm:device:laptop" = Ok uri /\
    cp_serial params = Some s /\ cp_validity params = Some (from, until) /\
    (midnight from <= 90000 < midnight until)%Z.
Proof.
  destruct (agent_certificate_sound 6 90000 cc "csr" "laptop" (Some "eve@example.org"%string) "linux" 1
    {| cc_client_cert_pem := "laptop/csr/ca-key"; cc_ca_cert_pem := "ca"; cc_subject := "CN=laptop, OU=linux, O=BSDM Agent";
       cc_fingerprint_sha256 := "laptop/csr/ca-key"; cc_serial_hex := "0000000000000007"; cc_not_after_unix := 176400;
       cc_validity_days := 1 |})
    as (params & key & iss & der & uri & from & until & s & H1 & H2 & H3 & _ & _ & H4 & H5 & _ & _ & _ & [H6 _] & H7 & [H8 _] & _).
  - reflexivity.
  - lia.
  - vm_compute. reflexivity.
  - exists params, key, iss, der, uri, from, until, s. split_and!; try done; apply H8.
Defined.

Lemma expired_staple_served_witness :
  runs (server_config_for_domain env cc "a.example")
    [Ev (ReadConfig "a.example") (Some {| cs_config := {| sc_chain := []; sc_key := "k"; sc_ocsp := Some "old"%string;
        sc_client_roots := None; sc_alpn := [] |}; cs_stapled_at := 5 |});
     Ev InstantNow 3600000000005%N]
    (Ok {| sc_chain := []; sc_key := "k"; sc_ocsp := Some "old"%string; sc_client_roots := None; sc_alpn := [] |}).
Proof.
  apply (expired_staple_served env cc "a.example" {| cs_config := {| sc_chain := []; sc_key := "k";
    sc_ocsp := Some "old"%string; sc_client_roots := None; sc_alpn := [] |}; cs_stapled_at := 5 |}).
  vm_compute. reflexivity.
Defined.

End Demo.
