(* ===== verification/ControlApi.v ===== *)
(** * The control plane (src/proxy/src/control_api.rs, control_grpc.rs, and the
    routing and gates of server.rs and control_mtls.rs)

    Who may call what, and what every call does to the components: the caches, the
    filters, the peers, the users, the sidecar, the settings, the agents.

    serde_json is [ControlJson]; the other crates are the classes of the components.
    Clocks, random bytes, file contents, outcomes of writes and replies are
    [ControlInputs].  A panic is [None].  The components are those of the proxy,
    which shares them; each call is one step. *)

From Stdlib Require Import Ascii String NArith Lia.
From stdpp Require Import base option gmap sets strings pretty numbers list sorting.
From S2P Require Import Prelude Http Bytes CacheDigest Acl AclApi CacheEntry L1Cache L2Cache Inspection Float64.
From S2P Require Import Peers Discovery SemanticCache Auth RpzApi Devices AgentCrl Pinning AgentPolicy AgentApi ControlConfig.

(** ** Requests *)

Record PurgeRequest := {
  pu_all : bool;
  pu_url : option string;
  pu_method : option string;
  pu_tag : option string;
  pu_tags : list string;
}.

Definition PurgeRequest_default : PurgeRequest :=
  {| pu_all := false; pu_url := None; pu_method := None; pu_tag := None; pu_tags := [] |}.

Record ConfigApplyRequest := {
  ca_env : gmap string string;
  (** the rules as a JSON text *)
  ca_acl_rules : option string;
  ca_restart : option bool;
}.

Class ControlJson := {
  domains_of_json : string -> result (list string) string;
  patterns_of_json : string -> result (list (string * string)) string;
  awg_config_of_json : string -> result AwgServerConfig string;
  awg_peer_of_json : string -> result AwgPeerConfig string;
  awg_delete_of_json : string -> result string string;
  threat_of_json : string -> result ThreatSyncEvent string;
  apply_of_json : string -> result ConfigApplyRequest string;
  (** [write_acl_rules_file]: the check against the rules document, and the text. *)
  acl_rules_pretty : string -> result string string;
  reload_of_json : string -> result (string * string) string;
  purge_of_json : string -> result PurgeRequest string;
  put_user_of_json : string -> option (string * option string * string);
  delete_user_of_json : string -> option string;
  peers_json : string -> option PeersFile;
  (** The text of an error of the peers file. *)
  peers_error_text : PeersFileError -> string;
}.

(** ** The upstream client (upstream.rs) *)

Record UpstreamTlsConfig := { uc_http2_enabled : bool; uc_ca_cert_path : option string }.

Definition UpstreamTlsConfig_from_env (env : Env) : UpstreamTlsConfig :=
  {| uc_http2_enabled :=
       match env "UPSTREAM_HTTP2_ENABLED" with
       | Some v => bool_decide (to_ascii_lowercase v ∈ ["1"; "true"; "yes"]%string)
       | None => false
       end;
     uc_ca_cert_path := trimmed (env "UPSTREAM_CA_CERT") |}.

Record UpstreamTlsSnapshot := {
  ut_http2_enabled : bool;
  ut_ca_cert_path : option string;
  ut_custom_ca : bool;
  ut_reloaded_at_unix : N;
}.

Definition UpstreamTlsSnapshot_from_config (now : N) (c : UpstreamTlsConfig) : UpstreamTlsSnapshot :=
  {| ut_http2_enabled := uc_http2_enabled c; ut_ca_cert_path := uc_ca_cert_path c;
     ut_custom_ca := present (uc_ca_cert_path c); ut_reloaded_at_unix := now |}.

(** rustls: the certificates of a PEM text, and which the trust store takes. *)
Class PemReader := {
  pem_certs : string -> result (list string) string;
  cert_parsable : string -> bool;
}.

(** Whether a client can be built. *)
Definition build_upstream_https_connector {PR : PemReader} (read : string -> result string string)
    (config : UpstreamTlsConfig) : result unit string :=
  match uc_ca_cert_path config with
  | None => Ok tt
  | Some path =>
      match read path with
      | Err e => Err ("failed to read UPSTREAM_CA_CERT " +:+ path +:+ ": " +:+ e)
      | Ok pem =>
          match pem_certs pem with
          | Err e => Err e
          | Ok [] => Err ("no certificates found in UPSTREAM_CA_CERT " +:+ path)
          | Ok certs =>
              if existsb cert_parsable certs then Ok tt
              else Err ("failed to parse any CA certificates from " +:+ path)
          end
      end
  end.

(** A failed reload keeps the client and the snapshot. *)
Definition reload_from_env {PR : PemReader} (env : Env) (now : N) (read : string -> result string string)
    (t : UpstreamTlsSnapshot) : UpstreamTlsSnapshot * result UpstreamTlsSnapshot string :=
  let config := UpstreamTlsConfig_from_env env in
  match build_upstream_https_connector read config with
  | Ok _ => let snap := UpstreamTlsSnapshot_from_config now config in (snap, Ok snap)
  | Err e => (t, Err e)
  end.

(** ** The search upstream (search_proxy.rs) *)

Record SearchRequest := {
  sr_method : HttpMethod;
  sr_url : string;
  sr_headers : list (string * string);
  sr_body : string;
}.

Inductive SearchReply :=
  | SearchReplied (status : N) (content_type allow_origin : option string) (bytes : option string)
  | SearchUnreachable.

Definition upstream_base (env : Env) : string :=
  default "http://127.0.0.1:8080"
    (non_empty ((fun s => trim_end_matches "/" (trim s)) <$> env "SEARCH_UPSTREAM_URL")).

(** The headers the request passes on. *)
Definition search_headers {HT : HeaderText} (headers : HeaderMap) : list (string * string) :=
  omap (fun name => (name,.) <$> hm_get_str headers name) ["authorization"; "content-type"; "origin"]%string.

Definition search_request {HT : HeaderText} (env : Env) (m : HttpMethod) (path query : string) (headers : HeaderMap)
    (body : string) : SearchRequest :=
  {| sr_method := m;
     sr_url := upstream_base env +:+ path +:+ (if str_is_empty query then EmptyString else "?" +:+ query);
     sr_headers := search_headers headers;
     sr_body := match m with MPost => body | _ => EmptyString end |}.

Record PeerListItem := {
  pi_id : string;
  pi_host : string;
  pi_port : N;
  pi_peer_type : string;
  pi_weight : f64;
  pi_icp_port : option N;
  pi_healthy : bool;
  pi_is_static : bool;
}.

Definition peer_item_le (a b : PeerListItem) : Prop := String.le (pi_id a) (pi_id b).
#[export] Instance peer_item_le_dec : RelDecision peer_item_le.
Proof. intros a b. unfold peer_item_le. apply _. Defined.

Record PurgeResult := {
  pz_scope : string;
  pz_removed : N;
  pz_url : option string;
  pz_tags : list string;
}.

Inductive ControlBody :=
  | CAgent (b : AgentBody)
  | CError (msg : string)
  | CStatus (s : string)
  | CDomains (ds : gset string)
  | CPatterns (ps : list (string * string))
  | CAwg (c : AwgServerConfig)
  | CAwgReload (status message path : string)
  | CSessions (redis : bool) (count : N)
  | CThreats (node : string) (enabled : bool) (peers : list string) (events : list ThreatSyncEvent)
  | CConfig (env : gmap string string)
  | CApplied (hot_reload : list string) (restart : string)
  | CPinning (p : PinningRegistry) (active : N)
  | CReloaded (r : PinningReloadReport)
  | CPinningError (e : PinningError)
  | CStats (entries capacity shards tags : N)
  | CPeers (enabled : bool) (peers : list PeerListItem)
  | CHierarchy (source : PeerConfigSource) (stats : ReplaceStaticStats)
  | CTls (t : UpstreamTlsSnapshot)
  | CPurged (r : PurgeResult)
  | CUsers (us : list BasicUser)
  | CRpz (a : RpzAnswer)
  | CSearch (content_type : string) (allow_origin : option string) (bytes : string)
  | CWebSocket (first : json)
  | CRedirect (location : string)
  | CFile (mime content : string).

Abbreviation ControlResponse := (N * ControlBody)%type.

(** ** State *)

Record ControlSettings := {
  ct_l2 : option string;
  ct_api_token : option string;
  ct_fail_closed : bool;
  ct_enroll_token : option string;
  ct_use_htcp : bool;
  ct_admin_console_dir : option string;
  ct_acl : AclApiConfig;
  ct_restartable : bool;
}.

Section state.
Context {SC : ShardCache CachedResponse} {SE : SspiEngine}.

Record ControlApiState := {
  cs_l1 : HttpL1Cache;
  cs_l2_sent : list RedisCmd;
  cs_peers : option PeerRegistry;
  cs_tls : UpstreamTlsSnapshot;
  cs_casb : gset string;
  cs_dlp : DlpState;
  cs_pinning : PinningRegistry;
  cs_audit : list PinningAuditRecord;
  cs_auth : option AuthManager;
  cs_awg : AwgServerConfig;
  cs_threat : ThreatSyncEngine;
  cs_agents : AgentState;
  cs_acl : option AclApiState;
  cs_rpz : option RpzApi;
  cs_env : gmap string string;
  cs_files : gmap string string;
  cs_restart : bool;
}.

Definition set_caches (l1 : HttpL1Cache) (sent : list RedisCmd) (st : ControlApiState) : ControlApiState :=
  {| cs_l1 := l1; cs_l2_sent := cs_l2_sent st ++ sent; cs_peers := cs_peers st; cs_tls := cs_tls st;
     cs_casb := cs_casb st; cs_dlp := cs_dlp st; cs_pinning := cs_pinning st; cs_audit := cs_audit st;
     cs_auth := cs_auth st; cs_awg := cs_awg st; cs_threat := cs_threat st; cs_agents := cs_agents st;
     cs_acl := cs_acl st; cs_rpz := cs_rpz st; cs_env := cs_env st; cs_files := cs_files st;
     cs_restart := cs_restart st |}.

Definition set_peers (r : PeerRegistry) (st : ControlApiState) : ControlApiState :=
  {| cs_l1 := cs_l1 st; cs_l2_sent := cs_l2_sent st; cs_peers := Some r; cs_tls := cs_tls st;
     cs_casb := cs_casb st; cs_dlp := cs_dlp st; cs_pinning := cs_pinning st; cs_audit := cs_audit st;
     cs_auth := cs_auth st; cs_awg := cs_awg st; cs_threat := cs_threat st; cs_agents := cs_agents st;
     cs_acl := cs_acl st; cs_rpz := cs_rpz st; cs_env := cs_env st; cs_files := cs_files st;
     cs_restart := cs_restart st |}.

Definition set_tls (t : UpstreamTlsSnapshot) (st : ControlApiState) : ControlApiState :=
  {| cs_l1 := cs_l1 st; cs_l2_sent := cs_l2_sent st; cs_peers := cs_peers st; cs_tls := t;
     cs_casb := cs_casb st; cs_dlp := cs_dlp st; cs_pinning := cs_pinning st; cs_audit := cs_audit st;
     cs_auth := cs_auth st; cs_awg := cs_awg st; cs_threat := cs_threat st; cs_agents := cs_agents st;
     cs_acl := cs_acl st; cs_rpz := cs_rpz st; cs_env := cs_env st; cs_files := cs_files st;
     cs_restart := cs_restart st |}.

Definition set_casb (d : gset string) (st : ControlApiState) : ControlApiState :=
  {| cs_l1 := cs_l1 st; cs_l2_sent := cs_l2_sent st; cs_peers := cs_peers st; cs_tls := cs_tls st;
     cs_casb := d; cs_dlp := cs_dlp st; cs_pinning := cs_pinning st; cs_audit := cs_audit st;
     cs_auth := cs_auth st; cs_awg := cs_awg st; cs_threat := cs_threat st; cs_agents := cs_agents st;
     cs_acl := cs_acl st; cs_rpz := cs_rpz st; cs_env := cs_env st; cs_files := cs_files st;
     cs_restart := cs_restart st |}.

Definition set_dlp (d : DlpState) (st : ControlApiState) : ControlApiState :=
  {| cs_l1 := cs_l1 st; cs_l2_sent := cs_l2_sent st; cs_peers := cs_peers st; cs_tls := cs_tls st;
     cs_casb := cs_casb st; cs_dlp := d; cs_pinning := cs_pinning st; cs_audit := cs_audit st;
     cs_auth := cs_auth st; cs_awg := cs_awg st; cs_threat := cs_threat st; cs_agents := cs_agents st;
     cs_acl := cs_acl st; cs_rpz := cs_rpz st; cs_env := cs_env st; cs_files := cs_files st;
     cs_restart := cs_restart st |}.

Definition set_pinning (p : PinningRegistry) (records : list PinningAuditRecord) (st : ControlApiState) : ControlApiState :=
  {| cs_l1 := cs_l1 st; cs_l2_sent := cs_l2_sent st; cs_peers := cs_peers st; cs_tls := cs_tls st;
     cs_casb := cs_casb st; cs_dlp := cs_dlp st; cs_pinning := p; cs_audit := cs_audit st ++ records;
     cs_auth := cs_auth st; cs_awg := cs_awg st; cs_threat := cs_threat st; cs_agents := cs_agents st;
     cs_acl := cs_acl st; cs_rpz := cs_rpz st; cs_env := cs_env st; cs_files := cs_files st;
     cs_restart := cs_restart st |}.

Definition set_auth (a : AuthManager) (st : ControlApiState) : ControlApiState :=
  {| cs_l1 := cs_l1 st; cs_l2_sent := cs_l2_sent st; cs_peers := cs_peers st; cs_tls := cs_tls st;
     cs_casb := cs_casb st; cs_dlp := cs_dlp st; cs_pinning := cs_pinning st; cs_audit := cs_audit st;
     cs_auth := Some a; cs_awg := cs_awg st; cs_threat := cs_threat st; cs_agents := cs_agents st;
     cs_acl := cs_acl st; cs_rpz := cs_rpz st; cs_env := cs_env st; cs_files := cs_files st;
     cs_restart := cs_restart st |}.

Definition set_awg (c : AwgServerConfig) (st : ControlApiState) : ControlApiState :=
  {| cs_l1 := cs_l1 st; cs_l2_sent := cs_l2_sent st; cs_peers := cs_peers st; cs_tls := cs_tls st;
     cs_casb := cs_casb st; cs_dlp := cs_dlp st; cs_pinning := cs_pinning st; cs_audit := cs_audit st;
     cs_auth := cs_auth st; cs_awg := c; cs_threat := cs_threat st; cs_agents := cs_agents st;
     cs_acl := cs_acl st; cs_rpz := cs_rpz st; cs_env := cs_env st; cs_files := cs_files st;
     cs_restart := cs_restart st |}.

Definition set_threat (t : ThreatSyncEngine) (st : ControlApiState) : ControlApiState :=
  {| cs_l1 := cs_l1 st; cs_l2_sent := cs_l2_sent st; cs_peers := cs_peers st; cs_tls := cs_tls st;
     cs_casb := cs_casb st; cs_dlp := cs_dlp st; cs_pinning := cs_pinning st; cs_audit := cs_audit st;
     cs_auth := cs_auth st; cs_awg := cs_awg st; cs_threat := t; cs_agents := cs_agents st;
     cs_acl := cs_acl st; cs_rpz := cs_rpz st; cs_env := cs_env st; cs_files := cs_files st;
     cs_restart := cs_restart st |}.

Definition set_agents (a : AgentState) (st : ControlApiState) : ControlApiState :=
  {| cs_l1 := cs_l1 st; cs_l2_sent := cs_l2_sent st; cs_peers := cs_peers st; cs_tls := cs_tls st;
     cs_casb := cs_casb st; cs_dlp := cs_dlp st; cs_pinning := cs_pinning st; cs_audit := cs_audit st;
     cs_auth := cs_auth st; cs_awg := cs_awg st; cs_threat := cs_threat st; cs_agents := a;
     cs_acl := cs_acl st; cs_rpz := cs_rpz st; cs_env := cs_env st; cs_files := cs_files st;
     cs_restart := cs_restart st |}.

Definition set_acl (a : AclApiState) (st : ControlApiState) : ControlApiState :=
  {| cs_l1 := cs_l1 st; cs_l2_sent := cs_l2_sent st; cs_peers := cs_peers st; cs_tls := cs_tls st;
     cs_casb := cs_casb st; cs_dlp := cs_dlp st; cs_pinning := cs_pinning st; cs_audit := cs_audit st;
     cs_auth := cs_auth st; cs_awg := cs_awg st; cs_threat := cs_threat st; cs_agents := cs_agents st;
     cs_acl := Some a; cs_rpz := cs_rpz st; cs_env := cs_env st; cs_files := cs_files st;
     cs_restart := cs_restart st |}.

Definition set_rpz (a : RpzApi) (st : ControlApiState) : ControlApiState :=
  {| cs_l1 := cs_l1 st; cs_l2_sent := cs_l2_sent st; cs_peers := cs_peers st; cs_tls := cs_tls st;
     cs_casb := cs_casb st; cs_dlp := cs_dlp st; cs_pinning := cs_pinning st; cs_audit := cs_audit st;
     cs_auth := cs_auth st; cs_awg := cs_awg st; cs_threat := cs_threat st; cs_agents := cs_agents st;
     cs_acl := cs_acl st; cs_rpz := Some a; cs_env := cs_env st; cs_files := cs_files st;
     cs_restart := cs_restart st |}.

Definition set_env (env : gmap string string) (st : ControlApiState) : ControlApiState :=
  {| cs_l1 := cs_l1 st; cs_l2_sent := cs_l2_sent st; cs_peers := cs_peers st; cs_tls := cs_tls st;
     cs_casb := cs_casb st; cs_dlp := cs_dlp st; cs_pinning := cs_pinning st; cs_audit := cs_audit st;
     cs_auth := cs_auth st; cs_awg := cs_awg st; cs_threat := cs_threat st; cs_agents := cs_agents st;
     cs_acl := cs_acl st; cs_rpz := cs_rpz st; cs_env := env; cs_files := cs_files st;
     cs_restart := cs_restart st |}.

Definition write_file (path content : string) (st : ControlApiState) : ControlApiState :=
  {| cs_l1 := cs_l1 st; cs_l2_sent := cs_l2_sent st; cs_peers := cs_peers st; cs_tls := cs_tls st;
     cs_casb := cs_casb st; cs_dlp := cs_dlp st; cs_pinning := cs_pinning st; cs_audit := cs_audit st;
     cs_auth := cs_auth st; cs_awg := cs_awg st; cs_threat := cs_threat st; cs_agents := cs_agents st;
     cs_acl := cs_acl st; cs_rpz := cs_rpz st; cs_env := cs_env st;
     cs_files := <[path := content]> (cs_files st); cs_restart := cs_restart st |}.

Definition set_restart (st : ControlApiState) : ControlApiState :=
  {| cs_l1 := cs_l1 st; cs_l2_sent := cs_l2_sent st; cs_peers := cs_peers st; cs_tls := cs_tls st;
     cs_casb := cs_casb st; cs_dlp := cs_dlp st; cs_pinning := cs_pinning st; cs_audit := cs_audit st;
     cs_auth := cs_auth st; cs_awg := cs_awg st; cs_threat := cs_threat st; cs_agents := cs_agents st;
     cs_acl := cs_acl st; cs_rpz := cs_rpz st; cs_env := cs_env st; cs_files := cs_files st;
     cs_restart := true |}.

End state.

Record ControlInputs := {
  ci_agent : AgentInputs;
  ci_now_ns : N;
  ci_millis : N;
  ci_stamp : string;
  ci_users_io : result unit string;
  ci_rpz_io : result unit string;
  ci_list_io : result unit string;
  ci_fetch : string -> result string string;
  (** why a path cannot be read, and what writing it gives *)
  ci_unreadable : string -> option string;
  ci_write : string -> result unit string;
  ci_awg_run : CommandOutcome;
  ci_publish : result unit string;
  ci_pinning_document : result (N * list PinningException) string;
  ci_pinning_audit : option string;
  ci_scan : list (result (N * list string) unit);
  ci_client : bool;
  ci_search : SearchRequest -> SearchReply;
  ci_sessions : bool * N;
  ci_wasm : option (result unit string);
  ci_upgrade : result unit string;
}.

(** ** Paths of the console *)

(** [Path::extension] of the last component. *)
Definition path_extension (path : string) : string :=
  let name := List.last (split_on "/" path) EmptyString in
  match split_on "." name with
  | [] | [_] => EmptyString
  | [EmptyString; _] => EmptyString
  | parts => List.last parts EmptyString
  end.

Definition mime_of (ext : string) : string :=
  if bool_decide (ext ∈ ["html"; "htm"]%string) then "text/html; charset=utf-8"
  else if bool_decide (ext ∈ ["js"; "mjs"]%string) then "application/javascript; charset=utf-8"
  else if String.eqb ext "css" then "text/css; charset=utf-8"
  else if String.eqb ext "svg" then "image/svg+xml"
  else if String.eqb ext "png" then "image/png"
  else if bool_decide (ext ∈ ["jpg"; "jpeg"]%string) then "image/jpeg"
  else if String.eqb ext "ico" then "image/x-icon"
  else if String.eqb ext "json" then "application/json"
  else if String.eqb ext "woff2" then "font/woff2"
  else if String.eqb ext "woff" then "font/woff"
  else "application/octet-stream".

(** [is_file] and [read] are those of the file system. *)
Definition serve_static_ui (dir : option string) (is_file : string -> bool) (read : string -> result string string)
    (path : string) : ControlResponse :=
  if str_contains path ".." || str_contains path (String "000" EmptyString) then (400%N, CError "invalid path")
  else if String.eqb path "/" || String.eqb path "/admin" || String.eqb path "/trust" || starts_with path "/trust/" then
    (308%N, CRedirect "/admin/")
  else
    let base_dir := default "./admin-console/dist" dir in
    let relative_path := default (trim_start_matches "/" path) (strip_prefix "/admin/" path) in
    let target := if str_is_empty relative_path then path_join base_dir "index.html" else path_join base_dir relative_path in
    let file_path := if is_file target then target else path_join base_dir "index.html" in
    match read file_path with
    | Ok content => (200%N, CFile (mime_of (path_extension file_path)) content)
    | Err _ => (404%N, CError "not found")
    end.

(** ** Purging *)

Definition purge_usage : string :=
  "provide {" +:+ quoted "url" +:+ ":" +:+ quoted "..." +:+ "}, {" +:+ quoted "tag" +:+ ":" +:+ quoted "..." +:+ "}, {"
  +:+ quoted "tags" +:+ ":[...]}, or {" +:+ quoted "all" +:+ ":true}".

Definition push_new (out : list string) (t : string) : list string :=
  let t := trim t in
  if negb (str_is_empty t) && negb (existsb (String.eqb t) out) then out ++ [t] else out.

Definition collect_purge_tags (req : PurgeRequest) : list string :=
  foldl push_new (option_list (trimmed (pu_tag req))) (pu_tags req).

(** ** The API *)

Definition rpz_method (m : HttpMethod) : RpzMethod :=
  match m with MGet => RpzGet | MPost => RpzPost | MPut => RpzPut | MDelete => RpzDelete | _ => RpzOther end.

Section api.
Context {SC : ShardCache CachedResponse} {SE : SspiEngine}.
Context {SH : Sha256} {B64 : Base64} {SJ : SerdeJson} {DJ : DeviceJson} {CJ : CrlJson} {MO : MapOrder}
  {OC : OcspCodec} {AJ : AgentJson} {RJ : RpzJson} {CTJ : ControlJson} {HT : HeaderText}
  {RE : RegexEngine} {UJ : RuleJson} {HO : HashOrder} {PR : PemReader}.
Context (hash : string -> N) (order : gset string -> list string) (fate : N -> Fate).
Context (cfg : ControlSettings) (ca : option CertAuthority) (inp : ControlInputs).
Abbreviation State := ControlApiState.

Definition env_of (st : State) : Env := fun k => cs_env st !! k.

(** *** Files *)

Definition is_file (st : State) (path : string) : bool := present (cs_files st !! path).

Definition read (st : State) (path : string) : result string string :=
  match ci_unreadable inp path, cs_files st !! path with
  | Some e, _ => Err e
  | None, Some content => Ok content
  | None, None => Err "No such file or directory (os error 2)"
  end.

Definition env_path (st : State) : string := config_env_path (env_of st) (is_file st "/etc/bsdm-proxy/bsdm-proxy.env").

Definition env_file (st : State) : option (result string string) :=
  if is_file st (env_path st) then Some (read st (env_path st)) else None.

(** *** Who may call *)

Definition extract_bearer (headers : HeaderMap) : option string :=
  hm_get_str headers "authorization" ≫= strip_prefix "Bearer ".

Definition is_authorized_bearer (bearer : option string) : bool :=
  match ct_api_token cfg with
  | Some expected => match bearer with Some token => constant_time_eq token expected | None => false end
  | None => negb (ct_fail_closed cfg)
  end.

Definition control_authorized (headers : HeaderMap) : bool := is_authorized_bearer (extract_bearer headers).

Definition is_enroll_authorized (headers : HeaderMap) : bool :=
  match ct_enroll_token cfg with
  | Some expected => match extract_bearer headers with Some token => constant_time_eq token expected | None => false end
  | None => control_authorized headers
  end.

(** A device token is looked up, and what Redis knows of it cached. *)
Definition is_agent_authorized (headers : HeaderMap) (s : AgentState) : AgentState * bool :=
  if control_authorized headers then (s, true)
  else
    match extract_bearer headers with
    | None => (s, negb (present (ct_api_token cfg)) && negb (ct_fail_closed cfg))
    | Some bearer =>
        let t := ag_trust s in
        let '(reg, r, ok) := device_token_valid fate bearer (tr_devices t) (tr_redis t) in
        (set_registry reg r s, ok)
    end.

Definition auth_required : bool := present (ct_api_token cfg) || ct_fail_closed cfg.

Definition public_api (m : HttpMethod) (path : string) : bool :=
  match m with
  | MGet =>
      String.eqb path "/api/stats" || String.eqb path "/api/hierarchy/peers" || String.eqb path "/api/upstream/tls"
      || String.eqb path "/api/v1/agent/ocsp"
  | MPost => String.eqb path "/api/v1/agent/ocsp"
  | MOptions => starts_with path "/api/search" || String.eqb path "/api/events"
  | _ => false
  end.

Definition enroll_path (path : string) : bool :=
  String.eqb path "/api/v1/agent/enroll" || String.eqb path "/api/agent/enroll".

Definition agent_path (path : string) : bool :=
  starts_with path "/api/v1/agent/" || starts_with path "/api/agent/" || String.eqb path "/api/v1/devices"
  || starts_with path "/api/v1/devices/".

(** The check at the head of [dispatch_with_query]. *)
Definition gate (m : HttpMethod) (path : string) (headers : HeaderMap) (s : AgentState) : AgentState * bool :=
  if negb (starts_with path "/api/") || public_api m path then (s, true)
  else if enroll_path path then (s, is_enroll_authorized headers)
  else if agent_path path then is_agent_authorized headers s
  else (s, control_authorized headers).

(** *** Handlers *)

Definition casb_update (body : string) (st : State) : State * ControlResponse :=
  match domains_of_json body with
  | Ok domains => (set_casb (set_domains domains (cs_casb st)) st, (200%N, CStatus "ok"))
  | Err e => (st, (400%N, CError e))
  end.

Definition dlp_update (body : string) (st : State) : State * ControlResponse :=
  match patterns_of_json body with
  | Ok patterns => (set_dlp (state_from_patterns patterns) st, (200%N, CStatus "ok"))
  | Err e => (st, (400%N, CError e))
  end.

(** Write the sidecar's file and reload it; a failure is only reported. *)
Definition sync_awg (status : string) (c : AwgServerConfig) (st : State) : State * ControlResponse :=
  let conf_path := default "./certs/awg/awg0.conf" (env_of st "AWG_CONFIG_PATH") in
  let '(c, file, res) :=
    sync_sidecar_interface (env_of st) (in_now (ci_agent inp)) (ci_write inp conf_path) (ci_awg_run inp) conf_path c in
  let st := set_awg c st in
  (match file with Some content => write_file conf_path content st | None => st end,
   (200%N, CAwgReload status (match res with Ok msg => msg | Err e => e end) conf_path)).

Definition amneziawg_update (body : string) (st : State) : State * ControlResponse :=
  match awg_config_of_json body with
  | Ok c => sync_awg "ok" c st
  | Err e => (st, (400%N, CError e))
  end.

Definition amneziawg_add_peer (body : string) (st : State) : State * ControlResponse :=
  match awg_peer_of_json body with
  | Ok peer => sync_awg "ok" (with_peers (aw_peers (cs_awg st) ++ [peer]) (cs_awg st)) st
  | Err e => (st, (400%N, CError e))
  end.

Definition amneziawg_delete_peer (body : string) (st : State) : State * ControlResponse :=
  match awg_delete_of_json body with
  | Ok id =>
      let before := aw_peers (cs_awg st) in
      let peers := List.filter (fun p => negb (String.eqb (ap_id p) id)) before in
      if Nat.eqb (length peers) (length before) then (st, (404%N, CError "peer not found"))
      else sync_awg "deleted" (with_peers peers (cs_awg st)) st
  | Err e => (st, (400%N, CError e))
  end.

Definition threat_sync_broadcast (body : string) (st : State) : State * ControlResponse :=
  match threat_of_json body with
  | Err e => (st, (400%N, CError ("invalid threat event payload: " +:+ escape_json e)))
  | Ok event =>
      let '(t, res) := broadcast (ci_millis inp) (in_now (ci_agent inp)) (ci_publish inp) event (cs_threat st) in
      (set_threat t st,
       match res with
       | Ok _ => (200%N, CStatus "broadcasted")
       | Err e => (500%N, CError ("broadcast failed: " +:+ escape_json e))
       end)
  end.

Definition hierarchy_reload_payload (st : State) : State * result (PeerConfigSource * ReplaceStaticStats) string :=
  match cs_peers st with
  | None => (st, Err "hierarchy disabled (HIERARCHY_ENABLED=false)")
  | Some registry =>
      let reader := {| read_to_string := fun p => match read st p with Ok c => Some c | Err _ => None end;
                       peers_from_json := peers_json |} in
      let '(registry, res) := @reload_static_peers reader (env_of st) (ci_now_ns inp) (ct_use_htcp cfg) registry in
      (set_peers registry st,
       match res with Ok (stats, source) => Ok (source, stats) | Err e => Err (peers_error_text e) end)
  end.

Definition hierarchy_reload (st : State) : State * ControlResponse :=
  let '(st, res) := hierarchy_reload_payload st in
  (st, match res with
       | Ok (source, stats) => (200%N, CHierarchy source stats)
       | Err e => if str_contains e "hierarchy disabled" then
                    (503%N, CError "hierarchy disabled (HIERARCHY_ENABLED=false)")
                  else (400%N, CError (escape_json e))
       end).

Definition upstream_tls_reload_payload (st : State) : State * result UpstreamTlsSnapshot string :=
  let '(t, res) := reload_from_env (env_of st) (in_now (ci_agent inp)) (read st) (cs_tls st) in
  (set_tls t st, res).

Definition upstream_tls_reload (st : State) : State * ControlResponse :=
  let '(st, res) := upstream_tls_reload_payload st in
  (st, match res with Ok t => (200%N, CTls t) | Err e => (400%N, CError (escape_json e)) end).

(** The rules of an applied configuration: written, then loaded. *)
Definition apply_rules (rules : string) (merged : gmap string string) (st : State)
    : option (State * result (list string) string) :=
  let path := default "./acl-rules.json" (or_else (merged !! "ACL_RULES_PATH"%string) (env_of st "ACL_RULES_PATH")) in
  match acl_rules_pretty rules, ci_write inp path with
  | Err e, _ => Some (st, Err e)
  | Ok _, Err e => Some (st, Err e)
  | Ok content, Ok _ =>
      let content := content +:+ nl in
      let st := write_file path content st in
      match cs_acl st with
      | None => Some (st, Ok [])
      | Some acl =>
          '(acl, res) ← reload_from_disk (ct_acl cfg) (read st) acl;
          Some (set_acl acl st, Ok (match res with Ok n => ["acl:" +:+ pretty (n : N)] | Err _ => [] end))
      end
  end.

(** What follows the rules: TLS, peers, restart. *)
Definition apply_rest (hot : list string) (restart : option bool) (st : State) : State * ControlResponse :=
  let '(st, tls) := upstream_tls_reload_payload st in
  let hot := if is_ok tls then hot ++ ["upstream_tls"%string] else hot in
  let '(st, peers) := hierarchy_reload_payload st in
  let hot := if is_ok peers then hot ++ ["hierarchy"%string] else hot in
  if default true restart then
    if ct_restartable cfg then (set_restart st, (200%N, CApplied hot "scheduled"))
    else (st, (200%N, CApplied hot "unavailable"))
  else (st, (200%N, CApplied hot "skipped")).

Definition config_apply (body : string) (st : State) : option (State * ControlResponse) :=
  match apply_of_json body with
  | Err e => Some (st, (400%N, CError ("invalid config apply payload: " +:+ escape_json e)))
  | Ok req =>
      if bool_decide (ca_env req = ∅) then Some (st, (400%N, CError "env map must not be empty"))
      else
        let merged := merge_env (ca_env req) (match read_env_file (env_file st) with Ok m => m | Err _ => ∅ end) in
        match ci_write inp (env_path st) with
        | Err e => Some (st, (500%N, CError (escape_json e)))
        | Ok _ =>
            let st := write_file (env_path st) (format_env_file merged) st in
            let st := set_env (apply_env_map merged (cs_env st)) st in
            match ca_acl_rules req with
            | None => Some (apply_rest [] (ca_restart req) st)
            | Some rules =>
                '(st, res) ← apply_rules rules merged st;
                Some match res with
                     | Err e => (st, (400%N, CError (escape_json e)))
                     | Ok hot => apply_rest hot (ca_restart req) st
                     end
            end
        end
  end.

Definition pinning_reload_api (body : string) (st : State) : State * ControlResponse :=
  match reload_of_json body with
  | Err e => (st, (400%N, CError ("invalid reload payload: " +:+ e)))
  | Ok (actor, reason) =>
      let '(p, records, res) :=
        pinning_reload (ci_now_ns inp) actor reason (ci_pinning_document inp) (ci_pinning_audit inp) (cs_pinning st) in
      let st := set_pinning p records st in
      match res with
      | Ok report =>
          let s := cs_agents st in
          let now := in_now (ci_agent inp) in
          let hub :=
            publish_from_runtime (env_of st) (ci_now_ns inp) now now now p ("pinning-reload:" +:+ reason) (ag_hub s) in
          (set_agents {| ag_trust := ag_trust s; ag_ingest := ag_ingest s; ag_hub := hub |} st, (200%N, CReloaded report))
      | Err e => (st, (400%N, CPinningError e))
      end
  end.

(** Remove the keys of a tag from both caches. *)
Fixpoint purge_tags (tags : list string) (removed : N) (st : State) : option (State * N) :=
  match tags with
  | [] => Some (st, removed)
  | tag :: tags =>
      let keys := keys_for_tag order tag (tag_index (cs_l1 st)) in
      '(l1, n) ← purge_keys hash keys removed (cs_l1 st);
      let sent := match ct_l2 cfg with Some prefix => mjoin (l2_delete prefix <$> keys) | None => [] end in
      purge_tags tags n (set_caches l1 sent st)
  end.

Definition purge_payload (req : PurgeRequest) (st : State) : option (State * result PurgeResult string) :=
  if pu_all req then
    let '(l1, removed) := l1_clear (cs_l1 st) in
    let sent := match ct_l2 cfg with Some _ => flush_prefix 0 (ci_scan inp) | None => [] end in
    Some (set_caches l1 sent st, Ok {| pz_scope := "all"; pz_removed := removed; pz_url := None; pz_tags := [] |})
  else
    let tags := collect_purge_tags req in
    match tags with
    | _ :: _ =>
        '(st, removed) ← purge_tags tags 0 st;
        Some (st, Ok {| pz_scope := "tag"; pz_removed := removed; pz_url := None; pz_tags := tags |})
    | [] =>
        match non_empty (pu_url req) with
        | None => Some (st, Err purge_usage)
        | Some url =>
            let key := http_cache_key (default "GET" (pu_method req)) url in
            '(l1, r) ← l1_remove hash key (cs_l1 st);
            let sent := match ct_l2 cfg with Some prefix => l2_delete prefix key | None => [] end in
            Some (set_caches l1 sent st,
                  Ok {| pz_scope := "url"; pz_removed := if present r then 1 else 0; pz_url := Some url; pz_tags := [] |})
        end
    end.

Definition purge (body : string) (st : State) : option (State * ControlResponse) :=
  match (if str_is_empty body then Ok PurgeRequest_default else purge_of_json body) with
  | Err e => Some (st, (400%N, CError ("invalid json: " +:+ escape_json e)))
  | Ok req =>
      '(st, res) ← purge_payload req st;
      Some (st, match res with Ok r => (200%N, CPurged r) | Err e => (400%N, CError (escape_json e)) end)
  end.

(** auth.rs: the hashes are left out. *)
Definition get_basic_users (a : AuthManager) : list BasicUser :=
  (fun u => {| bu_username := bu_username u; bu_password_hash := EmptyString; bu_role := bu_role u |})
    <$> (map_listing (am_basic_users a)).*2.

Definition basic_users_list (st : State) : ControlResponse :=
  match cs_auth st with
  | None => (503%N, CError "Auth backend not enabled")
  | Some a => (200%N, CUsers (get_basic_users a))
  end.

Definition basic_users_put (body : string) (st : State) : State * ControlResponse :=
  match cs_auth st with
  | None => (st, (503%N, CError "Auth backend not enabled"))
  | Some a =>
      match put_user_of_json body with
      | None => (st, (400%N, CError "invalid json"))
      | Some (username, password, role) =>
          if str_is_empty username || str_is_empty role then
            (st, (400%N, CError "username and role cannot be empty"))
          else
            let '(a, res) := put_basic_user (ci_users_io inp) username password role a in
            (set_auth a st, match res with Ok _ => (200%N, CStatus "ok") | Err e => (400%N, CError e) end)
      end
  end.

Definition basic_users_delete (body : string) (st : State) : State * ControlResponse :=
  match cs_auth st with
  | None => (st, (503%N, CError "Auth backend not enabled"))
  | Some a =>
      match delete_user_of_json body with
      | None => (st, (400%N, CError "invalid json"))
      | Some username =>
          let '(a, res) := remove_basic_user (ci_users_io inp) username a in
          (set_auth a st,
           match res with
           | Ok true => (200%N, CStatus "ok")
           | Ok false => (404%N, CError "user not found")
           | Err e => (500%N, CError e)
           end)
      end
  end.

Definition wasm_reload : ControlResponse :=
  match ci_wasm inp with
  | None => (400%N, CError "WASM hook is not enabled")
  | Some (Ok _) => (200%N, CStatus "reloaded")
  | Some (Err _) => (500%N, CError "reload failed")
  end.

Definition peer_item (r : PeerRegistry) (p : CachePeer) : PeerListItem :=
  let c := cp_config p in
  {| pi_id := cp_id p; pi_host := pc_host c; pi_port := pc_port c; pi_peer_type := peer_type_display (pc_peer_type c);
     pi_weight := pc_weight c; pi_icp_port := pc_icp_port c; pi_healthy := cp_healthy p;
     pi_is_static := is_static (cp_id p) r |}.

Definition hierarchy_peers (st : State) : ControlResponse :=
  (200%N, match cs_peers st with
          | None => CPeers false []
          | Some r => CPeers true (merge_sort peer_item_le ((fun p => peer_item r p.2) <$> all_peers r))
          end).

(** The counters of the metrics registry are left out. *)
Definition stats (st : State) : ControlResponse :=
  let c := cs_l1 st in
  (200%N, CStats (l1_len c) (l1_capacity c) (N.of_nat (length (shards c))) (N.of_nat (tag_count (tag_index c)))).

(** *** Routes *)

Definition route_get (path : string) (st : State) : ControlResponse :=
  if String.eqb path "/api/config" then
    match config_snapshot (env_file st) (cs_env st) with
    | Ok env => (200%N, CConfig env)
    | Err e => (500%N, CError (escape_json e))
    end
  else if String.eqb path "/api/stats" then stats st
  else if String.eqb path "/api/hierarchy/peers" then hierarchy_peers st
  else if String.eqb path "/api/upstream/tls" then (200%N, CTls (cs_tls st))
  else if String.eqb path "/api/security/casb" then (200%N, CDomains (cs_casb st))
  else if String.eqb path "/api/security/dlp" then (200%N, CPatterns (dlp_patterns (cs_dlp st)))
  else if String.eqb path "/api/auth/basic/users" then basic_users_list st
  else if String.eqb path "/api/amneziawg/status" then (200%N, CAwg (cs_awg st))
  else if String.eqb path "/api/cluster/session-state" then (200%N, CSessions (ci_sessions inp).1 (ci_sessions inp).2)
  else if String.eqb path "/api/threats/sync/peers" then
    (200%N, CThreats (ts_node_id (cs_threat st)) (ts_redis (cs_threat st)) (get_peers (cs_threat st))
              (ts_recent_events (cs_threat st)))
  else if String.eqb path "/api/pinning/exceptions" then
    (200%N, CPinning (cs_pinning st) (N.of_nat (length (active_domains (ci_now_ns inp) (cs_pinning st)))))
  else if negb (starts_with path "/api/") then serve_static_ui (ct_admin_console_dir cfg) (is_file st) (read st) path
  else (404%N, CError "not found").

Definition route_post (path body : string) (st : State) : option (State * ControlResponse) :=
  if String.eqb path "/api/config/apply" then config_apply body st
  else if String.eqb path "/api/cache/purge" then purge body st
  else if String.eqb path "/api/hierarchy/reload" then Some (hierarchy_reload st)
  else if String.eqb path "/api/upstream/tls/reload" then Some (upstream_tls_reload st)
  else if String.eqb path "/api/security/casb" then Some (casb_update body st)
  else if String.eqb path "/api/security/dlp" then Some (dlp_update body st)
  else if String.eqb path "/api/auth/basic/users" then Some (basic_users_put body st)
  else if String.eqb path "/api/amneziawg/config" then Some (amneziawg_update body st)
  else if String.eqb path "/api/amneziawg/peers" then Some (amneziawg_add_peer body st)
  else if String.eqb path "/api/threats/sync/broadcast" then Some (threat_sync_broadcast body st)
  else if String.eqb path "/api/pinning/exceptions/reload" then Some (pinning_reload_api body st)
  else if String.eqb path "/api/wasm/reload" then Some (st, wasm_reload)
  else Some (st, (404%N, CError "not found")).

Definition route_delete (path body : string) (st : State) : State * ControlResponse :=
  if String.eqb path "/api/auth/basic/users" then basic_users_delete body st
  else if String.eqb path "/api/amneziawg/peers" then amneziawg_delete_peer body st
  else (st, (404%N, CError "not found")).

Definition route (m : HttpMethod) (path body : string) (st : State) : option (State * ControlResponse) :=
  match m with
  | MGet => Some (st, route_get path st)
  | MPost => route_post path body st
  | MDelete => Some (route_delete path body st)
  | _ => Some (st, (404%N, CError "not found"))
  end.

Definition proxy_search_request (m : HttpMethod) (path query : string) (headers : HeaderMap) (body : string)
    (st : State) : ControlResponse :=
  if negb (ci_client inp) then (500%N, CError "search proxy client error")
  else
    match m with
    | MGet | MPost | MOptions =>
        match ci_search inp (search_request (env_of st) m path query headers body) with
        | SearchReplied status content_type allow_origin (Some bytes) =>
            (status, CSearch (default "application/json" content_type) allow_origin bytes)
        | SearchReplied _ _ _ None => (502%N, CError "search upstream body error")
        | SearchUnreachable =>
            (502%N, CError ("search upstream unreachable (" +:+ upstream_base (env_of st)
                            +:+ "): set SEARCH_UPSTREAM_URL or start cache-indexer"))
        end
    | _ => (405%N, CError "method not allowed")
    end.

Definition dispatch_rest (m : HttpMethod) (path : string) (query : option string) (body : string) (headers : HeaderMap)
    (st : State) : option (State * ControlResponse) :=
  if starts_with path "/api/search" || String.eqb path "/api/events" then Some (st, proxy_search_request m path (default EmptyString query) headers body st)
  else
    let rpz :=
      api ← cs_rpz st;
      rpz_dispatch (ci_fetch inp) (ci_millis inp) (ci_stamp inp) (ci_list_io inp) (ci_rpz_io inp) (rpz_method m) path
        (default EmptyString query) body api in
    match rpz with
    | Some (api, answer) =>
        Some (set_rpz api st,
              (match answer with AnsError status _ => status | _ => 200%N end, CRpz answer))
    | None => route m path body st
    end.

Definition dispatch_with_query (m : HttpMethod) (path : string) (query : option string) (body : string)
    (headers : HeaderMap) (st : State) : option (State * ControlResponse) :=
  let '(s, ok) := gate m path headers (cs_agents st) in
  let st := set_agents s st in
  if negb ok then Some (st, (401%N, CError "unauthorized"))
  else
    match dispatch_agent fate (env_of st) ca (cs_pinning st) (ci_agent inp) m path query body (cs_agents st) with
    | Some (s, (status, b)) => Some (set_agents s st, (status, CAgent b))
    | None => dispatch_rest m path query body headers st
    end.

(** The whole request: [upgrade] when it asks for a WebSocket; a body that cannot be
    read is empty. *)
Definition handle_request (upgrade : bool) (m : HttpMethod) (path : string) (query body : option string)
    (headers : HeaderMap) (st : State) : option (State * ControlResponse) :=
  if String.eqb path "/api/v1/agent/policy/ws" && bool_decide (m = MGet) && upgrade then
    let '(s, ok) := is_agent_authorized headers (cs_agents st) in
    let st := set_agents s st in
    Some (st, if negb ok then (401%N, CError "unauthorized")
              else match ci_upgrade inp with
                   | Ok _ => (101%N, CWebSocket (ps_document (hub_state (ag_hub s))))
                   | Err e => (400%N, CError ("websocket upgrade: " +:+ e))
                   end)
  else dispatch_with_query m path query (default EmptyString body) headers st.

(** *** gRPC (control_grpc.rs) *)

(** The message: a proto3 string is empty when it is absent. *)
Record ProtoPurgeRequest := {
  pp_all : bool;
  pp_url : string;
  pp_method : string;
  pp_tag : string;
  pp_tags : list string;
}.

Inductive GrpcCall :=
  | GetStats | PurgeCache (req : ProtoPurgeRequest) | ListHierarchyPeers | ReloadHierarchy | GetUpstreamTls
  | ReloadUpstreamTls | GetAgentPolicy | PushAgentPolicy (reason : string)
  | WatchAgentPolicy (since : string).

Inductive GrpcStatus := Unauthenticated | InvalidArgument (e : string) | FailedPrecondition (e : string).

Definition bearer_from_metadata (meta : HeaderMap) : option string :=
  v ← hm_get_str meta "authorization"; or_else (strip_prefix "Bearer " v) (strip_prefix "bearer " v).

Definition require_auth (meta : HeaderMap) : bool :=
  negb auth_required || is_authorized_bearer (bearer_from_metadata meta).

Definition grpc_purge_request (p : ProtoPurgeRequest) : PurgeRequest :=
  {| pu_all := pp_all p; pu_url := non_empty (Some (pp_url p)); pu_method := non_empty (Some (pp_method p));
     pu_tag := non_empty (Some (pp_tag p)); pu_tags := pp_tags p |}.

Definition grpc_dispatch (call : GrpcCall) (meta : HeaderMap) (st : State)
    : option (State * result ControlBody GrpcStatus) :=
  let guarded (k : option (State * result ControlBody GrpcStatus)) :=
    if require_auth meta then k else Some (st, Err Unauthenticated) in
  match call with
  | GetStats => Some (st, Ok (stats st).2)
  | ListHierarchyPeers => Some (st, Ok (hierarchy_peers st).2)
  | GetUpstreamTls => Some (st, Ok (CTls (cs_tls st)))
  | PurgeCache req =>
      guarded ('(st, res) ← purge_payload (grpc_purge_request req) st;
               Some (st, match res with Ok r => Ok (CPurged r) | Err e => Err (InvalidArgument e) end))
  | ReloadHierarchy =>
      guarded (let '(st, res) := hierarchy_reload_payload st in
               Some (st, match res with
                         | Ok (source, stats) => Ok (CHierarchy source stats)
                         | Err e => Err (if str_contains e "hierarchy disabled" then FailedPrecondition e else InvalidArgument e)
                         end))
  | ReloadUpstreamTls =>
      guarded (let '(st, res) := upstream_tls_reload_payload st in
               Some (st, match res with Ok t => Ok (CTls t) | Err e => Err (InvalidArgument e) end))
  | GetAgentPolicy => guarded (Some (st, Ok (CAgent (agent_policy (cs_agents st)).2)))
  | WatchAgentPolicy since =>
      (** the first message of the stream *)
      let snap := hub_state (ag_hub (cs_agents st)) in
      guarded (Some (st, Ok (CAgent (BWatch (ps_document snap) (str_is_empty since || negb (String.eqb since (ps_version snap)))))))
  | PushAgentPolicy reason =>
      let reason := if str_is_empty (trim reason) then "grpc-push"%string else trim reason in
      let s := cs_agents st in
      let now := in_now (ci_agent inp) in
      let hub := publish_from_runtime (env_of st) (ci_now_ns inp) now now now (cs_pinning st) reason (ag_hub s) in
      guarded (Some (set_agents {| ag_trust := ag_trust s; ag_ingest := ag_ingest s; ag_hub := hub |} st,
                     Ok (CAgent (BPushed (hub_state hub)))))
  end.

End api.

(** What [ControlApiState::new] and [from_env] read; [dist] is whether
    ./admin-console/dist exists. *)
Definition control_settings_from_env (env : Env) (l2 : option string) (use_htcp dist restartable : bool)
    (acl : AclApiConfig) : ControlSettings :=
  {| ct_l2 := l2; ct_api_token := control_api_token_from_env env; ct_fail_closed := control_api_fail_closed env;
     ct_enroll_token := trimmed (env "AGENT_ENROLL_TOKEN"); ct_use_htcp := use_htcp;
     ct_admin_console_dir := or_else (env "ADMIN_CONSOLE_DIR") (if dist then Some "./admin-console/dist"%string else None);
     ct_acl := acl; ct_restartable := restartable |}.

(** ** The listeners (server.rs) *)

Inductive PortAnswer :=
  | ByAclApi
  | ByControlApi
  | ByPort (status : N) (text : string).

Definition metrics_scrape_ok {HT : HeaderText} (token : option string) (headers : HeaderMap) : bool :=
  match token with
  | None => true
  | Some expected =>
      match hm_get_str headers "authorization" ≫= strip_prefix "Bearer " with
      | Some t => constant_time_eq t expected
      | None => false
      end
  end.

Definition console_path (path : string) : bool :=
  starts_with path "/api/" || String.eqb path "/" || String.eqb path "/trust" || starts_with path "/trust/"
  || String.eqb path "/admin" || starts_with path "/admin/" || starts_with path "/assets"
  || ends_with path ".svg" || ends_with path ".png" || ends_with path ".js" || ends_with path ".css".

(** The metrics port: [acl] and [control] tell whether the parts exist; [export] is
    the text of the metrics, [None] when it fails. *)
Definition metrics_server {HT : HeaderText} (acl control draining : bool) (token export : option string)
    (path : string) (headers : HeaderMap) : PortAnswer :=
  if acl && starts_with path "/api/acl/" then ByAclApi
  else if control && console_path path then ByControlApi
  else if String.eqb path "/metrics" then
    if metrics_scrape_ok token headers then
      match export with Some text => ByPort 200 text | None => ByPort 500 "500 Internal Server Error" end
    else ByPort 401 "unauthorized"
  else if String.eqb path "/health" then ByPort 200 ("{" +:+ quoted "status" +:+ ":" +:+ quoted "ok" +:+ "}")
  else if String.eqb path "/ready" then
    if draining then ByPort 503 ("{" +:+ quoted "status" +:+ ":" +:+ quoted "draining" +:+ "}")
    else ByPort 200 ("{" +:+ quoted "status" +:+ ":" +:+ quoted "ready" +:+ "}")
  else ByPort 404 "404 Not Found".

(** The gate of the mutual-TLS port after the handshake: [fp] is the fingerprint of
    the client's leaf. *)
Definition mtls_gate {DJ : DeviceJson} {CJ : CrlJson} {MO : MapOrder} (fate : N -> Fate)
    (require_enrolled check_crl : bool) (fp : option string) (t : Trust) : Trust * bool :=
  let '(t, revoked) :=
    match fp with
    | Some fp =>
        if check_crl then
          let '(c, r, b) := is_fingerprint_revoked fate fp (tr_crl t) (tr_redis t) in
          ({| tr_crl := c; tr_devices := tr_devices t; tr_redis := r |}, b)
        else (t, false)
    | None => (t, false)
    end in
  if revoked then (t, false)
  else if require_enrolled then
    match fp with
    | Some fp =>
        let '(reg, r, b) := cert_fingerprint_valid fate fp (tr_devices t) (tr_redis t) in
        ({| tr_crl := tr_crl t; tr_devices := reg; tr_redis := r |}, b)
    | None => (t, false)
    end
  else (t, true).

(** What that port serves to a connection that passed. *)
Definition mtls_server (path : string) : PortAnswer :=
  if String.eqb path "/health" || String.eqb path "/ready" then
    ByPort 200 ("{" +:+ quoted "status" +:+ ":" +:+ quoted "ok" +:+ "," +:+ quoted "mtls" +:+ ":true}")
  else if agent_path path || String.eqb path "/api/v1/agent/crl" || String.eqb path "/api/v1/agent/crl.pem" then ByControlApi
  else ByPort 404 "use this port for /api/v1/agent/* only".
