(* ===== verification/ControlAccess.v ===== *)
(** * What the control plane guarantees

    Over the handlers of ControlApi: which requests change which part of the state,
    what the console serves, what applying settings and purging by tag leave behind,
    and whom the mutual-TLS port lets in. *)

From Stdlib Require Import Ascii String NArith Lia.
From stdpp Require Import base option gmap sets strings pretty numbers list sorting.
From S2P Require Import Prelude Http Bytes CacheDigest Acl AclApi CacheEntry L1Cache L2Cache Inspection Float64.
From S2P Require Import Peers Discovery SemanticCache Auth RpzApi Devices AgentCrl Pinning AgentPolicy AgentApi ControlConfig.
From S2P Require Import ControlApi.

(** ** Lemmas: paths *)

Lemma other_path (p path lit : string) : starts_with path p = false -> starts_with lit p = true -> String.eqb path lit = false.
Proof. intros H1 H2. apply String.eqb_neq. intros ->. congruence. Qed.

Lemma other_prefix (p path q : string) : starts_with path p = false -> starts_with q p = true -> starts_with path q = false.
Proof.
  intros H1 H2. apply not_true_is_false. intros (r & ->)%starts_with_spec. apply starts_with_spec in H2 as (r' & ->).
  rewrite string_app_assoc in H1. assert (starts_with (p +:+ (r' +:+ r)) p = true) by (apply starts_with_spec; by eexists).
  congruence.
Qed.

Lemma path_join_absolute base rel : path_join base ("/" +:+ rel) = ("/" +:+ rel)%string.
Proof. done. Qed.

(** Decide the tests of a path outside a prefix, or of a path with one. *)
Ltac outside H :=
  repeat match type of H with
  | starts_with ?path ?p = false =>
      match goal with
      | |- context [String.eqb path ?lit] => rewrite (other_path p path lit H eq_refl)
      | |- context [starts_with path ?q] => first [rewrite H | rewrite (other_prefix p path q H eq_refl)]
      end
  end.
Ltac inside :=
  repeat match goal with
  | |- context [String.eqb (String.append ?p ?r) ?lit] => change (String.eqb (String.append p r) lit) with false
  | |- context [starts_with (String.append ?p ?r) ?q] =>
      first [change (starts_with (String.append p r) q) with false | change (starts_with (String.append p r) q) with true]
  end.

Section authority.
Context {SC : ShardCache CachedResponse} {SE : SspiEngine}.
Context {SH : Sha256} {B64 : Base64} {SJ : SerdeJson} {DJ : DeviceJson} {CJ : CrlJson} {MO : MapOrder}
  {OC : OcspCodec} {AJ : AgentJson} {RJ : RpzJson} {CTJ : ControlJson} {HT : HeaderText}
  {RE : RegexEngine} {UJ : RuleJson} {HO : HashOrder} {PR : PemReader}.
Context (hash : string -> N) (order : gset string -> list string) (fate : N -> Fate).
Context (cfg : ControlSettings) (ca : option CertAuthority) (inp : ControlInputs).
Abbreviation State := ControlApiState.

Lemma set_agents_same (st : State) : set_agents (cs_agents st) st = st.
Proof. by destruct st. Qed.

Lemma set_agents_twice a b (st : State) : set_agents a (set_agents b st) = set_agents a st.
Proof. by destruct st. Qed.

(** A path on which nothing but the agents' part can act. *)
Definition idle (m : HttpMethod) (path : string) : Prop :=
  forall query body headers (st st' : State) resp,
    dispatch_rest hash order cfg inp m path query body headers st = Some (st', resp) -> st' = st.

Lemma idle_outside m path : starts_with path "/api/" = false -> idle m path.
Proof.
  intros H query body headers st st' resp. unfold dispatch_rest, rpz_dispatch. outside H. cbn [orb negb].
  replace (cs_rpz st ≫= _) with (@None (RpzApi * RpzAnswer)) by (by destruct (cs_rpz st)).
  unfold route, route_post, route_delete. destruct m; outside H; congruence.
Qed.

Lemma idle_prefixed m r p :
  p ∈ ["/api/v1/agent/"; "/api/agent/"; "/api/v1/devices"]%string -> idle m (p +:+ r).
Proof.
  intros Hp query body headers st st' resp. rewrite !elem_of_cons, elem_of_nil in Hp. destruct Hp as [->|[->|[->|[]]]];
    unfold dispatch_rest, rpz_dispatch; inside; cbn [orb negb];
    replace (cs_rpz st ≫= _) with (@None (RpzApi * RpzAnswer)) by (by destruct (cs_rpz st));
    unfold route, route_post, route_delete; destruct m; inside; congruence.
Qed.

Lemma idle_agent m path : agent_path path || enroll_path path = true -> idle m path.
Proof.
  unfold agent_path, enroll_path. rewrite !orb_true_iff, !starts_with_spec, !String.eqb_eq.
  intros [[[[(r & ->)|(r & ->)]| ->]|(r & ->)]|[-> | ->]].
  - apply idle_prefixed. set_solver.
  - apply idle_prefixed. set_solver.
  - apply (idle_prefixed m EmptyString "/api/v1/devices"). set_solver.
  - apply (idle_prefixed m ("/" +:+ r) "/api/v1/devices"). set_solver.
  - apply (idle_prefixed m "enroll" "/api/v1/agent/"). set_solver.
  - apply (idle_prefixed m "enroll" "/api/agent/"). set_solver.
Qed.

Lemma idle_get path : starts_with path "/api/dns/" = false -> idle MGet path.
Proof.
  intros H query body headers st st' resp. unfold dispatch_rest, rpz_dispatch. rewrite H.
  case_match; [congruence|]. cbn [negb]. by replace (cs_rpz st ≫= _) with (@None (RpzApi * RpzAnswer)) by (by destruct (cs_rpz st)); intros [= <- _].
Qed.

Lemma idle_public m path : public_api m path = true -> idle m path.
Proof.
  destruct m; try done; cbn [public_api].
  - rewrite !orb_true_iff, !String.eqb_eq. intros [[[-> | ->]| ->]| ->]; by apply idle_get.
  - intros ->%String.eqb_eq. by apply idle_agent.
  - intros H query body headers st st' resp. unfold dispatch_rest. rewrite H. congruence.
Qed.

(** Without the control token, what a request reaches is idle. *)
Lemma gate_idle m path headers s s' :
  control_authorized cfg headers = false -> gate fate cfg m path headers s = (s', true) -> idle m path.
Proof.
  intros Hc. unfold gate. destruct (negb (starts_with path "/api/")) eqn:E1; cbn [orb].
  { intros _. by apply idle_outside, negb_true_iff. }
  destruct (public_api m path) eqn:E2; [intros _; by apply idle_public|].
  destruct (enroll_path path) eqn:E3; [intros _; apply idle_agent; by rewrite E3, orb_true_r|].
  destruct (agent_path path) eqn:E4; [intros _; apply idle_agent; by rewrite E4|]. rewrite Hc. congruence.
Qed.

(** C9: Only the holder of the control token operates the proxy.  A request without
    that token leaves the caches, the peers, the filters, the users, the pinning
    exceptions, the sidecar, the settings, the files, the rules, the zone and the
    restart flag as they are, whatever its method, path, query and body, and whatever
    other credentials it carries: all it can touch is the state of the agents. *)
Theorem control_token_required (m : HttpMethod) (path : string) (query : option string) (body : string)
    (headers : HeaderMap) (st st' : State) (resp : ControlResponse)
    (Htoken : control_authorized cfg headers = false)
    (Hrun : dispatch_with_query hash order fate cfg ca inp m path query body headers st = Some (st', resp)) :
  exists a, st' = set_agents a st.
Proof.
  revert Hrun. unfold dispatch_with_query. destruct (gate _ _ _ _ _ _) as [s ok] eqn:Eg.
  destruct ok; cbn [negb]; [|intros [= <- _]; by eexists].
  destruct (dispatch_agent _ _ _ _ _ _ _ _ _ _) as [[s' [status b]]|]; [intros [= <- _]; eexists; apply set_agents_twice|].
  intros H. apply (gate_idle _ _ _ _ _ Htoken Eg) in H as ->. by eexists.
Qed.

(** *** Nobody's requests *)

Lemma check_status_keeps now fp ser t : own_trust t -> (check_status fate now fp ser t).1 = t.
Proof.
  intros Ht. destruct (present (trimmed fp) || present (trimmed ser)) eqn:E.
  - destruct (check_status_own fate now fp ser t Ht E) as (resp & -> & _). done.
  - unfold check_status. by rewrite <- negb_orb, E.
Qed.

Lemma respond_each_keeps clock tu nu serials t : own_trust t -> (respond_each fate clock tu nu serials t).1 = t.
Proof.
  intros Ht. induction serials as [|s serials IH]; [done|]. cbn [respond_each].
  pose proof (check_status_keeps (clock (length serials)) None (Some s) t Ht) as Hk.
  destruct (check_status _ _ _ _ _) as [t1 lab]. cbn [fst] in Hk. subst t1.
  destruct lab as [lab|e]; [|done]. destruct (cert_status_from_lab lab); [|done].
  destruct (respond_each _ _ _ _ serials t) as [t2 rest]. exact IH.
Qed.

Lemma respond_der_keeps clock now now' parses der t : own_trust t -> (respond_der fate clock now now' parses der t).1 = t.
Proof.
  intros Ht. unfold respond_der. destruct (str_is_empty der); [done|].
  destruct (ocsp_from_der der) as [[serials nonce]|e]; [|done]. destruct serials as [|s serials]; [done|].
  destruct parses; [|done]. destruct (ocsp_time now) as [tu|]; [|done]. destruct (ocsp_time _) as [nu|]; [|done].
  pose proof (respond_each_keeps clock tu nu (s :: serials) t Ht) as H.
  by destruct (respond_each _ _ _ _ _ _) as [t2 rest].
Qed.

Lemma set_trust_same (s : AgentState) : set_trust (ag_trust s) s = s.
Proof. by destruct s. Qed.

Lemma agent_ocsp_der_keeps body s :
  own_trust (ag_trust s) -> (agent_ocsp_der fate ca (ci_agent inp) body s).1 = s.
Proof.
  intros Ht. unfold agent_ocsp_der. destruct ca as [c|]; [|done].
  pose proof (respond_der_keeps (in_clock (ci_agent inp)) (in_now (ci_agent inp)) (in_now (ci_agent inp)) (ca_parses c) body
                (ag_trust s) Ht) as H.
  destruct (respond_der _ _ _ _ _ _ _) as [t res]. cbn [fst] in *. subst t. apply set_trust_same.
Qed.

Lemma device_token_valid_keeps token reg r :
  reg_redis reg = None ->
  device_token_valid fate token reg r = (reg, r, (device_token_valid fate token reg r).2).
Proof.
  intros H. unfold device_token_valid. destruct (str_is_empty token); [done|].
  by rewrite check_device_local by (intros; by apply get_indexed_local).
Qed.

(** What reaches the agents' part without any credential. *)
Lemma open_agent_request m path query body s s' resp :
  own_trust (ag_trust s) -> negb (starts_with path "/api/") || public_api m path = true ->
  forall pinning env, dispatch_agent fate env ca pinning (ci_agent inp) m path query body s = Some (s', resp) -> s' = s.
Proof.
  intros Ht Hp pinning env. apply orb_true_iff in Hp as [H%negb_true_iff|H].
  - assert (Hr : strip_revoke path = None).
    { unfold strip_revoke. pose proof (other_prefix "/api/" path "/api/v1/devices/" H eq_refl) as E.
      unfold starts_with in E. by destruct (strip_prefix _ path). }
    unfold dispatch_agent, dispatch_get, dispatch_post. rewrite Hr. destruct m; outside H; congruence.
  - destruct m; try done; cbn [public_api] in H.
    + rewrite !orb_true_iff, !String.eqb_eq in H. destruct H as [[[-> | ->]| ->]| ->]; [done..|].
      cbn [dispatch_agent]. change (dispatch_get _ _ _ _ _ _) with (Some (agent_ocsp_der_get fate ca (ci_agent inp) query s)).
      unfold agent_ocsp_der_get. intros [= Heq]. destruct (query_value _ _); [|by injection Heq].
      destruct (decode_b64_request _) as [der|e]; [|by injection Heq].
      by rewrite <- (agent_ocsp_der_keeps der s Ht), Heq.
    + apply String.eqb_eq in H as ->. cbn [dispatch_agent].
      change (dispatch_post _ _ _ _ _ _ _ _) with (Some (agent_ocsp_der fate ca (ci_agent inp) body s)).
      intros [= Heq]. by rewrite <- (agent_ocsp_der_keeps body s Ht), Heq.
Qed.

(** A request without credentials changes nothing.  On a node of its own, when the
    bearer is neither the control token, nor the enrolment token, nor the token of a
    device that is not revoked, the state of the whole control plane is as it was;
    and the answer is 401, unless the path is public or outside the API. *)
Theorem unauthorized_changes_nothing (m : HttpMethod) (path : string) (query : option string) (body : string)
    (headers : HeaderMap) (st st' : State) (resp : ControlResponse)
    (Hown : own_trust (ag_trust (cs_agents st)))
    (Htoken : control_authorized cfg headers = false)
    (Henroll : is_enroll_authorized cfg headers = false)
    (Hdevice : forall token, extract_bearer headers = Some token ->
       (device_token_valid fate token (tr_devices (ag_trust (cs_agents st))) (tr_redis (ag_trust (cs_agents st)))).2 = false)
    (Hrun : dispatch_with_query hash order fate cfg ca inp m path query body headers st = Some (st', resp)) :
  st' = st /\ (resp.1 = 401%N \/ starts_with path "/api/" = false \/ public_api m path = true).
Proof.
  assert (Hagent : is_agent_authorized fate cfg headers (cs_agents st) = (cs_agents st, false)).
  { unfold is_agent_authorized. rewrite Htoken. destruct (extract_bearer headers) as [token|] eqn:E.
    - rewrite (device_token_valid_keeps token _ _ (proj2 Hown)), (Hdevice token eq_refl).
      by destruct (cs_agents st) as [[] ? ?].
    - f_equal. revert Htoken. unfold control_authorized, is_authorized_bearer. rewrite E.
      destruct (ct_api_token cfg); [done|]. cbn. by intros ->. }
  revert Hrun. unfold dispatch_with_query. destruct (gate _ _ _ _ _ _) as [s ok] eqn:Eg.
  assert (Hs : s = cs_agents st /\ (ok = true -> negb (starts_with path "/api/") || public_api m path = true)).
  { revert Eg. unfold gate. rewrite Hagent, Henroll, Htoken. repeat case_match; intros [= <- <-]; done. }
  destruct Hs as [-> Hopen]. rewrite set_agents_same. destruct ok; cbn [negb]; [|intros [= <- <-]; by split; [|left]].
  specialize (Hopen eq_refl). intros Hrun. split; [|right; apply orb_true_iff in Hopen as [H%negb_true_iff|H]; tauto].
  destruct (dispatch_agent _ _ _ _ _ _ _ _ _ _) as [[s' [status b]]|] eqn:Ea.
  - injection Hrun as <- _. apply open_agent_request in Ea as ->; [apply set_agents_same|done|done].
  - by apply (gate_idle _ _ _ _ _ Htoken Eg) in Hrun.
Qed.

(** *** The console *)

(** C21: The console serves any file of the host to anybody (a defect).  For every
    absolute path without dots in a row or a NUL, a GET of [/admin/] followed by that
    path reaches the control plane on the metrics port and answers 200 with the
    content of the file, whatever the headers, the tokens and the directory of the
    console: the part after [/admin/] is absolute, so joining it drops the directory. *)
Theorem static_ui_reads_any_file (file content : string) (query : option string) (body : string) (headers : HeaderMap)
    (acl draining : bool) (token export : option string) (st : State)
    (Hdots : str_contains ("/admin//" +:+ file) ".." = false)
    (Hnul : str_contains ("/admin//" +:+ file) (String "000" EmptyString) = false)
    (Hfile : cs_files st !! ("/" +:+ file)%string = Some content)
    (Hread : ci_unreadable inp ("/" +:+ file) = None) :
  metrics_server acl true draining token export ("/admin//" +:+ file) headers = ByControlApi
  /\ dispatch_with_query hash order fate cfg ca inp MGet ("/admin//" +:+ file) query body headers st
     = Some (st, (200%N, CFile (mime_of (path_extension ("/" +:+ file))) content)).
Proof.
  split.
  { unfold metrics_server, console_path. inside. by rewrite andb_false_r. }
  unfold dispatch_with_query, gate. inside. cbn [negb orb]. rewrite set_agents_same.
  change (dispatch_agent _ _ _ _ _ _ _ _ _ _) with (@None (AgentState * AgentResponse)).
  unfold dispatch_rest, rpz_dispatch. inside. cbn [negb orb].
  replace (cs_rpz st ≫= _) with (@None (RpzApi * RpzAnswer)) by (by destruct (cs_rpz st)).
  unfold route, route_get. inside. cbn [negb]. unfold serve_static_ui. rewrite Hdots, Hnul. inside. cbn [orb].
  change (strip_prefix "/admin/" ("/admin//" +:+ file)) with (Some ("/" +:+ file)%string). cbn [default from_option id].
  change (str_is_empty ("/" +:+ file)) with false. rewrite path_join_absolute. unfold is_file, read.
  rewrite Hfile. cbn [present]. by rewrite Hread, Hfile.
Qed.

(** *** Applying settings *)

Lemma settings_fold (request m : gmap string string) k :
  map_fold (fun key value m => if str_is_empty value then delete key m else <[key := value]> m) m request !! k
  = match request !! k with Some v => if str_is_empty v then None else Some v | None => m !! k end.
Proof.
  revert k. apply (map_fold_weak_ind (fun (r : gmap string string) request => forall k,
    r !! k = match request !! k with Some v => if str_is_empty v then None else Some v | None => m !! k end)).
  - intros k. by rewrite lookup_empty.
  - intros i v rq r Hi IH k. destruct (decide (k = i)) as [->|Hne].
    + rewrite lookup_insert_eq. destruct (str_is_empty v); [apply lookup_delete_eq|apply lookup_insert_eq].
    + rewrite lookup_insert_ne by done. destruct (str_is_empty v); [rewrite lookup_delete_ne by done|rewrite lookup_insert_ne by done];
        apply IH.
Qed.

Lemma apply_rest_settings hot restart (st : State) :
  exists hot' status, let r := apply_rest cfg inp hot restart st in
    r.2 = (200%N, CApplied hot' status) /\ cs_env r.1 = cs_env st /\ cs_files r.1 = cs_files st.
Proof.
  unfold apply_rest, upstream_tls_reload_payload. destruct (reload_from_env _ _ _ _) as [t res].
  unfold hierarchy_reload_payload. destruct (cs_peers (set_tls t st)) as [reg|].
  - destruct (reload_static_peers _ _ _ _) as [reg' res'].
    destruct (default true restart); [destruct (ct_restartable cfg)|]; do 2 eexists; split_and!; reflexivity.
  - destruct (default true restart); [destruct (ct_restartable cfg)|]; do 2 eexists; split_and!; reflexivity.
Qed.


End authority.

(** ** Purging by tag *)

Section purging.
Context {SC : ShardCache CachedResponse} {SL : ShardCacheLaws SC} {SE : SspiEngine} {SH : Sha256}.
Context (hash : string -> N) (order : gset string -> list string) (Horder : forall s, order s ≡ₚ elements s).
Context (cfg : ControlSettings) (inp : ControlInputs).
Abbreviation State := ControlApiState.

Lemma set_caches_twice l1 sent l1' sent' (st : State) :
  set_caches l1 sent (set_caches l1' sent' st) = set_caches l1 (sent' ++ sent) st.
Proof. unfold set_caches. cbn. by rewrite app_assoc. Qed.

(** Purging the keys of one tag, as the entries see it. *)
Lemma purge_one_tag tag n (c : HttpL1Cache) :
  l1_ok hash c ->
  exists c' m, purge_keys hash (keys_for_tag order tag (tag_index c)) n c = Some (c', m) /\ l1_ok hash c'
    /\ (forall k v, l1_peek hash c' k = Some v <-> l1_peek hash c k = Some v /\ tag ∉ parse_cache_tags (cr_headers v))
    /\ (forall k v, l1_peek hash c k = Some v -> tag ∈ parse_cache_tags (cr_headers v) ->
          k ∈ keys_for_tag order tag (tag_index c)).
Proof.
  intros Hok. destruct (purge_keys_spec hash (keys_for_tag order tag (tag_index c)) n c Hok) as (c' & Hp & Hok' & Hpk & _).
  { destruct Hok as (_ & Ht & _). by apply keys_for_tag_NoDup. }
  exists c'. eexists. split; [exact Hp|]. split; [done|]. destruct Hok as (_ & Ht & Hag). split.
  - intros k v. rewrite Hpk. case_decide as Hin; rewrite keys_for_tag_spec in Hin by done.
    + split; [done|]. intros [Hv Hn]. by rewrite (Hag k v Hv) in Hin.
    + split; [|by intros [? _]]. intros Hv. split; [done|]. by rewrite <- (Hag k v Hv).
  - intros k v Hv Hin. rewrite keys_for_tag_spec by done. by rewrite (Hag k v Hv).
Qed.

Lemma purge_tags_spec tags n (st : State) :
  l1_ok hash (cs_l1 st) ->
  exists l1 sent m, purge_tags hash order cfg tags n st = Some (set_caches l1 sent st, m) /\ l1_ok hash l1
    /\ (forall k v, l1_peek hash l1 k = Some v <->
          l1_peek hash (cs_l1 st) k = Some v /\ forall t, t ∈ tags -> t ∉ parse_cache_tags (cr_headers v))
    /\ (forall k v t prefix, ct_l2 cfg = Some prefix -> l1_peek hash (cs_l1 st) k = Some v -> t ∈ tags ->
          t ∈ parse_cache_tags (cr_headers v) -> RDel [redis_key prefix k] ∈ sent).
Proof.
  revert n st. induction tags as [|tag tags IH]; intros n st Hok.
  - exists (cs_l1 st), [], n. split_and!; [|done|set_solver|set_solver].
    cbn. do 2 f_equal. destruct st. unfold set_caches. cbn. by rewrite app_nil_r.
  - destruct (purge_one_tag tag n (cs_l1 st) Hok) as (c1 & m1 & Hp & Hok1 & Hpk1 & Hkeys).
    cbn [purge_tags]. rewrite Hp. cbn [mbind option_bind]. set (sent1 := match ct_l2 cfg with Some _ => _ | None => _ end).
    destruct (IH m1 (set_caches c1 sent1 st) Hok1) as (l1 & sent & m & Hrun & Hok' & Hpk & Hsent).
    exists l1, (sent1 ++ sent), m. rewrite Hrun, set_caches_twice. split_and!; [done|done|..].
    + intros k v. rewrite Hpk. cbn [cs_l1 set_caches]. rewrite Hpk1. set_solver.
    + intros k v t prefix Hl2 Hv Ht Hin. apply elem_of_app.
      destruct (decide (tag ∈ parse_cache_tags (cr_headers v))) as [Htag|Htag].
      * left. unfold sent1. rewrite Hl2. apply list_elem_of_join. exists (l2_delete prefix k). split; [by left|].
        apply list_elem_of_fmap. exists k. split; [done|]. by eapply Hkeys.
      * right. eapply Hsent; [done|by apply Hpk1| |done]. set_solver.
Qed.

(** Purging by tag is exact in memory and reaches Redis.  On any reachable cache, a
    purge request with tags succeeds; the entries that remain in the first tier are
    exactly those that carry none of the requested tags, unchanged; and for every
    entry that carried one, the second tier is told to delete its key.  Nothing else
    of the state changes. *)
Theorem tag_purge_exact (cap shard_count : N) (req : PurgeRequest) (tag : string) (tags : list string) (st : State)
    (Hreach : l1_reachable hash order cap shard_count (cs_l1 st)) (Hall : pu_all req = false)
    (Htags : collect_purge_tags req = tag :: tags) :
  exists l1 sent removed,
    purge_payload hash order cfg inp req st
      = Some (set_caches l1 sent st,
              Ok {| pz_scope := "tag"; pz_removed := removed; pz_url := None; pz_tags := tag :: tags |})
    /\ (forall k v, l1_peek hash l1 k = Some v <->
          l1_peek hash (cs_l1 st) k = Some v /\ forall t, t ∈ tag :: tags -> t ∉ parse_cache_tags (cr_headers v))
    /\ (forall k v t prefix, ct_l2 cfg = Some prefix -> l1_peek hash (cs_l1 st) k = Some v -> t ∈ tag :: tags ->
          t ∈ parse_cache_tags (cr_headers v) -> RDel [redis_key prefix k] ∈ sent).
Proof.
  apply l1_reachable_ok in Hreach; [|done].
  destruct (purge_tags_spec (tag :: tags) 0 st Hreach) as (l1 & sent & m & Hrun & _ & Hpk & Hsent).
  exists l1, sent, m. unfold purge_payload. rewrite Hall, Htags. cbv iota zeta. rewrite Hrun. by split_and!.
Qed.

End purging.

(** ** The mutual-TLS port *)

Section port.
Context {DJ : DeviceJson} {CJ : CrlJson} {MO : MapOrder} (fate : N -> Fate).

(** Whom the port lets in.  On a node of its own with both checks on, a connection
    whose certificate has the fingerprint [fp] passes exactly when [fp] is not on the
    revocation list and an enrolled device that is not revoked has it, in any case of
    letters; the check changes nothing. *)
Theorem mtls_gate_exact (fp : string) (t : Trust) (Hown : own_trust t) (Hfp : str_is_empty fp = false) :
  mtls_gate fate true true (Some fp) t
  = (t, negb (existsb (by_fingerprint (to_ascii_lowercase fp)) (crl_entries (tr_crl t)))
        && any_device (fun d => negb (dev_revoked d) && field_is_lower (dev_cert_fingerprint d) (to_ascii_lowercase fp))
             (tr_devices t)).
Proof.
  destruct Hown as [Hc Hr]. unfold mtls_gate, is_fingerprint_revoked, crl_pull. rewrite Hfp, Hc.
  destruct (existsb _ (crl_entries _)); [by destruct t|]. cbn [negb andb]. unfold cert_fingerprint_valid. rewrite Hfp.
  rewrite check_device_local by (intros; by apply get_indexed_local). by destruct t.
Qed.

End port.

(** ** Instances *)

Module Demo.

#[local] Instance plain_sha : Sha256 := {| sha256 s := s; hex_encode s := s |}.
#[local] Instance plain_base64 : Base64 := {| base64_encode s := s; base64_decode := Some |}.
#[local] Instance no_json : SerdeJson := {|
  json_from_slice _ := None; json_to_vec _ := EmptyString; number_as_f64 _ := None |}.
#[local] Existing Instance Devices.Demo.text_json.
#[local] Existing Instance AgentCrl.Demo.text_crl.
#[local] Existing Instance AgentApi.Demo.csr_json.
#[local] Instance plain_order : MapOrder := fun _ m => map_to_list m.
#[local] Instance plain_listing : HashOrder := map_to_list.
#[local] Instance no_ocsp : OcspCodec := {|
  ocsp_from_der _ := Err "no request"%string; ocsp_time := Ok; sign_basic_response _ _ := Err "no key"%string |}.
#[local] Instance no_rpz : RpzJson := {|
  add_list_of_json _ := Err "no list"%string; add_rule_of_json _ := Err "no rule"%string;
  active_of_json _ := Err "no flag"%string; config_of_json _ := Err "no config"%string |}.
#[local] Instance no_pem : PemReader := {| pem_certs _ := Ok []; cert_parsable _ := true |}.
#[local] Instance no_sspi : SspiEngine := {|
  SspiSession := unit; sspi_scheme := "NTLM"; sspi_begin_session := Ok tt;
  sspi_process_token s _ := (s, Err "no token"%string) |}.

(** The body of an apply request empties [OLD] and sets [NEW]. *)
#[local] Instance demo_json : ControlJson := {|
  domains_of_json _ := Ok [];
  patterns_of_json _ := Ok [];
  awg_config_of_json _ := Err "no config"%string;
  awg_peer_of_json _ := Err "no peer"%string;
  awg_delete_of_json _ := Err "no id"%string;
  threat_of_json _ := Err "no event"%string;
  apply_of_json body := Ok {| ca_env := {["OLD"%string := EmptyString; "NEW"%string := body]}; ca_acl_rules := None; ca_restart := None |};
  acl_rules_pretty := Ok;
  reload_of_json _ := Err "no reload"%string;
  purge_of_json _ := Err "no purge"%string;
  put_user_of_json _ := None;
  delete_user_of_json _ := None;
  peers_json _ := None;
  peers_error_text _ := EmptyString |}.

Definition settings : ControlSettings := {|
  ct_l2 := Some "l2:"%string; ct_api_token := Some "control"%string; ct_fail_closed := true; ct_enroll_token := Some "enroll"%string;
  ct_use_htcp := false; ct_admin_console_dir := Some "/srv/console"%string;
  ct_acl := {| api_default_action := Allow; rules_path := None; AclApi.api_token := None; fail_closed := true |};
  ct_restartable := true |}.

Definition inputs : ControlInputs := {|
  ci_agent := AgentApi.Demo.inputs; ci_now_ns := 10; ci_millis := 10; ci_stamp := "now"; ci_users_io := Ok tt;
  ci_rpz_io := Ok tt; ci_list_io := Ok tt; ci_fetch _ := Err "offline"%string; ci_unreadable _ := None;
  ci_write _ := Ok tt; ci_awg_run := Succeeded; ci_publish := Ok tt; ci_pinning_document := Err "none"%string;
  ci_pinning_audit := None; ci_scan := []; ci_client := true; ci_search _ := SearchUnreachable; ci_sessions := (false, 0%N);
  ci_wasm := None; ci_upgrade := Ok tt |}.

Definition env_text : string := "CONTROL_API_TOKEN=control" +:+ nl.

Definition state : ControlApiState := {|
  cs_l1 := sample_l1; cs_l2_sent := []; cs_peers := None;
  cs_tls := UpstreamTlsSnapshot_from_config 0 (UpstreamTlsConfig_from_env (fun _ => None));
  cs_casb := ∅; cs_dlp := empty_state;
  cs_pinning := {| pg_entries := []; pg_source_path := None; pg_audit_path := None |}; cs_audit := []; cs_auth := None;
  cs_awg := AwgServerConfig_default;
  cs_threat := {| ts_node_id := "node"; ts_redis := false; ts_recent_events := []; ts_known_peers := [] |};
  cs_agents := AgentApi.Demo.enrolled; cs_acl := None; cs_rpz := None;
  cs_env := {["OLD"%string := "1"%string]};
  cs_files := {["/etc/bsdm-proxy/bsdm-proxy.env"%string := env_text]}; cs_restart := false |}.

Definition bearer (token : string) : HeaderMap := [("authorization"%string, "Bearer " +:+ token)].

Definition dispatched (m : HttpMethod) (path body token : string) : option (ControlApiState * ControlResponse) :=
  dispatch_with_query sample_hash elements AgentApi.Demo.up settings None inputs m path None body (bearer token) state.

Definition answer (r : option (ControlApiState * ControlResponse)) : ControlResponse := default (0%N, CStatus EmptyString) (snd <$> r).

(** A device's token revokes a device; it does not clear the filter. *)
Lemma control_token_required_witness :
  (answer (dispatched MPost "/api/v1/devices/laptop/revoke" EmptyString "bsdmagent_a")).1 = 200%N
  /\ exists st' resp a, dispatched MPost "/api/v1/devices/laptop/revoke" EmptyString "bsdmagent_a" = Some (st', resp)
       /\ st' = set_agents a state.
Proof.
  assert (Hp : present (dispatched MPost "/api/v1/devices/laptop/revoke" EmptyString "bsdmagent_a") = true)
    by (vm_compute; reflexivity).
  split; [vm_compute; reflexivity|].
  destruct (dispatched MPost "/api/v1/devices/laptop/revoke" EmptyString "bsdmagent_a") as [[st' resp]|] eqn:E; [|discriminate].
  destruct (control_token_required sample_hash elements AgentApi.Demo.up settings None inputs MPost
    "/api/v1/devices/laptop/revoke" None EmptyString (bearer "bsdmagent_a") state st' resp) as [a Ha];
    [vm_compute; reflexivity|exact E|].
  exists st', resp, a. split; [reflexivity|exact Ha].
Defined.

Lemma unauthorized_changes_nothing_witness :
  exists resp, dispatched MPost "/api/config/apply" "x" "guess" = Some (state, resp) /\ resp.1 = 401%N.
Proof.
  assert (Hp : present (dispatched MPost "/api/config/apply" "x" "guess") = true) by (vm_compute; reflexivity).
  destruct (dispatched MPost "/api/config/apply" "x" "guess") as [[st' resp]|] eqn:E; [|discriminate].
  destruct (unauthorized_changes_nothing sample_hash elements AgentApi.Demo.up settings None inputs MPost
    "/api/config/apply" None "x" (bearer "guess") state st' resp) as [-> [H|[H|H]]].
  - split; reflexivity.
  - vm_compute; reflexivity.
  - vm_compute; reflexivity.
  - intros token [= <-]. vm_compute. reflexivity.
  - exact E.
  - exists resp. split; [reflexivity|exact H].
  - discriminate.
  - discriminate.
Defined.

(** The environment file, with the control token in it, without any credential. *)
Lemma static_ui_reads_any_file_witness :
  dispatch_with_query sample_hash elements AgentApi.Demo.up settings None inputs MGet
    "/admin//etc/bsdm-proxy/bsdm-proxy.env" None EmptyString [] state
  = Some (state, (200%N, CFile "application/octet-stream" env_text)).
Proof.
  apply (static_ui_reads_any_file sample_hash elements AgentApi.Demo.up settings None inputs
    "etc/bsdm-proxy/bsdm-proxy.env" env_text None EmptyString [] false false None None state); vm_compute; reflexivity.
Defined.

Definition demo_request : ConfigApplyRequest :=
  {| ca_env := {["OLD"%string := EmptyString; "NEW"%string := "2"%string]}; ca_acl_rules := None; ca_restart := None |}.


Definition purge_sport : PurgeRequest :=
  {| pu_all := false; pu_url := None; pu_method := None; pu_tag := Some " sport"%string; pu_tags := [] |}.

Lemma tag_purge_exact_witness :
  exists l1 sent removed,
    purge_payload sample_hash elements settings inputs purge_sport state
      = Some (set_caches l1 sent state,
              Ok {| pz_scope := "tag"; pz_removed := removed; pz_url := None; pz_tags := ["sport"%string] |})
    /\ l1_peek sample_hash l1 "k1" = None /\ RDel [redis_key "l2:" "k1"] ∈ sent.
Proof.
  destruct (tag_purge_exact sample_hash elements ltac:(reflexivity) settings inputs 8 3 purge_sport "sport" [] state)
    as (l1 & sent & n & H1 & H2 & H3).
  - exact sample_l1_reachable.
  - reflexivity.
  - vm_compute. reflexivity.
  - exists l1, sent, n. split; [exact H1|]. assert (Htag : "sport"%string ∈ parse_cache_tags (cr_headers (tagged_entry "news, sport"))).
    { apply (bool_decide_unpack _). vm_compute. exact I. }
    assert (Hk : l1_peek sample_hash (cs_l1 state) "k1" = Some (tagged_entry "news, sport")) by (vm_compute; reflexivity). split.
    + destruct (l1_peek sample_hash l1 "k1") as [v|] eqn:Hv; [|reflexivity]. exfalso. apply H2 in Hv as [Hv Hn].
      rewrite Hk in Hv. injection Hv as <-. apply (Hn "sport"%string); [left|exact Htag].
    + apply (H3 "k1"%string (tagged_entry "news, sport") "sport"%string); [reflexivity|exact Hk|left|exact Htag].
Defined.

Lemma mtls_gate_exact_witness :
  mtls_gate AgentApi.Demo.up true true (Some "aB01"%string) (ag_trust AgentApi.Demo.enrolled)
  = (ag_trust AgentApi.Demo.enrolled, true).
Proof.
  rewrite (mtls_gate_exact AgentApi.Demo.up "aB01" (ag_trust AgentApi.Demo.enrolled));
    [vm_compute; reflexivity|split; reflexivity|reflexivity].
Defined.

End Demo.
