(* ===== verification/Icap.v ===== *)
(** * The ICAP client (src/proxy/src/icap.rs)

    Settings, the messages for REQMOD and RESPMOD, the parser of responses and the
    read loop over the segments that arrive.  The url crate and name resolution are
    parameters; the messages of errors of libraries are left out.  Indexing out of
    range and overflow panic: [None]. *)

From Stdlib Require Import Ascii String NArith Lia.
From stdpp Require Import base option gmap sets strings pretty numbers list.
From S2P Require Import Prelude Hosts Utf8 Bytes Net Devices Effects ProxyService.

Local Open Scope rust_scope.

Definition crlf : string := String "013" (String "010" EmptyString).

(** ** Settings *)

Record IcapConfig := {
  icc_enabled : bool;
  icc_url : string;
  icc_timeout_ms : N;
  icc_fail_open : bool;
  icc_reqmod : bool;
  icc_respmod : bool;
  icc_max_body_bytes : N;
}.

Definition icap_env_bool (env : Env) (key : string) (dflt : bool) : bool :=
  match env key with
  | Some v => bool_decide (to_ascii_lowercase v ∈ ["1"; "true"; "yes"]%string)
  | None => dflt
  end.

Definition IcapConfig_from_env (env : Env) : IcapConfig := {|
  icc_enabled := icap_env_bool env "ICAP_ENABLED" false;
  icc_url := default "icap://127.0.0.1:1344/echo" (env "ICAP_URL");
  icc_timeout_ms := N.max (env_parse parse_u64 env "ICAP_TIMEOUT_MS" 5000%N) 1;
  icc_fail_open := icap_env_bool env "ICAP_FAIL_OPEN" true;
  icc_reqmod := icap_env_bool env "ICAP_REQMOD" true;
  icc_respmod := icap_env_bool env "ICAP_RESPMOD" true;
  icc_max_body_bytes := env_parse parse_usize env "ICAP_MAX_BODY_BYTES" 1048576%N;
|}.

Record ParsedIcapUrl := {
  iu_host : string;
  iu_port : N;
  iu_service_path : string;
  iu_addr : string;
  iu_is_tls : bool;
}.

(** [resolve host port]: the first address, or the error. *)
Definition parse_icap_url (resolve : string -> N -> result string string) (url : string) : result ParsedIcapUrl string :=
  let scheme :=
    match or_else (strip_prefix "icaps://" url) (strip_prefix "ICAPS://" url) with
    | Some r => Some (r, true)
    | None => (., false) <$> or_else (strip_prefix "icap://" url) (strip_prefix "ICAP://" url)
    end in
  match scheme with
  | None => Err ("ICAP_URL must start with icap:// or icaps:// (got " +:+ url +:+ ")")
  | Some (rest, is_tls) =>
      let '(authority, path) :=
        match split_once "/" rest with Some (a, p) => (a, "/" +:+ p) | None => (rest, "/"%string) end in
      let? hp :=
        match rsplit_once ":" authority with
        | Some (h, p) => match parse_u16 p with Some port => Ok (h, port) | None => Err ("invalid ICAP port in " +:+ url) end
        | None => Ok (authority, if is_tls then 11344%N else 1344%N)
        end in
      let? addr := resolve hp.1 hp.2 in
      Ok {| iu_host := hp.1; iu_port := hp.2; iu_service_path := path; iu_addr := addr; iu_is_tls := is_tls |}
  end.

Record IcapClient := { icl_cfg : IcapConfig; icl_parsed : ParsedIcapUrl }.

Definition icap_from_config (resolve : string -> N -> result string string) (cfg : IcapConfig)
    : result (option IcapClient) string :=
  if negb (icc_enabled cfg) then Ok None
  else let? parsed := parse_icap_url resolve (icc_url cfg) in Ok (Some {| icl_cfg := cfg; icl_parsed := parsed |}).

(** A client that cannot be built is none. *)
Definition icap_try_from_env (resolve : string -> N -> result string string) (env : Env) : option IcapClient :=
  match icap_from_config resolve (IcapConfig_from_env env) with Ok c => c | Err _ => None end.

(** ** Messages *)

Definition truncate_body (body : string) (max : N) : string :=
  if (max =? 0)%N then EmptyString else str_take (N.to_nat max) body.

Definition icap_head (method : string) (parsed : ParsedIcapUrl) (encapsulated : string) : string :=
  let authority := iu_host parsed +:+ ":" +:+ pretty (iu_port parsed) in
  method +:+ " icap://" +:+ authority +:+ iu_service_path parsed +:+ " ICAP/1.0" +:+ crlf
  +:+ "Host: " +:+ authority +:+ crlf +:+ "Allow: 204" +:+ crlf +:+ encapsulated +:+ crlf +:+ crlf.

Definition encapsulated_req (http_req : string) (null_body : bool) : string :=
  "Encapsulated: req-hdr=0, " +:+ (if null_body then "null-body=" else "req-body=") +:+ pretty (str_len http_req).

(** [url::Url::parse] and the parts the client reads: host, port, path, query. *)
Record UrlParts := {
  up_host : option string;
  up_port : option N;
  up_path : string;
  up_query : option string;
}.
Class IcapUrlCrate := icap_url_parse : string -> result UrlParts string.

Definition split_url `{!IcapUrlCrate} (url : string) : result (string * string) string :=
  match icap_url_parse url with
  | Err e => Err ("url parse: " +:+ e)
  | Ok u =>
      match up_host u with
      | None => Err "URL missing host"
      | Some host =>
          let host_port := match up_port u with Some p => host +:+ ":" +:+ pretty p | None => host end in
          let path := if str_is_empty (up_path u) then "/"%string else up_path u in
          Ok (match up_query u with Some q => path +:+ "?" +:+ q | None => path end, host_port)
      end
  end.

Definition header_line (kv : string * string) : string := kv.1 +:+ ": " +:+ kv.2 +:+ crlf.

Definition header_lines (dropped : list string) (headers : list (string * string)) : string :=
  foldr (fun kv out =>
    if existsb (fun name => eq_ignore_ascii_case kv.1 name) dropped then out else header_line kv +:+ out) EmptyString headers.

Section messages.
Context `{!IcapUrlCrate} {MO : MapOrder}.

(** The headers are written in the order of the table. *)
Definition encode_http_request (method url : string) (headers : gmap string string) (body : string) : result string string :=
  let? ph := split_url url in
  let hs := map_listing headers in
  Ok (method +:+ " " +:+ ph.1 +:+ " HTTP/1.1" +:+ crlf
      +:+ header_lines ["content-length"; "transfer-encoding"; "proxy-connection"; "connection"]%string hs
      +:+ (if existsb (fun kv => eq_ignore_ascii_case kv.1 "host") hs then EmptyString else header_line ("Host"%string, ph.2))
      +:+ (if str_is_empty body then EmptyString else header_line ("Content-Length"%string, pretty (str_len body)))
      +:+ crlf).

Definition http_reason (status : N) : string :=
  match status with
  | 200%N => "OK"
  | 204%N => "No Content"
  | 403%N => "Forbidden"
  | 502%N => "Bad Gateway"
  | 503%N => "Service Unavailable"
  | _ => "OK"
  end.

Definition encode_http_response_headers (status : N) (headers : gmap string string) (body_len : N) : string :=
  "HTTP/1.1 " +:+ pretty status +:+ " " +:+ http_reason status +:+ crlf
  +:+ header_lines ["content-length"; "transfer-encoding"; "connection"]%string (map_listing headers)
  +:+ (if (0 <? body_len)%N then header_line ("Content-Length"%string, pretty body_len) else EmptyString) +:+ crlf.

End messages.

(** [format!("{:x}")] of a [usize]: at most sixteen digits. *)
Definition hex_char (d : N) : ascii := if (d <? 10)%N then ascii_of_N (48 + d) else ascii_of_N (87 + d).

Fixpoint hex_go (fuel : nat) (n : N) (tail : string) : string :=
  match fuel with
  | O => tail
  | S fuel =>
      let out := String (hex_char (n mod 16)) tail in
      if (n / 16 =? 0)%N then out else hex_go fuel (n / 16) out
  end.

Definition hex_lower (n : N) : string := hex_go 16 n EmptyString.

Definition encode_chunked (body : string) : string :=
  hex_lower (str_len body) +:+ crlf +:+ body +:+ crlf +:+ "0" +:+ crlf +:+ crlf.

Section requests.
Context `{!IcapUrlCrate} {MO : MapOrder}.

(** What REQMOD sends; [None] when the mode is off. *)
Definition reqmod_message (c : IcapClient) (method url : string) (headers : gmap string string) (body : string)
    : option (result string string) :=
  if negb (icc_reqmod (icl_cfg c)) then None
  else
    let body := truncate_body body (icc_max_body_bytes (icl_cfg c)) in
    Some (let? http_req := encode_http_request method url headers body in
          Ok (icap_head "REQMOD" (icl_parsed c) (encapsulated_req http_req (str_is_empty body)) +:+ http_req
              +:+ (if str_is_empty body then EmptyString else encode_chunked body))).

Definition respmod_message (c : IcapClient) (req_method req_url : string) (req_headers : gmap string string) (status : N)
    (resp_headers : gmap string string) (body : string) : option (result string string) :=
  if negb (icc_respmod (icl_cfg c)) then None
  else
    let body := truncate_body body (icc_max_body_bytes (icl_cfg c)) in
    Some (let? http_req := encode_http_request req_method req_url req_headers EmptyString in
          let resp_hdr := encode_http_response_headers status resp_headers (str_len body) in
          let res_hdr_off := str_len http_req in
          let body_off := (res_hdr_off + str_len resp_hdr)%N in
          let enc := "Encapsulated: req-hdr=0, res-hdr=" +:+ pretty res_hdr_off +:+ ", "
                     +:+ (if str_is_empty body then "null-body=" else "res-body=") +:+ pretty body_off in
          Ok (icap_head "RESPMOD" (icl_parsed c) enc +:+ http_req +:+ resp_hdr
              +:+ (if str_is_empty body then EmptyString else encode_chunked body))).

End requests.

(** ** Responses *)

(** [windows(n).position(|w| w == pat)]. *)
Fixpoint str_find (pat s : string) : option nat :=
  if starts_with s pat then Some O
  else match s with EmptyString => None | String _ s' => S <$> str_find pat s' end.

Definition find_header_end (buf : string) : option nat := (fun i => i + 4) <$> str_find (crlf +:+ crlf) buf.

(** [str::split("\r\n")]. *)
Fixpoint split_crlf (s : string) : list string :=
  match s with
  | EmptyString => [EmptyString]
  | String c s' =>
      match s' with
      | String d rest =>
          if Ascii.eqb c "013" && Ascii.eqb d "010" then EmptyString :: split_crlf rest
          else match split_crlf s' with h :: t => String c h :: t | [] => [String c EmptyString] end
      | EmptyString => [String c EmptyString]
      end
  end.

(** [usize::from_str_radix(_, 16)]. *)
Fixpoint parse_hex_digits (acc : N) (s : string) : option N :=
  match s with
  | EmptyString => Some acc
  | String c s' =>
      d ← to_digit 16 c;
      let acc := (acc * 16 + d)%N in
      if (acc <=? usize_max)%N then parse_hex_digits acc s' else None
  end.

Definition parse_hex (s : string) : option N :=
  match s with
  | EmptyString => None
  | String c EmptyString => if Ascii.eqb c "+" then None else parse_hex_digits 0 s
  | String c s' => if Ascii.eqb c "+" then parse_hex_digits 0 s' else parse_hex_digits 0 s
  end.

Inductive ChunkStep :=
  | ChunkIncomplete
  | ChunkEnd
  | ChunkData (data rest : string).

(** One turn of the loop at offset [i], where [s] is [data[i..]].  An end past
    [usize] panics in every build: with overflow checks at the sum, without them at the
    slice, whose end has then wrapped below its start or lies past the data. *)
Definition chunk_step (i : N) (s : string) : option (result ChunkStep string) :=
  match str_find crlf s with
  | None => Some (Ok ChunkIncomplete)
  | Some line_end =>
      let line := str_take line_end s in
      match from_utf8 line with
      | None => Some (Err "chunk: invalid utf-8"%string)
      | Some line =>
          match parse_hex (trim line) with
          | None => Some (Err ("bad chunk size: " +:+ line))
          | Some size =>
              let rest := str_drop (line_end + 2) s in
              let i := (i + N.of_nat line_end + 2)%N in
              if (size =? 0)%N then Some (Ok ChunkEnd)
              else if (usize_max <? i + size + 2)%N then None
              else if (str_len rest <? size + 2)%N then Some (Ok ChunkIncomplete)
              else Some (Ok (ChunkData (str_take (N.to_nat size) rest) (str_drop (N.to_nat size + 2) rest)))
          end
      end
  end.

Fixpoint decode_chunked_go (fuel : nat) (i : N) (out s : string) : option (result (option string) string) :=
  match fuel with
  | O => Some (Ok None)
  | S fuel =>
      step ← chunk_step i s;
      match step with
      | Err e => Some (Err e)
      | Ok ChunkIncomplete => Some (Ok None)
      | Ok ChunkEnd => Some (Ok (Some out))
      | Ok (ChunkData data rest) => decode_chunked_go fuel (i + (str_len s - str_len rest)) (out +:+ data) rest
      end
  end.

(** Every turn with data takes some of it, so the length is enough fuel
    ([decode_chunked_fuel]). *)
Definition decode_chunked (data : string) : option (result (option string) string) :=
  decode_chunked_go (S (String.length data)) 0 EmptyString data.

Record HttpHead := {
  hh_headers : gmap string string;
  hh_content_length : option N;
  hh_chunked : bool;
}.

(** One header of the encapsulated response. *)
Definition http_head_line (h : HttpHead) (line : string) : HttpHead :=
  match split_once ":" line with
  | None => h
  | Some (k, v) =>
      let key := trim k in
      let val := trim v in
      {| hh_headers := <[to_ascii_lowercase key := val]> (hh_headers h);
         hh_content_length :=
           if eq_ignore_ascii_case key "content-length" then parse_usize val else hh_content_length h;
         hh_chunked :=
           hh_chunked h
           || (eq_ignore_ascii_case key "transfer-encoding" && str_contains (to_ascii_lowercase val) "chunked") |}
  end.

(** The lines up to the first empty one. *)
Fixpoint until_empty (ls : list string) : list string :=
  match ls with
  | [] => []
  | l :: ls => if str_is_empty l then [] else l :: until_empty ls
  end.

(** The second word of a status line, with the messages for one that lacks it and for
    one that is no number. *)
Definition status_code (missing bad line : string) : result N string :=
  match split_whitespace line with
  | _ :: code :: _ => match parse_u16 code with Some c => Ok c | None => Err (bad +:+ ": " +:+ line) end
  | _ => Err (missing +:+ ": " +:+ line)
  end.

Definition icap_code : string -> result N string := status_code "bad ICAP status" "bad ICAP status code".

Definition http_code : string -> result N string := status_code "bad HTTP status in ICAP" "bad HTTP code in ICAP".

Definition response_bytes (h : HttpHead) (body_rest : string) : option (result (option string) string) :=
  if hh_chunked h then decode_chunked body_rest
  else
    match hh_content_length h with
    | Some n =>
        Some (Ok (if (str_len body_rest <? n)%N then None else Some (str_take (N.to_nat n) body_rest)))
    | None =>
        if str_is_empty body_rest then Some (Ok (Some EmptyString))
        else
          decoded ← decode_chunked body_rest;
          Some match decoded with
               | Err e => Err e
               | Ok (Some b) => Ok (Some b)
               | Ok None => Ok (if ends_with body_rest ("0" +:+ crlf +:+ crlf) then None else Some body_rest)
               end
    end.

(** The status line, and the headers after it. *)
Definition status_line (raw : string) : string := default EmptyString (head (split_crlf raw)).

Definition http_head (hdr : string) : HttpHead :=
  foldl http_head_line {| hh_headers := ∅; hh_content_length := None; hh_chunked := false |}
    (until_empty (tail (split_crlf hdr))).

Definition finish_http_response (hdr body_rest : string) : option (result (option IcapOutcome) string) :=
  match http_code (status_line hdr) with
  | Err e => Some (Err e)
  | Ok status =>
      let h := http_head hdr in
      body ← response_bytes h body_rest;
      Some match body with
           | Err e => Err e
           | Ok None => Ok None
           | Ok (Some b) => Ok (Some (IcapHttpResponse status (hh_headers h) b))
           end
  end.

Definition parse_encapsulated_http_response (data : string) : option (result (option IcapOutcome) string) :=
  match find_header_end data with
  | None => Some (Ok None)
  | Some pos =>
      match from_utf8 (str_take pos data) with
      | None => Some (Err "utf8: invalid utf-8"%string)
      | Some hdr => finish_http_response hdr (str_drop pos data)
      end
  end.

(** The last Encapsulated header. *)
Definition encapsulated_line (acc line : string) : string :=
  match split_once ":" line with
  | Some (k, v) => if eq_ignore_ascii_case k "Encapsulated" then trim v else acc
  | None => acc
  end.

Definition encapsulated (headers_raw : string) : string :=
  foldl encapsulated_line EmptyString (until_empty (tail (split_crlf headers_raw))).

Definition has_response (encapsulated : string) : bool :=
  existsb (fun p => starts_with (trim p) "res-hdr") (split_on "," encapsulated).

Definition parse_after_headers (buf : string) (hdr_end : nat) : option (result (option IcapOutcome) string) :=
  match from_utf8 (str_take hdr_end buf) with
  | None => Some (Err "utf8: invalid utf-8"%string)
  | Some headers_raw =>
      match icap_code (status_line headers_raw) with
      | Err e => Some (Err e)
      | Ok code =>
          let encapsulated := encapsulated headers_raw in
          if (code =? 204)%N then Some (Ok (Some IcapAllow))
          else if negb ((200 <=? code) && (code <? 300))%N then Some (Err ("ICAP error status " +:+ pretty code))
          else if str_is_empty encapsulated then Some (Ok (Some IcapAllow))
          else if negb (has_response encapsulated) then Some (Ok (Some IcapAllow))
          else parse_encapsulated_http_response (str_drop hdr_end buf)
      end
  end.

Definition try_parse_icap_response (buf : string) : option (result (option IcapOutcome) string) :=
  match find_header_end buf with
  | None => Some (Ok None)
  | Some hdr_end => parse_after_headers buf hdr_end
  end.

(** ** The exchange *)

Definition finish_exchange (buf : string) : option (result IcapOutcome string) :=
  parsed ← try_parse_icap_response buf;
  Some match parsed with
       | Err e => Err e
       | Ok (Some o) => Ok o
       | Ok None => Err "incomplete ICAP response"
       end.

(** The reads: a segment, the end of the stream (an empty one, or no further), or an
    error. *)
Fixpoint read_response (buf : string) (reads : list (result string string)) : option (result IcapOutcome string) :=
  match reads with
  | [] => finish_exchange buf
  | Err e :: _ => Some (Err ("ICAP read: " +:+ e))
  | Ok seg :: reads =>
      if str_is_empty seg then finish_exchange buf
      else
        let buf := buf +:+ seg in
        if (16777216 <? str_len buf)%N then Some (Err "ICAP response too large"%string)
        else
          parsed ← try_parse_icap_response buf;
          match parsed with
          | Err e => Some (Err e)
          | Ok (Some o) => Some (Ok o)
          | Ok None => read_response buf reads
          end
  end.

(** What the service does with a message: the reads it answers with, a failure to
    connect or to write, or nothing in time. *)
Inductive IcapService :=
  | IcapAnswers (reads : list (result string string))
  | IcapUnavailable (e : string)
  | IcapTimeout.

Definition exchange (c : IcapClient) (service : string -> IcapService) (request : string)
    : option (result IcapOutcome string) :=
  match service request with
  | IcapAnswers reads => read_response EmptyString reads
  | IcapUnavailable e => Some (Err e)
  | IcapTimeout => Some (Err ("ICAP timeout after " +:+ pretty (icc_timeout_ms (icl_cfg c)) +:+ "ms"))
  end.

Definition adapt (c : IcapClient) (service : string -> IcapService) (message : option (result string string))
    : option (result IcapOutcome string) :=
  match message with
  | None => Some (Ok IcapAllow)
  | Some (Err e) => Some (Err e)
  | Some (Ok msg) => exchange c service msg
  end.

Definition reqmod `{!IcapUrlCrate} {MO : MapOrder} (c : IcapClient) (service : string -> IcapService) (method url : string)
    (headers : gmap string string) (body : string) : option (result IcapOutcome string) :=
  adapt c service (reqmod_message c method url headers body).

Definition respmod `{!IcapUrlCrate} {MO : MapOrder} (c : IcapClient) (service : string -> IcapService)
    (req_method req_url : string) (req_headers : gmap string string) (status : N) (resp_headers : gmap string string)
    (body : string) : option (result IcapOutcome string) :=
  adapt c service (respmod_message c req_method req_url req_headers status resp_headers body).

(** ** Lemmas: hexadecimal sizes *)

Definition hex_lower_char (c : ascii) : bool :=
  is_ascii_digit c || ((97 <=? char_code c) && (char_code c <=? 102))%N.

Lemma hex_char_digit d : (d < 16)%N -> to_digit 16 (hex_char d) = Some d /\ hex_lower_char (hex_char d) = true.
Proof.
  intros H. assert (Hd : d ∈ [0;1;2;3;4;5;6;7;8;9;10;11;12;13;14;15]%N).
  { rewrite !elem_of_cons. lia. }
  repeat (apply elem_of_cons in Hd as [->|Hd]; [by vm_compute|]). by apply not_elem_of_nil in Hd.
Qed.

Lemma hex_go_parse fuel n s :
  fuel <> 0 -> (n < 16 ^ N.of_nat fuel)%N -> (n <= usize_max)%N ->
  parse_hex_digits 0 (hex_go fuel n s) = parse_hex_digits n s.
Proof.
  revert n s. induction fuel as [|fuel IH]; intros n s Hf Hlt Hmax; [done|]. cbn [hex_go].
  destruct (hex_char_digit (n mod 16)) as [Hd _]; [by apply N.mod_lt|].
  pose proof (N.div_mod n 16 ltac:(done)) as Hdm. destruct (N.eqb_spec (n / 16) 0) as [Hz|Hz].
  - cbn [parse_hex_digits]. rewrite Hd. cbn [mbind option_bind].
    replace (0 * 16 + n mod 16)%N with n by lia. by rewrite (proj2 (N.leb_le _ _) Hmax).
  - rewrite IH.
    + cbn [parse_hex_digits]. rewrite Hd. cbn [mbind option_bind].
      replace (n / 16 * 16 + n mod 16)%N with n by lia. by rewrite (proj2 (N.leb_le _ _) Hmax).
    + intros ->. cbn in Hlt. rewrite N.div_small in Hz by done. done.
    + apply N.Div0.div_lt_upper_bound. rewrite Nat2N.inj_succ, N.pow_succ_r' in Hlt. lia.
    + etrans; [|exact Hmax]. apply N.Div0.div_le_upper_bound. lia.
Qed.

Lemma hex_go_chars fuel n s : all_chars hex_lower_char s = true -> all_chars hex_lower_char (hex_go fuel n s) = true.
Proof.
  revert n s. induction fuel as [|fuel IH]; intros n s Hs; [done|]. cbn [hex_go].
  destruct (hex_char_digit (n mod 16)) as [_ Hd]; [by apply N.mod_lt|].
  assert (all_chars hex_lower_char (String (hex_char (n mod 16)) s) = true) by (cbn; by rewrite Hd).
  destruct (n / 16 =? 0)%N; [done|]. by apply IH.
Qed.

Lemma hex_go_cons fuel n s : s <> EmptyString -> hex_go fuel n s <> EmptyString.
Proof. revert n s. induction fuel as [|fuel IH]; intros n s Hs; [done|]. cbn [hex_go]. case_match; [done|]. by apply IH. Qed.

Lemma hex_go_S fuel n s : hex_go (S fuel) n s <> EmptyString.
Proof. cbn [hex_go]. case_match; [done|]. by apply hex_go_cons. Qed.

Lemma hex_lower_cons n : hex_lower n <> EmptyString.
Proof. apply hex_go_S. Qed.

Lemma hex_lower_chars n : all_chars hex_lower_char (hex_lower n) = true.
Proof. by apply hex_go_chars. Qed.

Lemma hex_char_plain (P : ascii -> bool) s :
  (forall c, hex_lower_char c = true -> P c = true) -> all_chars hex_lower_char s = true -> all_chars P s = true.
Proof. intros H. by apply all_chars_impl. Qed.

Lemma hex_lower_char_range c : hex_lower_char c = true -> (48 <= char_code c <= 57 \/ 97 <= char_code c <= 102)%N.
Proof. unfold hex_lower_char, is_ascii_digit. rewrite orb_true_iff, !andb_true_iff, !N.leb_le. tauto. Qed.

Lemma parse_hex_lower n : (n <= usize_max)%N -> parse_hex (hex_lower n) = Some n.
Proof.
  intros Hn. pose proof (hex_lower_cons n) as Hne. pose proof (hex_lower_chars n) as Hc.
  assert (Hp : parse_hex_digits 0 (hex_lower n) = Some n).
  { unfold hex_lower. rewrite hex_go_parse; [done|done| |done]. change (16 ^ N.of_nat 16)%N with (2 ^ 64)%N.
    unfold usize_max, u64_max in Hn. lia. }
  destruct (hex_lower n) as [|c s]; [done|]. cbn [all_chars] in Hc. apply andb_true_iff in Hc as [Hc _].
  assert (Hplus : Ascii.eqb c "+" = false).
  { apply Ascii.eqb_neq. intros ->. apply hex_lower_char_range in Hc. change (char_code "+") with 43%N in Hc. lia. }
  unfold parse_hex. destruct s; by rewrite Hplus.
Qed.

(** ** Lemmas: searching *)

Lemma starts_with_app_l pat p q : starts_with p pat = true -> starts_with (p +:+ q) pat = true.
Proof. intros (r & ->)%starts_with_spec. apply starts_with_spec. exists (r +:+ q). by rewrite string_app_assoc. Qed.

Lemma starts_with_short pat p q :
  starts_with (p +:+ q) pat = true -> String.length pat <= String.length p -> starts_with p pat = true.
Proof.
  intros (r & E)%starts_with_spec Hl. apply starts_with_spec. exists (str_drop (String.length pat) p).
  revert p E Hl. induction pat as [|c pat IH]; intros p E Hl; [by destruct p|].
  destruct p as [|d p]; cbn in *; [lia|]. injection E as -> E. f_equal. apply IH; [done|lia].
Qed.

Lemma str_find_bound pat s i : str_find pat s = Some i -> i + String.length pat <= String.length s.
Proof.
  revert i. induction s as [|c s IH]; intros i; cbn [str_find].
  - destruct (starts_with _ _) eqn:E; [|done]. intros [= <-]. apply starts_with_spec in E as (r & E).
    destruct pat; [cbn; lia|done].
  - destruct (starts_with _ _) eqn:E.
    + intros [= <-]. apply starts_with_spec in E as (r & ->). rewrite string_length_app. lia.
    + destruct (str_find pat s) as [j|]; [|done]. intros [= <-]. specialize (IH j eq_refl). cbn. lia.
Qed.

(** A match stays where it is when more arrives. *)
Lemma str_find_app pat p q i : str_find pat p = Some i -> str_find pat (p +:+ q) = Some i.
Proof.
  revert i. induction p as [|c p IH]; intros i; cbn [str_find String.append].
  - destruct (starts_with EmptyString pat) eqn:E; [|done]. intros [= <-].
    apply (starts_with_app_l pat EmptyString q) in E. cbn [String.append] in E. destruct q; cbn [str_find]; by rewrite E.
  - destruct (starts_with (String c p) pat) eqn:E.
    + intros [= <-]. apply (starts_with_app_l pat _ q) in E. cbn [String.append] in E. by rewrite E.
    + destruct (str_find pat p) as [j|] eqn:Ej; [|done]. intros [= <-].
      destruct (starts_with (String c (p +:+ q)) pat) eqn:E'.
      * exfalso. apply (starts_with_short pat (String c p) q) in E'; [congruence|].
        apply str_find_bound in Ej. cbn. lia.
      * by rewrite (IH j eq_refl).
Qed.

(** Before the match has arrived in full there is none. *)
Lemma str_find_short pat p q i :
  str_find pat (p +:+ q) = Some i -> String.length p < i + String.length pat -> str_find pat p = None.
Proof.
  intros H Hl. destruct (str_find pat p) as [j|] eqn:E; [|done].
  pose proof (str_find_bound _ _ _ E). apply (str_find_app _ _ q) in E. rewrite E in H. injection H as ->. lia.
Qed.

Lemma str_find_crlf a b : free_of "013" a = true -> str_find crlf (a +:+ crlf +:+ b) = Some (String.length a).
Proof.
  unfold free_of. induction a as [|c a IH]; cbn [all_chars String.append str_find String.length]; [done|].
  intros [Hc Ha]%andb_true_iff. unfold starts_with, crlf at 1. cbn [strip_prefix].
  rewrite Ascii.eqb_sym. apply negb_true_iff in Hc. rewrite Hc. by rewrite IH.
Qed.

(** ** Lemmas: chunks *)

#[local] Arguments hex_lower _ : simpl never.

Definition concat_str (l : list string) : string := foldr String.append EmptyString l.

(** The framing of a body as a list of chunks. *)
Definition chunk_frames (bs : list string) (tail : string) : string :=
  foldr (fun b s => hex_lower (str_len b) +:+ crlf +:+ (b +:+ crlf +:+ s)) (hex_lower 0 +:+ crlf +:+ crlf +:+ tail) bs.

Lemma encode_chunked_frames b : encode_chunked b = chunk_frames [b] EmptyString.
Proof. unfold encode_chunked, chunk_frames. cbn [foldr]. change (hex_lower 0) with "0"%string. done. Qed.

Lemma app_split (p q a b : string) :
  p +:+ q = a +:+ b -> String.length a <= String.length p -> exists r, p = a +:+ r /\ r +:+ q = b.
Proof.
  revert p. induction a as [|c a IH]; intros p E Hl; [by exists p|].
  destruct p as [|d p]; cbn in *; [lia|]. injection E as -> E. destruct (IH p E) as (r & -> & Hr); [lia|].
  by exists r.
Qed.

Lemma hex_line_ok n rest :
  (n <= usize_max)%N ->
  let s := hex_lower n +:+ crlf +:+ rest in
  let k := String.length (hex_lower n) in
  str_find crlf s = Some k /\ from_utf8 (str_take k s) = Some (hex_lower n) /\ parse_hex (trim (hex_lower n)) = Some n
  /\ str_drop (k + 2) s = rest.
Proof.
  intros Hn s k. pose proof (hex_lower_chars n) as Hc. split; [|split; [|split]].
  - apply str_find_crlf. unfold free_of. revert Hc. apply hex_char_plain. intros c Hh%hex_lower_char_range.
    apply negb_true_iff, Ascii.eqb_neq. intros ->. change (char_code "013") with 13%N in Hh. lia.
  - unfold s, k. rewrite str_take_app by done. unfold from_utf8. rewrite ascii_utf8_valid; [done|].
    revert Hc. apply hex_char_plain. intros c Hh%hex_lower_char_range. apply N.ltb_lt. lia.
  - rewrite trim_id; [by apply parse_hex_lower|]. revert Hc. apply hex_char_plain. intros c Hh%hex_lower_char_range.
    apply negb_true_iff. unfold is_whitespace. apply not_true_is_false. rewrite ?orb_true_iff, ?andb_true_iff, ?N.eqb_eq, ?N.leb_le. lia.
  - unfold s, k. rewrite <- string_app_assoc. apply str_drop_app. rewrite string_length_app. done.
Qed.

(** A chunk of which a part has arrived. *)
Lemma chunk_step_prefix p q n rest i :
  (n <= usize_max)%N -> p +:+ q = hex_lower n +:+ crlf +:+ rest ->
  (chunk_step i p = Some (Ok ChunkIncomplete) /\ q <> EmptyString)
  \/ exists r, p = hex_lower n +:+ crlf +:+ r /\ r +:+ q = rest
     /\ chunk_step i p =
          (if (n =? 0)%N then Some (Ok ChunkEnd)
           else if (usize_max <? i + str_len (hex_lower n) + 2 + n + 2)%N then None
           else if (str_len r <? n + 2)%N then Some (Ok ChunkIncomplete)
           else Some (Ok (ChunkData (str_take (N.to_nat n) r) (str_drop (N.to_nat n + 2) r)))).
Proof.
  intros Hn E. destruct (decide (String.length p < String.length (hex_lower n) + 2)) as [Hl|Hl].
  - left. destruct (hex_line_ok n rest Hn) as (Hf & _). split.
    + unfold chunk_step. by rewrite (str_find_short crlf p q (String.length (hex_lower n))) by (done || by rewrite E).
    + intros ->. rewrite string_app_nil_r in E. subst p. rewrite !string_length_app in Hl. cbn in Hl. lia.
  - right. rewrite <- string_app_assoc in E. destruct (app_split p q (hex_lower n +:+ crlf) rest E) as (r & -> & Hr).
    { rewrite string_length_app. cbn. lia. }
    exists r. rewrite string_app_assoc. split; [done|]. split; [done|].
    destruct (hex_line_ok n r Hn) as (Hf & Hu & Hp & Hd). unfold chunk_step. by rewrite Hf, Hu, Hp, Hd.
Qed.

Lemma chunk_frames_length b bs tail :
  String.length (chunk_frames (b :: bs) tail)
  = String.length (hex_lower (str_len b)) + 2 + String.length b + 2 + String.length (chunk_frames bs tail).
Proof.
  change (chunk_frames (b :: bs) tail) with (hex_lower (str_len b) +:+ crlf +:+ (b +:+ crlf +:+ chunk_frames bs tail)).
  rewrite !string_length_app. change (String.length crlf) with 2. lia.
Qed.

(** A turn with data leaves less to read, so the fuel of [decode_chunked] never runs out. *)
Lemma chunk_step_shrinks i s data rest :
  chunk_step i s = Some (Ok (ChunkData data rest)) -> String.length rest < String.length s.
Proof.
  unfold chunk_step. destruct s as [|c s]; [done|]. destruct (str_find crlf (String c s)) as [n|]; [|done].
  destruct (from_utf8 _) as [line|]; [|done]. destruct (parse_hex (trim line)) as [size|]; [|done].
  destruct (size =? 0)%N; [done|]. destruct (usize_max <? _)%N; [done|]. destruct (_ <? size + 2)%N; [done|].
  intros [= _ <-]. rewrite !str_drop_length. cbn [String.length]. lia.
Qed.

Lemma decode_chunked_fuel f1 f2 i out s :
  String.length s < f1 -> String.length s < f2 -> decode_chunked_go f1 i out s = decode_chunked_go f2 i out s.
Proof.
  revert f2 i out s. induction f1 as [|f1 IH]; intros f2 i out s H1 H2; [lia|]. destruct f2 as [|f2]; [lia|]. cbn [decode_chunked_go].
  destruct (chunk_step i s) as [[[| |data rest]|e]|] eqn:E; try done. cbn [mbind option_bind].
  apply chunk_step_shrinks in E. apply IH; lia.
Qed.

(** Decoding what has arrived of the frames: nothing yet, or the body. *)
Lemma decode_chunked_prefix bs tail p q fuel i out :
  Forall (fun b => b <> EmptyString) bs -> p +:+ q = chunk_frames bs tail -> String.length p < fuel ->
  (i + str_len (chunk_frames bs tail) <= usize_max)%N ->
  (decode_chunked_go fuel i out p = Some (Ok None) /\ q <> EmptyString)
  \/ decode_chunked_go fuel i out p = Some (Ok (Some (out +:+ concat_str bs))).
Proof.
  revert p fuel i out. induction bs as [|b bs IH]; intros p fuel i out Hne E Hfuel Hi; (destruct fuel as [|fuel]; [lia|]); cbn [decode_chunked_go].
  - destruct (chunk_step_prefix p q 0 (crlf +:+ tail) i) as [[-> Hq]|(r & -> & Hr & ->)]; [done|done|by left|].
    right. cbn. by rewrite string_app_nil_r.
  - apply Forall_cons in Hne as [Hb Hne].
    assert (Hlen : (str_len (chunk_frames (b :: bs) tail)
      = str_len (hex_lower (str_len b)) + 2 + str_len b + 2 + str_len (chunk_frames bs tail))%N).
    { unfold str_len at 1. rewrite chunk_frames_length. unfold str_len. lia. }
    destruct (chunk_step_prefix p q (str_len b) (b +:+ crlf +:+ chunk_frames bs tail) i)
      as [[-> Hq]|(r & -> & Hr & ->)]; [lia|exact E|by left|].
    rewrite (proj2 (N.eqb_neq _ _)) by (unfold str_len; destruct b; [done|cbn; lia]).
    rewrite (proj2 (N.ltb_ge _ _)) by lia.
    destruct (N.ltb_spec (str_len r) (str_len b + 2)) as [Hs|Hs].
    + left. split; [done|]. intros ->. rewrite string_app_nil_r in Hr. subst r. revert Hs. unfold str_len.
      rewrite !string_length_app. cbn. lia.
    + rewrite <- string_app_assoc in Hr. destruct (app_split r q (b +:+ crlf) (chunk_frames bs tail) Hr) as (r' & -> & Hr').
      { rewrite string_length_app. unfold str_len in Hs. cbn. lia. }
      assert (Ht : str_take (N.to_nat (str_len b)) ((b +:+ crlf) +:+ r') = b).
      { rewrite string_app_assoc. apply str_take_app. unfold str_len. lia. }
      assert (Hd : str_drop (N.to_nat (str_len b) + 2) ((b +:+ crlf) +:+ r') = r').
      { apply str_drop_app. rewrite string_length_app. unfold str_len. change (String.length crlf) with 2. lia. }
      cbn [mbind option_bind]. rewrite Ht, Hd.
      destruct (IH r' fuel (i + (str_len (hex_lower (str_len b) +:+ crlf +:+ (b +:+ crlf) +:+ r') - str_len r'))%N (out +:+ b) Hne Hr')
        as [[-> Hq]| ->].
      * revert Hfuel. rewrite !string_length_app. cbn. lia.
      * revert Hi. rewrite Hlen. unfold str_len at 4 5. rewrite !string_length_app. unfold str_len. cbn. lia.
      * by left.
      * right. cbn [concat_str foldr]. by rewrite string_app_assoc.
Qed.

Lemma decode_chunked_frames bs tail :
  Forall (fun b => b <> EmptyString) bs -> (str_len (chunk_frames bs tail) <= usize_max)%N ->
  decode_chunked (chunk_frames bs tail) = Some (Ok (Some (concat_str bs))).
Proof.
  intros Hne Hl. unfold decode_chunked.
  destruct (decode_chunked_prefix bs tail (chunk_frames bs tail) EmptyString (S (String.length (chunk_frames bs tail))) 0 EmptyString)
    as [[_ []]|H]; [done|by rewrite string_app_nil_r|lia|lia|done|exact H].
Qed.

Lemma str_take_short n a b : n <= String.length a -> str_take n (a +:+ b) = str_take n a.
Proof. revert n. induction a as [|c a IH]; intros [|n] Hl; cbn in *; [by destruct b|lia|done|]. f_equal. apply IH. lia. Qed.

(** ** Lemmas: heads *)

(** A head: text up to its first blank line. *)
Definition is_head (h : string) : Prop := find_header_end h = Some (String.length h) /\ utf8_valid h = true.

Lemma head_prefix h p q rest :
  is_head h -> p +:+ q = h +:+ rest ->
  (find_header_end p = None /\ q <> EmptyString)
  \/ exists r, p = h +:+ r /\ r +:+ q = rest /\ find_header_end p = Some (String.length h)
     /\ from_utf8 (str_take (String.length h) p) = Some h /\ str_drop (String.length h) p = r.
Proof.
  intros [Hh Hu] E. unfold find_header_end in *.
  destruct (str_find (crlf +:+ crlf) h) as [i|] eqn:Ei; [|done]. injection Hh as Hi.
  pose proof (str_find_app _ _ rest _ Ei) as Hf. rewrite <- E in Hf.
  destruct (decide (String.length p < String.length h)) as [Hl|Hl].
  - left. rewrite (str_find_short _ _ _ _ Hf) by (change (String.length (crlf +:+ crlf)) with 4; lia).
    split; [done|]. intros ->. rewrite string_app_nil_r in E. subst p. rewrite string_length_app in Hl. lia.
  - right. destruct (app_split p q h rest E) as (r & -> & Hr); [lia|]. exists r. split_and!; [done|done|..].
    + rewrite (str_find_app _ _ r _ Ei). by rewrite <- Hi.
    + rewrite str_take_app by done. unfold from_utf8. by rewrite Hu.
    + by apply str_drop_app.
Qed.

Section verdict.
Context (icap http : string) (bs : list string) (tail : string) (code status : N).
Context (Hicap : is_head icap) (Hcode : icap_code (status_line icap) = Ok code)
  (Hrange : (200 <= code < 300 /\ code <> 204)%N) (Henc : has_response (encapsulated icap) = true).
Context (Hhttp : is_head http) (Hstatus : http_code (status_line http) = Ok status).
Context (Hbs : Forall (fun b => b <> EmptyString) bs).

Abbreviation response := (icap +:+ http +:+ chunk_frames bs tail).

(** What has arrived of the response, down to its body. *)
Lemma response_prefix p q :
  p +:+ q = response ->
  (try_parse_icap_response p = Some (Ok None) /\ q <> EmptyString)
  \/ exists r, r +:+ q = chunk_frames bs tail /\ try_parse_icap_response p = finish_http_response http r.
Proof.
  intros E. unfold try_parse_icap_response.
  destruct (head_prefix icap p q _ Hicap E) as [[-> Hq]|(r & -> & Hr & -> & Hu & Hd)]; [by left|].
  unfold parse_after_headers. rewrite Hu, Hcode, Hd, (proj2 (N.eqb_neq code 204)) by lia.
  rewrite (proj2 (N.leb_le 200 code)), (proj2 (N.ltb_lt code 300)) by lia. cbn [andb negb].
  assert (Hne : str_is_empty (encapsulated icap) = false).
  { destruct (encapsulated icap) eqn:E'; [|done]. done. }
  rewrite Hne, Henc. cbn [negb]. unfold parse_encapsulated_http_response.
  destruct (head_prefix http r q _ Hhttp Hr) as [[-> Hq]|(r' & -> & Hr' & -> & Hu' & Hd')]; [by left|].
  rewrite Hu', Hd'. right. by exists r'.
Qed.

Context (Hsize : (str_len response <= 16777216)%N).

Lemma frames_bound : (0 + str_len (chunk_frames bs tail) <= usize_max)%N.
Proof. revert Hsize. unfold str_len. rewrite !string_length_app. unfold usize_max, u64_max. lia. Qed.

Abbreviation verdict := (IcapHttpResponse status (hh_headers (http_head http)) (concat_str bs)).

Lemma chunked_response_prefix p q :
  hh_chunked (http_head http) = true -> p +:+ q = response ->
  (try_parse_icap_response p = Some (Ok None) /\ q <> EmptyString)
  \/ try_parse_icap_response p = Some (Ok (Some verdict)).
Proof.
  intros Hch E. destruct (response_prefix p q E) as [H|(r & Hr & ->)]; [by left|].
  unfold finish_http_response, response_bytes. rewrite Hstatus, Hch. unfold decode_chunked.
  destruct (decode_chunked_prefix bs tail r q (S (String.length r)) 0 EmptyString Hbs Hr) as [[-> Hq]| ->];
    [lia|apply frames_bound|by left|by right].
Qed.

Lemma read_chunked_response buf segs :
  hh_chunked (http_head http) = true -> Forall (fun s => s <> EmptyString) segs -> buf +:+ concat_str segs = response ->
  read_response buf (Ok <$> segs) = Some (Ok verdict).
Proof.
  intros Hch. revert buf. induction segs as [|seg segs IH]; intros buf Hne E; cbn [fmap list_fmap read_response concat_str foldr] in *.
  - unfold finish_exchange. destruct (chunked_response_prefix buf EmptyString Hch E) as [[_ []]| ->]; done.
  - apply Forall_cons in Hne as [Hs Hne]. assert (str_is_empty seg = false) as -> by (by destruct seg).
    rewrite <- string_app_assoc in E. fold (concat_str segs) in E.
    rewrite (proj2 (N.ltb_ge _ _)).
    2: { etrans; [|exact Hsize]. rewrite <- E. unfold str_len. rewrite (string_length_app (buf +:+ seg)). lia. }
    destruct (chunked_response_prefix (buf +:+ seg) (concat_str segs) Hch E) as [[-> _]| ->]; [|done].
    cbn [mbind option_bind]. by apply IH.
Qed.

End verdict.

(** ** Theorems *)

(** C39: A chunked verdict is read whole.  A response of the ICAP service that encapsulates
    a chunked HTTP response gives exactly its status, its headers and its body, into
    whatever chunks the service cuts the body and into whatever segments the network
    cuts the response, as long as it fits the buffer. *)
Theorem chunked_verdict_read (icap http tail : string) (bs segs : list string) (code status : N)
    (Hicap : is_head icap) (Hcode : icap_code (status_line icap) = Ok code)
    (Hrange : (200 <= code < 300 /\ code <> 204)%N) (Henc : has_response (encapsulated icap) = true)
    (Hhttp : is_head http) (Hstatus : http_code (status_line http) = Ok status)
    (Hchunked : hh_chunked (http_head http) = true)
    (Hbs : Forall (fun b => b <> EmptyString) bs) (Hsegs : Forall (fun s => s <> EmptyString) segs)
    (Hall : concat_str segs = icap +:+ http +:+ chunk_frames bs tail)
    (Hsize : (str_len (concat_str segs) <= 16777216)%N) :
  read_response EmptyString (Ok <$> segs)
  = Some (Ok (IcapHttpResponse status (hh_headers (http_head http)) (concat_str bs))).
Proof. rewrite Hall in Hsize. eapply read_chunked_response with (buf := EmptyString) (tail := tail) (icap := icap); eauto.
Qed.

(** A verdict with a Content-Length is mangled (a defect).  ICAP frames every
    encapsulated body in chunks; when the encapsulated response carries a
    Content-Length, the client takes that many bytes of the framing itself, so the
    body it hands on begins with the chunk size. *)
Theorem content_length_mangles_body (icap http body : string) (code status : N)
    (Hicap : is_head icap) (Hcode : icap_code (status_line icap) = Ok code)
    (Hrange : (200 <= code < 300 /\ code <> 204)%N) (Henc : has_response (encapsulated icap) = true)
    (Hhttp : is_head http) (Hstatus : http_code (status_line http) = Ok status)
    (Hchunked : hh_chunked (http_head http) = false)
    (Hlength : hh_content_length (http_head http) = Some (str_len body)) :
  try_parse_icap_response (icap +:+ http +:+ encode_chunked body)
  = Some (Ok (Some (IcapHttpResponse status (hh_headers (http_head http))
      (str_take (String.length body) (hex_lower (str_len body) +:+ crlf +:+ body))))).
Proof.
  rewrite encode_chunked_frames.
  destruct (response_prefix icap http [body] EmptyString code Hicap Hcode Hrange Henc Hhttp
    (icap +:+ http +:+ chunk_frames [body] EmptyString) EmptyString) as [[_ []]|(r & Hr & ->)]; [by rewrite string_app_nil_r|done|].
  rewrite string_app_nil_r in Hr. subst r. unfold finish_http_response, response_bytes. rewrite Hstatus, Hchunked, Hlength.
  assert (Hframes : chunk_frames [body] EmptyString
    = (hex_lower (str_len body) +:+ crlf +:+ body) +:+ crlf +:+ hex_lower 0 +:+ crlf +:+ crlf).
  { unfold chunk_frames. cbn [foldr]. by rewrite !string_app_assoc, string_app_nil_r. }
  assert (Hlen : String.length body <= String.length (hex_lower (str_len body) +:+ crlf +:+ body)).
  { rewrite !string_length_app. lia. }
  rewrite Hframes, (proj2 (N.ltb_ge _ _)).
  2: { unfold str_len at 2. rewrite string_length_app. unfold str_len at 1. lia. }
  cbn [mbind option_bind]. unfold str_len at 1. by rewrite Nat2N.id, str_take_short.
Qed.

(** ** Examples *)

Module Demo.

Definition icap_ok : string := "ICAP/1.0 200 OK" +:+ crlf +:+ "Encapsulated: res-hdr=0, res-body=60" +:+ crlf +:+ crlf.
Definition http_chunked : string := "HTTP/1.1 403 Forbidden" +:+ crlf +:+ "Transfer-Encoding: chunked" +:+ crlf +:+ crlf.
Definition http_sized : string := "HTTP/1.1 403 Forbidden" +:+ crlf +:+ "Content-Length: 12" +:+ crlf +:+ crlf.
Definition http_plain : string := "HTTP/1.1 403 Forbidden" +:+ crlf +:+ crlf.

Lemma chunked_verdict_read_witness :
  read_response EmptyString
    [Ok (icap_ok +:+ "HTTP/1.1 4"); Ok ("03 Forbidden" +:+ crlf +:+ "Transfer-Encoding: chunked" +:+ crlf +:+ crlf +:+ "8" +:+ crlf +:+ "bloc");
     Ok ("ked-" +:+ crlf +:+ "4" +:+ crlf +:+ "icap" +:+ crlf +:+ "0" +:+ crlf +:+ crlf)]%string
  = Some (Ok (IcapHttpResponse 403 {["transfer-encoding"%string := "chunked"%string]} "blocked-icap")).
Proof.
  refine (chunked_verdict_read icap_ok http_chunked EmptyString ["blocked-"; "icap"]%string
    [icap_ok +:+ "HTTP/1.1 4"; "03 Forbidden" +:+ crlf +:+ "Transfer-Encoding: chunked" +:+ crlf +:+ crlf +:+ "8" +:+ crlf +:+ "bloc";
     "ked-" +:+ crlf +:+ "4" +:+ crlf +:+ "icap" +:+ crlf +:+ "0" +:+ crlf +:+ crlf]%string 200 403 _ _ _ _ _ _ _ _ _ _ _).
  - split; vm_compute; reflexivity.
  - vm_compute; reflexivity.
  - lia.
  - vm_compute; reflexivity.
  - split; vm_compute; reflexivity.
  - vm_compute; reflexivity.
  - vm_compute; reflexivity.
  - repeat constructor; discriminate.
  - repeat constructor; discriminate.
  - vm_compute; reflexivity.
  - apply N.leb_le. vm_compute. reflexivity.
Defined.

Lemma content_length_mangles_body_witness :
  try_parse_icap_response (icap_ok +:+ http_sized +:+ encode_chunked "blocked-icap")
  = Some (Ok (Some (IcapHttpResponse 403 {["content-length"%string := "12"%string]} ("c" +:+ crlf +:+ "blocked-i")))).
Proof.
  refine (content_length_mangles_body icap_ok http_sized "blocked-icap" 200 403 _ _ _ _ _ _ _ _).
  - split; vm_compute; reflexivity.
  - vm_compute; reflexivity.
  - lia.
  - vm_compute; reflexivity.
  - split; vm_compute; reflexivity.
  - vm_compute; reflexivity.
  - vm_compute; reflexivity.
  - vm_compute; reflexivity.
Defined.

(** Without a length or an encoding the outcome depends on where the network cuts the
    response (a defect): the blocked page is empty when its body arrives later. *)
Example outcome_depends_on_segments :
  read_response EmptyString [Ok (icap_ok +:+ http_plain +:+ encode_chunked "blocked")]
    = Some (Ok (IcapHttpResponse 403 ∅ "blocked"))
  /\ read_response EmptyString [Ok (icap_ok +:+ http_plain); Ok (encode_chunked "blocked")]
    = Some (Ok (IcapHttpResponse 403 ∅ EmptyString)).
Proof. split; vm_compute; reflexivity. Qed.

(** A chunk size near the largest [usize] makes the client panic (a defect). *)
Example huge_chunk_panics :
  read_response EmptyString [Ok (icap_ok +:+ http_chunked +:+ "fffffffffffffffe" +:+ crlf +:+ "x")] = None.
Proof. vm_compute. reflexivity. Qed.

End Demo.
