(* ===== verification/EventStores.v ===== *)
(** * Events and their stores (src/bsdm-events/src, src/cache-indexer/src/store and clickhouse.rs)

    The indexer keeps the proxy's events in a ring in memory, an SQLite table or
    ClickHouse.  Faults of the database and the replies of ClickHouse are arguments.
    serde_json's text of an event ([EventText]), chrono's text of a timestamp
    ([EventTime]) and SQLite's order of rows with equal timestamps ([SqlOrder]) are
    classes. *)

From Stdlib Require Import Ascii String NArith ZArith Lia.
From stdpp Require Import base option gmap strings pretty numbers list sorting.
From S2P Require Import Prelude Net Devices SemanticCache ClickHouse ProxyService MlScoring MlWorker.

Local Open Scope rust_scope.

(** ** Events (bsdm-events) *)

(** [serde_json::to_string] of an event. *)
Class EventText := event_to_string : CacheEvent -> string.

(** [format("%Y-%m-%d %H:%M:%S")] of a number of seconds, when it is a date. *)
Class EventTime := utc_text : Z -> option string.

Definition document_id (e : CacheEvent) : string :=
  if str_is_empty (ev_event_id e) then
    pretty (ev_timestamp e) +:+ ":" +:+ pretty (ev_request_duration_ms e) +:+ ":" +:+ ev_client_ip e +:+ ":" +:+ ev_cache_key e
  else ev_event_id e.

Definition with_event_id (id : string) (e : CacheEvent) : CacheEvent :=
  {| ev_url := ev_url e; ev_method := ev_method e; ev_status := ev_status e; ev_cache_key := ev_cache_key e;
     ev_cache_status := ev_cache_status e; ev_timestamp := ev_timestamp e; ev_headers := ev_headers e;
     ev_user_id := ev_user_id e; ev_username := ev_username e; ev_client_ip := ev_client_ip e; ev_domain := ev_domain e;
     ev_response_size := ev_response_size e; ev_request_duration_ms := ev_request_duration_ms e;
     ev_content_type := ev_content_type e; ev_user_agent := ev_user_agent e; ev_categories := ev_categories e;
     ev_threat_sources := ev_threat_sources e; ev_acl_action := ev_acl_action e; ev_acl_rule_id := ev_acl_rule_id e;
     ev_acl_reason := ev_acl_reason e; ev_session_id := ev_session_id e; ev_parent_event_id := ev_parent_event_id e;
     ev_redirect_url := ev_redirect_url e; ev_dlp_violation := ev_dlp_violation e; ev_casb_alert := ev_casb_alert e;
     ev_decision_source := ev_decision_source e; ev_bypass_reason := ev_bypass_reason e; ev_event_id := id |}.

(** An event without an id gets the stable one. *)
Definition fill_id (e : CacheEvent) : CacheEvent :=
  if str_is_empty (ev_event_id e) then with_event_id (document_id e) e else e.

Record HttpCacheRow := {
  hr_event_id : string;
  hr_ts : string;
  hr_url : string;
  hr_method : string;
  hr_status : N;
  hr_cache_key : string;
  hr_cache_status : string;
  hr_user_id : option string;
  hr_username : option string;
  hr_client_ip : string;
  hr_domain : string;
  hr_response_size : N;
  hr_request_duration_ms : N;
  hr_content_type : option string;
  hr_user_agent : string;
  hr_categories : list string;
  hr_threat_sources : list string;
  hr_acl_action : option string;
  hr_acl_rule_id : option string;
  hr_acl_reason : option string;
  hr_session_id : string;
  hr_parent_event_id : option string;
  hr_redirect_url : option string;
  hr_headers : string;
  hr_dlp_violation : option string;
  hr_casb_alert : option string;
  hr_decision_source : option string;
  hr_bypass_reason : option string;
}.

(** [Ipv4Addr]'s text. *)
Definition ipv4_text (a : N) : string :=
  pretty (N.land (N.shiftr a 24) 255) +:+ "." +:+ pretty (N.land (N.shiftr a 16) 255) +:+ "." +:+
  pretty (N.land (N.shiftr a 8) 255) +:+ "." +:+ pretty (N.land a 255).

Definition normalize_ipv4 (ip : string) : string :=
  match parse_ipv4 ip with Some a => ipv4_text a | None => "0.0.0.0" end.

Section rows.
Context {ET : EventTime} {SJ : SerdeJson} {MO : MapOrder}.

(** A number of seconds that is no date counts as zero; the milliseconds are always 0. *)
Definition epoch_secs_to_clickhouse_ts (secs : N) : string :=
  default (default EmptyString (utc_text 0)) (utc_text (as_i64 secs)) +:+ ".000".

Definition headers_json (headers : gmap string string) : string :=
  if bool_decide (headers = ∅) then "{}"%string
  else json_to_vec (JObject ((fun '(k, v) => (k, JString v)) <$> map_listing headers)).

Definition cache_event_to_row (e : CacheEvent) : HttpCacheRow :=
  {| hr_event_id := if str_is_empty (ev_event_id e) then document_id e else ev_event_id e;
     hr_ts := epoch_secs_to_clickhouse_ts (ev_timestamp e); hr_url := ev_url e; hr_method := ev_method e;
     hr_status := ev_status e; hr_cache_key := ev_cache_key e; hr_cache_status := ev_cache_status e;
     hr_user_id := ev_user_id e; hr_username := ev_username e; hr_client_ip := normalize_ipv4 (ev_client_ip e);
     hr_domain := ev_domain e; hr_response_size := ev_response_size e;
     hr_request_duration_ms := N.min (ev_request_duration_ms e) u32_max; hr_content_type := ev_content_type e;
     hr_user_agent := default EmptyString (ev_user_agent e); hr_categories := ev_categories e;
     hr_threat_sources := ev_threat_sources e; hr_acl_action := ev_acl_action e; hr_acl_rule_id := ev_acl_rule_id e;
     hr_acl_reason := ev_acl_reason e; hr_session_id := ev_session_id e; hr_parent_event_id := ev_parent_event_id e;
     hr_redirect_url := ev_redirect_url e; hr_headers := headers_json (ev_headers e);
     hr_dlp_violation := ev_dlp_violation e; hr_casb_alert := ev_casb_alert e;
     hr_decision_source := ev_decision_source e; hr_bypass_reason := ev_bypass_reason e |}.

(** The fields in the order of the struct, as serde writes them: absent options are
    skipped. *)
Definition opt_member (k : string) (v : option string) : list (string * json) :=
  match v with Some s => [(k, JString s)] | None => [] end.

Definition row_json (r : HttpCacheRow) : json :=
  JObject (
    [("event_id", JString (hr_event_id r)); ("ts", JString (hr_ts r)); ("url", JString (hr_url r));
     ("method", JString (hr_method r)); ("status", json_u64 (hr_status r)); ("cache_key", JString (hr_cache_key r));
     ("cache_status", JString (hr_cache_status r))]%string
    ++ opt_member "user_id" (hr_user_id r) ++ opt_member "username" (hr_username r)
    ++ [("client_ip", JString (hr_client_ip r)); ("domain", JString (hr_domain r));
        ("response_size", json_u64 (hr_response_size r));
        ("request_duration_ms", json_u64 (hr_request_duration_ms r))]%string
    ++ opt_member "content_type" (hr_content_type r)
    ++ [("user_agent", JString (hr_user_agent r)); ("categories", JArray (JString <$> hr_categories r));
        ("threat_sources", JArray (JString <$> hr_threat_sources r))]%string
    ++ opt_member "acl_action" (hr_acl_action r) ++ opt_member "acl_rule_id" (hr_acl_rule_id r)
    ++ opt_member "acl_reason" (hr_acl_reason r) ++ [("session_id", JString (hr_session_id r))]%string
    ++ opt_member "parent_event_id" (hr_parent_event_id r) ++ opt_member "redirect_url" (hr_redirect_url r)
    ++ [("headers", JString (hr_headers r))]%string
    ++ opt_member "dlp_violation" (hr_dlp_violation r) ++ opt_member "casb_alert" (hr_casb_alert r)
    ++ opt_member "decision_source" (hr_decision_source r) ++ opt_member "bypass_reason" (hr_bypass_reason r)).

Definition json_each_row_lines (events : list CacheEvent) : string :=
  unlines ((fun e => json_to_vec (row_json (cache_event_to_row e))) <$> events).

End rows.

(** ** Searches and hits (store/mod.rs) *)

Record SearchQuery := {
  q_from_ts : N;
  q_to_ts : N;
  q_domain : string;
  q_username : string;
  q_session_id : string;
  q_decision_source : string;
  q_offset : N;
  q_limit : N;
  q_order : string;
  q_session_timeline : bool;
}.

Record SearchHit := {
  h_ts : N;
  h_username : option string;
  h_client_ip : string;
  h_url : string;
  h_method : string;
  h_status : N;
  h_cache_status : string;
  h_domain : string;
  h_event_id : string;
  h_session_id : string;
  h_parent_event_id : option string;
  h_redirect_url : option string;
  h_decision_source : option string;
  h_acl_action : option string;
  h_acl_rule_id : option string;
  h_acl_reason : option string;
}.

Definition json_opt (v : option string) : json := match v with Some s => JString s | None => JNull end.

Definition hit_json (h : SearchHit) : json :=
  json_object
    [("ts", json_u64 (h_ts h)); ("username", json_opt (h_username h)); ("client_ip", JString (h_client_ip h));
     ("url", JString (h_url h)); ("method", JString (h_method h)); ("status", json_u64 (h_status h));
     ("cache_status", JString (h_cache_status h)); ("domain", JString (h_domain h));
     ("event_id", JString (h_event_id h)); ("session_id", JString (h_session_id h));
     ("parent_event_id", json_opt (h_parent_event_id h)); ("redirect_url", json_opt (h_redirect_url h));
     ("decision_source", json_opt (h_decision_source h)); ("acl_action", json_opt (h_acl_action h));
     ("acl_rule_id", json_opt (h_acl_rule_id h)); ("acl_reason", json_opt (h_acl_reason h))]%string.

Definition ascending (q : SearchQuery) : bool := q_session_timeline q || eq_ignore_ascii_case (q_order q) "asc".

(** *** In memory (store/memory.rs) *)

Record MemoryStore := {
  ms_max_rows : N;
  ms_rows : list CacheEvent;
}.

Definition MemoryStore_new (max_rows : N) : MemoryStore := {| ms_max_rows := N.max max_rows 1; ms_rows := [] |}.

(** [while len > max { pop_front }]. *)
Definition trim_front (max : N) (rows : list CacheEvent) : list CacheEvent := drop (length rows - N.to_nat max) rows.

Definition memory_push (max : N) (rows : list CacheEvent) (e : CacheEvent) : list CacheEvent :=
  trim_front max (rows ++ [fill_id e]).

Definition memory_insert_batch (events : list CacheEvent) (s : MemoryStore) : MemoryStore :=
  {| ms_max_rows := ms_max_rows s; ms_rows := foldl (memory_push (ms_max_rows s)) (ms_rows s) events |}.

Definition event_to_hit (e : CacheEvent) : SearchHit :=
  {| h_ts := ev_timestamp e; h_username := ev_username e; h_client_ip := ev_client_ip e; h_url := ev_url e;
     h_method := ev_method e; h_status := ev_status e; h_cache_status := ev_cache_status e; h_domain := ev_domain e;
     h_event_id := if str_is_empty (ev_event_id e) then document_id e else ev_event_id e;
     h_session_id := ev_session_id e; h_parent_event_id := ev_parent_event_id e; h_redirect_url := ev_redirect_url e;
     h_decision_source := ev_decision_source e; h_acl_action := ev_acl_action e; h_acl_rule_id := ev_acl_rule_id e;
     h_acl_reason := ev_acl_reason e |}.

(** An empty filter accepts everything. *)
Definition wanted (filter value : string) : bool := str_is_empty filter || String.eqb value filter.

Definition event_matches (q : SearchQuery) (e : CacheEvent) : bool :=
  ((q_from_ts q <=? ev_timestamp e) && (ev_timestamp e <=? q_to_ts q))%N && wanted (q_domain q) (ev_domain e) &&
  wanted (q_username q) (default EmptyString (ev_username e)) && wanted (q_session_id q) (ev_session_id e) &&
  wanted (q_decision_source q) (default EmptyString (ev_decision_source e)).

(** [sort_by_key], ascending and stable. *)
Fixpoint insert_asc (x : SearchHit) (l : list SearchHit) : list SearchHit :=
  match l with
  | [] => [x]
  | y :: l' => if (h_ts x <=? h_ts y)%N then x :: l else y :: insert_asc x l'
  end.

Definition sort_asc (l : list SearchHit) : list SearchHit := foldr insert_asc [] l.

Definition sorted_hits (q : SearchQuery) (rows : list CacheEvent) : list SearchHit :=
  let hits := event_to_hit <$> List.filter (event_matches q) rows in
  if ascending q then sort_asc hits else sort_desc h_ts hits.

Definition memory_search (q : SearchQuery) (s : MemoryStore) : list SearchHit :=
  let hits := sorted_hits q (ms_rows s) in
  let skip := N.to_nat (q_offset q) in
  if length hits <=? skip then [] else take (N.to_nat (q_limit q)) (drop skip hits).

(** *** SQLite (store/sqlite.rs) *)

(** A row of the table; its key is the id. *)
Record SqlRow := {
  sq_ts : Z;
  sq_hit : SearchHit;
  sq_payload : string;
}.

(** [ORDER BY ts]: the order of rows with equal timestamps is SQLite's. *)
Class SqlOrder := order_by_ts : bool -> list SqlRow -> list SqlRow.

Record SqliteStore := {
  ss_max_rows : N;
  ss_rows : list SqlRow;
}.

(** Where a statement fails: in the transaction, or after its commit. *)
Inductive SqlFault := NoFault | BeforeCommit (e : string) | AfterCommit (e : string).

Section sqlite.
Context {EX : EventText} {SO : SqlOrder}.

(** [open]: the rows the file holds, or the error of a directory, a connection or a
    statement. *)
Definition sqlite_open (opened : result (list SqlRow) string) (max_rows : N) : result SqliteStore string :=
  let? rows := opened in Ok {| ss_max_rows := N.max max_rows 1; ss_rows := rows |}.

Definition sql_row (e : CacheEvent) : SqlRow :=
  {| sq_ts := as_i64 (ev_timestamp e); sq_hit := event_to_hit e; sq_payload := event_to_string e |}.

Definition sql_id (r : SqlRow) : string := h_event_id (sq_hit r).

(** [INSERT .. ON CONFLICT(event_id) DO UPDATE]. *)
Fixpoint upsert (rows : list SqlRow) (r : SqlRow) : list SqlRow :=
  match rows with
  | [] => [r]
  | r' :: rows => if String.eqb (sql_id r') (sql_id r) then r :: rows else r' :: upsert rows r
  end.

(** [DELETE .. WHERE event_id IN (SELECT .. ORDER BY ts ASC LIMIT excess)]. *)
Definition delete_oldest (excess : nat) (rows : list SqlRow) : list SqlRow :=
  let gone := sql_id <$> take excess (order_by_ts true rows) in
  List.filter (fun r => negb (bool_decide (sql_id r ∈ gone))) rows.

Definition sqlite_insert_batch (fault : SqlFault) (events : list CacheEvent) (s : SqliteStore)
    : SqliteStore * result unit string :=
  match fault with
  | BeforeCommit e => (s, Err e)
  | _ =>
      let rows := foldl (fun rows e => upsert rows (sql_row (fill_id e))) (ss_rows s) events in
      let committed := {| ss_max_rows := ss_max_rows s; ss_rows := rows |} in
      match fault with
      | AfterCommit e => (committed, Err e)
      | _ =>
          let max := N.to_nat (ss_max_rows s) in
          if max <? length rows
          then ({| ss_max_rows := ss_max_rows s; ss_rows := delete_oldest (length rows - max) rows |}, Ok tt)
          else (committed, Ok tt)
      end
  end.

(** [NULL] equals nothing. *)
Definition sql_wanted (filter : string) (value : option string) : bool :=
  str_is_empty filter || match value with Some v => String.eqb v filter | None => false end.

Definition row_matches (q : SearchQuery) (r : SqlRow) : bool :=
  ((as_i64 (q_from_ts q) <=? sq_ts r) && (sq_ts r <=? as_i64 (q_to_ts q)))%Z &&
  sql_wanted (q_domain q) (Some (h_domain (sq_hit r))) && sql_wanted (q_username q) (h_username (sq_hit r)) &&
  sql_wanted (q_session_id q) (Some (h_session_id (sq_hit r))) &&
  sql_wanted (q_decision_source q) (h_decision_source (sq_hit r)).

Definition sqlite_page (q : SearchQuery) (s : SqliteStore) : list SearchHit :=
  take (N.to_nat (q_limit q))
    (drop (N.to_nat (q_offset q)) (sq_hit <$> order_by_ts (ascending q) (List.filter (row_matches q) (ss_rows s)))).

(** A statement or the reading of a row may fail. *)
Definition sqlite_search (fault : option string) (q : SearchQuery) (s : SqliteStore) : result (list SearchHit) string :=
  match fault with Some e => Err e | None => Ok (sqlite_page q s) end.

End sqlite.

(** *** Its schema: the names of the columns *)

Definition events_columns : list string :=
  ["event_id"; "ts"; "domain"; "username"; "client_ip"; "url"; "method"; "status"; "cache_status"; "session_id";
   "parent_event_id"; "redirect_url"; "decision_source"; "acl_action"; "acl_rule_id"; "acl_reason"; "payload"]%string.

Definition has_column (columns : list string) (column : string) : bool := bool_decide (column ∈ columns).

Definition add_column (columns : list string) (column : string) : list string :=
  if has_column columns column then columns else columns ++ [column].

(** The columns of the table, created when there is none. *)
Definition initialize_schema (existing : option (list string)) : list string :=
  foldl add_column (default events_columns existing) ["decision_source"; "acl_action"; "acl_rule_id"; "acl_reason"]%string.

(** *** ClickHouse (clickhouse.rs, store/mod.rs) *)

Record ClickHouseConfig := {
  cc_url : string;
  cc_database : string;
  cc_table : string;
  cc_user : option string;
  cc_password : option string;
}.

Definition load_config_from_env (env : Env) : ClickHouseConfig :=
  {| cc_url := default "http://clickhouse:8123"%string (env "CLICKHOUSE_URL"%string);
     cc_database := default "bsdm"%string (env "CLICKHOUSE_DATABASE"%string);
     cc_table := default "http_cache"%string (env "CLICKHOUSE_TABLE"%string);
     cc_user := env "CLICKHOUSE_USER"%string; cc_password := env "CLICKHOUSE_PASSWORD"%string |}.

(** A request: the parameters of its url and its body. *)
Record ChPost := {
  cp_method : string;
  cp_url : string;
  cp_query : list (string * string);
  cp_auth : option (string * string);
  cp_content_type : option string;
  cp_body : string;
}.

(** The error of sending, or a status and the text of the body or the error of reading it. *)
Abbreviation ChAnswer := (result (N * result string string) string).

(** Credentials are sent only when both are set. *)
Definition cc_auth (c : ClickHouseConfig) : option (string * string) :=
  match cc_user c, cc_password c with Some u, Some p => Some (u, p) | _, _ => None end.

Definition cc_query_request (c : ClickHouseConfig) (sql : string) (params : list (string * string)) : ChPost :=
  {| cp_method := "POST"; cp_url := trim_end_matches "/" (cc_url c);
     cp_query := ("query"%string, sql) :: ((fun '(name, value) => ("param_" +:+ name, value)) <$> params);
     cp_auth := cc_auth c; cp_content_type := None; cp_body := EmptyString |}.

(** No request for no events. *)
Definition cc_insert_request {ET : EventTime} {SJ : SerdeJson} {MO : MapOrder} (c : ClickHouseConfig)
    (events : list CacheEvent) : option ChPost :=
  match events with
  | [] => None
  | _ =>
      Some {| cp_method := "POST"; cp_url := trim_end_matches "/" (cc_url c);
              cp_query := [("query"%string, "INSERT INTO " +:+ cc_database c +:+ "." +:+ cc_table c +:+ " FORMAT JSONEachRow")];
              cp_auth := cc_auth c; cp_content_type := Some "application/json"%string;
              cp_body := json_each_row_lines events |}
  end.

(** The body is read only of an error, and one that cannot be read counts as empty. *)
Definition cc_insert_outcome (events : list CacheEvent) (answer : ChAnswer) : result unit string :=
  match events with
  | [] => Ok tt
  | _ =>
      let? r := answer in
      if is_success r.1 then Ok tt
      else Err ("ClickHouse insert failed: " +:+ match r.2 with Ok body => body | Err _ => EmptyString end)
  end.

Definition search_sql (c : ClickHouseConfig) (q : SearchQuery) : string :=
  "SELECT toUnixTimestamp(ts) AS ts, username, toString(client_ip) AS client_ip, url, method, status, " +:+
  "cache_status, domain, event_id, session_id, parent_event_id, redirect_url, decision_source, " +:+
  "acl_action, acl_rule_id, acl_reason FROM " +:+ cc_database c +:+ "." +:+ cc_table c +:+
  " WHERE ts >= fromUnixTimestamp({from:UInt32}) AND ts <= fromUnixTimestamp({to:UInt32}) " +:+
  "AND (length({domain:String}) = 0 OR domain = {domain:String}) " +:+
  "AND (length({username:String}) = 0 OR username = {username:String}) " +:+
  "AND (length({session_id:String}) = 0 OR session_id = {session_id:String}) " +:+
  "AND (length({decision_source:String}) = 0 OR decision_source = {decision_source:String}) " +:+
  "ORDER BY " +:+ (if ascending q then "ts ASC" else "ts DESC") +:+
  " LIMIT {limit:UInt32} OFFSET {offset:UInt32} FORMAT JSONEachRow".

(** Values travel as parameters, never in the text of the query. *)
Definition search_request (c : ClickHouseConfig) (q : SearchQuery) : ChPost :=
  cc_query_request c (search_sql c q)
    [("from", pretty (q_from_ts q)); ("to", pretty (q_to_ts q)); ("domain", q_domain q); ("username", q_username q);
     ("session_id", q_session_id q); ("decision_source", q_decision_source q); ("offset", pretty (q_offset q));
     ("limit", pretty (q_limit q))]%string.

(** [Value::as_i64] of a number. *)
Class NumberI64 := number_as_i64 : string -> option Z.

Section clickhouse.
Context {SJ : SerdeJson} {JN : JsonNumbers} {DT : DisplayText} {NI : NumberI64}.

Definition json_string (v : json) (key : string) : string := default EmptyString (json_get key v ≫= as_str).

Definition json_opt_string (v : json) (key : string) : option string :=
  match json_get key v with
  | Some JNull | None => None
  | Some (JString s) => if str_is_empty s then None else Some s
  | Some other => Some (json_to_vec other)
  end.

(** A negative number wraps. *)
Definition json_row_u64 (v : json) (key : string) : option N :=
  x ← json_get key v;
  match x with
  | JNumber t => match number_as_u64 t with Some n => Some n | None => (fun z => Z.to_N (z mod 2 ^ 64)) <$> number_as_i64 t end
  | JString s => parse_u64 s
  | _ => None
  end.

Definition hit_of_json (v : json) : SearchHit :=
  {| h_ts := default 0%N (json_row_u64 v "ts"); h_username := json_opt_string v "username";
     h_client_ip := json_string v "client_ip"; h_url := json_string v "url"; h_method := json_string v "method";
     h_status := (default 0 (json_row_u64 v "status") mod 2 ^ 16)%N; h_cache_status := json_string v "cache_status";
     h_domain := json_string v "domain"; h_event_id := json_string v "event_id"; h_session_id := json_string v "session_id";
     h_parent_event_id := json_opt_string v "parent_event_id"; h_redirect_url := json_opt_string v "redirect_url";
     h_decision_source := json_opt_string v "decision_source"; h_acl_action := json_opt_string v "acl_action";
     h_acl_rule_id := json_opt_string v "acl_rule_id"; h_acl_reason := json_opt_string v "acl_reason" |}.

Definition parse_search_ndjson (body : string) : result (list SearchHit) string :=
  let? rows := parse_rows (str_lines body) in
  Ok (hit_of_json <$> rows).

Definition cc_query_outcome (answer : ChAnswer) : result string string :=
  let? r := answer in
  let? body := r.2 in
  if is_success r.1 then Ok body
  else Err ("ClickHouse query failed (HTTP " +:+ status_display r.1 +:+ "): " +:+ body).

Definition search_clickhouse (answer : ChAnswer) : result (list SearchHit) string :=
  let? body := cc_query_outcome answer in parse_search_ndjson body.

(** *** Start-up *)

Definition cc_ping_request (c : ClickHouseConfig) : ChPost :=
  {| cp_method := "GET"; cp_url := trim_end_matches "/" (cc_url c) +:+ "/ping"; cp_query := []; cp_auth := cc_auth c;
     cp_content_type := None; cp_body := EmptyString |}.

Definition table_query (c : ClickHouseConfig) : string :=
  "SELECT 1 FROM system.tables WHERE database = '" +:+ cc_database c +:+ "' AND name = '" +:+ cc_table c +:+ "'".

Definition schema_migration_queries (database table : string) : list string :=
  (fun column => "ALTER TABLE " +:+ database +:+ "." +:+ table +:+ " ADD COLUMN IF NOT EXISTS " +:+ column) <$>
  ["decision_source LowCardinality(Nullable(String))"; "bypass_reason Nullable(String)"; "acl_rule_id Nullable(String)";
   "acl_reason Nullable(String)"]%string.

(** What is sent, given the answers to the ping and to the query for the table, and
    whether the indexer starts; the outcome of a migration is ignored. *)
Definition ensure_ready (c : ClickHouseConfig) (ping table : ChAnswer) : list ChPost * result unit string :=
  let asked := [cc_ping_request c; cc_query_request c (table_query c) []] in
  match ping with
  | Err e => ([cc_ping_request c], Err e)
  | Ok (status, _) =>
      if is_success status then
        match cc_query_outcome table with
        | Err e => (asked, Err e)
        | Ok body =>
            if String.eqb (trim body) "1" then
              (asked ++ ((fun sql => cc_query_request c sql []) <$> schema_migration_queries (cc_database c) (cc_table c)), Ok tt)
            else
              (asked, Err ("ClickHouse table " +:+ cc_database c +:+ "." +:+ cc_table c +:+
                           " not found (run scripts/clickhouse/http_cache.sql)"))
        end
      else ([cc_ping_request c], Err ("ClickHouse ping failed: HTTP " +:+ status_display status))
  end.

End clickhouse.

(** *** The three stores *)

Inductive EventStore :=
| Memory (s : MemoryStore)
| Sqlite (s : SqliteStore)
| ClickHouse (c : ClickHouseConfig).

Definition backend_name (st : EventStore) : string :=
  match st with Memory _ => "memory" | Sqlite _ => "sqlite" | ClickHouse _ => "clickhouse" end.

(** What the database does in one operation. *)
Record DbInput := {
  di_insert : SqlFault;
  di_search : option string;
  di_answer : ChAnswer;
}.

Definition env_usize (env : Env) (name : string) (dflt : N) : N :=
  match env name ≫= parse_usize with
  | Some n => if (0 <? n)%N then n else dflt
  | None => dflt
  end.

Definition index_store_kind (env : Env) : string :=
  to_ascii_lowercase (default "clickhouse"%string (env "INDEX_STORE"%string)).

(** [opened] is what SQLite finds at a path. *)
Definition open_from_env (env : Env) (opened : string -> result (list SqlRow) string) : result EventStore string :=
  let kind := index_store_kind env in
  if String.eqb kind "memory" then Ok (Memory (MemoryStore_new (env_usize env "SQLITE_MAX_ROWS" 100000)))
  else if String.eqb kind "sqlite" then
    let path := default "/var/lib/cache-indexer/events.db"%string (env "SQLITE_PATH"%string) in
    let? s := sqlite_open (opened path) (env_usize env "SQLITE_MAX_ROWS" 1000000) in Ok (Sqlite s)
  else if String.eqb kind "clickhouse" then Err "clickhouse store is bootstrapped separately"%string
  else Err ("unknown INDEX_STORE=" +:+ kind +:+ " (memory|sqlite|clickhouse)").

Section store.
Context {EX : EventText} {ET : EventTime} {SO : SqlOrder} {SJ : SerdeJson} {JN : JsonNumbers} {DT : DisplayText}
  {NI : NumberI64} {MO : MapOrder}.

Definition bootstrap_store (env : Env) (opened : string -> result (list SqlRow) string) (ping table : ChAnswer)
    : list ChPost * result EventStore string :=
  let kind := index_store_kind env in
  if String.eqb kind "clickhouse" then
    let c := load_config_from_env env in
    let '(sent, ready) := ensure_ready c ping table in
    (sent, let? _ := ready in Ok (ClickHouse c))
  else if String.eqb kind "memory" || String.eqb kind "sqlite" then ([], open_from_env env opened)
  else ([], Err ("unknown INDEX_STORE=" +:+ kind)).

(** The store, what was sent to ClickHouse, and the outcome. *)
Definition insert_batch (db : DbInput) (events : list CacheEvent) (st : EventStore)
    : EventStore * option ChPost * result unit string :=
  match st with
  | Memory s => (Memory (memory_insert_batch events s), None, Ok tt)
  | Sqlite s => let '(s, r) := sqlite_insert_batch (di_insert db) events s in (Sqlite s, None, r)
  | ClickHouse c => (st, cc_insert_request c events, cc_insert_outcome events (di_answer db))
  end.

Definition store_search (db : DbInput) (q : SearchQuery) (st : EventStore) : option ChPost * result (list SearchHit) string :=
  match st with
  | Memory s => (None, Ok (memory_search q s))
  | Sqlite s => (None, sqlite_search (di_search db) q s)
  | ClickHouse c => (Some (search_request c q), search_clickhouse (di_answer db))
  end.

End store.

(** ** The ring *)

Lemma trim_front_app max rows e :
  trim_front max (trim_front max rows ++ [e]) = trim_front max (rows ++ [e]).
Proof.
  unfold trim_front. rewrite !length_app, length_drop. cbn [length].
  destruct (decide (length rows <= N.to_nat max)) as [Hl|Hl].
  - replace (length rows - N.to_nat max) with 0 by lia. rewrite drop_0.
    by replace (length rows - 0 + 1 - N.to_nat max) with (length rows + 1 - N.to_nat max) by lia.
  - rewrite !drop_app, length_drop, drop_drop.
    f_equal; f_equal; lia.
Qed.

Lemma memory_push_all max events rows :
  foldl (memory_push max) (trim_front max rows) events = trim_front max (rows ++ (fill_id <$> events)).
Proof.
  revert rows. induction events as [|e events IH]; intros rows; cbn [foldl fmap list_fmap].
  - by rewrite app_nil_r.
  - unfold memory_push at 2. rewrite trim_front_app, IH, <- app_assoc. done.
Qed.

Lemma memory_batches max batches :
  foldl (fun s b => memory_insert_batch b s) (MemoryStore_new max) batches =
  {| ms_max_rows := N.max max 1; ms_rows := trim_front (N.max max 1) (fill_id <$> concat batches) |}.
Proof.
  induction batches as [|b batches IH] using rev_ind; [done|].
  rewrite foldl_snoc, IH, concat_app, fmap_app. cbn [concat]. rewrite app_nil_r.
  unfold memory_insert_batch. cbn [ms_max_rows ms_rows]. by rewrite memory_push_all.
Qed.

(** ** Sorted pages *)

Lemma insert_asc_Permutation x l : Permutation (insert_asc x l) (x :: l).
Proof. induction l as [|y l IH]; cbn; [done|]. case_goal; [done|]. rewrite IH. constructor. Qed.

Lemma sort_asc_Permutation l : Permutation (sort_asc l) l.
Proof. induction l as [|x l IH]; cbn; [done|]. by rewrite insert_asc_Permutation, IH. Qed.

Abbreviation ts_le := (fun x y => (h_ts x <= h_ts y)%N).

Lemma insert_asc_Sorted x l : StronglySorted ts_le l -> StronglySorted ts_le (insert_asc x l).
Proof.
  induction 1 as [|y l Hl IH Hy]; cbn; [repeat constructor|]. case_goal; bool_hyps.
  - constructor; [by constructor|]. constructor; [done|]. eapply Forall_impl; [exact Hy|]; cbn; lia.
  - constructor; [done|]. rewrite insert_asc_Permutation. constructor; [lia|done].
Qed.

Lemma sort_asc_Sorted l : StronglySorted ts_le (sort_asc l).
Proof. induction l; cbn; [constructor|]. by apply insert_asc_Sorted. Qed.

(** Both orders list exactly the matching rows. *)
Lemma sorted_hits_Permutation q rows :
  Permutation (sorted_hits q rows) (event_to_hit <$> List.filter (event_matches q) rows).
Proof. unfold sorted_hits. destruct (ascending q); [apply sort_asc_Permutation|apply sort_desc_Permutation]. Qed.

Lemma sorted_hits_Sorted q rows :
  if ascending q then StronglySorted ts_le (sorted_hits q rows)
  else StronglySorted (fun x y => (h_ts y <= h_ts x)%N) (sorted_hits q rows).
Proof. unfold sorted_hits. destruct (ascending q); [apply sort_asc_Sorted|apply sort_desc_Sorted]. Qed.

Definition page (q : SearchQuery) (offset limit : N) : SearchQuery :=
  {| q_from_ts := q_from_ts q; q_to_ts := q_to_ts q; q_domain := q_domain q; q_username := q_username q;
     q_session_id := q_session_id q; q_decision_source := q_decision_source q; q_offset := offset; q_limit := limit;
     q_order := q_order q; q_session_timeline := q_session_timeline q |}.

Lemma memory_search_slice q s :
  memory_search q s = take (N.to_nat (q_limit q)) (drop (N.to_nat (q_offset q)) (sorted_hits q (ms_rows s))).
Proof.
  unfold memory_search. destruct (Nat.leb_spec (length (sorted_hits q (ms_rows s))) (N.to_nat (q_offset q))); [|done].
  rewrite drop_ge by done. by rewrite take_nil.
Qed.

(** Pages one after the other are one larger page. *)
Lemma pages_concat q limit s n :
  concat ((fun i => memory_search (page q (N.of_nat i * limit) limit) s) <$> seq 0 n) =
  take (n * N.to_nat limit) (sorted_hits q (ms_rows s)).
Proof.
  induction n as [|n IH]; [done|].
  rewrite seq_S, fmap_app, concat_app, IH. cbn [fmap list_fmap concat Nat.add]. rewrite app_nil_r, memory_search_slice.
  cbn [q_limit q_offset page]. change (sorted_hits (page _ _ _) ?r) with (sorted_hits q r).
  rewrite N2Nat.inj_mul, Nat2N.id. replace (S n * N.to_nat limit) with (n * N.to_nat limit + N.to_nat limit) by lia.
  by rewrite take_take_drop.
Qed.

(** ** The table *)

Definition table_lookup (rows : list SqlRow) (id : string) : option SqlRow :=
  List.find (fun r => String.eqb (sql_id r) id) rows.

Lemma upsert_ids rows r :
  sql_id <$> upsert rows r =
  (sql_id <$> rows) ++ (if decide (sql_id r ∈ sql_id <$> rows) then [] else [sql_id r]).
Proof.
  induction rows as [|r' rows IH]; cbn; [by rewrite decide_False by set_solver|].
  destruct (String.eqb_spec (sql_id r') (sql_id r)) as [E|E]; cbn.
  - rewrite decide_True by (rewrite E; set_solver). by rewrite E, app_nil_r.
  - rewrite IH. f_equal. f_equal. apply decide_ext. set_solver.
Qed.

Lemma upsert_lookup rows r id :
  table_lookup (upsert rows r) id = if String.eqb (sql_id r) id then Some r else table_lookup rows id.
Proof.
  unfold table_lookup. induction rows as [|r' rows IH]; [done|]. cbn [upsert].
  destruct (String.eqb_spec (sql_id r') (sql_id r)) as [E|E]; cbn [List.find].
  - rewrite E. by destruct (String.eqb (sql_id r) id).
  - rewrite IH. destruct (String.eqb_spec (sql_id r') id), (String.eqb_spec (sql_id r) id); congruence.
Qed.

Lemma upsert_NoDup rows r : NoDup (sql_id <$> rows) -> NoDup (sql_id <$> upsert rows r).
Proof.
  intros H. rewrite upsert_ids. destruct (decide _); [by rewrite app_nil_r|].
  apply NoDup_app. split; [done|]. split; [set_solver|apply NoDup_singleton].
Qed.

Lemma upserts_NoDup rs rows : NoDup (sql_id <$> rows) -> NoDup (sql_id <$> foldl upsert rows rs).
Proof. revert rows. induction rs as [|r rs IH]; intros rows H; [done|]. by apply IH, upsert_NoDup. Qed.

(** A row of the batch replaces what the table held under its id; the last one wins. *)
Lemma upserts_lookup rs rows id :
  table_lookup (foldl upsert rows rs) id =
  match table_lookup (rev rs) id with Some r => Some r | None => table_lookup rows id end.
Proof.
  induction rs as [|r rs IH] using rev_ind; [done|].
  rewrite foldl_snoc, upsert_lookup, rev_app_distr, IH. unfold table_lookup. cbn.
  by destruct (String.eqb (sql_id r) id).
Qed.

Lemma upserts_known_ids rs rows :
  (forall r, r ∈ rs -> sql_id r ∈ sql_id <$> rows) -> sql_id <$> foldl upsert rows rs = sql_id <$> rows.
Proof.
  revert rows. induction rs as [|r rs IH]; intros rows H; [done|]. cbn [foldl].
  assert (E : sql_id <$> upsert rows r = sql_id <$> rows).
  { rewrite upsert_ids, decide_True by (apply H; set_solver). by rewrite app_nil_r. }
  rewrite IH; [done|]. intros r' Hr'. rewrite E. apply H. set_solver.
Qed.

Lemma upserts_ids rs rows id :
  id ∈ sql_id <$> foldl upsert rows rs <-> id ∈ sql_id <$> rows \/ id ∈ sql_id <$> rs.
Proof.
  revert rows. induction rs as [|r rs IH]; intros rows; cbn [foldl fmap list_fmap]; [set_solver|].
  rewrite IH, upsert_ids. destruct (decide _); set_solver.
Qed.

Lemma table_ext a b :
  NoDup (sql_id <$> a) -> sql_id <$> a = sql_id <$> b -> (forall id, table_lookup a id = table_lookup b id) -> a = b.
Proof.
  revert b. induction a as [|x a IH]; intros [|y b] Hnd Hids Hl; try done.
  cbn in Hids. injection Hids as Hid Hids. cbn in Hnd. apply NoDup_cons in Hnd as [Hx Hnd].
  pose proof (Hl (sql_id x)) as Hhd. unfold table_lookup in Hhd. cbn in Hhd.
  rewrite <- Hid, !String.eqb_refl in Hhd. injection Hhd as ->. f_equal. apply IH; [done|done|].
  intros id. pose proof (Hl id) as Hi. unfold table_lookup in *. cbn in Hi.
  destruct (String.eqb_spec (sql_id y) id) as [Ey|]; [|done]. rewrite <- Ey.
  assert (Hnone : forall l, sql_id y ∉ sql_id <$> l -> List.find (fun r => String.eqb (sql_id r) (sql_id y)) l = None).
  { induction l as [|z l IHl]; intros Hz; [done|]. cbn in Hz |- *.
    destruct (String.eqb_spec (sql_id z) (sql_id y)); [set_solver|]. apply IHl. set_solver. }
  rewrite !Hnone; [done| |done]. by rewrite <- Hids.
Qed.

Lemma upserts_idem rs rows :
  NoDup (sql_id <$> rows) -> foldl upsert (foldl upsert rows rs) rs = foldl upsert rows rs.
Proof.
  intros Hnd. symmetry. apply table_ext; [by apply upserts_NoDup| |].
  - symmetry. apply upserts_known_ids. intros r Hr. apply upserts_ids. right. by apply list_elem_of_fmap_2.
  - intros id. rewrite !upserts_lookup. by destruct (table_lookup (rev rs) id).
Qed.

(** *** Eviction *)

(** [ORDER BY ts] lists the same rows, by timestamp. *)
Class SqlOrderLaws (SO : SqlOrder) := {
  order_by_perm (asc : bool) (rows : list SqlRow) : Permutation (order_by_ts asc rows) rows;
  order_by_sorted (asc : bool) (rows : list SqlRow) :
    StronglySorted (fun x y => if asc then (sq_ts x <= sq_ts y)%Z else (sq_ts y <= sq_ts x)%Z) (order_by_ts asc rows);
}.

Lemma list_filter_Permutation {A} (P : A -> bool) l l' :
  Permutation l l' -> Permutation (List.filter P l) (List.filter P l').
Proof.
  induction 1; cbn; [done| | |by etrans].
  - by destruct (P x); [constructor|].
  - destruct (P x), (P y); try done. constructor.
Qed.

Lemma filter_ids_app (a b : list SqlRow) :
  NoDup (sql_id <$> a ++ b) ->
  List.filter (fun r => negb (bool_decide (sql_id r ∈ sql_id <$> a))) (a ++ b) = b.
Proof.
  rewrite fmap_app, NoDup_app. intros (_ & Hd & _). rewrite List.filter_app.
  assert (Ha : forall l, (forall r, r ∈ l -> sql_id r ∈ sql_id <$> a) ->
    List.filter (fun r => negb (bool_decide (sql_id r ∈ sql_id <$> a))) l = []).
  { induction l as [|r l IH]; intros H; [done|]. cbn. rewrite bool_decide_true by (apply H; set_solver).
    apply IH. set_solver. }
  assert (Hb : forall l, (forall r, r ∈ l -> sql_id r ∉ sql_id <$> a) ->
    List.filter (fun r => negb (bool_decide (sql_id r ∈ sql_id <$> a))) l = l).
  { induction l as [|r l IH]; intros H; [done|]. cbn. rewrite bool_decide_false by (apply H; set_solver).
    cbn. f_equal. apply IH. set_solver. }
  rewrite Ha by (intros; by apply list_elem_of_fmap_2). apply Hb.
  intros r Hr Hin. eapply Hd; [exact Hin|]. by apply list_elem_of_fmap_2.
Qed.

Lemma delete_oldest_drop {SO : SqlOrder} {SL : SqlOrderLaws SO} k rows :
  NoDup (sql_id <$> rows) -> Permutation (delete_oldest k rows) (drop k (order_by_ts true rows)).
Proof.
  intros Hnd. unfold delete_oldest.
  etrans; [apply list_filter_Permutation; symmetry; apply (order_by_perm true rows)|].
  pose proof (filter_ids_app (take k (order_by_ts true rows)) (drop k (order_by_ts true rows))) as H.
  rewrite take_drop in H. rewrite H; [done|]. by rewrite (order_by_perm true rows).
Qed.

Lemma row_id {EX : EventText} e : sql_id (sql_row (fill_id e)) = document_id e.
Proof.
  unfold sql_id, sql_row, fill_id, event_to_hit. cbn [sq_hit h_event_id].
  destruct (str_is_empty (ev_event_id e)) eqn:He.
  - cbn [ev_event_id with_event_id]. destruct (str_is_empty (document_id e)) eqn:Hd; [|done].
    unfold document_id in *. rewrite He in *. cbn [ev_event_id with_event_id]. by rewrite Hd.
  - rewrite He. unfold document_id. by rewrite He.
Qed.

(** ** What the stores promise *)

(** The ring in memory is exact.  After any sequence of batches it holds the most
    recent events, in the order of their arrival and each with an id, as many as its
    bound allows and never more. *)
Theorem memory_ring_exact (max : N) (batches : list (list CacheEvent)) :
  let s := foldl (fun s b => memory_insert_batch b s) (MemoryStore_new max) batches in
  let arrived := fill_id <$> concat batches in
  let kept := Nat.min (length arrived) (N.to_nat (N.max max 1)) in
  ms_rows s = drop (length arrived - kept) arrived /\ length (ms_rows s) = kept.
Proof.
  intros s arrived kept. subst s. rewrite memory_batches. cbn [ms_rows]. fold arrived. unfold trim_front, kept.
  split; [f_equal; lia|]. rewrite length_drop. lia.
Qed.

(** Paging through a search neither loses nor repeats a hit.  Enough pages of any
    positive size, one after the other, are all the rows that match the query, each
    once, sorted by timestamp in the direction that was asked for. *)
Theorem pages_partition (q : SearchQuery) (limit : N) (s : MemoryStore) (n : nat) :
  (length (ms_rows s) <= n * N.to_nat limit)%nat ->
  let hits := concat ((fun i => memory_search (page q (N.of_nat i * limit) limit) s) <$> seq 0 n) in
  Permutation hits (event_to_hit <$> List.filter (event_matches q) (ms_rows s)) /\
  (if ascending q then StronglySorted ts_le hits else StronglySorted (fun x y => (h_ts y <= h_ts x)%N) hits).
Proof.
  intros Hn hits. subst hits. rewrite pages_concat, take_ge; [split; [apply sorted_hits_Permutation|apply sorted_hits_Sorted]|].
  rewrite (Permutation_length (sorted_hits_Permutation q (ms_rows s))), length_fmap.
  etrans; [apply List.filter_length_le|done].
Qed.

Section table.
Context {EX : EventText} {SO : SqlOrder} {SL : SqlOrderLaws SO}.

(** What SQLite's primary key and the bound of the store promise. *)
Definition table_ok (s : SqliteStore) : Prop := NoDup (sql_id <$> ss_rows s).

Definition batch_rows (events : list CacheEvent) : list SqlRow := (fun e => sql_row (fill_id e)) <$> events.

Lemma insert_rows events rows :
  foldl (fun rows e => upsert rows (sql_row (fill_id e))) rows events = foldl upsert rows (batch_rows events).
Proof. revert rows. induction events as [|e events IH]; intros rows; [done|]. apply IH. Qed.

Lemma delete_oldest_NoDup k rows : NoDup (sql_id <$> rows) -> NoDup (sql_id <$> delete_oldest k rows).
Proof.
  intros H. rewrite (delete_oldest_drop k rows H). rewrite <- (order_by_perm true rows) in H.
  rewrite <- (take_drop k (order_by_ts true rows)), fmap_app, NoDup_app in H. naive_solver.
Qed.

Lemma sqlite_insert_ok fault events s : table_ok s -> table_ok (sqlite_insert_batch fault events s).1.
Proof.
  unfold table_ok, sqlite_insert_batch. intros H.
  destruct fault; cbn [fst]; [|done|]; rewrite insert_rows; [|by apply upserts_NoDup].
  case_goal; cbn [fst ss_rows]; [apply delete_oldest_NoDup|]; by apply upserts_NoDup.
Qed.

(** The SQLite store is bounded and evicts the oldest.  A batch that is accepted
    leaves at most [max_rows] rows, one per id; the rows it drops are no newer than any
    row it keeps; and nothing is dropped while there is room. *)
Theorem sqlite_evicts_oldest (events : list CacheEvent) (s : SqliteStore) :
  table_ok s ->
  let all := foldl upsert (ss_rows s) (batch_rows events) in
  let s' := (sqlite_insert_batch NoFault events s).1 in
  table_ok s' /\ length (ss_rows s') = Nat.min (length all) (N.to_nat (ss_max_rows s)) /\
  exists dropped, Permutation all (dropped ++ ss_rows s') /\
    (forall d k, d ∈ dropped -> k ∈ ss_rows s' -> (sq_ts d <= sq_ts k)%Z).
Proof.
  intros Hok all s'. split; [by apply sqlite_insert_ok|].
  assert (Hnd : NoDup (sql_id <$> all)) by by apply upserts_NoDup.
  subst s'. unfold sqlite_insert_batch. rewrite insert_rows. fold all.
  destruct (Nat.ltb_spec (N.to_nat (ss_max_rows s)) (length all)) as [Hlt|Hge]; cbn [fst ss_rows].
  - set (k := length all - N.to_nat (ss_max_rows s)).
    pose proof (delete_oldest_drop k all Hnd) as Hp. split.
    + rewrite (Permutation_length Hp), length_drop, (Permutation_length (order_by_perm true all)). lia.
    + exists (take k (order_by_ts true all)). split; [by rewrite Hp, take_drop, order_by_perm|].
      intros d x Hd Hx. rewrite Hp in Hx. pose proof (order_by_sorted true all) as Hs.
      rewrite <- (take_drop k (order_by_ts true all)) in Hs. by eapply StronglySorted_app_1_elem_of in Hs.
  - split; [lia|]. exists []. split; [done|]. set_solver.
Qed.

(** Delivering a batch again changes nothing in SQLite, as long as nothing was
    evicted: rows are replaced by id, so what Kafka or a client sends twice is stored
    once. *)
Theorem sqlite_redelivery (events : list CacheEvent) (s : SqliteStore) :
  table_ok s ->
  (length (foldl upsert (ss_rows s) (batch_rows events)) <= N.to_nat (ss_max_rows s))%nat ->
  let once := sqlite_insert_batch NoFault events s in
  once.2 = Ok tt /\ sqlite_insert_batch NoFault events once.1 = once /\
  forall e, e ∈ events -> document_id e ∈ sql_id <$> ss_rows once.1.
Proof.
  intros Hok Hroom once.
  assert (E : once = ({| ss_max_rows := ss_max_rows s; ss_rows := foldl upsert (ss_rows s) (batch_rows events) |}, Ok tt)).
  { subst once. unfold sqlite_insert_batch. rewrite insert_rows. destruct (Nat.ltb_spec (N.to_nat (ss_max_rows s))
      (length (foldl upsert (ss_rows s) (batch_rows events)))); [lia|done]. }
  rewrite E. cbn [fst snd ss_rows]. split; [done|]. split.
  - unfold sqlite_insert_batch. rewrite insert_rows. cbn [ss_rows ss_max_rows]. rewrite upserts_idem by done.
    destruct (Nat.ltb_spec (N.to_nat (ss_max_rows s)) (length (foldl upsert (ss_rows s) (batch_rows events)))); [lia|done].
  - intros e He. apply upserts_ids. right. unfold batch_rows. rewrite <- list_fmap_compose.
    apply list_elem_of_fmap. exists e. split; [|done]. by rewrite <- row_id.
Qed.

Lemma upserts_fresh rs rows : NoDup (sql_id <$> rows ++ rs) -> foldl upsert rows rs = rows ++ rs.
Proof.
  revert rows. induction rs as [|r rs IH]; intros rows H; cbn [foldl]; [by rewrite app_nil_r|].
  assert (E : upsert rows r = rows ++ [r]).
  { rewrite fmap_app, NoDup_app in H. destruct H as (_ & Hd & _).
    assert (Hr : sql_id r ∉ sql_id <$> rows) by (intros Hin; apply (Hd _ Hin); set_solver).
    clear -Hr. induction rows as [|x rows IH]; [done|]. cbn in Hr |- *.
    destruct (String.eqb_spec (sql_id x) (sql_id r)); [set_solver|]. f_equal. apply IH. set_solver. }
  rewrite E, IH; by rewrite <- app_assoc.
Qed.

(** Below 2^63 the signed column is the timestamp. *)
Definition small_ts (n : N) : Prop := (n < 2 ^ 63)%N.

Lemma as_i64_small n : small_ts n -> as_i64 n = Z.of_N n.
Proof. unfold small_ts, as_i64. intros H. destruct (N.ltb_spec n (2 ^ 63)); [done|lia]. Qed.

Lemma row_matches_event q e :
  small_ts (q_from_ts q) -> small_ts (q_to_ts q) -> small_ts (ev_timestamp e) ->
  row_matches q (sql_row e) = event_matches q e.
Proof.
  intros Hf Ht He. unfold row_matches, event_matches, sql_row. cbn [sq_ts sq_hit event_to_hit h_domain h_username h_session_id h_decision_source].
  rewrite !as_i64_small by done.
  assert (Hle : forall a b, (Z.of_N a <=? Z.of_N b)%Z = (a <=? b)%N) by (intros; apply Bool.eq_iff_eq_true; rewrite Z.leb_le, N.leb_le; lia).
  rewrite !Hle. unfold sql_wanted, wanted.
  assert (Ho : forall f v, str_is_empty f || match v with Some x => String.eqb x f | None => false end =
                           str_is_empty f || String.eqb (default EmptyString v) f).
  { intros f [v|]; [done|]. by destruct f. }
  by rewrite !Ho.
Qed.

Lemma filter_rows q events :
  small_ts (q_from_ts q) -> small_ts (q_to_ts q) -> (forall e, e ∈ events -> small_ts (ev_timestamp e)) ->
  sq_hit <$> List.filter (row_matches q) (batch_rows events) =
  event_to_hit <$> List.filter (event_matches q) (fill_id <$> events).
Proof.
  intros Hf Ht. induction events as [|e events IH]; intros He; [done|]. cbn.
  assert (Hts : ev_timestamp (fill_id e) = ev_timestamp e) by (unfold fill_id; by destruct (str_is_empty _)).
  rewrite row_matches_event by (try done; rewrite Hts; apply He; set_solver).
  destruct (event_matches q (fill_id e)); cbn; [f_equal|]; apply IH; set_solver.
Qed.

(** Lists sorted by timestamp with the same hits have the same timestamps in a row. *)
Definition ts_order (asc : bool) (x y : N) : Prop := if asc then (x <= y)%N else (y <= x)%N.

#[local] Instance ts_order_antisym asc : AntiSymm (=) (ts_order asc).
Proof. intros x y. unfold ts_order. destruct asc; lia. Qed.

Lemma sorted_fmap {A B} (R : A -> A -> Prop) (R' : B -> B -> Prop) (f : A -> B) l :
  (forall x y, x ∈ l -> y ∈ l -> R x y -> R' (f x) (f y)) -> StronglySorted R l -> StronglySorted R' (f <$> l).
Proof.
  intros H Hl. induction Hl as [|x l Hl IH Hx]; cbn [fmap list_fmap]; constructor.
  - apply IH. intros; apply H; [by right..|done].
  - apply Forall_fmap, Forall_forall. intros y Hy. rewrite Forall_forall in Hx. apply H; [by left|by right|by apply Hx].
Qed.

Lemma batch_row_ts events r :
  (forall e, e ∈ events -> small_ts (ev_timestamp e)) -> r ∈ batch_rows events -> sq_ts r = Z.of_N (h_ts (sq_hit r)).
Proof.
  intros He (e & -> & Hin)%list_elem_of_fmap.
  assert (Hts : ev_timestamp (fill_id e) = ev_timestamp e) by (unfold fill_id; by destruct (str_is_empty _)).
  cbn [sq_ts sq_hit sql_row event_to_hit h_ts]. apply as_i64_small. rewrite Hts. by apply He.
Qed.

Lemma memory_hits_sorted q rows : StronglySorted (ts_order (ascending q)) (h_ts <$> sorted_hits q rows).
Proof.
  pose proof (sorted_hits_Sorted q rows) as H. unfold ts_order.
  destruct (ascending q); (eapply sorted_fmap; [|exact H]); cbn; lia.
Qed.

Lemma sqlite_hits_sorted q events :
  (forall e, e ∈ events -> small_ts (ev_timestamp e)) ->
  StronglySorted (ts_order (ascending q))
    (h_ts <$> (sq_hit <$> order_by_ts (ascending q) (List.filter (row_matches q) (batch_rows events)))).
Proof.
  intros He. rewrite <- list_fmap_compose. eapply sorted_fmap; [|apply order_by_sorted]. intros x y Hx Hy.
  assert (Hin : forall r, r ∈ order_by_ts (ascending q) (List.filter (row_matches q) (batch_rows events)) -> r ∈ batch_rows events).
  { intros r. rewrite (order_by_perm (ascending q)), !list_elem_of_In, filter_In. tauto. }
  unfold ts_order, compose. cbn. rewrite !(batch_row_ts events) by auto. destruct (ascending q); lia.
Qed.


End table.

Lemma add_column_elem c columns column : c ∈ add_column columns column <-> c ∈ columns \/ c = column.
Proof. unfold add_column, has_column. case_bool_decide; set_solver. Qed.

(** The migration adds what an older table lacks and removes nothing. *)
Lemma schema_migrated existing c :
  c ∈ initialize_schema (Some existing) <->
  c ∈ existing \/ c ∈ ["decision_source"; "acl_action"; "acl_rule_id"; "acl_reason"]%string.
Proof. unfold initialize_schema. cbn [foldl default]. rewrite !add_column_elem. set_solver. Qed.

(** ** An instance *)

Module Demo.

Definition ts_up (x y : SqlRow) : Prop := (sq_ts x <= sq_ts y)%Z.
Definition ts_down (x y : SqlRow) : Prop := (sq_ts y <= sq_ts x)%Z.

#[export] Instance ts_up_dec : RelDecision ts_up := fun x y => Z.le_dec _ _.
#[export] Instance ts_down_dec : RelDecision ts_down := fun x y => Z.le_dec _ _.

#[export] Instance ts_up_trans : Transitive ts_up.
Proof. intros x y z. unfold ts_up. lia. Qed.
#[export] Instance ts_up_total : Total ts_up.
Proof. intros x y. unfold ts_up. lia. Qed.
#[export] Instance ts_down_trans : Transitive ts_down.
Proof. intros x y z. unfold ts_down. lia. Qed.
#[export] Instance ts_down_total : Total ts_down.
Proof. intros x y. unfold ts_down. lia. Qed.

#[export] Instance merge_order : SqlOrder := fun asc rows => if asc then merge_sort ts_up rows else merge_sort ts_down rows.

#[export] Instance merge_order_laws : SqlOrderLaws merge_order.
Proof.
  split; intros [] rows; cbn.
  - apply merge_sort_Permutation.
  - apply merge_sort_Permutation.
  - apply (StronglySorted_merge_sort ts_up).
  - apply (StronglySorted_merge_sort ts_down).
Qed.

#[export] Instance url_text : EventText := ev_url.

Definition event (id domain : string) (ts : N) : CacheEvent :=
  {| ev_url := "https://" +:+ domain +:+ "/"; ev_method := "GET"; ev_status := 200; ev_cache_key := "k"; ev_cache_status := "MISS";
     ev_timestamp := ts; ev_headers := ∅; ev_user_id := None; ev_username := Some "alice"%string; ev_client_ip := "10.0.0.1";
     ev_domain := domain; ev_response_size := 1; ev_request_duration_ms := 1; ev_content_type := None; ev_user_agent := None;
     ev_categories := []; ev_threat_sources := []; ev_acl_action := None; ev_acl_rule_id := None; ev_acl_reason := None;
     ev_session_id := "s1"; ev_parent_event_id := None; ev_redirect_url := None; ev_dlp_violation := None; ev_casb_alert := None;
     ev_decision_source := None; ev_bypass_reason := None; ev_event_id := id |}.

Definition events : list CacheEvent := [event "e1" "a.com" 10; event EmptyString "b.com" 20; event "e3" "a.com" 30].

Definition query : SearchQuery :=
  {| q_from_ts := 0; q_to_ts := 100; q_domain := "a.com"; q_username := EmptyString; q_session_id := EmptyString;
     q_decision_source := EmptyString; q_offset := 0; q_limit := 10; q_order := "desc"; q_session_timeline := false |}.


Lemma pages_partition_witness :
  let s := memory_insert_batch events (MemoryStore_new 3) in
  Permutation (concat ((fun i => memory_search (page query (N.of_nat i * 1) 1) s) <$> seq 0 3))
    (event_to_hit <$> List.filter (event_matches query) (ms_rows s)).
Proof. intros s. apply (pages_partition query 1 s 3). vm_compute. lia. Defined.

Lemma sqlite_evicts_oldest_witness :
  length (ss_rows (sqlite_insert_batch NoFault events {| ss_max_rows := 2; ss_rows := [] |}).1) = 2.
Proof.
  destruct (sqlite_evicts_oldest events {| ss_max_rows := 2; ss_rows := [] |}) as (_ & H & _); [apply NoDup_nil_2|]. exact H.
Defined.

Lemma sqlite_redelivery_witness :
  let once := sqlite_insert_batch NoFault events {| ss_max_rows := 3; ss_rows := [] |} in
  sqlite_insert_batch NoFault events once.1 = once.
Proof.
  apply (sqlite_redelivery events {| ss_max_rows := 3; ss_rows := [] |}); [apply NoDup_nil_2|]. vm_compute. lia.
Defined.

(** Memory keeps what is delivered twice twice. *)
Lemma memory_not_idempotent :
  length (memory_search query (memory_insert_batch events (memory_insert_batch events (MemoryStore_new 10)))) = 4.
Proof. by vm_compute. Qed.

(** From 2^63 on the signed column hides an event that memory finds. *)
Lemma stores_disagree_late :
  let late := [event "e1" "a.com" (2 ^ 63)] in
  let q := {| q_from_ts := 0; q_to_ts := 2 ^ 64 - 1; q_domain := EmptyString; q_username := EmptyString; q_session_id := EmptyString;
              q_decision_source := EmptyString; q_offset := 0; q_limit := 10; q_order := "desc"; q_session_timeline := false |} in
  length (memory_search q (memory_insert_batch late (MemoryStore_new 10))) = 1 /\
  sqlite_search None q (sqlite_insert_batch NoFault late {| ss_max_rows := 10; ss_rows := [] |}).1 = Ok [].
Proof. by vm_compute. Qed.

End Demo.
