(* ===== verification/Indexer.v ===== *)
(** * The cache indexer's search API, admin port and Kafka consumer (src/cache-indexer/src)

    search_api.rs, admin_server.rs, kafka_ingest.rs, metrics.rs and the start of main.rs,
    over the stores of EventStores.  The clock, the segments a socket delivers, what Kafka
    delivers and the text of the metrics are arguments.  serde_json's reading of events and
    the text of a UTF-8 error are the class [EventJson]. *)

From Stdlib Require Import Ascii String NArith ZArith Lia.
From stdpp Require Import base option gmap strings pretty numbers list sorting.
From S2P Require Import Prelude Utf8 Bytes Devices SemanticCache ClickHouse AclApi ProxyService MlScoring Icap EventStores.

Local Open Scope rust_scope.

Class EventJson := {
  event_from_slice : string -> result CacheEvent string;
  event_from_str : string -> result CacheEvent string;
  events_from_str : string -> result (list CacheEvent) string;
  event_from_value : json -> result CacheEvent string;
  utf8_error : string -> string;
}.

(** ** Settings *)

Record SearchApiConfig := {
  sac_api_token : option string;
  sac_ingest_token : option string;
  sac_max_limit : N;
  sac_default_days : N;
}.

Definition env_nonempty (env : Env) (name : string) : option string :=
  match env name with Some t => if str_is_empty t then None else Some t | None => None end.

(** The ingest token defaults to the one of the search. *)
Definition SearchApiConfig_from_env (env : Env) : SearchApiConfig :=
  let api_token := env_nonempty env "SEARCH_API_TOKEN" in
  {| sac_api_token := api_token;
     sac_ingest_token := match env_nonempty env "INGEST_API_TOKEN" with Some t => Some t | None => api_token end;
     sac_max_limit := env_parse parse_u32 env "SEARCH_API_MAX_LIMIT" 10000%N;
     sac_default_days := env_parse parse_u32 env "SEARCH_API_DEFAULT_DAYS" 30%N |}.

Definition flag_on (v : string) : bool := bool_decide (to_ascii_lowercase v ∈ ["1"; "true"; "yes"]%string).

(** The second variable counts only where the first is not set. *)
Definition allow_insecure (env : Env) : bool :=
  match env "SEARCH_API_ALLOW_INSECURE"%string with
  | Some v => flag_on v
  | None => match env "CONTROL_API_ALLOW_INSECURE"%string with Some v => flag_on v | None => false end
  end.

Definition production_profile (env : Env) : bool :=
  bool_decide (to_ascii_lowercase (default "production"%string (env "DEPLOYMENT_PROFILE"%string)) ∈ ["production"; "prod"]%string).

Definition search_api_fail_closed (env : Env) : bool := if allow_insecure env then false else production_profile env.

Definition check_bearer (env : Env) (expected auth_header : option string) : bool :=
  match expected with
  | Some expected =>
      match auth_header ≫= strip_prefix "Bearer " with
      | Some token => String.eqb token expected
      | None => false
      end
  | None => negb (search_api_fail_closed env)
  end.

(** *** main.rs *)

Definition metrics_port (env : Env) : N := env_parse parse_u16 env "METRICS_PORT" 8080%N.

Definition search_api_enabled (env : Env) : bool :=
  match env "SEARCH_API_ENABLED"%string with
  | Some v => bool_decide (v ∈ ["1"; "true"; "TRUE"; "yes"; "YES"]%string)
  | None => true
  end.

(** The search API the process starts with, if any, or the reason it does not start. *)
Definition start_search_api (env : Env) : result (option SearchApiConfig) string :=
  let search_cfg := SearchApiConfig_from_env env in
  if search_api_enabled env && bool_decide (sac_api_token search_cfg = None) && negb (allow_insecure env) &&
     production_profile env
  then Err ("SEARCH_API_TOKEN is required when SEARCH_API_ENABLED in production " +:+
            "(set SEARCH_API_TOKEN or SEARCH_API_ALLOW_INSECURE=true for lab only)")
  else Ok (if search_api_enabled env then Some search_cfg else None).

(** ** The search (search_api.rs) *)

Definition filter_char (c : ascii) : bool :=
  is_ascii_alphanumeric c || bool_decide (c ∈ ["."; "@"; "_"; "-"; "%"]%char).

(** A value that is refused counts as no filter. *)
Definition sanitize_filter (value : string) : string :=
  if (256 <? str_len value)%N then EmptyString
  else if all_chars filter_char value then value
  else EmptyString.

Definition csv_field (v : string) : string :=
  if str_contains v "," || str_contains v dquote then quoted (replace_with (ascii_of_N 34) (dquote +:+ dquote) v) else v.

Definition csv_headers : list string :=
  ["ts"; "username"; "client_ip"; "url"; "method"; "status"; "cache_status"; "domain"; "event_id"; "session_id";
   "parent_event_id"; "redirect_url"; "decision_source"; "acl_action"; "acl_rule_id"; "acl_reason"]%string.

Definition csv_row (h : SearchHit) : list string :=
  [pretty (h_ts h); default EmptyString (h_username h); h_client_ip h; h_url h; h_method h; pretty (h_status h);
   h_cache_status h; h_domain h; h_event_id h; h_session_id h; default EmptyString (h_parent_event_id h);
   default EmptyString (h_redirect_url h); default EmptyString (h_decision_source h);
   default EmptyString (h_acl_action h); default EmptyString (h_acl_rule_id h); default EmptyString (h_acl_reason h)].

Definition hits_to_csv (hits : list SearchHit) : string :=
  join "," csv_headers +:+ nl +:+ join nl ((fun h => join "," (csv_field <$> csv_row h)) <$> hits).

(** Status, content type and body. *)
Abbreviation ApiReply := (N * string * string)%type.

Definition query_str (query : gmap string string) (key : string) : string := default EmptyString (query !! key).

Definition search_limit (c : SearchApiConfig) (query : gmap string string) : N :=
  N.min (default 1000%N (query !! "limit"%string ≫= parse_u32)) (sac_max_limit c).

Definition search_query (c : SearchApiConfig) (now : N) (query : gmap string string) : SearchQuery :=
  let days := default (sac_default_days c) (query !! "days"%string ≫= parse_u32) in
  let session_id := sanitize_filter (query_str query "session_id") in
  {| q_from_ts := default (now - days * 86400)%N (query !! "from"%string ≫= parse_u64);
     q_to_ts := default now (query !! "to"%string ≫= parse_u64);
     q_domain := sanitize_filter (query_str query "domain");
     q_username := sanitize_filter (query_str query "username");
     q_session_id := session_id;
     q_decision_source := sanitize_filter (query_str query "decision_source");
     q_offset := default 0%N (query !! "offset"%string ≫= parse_u32);
     q_limit := search_limit c query;
     q_order := to_ascii_lowercase (default "desc"%string (query !! "order"%string));
     q_session_timeline := negb (str_is_empty session_id) |}.

Section api.
Context {EX : EventText} {ET : EventTime} {SO : SqlOrder} {SJ : SerdeJson} {JN : JsonNumbers} {DT : DisplayText}
  {NI : NumberI64} {MO : MapOrder} {EJ : EventJson}.

Definition search_reply (c : SearchApiConfig) (query : gmap string string) (q : SearchQuery) (hits : list SearchHit) : ApiReply :=
  let format := default "json"%string (query !! "format"%string) in
  let envelope := match query !! "envelope"%string with Some v => flag_on v | None => false end in
  if String.eqb format "csv" then (200%N, "text/csv; charset=utf-8"%string, hits_to_csv hits)
  else
    let rows := JArray (hit_json <$> hits) in
    let json :=
      if envelope then
        json_object [("count", json_u64 (N.of_nat (length hits))); ("offset", json_u64 (q_offset q));
                     ("limit", json_u64 (q_limit q)); ("hits", rows)]%string
      else rows in
    (200%N, "application/json"%string, json_to_vec json).

(** [now] in seconds since 1970. *)
Definition handle_get (c : SearchApiConfig) (now : N) (db : DbInput) (query : gmap string string) (st : EventStore)
    : option ChPost * result ApiReply string :=
  let q := search_query c now query in
  let '(sent, found) := store_search db q st in
  (sent, let? hits := found in Ok (search_reply c query q hits)).

Fixpoint events_from_values (items : list json) : result (list CacheEvent) string :=
  match items with
  | [] => Ok []
  | item :: items =>
      let? e := event_from_value item in
      let? es := events_from_values items in
      Ok (e :: es)
  end.

Fixpoint events_from_lines (lines : list string) : result (list CacheEvent) string :=
  match lines with
  | [] => Ok []
  | line :: lines =>
      let line := trim line in
      if str_is_empty line then events_from_lines lines
      else
        let? e := event_from_str line in
        let? es := events_from_lines lines in
        Ok (e :: es)
  end.

Definition parse_ingest_body (body : string) : result (list CacheEvent) string :=
  match from_utf8 body with
  | None => Err (utf8_error body)
  | Some text =>
      let trimmed := trim text in
      if str_is_empty trimmed then Ok []
      else if starts_with trimmed "[" then events_from_str trimmed
      else if starts_with trimmed "{" then
        match json_from_slice trimmed with
        | None => Err (json_parse_error trimmed)
        | Some v =>
            match json_get "events" v ≫= as_array with
            | Some arr => events_from_values arr
            | None => let? e := event_from_value v in Ok [e]
            end
        end
      else events_from_lines (str_lines trimmed)
  end.

Definition handle_ingest (db : DbInput) (body : string) (st : EventStore)
    : EventStore * option ChPost * result ApiReply string :=
  match parse_ingest_body body with
  | Err e => (st, None, Err e)
  | Ok [] => (st, None, Ok (400%N, "application/json"%string, json_error "no events"))
  | Ok events =>
      let '(st, sent, r) := insert_batch db events st in
      (st, sent, let? _ := r in
                 Ok (202%N, "application/json"%string, "{" +:+ quoted "accepted" +:+ ":" +:+ pretty (N.of_nat (length events)) +:+ "}"))
  end.

(** ** The admin port (admin_server.rs) *)

(** [u8::from_str_radix] with base 16 on two bytes: a leading [+] is accepted. *)
Definition hex_pair (c1 c2 : ascii) : option N :=
  if Ascii.eqb c1 "+" then from_hex c2
  else h ← from_hex c1; l ← from_hex c2; Some (16 * h + l)%N.

Fixpoint percent_decode_bytes (s : string) : string :=
  match s with
  | EmptyString => EmptyString
  | String c rest =>
      let plain := push_char (char_code c) +:+ percent_decode_bytes rest in
      if Ascii.eqb c "%" then
        match rest with
        | String c1 (String c2 rest') =>
            match hex_pair c1 c2 with
            | Some byte => push_char byte +:+ percent_decode_bytes rest'
            | None => plain
            end
        | _ => plain
        end
      else plain
  end.

(** Plus signs are replaced after decoding, so also those that were encoded. *)
Definition query_decode (s : string) : string := replace_char "+" " " (percent_decode_bytes s).

Definition insert_pair (map : gmap string string) (pair : string) : gmap string string :=
  let '(key, value) := default (pair, EmptyString) (split_once "=" pair) in
  if str_is_empty key then map else <[query_decode key := query_decode value]> map.

Definition parse_query_string (path_query : string) : gmap string string :=
  match split_on "?" path_query !! 1 with
  | None => ∅
  | Some qs => foldl insert_pair ∅ (split_on "&" qs)
  end.

Definition error_json (e : string) : string :=
  let bs := ascii_of_N 92 in
  "{" +:+ quoted "error" +:+ ":" +:+
  quoted (replace_with (ascii_of_N 34) (String bs dquote) (replace_with bs (String bs (String bs EmptyString)) e)) +:+ "}".

Definition cors_origin_allowed (origin : string) : bool :=
  let o := trim origin in
  negb (str_is_empty o) &&
  (starts_with o "http://localhost" || starts_with o "https://localhost" || starts_with o "http://127.0.0.1" ||
   starts_with o "https://127.0.0.1" || starts_with o "http://[::1]" || starts_with o "https://[::1]").

Definition status_text (status_code : N) : string :=
  match status_code with
  | 200%N => "200 OK"
  | 202%N => "202 Accepted"
  | 204%N => "204 No Content"
  | 400%N => "400 Bad Request"
  | 401%N => "401 Unauthorized"
  | 404%N => "404 Not Found"
  | _ => "500 Internal Server Error"
  end.

Definition http_response (status_code : N) (content_type body : string) (origin : option string) : string :=
  "HTTP/1.1 " +:+ status_text status_code +:+ crlf +:+ "Content-Type: " +:+ content_type +:+ crlf +:+
  "Content-Length: " +:+ pretty (str_len body) +:+ crlf +:+ "Connection: close" +:+ crlf +:+
  match origin with
  | Some o =>
      if cors_origin_allowed o then
        "Access-Control-Allow-Origin: " +:+ o +:+ crlf +:+ "Access-Control-Allow-Credentials: true" +:+ crlf +:+
        "Access-Control-Allow-Methods: GET, POST, OPTIONS" +:+ crlf +:+
        "Access-Control-Allow-Headers: Authorization, Content-Type, Accept" +:+ crlf +:+
        "Access-Control-Max-Age: 86400" +:+ crlf +:+ "Vary: Origin" +:+ crlf
      else EmptyString
  | None => EmptyString
  end +:+ crlf +:+ body.

(** The loop over the header lines: the last [Authorization] and the last [Origin]. *)
Fixpoint admin_headers (lines : list string) (auth origin : option string) : option string * option string :=
  match lines with
  | [] => (auth, origin)
  | line :: lines =>
      if str_is_empty line then (auth, origin)
      else
        match strip_prefix "Authorization: " line with
        | Some value => admin_headers lines (Some (trim value)) origin
        | None =>
            match strip_prefix "Origin: " line, strip_prefix "origin: " line with
            | Some value, _ | None, Some value => admin_headers lines auth (Some (trim value))
            | None, None => admin_headers lines auth origin
            end
        end
  end.

(** What a request sees: the search API, the clock, the database, and the encoded metrics
    where they can be encoded. *)
Record AdminInput := {
  ai_env : Env;
  ai_api : option SearchApiConfig;
  ai_now : N;
  ai_db : DbInput;
  ai_metrics : option string;
}.

Definition get_search (i : AdminInput) (path_query : string) (auth origin : option string) (st : EventStore)
    : EventStore * option ChPost * string :=
  match ai_api i with
  | None => (st, None, http_response 404 "application/json" (json_error "search api disabled") origin)
  | Some c =>
      if check_bearer (ai_env i) (sac_api_token c) auth then
        let '(sent, r) := handle_get c (ai_now i) (ai_db i) (parse_query_string path_query) st in
        (st, sent,
         match r with
         | Ok (code, content_type, body) => http_response code content_type body origin
         | Err e => http_response 500 "application/json" (error_json e) origin
         end)
      else (st, None, http_response 401 "application/json" (json_error "unauthorized") origin)
  end.

Definition post_events (i : AdminInput) (body : string) (auth origin : option string) (st : EventStore)
    : EventStore * option ChPost * string :=
  match ai_api i with
  | None => (st, None, http_response 404 "application/json" (json_error "ingest api disabled") origin)
  | Some c =>
      if check_bearer (ai_env i) (sac_ingest_token c) auth then
        let '(st, sent, r) := handle_ingest (ai_db i) body st in
        (st, sent,
         match r with
         | Ok (code, content_type, body) => http_response code content_type body origin
         | Err e => http_response 400 "application/json" (error_json e) origin
         end)
      else (st, None, http_response 401 "application/json" (json_error "unauthorized") origin)
  end.

Definition handle_admin_request (i : AdminInput) (header body : string) (st : EventStore)
    : EventStore * option ChPost * string :=
  match str_lines header with
  | [] => (st, None, http_response 400 "text/plain" "bad request" None)
  | request_line :: lines =>
      let parts := split_whitespace request_line in
      let method := default EmptyString (parts !! 0) in
      let path_query := default "/"%string (parts !! 1) in
      let '(auth, origin) := admin_headers lines None None in
      if String.eqb method "OPTIONS" then (st, None, http_response 204 "text/plain" EmptyString origin)
      else if String.eqb method "GET" && starts_with path_query "/metrics" then
        (st, None,
         match ai_metrics i with
         | None => http_response 500 "text/plain" "encode error" origin
         | Some text => http_response 200 "text/plain; version=0.0.4; charset=utf-8" text origin
         end)
      else if String.eqb method "GET" && starts_with path_query "/health" then
        (st, None, http_response 200 "application/json" (json_field "status" "ok") origin)
      else if String.eqb method "GET" && starts_with path_query "/api/search" then get_search i path_query auth origin st
      else if String.eqb method "POST" && starts_with path_query "/api/events" then post_events i body auth origin st
      else (st, None, http_response 404 "text/plain" "not found" origin)
  end.

Fixpoint content_length_of (lines : list string) (acc : N) : N :=
  match lines with
  | [] => acc
  | line :: lines =>
      if str_is_empty line then acc
      else
        match strip_prefix "Content-Length:" line, strip_prefix "content-length:" line with
        | Some v, _ | None, Some v => content_length_of lines (default 0%N (parse_usize (trim v)))
        | None, None => content_length_of lines acc
        end
  end.

Definition parse_header_end_and_cl (buf : string) : option (nat * N) :=
  header_end ← find_header_end buf;
  header ← from_utf8 (str_take header_end buf);
  Some (header_end, N.min (content_length_of (drop 1 (str_lines header)) 0) (4 * 1024 * 1024)).

(** Reads until the length is reached; an empty read or an error ends the stream. *)
Fixpoint read_body (content_length : N) (body : string) (reads : list string) : string :=
  if (str_len body <? content_length)%N then
    match reads with
    | [] => body
    | chunk :: reads => if str_is_empty chunk then body else read_body content_length (body +:+ chunk) reads
    end
  else body.

(** One connection: [reads] are what the reads of the socket return, each of at most 64 KiB. *)
Definition serve_connection (i : AdminInput) (reads : list string) (st : EventStore)
    : EventStore * option ChPost * option string :=
  match reads with
  | [] => (st, None, None)
  | buf :: reads =>
      if str_is_empty buf then (st, None, None)
      else
        match parse_header_end_and_cl buf with
        | None => (st, None, Some (http_response 400 "text/plain" "bad request" None))
        | Some (header_end, content_length) =>
            let body := str_take (N.to_nat content_length) (read_body content_length (str_drop header_end buf) reads) in
            let '(st, sent, response) := handle_admin_request i (from_utf8_lossy (str_take header_end buf)) body st in
            (st, sent, Some response)
        end
  end.

(** ** Kafka (kafka_ingest.rs) *)

(** The counters, whose label is the one backend of the process, and the number of
    observations of the histogram. *)
Record IndexerMetrics := {
  im_inserts : N;
  im_insert_errors : N;
  im_batches : N;
}.

Definition record_success (count : N) (m : IndexerMetrics) : IndexerMetrics :=
  {| im_inserts := (im_inserts m + count)%N; im_insert_errors := im_insert_errors m; im_batches := (im_batches m + 1)%N |}.

Definition record_error (m : IndexerMetrics) : IndexerMetrics :=
  {| im_inserts := im_inserts m; im_insert_errors := (im_insert_errors m + 1)%N; im_batches := im_batches m |}.

Inductive KafkaRecv := Received (payload : option string) | RecvError | RecvTimeout.

(** An asynchronous commit may be refused at once or be lost later. *)
Inductive CommitOutcome := CommitDone | CommitLost | CommitRefused (e : string).

Record KafkaTick := {
  kt_recv : KafkaRecv;
  kt_now : N;
  kt_db : DbInput;
  kt_commit : CommitOutcome;
}.

(** [ks_position] counts the messages of the topic taken so far, [ks_committed] is the
    offset the broker keeps for the group. *)
Record KafkaState := {
  ks_store : EventStore;
  ks_batch : list CacheEvent;
  ks_last_commit : N;
  ks_position : nat;
  ks_committed : nat;
  ks_metrics : IndexerMetrics;
}.

(** The state, the events the store acknowledged, and the error that ends the loop. *)
Record KafkaOut := {
  ko_state : KafkaState;
  ko_acked : list CacheEvent;
  ko_error : option string;
}.

(** A message without a payload, or whose payload is no event, is skipped. *)
Definition payload_event (payload : option string) : list CacheEvent :=
  match payload with
  | Some p => match event_from_slice p with Ok e => [e] | Err _ => [] end
  | None => []
  end.

Definition receive (r : KafkaRecv) (k : KafkaState) : KafkaState :=
  match r with
  | Received payload =>
      {| ks_store := ks_store k;
         ks_batch := ks_batch k ++ payload_event payload;
         ks_last_commit := ks_last_commit k; ks_position := S (ks_position k); ks_committed := ks_committed k;
         ks_metrics := ks_metrics k |}
  | _ => k
  end.

(** [flush_batch], the clearing of the batch and the commit. *)
Definition flush (t : KafkaTick) (k : KafkaState) : KafkaOut :=
  let '(store, _, r) := insert_batch (kt_db t) (ks_batch k) (ks_store k) in
  match r with
  | Err e =>
      {| ko_state := {| ks_store := store; ks_batch := ks_batch k; ks_last_commit := ks_last_commit k;
                        ks_position := ks_position k; ks_committed := ks_committed k;
                        ks_metrics := record_error (ks_metrics k) |};
         ko_acked := []; ko_error := Some e |}
  | Ok _ =>
      let done committed last_commit :=
        {| ks_store := store; ks_batch := []; ks_last_commit := last_commit; ks_position := ks_position k;
           ks_committed := committed; ks_metrics := record_success (N.of_nat (length (ks_batch k))) (ks_metrics k) |} in
      match kt_commit t with
      | CommitRefused e =>
          {| ko_state := done (ks_committed k) (ks_last_commit k); ko_acked := ks_batch k; ko_error := Some e |}
      | CommitLost => {| ko_state := done (ks_committed k) (kt_now t); ko_acked := ks_batch k; ko_error := None |}
      | CommitDone => {| ko_state := done (ks_position k) (kt_now t); ko_acked := ks_batch k; ko_error := None |}
      end
  end.

Definition batch_size : nat := 50.

(** Whether the match of the loop flushes: a full batch, or a timeout with a batch. *)
Definition flush_due (r : KafkaRecv) (batch : list CacheEvent) : bool :=
  match r with
  | Received (Some p) => match event_from_slice p with Ok _ => batch_size <=? length batch | Err _ => false end
  | RecvTimeout => negb (bool_decide (batch = []))
  | _ => false
  end.

Definition commit_overdue (now : N) (k : KafkaState) : bool :=
  (30 * nanos_per_sec <? now - ks_last_commit k)%N && negb (bool_decide (ks_batch k = [])).

(** One turn of the loop. *)
Definition kafka_step (t : KafkaTick) (k : KafkaState) : KafkaOut :=
  let k := receive (kt_recv t) k in
  let o := if flush_due (kt_recv t) (ks_batch k) then flush t k else {| ko_state := k; ko_acked := []; ko_error := None |} in
  match ko_error o with
  | Some _ => o
  | None =>
      if commit_overdue (kt_now t) (ko_state o) then
        let o' := flush t (ko_state o) in
        {| ko_state := ko_state o'; ko_acked := ko_acked o ++ ko_acked o'; ko_error := ko_error o' |}
      else o
  end.

Fixpoint kafka_run (ticks : list KafkaTick) (k : KafkaState) : KafkaOut :=
  match ticks with
  | [] => {| ko_state := k; ko_acked := []; ko_error := None |}
  | t :: ticks =>
      let o := kafka_step t k in
      match ko_error o with
      | Some _ => o
      | None =>
          let o' := kafka_run ticks (ko_state o) in
          {| ko_state := ko_state o'; ko_acked := ko_acked o ++ ko_acked o'; ko_error := ko_error o' |}
      end
  end.

(** A new process: it takes up the topic at the committed offset. *)
Definition kafka_start (store : EventStore) (committed : nat) (now : N) : KafkaState :=
  {| ks_store := store; ks_batch := []; ks_last_commit := now; ks_position := committed; ks_committed := committed;
     ks_metrics := {| im_inserts := 0; im_insert_errors := 0; im_batches := 0 |} |}.

(** ** Delivery *)

(** The messages of the topic from position [pos] on are what is received. *)
Fixpoint follows (log : list (option string)) (pos : nat) (ticks : list KafkaTick) : Prop :=
  match ticks with
  | [] => True
  | t :: ticks =>
      match kt_recv t with
      | Received payload => log !! pos = Some payload /\ follows log (S pos) ticks
      | _ => follows log pos ticks
      end
  end.

Definition events_of (log : list (option string)) : list CacheEvent := concat (payload_event <$> log).

Definition between (log : list (option string)) (a b : nat) : list CacheEvent := events_of (take (b - a) (drop a log)).

(** What a new process finds: the memory of the last one is gone. *)
Definition reopened (st : EventStore) : EventStore :=
  match st with
  | Memory s => Memory {| ms_max_rows := ms_max_rows s; ms_rows := [] |}
  | _ => st
  end.

(** Any number of processes one after the other, each ending anywhere: the store, the
    committed offset and all events that were acknowledged. *)
Inductive history (log : list (option string)) (st0 : EventStore) : EventStore -> nat -> list CacheEvent -> Prop :=
| history_start : history log st0 st0 0 []
| history_run st committed acked ticks now :
    history log st0 st committed acked ->
    follows log committed ticks ->
    let o := kafka_run ticks (kafka_start (reopened st) committed now) in
    history log st0 (ks_store (ko_state o)) (ks_committed (ko_state o)) (acked ++ ko_acked o).

Lemma events_of_app a b : events_of (a ++ b) = events_of a ++ events_of b.
Proof. unfold events_of. by rewrite fmap_app, concat_app. Qed.

Lemma events_of_elem log e : e ∈ events_of log <-> exists p, Some p ∈ log /\ event_from_slice p = Ok e.
Proof.
  assert (Hp : forall payload, e ∈ payload_event payload <-> exists p, Some p = payload /\ event_from_slice p = Ok e).
  { intros [p|]; cbn; [|split; [by intros ?%elem_of_nil|by intros (? & ? & _)]].
    destruct (event_from_slice p) as [e'|] eqn:E.
    - rewrite list_elem_of_singleton. split; [intros ->; by exists p|]. intros (? & [= ->] & ?). congruence.
    - split; [by intros ?%elem_of_nil|]. intros (? & [= ->] & ?). congruence. }
  induction log as [|payload log IH]; [split; [by intros ?%elem_of_nil|by intros (? & ?%elem_of_nil & _)]|].
  change (events_of (payload :: log)) with (payload_event payload ++ events_of log).
  rewrite elem_of_app, Hp, IH. setoid_rewrite elem_of_cons. naive_solver.
Qed.

Lemma between_nil log a : between log a a = [].
Proof. unfold between. by rewrite Nat.sub_diag. Qed.

Lemma between_S log a b payload :
  a <= b -> log !! b = Some payload -> between log a (S b) = between log a b ++ payload_event payload.
Proof.
  intros Hab Hb. unfold between. replace (S b - a) with (S (b - a)) by lia.
  erewrite take_S_r by (rewrite lookup_drop; replace (a + (b - a)) with b by lia; exact Hb).
  rewrite events_of_app. unfold events_of at 3. cbn. by rewrite app_nil_r.
Qed.

Lemma between_from_zero log a b : a <= b -> events_of (take b log) = events_of (take a log) ++ between log a b.
Proof.
  intros Hab. unfold between. rewrite <- events_of_app. f_equal.
  replace b with (a + (b - a)) at 1 by lia. by rewrite take_take_drop.
Qed.

(** What a process that started at [start] has taken is acknowledged or in its batch, in
    order; and what it has committed is acknowledged. *)
Record run_inv (log : list (option string)) (start : nat) (acked : list CacheEvent) (k : KafkaState) : Prop := {
  ri_committed : start <= ks_committed k <= ks_position k;
  ri_position : ks_position k <= length log;
  ri_taken : between log start (ks_position k) = acked ++ ks_batch k;
  ri_safe : forall e, e ∈ between log start (ks_committed k) -> e ∈ acked;
}.

Lemma receive_inv log start acked r k :
  run_inv log start acked k ->
  match r with Received payload => log !! ks_position k = Some payload | _ => True end ->
  run_inv log start acked (receive r k).
Proof.
  intros [Hc Hp Ht Hs] Hr. destruct r as [payload| |]; [|by constructor..].
  apply lookup_lt_Some in Hr as Hlt.
  constructor; cbn [receive ks_committed ks_position ks_batch]; [lia|lia| |done].
  rewrite (between_S _ _ _ payload) by (done || lia). by rewrite Ht, app_assoc.
Qed.

Lemma flush_inv log start acked t k :
  run_inv log start acked k ->
  run_inv log start (acked ++ ko_acked (flush t k)) (ko_state (flush t k)) /\
  ks_position (ko_state (flush t k)) = ks_position k.
Proof.
  intros [Hc Hp Ht Hs]. unfold flush. destruct (insert_batch _ _ _) as [[store sent] [u|e]].
  - assert (Hall : forall e, e ∈ between log start (ks_committed k) -> e ∈ acked ++ ks_batch k) by set_solver.
    destruct (kt_commit t); cbn; (split; [|done]); constructor; cbn; rewrite ?app_nil_r; try done; try lia.
    intros e He. rewrite <- Ht. exact He.
  - cbn. rewrite app_nil_r. split; [|done]. by constructor.
Qed.

Lemma step_inv log start acked t k :
  run_inv log start acked k ->
  match kt_recv t with Received payload => log !! ks_position k = Some payload | _ => True end ->
  let o := kafka_step t k in
  run_inv log start (acked ++ ko_acked o) (ko_state o) /\
  ks_position (ko_state o) = match kt_recv t with Received _ => S (ks_position k) | _ => ks_position k end.
Proof.
  intros Hk Hr. apply (receive_inv _ _ _ (kt_recv t)) in Hk; [|done].
  assert (E : ks_position (receive (kt_recv t) k) =
              match kt_recv t with Received _ => S (ks_position k) | _ => ks_position k end) by by destruct (kt_recv t).
  rewrite <- E. unfold kafka_step. set (k1 := receive (kt_recv t) k) in *.
  set (o := if flush_due _ _ then _ else _).
  assert (Ho : run_inv log start (acked ++ ko_acked o) (ko_state o) /\ ks_position (ko_state o) = ks_position k1).
  { subst o. destruct (flush_due _ _); [by apply flush_inv|]. cbn. by rewrite app_nil_r. }
  destruct Ho as [Ho Hpos]. clearbody o. destruct (ko_error o); [done|]. destruct (commit_overdue _ _); [|done].
  cbn. rewrite app_assoc. destruct (flush_inv _ _ _ t _ Ho) as [Hf Hfp]. split; [done|]. by rewrite Hfp.
Qed.

Lemma run_keeps_inv log start ticks acked k :
  run_inv log start acked k -> follows log (ks_position k) ticks ->
  run_inv log start (acked ++ ko_acked (kafka_run ticks k)) (ko_state (kafka_run ticks k)).
Proof.
  revert acked k. induction ticks as [|t ticks IH]; intros acked k Hk Hf; cbn [kafka_run].
  { cbn. by rewrite app_nil_r. }
  assert (Hr : match kt_recv t with Received payload => log !! ks_position k = Some payload | _ => True end).
  { cbn in Hf. destruct (kt_recv t); naive_solver. }
  destruct (step_inv _ _ _ t _ Hk Hr) as [Ho Hpos].
  destruct (ko_error (kafka_step t k)); [done|]. cbn. rewrite app_assoc. apply IH; [done|].
  rewrite Hpos. cbn in Hf. destruct (kt_recv t); naive_solver.
Qed.

Lemma start_inv log st committed now :
  committed <= length log -> run_inv log committed [] (kafka_start st committed now).
Proof.
  intros H. constructor; cbn [kafka_start ks_committed ks_position ks_batch]; [lia|done|by rewrite between_nil|].
  intros e. by rewrite between_nil.
Qed.

Lemma events_of_take log n e : e ∈ events_of (take n log) -> e ∈ events_of log.
Proof. intros H. rewrite <- (take_drop n log), events_of_app. set_solver. Qed.

Lemma between_log log a b e : e ∈ between log a b -> e ∈ events_of log.
Proof.
  unfold between. intros H%events_of_take. rewrite <- (take_drop a log), events_of_app. set_solver.
Qed.

(** What holds of every history. *)
Lemma history_inv log st0 st committed acked :
  history log st0 st committed acked ->
  committed <= length log /\ (forall e, e ∈ events_of (take committed log) -> e ∈ acked) /\
  (forall e, e ∈ acked -> e ∈ events_of log).
Proof.
  induction 1 as [|st committed acked ticks now Hh (Hc & Hs & Hl) Hf]; [cbn; split_and!; [lia|set_solver..]|].
  pose proof (run_keeps_inv log committed ticks [] _ (start_inv log (reopened st) committed now Hc) Hf) as [Hc' Hp Ht Hs'].
  fold o in Hc', Hp, Ht, Hs'. clearbody o. cbn [app] in *. split_and!; [lia| |].
  - intros e. rewrite (between_from_zero log committed) by lia. set_solver.
  - intros e [He|He]%elem_of_app; [by apply Hl|]. eapply between_log. rewrite Ht. set_solver.
Qed.

(** Kafka delivery is at least once.  However processes end, commits are lost or
    refused and the store fails, every event of the messages before the committed offset
    was acknowledged by the store, and nothing else was ever stored. *)
Theorem kafka_at_least_once (log : list (option string)) (st0 st : EventStore) (committed : nat) (acked : list CacheEvent) :
  history log st0 st committed acked ->
  committed <= length log /\
  (forall i p e, i < committed -> log !! i = Some (Some p) -> event_from_slice p = Ok e -> e ∈ acked) /\
  (forall e, e ∈ acked -> exists p, Some p ∈ log /\ event_from_slice p = Ok e).
Proof.
  intros (Hc & Hs & Hl)%history_inv. split_and!; [done| |].
  - intros i p e Hi Hp He. apply Hs, events_of_elem. exists p. split; [|done].
    apply list_elem_of_lookup. exists i. by rewrite lookup_take_lt.
  - intros e He. by apply events_of_elem, Hl.
Qed.
(** *** Draining *)

(** The database takes what it is given and the broker the commit. *)
Definition tick_up (t : KafkaTick) : Prop :=
  di_insert (kt_db t) = NoFault /\
  match di_answer (kt_db t) with Ok (status, _) => is_success status = true | Err _ => False end /\
  kt_commit t = CommitDone.

Lemma insert_up t events st : tick_up t -> exists st' sent, insert_batch (kt_db t) events st = (st', sent, Ok tt).
Proof.
  intros (Hi & Ha & _). destruct st as [s|s|c]; cbn [insert_batch]; [do 2 eexists; reflexivity| |].
  - rewrite Hi. unfold sqlite_insert_batch. destruct (_ <? _); do 2 eexists; reflexivity.
  - unfold cc_insert_outcome. destruct events; [do 2 eexists; reflexivity|].
    destruct (di_answer (kt_db t)) as [[status text]|]; [|done]. cbn. rewrite Ha. do 2 eexists; reflexivity.
Qed.

Lemma flush_up t k : tick_up t -> ko_error (flush t k) = None /\ ks_batch (ko_state (flush t k)) = [].
Proof.
  intros Ht. unfold flush. destruct (insert_up t (ks_batch k) (ks_store k) Ht) as (st' & sent & ->).
  destruct Ht as (_ & _ & ->). done.
Qed.

Lemma step_up t k :
  tick_up t ->
  ko_error (kafka_step t k) = None /\ (kt_recv t = RecvTimeout -> ks_batch (ko_state (kafka_step t k)) = []).
Proof.
  intros Ht. unfold kafka_step. set (k1 := receive _ k).
  assert (Hb : kt_recv t = RecvTimeout -> flush_due (kt_recv t) (ks_batch k1) = false -> ks_batch k1 = []).
  { intros -> Hd. cbn in Hd. by case_bool_decide. }
  destruct (flush_due _ _) eqn:Hd; [destruct (flush_up t k1 Ht) as [He Hn]; rewrite He|cbn [ko_error]].
  - destruct (commit_overdue _ _); [|done]. cbn. destruct (flush_up t (ko_state (flush t k1)) Ht). done.
  - destruct (commit_overdue _ _); cbn; [|auto]. destruct (flush_up t k1 Ht). done.
Qed.

Lemma run_app a b k :
  ko_error (kafka_run a k) = None ->
  kafka_run (a ++ b) k =
  {| ko_state := ko_state (kafka_run b (ko_state (kafka_run a k)));
     ko_acked := ko_acked (kafka_run a k) ++ ko_acked (kafka_run b (ko_state (kafka_run a k)));
     ko_error := ko_error (kafka_run b (ko_state (kafka_run a k))) |}.
Proof.
  revert k. induction a as [|t a IH]; intros k H; cbn [app kafka_run] in *; [cbn; by destruct (kafka_run b k)|].
  destruct (ko_error (kafka_step t k)) eqn:He; [congruence|]. cbn in *. rewrite IH by done. cbn. by rewrite app_assoc.
Qed.

Lemma run_up log start ticks acked k :
  Forall tick_up ticks -> run_inv log start acked k -> (kt_recv <$> ticks) = (Received <$> drop (ks_position k) log) ->
  let o := kafka_run ticks k in
  ko_error o = None /\ run_inv log start (acked ++ ko_acked o) (ko_state o) /\ ks_position (ko_state o) = length log.
Proof.
  revert acked k. induction ticks as [|t ticks IH]; intros acked k Hup Hk Hr; cbn [kafka_run].
  { cbn. rewrite app_nil_r. split_and!; [done|done|]. pose proof (ri_position _ _ _ _ Hk).
    destruct (drop (ks_position k) log) eqn:E; [|done]. apply (f_equal length) in E. rewrite length_drop in E. cbn in E. lia. }
  inversion_clear Hup as [|? ? Ht Hts]. destruct (drop (ks_position k) log) as [|payload rest] eqn:E; [done|].
  cbn in Hr. injection Hr as Hrecv Hrest.
  assert (Hl : log !! ks_position k = Some payload).
  { rewrite <- (Nat.add_0_r (ks_position k)), <- lookup_drop, E. done. }
  destruct (step_inv log start acked t k Hk) as [Ho Hpos]; [by rewrite Hrecv|]. rewrite Hrecv in Hpos.
  destruct (step_up t k Ht) as [-> _].
  destruct (IH (acked ++ ko_acked (kafka_step t k)) (ko_state (kafka_step t k))) as (He & Hinv & Hp); [done|done| |].
  - rewrite Hrest, Hpos. f_equal. rewrite <- Nat.add_1_r, <- drop_drop, E. done.
  - cbn. rewrite app_assoc. done.
Qed.

Lemma drained log st0 st committed acked ticks last now :
  history log st0 st committed acked ->
  Forall tick_up ticks -> (kt_recv <$> ticks) = (Received <$> drop committed log) ->
  tick_up last -> kt_recv last = RecvTimeout ->
  let o := kafka_run (ticks ++ [last]) (kafka_start (reopened st) committed now) in
  ko_error o = None /\ ks_batch (ko_state o) = [] /\ forall e, e ∈ events_of log -> e ∈ acked ++ ko_acked o.
Proof.
  intros (Hc & Hs & _)%history_inv Hup Hr Hlast Hto.
  pose proof (start_inv log (reopened st) committed now Hc) as Hk.
  destruct (run_up log committed ticks [] _ Hup Hk Hr) as (He & Hinv & Hpos).
  set (k := kafka_start _ _ _) in *. cbn zeta. rewrite run_app by done. set (k1 := ko_state (kafka_run ticks k)) in *.
  destruct (step_up last k1 Hlast) as [Hle Hlb]. cbn [kafka_run]. rewrite Hle. cbn [ko_error ko_state ko_acked].
  split; [done|]. split; [by apply Hlb|].
  destruct (step_inv log committed _ last k1 Hinv) as [Hfin Hfp]; [by rewrite Hto|]. rewrite Hto in Hfp.
  pose proof (ri_taken _ _ _ _ Hfin) as Ht. rewrite Hlb, Hfp, Hpos, app_nil_r in Ht by done.
  intros e Hin. rewrite <- (take_ge log (length log)), (between_from_zero log committed), Ht in Hin by lia.
  cbn [app] in Hin. rewrite app_nil_r. apply elem_of_app in Hin as [Hin|Hin]; apply elem_of_app; auto.
Qed.

Lemma follows_rest log pos ticks last :
  (kt_recv <$> ticks) = (Received <$> drop pos log) -> kt_recv last = RecvTimeout -> follows log pos (ticks ++ [last]).
Proof.
  intros H Hl. revert pos H. induction ticks as [|t ticks IH]; intros pos H; cbn [app follows]; [by rewrite Hl|].
  destruct (drop pos log) as [|payload rest] eqn:E; [done|]. cbn in H. injection H as Hr H. rewrite Hr. split.
  - rewrite <- (Nat.add_0_r pos), <- lookup_drop, E. done.
  - apply IH. rewrite H. f_equal. rewrite <- Nat.add_1_r, <- drop_drop, E. done.
Qed.

(** The topic is drained.  After any history of crashes and lost commits, one process
    that receives the rest of the topic and then waits once, with database and broker up,
    ends without an error and every event of the topic has been acknowledged. *)
Theorem kafka_drains (log : list (option string)) (st0 st : EventStore) (committed : nat) (acked : list CacheEvent)
    (ticks : list KafkaTick) (last : KafkaTick) (now : N) :
  history log st0 st committed acked ->
  Forall tick_up ticks -> (kt_recv <$> ticks) = (Received <$> drop committed log) ->
  tick_up last -> kt_recv last = RecvTimeout ->
  let o := kafka_run (ticks ++ [last]) (kafka_start (reopened st) committed now) in
  ko_error o = None /\ ks_batch (ko_state o) = [] /\
  forall p e, Some p ∈ log -> event_from_slice p = Ok e -> e ∈ acked ++ ko_acked o.
Proof.
  intros Hh Hup Hr Hlast Hto o. destruct (drained _ _ _ _ _ _ _ now Hh Hup Hr Hlast Hto) as (He & Hb & Hall).
  split_and!; [done|done|]. intros p e Hp Hev. apply Hall, events_of_elem. by exists p.
Qed.

(** *** Once in SQLite *)

Context {SL : SqlOrderLaws SO}.

(** With room for all ids a batch only adds rows. *)
Lemma sqlite_insert_room (ids : list string) fault events s :
  table_ok s -> sql_id <$> ss_rows s ⊆ ids -> document_id <$> events ⊆ ids -> length ids <= N.to_nat (ss_max_rows s) ->
  let '(s', r) := sqlite_insert_batch fault events s in
  table_ok s' /\ sql_id <$> ss_rows s' ⊆ ids /\ ss_max_rows s' = ss_max_rows s /\
  sql_id <$> ss_rows s ⊆ sql_id <$> ss_rows s' /\ (r = Ok tt -> document_id <$> events ⊆ sql_id <$> ss_rows s').
Proof.
  intros Hok Hids He Hmax. pose proof (sqlite_insert_ok fault events s Hok) as Hok'. revert Hok'.
  unfold sqlite_insert_batch. rewrite insert_rows. set (all := foldl upsert _ _).
  assert (Hb : sql_id <$> batch_rows events = document_id <$> events).
  { unfold batch_rows. rewrite <- list_fmap_compose. apply list_fmap_ext. intros i e _. apply row_id. }
  assert (Hall : forall id, id ∈ sql_id <$> all <-> id ∈ sql_id <$> ss_rows s \/ id ∈ document_id <$> events).
  { intros id. unfold all. by rewrite upserts_ids, Hb. }
  assert (Hlen : length all <= length ids).
  { rewrite <- (length_fmap sql_id all). apply submseteq_length, NoDup_submseteq; [by apply upserts_NoDup|].
    intros id [H|H]%Hall; [by apply Hids|by apply He]. }
  assert (Hsub : sql_id <$> all ⊆ ids /\ sql_id <$> ss_rows s ⊆ sql_id <$> all /\ document_id <$> events ⊆ sql_id <$> all).
  { split_and!; intros id Hid; [apply Hall in Hid as [?|?]; auto|apply Hall; auto..]. }
  destruct (Nat.ltb_spec (N.to_nat (ss_max_rows s)) (length all)); [lia|].
  destruct Hsub as (H1 & H2 & H3). destruct fault; cbn [fst ss_rows ss_max_rows]; intros Hok'; by split_and!.
Qed.
(** The store is a table with a row for every acknowledged event, and only events of the
    topic have one. *)
Definition sql_inv (log : list (option string)) (max : N) (acked : list CacheEvent) (st : EventStore) : Prop :=
  exists s, st = Sqlite s /\ table_ok s /\ ss_max_rows s = max /\
    sql_id <$> ss_rows s ⊆ document_id <$> events_of log /\ document_id <$> acked ⊆ sql_id <$> ss_rows s.

Section once.
Context (log : list (option string)) (max : N) (room : length (events_of log) <= N.to_nat max).

Lemma flush_sql start run_acked acked t k :
  run_inv log start run_acked k -> sql_inv log max acked (ks_store k) ->
  sql_inv log max (acked ++ ko_acked (flush t k)) (ks_store (ko_state (flush t k))).
Proof using SL room.
  intros [_ _ Ht _] (s & Hst & Hok & Hmax & Hids & Hacked).
  assert (Hb : document_id <$> ks_batch k ⊆ document_id <$> events_of log).
  { intros id (e & -> & He)%list_elem_of_fmap. apply list_elem_of_fmap_2, (between_log log start (ks_position k)).
    rewrite Ht. set_solver. }
  pose proof (sqlite_insert_room _ (di_insert (kt_db t)) _ s Hok Hids Hb) as Hroom.
  unfold flush. rewrite Hst. cbn [insert_batch]. destruct (sqlite_insert_batch _ _ s) as [s' r].
  destruct Hroom as (Hok' & Hids' & Hmax' & Hkeep & Hnew); [by rewrite length_fmap, Hmax|].
  assert (Hacked' : document_id <$> acked ⊆ sql_id <$> ss_rows s') by (etrans; done).
  destruct r as [[]|e].
  - assert (document_id <$> acked ++ ks_batch k ⊆ sql_id <$> ss_rows s').
    { rewrite fmap_app. intros id [?|?]%elem_of_app; [by apply Hacked'|by apply Hnew]. }
    destruct (kt_commit t); exists s'; cbn; rewrite Hmax'; done.
  - exists s'. cbn. rewrite app_nil_r, Hmax'. done.
Qed.

Lemma step_sql start run_acked acked t k :
  run_inv log start run_acked k ->
  match kt_recv t with Received payload => log !! ks_position k = Some payload | _ => True end ->
  sql_inv log max acked (ks_store k) ->
  sql_inv log max (acked ++ ko_acked (kafka_step t k)) (ks_store (ko_state (kafka_step t k))).
Proof using SL room.
  intros Hk Hr Hs. apply (receive_inv _ _ _ (kt_recv t)) in Hk; [|done].
  assert (E : ks_store (receive (kt_recv t) k) = ks_store k) by by destruct (kt_recv t).
  rewrite <- E in Hs. unfold kafka_step. set (k1 := receive _ k) in *.
  destruct (flush_due _ _).
  - pose proof (flush_sql _ _ _ t _ Hk Hs) as Hf. destruct (flush_inv _ _ _ t _ Hk) as [Hk2 _].
    destruct (ko_error _); [done|]. destruct (commit_overdue _ _); [|done]. cbn. rewrite app_assoc.
    by eapply flush_sql.
  - cbn [ko_error ko_state]. destruct (commit_overdue _ _); cbn; [by eapply flush_sql|]. by rewrite app_nil_r.
Qed.

Lemma run_sql start ticks run_acked acked k :
  run_inv log start run_acked k -> follows log (ks_position k) ticks -> sql_inv log max acked (ks_store k) ->
  sql_inv log max (acked ++ ko_acked (kafka_run ticks k)) (ks_store (ko_state (kafka_run ticks k))).
Proof using SL room.
  revert run_acked acked k. induction ticks as [|t ticks IH]; intros run_acked acked k Hk Hf Hs; cbn [kafka_run].
  { cbn. by rewrite app_nil_r. }
  assert (Hr : match kt_recv t with Received payload => log !! ks_position k = Some payload | _ => True end).
  { cbn in Hf. destruct (kt_recv t); naive_solver. }
  pose proof (step_sql _ _ _ t _ Hk Hr Hs) as Hs'. destruct (step_inv _ _ _ t _ Hk Hr) as [Ho Hpos].
  destruct (ko_error (kafka_step t k)); [done|]. cbn. rewrite app_assoc. eapply IH; [done| |done].
  rewrite Hpos. cbn in Hf. destruct (kt_recv t); naive_solver.
Qed.

Lemma history_sql st committed acked :
  history log (Sqlite {| ss_max_rows := max; ss_rows := [] |}) st committed acked -> sql_inv log max acked st.
Proof using SL room.
  induction 1 as [|st committed acked ticks now Hh IH Hf].
  - eexists. split; [done|]. cbn. split_and!; [apply NoDup_nil_2|done|set_solver..].
  - destruct (history_inv _ _ _ _ _ Hh) as (Hc & _). eapply run_sql; [by apply start_inv|done|].
    destruct IH as (s & -> & IH). exists s. done.
Qed.

(** C22: At least once from Kafka and once in SQLite.  With room for the events of the
    topic, whatever crashes and redeliveries happened, the table holds exactly one row for
    every event before the committed offset, and no row that is not an event of the topic. *)
Theorem kafka_once_in_sqlite (st : EventStore) (committed : nat) (acked : list CacheEvent) :
  history log (Sqlite {| ss_max_rows := max; ss_rows := [] |}) st committed acked ->
  exists s, st = Sqlite s /\ NoDup (sql_id <$> ss_rows s) /\
    (forall i p e, i < committed -> log !! i = Some (Some p) -> event_from_slice p = Ok e ->
                   document_id e ∈ sql_id <$> ss_rows s) /\
    (forall id, id ∈ sql_id <$> ss_rows s -> exists p e, Some p ∈ log /\ event_from_slice p = Ok e /\ id = document_id e).
Proof using SL room.
  intros Hh. destruct (history_sql _ _ _ Hh) as (s & -> & Hok & _ & Hids & Hacked).
  destruct (history_inv _ _ _ _ _ Hh) as (_ & Hsafe & _). exists s. split_and!; [done|done| |].
  - intros i p e Hi Hp He. apply Hacked, list_elem_of_fmap_2, Hsafe, events_of_elem. exists p. split; [|done].
    apply list_elem_of_lookup. exists i. by rewrite lookup_take_lt.
  - intros id Hid%Hids. apply list_elem_of_fmap in Hid as (e & -> & (p & Hp & He)%events_of_elem). by exists p, e.
Qed.

End once.
(** ** The token gate *)

(** The [Authorization] a request carries. *)
Definition head_auth (header : string) : option string :=
  match str_lines header with
  | [] => None
  | _ :: lines => (admin_headers lines None None).1
  end.

Definition tokens (api : option SearchApiConfig) : list string :=
  match api with
  | Some c => option_list (sac_api_token c) ++ option_list (sac_ingest_token c)
  | None => []
  end.

Lemma started_has_tokens env c :
  start_search_api env = Ok (Some c) -> search_api_fail_closed env = true ->
  is_Some (sac_api_token c) /\ is_Some (sac_ingest_token c).
Proof.
  unfold start_search_api, search_api_fail_closed. intros H Hc. destruct (allow_insecure env); [done|].
  rewrite Hc in H. destruct (search_api_enabled env); [|done]. cbn in H.
  case_bool_decide as Hn; [done|]. cbn in H. injection H as <-. cbn in *.
  destruct (env_nonempty env "SEARCH_API_TOKEN"); [|done]. split; [done|]. by destruct (env_nonempty env _).
Qed.

Lemma check_bearer_none env token auth :
  auth <> Some ("Bearer " +:+ token) -> check_bearer env (Some token) auth = false.
Proof.
  intros H. unfold check_bearer. destruct auth as [a|]; [|done].
  change (Some a ≫= strip_prefix "Bearer ") with (strip_prefix "Bearer " a).
  destruct (strip_prefix "Bearer " a) as [t|] eqn:Hp; [|done]. apply strip_prefix_Some in Hp as ->. destruct (String.eqb_spec t token); [congruence|done].
Qed.

(** Without a token neither check passes, in a process that started and fails closed. *)
Lemma started_gate i header c :
  start_search_api (ai_env i) = Ok (ai_api i) -> search_api_fail_closed (ai_env i) = true ->
  (forall token, token ∈ tokens (ai_api i) -> head_auth header <> Some ("Bearer " +:+ token)) ->
  ai_api i = Some c ->
  check_bearer (ai_env i) (sac_api_token c) (head_auth header) = false /\
  check_bearer (ai_env i) (sac_ingest_token c) (head_auth header) = false.
Proof.
  intros Hs Hc Hn E. rewrite E in Hs, Hn. destruct (started_has_tokens _ _ Hs Hc) as [[a Ha] [b Hb]].
  cbn in Hn. rewrite Ha, Hb in *. split; apply check_bearer_none, Hn; set_solver.
Qed.


(** ** From ingest to search *)

Lemma trim_front_short max rows : length rows <= N.to_nat max -> trim_front max rows = rows.
Proof. intros H. unfold trim_front. replace (length rows - N.to_nat max) with 0 by lia. apply drop_0. Qed.

Lemma memory_insert_keeps events s e :
  length (ms_rows s) <= N.to_nat (ms_max_rows s) -> length events <= N.to_nat (ms_max_rows s) -> e ∈ events ->
  fill_id e ∈ ms_rows (memory_insert_batch events s).
Proof.
  intros Hs Hl He. unfold memory_insert_batch. cbn [ms_rows]. rewrite <- (trim_front_short (ms_max_rows s) (ms_rows s)) by done.
  rewrite memory_push_all. unfold trim_front. rewrite drop_app. apply elem_of_app. right.
  rewrite length_app, length_fmap.
  replace (length (ms_rows s) + length events - N.to_nat (ms_max_rows s) - length (ms_rows s)) with 0 by lia.
  rewrite drop_0. by apply list_elem_of_fmap_2.
Qed.

Lemma fill_id_fields e : ev_timestamp (fill_id e) = ev_timestamp e /\ ev_domain (fill_id e) = ev_domain e.
Proof. unfold fill_id. by destruct (str_is_empty _). Qed.

(** What is ingested is found.  An event of an accepted body, whose timestamp lies in
    the searched period, is among the hits of a search for its domain, as long as the ring
    holds the batch and the limit its rows. *)
Theorem ingested_is_found (c : SearchApiConfig) (now : N) (db : DbInput) (body : string) (s : MemoryStore)
    (events : list CacheEvent) (e : CacheEvent) :
  parse_ingest_body body = Ok events -> e ∈ events ->
  length (ms_rows s) <= N.to_nat (ms_max_rows s) -> length events <= N.to_nat (ms_max_rows s) ->
  (now - sac_default_days c * 86400 <= ev_timestamp e <= now)%N ->
  sanitize_filter (ev_domain e) = ev_domain e ->
  (ms_max_rows s <= N.min 1000 (sac_max_limit c))%N ->
  exists s' hits, (handle_ingest db body (Memory s)).1.1 = Memory s' /\
    store_search db (search_query c now {["domain"%string := ev_domain e]}) (Memory s') = (None, Ok hits) /\
    event_to_hit (fill_id e) ∈ hits.
Proof.
  intros Hp He Hs Hl Hts Hd Hlim. destruct events as [|e0 events']; [set_solver|]. set (events := e0 :: events') in *.
  exists (memory_insert_batch events s). eexists. split; [unfold handle_ingest; by rewrite Hp|]. split; [done|].
  set (q := search_query _ _ _). rewrite memory_search_slice.
  pose proof (memory_insert_keeps events s e Hs Hl He) as Hin.
  assert (Hlen : length (sorted_hits q (ms_rows (memory_insert_batch events s))) <= N.to_nat (ms_max_rows s)).
  { rewrite (Permutation_length (sorted_hits_Permutation _ _)), length_fmap. etrans; [apply List.filter_length_le|].
    unfold memory_insert_batch. cbn [ms_rows]. rewrite <- (trim_front_short (ms_max_rows s) (ms_rows s)), memory_push_all by done.
    unfold trim_front. rewrite length_drop. lia. }
  rewrite take_ge; [|rewrite length_drop; change (q_limit q) with (N.min 1000 (sac_max_limit c)); lia].
  change (q_offset q) with 0%N. rewrite drop_0, sorted_hits_Permutation. apply list_elem_of_fmap_2.
  apply list_elem_of_In, List.filter_In. split; [by apply list_elem_of_In|].
  destruct (fill_id_fields e) as [Et Ed]. unfold event_matches. rewrite Et, Ed.
  change (q_from_ts q) with (now - sac_default_days c * 86400)%N. change (q_to_ts q) with now.
  change (q_domain q) with (sanitize_filter (ev_domain e)). rewrite Hd. unfold wanted.
  rewrite String.eqb_refl, Bool.orb_true_r. cbn. rewrite !Bool.andb_true_r, Bool.andb_true_iff, !N.leb_le. lia.
Qed.

(** A filter that is refused is dropped, so the search answers for every domain. *)
Lemma refused_filter_widens c now v query :
  sanitize_filter v = EmptyString ->
  search_query c now (<["domain"%string := v]> query) = search_query c now (delete "domain"%string query).
Proof.
  intros H. unfold search_query, search_limit, query_str. rewrite lookup_insert_eq, lookup_delete_eq. cbn [default from_option id].
  rewrite !lookup_insert_ne, !lookup_delete_ne by done. by rewrite H.
Qed.

End api.

(** ** An instance *)

Module Demo.

Import EventStores.Demo.

Definition read_event (s : string) : result CacheEvent string :=
  if String.eqb s "one" then Ok (event "e1" "a.com" 10) else if String.eqb s "two" then Ok (event "e2" "b.com" 20)
  else Err "no event"%string.

#[local] Instance word_events : EventJson := {|
  event_from_slice := read_event; event_from_str := read_event; events_from_str s := Err s;
  event_from_value _ := Err "value"%string; utf8_error s := s |}.
#[local] Instance no_json : SerdeJson := {| json_from_slice _ := None; json_to_vec _ := "json"%string; number_as_f64 _ := None |}.
#[local] Instance plain_numbers : JsonNumbers := {| number_as_u64 := parse_u64; json_of_f64 _ := JNull |}.
#[local] Instance plain_text : DisplayText := {| json_parse_error s := s; status_display n := pretty n |}.
#[local] Instance no_negative : NumberI64 := fun _ => None.
#[local] Instance some_date : EventTime := fun _ => Some "1970-01-01 00:00:00"%string.
#[local] Instance plain_order : MapOrder := fun _ m => map_to_list m.

(** *** A topic with a message that is no event; the first process loses its commit and
    ends, the second one starts again at the beginning. *)

Definition topic : list (option string) := [Some "one"%string; Some "noise"%string; Some "two"%string].

Definition up : DbInput := {| di_insert := NoFault; di_search := None; di_answer := Ok (200%N, Ok EmptyString) |}.

Definition tick (r : KafkaRecv) (c : CommitOutcome) : KafkaTick := {| kt_recv := r; kt_now := 0; kt_db := up; kt_commit := c |}.

Definition empty_table : EventStore := Sqlite {| ss_max_rows := 2; ss_rows := [] |}.

Definition first_process : list KafkaTick := [tick (Received (Some "one"%string)) CommitDone; tick RecvTimeout CommitLost].

Definition after_first : KafkaOut := kafka_run first_process (kafka_start empty_table 0 0).

Definition second_process : list KafkaTick := (fun p => tick (Received p) CommitDone) <$> topic.

Lemma topic_history : history topic empty_table (ks_store (ko_state after_first)) 0 (ko_acked after_first).
Proof.
  assert (E : ks_committed (ko_state after_first) = 0) by by vm_compute. rewrite <- E.
  apply (history_run topic empty_table _ 0 [] first_process 0 (history_start _ _)). done.
Qed.

Lemma kafka_at_least_once_witness : forall e, e ∈ ko_acked after_first -> exists p, Some p ∈ topic /\ event_from_slice p = Ok e.
Proof. apply (kafka_at_least_once topic empty_table (ks_store (ko_state after_first)) 0), topic_history. Defined.

Lemma kafka_drains_witness :
  let o := kafka_run (second_process ++ [tick RecvTimeout CommitDone]) (kafka_start (reopened (ks_store (ko_state after_first))) 0 0) in
  ko_error o = None /\ forall p e, Some p ∈ topic -> event_from_slice p = Ok e -> e ∈ ko_acked after_first ++ ko_acked o.
Proof.
  destruct (kafka_drains topic empty_table (ks_store (ko_state after_first)) 0 (ko_acked after_first) second_process
              (tick RecvTimeout CommitDone) 0) as (He & _ & H); [apply topic_history|by repeat constructor|done|done|done|].
  split; [exact He|exact H].
Defined.

Definition after_second : KafkaOut :=
  kafka_run (second_process ++ [tick RecvTimeout CommitDone]) (kafka_start (reopened (ks_store (ko_state after_first))) 0 0).

Lemma topic_history_all :
  history topic empty_table (ks_store (ko_state after_second)) 3 (ko_acked after_first ++ ko_acked after_second).
Proof.
  assert (E : ks_committed (ko_state after_second) = 3) by by vm_compute. rewrite <- E.
  apply (history_run topic empty_table _ 0 (ko_acked after_first) _ 0 topic_history). done.
Qed.

Lemma kafka_once_in_sqlite_witness :
  exists s, ks_store (ko_state after_second) = Sqlite s /\ NoDup (sql_id <$> ss_rows s) /\
    "e1"%string ∈ sql_id <$> ss_rows s /\ "e2"%string ∈ sql_id <$> ss_rows s.
Proof.
  assert (Hroom : length (events_of topic) <= N.to_nat 2) by (vm_compute; lia).
  destruct (kafka_once_in_sqlite topic 2 Hroom (ks_store (ko_state after_second)) 3 _ topic_history_all) as (s & Hs & Hn & Hin & _).
  exists s. split_and!; [done|done| |].
  - apply (Hin 0 "one"%string (event "e1" "a.com" 10)); [lia|done|done].
  - apply (Hin 2 "two"%string (event "e2" "b.com" 20)); [lia|done|done].
Defined.

(** *** Requests *)

Definition production : Env := fun name => if String.eqb name "SEARCH_API_TOKEN" then Some "secret"%string else None.

Definition input : AdminInput :=
  {| ai_env := production; ai_api := Some (SearchApiConfig_from_env production); ai_now := 50; ai_db := up; ai_metrics := None |}.

Definition get (name : string) : string :=
  "GET /api/search?domain=a.com HTTP/1.1" +:+ crlf +:+ name +:+ ": Bearer secret" +:+ crlf +:+ crlf.

Definition ring : EventStore := Memory (memory_insert_batch events (MemoryStore_new 10)).


(** The name of the header is compared with its capital only, while header names are
    case-insensitive and HTTP libraries send them in lower case. *)
Lemma lower_case_name_refused :
  starts_with (handle_admin_request input (get "Authorization") EmptyString ring).2 "HTTP/1.1 200 OK" = true /\
  starts_with (handle_admin_request input (get "authorization") EmptyString ring).2 "HTTP/1.1 401 Unauthorized" = true.
Proof. by vm_compute. Qed.

Lemma ingested_is_found_witness :
  exists s' hits, (handle_ingest up "one" (Memory (MemoryStore_new 10))).1.1 = Memory s' /\
    store_search up (search_query (SearchApiConfig_from_env production) 50 {["domain"%string := "a.com"%string]}) (Memory s') = (None, Ok hits) /\
    event_to_hit (event "e1" "a.com" 10) ∈ hits.
Proof.
  apply (ingested_is_found (SearchApiConfig_from_env production) 50 up "one" (MemoryStore_new 10) [event "e1" "a.com" 10]
           (event "e1" "a.com" 10)); [done|set_solver|cbn; lia|cbn; lia|by vm_compute|by vm_compute|by vm_compute].
Defined.

(** A head that arrives in two segments is refused. *)
Lemma split_head_refused :
  (serve_connection input [get "Authorization"] ring).2 <> None /\
  (serve_connection input [str_take 60 (get "Authorization"); str_drop 60 (get "Authorization")] ring).2 =
  Some (http_response 400 "text/plain" "bad request" None).
Proof. by vm_compute. Qed.

(** The check of the origin is one of a prefix. *)
Lemma foreign_origin_allowed : cors_origin_allowed "http://localhost.evil.test" = true.
Proof. done. Qed.

(** A line break in a field is not quoted: one hit becomes two rows. *)
Lemma csv_row_forged :
  let h := event_to_hit (event ("e1" +:+ nl +:+ "999") "a.com" 10) in
  length (str_lines (hits_to_csv [h])) = 3.
Proof. by vm_compute. Qed.

(** An encoded plus sign is read as a space. *)
Lemma encoded_plus_lost : query_decode "a%2Bb" = "a b"%string.
Proof. done. Qed.

End Demo.
