(* ===== verification/EventPipeline.v ===== *)
(** * The proxy's event pipelines (src/proxy/src/pipeline.rs)

    Requests enqueue events without waiting; a worker takes them from the bounded queue and
    sends them to Kafka or posts them to the indexer.  Tasks interleave in any order; the
    outcome of a transmission and the random id are arguments. *)

From Stdlib Require Import Ascii String NArith ZArith Lia.
From stdpp Require Import base option gmap strings pretty numbers list.
From S2P Require Import Prelude Net Bytes Devices SemanticCache ClickHouse ProxyService Icap EventStores Indexer.

Local Open Scope rust_scope.

(** ** Settings *)

(** The 16 bytes of a random [u128], big-endian, in hex. *)
Definition new_event_id (random : N) : string :=
  foldr (fun i s => hex_two (N.land (N.shiftr random (8 * (15 - N.of_nat i))) 255) +:+ s) EmptyString (seq 0 16).

Definition queue_capacity_from_env (env : Env) : N :=
  match env "KAFKA_QUEUE_CAPACITY"%string ≫= parse_usize with
  | Some n => if (0 <? n)%N then n else 8192
  | None => 8192
  end.

Definition kafka_producer_settings (env : Env) (brokers : string) : list (string * string) :=
  [("bootstrap.servers", brokers); ("message.timeout.ms", "5000"); ("compression.type", "snappy");
   ("batch.size", pretty (default 32768%Z (env "KAFKA_BATCH_SIZE" ≫= parse_i32)));
   ("linger.ms", default "5" (env "KAFKA_QUEUE_BUFFERING_MAX_MS")); ("acks", default "1" (env "KAFKA_ACKS"))]%string.

(** ** The queue *)

(** [pq_open]: the receiver exists.  [pq_busy] is the event the worker is sending. *)
Record EventQueue := {
  pq_capacity : N;
  pq_queue : list CacheEvent;
  pq_open : bool;
  pq_busy : option CacheEvent;
  pq_events_sent : N;
  pq_send_errors : N;
  pq_dropped : N;
}.

Definition pipeline_spawn (env : Env) : EventQueue :=
  {| pq_capacity := queue_capacity_from_env env; pq_queue := []; pq_open := true; pq_busy := None; pq_events_sent := 0;
     pq_send_errors := 0; pq_dropped := 0 |}.

Definition count_errors (n : N) (p : EventQueue) : EventQueue :=
  {| pq_capacity := pq_capacity p; pq_queue := pq_queue p; pq_open := pq_open p; pq_busy := pq_busy p;
     pq_events_sent := pq_events_sent p; pq_send_errors := (pq_send_errors p + n)%N; pq_dropped := pq_dropped p |}.

(** [try_send]: a full queue drops the new event. *)
Definition try_enqueue (e : CacheEvent) (p : EventQueue) : EventQueue :=
  if negb (pq_open p) then count_errors 1 p
  else if (N.of_nat (length (pq_queue p)) <? pq_capacity p)%N then
    {| pq_capacity := pq_capacity p; pq_queue := pq_queue p ++ [e]; pq_open := pq_open p; pq_busy := pq_busy p;
       pq_events_sent := pq_events_sent p; pq_send_errors := pq_send_errors p; pq_dropped := pq_dropped p |}
  else
    {| pq_capacity := pq_capacity p; pq_queue := pq_queue p; pq_open := pq_open p; pq_busy := pq_busy p;
       pq_events_sent := pq_events_sent p; pq_send_errors := pq_send_errors p; pq_dropped := (pq_dropped p + 1)%N |}.

(** Kafka where there is one, otherwise the HTTP sink where there is one. *)
Definition dispatch_cache_event (e : CacheEvent) (pipelines : option EventQueue * option EventQueue)
    : option EventQueue * option EventQueue :=
  match pipelines with
  | (Some kafka, http) => (Some (try_enqueue e kafka), http)
  | (None, Some http) => (None, Some (try_enqueue e http))
  | (None, None) => (None, None)
  end.

(** ** The workers *)

(** [receiver.recv()]: nothing while the worker is busy or the queue is empty. *)
Definition worker_recv (p : EventQueue) : EventQueue :=
  match pq_busy p, pq_queue p with
  | None, e :: queue =>
      {| pq_capacity := pq_capacity p; pq_queue := queue; pq_open := pq_open p; pq_busy := Some e;
         pq_events_sent := pq_events_sent p; pq_send_errors := pq_send_errors p; pq_dropped := pq_dropped p |}
  | _, _ => p
  end.

(** A message of the topic: its key and payload. *)
Abbreviation KafkaRecord := (string * string)%type.

(** The broker acknowledged; or an error, after which the message may be in the topic all
    the same; or the event has no JSON text. *)
Inductive KafkaOutcome := KafkaAcked | KafkaFailed (stored : bool) | KafkaUnserializable.

Inductive HttpOutcome := HttpStatus (status : N) | HttpFailed | HttpUnserializable.

Definition worker_done (ok : bool) (p : EventQueue) : EventQueue :=
  {| pq_capacity := pq_capacity p; pq_queue := pq_queue p; pq_open := pq_open p; pq_busy := None;
     pq_events_sent := if ok then (pq_events_sent p + 1)%N else pq_events_sent p;
     pq_send_errors := if ok then pq_send_errors p else (pq_send_errors p + 1)%N; pq_dropped := pq_dropped p |}.

Section worker.
Context {EX : EventText}.

Definition kafka_record (e : CacheEvent) : KafkaRecord := (ev_event_id e, event_to_string e).

(** The end of a transmission: the state and what the topic gains. *)
Definition kafka_send (o : KafkaOutcome) (p : EventQueue) : EventQueue * list KafkaRecord :=
  match pq_busy p with
  | None => (p, [])
  | Some e =>
      match o with
      | KafkaAcked => (worker_done true p, [kafka_record e])
      | KafkaFailed stored => (worker_done false p, if stored then [kafka_record e] else [])
      | KafkaUnserializable => (worker_done false p, [])
      end
  end.

Record SinkPost := {
  sp_url : string;
  sp_content_type : string;
  sp_bearer : option string;
  sp_body : string;
}.

Definition http_post (url : string) (token : option string) (e : CacheEvent) : SinkPost :=
  {| sp_url := url; sp_content_type := "application/json"; sp_bearer := token; sp_body := event_to_string e |}.

Definition http_sent (o : HttpOutcome) : bool :=
  match o with HttpStatus status => is_success status || (status =? 202)%N | _ => false end.

Definition http_send (url : string) (token : option string) (o : HttpOutcome) (p : EventQueue) : EventQueue * option SinkPost :=
  match pq_busy p with
  | None => (p, None)
  | Some e =>
      (worker_done (http_sent o) p, match o with HttpUnserializable => None | _ => Some (http_post url token e) end)
  end.

(** ** Runs of the Kafka pipeline: requests and the worker take turns in any order *)

Inductive PipelineStep := Enqueue (e : CacheEvent) | Recv | Sent (o : KafkaOutcome).

Definition pipeline_step (st : EventQueue * list KafkaRecord) (s : PipelineStep) : EventQueue * list KafkaRecord :=
  let '(p, topic) := st in
  match s with
  | Enqueue e => (try_enqueue e p, topic)
  | Recv => (worker_recv p, topic)
  | Sent o => let '(p, new) := kafka_send o p in (p, topic ++ new)
  end.

Definition pipeline_run (steps : list PipelineStep) (p : EventQueue) : EventQueue * list KafkaRecord :=
  foldl pipeline_step (p, []) steps.

Definition offered (steps : list PipelineStep) : list CacheEvent :=
  omap (fun s => match s with Enqueue e => Some e | _ => None end) steps.

(** What the topic holds came from the events in their order; every event is accounted for. *)
Record pipeline_inv (offers : list CacheEvent) (p : EventQueue) (topic : list KafkaRecord) : Prop := {
  pi_bound : (N.of_nat (length (pq_queue p)) <= pq_capacity p)%N;
  pi_balance :
    N.of_nat (length offers) =
    (pq_events_sent p + pq_send_errors p + pq_dropped p + N.of_nat (length (option_list (pq_busy p) ++ pq_queue p)))%N;
  pi_acked : (pq_events_sent p <= N.of_nat (length topic))%N;
  pi_order : exists passed,
    sublist topic (kafka_record <$> passed) /\ sublist (passed ++ option_list (pq_busy p) ++ pq_queue p) offers;
}.

Lemma step_pipeline_inv offers p topic s :
  pipeline_inv offers p topic ->
  let '(p', topic') := pipeline_step (p, topic) s in
  pipeline_inv (offers ++ offered [s]) p' topic'.
Proof.
  intros [Hb Hbal Ha (passed & Hs & Ho)]. destruct s as [e| |o]; cbn [pipeline_step offered omap list_omap].
  - unfold try_enqueue. destruct (pq_open p) eqn:Hop; cbn [negb].
    + destruct (N.ltb_spec (N.of_nat (length (pq_queue p))) (pq_capacity p)).
      * split; cbn; rewrite ?Hop; try done.
        -- rewrite length_app. cbn. lia.
        -- rewrite length_app, !length_app in *. cbn. lia.
        -- exists passed. split; [done|]. rewrite !app_assoc. apply sublist_app; [by rewrite <- !app_assoc|done].
      * split; cbn; rewrite ?Hop; try done.
        -- rewrite length_app. cbn. lia.
        -- exists passed. split; [done|]. by apply sublist_inserts_r.
    + split; cbn; rewrite ?Hop; try done; [rewrite length_app; cbn; lia|].
      exists passed. split; [done|]. by apply sublist_inserts_r.
  - rewrite app_nil_r. unfold worker_recv. destruct (pq_busy p) eqn:Hbusy; [by split; rewrite ?Hbusy; eauto|].
    destruct (pq_queue p) as [|e queue] eqn:Hq; [split; rewrite ?Hbusy, ?Hq; eauto|].
    split; cbn in *; try done; [lia|by exists passed].
  - rewrite app_nil_r. unfold kafka_send. destruct (pq_busy p) as [e|] eqn:Hbusy.
    2: { rewrite app_nil_r. split; rewrite ?Hbusy; eauto. }
    cbn in Hbal. destruct o as [|[]|]; cbn; rewrite ?app_nil_r;
      (split; cbn; [done|lia|rewrite ?length_app; cbn; lia|]);
      exists (passed ++ [e]); rewrite <- !app_assoc; (split; [|done]); rewrite fmap_app;
      first [by apply sublist_app|by apply sublist_inserts_r].
Qed.

Lemma offered_app a b : offered (a ++ b) = offered a ++ offered b.
Proof. apply omap_app. Qed.

Lemma run_pipeline_inv steps p offers topic :
  pipeline_inv offers p topic ->
  let '(p', topic') := foldl pipeline_step (p, topic) steps in pipeline_inv (offers ++ offered steps) p' topic'.
Proof.
  revert p offers topic. induction steps as [|s steps IH]; intros p offers topic H; cbn [foldl].
  { cbn. by rewrite app_nil_r. }
  pose proof (step_pipeline_inv offers p topic s H) as Hs. destruct (pipeline_step (p, topic) s) as [p1 t1].
  apply (IH p1 _ t1) in Hs. by rewrite <- app_assoc, <- offered_app in Hs.
Qed.

Lemma spawn_pipeline_inv env : pipeline_inv [] (pipeline_spawn env) [].
Proof. split; cbn [pipeline_spawn pq_queue pq_busy pq_capacity length]; [lia|done|done|by exists []]. Qed.

(** The event pipeline loses nothing silently and never blocks.  However requests and
    the worker interleave, the queue stays within its capacity; every event that was
    dispatched is counted as sent, failed or dropped, or still queued or in transmission;
    and the topic holds events that were dispatched, in the order they were. *)
Theorem event_pipeline_accounts (env : Env) (steps : list PipelineStep) :
  let '(p, topic) := pipeline_run steps (pipeline_spawn env) in
  (N.of_nat (length (pq_queue p)) <= queue_capacity_from_env env)%N /\
  N.of_nat (length (offered steps)) =
    (pq_events_sent p + pq_send_errors p + pq_dropped p + N.of_nat (length (option_list (pq_busy p) ++ pq_queue p)))%N /\
  (pq_events_sent p <= N.of_nat (length topic))%N /\
  sublist topic (kafka_record <$> offered steps).
Proof.
  unfold pipeline_run. pose proof (run_pipeline_inv steps _ [] [] (spawn_pipeline_inv env)) as H.
  assert (Hcap : pq_capacity (foldl pipeline_step (pipeline_spawn env, []) steps).1 = queue_capacity_from_env env).
  { clear H. induction steps as [|s steps IH] using rev_ind; [done|]. rewrite foldl_snoc.
    destruct (foldl _ _ steps) as [p topic]. rewrite <- IH. clear IH. destruct s as [e| |o]; cbn.
    - unfold try_enqueue. destruct (negb _); [done|]. by destruct (_ <? _)%N.
    - unfold worker_recv. by destruct (pq_busy p), (pq_queue p).
    - unfold kafka_send. destruct (pq_busy p); [|done]. by destruct o as [|[]|]. }
  destruct (foldl _ _ steps) as [p topic]. cbn [fst app] in *. destruct H as [Hb Hbal Ha (passed & Hs & Ho)].
  rewrite Hcap in Hb. split_and!; [done|done|done|]. etrans; [exact Hs|]. apply fmap_sublist.
  etrans; [|exact Ho]. by apply sublist_inserts_r.
Qed.

(** ** From the proxy to the index *)

Context {ET : EventTime} {SO : SqlOrder} {SL : SqlOrderLaws SO} {SJ : SerdeJson} {JN : JsonNumbers} {DT : DisplayText}
  {NI : NumberI64} {MO : MapOrder} {EJ : EventJson}.

(** serde_json reads back the events it wrote. *)
Class EventRoundtrip := event_roundtrip : forall e, event_from_slice (event_to_string e) = Ok e.

Definition topic_log (topic : list KafkaRecord) : list (option string) := (fun r => Some r.2) <$> topic.

Lemma topic_events_length topic : length (events_of (topic_log topic)) <= length topic.
Proof.
  induction topic as [|r topic IH]; [done|]. change (events_of (topic_log (r :: topic)))
    with (payload_event (Some r.2) ++ events_of (topic_log topic)). rewrite length_app. cbn.
  destruct (event_from_slice r.2); cbn; unfold topic_log in *; lia.
Qed.

Lemma topic_event {RT : EventRoundtrip} topic e : kafka_record e ∈ topic -> e ∈ events_of (topic_log topic).
Proof.
  intros H. apply events_of_elem. exists (event_to_string e). split; [|apply event_roundtrip].
  apply list_elem_of_fmap. by exists (kafka_record e).
Qed.

(** C15: Events reach the index.  Whatever the proxy's tasks, the worker and earlier
    processes of the indexer did, once a process of the indexer drains the topic, and
    with room for the topic in the table, every event the broker took has exactly one row
    in SQLite. *)
Theorem events_reach_the_index {RT : EventRoundtrip} (env : Env) (steps : list PipelineStep) (max : N) (st : EventStore)
    (committed : nat) (acked : list CacheEvent) (ticks : list KafkaTick) (last : KafkaTick) (now : N) :
  let topic := (pipeline_run steps (pipeline_spawn env)).2 in
  (N.of_nat (length topic) <= max)%N ->
  history (topic_log topic) (Sqlite {| ss_max_rows := max; ss_rows := [] |}) st committed acked ->
  Forall tick_up ticks -> (kt_recv <$> ticks) = (Received <$> drop committed (topic_log topic)) ->
  tick_up last -> kt_recv last = RecvTimeout ->
  exists s, ks_store (ko_state (kafka_run (ticks ++ [last]) (kafka_start (reopened st) committed now))) = Sqlite s /\
    NoDup (sql_id <$> ss_rows s) /\
    forall e, e ∈ offered steps -> kafka_record e ∈ topic -> document_id e ∈ sql_id <$> ss_rows s.
Proof.
  intros topic Hmax Hh Hup Hr Hlast Hto.
  assert (Hroom : length (events_of (topic_log topic)) <= N.to_nat max) by (pose proof (topic_events_length topic); lia).
  destruct (drained _ _ _ _ _ _ _ now Hh Hup Hr Hlast Hto) as (_ & _ & Hall).
  pose proof (history_run _ _ _ _ _ (ticks ++ [last]) now Hh (follows_rest _ _ _ _ Hr Hto)) as Hh'.
  destruct (history_sql _ max Hroom _ _ _ Hh') as (s & Hs & Hok & _ & _ & Hacked).
  exists s. split_and!; [done|done|]. intros e _ He. by apply Hacked, list_elem_of_fmap_2, Hall, topic_event.
Qed.

(** ** The HTTP sink and the token *)

Lemma no_authorization lines origin :
  Forall (fun l => strip_prefix "Authorization: " l = None) lines ->
  (admin_headers lines None origin).1 = None.
Proof.
  intros H. revert origin. induction H as [|l lines Hl _ IH]; intros origin; [done|]. cbn [admin_headers].
  destruct (str_is_empty l); [done|]. rewrite Hl.
  destruct (strip_prefix "Origin: " l), (strip_prefix "origin: " l); apply IH.
Qed.

(** With a token the indexer refuses the proxy's own events.  The client library
    writes header names in lower case and the indexer looks for [Authorization] only, so
    every post of the HTTP sink is answered 401 and counted as an error. *)
Theorem sink_refused (i : AdminInput) (c : SearchApiConfig) (token url body : string) (lines : list string) (head : string)
    (st : EventStore) (p : EventQueue) (e : CacheEvent) :
  ai_api i = Some c -> sac_ingest_token c = Some token ->
  str_lines head = "POST /api/events HTTP/1.1"%string :: lines ->
  Forall (fun l => strip_prefix "Authorization: " l = None) lines ->
  pq_busy p = Some e ->
  exists origin, handle_admin_request i head body st = (st, None, http_response 401 "application/json" (AclApi.json_error "unauthorized") origin) /\
    (http_send url (Some token) (HttpStatus 401) p).1 = worker_done false p.
Proof.
  intros Hi Hc Hh Hl Hp. pose proof (no_authorization lines None Hl) as Ha.
  unfold handle_admin_request. rewrite Hh. destruct (admin_headers lines None None) as [auth origin]. cbn [fst] in Ha. subst auth.
  exists origin. split; [|unfold http_send; by rewrite Hp].
  change (split_whitespace "POST /api/events HTTP/1.1") with ["POST"; "/api/events"; "HTTP/1.1"]%string.
  transitivity (post_events i body None origin st); [reflexivity|]. unfold post_events. by rewrite Hi, Hc.
Qed.

End worker.

(** ** An instance *)

Module Demo.

Import EventStores.Demo.

(** The fields as positive numbers, in binary text. *)
Definition event_code (e : CacheEvent) : list positive :=
  [encode (ev_url e); encode (ev_method e); encode (ev_status e); encode (ev_cache_key e); encode (ev_cache_status e);
   encode (ev_timestamp e); encode (ev_headers e); encode (ev_user_id e); encode (ev_username e); encode (ev_client_ip e);
   encode (ev_domain e); encode (ev_response_size e); encode (ev_request_duration_ms e); encode (ev_content_type e);
   encode (ev_user_agent e); encode (ev_categories e); encode (ev_threat_sources e); encode (ev_acl_action e);
   encode (ev_acl_rule_id e); encode (ev_acl_reason e); encode (ev_session_id e); encode (ev_parent_event_id e);
   encode (ev_redirect_url e); encode (ev_dlp_violation e); encode (ev_casb_alert e); encode (ev_decision_source e);
   encode (ev_bypass_reason e); encode (ev_event_id e)].

Definition event_decode (c : list positive) : option CacheEvent :=
  match c with
  | [a1; a2; a3; a4; a5; a6; a7; a8; a9; a10; a11; a12; a13; a14; a15; a16; a17; a18; a19; a20; a21; a22; a23; a24; a25;
     a26; a27; a28] =>
      b1 ← decode a1; b2 ← decode a2; b3 ← decode a3; b4 ← decode a4; b5 ← decode a5; b6 ← decode a6; b7 ← decode a7;
      b8 ← decode a8; b9 ← decode a9; b10 ← decode a10; b11 ← decode a11; b12 ← decode a12; b13 ← decode a13;
      b14 ← decode a14; b15 ← decode a15; b16 ← decode a16; b17 ← decode a17; b18 ← decode a18; b19 ← decode a19;
      b20 ← decode a20; b21 ← decode a21; b22 ← decode a22; b23 ← decode a23; b24 ← decode a24; b25 ← decode a25;
      b26 ← decode a26; b27 ← decode a27; b28 ← decode a28;
      Some {| ev_url := b1; ev_method := b2; ev_status := b3; ev_cache_key := b4; ev_cache_status := b5; ev_timestamp := b6;
              ev_headers := b7; ev_user_id := b8; ev_username := b9; ev_client_ip := b10; ev_domain := b11;
              ev_response_size := b12; ev_request_duration_ms := b13; ev_content_type := b14; ev_user_agent := b15;
              ev_categories := b16; ev_threat_sources := b17; ev_acl_action := b18; ev_acl_rule_id := b19;
              ev_acl_reason := b20; ev_session_id := b21; ev_parent_event_id := b22; ev_redirect_url := b23;
              ev_dlp_violation := b24; ev_casb_alert := b25; ev_decision_source := b26; ev_bypass_reason := b27;
              ev_event_id := b28 |}
  | _ => None
  end.

Lemma event_decode_code e : event_decode (event_code e) = Some e.
Proof. destruct e. unfold event_decode, event_code. cbn -[encode decode]. by rewrite !decode_encode. Qed.

#[local] Instance binary_text : EventText := fun e => to_text (event_code e).

Definition read_text (s : string) : result CacheEvent string :=
  match of_text s ≫= event_decode with Some e => Ok e | None => Err "not an event"%string end.

#[local] Instance binary_events : EventJson := {|
  event_from_slice := read_text; event_from_str := read_text; events_from_str s := Err s;
  event_from_value _ := Err "value"%string; utf8_error s := s |}.

#[local] Instance binary_roundtrip : EventRoundtrip.
Proof.
  intros e. unfold event_from_slice, event_to_string, binary_events, binary_text, read_text.
  rewrite of_to_text. cbn [mbind option_bind]. by rewrite event_decode_code.
Qed.

#[local] Instance no_json : SerdeJson := {| json_from_slice _ := None; json_to_vec _ := "json"%string; number_as_f64 _ := None |}.
#[local] Instance some_date : EventTime := fun _ => Some "1970-01-01 00:00:00"%string.
#[local] Instance plain_order : MapOrder := fun _ m => map_to_list m.

(** One place in the queue: the third event is dropped, the first is sent twice. *)
Definition steps : list PipelineStep :=
  [Enqueue (event "e1" "a.com" 10); Recv; Enqueue (event "e2" "b.com" 20); Enqueue (event "e3" "a.com" 30);
   Sent (KafkaFailed true); Recv; Sent KafkaAcked].

Definition one_place : Env := fun name => if String.eqb name "KAFKA_QUEUE_CAPACITY" then Some "1"%string else None.

Definition sent_topic : list KafkaRecord := kafka_record <$> [event "e1" "a.com" 10; event "e2" "b.com" 20].

Lemma steps_topic : (pipeline_run steps (pipeline_spawn one_place)).2 = sent_topic.
Proof. reflexivity. Qed.

Definition up : DbInput := {| di_insert := NoFault; di_search := None; di_answer := Ok (200%N, Ok EmptyString) |}.

Definition tick (r : KafkaRecv) : KafkaTick := {| kt_recv := r; kt_now := 0; kt_db := up; kt_commit := CommitDone |}.

Lemma events_reach_the_index_witness :
  exists s, ks_store (ko_state (kafka_run (((fun p => tick (Received p)) <$> topic_log sent_topic) ++ [tick RecvTimeout])
                                  (kafka_start (Sqlite {| ss_max_rows := 2; ss_rows := [] |}) 0 0))) = Sqlite s /\
    "e1"%string ∈ sql_id <$> ss_rows s /\ "e2"%string ∈ sql_id <$> ss_rows s.
Proof.
  pose proof (events_reach_the_index one_place steps 2 (Sqlite {| ss_max_rows := 2; ss_rows := [] |}) 0 []
    ((fun p => tick (Received p)) <$> topic_log sent_topic) (tick RecvTimeout) 0) as H.
  cbv zeta in H. rewrite steps_topic in H.
  destruct H as (s & Hs & _ & Hin); [done|apply history_start|by repeat constructor|reflexivity|done|done|].
  exists s. split_and!; [exact Hs| |].
  - apply (Hin (event "e1" "a.com" 10)); [by left|by left].
  - apply (Hin (event "e2" "b.com" 20)); [right; by left|right; by left].
Defined.

End Demo.
