(* ===== verification/WasmHost.v ===== *)
(** * WebAssembly request hooks (src/proxy/src/wasm_host.rs, src/bsdm-wasm-sdk, src/examples/wasm/rust_plugin)

    The host functions, the evaluation of a hook and its loading.  wasmtime is a parameter:
    compiling gives a module, instantiating may fail, and a function of the module is a
    [Guest], which calls host functions with its memory at hand until it returns or traps
    (running out of fuel is a trap, so every guest ends).  The SDK and the example plugin are
    guests.  The texts of wasmtime's errors are left out where the code appends them. *)

From Stdlib Require Import Ascii String NArith ZArith Lia.
From stdpp Require Import base option gmap strings pretty numbers list.
From S2P Require Import Prelude Utf8 Bytes Http CacheEntry PeerProtocols Devices Effects ProxyService.

Local Open Scope rust_scope.

(** ** Settings *)

Record WasmHookConfig := {
  wc_enabled : bool;
  wc_module_path : option string;
  wc_fuel : N;
  wc_fail_open : bool;
}.

Definition WasmHookConfig_from_env (env : Env) : WasmHookConfig :=
  {| wc_enabled := env_flag_default_off env "WASM_ENABLED";
     wc_module_path := non_empty (trim <$> env "WASM_MODULE_PATH"%string);
     wc_fuel := N.max (env_parse parse_u64 env "WASM_FUEL" 50000%N) 1;
     wc_fail_open :=
       match env "WASM_FAIL_OPEN"%string with
       | Some v => bool_decide (to_ascii_lowercase v ∈ ["1"; "true"; "yes"]%string)
       | None => true
       end |}.

(** ** Requests and decisions *)

Record WasmHookRequest := {
  wr_method : string;
  wr_url : string;
  wr_client_ip : string;
  wr_username : option string;
  wr_headers : gmap string string;
}.

Record WasmHookResponseContext := {
  wp_status : N;
  wp_headers : gmap string string;
}.

Inductive HookDecision :=
| HookAllow (set_headers : gmap string string)
| HookDeny (reason : string).

(** [WasmHookResponseDecision::Continue]. *)
Record HookContinue := {
  hc_set_headers : gmap string string;
}.

Record HostState := {
  hs_request : WasmHookRequest;
  hs_response : option WasmHookResponseContext;
  hs_denied : bool;
  hs_deny_reason : string;
  hs_set_headers : gmap string string;
  hs_set_res_headers : gmap string string;
}.

Definition host_new (request : WasmHookRequest) (response : option WasmHookResponseContext) : HostState :=
  {| hs_request := request; hs_response := response; hs_denied := false; hs_deny_reason := EmptyString;
     hs_set_headers := ∅; hs_set_res_headers := ∅ |}.

Definition host_deny (reason : string) (h : HostState) : HostState :=
  {| hs_request := hs_request h; hs_response := hs_response h; hs_denied := true; hs_deny_reason := reason;
     hs_set_headers := hs_set_headers h; hs_set_res_headers := hs_set_res_headers h |}.

Definition host_set_header (name value : string) (h : HostState) : HostState :=
  {| hs_request := hs_request h; hs_response := hs_response h; hs_denied := hs_denied h; hs_deny_reason := hs_deny_reason h;
     hs_set_headers := <[to_ascii_lowercase name := value]> (hs_set_headers h); hs_set_res_headers := hs_set_res_headers h |}.

Definition host_set_res_header (name value : string) (h : HostState) : HostState :=
  {| hs_request := hs_request h; hs_response := hs_response h; hs_denied := hs_denied h; hs_deny_reason := hs_deny_reason h;
     hs_set_headers := hs_set_headers h;
     hs_set_res_headers := <[to_ascii_lowercase name := value]> (hs_set_res_headers h) |}.

(** ** The guest's memory *)

(** The bytes of the exported memory, if there is one. *)
Abbreviation Memory := (option string).

Definition read_guest_str (mem : Memory) (ptr len : Z) : result string string :=
  if (ptr <? 0)%Z || (len <? 0)%Z then Err "invalid ptr/len"%string
  else
    match mem with
    | None => Err "missing memory export"%string
    | Some data =>
        if (ptr + len <=? Z.of_nat (String.length data))%Z then
          match from_utf8 (str_take (Z.to_nat len) (str_drop (Z.to_nat ptr) data)) with
          | Some s => Ok s
          | None => Err "utf8"%string
          end
        else Err "guest string OOB"%string
    end.

Definition write_guest_str (mem : Memory) (ptr max_len : Z) (val : string) : Memory * Z :=
  if (ptr <? 0)%Z || (max_len <? 0)%Z then (mem, -1)%Z
  else
    match mem with
    | None => (mem, -1)%Z
    | Some data =>
        let to_write := Nat.min (String.length val) (Z.to_nat max_len) in
        let p := Z.to_nat ptr in
        if p + to_write <=? String.length data then
          (Some (str_take p data +:+ str_take to_write val +:+ str_drop (p + to_write) data), Z.of_nat to_write)
        else (mem, -1)%Z
    end.

(** ** The host functions *)

Inductive HostCall :=
| UrlContains (ptr len : Z)
| MethodEq (ptr len : Z)
| SetRequestHeader (np nl vp vl : Z)
| Deny (ptr len : Z)
| GetRequestHeader (np nl optr omax : Z)
| GetClientIp (optr omax : Z)
| GetUsername (optr omax : Z)
| SetResponseHeader (np nl vp vl : Z)
| GetResponseStatus.

Definition bool_i32 (b : bool) : Z := if b then 1 else 0.

(** A function without a result returns 0 here. *)
Definition host_call (h : HostState) (mem : Memory) (c : HostCall) : HostState * Memory * Z :=
  match c with
  | UrlContains ptr len =>
      (h, mem, match read_guest_str mem ptr len with
               | Ok needle => bool_i32 (str_contains (wr_url (hs_request h)) needle)
               | Err _ => 0%Z
               end)
  | MethodEq ptr len =>
      (h, mem, match read_guest_str mem ptr len with
               | Ok needle => bool_i32 (eq_ignore_ascii_case (wr_method (hs_request h)) (trim needle))
               | Err _ => 0%Z
               end)
  | SetRequestHeader np nl vp vl =>
      match read_guest_str mem np nl, read_guest_str mem vp vl with
      | Ok name, Ok value => (if str_is_empty name then h else host_set_header name value h, mem, 0%Z)
      | _, _ => (h, mem, 0%Z)
      end
  | Deny ptr len =>
      (host_deny match read_guest_str mem ptr len with Ok reason => reason | Err _ => EmptyString end h, mem, 0%Z)
  | GetRequestHeader np nl optr omax =>
      match read_guest_str mem np nl with
      | Ok name =>
          let '(mem, n) := write_guest_str mem optr omax
                             (default EmptyString (wr_headers (hs_request h) !! to_ascii_lowercase name)) in
          (h, mem, n)
      | Err _ => (h, mem, (-1)%Z)
      end
  | GetClientIp optr omax =>
      let '(mem, n) := write_guest_str mem optr omax (wr_client_ip (hs_request h)) in (h, mem, n)
  | GetUsername optr omax =>
      let '(mem, n) := write_guest_str mem optr omax (default EmptyString (wr_username (hs_request h))) in (h, mem, n)
  | SetResponseHeader np nl vp vl =>
      match read_guest_str mem np nl, read_guest_str mem vp vl with
      | Ok name, Ok value => (if str_is_empty name then h else host_set_res_header name value h, mem, 0%Z)
      | _, _ => (h, mem, 0%Z)
      end
  | GetResponseStatus => (h, mem, match hs_response h with Some r => Z.of_N (wp_status r) | None => (-1)%Z end)
  end.

(** ** Guests *)

Inductive Guest :=
| GReturn
| GTrap (e : string)
| GCall (mem : Memory) (c : HostCall) (k : Z -> Memory -> Guest).

Fixpoint run_guest (g : Guest) (h : HostState) : result HostState string :=
  match g with
  | GReturn => Ok h
  | GTrap e => Err e
  | GCall mem c k => let '(h, mem, n) := host_call h mem c in run_guest (k n mem) h
  end.

(** The type of an exported function: the numbers of its parameters and results. *)
Record FuncType := {
  ft_params : nat;
  ft_results : nat;
}.

(** A compiled module: what instantiating it gives, and its functions for an amount of
    fuel. *)
Record WasmModule := {
  mod_instantiate : N -> result unit string;
  mod_export : string -> option (FuncType * (N -> Guest));
}.

(** The engine, the compiler and the file system. *)
Class Wasmtime := {
  engine_new : result unit string;
  module_new : string -> result WasmModule string;
}.

Record WasmHookEngine := {
  we_module : WasmModule;
  we_fuel : N;
  we_fail_open : bool;
}.

(** [get_typed_func::<(), ()>]: the export must exist with that type. *)
Definition get_typed_func (m : WasmModule) (name : string) : option (N -> Guest) :=
  match mod_export m name with
  | Some (ft, f) => if (ft_params ft =? 0) && (ft_results ft =? 0) then Some f else None
  | None => None
  end.

Definition prefix_err {A} (prefix : string) (r : result A string) : result A string :=
  match r with Ok a => Ok a | Err e => Err (prefix +:+ e) end.

Definition evaluate (e : WasmHookEngine) (request : WasmHookRequest) : result HookDecision string :=
  let? _ := prefix_err "instantiate: " (mod_instantiate (we_module e) (we_fuel e)) in
  match get_typed_func (we_module e) "on_request" with
  | None => Err "export on_request"%string
  | Some f =>
      let? host := prefix_err "on_request trap: " (run_guest (f (we_fuel e)) (host_new request None)) in
      Ok (if hs_denied host
          then HookDeny (if str_is_empty (hs_deny_reason host) then "wasm deny" else hs_deny_reason host)
          else HookAllow (hs_set_headers host))
  end.

Definition evaluate_response (e : WasmHookEngine) (request : WasmHookRequest) (response : WasmHookResponseContext)
    : result HookContinue string :=
  let? _ := prefix_err "instantiate: " (mod_instantiate (we_module e) (we_fuel e)) in
  let host := host_new request (Some response) in
  let? host :=
    match get_typed_func (we_module e) "on_response" with
    | Some f => prefix_err "on_response trap: " (run_guest (f (we_fuel e)) host)
    | None => Ok host
    end in
  Ok {| hc_set_headers := hs_set_res_headers host |}.

(** ** Loading *)

Section load.
Context {WT : Wasmtime} (read_file : string -> result string string).

Definition looks_like_wat (bytes : string) : bool :=
  let t := trim_start (from_utf8_lossy bytes) in starts_with t "(module" || starts_with t ";;".

(** [Path::extension] is [wat]: the part of the file name after its last dot, which is not
    its first character. *)
Definition wat_extension (path : string) : bool :=
  match rsplit_once "." (List.last (split_on "/" (trim_end_matches "/" path)) EmptyString) with
  | Some (stem, ext) => negb (str_is_empty stem) && String.eqb ext "wat"
  | None => false
  end.

Definition compile_module (label bytes : string) : result WasmModule string :=
  let? _ := prefix_err "wasm engine: " engine_new in
  if wat_extension label || looks_like_wat bytes then prefix_err "compile wat: " (module_new bytes)
  else prefix_err "compile wasm: " (module_new bytes).

Definition load_bytes (bytes label : string) (fuel : N) (fail_open : bool) : result WasmHookEngine string :=
  let? m := compile_module label bytes in
  Ok {| we_module := m; we_fuel := N.max fuel 1; we_fail_open := fail_open |}.

Definition load_path (path : string) (fuel : N) (fail_open : bool) : result WasmHookEngine string :=
  let? bytes := prefix_err ("read " +:+ path +:+ ": ") (read_file path) in
  load_bytes bytes path fuel fail_open.

Definition engine_from_config (c : WasmHookConfig) : result (option WasmHookEngine) string :=
  if negb (wc_enabled c) then Ok None
  else
    match wc_module_path c with
    | None => Err "WASM_MODULE_PATH required when WASM_ENABLED=true"%string
    | Some path => let? e := load_path path (wc_fuel c) (wc_fail_open c) in Ok (Some e)
    end.

(** What cannot be loaded is disabled, whatever the setting for failures says. *)
Definition try_load_from_env (env : Env) : option WasmHookEngine :=
  match engine_from_config (WasmHookConfig_from_env env) with Ok e => e | Err _ => None end.

(** Fuel and policy stay; without a path nothing happens. *)
Definition engine_reload (env : Env) (e : WasmHookEngine) : WasmHookEngine * result unit string :=
  match env "WASM_MODULE_PATH"%string with
  | None => (e, Ok tt)
  | Some cfg_path =>
      let path := trim cfg_path in
      if str_is_empty path then (e, Ok tt)
      else
        match (let? bytes := prefix_err ("read " +:+ path +:+ ": ") (read_file path) in compile_module path bytes) with
        | Ok m => ({| we_module := m; we_fuel := we_fuel e; we_fail_open := we_fail_open e |}, Ok tt)
        | Err err => (e, Err err)
        end
  end.

End load.

(** ** The hooks of proxy_service.rs *)

Section hooks.
Context {HT : HeaderText} {MO : MapOrder}.

(** The headers a guest may see: those whose value is text, the last value of a name. *)
Definition hook_headers (headers : HeaderMap) : gmap string string :=
  foldl (fun m '(k, v) => match hv_to_str v with Some s => <[to_ascii_lowercase k := s]> m | None => m end) ∅ headers.

(** The answer to the command by which [run_wasm_hook] asks its engine. *)
Definition wasm_answer (e : WasmHookEngine) (method url client_ip : string) (username : option string) (headers : HeaderMap)
    : result WasmHookDecision string :=
  let? d := evaluate e {| wr_method := method; wr_url := url; wr_client_ip := client_ip; wr_username := username;
                          wr_headers := hook_headers headers |} in
  Ok match d with
     | HookAllow set_headers => WasmAllow (map_listing set_headers)
     | HookDeny reason => WasmDeny reason
     end.

(** The response goes on in any case; a hook that fails changes nothing. *)
Definition run_wasm_hook_response {HC : HeaderCodec} (hook : option WasmHookEngine) (method url client_ip : string)
    (username : option string) (req_headers : HeaderMap) (resp_status : N) (resp_headers : HeaderMap) : HeaderMap :=
  match hook with
  | None => resp_headers
  | Some e =>
      match evaluate_response e
              {| wr_method := method; wr_url := url; wr_client_ip := client_ip; wr_username := username;
                 wr_headers := hook_headers req_headers |}
              {| wp_status := resp_status; wp_headers := hook_headers resp_headers |} with
      | Err _ => resp_headers
      | Ok c => foldl hm_insert resp_headers (map_listing (hc_set_headers c))
      end
  end.

End hooks.

(** ** The guests of the repository *)

(** *** The SDK *)

(** [at_ s] is where the guest's memory holds the text [s]; a buffer for answers lies at
    [optr]. *)
Section sdk.
Context (at_ : string -> Z).

Definition len_ (s : string) : Z := Z.of_nat (String.length s).

Definition sdk_request_url_contains (mem : Memory) (needle : string) (k : bool -> Memory -> Guest) : Guest :=
  GCall mem (UrlContains (at_ needle) (len_ needle)) (fun n mem => k (n =? 1)%Z mem).

Definition sdk_request_method_eq (mem : Memory) (method : string) (k : bool -> Memory -> Guest) : Guest :=
  GCall mem (MethodEq (at_ method) (len_ method)) (fun n mem => k (n =? 1)%Z mem).

Definition sdk_set_req_header (mem : Memory) (name value : string) (k : Memory -> Guest) : Guest :=
  GCall mem (SetRequestHeader (at_ name) (len_ name) (at_ value) (len_ value)) (fun _ mem => k mem).

Definition sdk_set_res_header (mem : Memory) (name value : string) (k : Memory -> Guest) : Guest :=
  GCall mem (SetResponseHeader (at_ name) (len_ name) (at_ value) (len_ value)) (fun _ mem => k mem).

Definition sdk_deny_request (mem : Memory) (reason : string) (k : Memory -> Guest) : Guest :=
  GCall mem (Deny (at_ reason) (len_ reason)) (fun _ mem => k mem).

Definition host_read_str (reader : Z -> Z -> HostCall) (mem : Memory) (optr : Z) (k : option string -> Memory -> Guest) : Guest :=
  GCall mem (reader optr 1024%Z) (fun written mem =>
    if (written <? 0)%Z then k None mem
    else if (1024 <? written)%Z then k None mem
    else k (data ← mem; from_utf8 (str_take (Z.to_nat written) (str_drop (Z.to_nat optr) data))) mem).

Definition sdk_get_req_header (mem : Memory) (name : string) (optr : Z) : (option string -> Memory -> Guest) -> Guest :=
  host_read_str (GetRequestHeader (at_ name) (len_ name)) mem optr.

Definition sdk_get_client_ip_addr (mem : Memory) (optr : Z) : (option string -> Memory -> Guest) -> Guest :=
  host_read_str GetClientIp mem optr.

Definition sdk_get_authenticated_username (mem : Memory) (optr : Z) : (option string -> Memory -> Guest) -> Guest :=
  host_read_str GetUsername mem optr.

Definition sdk_get_res_status (mem : Memory) (k : option N -> Memory -> Guest) : Guest :=
  GCall mem GetResponseStatus (fun status mem => k (if (0 <? status)%Z then Some (Z.to_N status) else None) mem).

(** *** The example plugin: both of its exports return a number *)

Definition plugin_on_request (mem : Memory) (optr : Z) : Guest :=
  let allow mem := sdk_set_req_header mem "X-Wasm-Processed" "true" (fun _ => GReturn) in
  sdk_get_req_header mem "user-agent" optr (fun ua mem =>
    match ua with
    | Some ua =>
        if str_contains ua "BadBot" then sdk_deny_request mem "Blocked by BadBot WASM filter" (fun _ => GReturn) else allow mem
    | None => allow mem
    end).

Definition plugin_on_response (mem : Memory) : Guest :=
  sdk_get_res_status mem (fun status mem =>
    sdk_set_res_header mem "X-Wasm-Response-Hook" "active" (fun mem =>
      if (default 0 status =? 404)%N then sdk_set_res_header mem "X-Wasm-Oops" "not-found" (fun _ => GReturn) else GReturn)).

Definition example_plugin (mem : Memory) (optr : Z) : WasmModule :=
  {| mod_instantiate _ := Ok tt;
     mod_export name :=
       if String.eqb name "on_request" then Some ({| ft_params := 0; ft_results := 1 |}, fun _ => plugin_on_request mem optr)
       else if String.eqb name "on_response" then Some ({| ft_params := 0; ft_results := 1 |}, fun _ => plugin_on_response mem)
       else None |}.

End sdk.

(** *** [POC_DENY_SUFFIX_WAT]: its data segments and its function *)

Definition nul (n : nat) : string := Nat.iter n (String (ascii_of_N 0)) EmptyString.

Definition poc_data : string :=
  ".blocked.test" +:+ nul 3 +:+ "blocked by wasm PoC" +:+ nul 13 +:+ "x-wasm-hook" +:+ nul 5 +:+ "allow".

Definition poc_on_request (mem : Memory) : Guest :=
  GCall mem (UrlContains 0 13) (fun n mem =>
    if (n =? 0)%Z then GCall mem (SetRequestHeader 48 11 64 5) (fun _ _ => GReturn)
    else GCall mem (Deny 16 19) (fun _ _ => GReturn)).

Definition poc_module (rest : string) : WasmModule :=
  {| mod_instantiate _ := Ok tt;
     mod_export name :=
       if String.eqb name "on_request"
       then Some ({| ft_params := 0; ft_results := 0 |}, fun _ => poc_on_request (Some (poc_data +:+ rest)))
       else None |}.

(** ** What a guest can do *)

(** A table of headers a guest asked for: no empty names, names in lower case, values that
    are UTF-8. *)
Definition headers_ok (m : gmap string string) : Prop :=
  map_Forall (fun k v => k <> EmptyString /\ to_ascii_lowercase k = k /\ utf8_valid v = true) m.

Record host_ok (h0 h : HostState) : Prop := {
  ho_request : hs_request h = hs_request h0;
  ho_response : hs_response h = hs_response h0;
  ho_reason : utf8_valid (hs_deny_reason h) = true;
  ho_headers : headers_ok (hs_set_headers h);
  ho_res_headers : headers_ok (hs_set_res_headers h);
}.

Lemma read_guest_utf8 mem ptr len s : read_guest_str mem ptr len = Ok s -> utf8_valid s = true.
Proof.
  unfold read_guest_str. destruct (_ || _); [done|]. destruct mem; [|done]. destruct (_ <=? _)%Z; [|done].
  unfold from_utf8. destruct (utf8_valid _) eqn:E; [|done]. by intros [= <-].
Qed.

Lemma headers_ok_insert name value m :
  str_is_empty name = false -> utf8_valid value = true -> headers_ok m -> headers_ok (<[to_ascii_lowercase name := value]> m).
Proof.
  intros Hn Hv Hm. apply map_Forall_insert_2; [|done]. split_and!; [|apply to_ascii_lowercase_idemp|done].
  by destruct name.
Qed.

Lemma host_call_ok h0 h mem c : host_ok h0 h -> host_ok h0 (host_call h mem c).1.1.
Proof.
  intros [Hr Hp Hd Hh Hs]. destruct c; cbn [host_call]; try done.
  - destruct (read_guest_str mem np nl) as [name|] eqn:?; [|done]. destruct (read_guest_str mem vp vl) as [value|] eqn:Hv; [|done].
    apply read_guest_utf8 in Hv. cbn [fst]. destruct (str_is_empty name) eqn:?; [done|]. split; try done. by apply headers_ok_insert.
  - split; try done. cbn. destruct (read_guest_str mem ptr len) eqn:Hl; [by eapply read_guest_utf8|done].
  - destruct (read_guest_str mem np nl); [|done]. by destruct (write_guest_str _ _ _ _).
  - by destruct (write_guest_str _ _ _ _).
  - by destruct (write_guest_str _ _ _ _).
  - destruct (read_guest_str mem np nl) as [name|] eqn:?; [|done]. destruct (read_guest_str mem vp vl) as [value|] eqn:Hv; [|done].
    apply read_guest_utf8 in Hv. cbn [fst]. destruct (str_is_empty name) eqn:?; [done|]. split; try done. by apply headers_ok_insert.
Qed.

Lemma run_guest_ok g h0 h h' : host_ok h0 h -> run_guest g h = Ok h' -> host_ok h0 h'.
Proof.
  revert h. induction g as [|e|mem c k IH]; intros h Hh; cbn [run_guest]; [by intros [= <-]|done|].
  pose proof (host_call_ok h0 h mem c Hh) as Hc. destruct (host_call h mem c) as [[h1 mem1] n]. by apply IH.
Qed.

Lemma host_new_ok request response : host_ok (host_new request response) (host_new request response).
Proof. split; try done; apply map_Forall_empty. Qed.

(** The host writes only where the guest said, and only as much as it said. *)
Lemma write_guest_confined data ptr max val :
  let '(mem, n) := write_guest_str (Some data) ptr max val in
  exists data', mem = Some data' /\ String.length data' = String.length data /\
  (n = (-1)%Z /\ data' = data \/
   (0 <= n <= max)%Z /\ str_take (Z.to_nat ptr) data' = str_take (Z.to_nat ptr) data /\
   str_drop (Z.to_nat ptr + Z.to_nat n) data' = str_drop (Z.to_nat ptr + Z.to_nat n) data /\
   str_take (Z.to_nat n) (str_drop (Z.to_nat ptr) data') = str_take (Z.to_nat n) val).
Proof.
  unfold write_guest_str. destruct (_ || _) eqn:Hneg; [exists data; auto|].
  apply Bool.orb_false_iff in Hneg as [Hp%Z.ltb_ge Hm%Z.ltb_ge].
  set (n := Nat.min _ _). set (p := Z.to_nat ptr). destruct (Nat.leb_spec (p + n) (String.length data)) as [Hle|]; [|exists data; auto].
  eexists. split; [done|].
  assert (Htp : String.length (str_take p data) = p) by (rewrite str_take_length; lia).
  assert (Htn : String.length (str_take n val) = n) by (rewrite str_take_length; subst n; lia).
  split; [rewrite !string_length_app, str_drop_length; lia|]. right. rewrite Nat2Z.id. split; [subst n; lia|].
  rewrite str_take_app by done. split; [done|]. split.
  - rewrite <- string_app_assoc. apply str_drop_app. rewrite string_length_app. lia.
  - rewrite str_drop_app by done. by apply str_take_app.
Qed.


(** ** The guests *)

Lemma read_guest_prefix (a s b : string) :
  utf8_valid s = true ->
  read_guest_str (Some (a +:+ s +:+ b)) (Z.of_nat (String.length a)) (Z.of_nat (String.length s)) = Ok s.
Proof.
  intros Hs. unfold read_guest_str. rewrite !Nat2Z.id, !string_length_app, str_drop_app, str_take_app by done.
  destruct (Z.ltb_spec (Z.of_nat (String.length a)) 0); [lia|]. destruct (Z.ltb_spec (Z.of_nat (String.length s)) 0); [lia|].
  destruct (Z.leb_spec (Z.of_nat (String.length a) + Z.of_nat (String.length s))
              (Z.of_nat (String.length a + (String.length s + String.length b)))); [|lia].
  unfold from_utf8. by rewrite Hs.
Qed.

(** The example filter denies exactly what it says: the urls that contain
    [.blocked.test], with its reason; every other request is allowed with its marker. *)
Theorem poc_denies_exactly (rest : string) (fuel : N) (fail_open : bool) (request : WasmHookRequest) :
  evaluate {| we_module := poc_module rest; we_fuel := fuel; we_fail_open := fail_open |} request =
  Ok (if str_contains (wr_url request) ".blocked.test" then HookDeny "blocked by wasm PoC"
      else HookAllow {[ "x-wasm-hook"%string := "allow"%string ]}).
Proof.
  pose (mem := Some (poc_data +:+ rest)).
  assert (H1 : read_guest_str mem 0 13 = Ok ".blocked.test"%string) by exact (read_guest_prefix EmptyString ".blocked.test" (str_drop 13 poc_data +:+ rest) eq_refl).
  assert (H2 : read_guest_str mem 16 19 = Ok "blocked by wasm PoC"%string)
    by exact (read_guest_prefix (".blocked.test" +:+ nul 3) "blocked by wasm PoC" (str_drop 35 poc_data +:+ rest) eq_refl).
  assert (H3 : read_guest_str mem 48 11 = Ok "x-wasm-hook"%string)
    by exact (read_guest_prefix (".blocked.test" +:+ nul 3 +:+ "blocked by wasm PoC" +:+ nul 13) "x-wasm-hook" (str_drop 59 poc_data +:+ rest) eq_refl).
  assert (H4 : read_guest_str mem 64 5 = Ok "allow"%string)
    by exact (read_guest_prefix (".blocked.test" +:+ nul 3 +:+ "blocked by wasm PoC" +:+ nul 13 +:+ "x-wasm-hook" +:+ nul 5) "allow" rest eq_refl).
  unfold evaluate. cbn [we_module poc_module mod_instantiate prefix_err res_bind].
  change (get_typed_func (poc_module rest) "on_request") with (Some (fun _ : N => poc_on_request mem)).
  unfold poc_on_request. cbn [run_guest host_call]. rewrite H1. cbn [hs_request host_new].
  destruct (str_contains (wr_url request) ".blocked.test"); cbn [bool_i32 Z.eqb run_guest host_call]; rewrite ?H2, ?H3, ?H4; done.
Qed.

(** The example plugin never runs: the host asks for an export without result and the
    plugin's return one.  With the default setting every request is let through. *)
Lemma example_plugin_never_runs at_ mem optr fuel fail_open request :
  evaluate {| we_module := example_plugin at_ mem optr; we_fuel := fuel; we_fail_open := fail_open |} request =
  Err "export on_request"%string.
Proof. done. Qed.

Lemma example_plugin_response_ignored at_ mem optr fuel fail_open request response :
  evaluate_response {| we_module := example_plugin at_ mem optr; we_fuel := fuel; we_fail_open := fail_open |} request response =
  Ok {| hc_set_headers := ∅ |}.
Proof. done. Qed.

(** What the SDK gives for a header: the first 1024 bytes of its value, if they are UTF-8,
    and the empty text for a header that is not there. *)
Lemma sdk_get_req_header_spec at_ data name optr k h :
  read_guest_str (Some data) (at_ name) (len_ name) = Ok name ->
  (0 <= optr)%Z -> (optr + 1024 <= Z.of_nat (String.length data))%Z ->
  let value := default EmptyString (wr_headers (hs_request h) !! to_ascii_lowercase name) in
  exists data', run_guest (sdk_get_req_header at_ (Some data) name optr k) h =
                run_guest (k (from_utf8 (str_take 1024 value)) (Some data')) h.
Proof.
  intros Hn Ho Hroom value. unfold sdk_get_req_header, host_read_str. cbn [run_guest host_call]. rewrite Hn. fold value.
  pose proof (write_guest_confined data optr 1024 value) as Hw.
  assert (Hok : (write_guest_str (Some data) optr 1024 value).2 = Z.of_nat (Nat.min (String.length value) 1024)).
  { unfold write_guest_str. destruct (Z.ltb_spec optr 0); [lia|]. cbn [orb]. change (1024 <? 0)%Z with false.
    change (Z.to_nat 1024) with 1024. cbv iota. destruct (Nat.leb_spec (Z.to_nat optr + Nat.min (String.length value) 1024) (String.length data)); [done|lia]. }
  destruct (write_guest_str (Some data) optr 1024 value) as [mem n]. cbn [snd] in Hok. subst n.
  destruct Hw as (data' & -> & _ & [[Hneg _]|(_ & _ & _ & Hread)]); [lia|]. exists data'.
  rewrite Nat2Z.id in *. destruct (Z.ltb_spec (Z.of_nat (Nat.min (String.length value) 1024)) 0); [lia|].
  destruct (Z.ltb_spec 1024 (Z.of_nat (Nat.min (String.length value) 1024))); [lia|].
  cbn [mbind option_bind]. rewrite Hread. do 3 f_equal.
  destruct (Nat.min_spec (String.length value) 1024) as [[Hlt ->]|[Hge ->]]; [|done].
  rewrite str_take_all. symmetry. apply str_take_le. lia.
Qed.

(** ** Failing open *)

(** A module that cannot be loaded is no hook at all, also where failures are to
    close: with [WASM_FAIL_OPEN=false] a missing or broken module lets every request pass,
    while the same setting refuses every request once a module traps. *)
Theorem wasm_load_fails_open {WT : Wasmtime} (read_file : string -> result string string) (env : Env) (path e : string) :
  wc_enabled (WasmHookConfig_from_env env) = true -> wc_fail_open (WasmHookConfig_from_env env) = false ->
  wc_module_path (WasmHookConfig_from_env env) = Some path -> read_file path = Err e ->
  try_load_from_env read_file env = None.
Proof.
  intros He _ Hp Hr. unfold try_load_from_env, engine_from_config. rewrite He, Hp. cbn [negb]. unfold load_path. by rewrite Hr.
Qed.
