(* ===== verification/SspiAuth.v ===== *)
(** * Backends of proxy authentication (src/proxy/src/auth_config.rs, src/proxy/src/auth_sspi.rs)

    The settings of authentication, and the engine of NTLM and Kerberos handshakes: the
    helper program, the steps of the sspi crate, the keytab and the users file.  The
    engine is an instance of the interface [SspiEngine] that Auth is proved against.

    The sspi and keytab crates are the class [Sspi]; what the helper program does and the
    contents of files are arguments; the features of the build are a record. *)

From Stdlib Require Import Ascii String NArith Lia.
From stdpp Require Import base option gmap sets strings pretty numbers list.
From S2P Require Import Prelude Http Utf8 CacheDigest AclApi Auth.

Local Open Scope rust_scope.

(** ** Settings (auth_config.rs) *)

Record Features := {
  ft_ldap : bool;
  ft_ntlm : bool;
  ft_kerberos : bool;
}.

Definition auth_env_flag (env : Env) (name : string) : bool :=
  match env name with
  | Some v => bool_decide (to_ascii_lowercase v ∈ ["1"; "true"; "yes"]%string)
  | None => false
  end.

(** A backend that is not known or not built in is [Basic]. *)
Definition parse_backend (f : Features) (value : string) : AuthBackend :=
  let v := to_ascii_lowercase value in
  if String.eqb v "ldap" then if ft_ldap f then Ldap else Basic
  else if String.eqb v "ntlm" then if ft_ntlm f then Ntlm else Basic
  else if String.eqb v "kerberos" || String.eqb v "negotiate" then if ft_kerberos f then Kerberos else Basic
  else Basic.

Definition read_ldap_settings_from_env (env : Env) (group_enrichment : bool) : LdapConfig :=
  {| ld_servers :=
       List.filter (fun s => negb (str_is_empty s))
         (trim <$> split_on "," (default "ldap://localhost:389"%string (env "LDAP_SERVERS"%string)));
     ld_base_dn := default "dc=example,dc=com"%string (env "LDAP_BASE_DN"%string);
     ld_bind_dn := env "LDAP_BIND_DN"%string;
     ld_bind_password := env "LDAP_BIND_PASSWORD"%string;
     ld_user_filter := default "(sAMAccountName={username})"%string (env "LDAP_USER_FILTER"%string);
     ld_group_filter := Some (default "(member={user_dn})"%string (env "LDAP_GROUP_FILTER"%string));
     ld_timeout := from_secs (env_parse parse_u64 env "LDAP_TIMEOUT" 5%N);
     ld_use_tls := auth_env_flag env "LDAP_USE_TLS";
     ld_group_enrichment := group_enrichment |}.

Definition is_sso_backend (f : Features) (backend : AuthBackend) : bool :=
  match backend with Ntlm => ft_ntlm f | Kerberos => ft_kerberos f | _ => false end.

Definition load_ldap_config (f : Features) (env : Env) (enabled : bool) (backend : AuthBackend) : option LdapConfig :=
  if negb enabled then None
  else if bool_decide (backend = Ldap) then Some (read_ldap_settings_from_env env false)
  else if is_sso_backend f backend && env_flag_default_on env "LDAP_GROUP_ENRICHMENT"
          && bool_decide (is_Some (env "LDAP_SERVERS"%string))
  then Some (read_ldap_settings_from_env env true)
  else None.

Definition load_ntlm_config (env : Env) : NtlmConfig :=
  {| nt_domain := default "WORKGROUP"%string (env "NTLM_DOMAIN"%string);
     nt_workstation := env "NTLM_WORKSTATION"%string;
     nt_helper_command := env "NTLM_AUTH_HELPER"%string;
     nt_candidate_users_file := env "NTLM_USERS_FILE"%string |}.

Definition load_kerberos_config (env : Env) : KerberosConfig :=
  let hostname :=
    default "localhost"%string
      match env "KRB5_HOSTNAME"%string with Some h => Some h | None => env "HOSTNAME"%string end in
  {| kb_keytab_path := default "/etc/krb5.keytab"%string (env "KRB5_KEYTAB"%string);
     kb_service_principal := default ("HTTP/" +:+ hostname +:+ "@EXAMPLE.COM") (env "KRB5_SERVICE_PRINCIPAL"%string);
     kb_kdc_url := env "KRB5_KDC_URL"%string;
     kb_hostname := hostname;
     kb_max_time_skew := from_secs (env_parse parse_u64 env "KRB5_MAX_TIME_SKEW_SECONDS" 300%N) |}.

(** A field of a feature that is not built in is [None]. *)
Definition load_auth_config (f : Features) (env : Env) : AuthConfig :=
  let enabled := auth_env_flag env "AUTH_ENABLED" in
  let backend := match env "AUTH_BACKEND"%string with Some v => parse_backend f v | None => Basic end in
  {| au_enabled := enabled;
     au_backend := backend;
     au_realm := default "BSDM-Proxy"%string (env "AUTH_REALM"%string);
     au_cache_ttl := from_secs (env_parse parse_u64 env "AUTH_CACHE_TTL" 300%N);
     au_conn_cache_ttl := from_secs (env_parse parse_u64 env "AUTH_CONN_CACHE_TTL_SECONDS" 300%N);
     au_basic_users_file := env "BASIC_AUTH_USERS_FILE"%string;
     au_ldap := if ft_ldap f then load_ldap_config f env enabled backend else None;
     au_ntlm := if ft_ntlm f && enabled && bool_decide (backend = Ntlm) then Some (load_ntlm_config env) else None;
     au_kerberos := if ft_kerberos f && enabled && bool_decide (backend = Kerberos) then Some (load_kerberos_config env) else None |}.

(** ** The crates *)

Inductive SecurityStatus :=
| StatusOk
| StatusContinueNeeded
| StatusCompleteNeeded
| StatusCompleteAndContinue
| StatusOther (text : string).

Record KeytabEntry := {
  ke_components : list string;
  ke_key : string;
}.

Class Sspi := {
  SspiContext : Type;
  AuthIdentity : Type;
  Username : Type;
  ServerProperties : Type;
  username_parse : string -> result Username string;
  account_name : Username -> string;
  domain_name : Username -> option string;
  identity : Username -> string -> AuthIdentity;
  (** [Keytab::parse], [ServerProperties::new] and [add_service_key]. *)
  keytab_parse : string -> result (list KeytabEntry) string;
  server_properties_new : list string -> N -> string -> result ServerProperties string;
  add_service_key : ServerProperties -> list string -> string -> result ServerProperties string;
  (** Contexts: NTLM alone, and [Negotiate::new_server] for NTLM and for Kerberos. *)
  ntlm_context : option string -> SspiContext;
  negotiate_ntlm : option string -> string -> list AuthIdentity -> result SspiContext string;
  negotiate_kerberos : option string -> string -> ServerProperties -> result SspiContext string;
  (** The output buffers come with the status. *)
  accept_security_context : SspiContext -> string -> SspiContext * result (SecurityStatus * list string) string;
  complete_auth_token : SspiContext -> list string -> SspiContext * result (list string) string;
  query_context_names : SspiContext -> result Username string;
  status_debug : SecurityStatus -> string;
}.

(** How a run of the helper program ends. *)
Inductive HelperRun :=
| SpawnFailed (e : string)
| WriteFailed (e : string)
| WaitFailed (e : string)
| Ended (success : bool) (status stdout stderr : string).

(** The program with its arguments and what is written to it. *)
Class NtlmHelper := run_helper : string -> list string -> string -> HelperRun.

(** ** The engine (auth_sspi.rs) *)

Section engine.
Context {SP : Sspi} {NH : NtlmHelper} {B64 : Base64}.

Record NtlmAuthConfig := {
  na_domain : string;
  na_workstation : option string;
  na_helper_command : option string;
  na_candidate_identities : list AuthIdentity;
}.

Inductive SspiBackendConfig :=
| BackendNtlm (cfg : NtlmAuthConfig)
| BackendKerberos (cfg : KerberosConfig).

Record SspiHandshake := {
  sh_context : SspiContext;
  sh_ntlm_helper : option string;
}.

Definition scheme (config : SspiBackendConfig) : string :=
  match config with BackendNtlm _ => "NTLM" | BackendKerberos _ => "Negotiate" end.

Definition parse_service_principal (spn : string) : result (string * string * string) string :=
  match split_once "@" spn with
  | None => Err ("invalid service principal (missing @realm): " +:+ spn)
  | Some (name, realm) =>
      match split_once "/" name with
      | None => Err ("invalid service principal (missing /): " +:+ spn)
      | Some (service_type, host) => Ok (service_type, host, realm)
      end
  end.

Definition keytab_entry_spn (entry : KeytabEntry) : string := join "/" (from_utf8_lossy <$> ke_components entry).

(** The loop over the entries. *)
Fixpoint keytab_loop (service_type service_host service_principal : string) (skew : N) (entries : list KeytabEntry)
    (server_properties : option ServerProperties) : result (option ServerProperties) string :=
  match entries with
  | [] => Ok server_properties
  | entry :: entries =>
      let entry_spn := keytab_entry_spn entry in
      if eq_ignore_ascii_case entry_spn (service_type +:+ "/" +:+ service_host)
         || eq_ignore_ascii_case entry_spn service_principal
      then
        match server_properties_new [service_type; service_host] skew (ke_key entry) with
        | Err e => Err ("ServerProperties::new: " +:+ e)
        | Ok props => Ok (Some props)
        end
      else
        match server_properties, split_once "/" entry_spn with
        | Some props, Some (stype, shost) =>
            match add_service_key props [stype; shost] (ke_key entry) with
            | Err e => Err ("add_service_key: " +:+ e)
            | Ok props => keytab_loop service_type service_host service_principal skew entries (Some props)
            end
        | _, _ => keytab_loop service_type service_host service_principal skew entries server_properties
        end
  end.

Definition load_kerberos_server_config (read_file : string -> result string string) (cfg : KerberosConfig)
    : result ServerProperties string :=
  match read_file (kb_keytab_path cfg) with
  | Err e => Err ("read keytab " +:+ kb_keytab_path cfg +:+ ": " +:+ e)
  | Ok data =>
      match keytab_parse data with
      | Err e => Err ("parse keytab: " +:+ e)
      | Ok entries =>
          let? spn := parse_service_principal (kb_service_principal cfg) in
          let? props := keytab_loop spn.1.1 spn.1.2 (kb_service_principal cfg) (kb_max_time_skew cfg) entries None in
          match props with
          | Some props => Ok props
          | None => Err ("no keytab entry matching service principal " +:+ kb_service_principal cfg)
          end
      end
  end.

(** [SspiAuthEngine::new]: the keytab has to load. *)
Definition SspiAuthEngine_new (read_file : string -> result string string) (config : SspiBackendConfig)
    : result SspiBackendConfig string :=
  match config with
  | BackendKerberos cfg => let? _ := load_kerberos_server_config read_file cfg in Ok config
  | BackendNtlm _ => Ok config
  end.

Definition begin_session (read_file : string -> result string string) (config : SspiBackendConfig)
    : result SspiHandshake string :=
  match config with
  | BackendNtlm cfg =>
      match na_helper_command cfg with
      | Some helper => Ok {| sh_context := ntlm_context (na_workstation cfg); sh_ntlm_helper := Some helper |}
      | None =>
          match negotiate_ntlm (na_workstation cfg) (default (na_domain cfg) (na_workstation cfg)) (na_candidate_identities cfg) with
          | Err e => Err ("NTLM server init failed: " +:+ e)
          | Ok context => Ok {| sh_context := context; sh_ntlm_helper := None |}
          end
      end
  | BackendKerberos cfg =>
      let? props := load_kerberos_server_config read_file cfg in
      match negotiate_kerberos (kb_kdc_url cfg) (kb_hostname cfg) props with
      | Err e => Err ("Kerberos server init failed: " +:+ e)
      | Ok context => Ok {| sh_context := context; sh_ntlm_helper := None |}
      end
  end.

Definition split_helper_command (helper : string) : result (string * list string) string :=
  match split_whitespace helper with
  | [] => Err "NTLM_AUTH_HELPER is empty"%string
  | program :: args => Ok (program, args)
  end.

Definition helper_command (token : option string) : string :=
  let token := default EmptyString token in
  (if str_is_empty token then "YR " else "KK ") +:+ base64_encode token.

(** The first line of the answer. *)
Definition helper_verdict (stdout : string) : SspiStepResult :=
  let line := trim (default EmptyString (head (str_lines (from_utf8_lossy stdout)))) in
  if str_is_empty line then SspiFailed "NTLM helper returned empty response"
  else
    let '(code, rest) := default (line, EmptyString) (split_once " " line) in
    let rest := trim rest in
    if String.eqb code "TT" then SspiChallenge rest
    else if String.eqb code "OK" || String.eqb code "AF" then
      let username := default rest (head (split_whitespace rest)) in
      SspiComplete username (Some username)
    else if bool_decide (code ∈ ["NA"; "ERR"; "BH"]%string) then SspiFailed rest
    else SspiFailed ("unknown helper response: " +:+ line).

Definition process_ntlm_helper (helper : string) (token : option string) : result SspiStepResult string :=
  let? cmd := split_helper_command helper in
  match run_helper cmd.1 cmd.2 (helper_command token +:+ nl) with
  | SpawnFailed e => Err ("failed to spawn NTLM helper '" +:+ helper +:+ "': " +:+ e)
  | WriteFailed e => Err ("NTLM helper write failed: " +:+ e)
  | WaitFailed e => Err ("NTLM helper wait failed: " +:+ e)
  | Ended false status _ stderr =>
      Ok (SspiFailed ("NTLM helper exited with " +:+ status +:+ ": " +:+ from_utf8_lossy stderr))
  | Ended true _ stdout _ => Ok (helper_verdict stdout)
  end.

Definition format_sspi_username (u : Username) : string :=
  match domain_name u with Some domain => account_name u +:+ "@" +:+ domain | None => account_name u end.

(** The outcome of an accepted token, after [complete_auth_token] where it is needed. *)
Definition status_result (context : SspiContext) (status : SecurityStatus) (output : list string) : result SspiStepResult string :=
  match status with
  | StatusOk =>
      match query_context_names context with
      | Err e => Err ("SSPI query_context_names failed: " +:+ e)
      | Ok username => let principal := format_sspi_username username in Ok (SspiComplete principal (Some principal))
      end
  | StatusContinueNeeded | StatusCompleteAndContinue =>
      Ok (SspiChallenge match output with buf :: _ => base64_encode buf | [] => EmptyString end)
  | _ => Err ("SSPI authentication failed: " +:+ status_debug status)
  end.

Definition needs_completion (status : SecurityStatus) : bool :=
  match status with StatusCompleteNeeded | StatusCompleteAndContinue => true | _ => false end.

Definition process_token (session : SspiHandshake) (token : option string) : SspiHandshake * result SspiStepResult string :=
  match sh_ntlm_helper session with
  | Some helper => (session, process_ntlm_helper helper token)
  | None =>
      let on context r := ({| sh_context := context; sh_ntlm_helper := None |}, r) in
      match accept_security_context (sh_context session) (default EmptyString token) with
      | (context, Err e) => on context (Err ("SSPI accept failed: " +:+ e))
      | (context, Ok (status, output)) =>
          if needs_completion status then
            match complete_auth_token context output with
            | (context, Err e) => on context (Err ("SSPI complete_auth_token failed: " +:+ e))
            | (context, Ok output) => on context (status_result context status output)
            end
          else on context (status_result context status output)
      end
  end.

Fixpoint ntlm_users (lines : list string) : result (list AuthIdentity) string :=
  match lines with
  | [] => Ok []
  | line :: lines =>
      let line := trim line in
      if str_is_empty line || starts_with line "#" then ntlm_users lines
      else
        match split_once ":" line with
        | None => Err ("invalid NTLM users line (expected user:password): " +:+ line)
        | Some (user, password) =>
            match username_parse (trim user) with
            | Err e => Err ("invalid username '" +:+ user +:+ "': " +:+ e)
            | Ok username => let? ids := ntlm_users lines in Ok (identity username password :: ids)
            end
        end
  end.

Definition load_ntlm_user_file (read_file : string -> result string string) (path : string) : result (list AuthIdentity) string :=
  match read_file path with
  | Err e => Err ("read NTLM users file " +:+ path +:+ ": " +:+ e)
  | Ok content => ntlm_users (str_lines content)
  end.

(** [build_sspi_engine] of auth.rs: [None] leaves the handshakes off. *)
Definition build_sspi_engine (read_file : string -> result string string) (config : AuthConfig) : option SspiBackendConfig :=
  backend ←
    match au_backend config with
    | Ntlm =>
        ntlm ← au_ntlm config;
        Some (BackendNtlm
          {| na_domain := nt_domain ntlm; na_workstation := nt_workstation ntlm; na_helper_command := nt_helper_command ntlm;
             na_candidate_identities :=
               match nt_candidate_users_file ntlm with
               | Some path => match load_ntlm_user_file read_file path with Ok ids => ids | Err _ => [] end
               | None => []
               end |})
    | Kerberos => BackendKerberos <$> au_kerberos config
    | _ => None
    end;
  match SspiAuthEngine_new read_file backend with Ok engine => Some engine | Err _ => None end.

(** The engine behind the interface of Auth. *)
Definition sspi_engine (read_file : string -> result string string) (config : SspiBackendConfig) : SspiEngine := {|
  SspiSession := SspiHandshake;
  sspi_scheme := scheme config;
  sspi_begin_session := begin_session read_file config;
  sspi_process_token := process_token;
|}.

End engine.

(** ** Requests through the engine *)

Record AuthRequest := {
  rq_now : N;
  rq_client_key : string;
  rq_headers : HeaderMap;
  rq_connection : nat;
  rq_reverse : bool;
}.

Section requests.
Context {SH : Sha256} {B64 : Base64} {HT : HeaderText} {LD : LdapDirectory} {UJ : UsersJson} {SE : SspiEngine}.

(** One request on its connection, with the cache the connection has. *)
Definition serve_auth (st : AuthManager * gmap nat ConnAuthCache) (r : AuthRequest)
    : AuthManager * gmap nat ConnAuthCache * ProxyAuthOutcome :=
  let '(a, conns) := st in
  let '(a', conn, outcome) :=
    handle_proxy_auth (rq_now r) (rq_client_key r) (rq_headers r) (conns !! rq_connection r) (rq_reverse r) a in
  (a', match conn with Some c => <[rq_connection r := c]> conns | None => conns end, outcome).

Fixpoint serve_all (st : AuthManager * gmap nat ConnAuthCache) (rs : list AuthRequest) : list ProxyAuthOutcome :=
  match rs with
  | [] => []
  | r :: rs => let '(st', outcome) := serve_auth st r in outcome :: serve_all st' rs
  end.

End requests.

(** ** Lemmas *)

Section vouching.
Context {SP : Sspi} {NH : NtlmHelper} {SH : Sha256} {B64 : Base64} {HT : HeaderText} {LD : LdapDirectory} {UJ : UsersJson}.
Context (read_file : string -> result string string) (cfg : NtlmAuthConfig) (helper : string).
Context (Hhelper : na_helper_command cfg = Some helper).

#[local] Instance helper_engine : SspiEngine := sspi_engine read_file (BackendNtlm cfg).

(** A first line that says [OK] or [AF], alone or before a name. *)
Definition accepting_line (stdout name : string) : Prop :=
  exists code rest, code ∈ ["OK"; "AF"]%string
    /\ (let line := trim (default EmptyString (head (str_lines (from_utf8_lossy stdout)))) in
        (line = code /\ rest = EmptyString) \/ line = (code +:+ " " +:+ rest)%string)
    /\ name = default (trim rest) (head (split_whitespace (trim rest))).

(** The helper program, given one of these tokens, ended well and accepted with this name. *)
Definition vouched (given : option string -> Prop) (name : string) : Prop :=
  exists program args token status stdout stderr,
    given token /\ split_helper_command helper = Ok (program, args)
    /\ run_helper program args (helper_command token +:+ nl) = Ended true status stdout stderr
    /\ accepting_line stdout name.

Lemma accepting_code code : String.eqb code "OK" || String.eqb code "AF" = true -> code ∈ ["OK"; "AF"]%string.
Proof. intros [->%String.eqb_eq| ->%String.eqb_eq]%orb_true_iff; set_solver. Qed.

Lemma verdict_complete stdout name display :
  helper_verdict stdout = SspiComplete name display -> accepting_line stdout name.
Proof.
  unfold helper_verdict, accepting_line. set (line := trim _). destruct (str_is_empty line); [done|].
  destruct (split_once " " line) as [[code rest]|] eqn:E; cbv beta iota delta [default from_option id].
  - apply split_once_Some in E as [E _]. rewrite E. destruct (String.eqb code "TT"); [done|].
    destruct (_ || _) eqn:H; [|by case_bool_decide]. intros [= <- _]. exists code, rest. split_and!; [by apply accepting_code|by right|done].
  - destruct (String.eqb line "TT"); [done|].
    destruct (_ || _) eqn:H; [|by case_bool_decide]. intros [= <- _]. exists line, EmptyString. split_and!; [by apply accepting_code|by left|done].
Qed.

Section tokens.
Context (given : option string -> Prop).

Lemma helper_complete token name display :
  given token -> process_ntlm_helper helper token = Ok (SspiComplete name display) -> vouched given name.
Proof.
  intros Hg. unfold process_ntlm_helper. destruct (split_helper_command helper) as [[program args]|] eqn:Hs; [|done]. cbn [res_bind fst snd].
  destruct (run_helper _ _ _) as [| | |[] status stdout stderr] eqn:Hr; try done. intros [= Hv].
  apply verdict_complete in Hv. by exists program, args, token, status, stdout, stderr.
Qed.

Definition manager_vouched (a : AuthManager) : Prop :=
  am_sspi a = true
  /\ map_Forall (fun _ p => sh_ntlm_helper (SP := SP) (fst p) = Some helper) (am_handshakes a)
  /\ map_Forall (fun _ u => vouched given (ui_username u)) (am_principals a).

Definition conn_vouched (c : ConnAuthCache) : Prop := forall e, cn_inner c = Some e -> vouched given (ui_username (ce_user e)).

Lemma conn_get_vouched now fp c user : conn_vouched c -> conn_get now fp c = Some user -> vouched given (ui_username user).
Proof.
  intros Hc. unfold conn_get. destruct (cn_ttl c =? 0)%N; [done|]. destruct (cn_inner c) as [e|] eqn:E; [|done]. cbn.
  specialize (Hc e E). destruct (_ <? _)%N; [done|]. repeat case_match; naive_solver.
Qed.

Lemma conn_store_vouched now user fp c : conn_vouched c -> vouched given (ui_username user) -> conn_vouched (conn_store now user fp c).
Proof. intros Hc Hu e. unfold conn_store. destruct (cn_ttl c =? 0)%N; [apply Hc|]. cbn. by intros [= <-]. Qed.

Lemma enrichment_keeps_name config user : ui_username (apply_ldap_group_enrichment config user) = ui_username user.
Proof. unfold apply_ldap_group_enrichment. repeat case_match; done. Qed.

Lemma step_vouched now key token rp conn session a a' conn' outcome :
  given token -> manager_vouched a -> (forall c, conn = Some c -> conn_vouched c) -> sh_ntlm_helper (SP := SP) session = Some helper ->
  sspi_step now key token rp conn session a = (a', conn', outcome) ->
  manager_vouched a' /\ (forall c, conn' = Some c -> conn_vouched c)
  /\ (forall user, outcome = Authenticated user -> vouched given (ui_username user)).
Proof.
  intros Hg (Hs & Hh & Hp) Hc Hsess. unfold sspi_step.
  change (@sspi_process_token helper_engine session token) with (process_token session token). unfold process_token. rewrite Hsess.
  set (hs := <[key := _]> (am_handshakes a)).
  assert (Hhs : map_Forall (fun _ p => sh_ntlm_helper (SP := SP) (fst p) = Some helper) hs)
    by (by apply map_Forall_insert_2).
  assert (Hdel : map_Forall (fun _ p => sh_ntlm_helper (SP := SP) (fst p) = Some helper) (delete key hs))
    by (by apply map_Forall_delete).
  destruct (process_ntlm_helper helper token) as [[name display|t|why]|e] eqn:E; intros [= <- <- <-].
  - assert (Hv : vouched given name) by (by eapply helper_complete). set (user := apply_ldap_group_enrichment _ _).
    assert (Hu : vouched given (ui_username user)) by (unfold user; by rewrite enrichment_keeps_name). split_and!.
    + split_and!; [done|done|by apply map_Forall_insert_2].
    + intros c. destruct conn as [c0|]; [|done]. intros [= <-]. apply conn_store_vouched; [by apply Hc|done].
    + by intros u [= <-].
  - split_and!; [by split_and!|done|done].
  - split_and!; [by split_and!| |done]. intros c. destruct conn as [c0|]; [|done]. by intros [= <-].
  - split_and!; [by split_and!|done|done].
Qed.

Lemma request_vouched now key headers conn rp a a' conn' outcome :
  given (sspi_token headers rp) -> manager_vouched a -> (forall c, conn = Some c -> conn_vouched c) ->
  handle_proxy_auth now key headers conn rp a = (a', conn', outcome) ->
  manager_vouched a' /\ (forall c, conn' = Some c -> conn_vouched c)
  /\ (forall user, outcome = Authenticated user -> vouched given (ui_username user)).
Proof.
  intros Hg Ha Hc. pose proof Ha as (Hs & Hh & Hp). unfold handle_proxy_auth. rewrite Hs. unfold handle_sspi_auth.
  destruct (match sspi_token headers rp with None => sspi_remembered now key conn a | Some _ => None end) as [user|] eqn:Er.
  - intros [= <- <- <-]. split_and!; [done|done|]. intros u [= <-]. destruct (sspi_token headers rp); [done|].
    unfold sspi_remembered in Er. destruct (conn ≫= conn_get now None) as [u|] eqn:Eg.
    + injection Er as <-. destruct conn as [c|]; [|done]. eapply conn_get_vouched; [by apply Hc|exact Eg].
    + destruct (am_principals a !! key) as [u|] eqn:Ep; [|done]. cbn in Er. destruct (_ <? _)%N; [|done].
      injection Er as <-. exact (Hp key u Ep).
  - destruct (am_handshakes a !! key) as [[session created]|] eqn:Eh.
    + apply step_vouched; [done|done|done|exact (Hh key (session, created) Eh)].
    + change (@sspi_begin_session helper_engine) with (begin_session read_file (BackendNtlm cfg)). unfold begin_session. rewrite Hhelper.
      by apply step_vouched.
Qed.

Lemma requests_vouched a conns rs :
  manager_vouched a -> map_Forall (fun _ c => conn_vouched c) conns ->
  Forall (fun r => given (sspi_token (rq_headers r) (rq_reverse r))) rs ->
  Forall (fun o => forall user, o = Authenticated user -> vouched given (ui_username user)) (serve_all (a, conns) rs).
Proof using Hhelper.
  intros Ha Hc Hrs. revert a conns Ha Hc. induction Hrs as [|r rs Hg _ IH]; intros a conns Ha Hc; cbn [serve_all]; [constructor|].
  unfold serve_auth. destruct (handle_proxy_auth _ _ _ _ _ _) as [[a' conn'] outcome] eqn:E.
  apply request_vouched in E as (Ha' & Hc' & Ho); [|done|done|intros c Hi; by eapply Hc]. constructor; [done|].
  apply IH; [done|]. destruct conn' as [c|]; [|done]. apply map_Forall_insert_2; [by apply Hc'|done].
Qed.

End tokens.

(** C34: With a helper program configured for NTLM nobody is admitted whom it did not
    vouch for: whatever requests arrive on whatever connections, none of them remembered
    at first, with whatever tokens, every admitted user is one for whom the helper, given
    the token of one of these requests, ended well with a first line of [OK] or [AF] and
    that name; group enrichment does not change the name. *)
Theorem helper_vouches_for_all (config : AuthConfig) (users : string -> option string) (salt : string)
    (conns : gmap nat ConnAuthCache) (rs : list AuthRequest) (Hfresh : map_Forall (fun _ c => cn_inner c = None) conns) :
  let given token := exists r, r ∈ rs /\ token = sspi_token (rq_headers r) (rq_reverse r) in
  Forall (fun o => forall user, o = Authenticated user -> vouched given (ui_username user))
    (serve_all (AuthManager_new config users salt true, conns) rs).
Proof using Hhelper.
  apply requests_vouched.
  - split_and!; [done|apply map_Forall_empty|apply map_Forall_empty].
  - intros i c Hi e He. by rewrite (Hfresh i c Hi) in He.
  - apply Forall_forall. intros r Hr. by exists r.
Qed.

End vouching.

(** *** The keytab *)

Section keytab.
Context {SP : Sspi}.

Definition entry_matches_service (cfg : KerberosConfig) (spn : string * string * string) (entry : KeytabEntry) : bool :=
  eq_ignore_ascii_case (keytab_entry_spn entry) (spn.1.1 +:+ "/" +:+ spn.1.2)
  || eq_ignore_ascii_case (keytab_entry_spn entry) (kb_service_principal cfg).

Lemma keytab_loop_first cfg spn entries :
  keytab_loop spn.1.1 spn.1.2 (kb_service_principal cfg) (kb_max_time_skew cfg) entries None =
  match List.find (entry_matches_service cfg spn) entries with
  | None => Ok None
  | Some entry =>
      match server_properties_new [spn.1.1; spn.1.2] (kb_max_time_skew cfg) (ke_key entry) with
      | Err e => Err ("ServerProperties::new: " +:+ e)
      | Ok props => Ok (Some props)
      end
  end.
Proof.
  induction entries as [|entry entries IH]; [done|]. cbn [keytab_loop List.find]. unfold entry_matches_service at 1.
  destruct (_ || _); [done|]. exact IH.
Qed.

(** The properties of the service are made of the first entry of the keytab that names
    it, whatever the case of letters, and of no other entry: the loop leaves before it
    would add the keys of other services. *)
Theorem keytab_first_entry (read_file : string -> result string string) (cfg : KerberosConfig) (props : ServerProperties) :
  load_kerberos_server_config read_file cfg = Ok props <->
  exists data entries spn entry,
    read_file (kb_keytab_path cfg) = Ok data /\ keytab_parse data = Ok entries
    /\ parse_service_principal (kb_service_principal cfg) = Ok spn
    /\ List.find (entry_matches_service cfg spn) entries = Some entry
    /\ server_properties_new [spn.1.1; spn.1.2] (kb_max_time_skew cfg) (ke_key entry) = Ok props.
Proof.
  unfold load_kerberos_server_config. split.
  - destruct (read_file _) as [data|] eqn:Hr; [|done]. destruct (keytab_parse data) as [entries|] eqn:Hk; [|done].
    destruct (parse_service_principal _) as [spn|] eqn:Hs; [|done]. cbn [res_bind]. rewrite keytab_loop_first.
    destruct (List.find _ entries) as [entry|] eqn:Hf; [|done].
    destruct (server_properties_new _ _ _) as [p|] eqn:Hp; [|done]. cbn [res_bind]. intros [= ->].
    by exists data, entries, spn, entry.
  - intros (data & entries & spn & entry & -> & -> & -> & Hf & Hp). cbn [res_bind]. by rewrite keytab_loop_first, Hf, Hp.
Qed.

End keytab.

(** *** Settings *)

Section settings.
Context {SH : Sha256} {B64 : Base64} {HT : HeaderText} {LD : LdapDirectory} {UJ : UsersJson} {SE : SspiEngine}.

(** A backend that is misspelt or not built in leaves the proxy open (a defect): with
    authentication on and no users file, every name is admitted with every password. *)
Theorem unknown_backend_admits_all (f : Features) (env : Env) (users : string -> option string) (salt backend : string)
    (now : N) (username password : string)
    (Hon : auth_env_flag env "AUTH_ENABLED" = true) (Hb : env "AUTH_BACKEND"%string = Some backend)
    (Hp : parse_backend f backend = Basic) (Hu : env "BASIC_AUTH_USERS_FILE"%string = None) :
  let a := AuthManager_new (load_auth_config f env) users salt false in
  au_enabled (am_config a) = true
  /\ exists user, (authenticate now username password a).2 = Ok user /\ ui_username user = username.
Proof.
  cbv zeta. set (a := AuthManager_new _ _ _ _). split; [exact Hon|].
  assert (Hbe : au_backend (am_config a) = Basic) by (unfold a, load_auth_config; cbn; by rewrite Hb, Hp).
  assert (Hf : au_basic_users_file (am_config a) = None) by exact Hu.
  assert (He : am_basic_users a = ∅) by (unfold a, AuthManager_new; cbn [am_basic_users au_basic_users_file load_auth_config]; by rewrite Hu).
  assert (Hbk : exists user, backend_authenticate now username password a = Ok user /\ ui_username user = username).
  { unfold backend_authenticate. rewrite Hbe. unfold authenticate_basic. rewrite Hf, bool_decide_eq_true_2 by done. cbn. by eexists. }
  destruct Hbk as (user & Hbk & Hn). exists user. split; [|done]. unfold authenticate. rewrite Hbk.
  unfold a, AuthManager_new. cbn. done.
Qed.

(** The directory is asked for groups exactly for a single sign-on backend with a list of
    servers, unless it is switched off. *)
Lemma groups_from_ldap_iff (f : Features) (env : Env) :
  should_enrich_groups_from_ldap (load_auth_config f env) = true <->
  ft_ldap f = true /\ auth_env_flag env "AUTH_ENABLED" = true /\ env_flag_default_on env "LDAP_GROUP_ENRICHMENT" = true
  /\ is_Some (env "LDAP_SERVERS"%string)
  /\ exists v, env "AUTH_BACKEND"%string = Some v /\ (parse_backend f v = Ntlm \/ parse_backend f v = Kerberos).
Proof.
  assert (Hfeat : forall v, (parse_backend f v = Ntlm -> ft_ntlm f = true) /\ (parse_backend f v = Kerberos -> ft_kerberos f = true)).
  { intros v. unfold parse_backend. repeat case_match; done. }
  unfold should_enrich_groups_from_ldap, load_auth_config, load_ldap_config, is_sso_backend.
  cbn [au_enabled au_ldap au_backend]. destruct (auth_env_flag env "AUTH_ENABLED"); [|naive_solver]. cbn [negb andb].
  destruct (ft_ldap f); [|naive_solver]. destruct (env "AUTH_BACKEND"%string) as [v|]; [|naive_solver].
  destruct (Hfeat v) as [Hn Hk]. destruct (parse_backend f v) eqn:E; cbn.
  1,2: split; [done|]; intros (_ & _ & _ & _ & v' & [= <-] & [H|H]); congruence.
  - rewrite (bool_decide_eq_false_2 (_ = Ldap)), Hn by done. cbn. destruct (env_flag_default_on _ _); cbn; [|by split; [|tauto]].
    case_bool_decide as Hls; cbn; [split; [intros _; split_and!; eauto|done]|]. split; [done|]. by intros (_ & _ & _ & ? & _).
  - rewrite (bool_decide_eq_false_2 (_ = Ldap)), Hk by done. cbn. destruct (env_flag_default_on _ _); cbn; [|by split; [|tauto]].
    case_bool_decide as Hls; cbn; [split; [intros _; split_and!; eauto|done]|]. split; [done|]. by intros (_ & _ & _ & ? & _).
Qed.

End settings.

(** ** Limits of the code *)

(** A token that completes the handshake with [CompleteNeeded] is refused, although the
    completion succeeded. *)
Lemma complete_needed_refused {SP : Sspi} {NH : NtlmHelper} {B64 : Base64} session token context context' output output' :
  sh_ntlm_helper session = None ->
  accept_security_context (sh_context session) (default EmptyString token) = (context, Ok (StatusCompleteNeeded, output)) ->
  complete_auth_token context output = (context', Ok output') ->
  (process_token session token).2 = Err ("SSPI authentication failed: " +:+ status_debug StatusCompleteNeeded).
Proof. intros Hh Ha Hc. unfold process_token. rewrite Hh, Ha. cbn [needs_completion]. by rewrite Hc. Qed.

(** ** Instances *)

Module Demo.

(** A crate that refuses everything: the helper decides alone. *)
#[local] Instance refusing_sspi : Sspi := {|
  SspiContext := unit; AuthIdentity := string; Username := string; ServerProperties := string;
  username_parse s := Ok s; account_name u := u; domain_name _ := None; identity u _ := u;
  keytab_parse data := Ok [{| ke_components := ["host"; "proxy"]%string; ke_key := data |};
                           {| ke_components := ["http"; "proxy"]%string; ke_key := "k2"%string |}];
  server_properties_new _ _ key := Ok key; add_service_key p _ _ := Ok p;
  ntlm_context _ := tt; negotiate_ntlm _ _ _ := Err "refused"%string; negotiate_kerberos _ _ _ := Err "refused"%string;
  accept_security_context c _ := (c, Err "refused"%string); complete_auth_token c _ := (c, Err "refused"%string);
  query_context_names _ := Err "refused"%string; status_debug _ := "status"%string;
|}.

#[local] Instance plain_sha : Sha256 := {| sha256 s := s; hex_encode s := s |}.
#[local] Instance clear_base64 : Base64 := {| base64_encode s := s; base64_decode s := Some s |}.
#[local] Instance text_headers : HeaderText := {| hv_to_str := Some |}.
#[local] Instance no_users : UsersJson := fun _ => None.
#[local] Instance no_directory : LdapDirectory := {|
  ldap_connect _ := Err "down"%string; ldap_simple_bind _ _ _ := Err "down"%string; ldap_search _ _ _ := Err "down"%string |}.

(** A helper that knows one token. *)
#[local] Instance one_token : NtlmHelper := fun _ _ stdin =>
  Ended true "exit status: 0" (if String.eqb stdin ("KK secret" +:+ nl) then "AF ann" +:+ nl else "NA no" +:+ nl) EmptyString.

Definition ntlm : NtlmAuthConfig :=
  {| na_domain := "D"; na_workstation := None; na_helper_command := Some "/usr/bin/ntlm_auth --helper"%string; na_candidate_identities := [] |}.

Definition no_file : string -> result string string := fun _ => Err "no such file"%string.
Definition all_features : Features := {| ft_ldap := true; ft_ntlm := true; ft_kerberos := true |}.

Definition env : Env := fun name =>
  if String.eqb name "AUTH_ENABLED" then Some "true"%string
  else if String.eqb name "AUTH_BACKEND" then Some "ldpa"%string
  else None.

Definition asking (token : string) : AuthRequest :=
  {| rq_now := 5; rq_client_key := "10.0.0.1"; rq_headers := [("proxy-authorization", "NTLM " +:+ token)]%string;
     rq_connection := 0; rq_reverse := false |}.

#[local] Instance engine : SspiEngine := sspi_engine no_file (BackendNtlm ntlm).

(** The right token is admitted, another one challenged, and whoever is admitted was
    vouched for. *)
Lemma helper_vouches_for_all_witness :
  (exists h u, serve_all (AuthManager_new (load_auth_config all_features env) (fun _ => None) "salt" true, ∅)
               [asking "guess"; asking "secret"] = [Challenge h; Authenticated u] /\ ui_username u = "ann"%string)
  /\ Forall (fun o => forall user, o = Authenticated user ->
                vouched "/usr/bin/ntlm_auth --helper"
                  (fun token => exists r, r ∈ [asking "guess"; asking "secret"] /\ token = sspi_token (rq_headers r) (rq_reverse r))
                  (ui_username user))
       (serve_all (AuthManager_new (load_auth_config all_features env) (fun _ => None) "salt" true, ∅) [asking "guess"; asking "secret"]).
Proof.
  split; [eexists _, _; split; vm_compute; reflexivity|].
  apply (helper_vouches_for_all no_file ntlm "/usr/bin/ntlm_auth --helper" eq_refl). apply map_Forall_empty.
Defined.

(** The entry of the service is found whatever its case and position. *)
Lemma keytab_entry_found :
  load_kerberos_server_config (fun _ => Ok "k1"%string)
    (load_kerberos_config (fun n => if String.eqb n "HOSTNAME" then Some "proxy"%string else None)) = Ok "k2"%string.
Proof. vm_compute. reflexivity. Qed.

Lemma unknown_backend_admits_all_witness :
  exists user, (authenticate 7 "root" "anything" (AuthManager_new (load_auth_config all_features env) (fun _ => None) "salt" false)).2 = Ok user
    /\ ui_username user = "root"%string.
Proof.
  exact (proj2 (unknown_backend_admits_all all_features env (fun _ => None) "salt" "ldpa" 7 "root" "anything" eq_refl eq_refl eq_refl eq_refl)).
Defined.

(** A helper that accepts without a name admits the user with the empty name. *)
Lemma nameless_user_admitted : helper_verdict ("AF" +:+ nl) = SspiComplete EmptyString (Some EmptyString).
Proof. vm_compute. reflexivity. Qed.

End Demo.
