(* ===== verification/PeerFetch.v ===== *)
(** * Fetching through a peer (src/proxy/src/peer_fetch.rs)

    The settings of mutual TLS towards peer caches, the connector built of them, and one
    fetch: the connection, the TLS handshake and the HTTP exchange, each under the
    time-out.  What the network does is an argument, with the time it takes; files are an
    argument; rustls is the class of Tls with what a client needs besides. *)

From Stdlib Require Import Ascii String NArith Lia.
From stdpp Require Import base option gmap sets strings pretty numbers list.
From S2P Require Import Prelude Net Tls.

Local Open Scope rust_scope.

Inductive PeerFetchError :=
| PeerConnect (e : string)
| PeerHandshake (e : string)
| PeerTls (e : string)
| PeerRequest (e : string)
| PeerTimeout
| PeerConfigInvalid (e : string).

(** [Display]. *)
Definition peer_error_text (e : PeerFetchError) : string :=
  match e with
  | PeerConnect e => "connect failed: " +:+ e
  | PeerHandshake e => "HTTP handshake failed: " +:+ e
  | PeerTls e => "TLS failed: " +:+ e
  | PeerRequest e => "request failed: " +:+ e
  | PeerTimeout => "peer request timed out"
  | PeerConfigInvalid e => "peer TLS config: " +:+ e
  end.

(** ** Settings *)

Record PeerTlsConfig := {
  pt_enabled : bool;
  pt_ca_file : option string;
  pt_cert_file : option string;
  pt_key_file : option string;
}.

Definition peer_env_path (env : Env) (name : string) : option string :=
  s ← trim <$> env name; if str_is_empty s then None else Some s.

Definition PeerTlsConfig_from_env (env : Env) : PeerTlsConfig :=
  {| pt_enabled :=
       match env "HIERARCHY_PEER_MTLS_ENABLED"%string with
       | Some v => bool_decide (to_ascii_lowercase v ∈ ["1"; "true"; "yes"]%string)
       | None => false
       end;
     pt_ca_file := peer_env_path env "HIERARCHY_PEER_CA_FILE";
     pt_cert_file := peer_env_path env "HIERARCHY_PEER_CERT_FILE";
     pt_key_file := peer_env_path env "HIERARCHY_PEER_KEY_FILE" |}.

Definition peer_tls_validate (c : PeerTlsConfig) : result unit string :=
  if negb (pt_enabled c) then Ok tt
  else
    match pt_ca_file c with
    | None => Err "HIERARCHY_PEER_CA_FILE required when mTLS enabled"%string
    | Some _ =>
        match pt_cert_file c, pt_key_file c with
        | Some _, Some _ => Ok tt
        | _, _ => Err "HIERARCHY_PEER_CERT_FILE and HIERARCHY_PEER_KEY_FILE required when mTLS enabled"%string
        end
    end.

(** ** The connector *)

(** [with_client_auth_cert], and [ServerName::try_from] a name. *)
Class ClientTls := {
  client_auth : list string -> string -> result unit string;
  server_name_of : string -> result unit string;
}.

(** The roots the peer is checked against, and what the proxy shows of itself. *)
Record TlsConnector := {
  tc_roots : list string;
  tc_chain : list string;
  tc_key : string;
}.

Section connector.
Context {RL : Rustls} {CT : ClientTls} (read_file : string -> result string string).

Definition read_pem (what path : string) : result string PeerFetchError :=
  match read_file path with
  | Ok pem => Ok pem
  | Err e => Err (PeerConfigInvalid ("read " +:+ what +:+ " " +:+ path +:+ ": " +:+ e))
  end.

Definition parse_certs (what pem : string) : result (list string) PeerFetchError :=
  match pem_certs pem with
  | Ok certs => Ok certs
  | Err e => Err (PeerConfigInvalid ("parse " +:+ what +:+ ": " +:+ e))
  end.

(** [add_parsable_certificates]: those that cannot be added are skipped. *)
Definition addable (certs : list string) : list string :=
  List.filter (fun c => match root_add c with Ok _ => true | Err _ => false end) certs.

Definition load_roots (ca_path : string) : result (list string) PeerFetchError :=
  let? ca_pem := read_pem "CA" ca_path in
  let? certs := parse_certs "CA" ca_pem in
  match certs with
  | [] => Err (PeerConfigInvalid ("no certificates in " +:+ ca_path))
  | _ =>
      match addable certs with
      | [] => Err (PeerConfigInvalid ("failed to add CA certs from " +:+ ca_path))
      | roots => Ok roots
      end
  end.

Definition load_chain (cert_path : string) : result (list string) PeerFetchError :=
  let? cert_pem := read_pem "cert" cert_path in
  let? certs := parse_certs "client cert" cert_pem in
  match certs with
  | [] => Err (PeerConfigInvalid ("no client certificates in " +:+ cert_path))
  | _ => Ok certs
  end.

Definition load_key (key_path : string) : result string PeerFetchError :=
  let? key_pem := read_pem "key" key_path in
  match pem_private_key key_pem with
  | Err e => Err (PeerConfigInvalid ("parse key: " +:+ e))
  | Ok None => Err (PeerConfigInvalid ("no private key in " +:+ key_path))
  | Ok (Some key) => Ok key
  end.

(** [None] is the panic of an [unwrap]. *)
Definition build_connector (c : PeerTlsConfig) : option (result TlsConnector PeerFetchError) :=
  match peer_tls_validate c with
  | Err e => Some (Err (PeerConfigInvalid e))
  | Ok _ =>
      ca_path ← pt_ca_file c;
      cert_path ← pt_cert_file c;
      key_path ← pt_key_file c;
      Some
        (let? roots := load_roots ca_path in
         let? chain := load_chain cert_path in
         let? key := load_key key_path in
         match client_auth chain key with
         | Err e => Err (PeerConfigInvalid ("client auth: " +:+ e))
         | Ok _ => Ok {| tc_roots := roots; tc_chain := chain; tc_key := key |}
         end)
  end.

End connector.

(** ** A fetch *)

(** What the requests travel over. *)
Inductive Channel :=
| PlainTcp
| OverTls (connector : TlsConnector) (server_name : string).

Inductive PeerAct :=
| Dialled (addr : string)
| TlsStarted (connector : TlsConnector) (server_name : string)
| HttpStarted (channel : Channel)
| RequestSent (channel : Channel) (body : string).

(** What happens on the network: the time each part takes and how it ends. *)
Record PeerNet (Response : Type) := {
  pn_body : result string string;
  pn_dial : N * result unit string;
  pn_tls : N * result unit string;
  pn_handshake : N * result unit string;
  pn_send : N * result Response string;
}.
Arguments pn_body {_} _.
Arguments pn_dial {_} _.
Arguments pn_tls {_} _.
Arguments pn_handshake {_} _.
Arguments pn_send {_} _.

(** What was done, how long it took, and the outcome. *)
Abbreviation Fetched A := (list PeerAct * N * result A PeerFetchError)%type.

(** [tokio::time::timeout] around an action. *)
Definition timed {A} (timeout : N) (act : PeerAct) (error : string -> PeerFetchError) (w : N * result A string) : Fetched A :=
  if (w.1 <=? timeout)%N
  then ([act], w.1, match w.2 with Ok x => Ok x | Err e => Err (error e) end)
  else ([act], timeout, Err PeerTimeout).

Definition and_then {A B} (m : Fetched A) (f : A -> Fetched B) : Fetched B :=
  match m.2 with
  | Err e => (m.1, Err e)
  | Ok x => let '(acts, time, r) := f x in (m.1.1 ++ acts, (m.1.2 + time)%N, r)
  end.

Definition failed {A} (e : PeerFetchError) : Fetched A := ([], 0%N, Err e).

Section fetch.
Context {RL : Rustls} {CT : ClientTls} {Response : Type} (read_file : string -> result string string).

Definition http1_exchange (channel : Channel) (body : string) (timeout : N) (net : PeerNet Response) : Fetched Response :=
  and_then (timed timeout (HttpStarted channel) PeerHandshake (pn_handshake net)) (fun _ =>
  timed timeout (RequestSent channel body) PeerRequest (pn_send net)).

(** An address, or a name rustls takes. *)
Definition peer_server_name (host : string) : result string PeerFetchError :=
  if bool_decide (is_Some (parse_ip host)) then Ok host
  else
    match server_name_of host with
    | Ok _ => Ok host
    | Err e => Err (PeerTls ("invalid peer hostname: " +:+ e))
    end.

(** [None] is a panic.  [tls] is the configuration when the service passes one. *)
Definition fetch_via_peer (host : string) (port : N) (timeout : N) (tls : option PeerTlsConfig) (net : PeerNet Response)
    : option (Fetched Response) :=
  match pn_body net with
  | Err e => Some (failed (PeerRequest e))
  | Ok body =>
      let dialled := timed timeout (Dialled (host +:+ ":" +:+ pretty port)) PeerConnect (pn_dial net) in
      match tls with
      | Some cfg =>
          if pt_enabled cfg then
            match dialled.2 with
            | Err e => Some (dialled.1, Err e)
            | Ok _ =>
                connector ← build_connector read_file cfg;
                Some
                  (and_then dialled (fun _ =>
                   match connector with
                   | Err e => failed e
                   | Ok connector =>
                       match peer_server_name host with
                       | Err e => failed e
                       | Ok name =>
                           and_then (timed timeout (TlsStarted connector name) PeerTls (pn_tls net)) (fun _ =>
                           http1_exchange (OverTls connector name) body timeout net)
                       end
                   end))
            end
          else Some (and_then dialled (fun _ => http1_exchange PlainTcp body timeout net))
      | None => Some (and_then dialled (fun _ => http1_exchange PlainTcp body timeout net))
      end
  end.

(** The part of [try_fetch_via_hierarchy]: the configuration is passed when enabled. *)
Definition service_tls (c : PeerTlsConfig) : option PeerTlsConfig := if pt_enabled c then Some c else None.

End fetch.

(** ** Lemmas *)

(** A channel that protects: TLS to the peer's name, checked against certificates of the
    configured CA file, with the configured certificate and key. *)
Definition protected {RL : Rustls} (read_file : string -> result string string) (c : PeerTlsConfig) (host : string) (ch : Channel) : Prop :=
  exists connector ca_path cert_path key_path ca_pem certs cert_pem key_pem,
    ch = OverTls connector host
    /\ pt_ca_file c = Some ca_path /\ read_file ca_path = Ok ca_pem /\ pem_certs ca_pem = Ok certs
    /\ tc_roots connector <> [] /\ (forall r, r ∈ tc_roots connector -> r ∈ certs)
    /\ pt_cert_file c = Some cert_path /\ read_file cert_path = Ok cert_pem /\ pem_certs cert_pem = Ok (tc_chain connector)
    /\ pt_key_file c = Some key_path /\ read_file key_path = Ok key_pem /\ pem_private_key key_pem = Ok (Some (tc_key connector)).

Section lemmas.
Context {RL : Rustls} {CT : ClientTls} {Response : Type} (read_file : string -> result string string).

Lemma load_roots_spec path roots :
  load_roots read_file path = Ok roots ->
  exists pem certs, read_file path = Ok pem /\ pem_certs pem = Ok certs /\ roots <> [] /\ forall r, r ∈ roots -> r ∈ certs.
Proof.
  unfold load_roots, read_pem, parse_certs. destruct (read_file path) as [pem|]; [|done]. cbn [res_bind].
  destruct (pem_certs pem) as [certs|] eqn:Ec; [|done]. cbn [res_bind].
  destruct certs as [|c certs]; [done|]. destruct (addable (c :: certs)) as [|r rs] eqn:Ea; [done|]. intros [= <-].
  exists pem, (c :: certs). split_and!; [done..|]. intros x Hx. rewrite <- Ea in Hx. unfold addable in Hx.
  rewrite !list_elem_of_In, filter_In in *. tauto.
Qed.

Lemma load_chain_spec path chain :
  load_chain read_file path = Ok chain -> exists pem, read_file path = Ok pem /\ pem_certs pem = Ok chain.
Proof.
  unfold load_chain, read_pem, parse_certs. destruct (read_file path) as [pem|]; [|done]. cbn [res_bind].
  destruct (pem_certs pem) as [[|c certs]|] eqn:Ec; try done. cbn [res_bind]. intros [= <-]. by exists pem.
Qed.

Lemma load_key_spec path key :
  load_key read_file path = Ok key -> exists pem, read_file path = Ok pem /\ pem_private_key pem = Ok (Some key).
Proof.
  unfold load_key, read_pem. destruct (read_file path) as [pem|]; [|done]. cbn [res_bind].
  destruct (pem_private_key pem) as [[k|]|] eqn:Ek; try done. intros [= <-]. by exists pem.
Qed.

(** The checks of [validate] keep the [unwrap]s from panicking. *)
Lemma build_connector_total c : pt_enabled c = true -> is_Some (build_connector read_file c).
Proof.
  intros He. unfold build_connector, peer_tls_validate. rewrite He. cbn [negb].
  destruct (pt_ca_file c), (pt_cert_file c), (pt_key_file c); by eexists.
Qed.

Lemma build_connector_protects c connector host :
  pt_enabled c = true -> build_connector read_file c = Some (Ok connector) -> protected read_file c host (OverTls connector host).
Proof.
  intros He. unfold build_connector, peer_tls_validate. rewrite He. cbn [negb].
  destruct (pt_ca_file c) as [ca|] eqn:E1, (pt_cert_file c) as [cert|] eqn:E2, (pt_key_file c) as [key|] eqn:E3; try done.
  cbn [mbind option_bind]. intros [= H]. destruct (load_roots read_file ca) as [roots|] eqn:Hr; [|done].
  destruct (load_chain read_file cert) as [chain|] eqn:Hc; [|done]. destruct (load_key read_file key) as [k|] eqn:Hk; [|done].
  cbn [res_bind] in H. destruct (client_auth chain k); [|done]. injection H as <-.
  apply load_roots_spec in Hr as (pem & certs & ? & ? & ? & ?). apply load_chain_spec in Hc as (cpem & ? & ?).
  apply load_key_spec in Hk as (kpem & ? & ?). by eexists _, ca, cert, key, pem, certs, cpem, kpem.
Qed.

(** Everything sent in a fetch. *)
Definition sent_over (acts : list PeerAct) (P : Channel -> Prop) : Prop :=
  Forall (fun a => match a with HttpStarted ch | RequestSent ch _ => P ch | _ => True end) acts.

Lemma timed_acts {A} timeout act error (w : N * result A string) :
  (timed timeout act error w).1.1 = [act] /\ ((timed timeout act error w).1.2 <= timeout)%N.
Proof. unfold timed. destruct (N.leb_spec w.1 timeout); by split; cbn. Qed.

Lemma and_then_sent {A B} (m : Fetched A) (f : A -> Fetched B) P :
  sent_over m.1.1 P -> (forall x, sent_over (f x).1.1 P) -> sent_over (and_then m f).1.1 P.
Proof.
  intros Hm Hf. unfold and_then. destruct m.2 as [x|]; [|done]. specialize (Hf x). destruct (f x) as [[acts time] r].
  cbn in *. by apply Forall_app.
Qed.

Lemma and_then_time {A B} (m : Fetched A) (f : A -> Fetched B) s t :
  (m.1.2 <= s)%N -> (forall x, ((f x).1.2 <= t)%N) -> ((and_then m f).1.2 <= s + t)%N.
Proof.
  intros Hm Hf. unfold and_then. destruct m.2 as [x|]; [|cbn; lia]. specialize (Hf x). destruct (f x) as [[acts time] r].
  cbn in *. lia.
Qed.

Lemma timed_sent {A} timeout act error (w : N * result A string) (P : Channel -> Prop) :
  match act with HttpStarted ch | RequestSent ch _ => P ch | _ => True end -> sent_over (timed timeout act error w).1.1 P.
Proof. intros H. destruct (timed_acts timeout act error w) as [-> _]. by constructor. Qed.

Lemma exchange_sent ch body timeout (net : PeerNet Response) (P : Channel -> Prop) :
  P ch -> sent_over (http1_exchange ch body timeout net).1.1 P.
Proof. intros H. unfold http1_exchange. apply and_then_sent; [by apply timed_sent|]. intros _. by apply timed_sent. Qed.

Lemma exchange_time ch body timeout (net : PeerNet Response) : ((http1_exchange ch body timeout net).1.2 <= timeout + timeout)%N.
Proof. unfold http1_exchange. apply and_then_time; [apply timed_acts|intros _; apply timed_acts]. Qed.

Lemma peer_server_name_host host name : peer_server_name host = Ok name -> name = host.
Proof. unfold peer_server_name. destruct (bool_decide _); [by intros [= <-]|]. destruct (server_name_of host); by intros [= <-]. Qed.

(** ** Theorems *)

(** With mutual TLS on, nothing is sent to a peer in the clear: however files, rustls
    and the network behave, the fetch does not panic, and every HTTP byte it sends goes
    over TLS to the peer's own name, checked against certificates of the configured CA
    file, with the configured certificate and key; and once the request's body is read it
    ends within four time-outs. *)
Theorem peer_fetch_protected (host : string) (port timeout : N) (c : PeerTlsConfig) (net : PeerNet Response)
    (He : pt_enabled c = true) :
  exists acts time r, fetch_via_peer read_file host port timeout (service_tls c) net = Some (acts, time, r)
    /\ sent_over acts (protected read_file c host) /\ (time <= 4 * timeout)%N.
Proof.
  unfold service_tls, fetch_via_peer. rewrite He. destruct (pn_body net) as [body|]; [|eexists _, _, _; split_and!; [done|constructor|lia]].
  rewrite He. set (dialled := timed _ _ _ _).
  assert (Hd : sent_over dialled.1.1 (protected read_file c host)) by (by apply timed_sent).
  assert (Ht : (dialled.1.2 <= timeout)%N) by apply timed_acts. clearbody dialled.
  destruct dialled as [[acts time] [u|e]]; cbn [fst snd] in *; [|eexists _, _, _; split_and!; [done|done|lia]].
  destruct (build_connector_total c He) as [connector Hb]. rewrite Hb. cbn [mbind option_bind].
  set (m := and_then _ _). exists m.1.1, m.1.2, m.2. split; [by destruct m as [[? ?] ?]|]. unfold m. clear m.
  replace (4 * timeout)%N with (timeout + (timeout + (timeout + timeout)))%N by lia.
  destruct connector as [connector|e]; [|split; [apply and_then_sent; [done|constructor]|apply and_then_time; cbn; lia]].
  destruct (peer_server_name host) as [name|e] eqn:En; [|split; [apply and_then_sent; [done|constructor]|apply and_then_time; cbn; lia]].
  apply peer_server_name_host in En as ->. split.
  - apply and_then_sent; [done|]. intros _. apply and_then_sent; [by apply timed_sent|]. intros _.
    by apply exchange_sent, build_connector_protects.
  - apply and_then_time; [done|]. intros _. apply and_then_time; [apply timed_acts|]. intros _. apply exchange_time.
Qed.

End lemmas.

(** ** An instance *)

Module Demo.

#[local] Instance pem_rustls : Rustls := {|
  pem_certs pem := Ok [pem]; pem_private_key pem := Ok (Some pem); single_cert _ _ _ := Ok tt; root_add _ := Ok tt;
  client_verifier _ := Ok tt; leaf_serial _ := Err "none"%string; ca_certificate _ := Ok tt |}.
#[local] Instance any_name : ClientTls := {| client_auth _ _ := Ok tt; server_name_of _ := Ok tt |}.

Definition config : PeerTlsConfig :=
  PeerTlsConfig_from_env (fun name =>
    if String.eqb name "HIERARCHY_PEER_MTLS_ENABLED" then Some "yes"%string
    else if String.eqb name "HIERARCHY_PEER_CA_FILE" then Some " ca.pem "%string
    else if String.eqb name "HIERARCHY_PEER_CERT_FILE" then Some "cert.pem"%string
    else if String.eqb name "HIERARCHY_PEER_KEY_FILE" then Some "key.pem"%string
    else None).

Definition net : PeerNet N :=
  {| pn_body := Ok "body"%string; pn_dial := (1%N, Ok tt); pn_tls := (2%N, Ok tt); pn_handshake := (1%N, Ok tt); pn_send := (3%N, Ok 200%N) |}.

(** A fetch that gets an answer, over TLS. *)
Lemma peer_fetch_protected_witness :
  exists acts, fetch_via_peer (fun path => Ok path) "peer.test" 3128 5 (service_tls config) net = Some (acts, 7%N, Ok 200%N)
    /\ sent_over acts (protected (fun path => Ok path) config "peer.test").
Proof.
  destruct (peer_fetch_protected (fun path => Ok path) "peer.test" 3128 5 config net eq_refl) as (acts & time & r & H1 & H2 & _).
  exists acts. split; [|exact H2]. rewrite H1. vm_compute in H1. injection H1 as <- <- <-. reflexivity.
Defined.

End Demo.
