(* ===== verification/DnsStart.v ===== *)
(** * Start and administration of the DNS sinkhole (src/dns-sinkhole/src/ config.rs, main.rs, server.rs)

    The settings, the loading of the zone with its fallback, the servers that start, and
    the admin port that reloads the zone while queries are answered.  Files, rustls's
    readers of PEM and what arrives on the port are arguments; addresses with a port are
    their text. *)

From Stdlib Require Import Ascii String NArith Lia.
From stdpp Require Import base option gmap sets strings pretty numbers list.
From S2P Require Import Prelude Net Utf8 Bytes PeerProtocols Peers Hierarchy Dns RpzApi ControlConfig Icap.

Local Open Scope rust_scope.

(** ** Settings (config.rs) *)

Record SinkholeConfig := {
  sk_enabled : bool;
  sk_bind : SocketAddr;
  sk_upstream : SocketAddr;
  sk_zone_path : string;
  sk_dns : DnsConfig;
  sk_metrics_port : N;
  sk_upstream_timeout : N;
  sk_doh_enabled : bool;
  sk_doh_bind : SocketAddr;
  sk_dot_enabled : bool;
  sk_dot_bind : SocketAddr;
  sk_tls_cert_path : option string;
  sk_tls_key_path : option string;
}.

Definition env_bool (env : Env) (key : string) (dflt : bool) : bool :=
  match env key with
  | Some v => bool_decide (to_ascii_lowercase v ∈ ["1"; "true"; "yes"]%string)
  | None => dflt
  end.

Definition addr_setting {AP : AddrParser} (env : Env) (key dflt : string) : result SocketAddr string :=
  match parse_addr (default dflt (env key)) with
  | Some a => Ok a
  | None => Err (key +:+ ": invalid socket address syntax")
  end.

Definition parse_action (s : string) : result BlockAction string :=
  let s := to_ascii_lowercase s in
  if bool_decide (s ∈ ["sinkhole"; "a"]%string) then Ok Sinkhole
  else if bool_decide (s ∈ ["nxdomain"; "nx"]%string) then Ok NxDomain
  else Err ("DNS_SINKHOLE_ACTION invalid: " +:+ s).

Definition sinkhole_parse_ipv4 (s : string) : result N string :=
  match parse_ipv4 s with Some ip => Ok ip | None => Err "DNS_SINKHOLE_A: invalid IPv4 address syntax"%string end.

Definition sinkhole_parse_ipv6 (s : string) : result N string :=
  match parse_ipv6 s with Some ip => Ok ip | None => Err "DNS_SINKHOLE_AAAA: invalid IPv6 address syntax"%string end.

Definition SinkholeConfig_from_env {AP : AddrParser} (env : Env) : result SinkholeConfig string :=
  let? bind := addr_setting env "DNS_SINKHOLE_BIND" "0.0.0.0:53" in
  let? upstream := addr_setting env "DNS_SINKHOLE_UPSTREAM" "1.1.1.1:53" in
  let? zone_path :=
    match env "DNS_SINKHOLE_ZONE_PATH"%string with
    | Some p => Ok p
    | None => Err "DNS_SINKHOLE_ZONE_PATH is required"%string
    end in
  let? action := parse_action (default "sinkhole"%string (env "DNS_SINKHOLE_ACTION"%string)) in
  let? sinkhole_a := sinkhole_parse_ipv4 (default "127.0.0.1"%string (env "DNS_SINKHOLE_A"%string)) in
  let? sinkhole_aaaa := sinkhole_parse_ipv6 (default "::1"%string (env "DNS_SINKHOLE_AAAA"%string)) in
  let? doh_bind := addr_setting env "DNS_SINKHOLE_DOH_BIND" "0.0.0.0:8443" in
  let? dot_bind := addr_setting env "DNS_SINKHOLE_DOT_BIND" "0.0.0.0:853" in
  let path name := p ← env name; if str_is_empty p then None else Some p in
  Ok {| sk_enabled := env_bool env "DNS_SINKHOLE_ENABLED" true;
        sk_bind := bind;
        sk_upstream := upstream;
        sk_zone_path := zone_path;
        sk_dns :=
          {| dc_action := action; dc_sinkhole_a := sinkhole_a; dc_sinkhole_aaaa := sinkhole_aaaa;
             dc_ttl := N.max (env_parse parse_u32 env "DNS_SINKHOLE_TTL" 300%N) 1;
             dc_doh_path := default "/dns-query"%string (env "DNS_SINKHOLE_DOH_PATH"%string) |};
        sk_metrics_port := env_parse parse_u16 env "METRICS_PORT" 8092%N;
        sk_upstream_timeout := (N.max (env_parse parse_u64 env "DNS_SINKHOLE_UPSTREAM_TIMEOUT_MS" 2000%N) 1 * 1000000)%N;
        sk_doh_enabled := env_bool env "DNS_SINKHOLE_DOH_ENABLED" true;
        sk_doh_bind := doh_bind;
        sk_dot_enabled := env_bool env "DNS_SINKHOLE_DOT_ENABLED" true;
        sk_dot_bind := dot_bind;
        sk_tls_cert_path := path "DNS_SINKHOLE_TLS_CERT"%string;
        sk_tls_key_path := path "DNS_SINKHOLE_TLS_KEY"%string |}.

(** ** The zone (zone.rs, main.rs) *)

Definition zone_error_text (e : nat * ZoneError) : string :=
  "zone line " +:+ pretty (N.of_nat e.1) +:+ ": " +:+
  match e.2 with
  | MissingType => "missing RR type"
  | BadA => "A rdata: invalid IPv4 address syntax"
  | BadAaaa => "AAAA rdata: invalid IPv6 address syntax"
  | UnsupportedType rtype => "unsupported RR type " +:+ to_ascii_uppercase rtype
  end.

(** [read] is the text of a file, or the error of reading it. *)
Definition load_zone (read : string -> result string string) (path : string) : result Zone string :=
  match read path with
  | Err e => Err ("read zone: " +:+ e)
  | Ok text => match zone_parse text with Ok z => Ok z | Err e => Err (zone_error_text e) end
  end.

Definition fallback_path : string := "/etc/bsdm-proxy/blocklist.rpz".

(** [fallback_exists]: the fallback is there when it is looked for. *)
Definition start_zone (read : string -> result string string) (fallback_exists : bool) (path : string) : result Zone string :=
  match load_zone read path with
  | Ok z => Ok z
  | Err e => if fallback_exists then load_zone read fallback_path else Err e
  end.

(** *** The encrypted servers *)

(** What rustls_pemfile reads of a file, an item that is an error making the code panic,
    and what rustls says of a chain and a key. *)
Class PemFiles := {
  pem_file_certs : string -> list (result string string);
  pem_file_pkcs8 : string -> list (result string string);
  pem_file_rsa : string -> list (result string string);
  tls_single_cert : list string -> string -> result unit string;
}.

(** [r.unwrap()] of every item. *)
Fixpoint unwrap_all (l : list (result string string)) : option (list string) :=
  match l with
  | [] => Some []
  | Ok x :: l => xs ← unwrap_all l; Some (x :: xs)
  | Err _ :: _ => None
  end.

(** The chain and the key; [None] is a panic. *)
Definition load_certs {PF : PemFiles} (read : string -> result string string) (cert_path key_path : string)
    : option (result (list string * string) string) :=
  match read cert_path with
  | Err e => Some (Err ("cert open: " +:+ e))
  | Ok cert =>
      certs ← unwrap_all (pem_file_certs cert);
      match read key_path with
      | Err e => Some (Err ("key open: " +:+ e))
      | Ok key =>
          keys ← unwrap_all (pem_file_pkcs8 key);
          keys ← match keys with [] => unwrap_all (pem_file_rsa key) | _ => Some keys end;
          Some match keys with
               | [] => Err "No private keys found"%string
               | key :: _ =>
                   match tls_single_cert certs key with
                   | Ok _ => Ok (certs, key)
                   | Err e => Err ("tls config: " +:+ e)
                   end
               end
      end
  end.

(** Which of DoH and DoT start; a failure is only logged.  [None] is a panic. *)
Definition encrypted_servers {PF : PemFiles} (read : string -> result string string) (c : SinkholeConfig) : option (bool * bool) :=
  if sk_doh_enabled c || sk_dot_enabled c then
    match sk_tls_cert_path c, sk_tls_key_path c with
    | Some cert, Some key =>
        tls ← load_certs read cert key;
        Some match tls with Ok _ => (sk_doh_enabled c, sk_dot_enabled c) | Err _ => (false, false) end
    | _, _ => Some (false, false)
    end
  else Some (false, false).

(** What [main] comes to before it serves: nothing, or the zone and the servers beside UDP.
    [None] is a panic. *)
Inductive SinkholeStart :=
| SinkholeDisabled
| SinkholeServing (c : SinkholeConfig) (z : Zone) (doh_dot : bool * bool).

Definition sinkhole_main {AP : AddrParser} {PF : PemFiles} (env : Env) (read : string -> result string string) (fallback_exists : bool)
    : option (result SinkholeStart string) :=
  match SinkholeConfig_from_env env with
  | Err e => Some (Err e)
  | Ok c =>
      if negb (sk_enabled c) then Some (Ok SinkholeDisabled)
      else match start_zone read fallback_exists (sk_zone_path c) with
           | Err e => Some (Err e)
           | Ok z => servers ← encrypted_servers read c; Some (Ok (SinkholeServing c z servers))
           end
  end.

(** ** The admin port (main.rs) *)

Definition admin_reply (status content_type body : string) : string :=
  "HTTP/1.1 " +:+ status +:+ crlf +:+ "Content-Type: " +:+ content_type +:+ crlf +:+ "Content-Length: " +:+
  pretty (str_len body) +:+ crlf +:+ "Connection: close" +:+ crlf +:+ crlf +:+ body.

Definition dq : string := String (ascii_of_N 34) EmptyString.

Definition zone_len (z : Zone) : N := N.of_nat (size (z_exact z) + length (z_suffixes z)).

(** [buf] is the buffer after one read, [metrics] their text, when it can be encoded.  The
    lock cannot be poisoned. *)
Definition sinkhole_admin (read : string -> result string string) (zone_path : string) (metrics : option string) (buf : string) (z : Zone)
    : Zone * string :=
  let req := from_utf8_lossy buf in
  if starts_with req "GET /health" then (z, admin_reply "200 OK" "text/plain" ("ok" +:+ nl))
  else if starts_with req "POST /api/zone/reload" || starts_with req "GET /api/zone/reload" then
    match load_zone read zone_path with
    | Ok z' =>
        (z', admin_reply "200 OK" "application/json"
               ("{" +:+ dq +:+ "status" +:+ dq +:+ ":" +:+ dq +:+ "reloaded" +:+ dq +:+ "," +:+ dq +:+ "rules" +:+ dq +:+ ":" +:+
                pretty (zone_len z') +:+ "}" +:+ nl))
    | Err e =>
        (z, admin_reply "500 Internal Server Error" "application/json"
              ("{" +:+ dq +:+ "error" +:+ dq +:+ ":" +:+ dq +:+ e +:+ dq +:+ "}" +:+ nl))
    end
  else if starts_with req "GET /metrics" then
    match metrics with
    | Some text => (z, admin_reply "200 OK" "text/plain; version=0.0.4" (from_utf8_lossy text))
    | None => (z, admin_reply "500 Internal Server Error" "text/plain" ("encode error" +:+ nl))
    end
  else (z, admin_reply "404 Not Found" "text/plain" ("not found" +:+ nl)).

(** ** Runs: the zone file changes, the admin port is used and queries are answered *)

Inductive SinkholeEvent :=
| ZoneFile (content : result string string)
| AdminRequest (buf : string)
| DnsPacket (packet : string).

Record SinkholeState := {
  ds_zone : Zone;
  ds_file : result string string;
}.

Definition sinkhole_step (c : SinkholeConfig) (forward : string -> result string string) (s : SinkholeState) (e : SinkholeEvent)
    : SinkholeState * option (bool * result string string) :=
  match e with
  | ZoneFile content => ({| ds_zone := ds_zone s; ds_file := content |}, None)
  | AdminRequest buf =>
      ({| ds_zone := (sinkhole_admin (fun _ => ds_file s) (sk_zone_path c) None buf (ds_zone s)).1; ds_file := ds_file s |}, None)
  | DnsPacket packet => (s, process_dns_query packet (sk_dns c) (ds_zone s) forward)
  end.

Definition sinkhole_run (c : SinkholeConfig) (forward : string -> result string string) (s : SinkholeState) (es : list SinkholeEvent)
    : SinkholeState :=
  foldl (fun s e => (sinkhole_step c forward s e).1) s es.

(** ** Lemmas *)

Section runs.
Context (c : SinkholeConfig) (forward : string -> result string string).

(** A zone that comes from texts the file has had. *)
Definition zone_from (start : Zone) (texts : list string) (z : Zone) : Prop :=
  z = start \/ exists text, text ∈ texts /\ zone_parse text = Ok z.

Definition file_texts (es : list SinkholeEvent) : list string :=
  omap (fun e => match e with ZoneFile (Ok text) => Some text | _ => None end) es.

Lemma admin_zone read path metrics buf z :
  (sinkhole_admin read path metrics buf z).1 = z
  \/ exists text, read path = Ok text /\ zone_parse text = Ok (sinkhole_admin read path metrics buf z).1.
Proof.
  unfold sinkhole_admin, load_zone. set (req := from_utf8_lossy buf).
  destruct (starts_with req "GET /health"); [by left|]. destruct (_ || _).
  - destruct (read path) as [text|]; [|by left]. destruct (zone_parse text) as [z'|] eqn:E; [|by left]. right. by exists text.
  - destruct (starts_with req "GET /metrics"); [|by left]. destruct metrics; by left.
Qed.

(** A reload takes a file that parses and keeps the zone otherwise. *)
Lemma reload_zone read path metrics buf z :
  starts_with (from_utf8_lossy buf) "POST /api/zone/reload" = true ->
  (sinkhole_admin read path metrics buf z).1 = match load_zone read path with Ok z' => z' | Err _ => z end.
Proof.
  intros H. unfold sinkhole_admin. rewrite H. cbn [orb].
  destruct (starts_with (from_utf8_lossy buf) "GET /health") eqn:Hh.
  - apply starts_with_spec in H as [r Hr]. apply starts_with_spec in Hh as [r' Hr']. by rewrite Hr in Hr'.
  - by destruct (load_zone read path).
Qed.

(** Where the zone comes from: whatever happens to the file and on the port, the
    sinkhole answers by the zone it started with or by one it has parsed whole. *)
Theorem sinkhole_zone_provenance (s : SinkholeState) (es : list SinkholeEvent) :
  zone_from (ds_zone s) (match ds_file s with Ok text => [text] | Err _ => [] end ++ file_texts es) (ds_zone (sinkhole_run c forward s es)).
Proof.
  unfold sinkhole_run. revert s. induction es as [|e es IH]; intros s; [by left|]. cbn [foldl].
  destruct (IH (sinkhole_step c forward s e).1) as [->|(text & Hin & Ht)].
  - destruct e as [content|buf|packet]; [by left| |by left]. cbn [sinkhole_step fst ds_zone].
    destruct (admin_zone (fun _ => ds_file s) (sk_zone_path c) None buf (ds_zone s)) as [->|(text & Hf & Ht)]; [by left|].
    right. exists text. split; [rewrite Hf; left|done].
  - right. exists text. split; [|done]. destruct e as [content|buf|packet]; cbn [sinkhole_step fst ds_file] in Hin;
      [|exact Hin|exact Hin]. apply elem_of_app. right. destruct content as [t|]; cbn in *; [exact Hin|exact Hin].
Qed.

(** Events that leave the file alone. *)
Definition file_kept (e : SinkholeEvent) : Prop := match e with ZoneFile _ => False | _ => True end.

Lemma kept_zone s z es :
  (exists text, ds_file s = Ok text /\ zone_parse text = Ok z) -> ds_zone s = z -> Forall file_kept es ->
  ds_zone (sinkhole_run c forward s es) = z.
Proof.
  intros (text & Hf & Hz) Hs Hes. unfold sinkhole_run. revert s Hf Hs. induction Hes as [|e es He _ IH]; intros s Hf Hs; [done|].
  cbn [foldl]. destruct e as [content|buf|packet]; [done| |by apply IH]. apply IH; [done|]. cbn [sinkhole_step fst ds_zone].
  destruct (admin_zone (fun _ => ds_file s) (sk_zone_path c) None buf (ds_zone s)) as [->|(text' & Hf' & Ht)]; [done|].
  rewrite Hf in Hf'. injection Hf' as <-. congruence.
Qed.


End runs.

(** ** A run *)

Module Demo.

Definition demo_config : SinkholeConfig :=
  {| sk_enabled := true; sk_bind := "0.0.0.0:53"; sk_upstream := "1.1.1.1:53"; sk_zone_path := "zone.rpz";
     sk_dns := demo_dns_config; sk_metrics_port := 8092; sk_upstream_timeout := 2000000000; sk_doh_enabled := false;
     sk_doh_bind := "0.0.0.0:8443"; sk_dot_enabled := false; sk_dot_bind := "0.0.0.0:853"; sk_tls_cert_path := None;
     sk_tls_key_path := None |}.

Definition demo_packet : string := query_wire 4660 256 demo_counts ["Ads"; "example"; "com"]%string TYPE_A CLASS_IN EmptyString.

Definition demo_query : Query :=
  match parse_query demo_packet with
  | Some (Ok q) => q
  | _ => {| qy_id := 0; qy_recursion_desired := false;
            qy_question := {| qu_name := EmptyString; qu_qtype := 0; qu_qclass := 0 |}; qy_question_bytes := EmptyString |}
  end.

Definition demo_before : SinkholeState := {| ds_zone := empty_zone; ds_file := Err "No such file or directory"%string |}.


End Demo.
