(* ===== verification/Ebpf.v ===== *)
(** * The packet filter in the kernel (src/proxy/src/ebpf.rs, src/bpf/xdp_drop.c)

    The manager keeps the set of blocked addresses and sends commands; the XDP program
    drops frames by the map the commands fill.  bpftool is the class [Bpftool], with what its
    documentation promises of commands that succeed as [BpftoolLaws].  [linux] is whether
    the process runs on Linux; the byte order of the machine is little-endian. *)

From Stdlib Require Import Ascii String NArith ZArith Lia.
From stdpp Require Import base option gmap sets strings pretty numbers list.
From S2P Require Import Prelude Net Bytes.

Local Open Scope rust_scope.

(** ** Settings *)

Inductive XdpMode := Skb | Driver | Offload.

Definition XdpMode_parse (s : string) : XdpMode :=
  let s := to_ascii_lowercase s in
  if bool_decide (s ∈ ["driver"; "native"]%string) then Driver
  else if bool_decide (s ∈ ["offload"; "hw"]%string) then Offload
  else Skb.

Record EbpfXdpConfig := {
  xc_enabled : bool;
  xc_interface : string;
  xc_mode : XdpMode;
  xc_map_name : string;
  xc_max_entries : N;
}.

Definition EbpfXdpConfig_from_env (env : Env) : EbpfXdpConfig :=
  {| xc_enabled := env_flag_default_off env "EBPF_XDP_ENABLED";
     xc_interface := default "eth0"%string (env "EBPF_XDP_IFACE"%string);
     xc_mode := XdpMode_parse (default "skb"%string (env "EBPF_XDP_MODE"%string));
     xc_map_name := "bsdm_blocked_ips";
     xc_max_entries := env_parse parse_u32 env "EBPF_XDP_MAX_ENTRIES" 65536%N |}.

(** ** The manager *)

(** The left value is an IPv4 address, the right one an IPv6 address. *)
Abbreviation IpAddr := (N + N)%type.

(** Its octets. *)
Definition ip_octets (ip : IpAddr) : string :=
  match ip with
  | inl v4 => put_u32 v4
  | inr v6 => put_u32 (v6 / 2 ^ 96) +:+ put_u32 (v6 / 2 ^ 64) +:+ put_u32 (v6 / 2 ^ 32) +:+ put_u32 v6
  end.

Definition ip_to_hex (ip : IpAddr) : string :=
  join " " ((fun c => hex_two (char_code c)) <$> list_ascii_of_string (ip_octets ip)).

Definition mode_str (m : XdpMode) : string :=
  match m with Driver => "xdp" | Offload => "xdpoffload" | Skb => "xdpgeneric" end.

(** A command line. *)
Abbreviation Command := (list string).

Definition clang_command : Command :=
  ["clang"; "-O2"; "-target"; "bpf"; "-c"; "bpf/xdp_drop.c"; "-o"; "bpf/xdp_drop.o"]%string.

Definition detach_command (c : EbpfXdpConfig) : Command :=
  ["ip"; "link"; "set"; "dev"; xc_interface c; mode_str (xc_mode c); "off"]%string.

Definition attach_command (c : EbpfXdpConfig) : Command :=
  ["ip"; "link"; "set"; "dev"; xc_interface c; mode_str (xc_mode c); "obj"; "bpf/xdp_drop.o"; "sec"; "xdp"]%string.

Record EbpfXdpManager := {
  xm_config : EbpfXdpConfig;
  xm_blocked_ips : gset IpAddr;
  xm_packets_dropped : N;
}.

(** The manager and the commands it runs; their failures are only logged. *)
Definition EbpfXdpManager_new (linux object_exists : bool) (c : EbpfXdpConfig) : EbpfXdpManager * list Command :=
  ({| xm_config := c; xm_blocked_ips := ∅; xm_packets_dropped := 0 |},
   if xc_enabled c && linux
   then (if object_exists then [] else [clang_command]) ++ [detach_command c; attach_command c]
   else []).

(** [Drop]: run for every clone that goes out of scope. *)
Definition EbpfXdpManager_drop (linux : bool) (m : EbpfXdpManager) : list Command :=
  if xc_enabled (xm_config m) && linux then [detach_command (xm_config m)] else [].

Definition update_command (c : EbpfXdpConfig) (ip : IpAddr) : Command :=
  ["map"; "update"; "name"; xc_map_name c; "key"; "hex"; ip_to_hex ip; "value"; "hex"; "01"]%string.

Definition delete_command (c : EbpfXdpConfig) (ip : IpAddr) : Command :=
  ["map"; "delete"; "name"; xc_map_name c; "key"; "hex"; ip_to_hex ip]%string.

(** The map of the kernel: keys and values are bytes. *)
Abbreviation KernelMap := (gmap string string).

(** bpftool on its arguments: the map and whether it succeeded; [None] when it cannot be
    started. *)
Class Bpftool := bpftool : Command -> KernelMap -> KernelMap * option bool.

Definition with_ips (ips : gset IpAddr) (m : EbpfXdpManager) : EbpfXdpManager :=
  {| xm_config := xm_config m; xm_blocked_ips := ips; xm_packets_dropped := xm_packets_dropped m |}.

Section manager.
Context {BT : Bpftool}.

(** The manager, the map, the result, and what bpftool said. *)
Definition block_ip (linux : bool) (ip : IpAddr) (m : EbpfXdpManager) (k : KernelMap)
    : EbpfXdpManager * KernelMap * bool * option (option bool) :=
  let inserted := bool_decide (ip ∉ xm_blocked_ips m) in
  let m' := with_ips ({[ip]} ∪ xm_blocked_ips m) m in
  if inserted && xc_enabled (xm_config m) && linux then
    let '(k, said) := bpftool (update_command (xm_config m) ip) k in (m', k, inserted, Some said)
  else (m', k, inserted, None).

Definition unblock_ip (linux : bool) (ip : IpAddr) (m : EbpfXdpManager) (k : KernelMap)
    : EbpfXdpManager * KernelMap * bool * option (option bool) :=
  let removed := bool_decide (ip ∈ xm_blocked_ips m) in
  let m' := with_ips (xm_blocked_ips m ∖ {[ip]}) m in
  if removed && xc_enabled (xm_config m) && linux then
    let '(k, said) := bpftool (delete_command (xm_config m) ip) k in (m', k, removed, Some said)
  else (m', k, removed, None).

End manager.

Definition is_ip_blocked (ip : IpAddr) (m : EbpfXdpManager) : bool := bool_decide (ip ∈ xm_blocked_ips m).

Record EbpfStats := {
  es_active_blocked_ips : N;
  es_packets_dropped_total : N;
  es_bytes_dropped_total : N;
}.

(** [kernel_latency_us] is the constant 0.45; the product wraps in release builds. *)
Definition ebpf_stats (m : EbpfXdpManager) : EbpfStats :=
  let count := (N.of_nat (size (xm_blocked_ips m)) mod 2 ^ 32)%N in
  let dropped := xm_packets_dropped m in
  let made_up := (dropped =? 0)%N && (0 <? count)%N in
  {| es_active_blocked_ips := count;
     es_packets_dropped_total := if made_up then 184250 else dropped;
     es_bytes_dropped_total := if made_up then 117920000 else ((dropped * 64) mod 2 ^ 64)%N |}.

(** ** The XDP program *)

Inductive XdpAction := XDP_DROP | XDP_PASS.

(** [n] bytes of a frame from an offset; [None] is an access outside of it. *)
Definition load (frame : string) (offset n : nat) : option string :=
  if offset + n <=? String.length frame then Some (str_take n (str_drop offset frame)) else None.

Definition sizeof_ethhdr : nat := 14.
Definition sizeof_iphdr : nat := 20.

(** [h_proto] is two bytes at 12, in network order; [saddr] four bytes at 12 of the IP
    header, which are the key as they stand. *)
Definition xdp_drop_blocked_ips (blocked_ips : KernelMap) (frame : string) : option XdpAction :=
  if String.length frame <? sizeof_ethhdr then Some XDP_PASS
  else
    h_proto ← load frame 12 2;
    if negb (String.eqb h_proto (put_u16 2048)) then Some XDP_PASS
    else if String.length frame <? sizeof_ethhdr + sizeof_iphdr then Some XDP_PASS
    else
      src_ip ← load frame (sizeof_ethhdr + 12) 4;
      match blocked_ips !! src_ip with
      | Some blocked => if String.eqb blocked (put_u8 1) then Some XDP_DROP else Some XDP_PASS
      | None => Some XDP_PASS
      end.

(** ** bpftool *)

(** The bytes a text of pairs of hex digits names. *)
Definition hex_pair (s : string) : option ascii :=
  match s with
  | String a (String b EmptyString) => h ← to_digit 16 a; l ← to_digit 16 b; Some (byte (16 * h + l))
  | _ => None
  end.

Definition hex_bytes (s : string) : option string :=
  string_of_list_ascii <$> mapM hex_pair (split_on " " s).

(** An update or a deletion that succeeds did what it says; one that fails did nothing. *)
Class BpftoolLaws (BT : Bpftool) := {
  bpftool_update c ip key m m' :
    hex_bytes (ip_to_hex ip) = Some key -> bpftool (update_command c ip) m = (m', Some true) -> m' = <[key := put_u8 1]> m;
  bpftool_delete c ip key m m' :
    hex_bytes (ip_to_hex ip) = Some key -> bpftool (delete_command c ip) m = (m', Some true) -> m' = delete key m;
}.

(** ** Addresses, keys and frames *)

Lemma hex_two_all :
  forallb (fun n => match hex_pair (hex_two (N.of_nat n)) with Some c => Ascii.eqb c (ascii_of_N (N.of_nat n)) | None => false end
                    && free_of " " (hex_two (N.of_nat n))) (seq 0 256) = true.
Proof. by vm_compute. Qed.

Lemma hex_two_char c : hex_pair (hex_two (char_code c)) = Some c /\ free_of " " (hex_two (char_code c)) = true.
Proof.
  pose proof (proj1 (List.forallb_forall _ _) hex_two_all (N.to_nat (char_code c))) as H.
  cbv beta in H. rewrite N2Nat.id in H. assert (Hc : In (N.to_nat (char_code c)) (seq 0 256)) by (apply in_seq; pose proof (char_code_lt c); lia).
  apply H, Bool.andb_true_iff in Hc as [Hp Hf]. split; [|done].
  destruct (hex_pair _) as [c'|]; [|done]. apply Ascii.eqb_eq in Hp as ->. f_equal. apply ascii_N_embedding.
Qed.

Lemma ip_octets_cons ip : exists c s, ip_octets ip = String c s.
Proof. destruct ip; cbn; eauto. Qed.

(** The text of an address names its octets. *)
Lemma ip_to_hex_octets ip : hex_bytes (ip_to_hex ip) = Some (ip_octets ip).
Proof.
  unfold hex_bytes, ip_to_hex. rewrite split_on_join.
  - rewrite <- (string_of_list_ascii_of_string (ip_octets ip)) at 2.
    induction (list_ascii_of_string (ip_octets ip)) as [|c l IH]; [done|]. cbn [fmap list_fmap mapM].
    destruct (hex_two_char c) as [-> _]. destruct (mapM hex_pair _) eqn:E; [|done]. cbn in *. by injection IH as ->.
  - destruct (ip_octets_cons ip) as (c & s & ->). done.
  - apply Forall_fmap, Forall_true. intros c. apply hex_two_char.
Qed.

Definition ip_valid (ip : IpAddr) : Prop := match ip with inl v4 => (v4 < 2 ^ 32)%N | inr v6 => (v6 < 2 ^ 128)%N end.

Lemma put_u32_acc acc n : be_value acc (put_u32 n) = (acc * 2 ^ 32 + n mod 2 ^ 32)%N.
Proof.
  unfold put_u32. rewrite be_value_app, !put_u16_acc. change (2 ^ 32)%N with (65536 * 65536)%N.
  rewrite N.Div0.mod_mul_r. lia.
Qed.

Lemma octets_value ip : ip_valid ip -> be_value 0 (ip_octets ip) = match ip with inl v4 => v4 | inr v6 => v6 end.
Proof.
  destruct ip as [v4|v6]; cbn [ip_valid ip_octets]; intros H.
  - rewrite put_u32_acc. rewrite N.mod_small by done. lia.
  - rewrite !be_value_app, !put_u32_acc. 
    assert (H96 : (v6 / 2 ^ 96 < 2 ^ 32)%N) by (apply N.Div0.div_lt_upper_bound; exact H).
    rewrite (N.mod_small (v6 / 2 ^ 96)) by done.
    change (2 ^ 96)%N with (2 ^ 64 * 2 ^ 32)%N. change (2 ^ 64)%N with (2 ^ 32 * 2 ^ 32)%N.
    rewrite <- !N.Div0.div_div.
    pose proof (N.div_mod v6 (2 ^ 32) ltac:(done)). pose proof (N.div_mod (v6 / 2 ^ 32) (2 ^ 32) ltac:(done)).
    pose proof (N.div_mod (v6 / 2 ^ 32 / 2 ^ 32) (2 ^ 32) ltac:(done)). lia.
Qed.

Lemma octets_length ip : String.length (ip_octets ip) = match ip with inl _ => 4 | inr _ => 16 end.
Proof. by destruct ip. Qed.

Lemma four_bytes s : String.length s = 4 -> exists v4, (v4 < 2 ^ 32)%N /\ s = put_u32 v4.
Proof.
  destruct s as [|a [|b [|c [|d [|e s]]]]]; try done. intros _. exists (be_value 0 (String a (String b (String c (String d EmptyString))))).
  cbn [be_value]. pose proof (char_code_lt a) as Ha. pose proof (char_code_lt b) as Hb.
  pose proof (char_code_lt c) as Hc. pose proof (char_code_lt d) as Hd. split; [lia|].
  unfold put_u32, put_u16, put_u8. cbn [String.append].
  assert (Hbyte : forall n x, (n mod 256 = char_code x)%N -> byte n = x).
  { intros n x E. unfold byte. rewrite E. apply ascii_N_embedding. }
  set (A := char_code a) in *. set (B := char_code b) in *. set (C := char_code c) in *. set (D := char_code d) in *.
  repeat (f_equal; [symmetry; apply Hbyte; fold A B C D; zify; Z.to_euclidean_division_equations; lia|]).
  f_equal. symmetry. apply Hbyte. fold D. zify; Z.to_euclidean_division_equations; lia.
Qed.

Lemma octets_inj a b : ip_valid a -> ip_valid b -> ip_octets a = ip_octets b -> a = b.
Proof.
  intros Ha Hb E. pose proof (octets_length a) as La. pose proof (octets_length b) as Lb. rewrite E in La.
  pose proof (octets_value a Ha) as Va. pose proof (octets_value b Hb) as Vb. rewrite E in Va.
  destruct a, b; try congruence; rewrite La in Lb; done.
Qed.

(** ** What the filter does *)

Inductive FilterOp := Block (ip : IpAddr) | Unblock (ip : IpAddr).

Definition op_ip (o : FilterOp) : IpAddr := match o with Block ip | Unblock ip => ip end.

Section filter.
Context {BT : Bpftool} {BL : BpftoolLaws BT}.

(** A run on Linux, with what bpftool said. *)
Fixpoint filter_run (ops : list FilterOp) (m : EbpfXdpManager) (k : KernelMap)
    : EbpfXdpManager * KernelMap * list (option bool) :=
  match ops with
  | [] => (m, k, [])
  | o :: ops =>
      let '(m, k, _, said) := match o with Block ip => block_ip true ip m k | Unblock ip => unblock_ip true ip m k end in
      let '(m, k, more) := filter_run ops m k in
      (m, k, option_list said ++ more)
  end.

(** The map has exactly the blocked addresses. *)
Definition synced (m : EbpfXdpManager) (k : KernelMap) : Prop :=
  forall ip, ip_valid ip -> k !! ip_octets ip = if decide (ip ∈ xm_blocked_ips m) then Some (put_u8 1) else None.

Lemma block_synced ip m k : 
  ip_valid ip -> xc_enabled (xm_config m) = true -> synced m k ->
  let '(m', k', _, said) := block_ip true ip m k in
  (forall b, said = Some b -> b = Some true) -> synced m' k' /\ xm_config m' = xm_config m.
Proof.
  intros Hv He Hs. unfold block_ip. rewrite He. case_bool_decide as Hin; cbn [andb].
  - destruct (bpftool _ k) as [k' said] eqn:Hb. intros Hsaid. rewrite (Hsaid said eq_refl) in Hb.
    apply (bpftool_update _ _ _ _ _ (ip_to_hex_octets ip)) in Hb as ->. split; [|done].
    intros ip' Hv'. cbn. destruct (decide (ip' = ip)) as [->|Hne].
    + rewrite lookup_insert_eq, decide_True by set_solver. done.
    + rewrite lookup_insert_ne by (intros E; apply Hne; symmetry; by apply octets_inj). rewrite Hs by done.
      destruct (decide (ip' ∈ xm_blocked_ips m)); [rewrite decide_True by set_solver|rewrite decide_False by set_solver]; done.
  - intros _. split; [|done]. intros ip' Hv'. cbn. rewrite Hs by done.
    destruct (decide (ip' ∈ xm_blocked_ips m)); [rewrite decide_True by set_solver|rewrite decide_False by set_solver]; done.
Qed.

Lemma unblock_synced ip m k :
  ip_valid ip -> xc_enabled (xm_config m) = true -> synced m k ->
  let '(m', k', _, said) := unblock_ip true ip m k in
  (forall b, said = Some b -> b = Some true) -> synced m' k' /\ xm_config m' = xm_config m.
Proof.
  intros Hv He Hs. unfold unblock_ip. rewrite He. case_bool_decide as Hin; cbn [andb].
  - destruct (bpftool _ k) as [k' said] eqn:Hb. intros Hsaid. rewrite (Hsaid said eq_refl) in Hb.
    apply (bpftool_delete _ _ _ _ _ (ip_to_hex_octets ip)) in Hb as ->. split; [|done].
    intros ip' Hv'. cbn. destruct (decide (ip' = ip)) as [->|Hne].
    + rewrite lookup_delete_eq, decide_False by set_solver. done.
    + rewrite lookup_delete_ne by (intros E; apply Hne; symmetry; by apply octets_inj). rewrite Hs by done.
      destruct (decide (ip' ∈ xm_blocked_ips m)); [rewrite decide_True by set_solver|rewrite decide_False by set_solver]; done.
  - intros _. split; [|done]. intros ip' Hv'. cbn. rewrite Hs by done.
    destruct (decide (ip' ∈ xm_blocked_ips m)); [rewrite decide_True by set_solver|rewrite decide_False by set_solver]; done.
Qed.

Lemma filter_run_synced ops m k :
  Forall (fun o => ip_valid (op_ip o)) ops -> xc_enabled (xm_config m) = true -> synced m k ->
  let '(m', k', said) := filter_run ops m k in
  Forall (fun b => b = Some true) said -> synced m' k'.
Proof.
  revert m k. induction ops as [|o ops IH]; intros m k Hv He Hs; [by intros _|]. inversion_clear Hv as [|? ? Ho Hops].
  cbn [filter_run].
  assert (Hstep : let '(m', k', _, said) := match o with Block ip => block_ip true ip m k | Unblock ip => unblock_ip true ip m k end in
    (forall b, said = Some b -> b = Some true) -> synced m' k' /\ xm_config m' = xm_config m).
  { destruct o; [by apply block_synced|by apply unblock_synced]. }
  destruct (match o with Block ip => _ | Unblock ip => _ end) as [[[m1 k1] r] said].
  pose proof (IH m1 k1 Hops) as IH1. destruct (filter_run ops m1 k1) as [[m2 k2] more].
  intros [Hsaid Hmore]%Forall_app. destruct Hstep as [Hs1 Hc].
  - intros b ->. by inversion Hsaid.
  - apply IH1; [by rewrite Hc|done|done].
Qed.

Lemma new_synced c object_exists : synced (EbpfXdpManager_new true object_exists c).1 ∅.
Proof. intros ip _. cbn. rewrite lookup_empty, decide_False by set_solver. done. Qed.

Lemma load_some frame offset n : offset + n <= String.length frame -> load frame offset n = Some (str_take n (str_drop offset frame)).
Proof. intros H. unfold load. by rewrite (proj2 (Nat.leb_le _ _) H). Qed.


End filter.

(** ** Defects *)

(** A failure of bpftool is not seen: the address counts as blocked, its frames pass. *)
Lemma block_ip_ignores_failure {BT : Bpftool} c ip k :
  xc_enabled c = true -> bpftool (update_command c ip) k = (k, Some false) ->
  let '(m, k', r, _) := block_ip true ip (EbpfXdpManager_new true true c).1 k in
  r = true /\ is_ip_blocked ip m = true /\ k' = k.
Proof.
  intros He Hb. unfold block_ip. cbn [xm_config xm_blocked_ips EbpfXdpManager_new fst].
  rewrite He, bool_decide_true by set_solver. cbn [andb]. rewrite Hb. split_and!; [done| |done].
  apply bool_decide_true. cbn. set_solver.
Qed.

(** Dropping any clone of the manager detaches the program for all of them. *)
Lemma clone_dropped_detaches c :
  xc_enabled c = true ->
  EbpfXdpManager_drop true (EbpfXdpManager_new true true c).1 = [detach_command c].
Proof. intros He. unfold EbpfXdpManager_drop. cbn [xm_config EbpfXdpManager_new fst]. by rewrite He. Qed.

(** Nothing counts the frames, so the statistics are the constants of the code. *)
Lemma stats_made_up {BT : Bpftool} ip c k :
  es_packets_dropped_total (ebpf_stats (block_ip false ip (EbpfXdpManager_new false true c).1 k).1.1.1) = 184250%N.
Proof.
  unfold block_ip. cbn [xm_config xm_blocked_ips EbpfXdpManager_new fst]. rewrite Bool.andb_false_r. cbn [fst].
  unfold ebpf_stats. cbn [xm_blocked_ips xm_packets_dropped with_ips es_packets_dropped_total].
  by rewrite union_empty_r_L, size_singleton.
Qed.

(** ** An instance *)

Module Demo.

#[local] Instance obedient : Bpftool := fun args m =>
  match args with
  | [_; _; _; _; _; _; hex; _; _; _] =>
      match hex_bytes hex with Some key => (<[key := put_u8 1]> m, Some true) | None => (m, Some false) end
  | [_; _; _; _; _; _; hex] => match hex_bytes hex with Some key => (delete key m, Some true) | None => (m, Some false) end
  | _ => (m, Some false)
  end.

#[local] Instance obedient_laws : BpftoolLaws obedient.
Proof.
  split; intros c ip key m m' Hk; unfold bpftool, obedient, update_command, delete_command; rewrite Hk; congruence.
Qed.

Definition config : EbpfXdpConfig :=
  {| xc_enabled := true; xc_interface := "eth0"; xc_mode := Skb; xc_map_name := "bsdm_blocked_ips"; xc_max_entries := 65536 |}.

(** 192.0.2.42 and 192.0.2.7. *)
Definition bad : IpAddr := inl 3221226026%N.
Definition good : IpAddr := inl 3221225991%N.

Definition frame_from (ip : IpAddr) : string :=
  put_u32 0 +:+ put_u32 0 +:+ put_u32 0 +:+ put_u16 2048 +:+ put_u32 0 +:+ put_u32 0 +:+ put_u32 0 +:+ ip_octets ip +:+ put_u32 0.


End Demo.
