(* ===== verification/EndpointAgent.v ===== *)
(** * The endpoint agent (src/examples/agent-spike/src)

    policy.rs, engine.rs, system_proxy.rs and main.rs: the policy an endpoint enforces by
    itself, its exchanges with the control plane, and the proxy settings of the operating
    system.  Replies of the control plane, the clock, the arguments of the process and the
    outcomes of commands are arguments; serde_json is the class [SerdeJson]. *)

From Stdlib Require Import Ascii String NArith ZArith Lia.
From stdpp Require Import base option gmap sets strings pretty numbers list.
From S2P Require Import Prelude Bytes Utf8 Hosts CacheDigest Http CacheEntry SemanticCache ClickHouse Devices Pinning Policy ProxyService MlScoring AgentPolicy AgentApi.

Local Open Scope rust_scope.

(** ** The policy (policy.rs) *)

Record LocalPolicy := {
  lp_policy_version : string;
  lp_policy_mode : string;
  lp_mitm_categories : gset string;
  lp_sni_deny_patterns : list string;
  lp_pinning_exceptions : gset string;
}.

Definition LocalPolicy_default : LocalPolicy :=
  {| lp_policy_version := "v0.1-offline"; lp_policy_mode := "selective-mitm";
     lp_mitm_categories := list_to_set ["malware"; "phishing"; "illegal-content"]%string;
     lp_sni_deny_patterns := ["*.evil.com"; "badsite.test"]%string;
     lp_pinning_exceptions := list_to_set [".slack.com"; ".teams.microsoft.com"; ".zoom.us"]%string |}.

Record SniRuleDto := {
  sr_pattern : string;
  sr_action : string;
}.

Record RemotePolicyDto := {
  rp_policy_version : string;
  rp_policy_mode : string;
  rp_mitm_categories : list string;
  rp_pinning_exceptions : list string;
  rp_sni_deny_patterns : list string;
  rp_sni_rules : list SniRuleDto;
}.

Definition is_deny_rule (r : SniRuleDto) : bool :=
  let action := to_ascii_lowercase (sr_action r) in str_is_empty action || String.eqb action "deny".

(** Without patterns of its own a policy takes those of its rules, and without rules the
    built-in ones. *)
Definition from_remote (dto : RemotePolicyDto) : LocalPolicy :=
  let sni_deny :=
    match rp_sni_deny_patterns dto with
    | [] => sr_pattern <$> List.filter is_deny_rule (rp_sni_rules dto)
    | l => l
    end in
  {| lp_policy_version := rp_policy_version dto; lp_policy_mode := rp_policy_mode dto;
     lp_mitm_categories := list_to_set (rp_mitm_categories dto);
     lp_sni_deny_patterns := match sni_deny with [] => lp_sni_deny_patterns LocalPolicy_default | l => l end;
     lp_pinning_exceptions := list_to_set (rp_pinning_exceptions dto) |}.

Inductive LocalDecision :=
| LAllow
| LDeny (reason : string)
| LBypassMitm (reason : string)
| LInspectMitm (category : string).

Definition pattern_matches (domain_lower pattern : string) : bool :=
  if starts_with pattern "*." then ends_with domain_lower (str_drop 1 pattern) else String.eqb domain_lower pattern.

Definition deny_reason (pattern : string) : string :=
  (if starts_with pattern "*." then "SNI pattern match: " else "SNI exact match: ") +:+ pattern.

Definition exception_matches (domain_lower exc : string) : bool :=
  if starts_with exc "." then ends_with domain_lower exc || String.eqb domain_lower (trim_start_matches "." exc)
  else String.eqb domain_lower exc.

Definition evaluate_domain (policy : LocalPolicy) (domain : string) : LocalDecision :=
  let domain_lower := to_ascii_lowercase domain in
  match List.find (pattern_matches domain_lower) (lp_sni_deny_patterns policy) with
  | Some pattern => LDeny (deny_reason pattern)
  | None =>
      if existsb (exception_matches domain_lower) (elements (lp_pinning_exceptions policy))
      then LBypassMitm "certificate_pinning_exception"
      else if String.eqb (lp_policy_mode policy) "sni" then LAllow
      else if String.eqb (lp_policy_mode policy) "full-mitm" then LInspectMitm "full-mitm-default"
      else if bool_decide ("phishing"%string ∈ lp_mitm_categories policy) && str_contains domain_lower "phish"
      then LInspectMitm "phishing"
      else LAllow
  end.

(** *** Reading a policy

    serde's derived readers, over the value of a text that repeats no member.  They take
    a structure from an object, or from an array of its fields in their order. *)

Fixpoint strings_of (l : list json) : option (list string) :=
  match l with
  | [] => Some []
  | v :: l => s ← as_str v; ss ← strings_of l; Some (s :: ss)
  end.

(** A field of [#[serde(default)]]: it may be missing but not of another type. *)
Definition or_default {A} (dflt : A) (read : json -> option A) (v : option json) : option A :=
  match v with None => Some dflt | Some w => read w end.

Definition read_strings (v : json) : option (list string) := as_array v ≫= strings_of.

Definition sni_rule_fields (pattern action : option json) : option SniRuleDto :=
  p ← pattern ≫= as_str;
  a ← or_default EmptyString as_str action;
  Some {| sr_pattern := p; sr_action := a |}.

Definition sni_rule_of (v : json) : option SniRuleDto :=
  match v with
  | JObject _ => sni_rule_fields (json_get "pattern" v) (json_get "action" v)
  | JArray l => if Nat.leb (length l) 2 then sni_rule_fields (l !! 0) (l !! 1) else None
  | _ => None
  end.

Definition dto_fields (version mode categories exceptions patterns rules : option json) : option RemotePolicyDto :=
  version ← version ≫= as_str;
  mode ← mode ≫= as_str;
  categories ← or_default [] read_strings categories;
  exceptions ← or_default [] read_strings exceptions;
  patterns ← or_default [] read_strings patterns;
  rules ← or_default [] (fun w => as_array w ≫= mapM sni_rule_of) rules;
  Some {| rp_policy_version := version; rp_policy_mode := mode; rp_mitm_categories := categories;
          rp_pinning_exceptions := exceptions; rp_sni_deny_patterns := patterns; rp_sni_rules := rules |}.

Definition dto_of_json (v : json) : option RemotePolicyDto :=
  match v with
  | JObject _ =>
      dto_fields (json_get "policy_version" v) (json_get "policy_mode" v) (json_get "mitm_categories" v)
        (json_get "pinning_exceptions" v) (json_get "sni_deny_patterns" v) (json_get "sni_rules" v)
  | JArray l =>
      if Nat.leb (length l) 6 then dto_fields (l !! 0) (l !! 1) (l !! 2) (l !! 3) (l !! 4) (l !! 5) else None
  | _ => None
  end.

(** ** The engine (engine.rs) *)

Definition hex_digit_upper (d : N) : ascii := ascii_of_N (if (d <? 10)%N then 48 + d else 55 + d).

(** [{:02X}] of a byte. *)
Definition hex_two_upper (b : N) : string :=
  String (hex_digit_upper (N.shiftr b 4)) (String (hex_digit_upper (N.land b 15)) EmptyString).

Definition unreserved (c : ascii) : bool :=
  is_ascii_alphanumeric c || bool_decide (c ∈ ["-"; "_"; "."; "~"]%char).

(** [c as u8]: the low eight bits of the code of a character given by its bytes, of which
    every one after the first carries six. *)
Definition char_as_u8 (c : string) : N :=
  match reverse (list_ascii_of_string c) with
  | [] => 0
  | [b] => char_code b
  | b :: b' :: _ => N.lor (N.shiftl (N.land (char_code b') 3) 6) (N.land (char_code b) 63)
  end.

Definition encode_char (c : string) : string :=
  match c with
  | String b EmptyString => if unreserved b then c else "%" +:+ hex_two_upper (char_as_u8 c)
  | _ => "%" +:+ hex_two_upper (char_as_u8 c)
  end.

Definition urlencoding_minimal (s : string) : string := foldr (fun c rest => encode_char c +:+ rest) EmptyString (utf8_chars s).

Definition http_to_ws_url (control_plane : string) : string :=
  let base := trim_end_matches "/" control_plane in
  let ws_base :=
    match strip_prefix "https://" base with
    | Some rest => "wss://" +:+ rest
    | None => match strip_prefix "http://" base with Some rest => "ws://" +:+ rest | None => base end
    end in
  ws_base +:+ "/api/v1/agent/policy/ws".

Definition decision_action (d : LocalDecision) : string * option string :=
  match d with
  | LAllow => ("allow"%string, None)
  | LDeny reason => ("deny"%string, Some reason)
  | LBypassMitm reason => ("bypass"%string, Some reason)
  | LInspectMitm category => ("inspect"%string, Some category)
  end.

Record AgentEngine := {
  ae_device_id : string;
  ae_device_name : string;
  ae_device_type : string;
  ae_device_ip : option string;
  ae_platform : string;
  ae_control_plane_url : string;
  ae_control_api_token : option string;
  ae_heartbeat_interval : N;
  ae_policy : LocalPolicy;
}.

Definition agent_new (device_id device_name device_type : string) (device_ip : option string)
    (platform control_plane_url : string) (control_api_token : option string) (heartbeat_interval : N) : AgentEngine :=
  {| ae_device_id := device_id; ae_device_name := device_name; ae_device_type := device_type; ae_device_ip := device_ip;
     ae_platform := platform; ae_control_plane_url := control_plane_url; ae_control_api_token := control_api_token;
     ae_heartbeat_interval := heartbeat_interval; ae_policy := LocalPolicy_default |}.

Definition with_policy (p : LocalPolicy) (a : AgentEngine) : AgentEngine :=
  {| ae_device_id := ae_device_id a; ae_device_name := ae_device_name a; ae_device_type := ae_device_type a;
     ae_device_ip := ae_device_ip a; ae_platform := ae_platform a; ae_control_plane_url := ae_control_plane_url a;
     ae_control_api_token := ae_control_api_token a; ae_heartbeat_interval := ae_heartbeat_interval a; ae_policy := p |}.

Definition set_api_token (token : option string) (a : AgentEngine) : AgentEngine :=
  {| ae_device_id := ae_device_id a; ae_device_name := ae_device_name a; ae_device_type := ae_device_type a;
     ae_device_ip := ae_device_ip a; ae_platform := ae_platform a; ae_control_plane_url := ae_control_plane_url a;
     ae_control_api_token := token; ae_heartbeat_interval := ae_heartbeat_interval a; ae_policy := ae_policy a |}.

Record AgentRequest := {
  aq_method : string;
  aq_url : string;
  aq_bearer : option string;
  aq_body : option json;
}.

Definition agent_url (a : AgentEngine) (path : string) : string := trim_end_matches "/" (ae_control_plane_url a) +:+ path.

(** The error of sending, or a status and the body or the error of reading it. *)
Abbreviation Reply := (result (N * result string string) string).

Definition opt_json (s : option string) : json := match s with Some s => JString s | None => JNull end.

Section engine.
Context {SJ : SerdeJson} {DT : DisplayText}.

Definition policy_request (a : AgentEngine) : AgentRequest :=
  {| aq_method := "GET"; aq_url := agent_url a "/api/v1/agent/policy"; aq_bearer := ae_control_api_token a; aq_body := None |}.

(** [Response::json]. *)
Definition dto_of_body (body : result string string) : option RemotePolicyDto :=
  match body with Ok text => json_from_slice text ≫= dto_of_json | Err _ => None end.

(** A failure keeps the policy; the text of the library's error is left out. *)
Definition pull_policy (reply : Reply) (a : AgentEngine) : AgentEngine * result unit string :=
  match reply with
  | Err e => (a, Err ("policy pull transport: " +:+ e))
  | Ok (status, body) =>
      if negb (is_success status) then (a, Err ("policy pull HTTP " +:+ status_display status))
      else
        match dto_of_body body with
        | None => (a, Err "policy pull decode"%string)
        | Some dto => (with_policy (from_remote dto) a, Ok tt)
        end
  end.

Definition heartbeat_request (agent_version : string) (a : AgentEngine) : AgentRequest :=
  {| aq_method := "POST"; aq_url := agent_url a "/api/v1/agent/heartbeat"; aq_bearer := ae_control_api_token a;
     aq_body := Some (json_object
       [("device_id", JString (ae_device_id a)); ("name", JString (ae_device_name a)); ("device_type", JString (ae_device_type a));
        ("ip", opt_json (ae_device_ip a)); ("status", JString "healthy"); ("agent_version", JString agent_version);
        ("policy_version", JString (lp_policy_version (ae_policy a))); ("trust_score", json_u64 90)]%string) |}.

Definition heartbeat_outcome (reply : Reply) : result unit string :=
  match reply with
  | Err e => Err ("heartbeat transport: " +:+ e)
  | Ok (status, _) => if is_success status then Ok tt else Err ("heartbeat HTTP " +:+ status_display status)
  end.

(** One turn of [run_heartbeat_loop]: a failure of either is only logged.  The second
    component is what is sent. *)
Definition heartbeat_turn (agent_version : string) (pulled : Reply) (a : AgentEngine) : AgentEngine * list AgentRequest :=
  let a' := (pull_policy pulled a).1 in (a', [policy_request a; heartbeat_request agent_version a']).

(** A message of the WebSocket; [WsClosed] is a closing message or an error. *)
Inductive WsMessage := WsText (text : string) | WsPing (payload : string) | WsClosed | WsOther.

(** Messages until the connection ends, and the payloads of the pongs sent. *)
Fixpoint ws_messages (msgs : list WsMessage) (a : AgentEngine) : AgentEngine * list string :=
  match msgs with
  | [] | WsClosed :: _ => (a, [])
  | WsText text :: msgs =>
      ws_messages msgs match json_from_slice text ≫= dto_of_json with Some dto => with_policy (from_remote dto) a | None => a end
  | WsPing p :: msgs => let '(a', pongs) := ws_messages msgs a in (a', p :: pongs)
  | WsOther :: msgs => ws_messages msgs a
  end.

(** The Authorization header of the upgrade. *)
Definition ws_authorization {HC : HeaderCodec} (a : AgentEngine) : option string :=
  token ← ae_control_api_token a; HeaderValue_from_str ("Bearer " +:+ token).

(** One turn of [watch_policy_ws_loop], with the seconds it sleeps: [None] is a request
    that cannot be built, [Some None] a connection that fails. *)
Definition watch_policy_ws_turn (conn : option (option (list WsMessage))) (a : AgentEngine) : AgentEngine * N :=
  match conn with
  | None => (a, 3%N)
  | Some None => (a, 2%N)
  | Some (Some msgs) => ((ws_messages msgs a).1, 2%N)
  end.

Definition watch_query (timeout_secs : N) (a : AgentEngine) : string :=
  "since=" +:+ urlencoding_minimal (lp_policy_version (ae_policy a)) +:+ "&timeout_secs=" +:+ pretty (N.max timeout_secs 5).

Definition watch_request (timeout_secs : N) (a : AgentEngine) : AgentRequest :=
  {| aq_method := "GET"; aq_url := agent_url a "/api/v1/agent/policy/watch?" +:+ watch_query timeout_secs a;
     aq_bearer := ae_control_api_token a; aq_body := None |}.

(** One turn of [watch_policy_loop], with the seconds it sleeps.  [since] is the version
    it asked with; the other loop may have replaced the policy meanwhile. *)
Definition watch_policy_turn (since : string) (reply : Reply) (a : AgentEngine) : AgentEngine * N :=
  match reply with
  | Ok (status, body) =>
      if is_success status then
        match dto_of_body body with
        | Some dto =>
            let mapped := from_remote dto in
            (if negb (String.eqb (lp_policy_version mapped) since) then with_policy mapped a else a, 0%N)
        | None => (a, 0%N)
        end
      else (a, 0%N)
  | Err _ => (a, 2%N)
  end.

(** [csr] is the private key and the signing request, as rcgen makes them. *)
Definition enroll_request (enroll_token : option string) (csr : option (string * string)) (a : AgentEngine) : AgentRequest :=
  {| aq_method := "POST"; aq_url := agent_url a "/api/v1/agent/enroll";
     aq_bearer := match non_empty enroll_token with Some t => Some t | None => ae_control_api_token a end;
     aq_body := Some (json_object
       ([("device_id", JString (ae_device_id a)); ("name", JString (ae_device_name a)); ("platform", JString (ae_platform a));
         ("device_type", JString (ae_device_type a)); ("capabilities", JArray [JString "local-proxy"])]%string
        ++ match csr with
           | Some (_, pem) => [("csr_pem", JString pem); ("cert_validity_days", json_u64 90)]%string
           | None => []
           end)) |}.

Record Enrolled := {
  er_device_id : string;
  er_device_token : string;
  er_client_cert : option string;
  er_ca_cert : option string;
}.

Definition enroll_outcome (reply : Reply) (a : AgentEngine) : result Enrolled string :=
  match reply with
  | Err e => Err ("enroll transport: " +:+ e)
  | Ok (_, Err e) => Err ("enroll body: " +:+ e)
  | Ok (status, Ok text) =>
      if negb (is_success status) then Err ("enroll HTTP " +:+ status_display status +:+ ": " +:+ text)
      else
        match json_from_slice text with
        | None => Err "enroll decode"%string
        | Some v =>
            match json_get "device_token" v ≫= as_str with
            | None => Err "enroll response missing device_token"%string
            | Some token =>
                Ok {| er_device_id := default (ae_device_id a) (json_get "device_id" v ≫= as_str); er_device_token := token;
                      er_client_cert := json_get "client_cert_pem" v ≫= as_str; er_ca_cert := json_get "ca_cert_pem" v ≫= as_str |}
            end
        end
  end.

(** A block of the standard output. *)
Definition pem_block (name pem : string) : string := name +:+ "_PEM_BEGIN" +:+ nl +:+ pem +:+ name +:+ "_PEM_END" +:+ nl.

(** What an enrolment prints. *)
Definition enroll_output (csr : option (string * string)) (e : Enrolled) : string :=
  match csr, er_client_cert e with Some (key, _), Some _ => pem_block "DEVICE_KEY" key | _, _ => EmptyString end
  +:+ match er_client_cert e with Some cert => pem_block "DEVICE_CERT" cert | None => EmptyString end
  +:+ match er_ca_cert e with Some ca => pem_block "CA_CERT" ca | None => EmptyString end.

(** [keys] is what rcgen makes where a certificate is wanted: nothing is sent when it
    fails. *)
Definition enroll (enroll_token : option string) (keys : option (result (string * string) string)) (reply : Reply)
    (a : AgentEngine) : list AgentRequest * string * result Enrolled string :=
  match keys with
  | Some (Err e) => ([], EmptyString, Err e)
  | _ =>
      let csr := match keys with Some (Ok k) => Some k | _ => None end in
      let res := enroll_outcome reply a in
      ([enroll_request enroll_token csr a], match res with Ok e => enroll_output csr e | Err _ => EmptyString end, res)
  end.

(** *** Events *)

Definition demo_domains : list string := ["google.com"; "slack.com"; "phish-test.com"; "badsite.test"; "sub.evil.com"]%string.

(** [now] is the clock, in seconds since 1970. *)
Definition agent_event (now : N) (a : AgentEngine) (domain : string) : json :=
  let '(action, reason) := decision_action (evaluate_domain (ae_policy a) domain) in
  json_object
    [("domain", JString domain); ("action", JString action); ("decision_source", JString "local-agent"); ("timestamp", json_u64 now);
     ("reason", opt_json reason); ("policy_version", JString (lp_policy_version (ae_policy a)))]%string.

(** The clock is read for every domain.  Nothing else runs yet, so that the policy is
    the same for all of them. *)
Definition demo_evaluate (clock : nat -> N) (a : AgentEngine) : list json :=
  imap (fun i domain => agent_event (clock i) a domain) demo_domains.

(** No request without events. *)
Definition events_request (events : list json) (a : AgentEngine) : option AgentRequest :=
  match events with
  | [] => None
  | _ =>
      Some {| aq_method := "POST"; aq_url := agent_url a "/api/v1/agent/events"; aq_bearer := ae_control_api_token a;
              aq_body := Some (json_object [("device_id", JString (ae_device_id a)); ("events", JArray events)]%string) |}
  end.

Definition events_outcome (events : list json) (reply : Reply) : result unit string :=
  match events with
  | [] => Ok tt
  | _ =>
      match reply with
      | Err e => Err ("events transport: " +:+ e)
      | Ok (status, body) =>
          if is_success status then Ok tt
          else Err ("events HTTP " +:+ status_display status +:+ ": " +:+ match body with Ok text => text | Err _ => EmptyString end)
      end
  end.

(** The requests of one round, given the replies, and its outcome. *)
Definition run_once (agent_version : string) (clock : nat -> N) (pulled posted beaten : Reply) (a : AgentEngine)
    : AgentEngine * list AgentRequest * result unit string :=
  let '(a', r) := pull_policy pulled a in
  match r with
  | Err e => (a', [policy_request a], Err e)
  | Ok _ =>
      let events := demo_evaluate clock a' in
      let sent := policy_request a :: option_list (events_request events a') in
      match events_outcome events posted with
      | Err e => (a', sent, Err e)
      | Ok _ => (a', sent ++ [heartbeat_request agent_version a'], heartbeat_outcome beaten)
      end
  end.

(** *** The loops: they run beside each other over the one policy *)

Inductive SyncStep :=
| SyncPull (reply : Reply)
| SyncWatch (since : string) (reply : Reply)
| SyncSocket (conn : option (option (list WsMessage))).

Definition sync_step (a : AgentEngine) (s : SyncStep) : AgentEngine :=
  match s with
  | SyncPull reply => (pull_policy reply a).1
  | SyncWatch since reply => (watch_policy_turn since reply a).1
  | SyncSocket conn => (watch_policy_ws_turn conn a).1
  end.

Definition reply_document (reply : Reply) : list RemotePolicyDto :=
  match reply with
  | Ok (status, body) => if is_success status then option_list (dto_of_body body) else []
  | Err _ => []
  end.

Definition ws_document (m : WsMessage) : option RemotePolicyDto :=
  match m with WsText text => json_from_slice text ≫= dto_of_json | _ => None end.

(** The documents that arrive in a step. *)
Definition arrived (s : SyncStep) : list RemotePolicyDto :=
  match s with
  | SyncPull reply | SyncWatch _ reply => reply_document reply
  | SyncSocket (Some (Some msgs)) => omap ws_document msgs
  | SyncSocket _ => []
  end.

End engine.

(** ** Settings and start (main.rs) *)

Definition agent_env_flag (env : Env) (name : string) : bool :=
  match env name with Some v => bool_decide (v ∈ ["1"; "true"; "TRUE"; "yes"; "YES"]%string) | None => false end.

Definition has_arg (args : list string) (flag : string) : bool := existsb (fun a => String.eqb a flag) args.

Inductive TargetOs := MacOs | LinuxOs | WindowsOs | OtherOs.

Record AgentSettings := {
  sg_engine : AgentEngine;
  sg_enroll_token : option string;
  sg_with_mtls : bool;
  sg_do_enroll : bool;
  sg_once : bool;
  sg_policy_push : bool;
  sg_policy_ws : bool;
  sg_watch_secs : N;
  sg_manage_proxy : bool;
}.

Definition agent_settings (os : TargetOs) (env : Env) (args : list string) : AgentSettings :=
  let device_id := default "dev-mac-001"%string (env "DEVICE_ID"%string) in
  let platform := match os with MacOs => "macos" | WindowsOs => "windows" | _ => "linux" end%string in
  let control_api_token := non_empty (env "CONTROL_API_TOKEN"%string) in
  let device_token := non_empty (env "DEVICE_TOKEN"%string) in
  let with_mtls := agent_env_flag env "AGENT_MTLS" || has_arg args "--mtls" in
  {| sg_engine :=
       agent_new device_id (default ("agent-" +:+ device_id) (env "DEVICE_NAME"%string))
         (default "desktop"%string (env "DEVICE_TYPE"%string)) (non_empty (env "DEVICE_IP"%string))
         (default platform (env "DEVICE_PLATFORM"%string))
         (default "http://127.0.0.1:9090"%string (env "CONTROL_PLANE_URL"%string)) (Devices.or_else device_token control_api_token)
         (N.max (env_parse parse_u64 env "HEARTBEAT_INTERVAL_SECS" 30%N) 5);
     sg_enroll_token := Devices.or_else (non_empty (env "AGENT_ENROLL_TOKEN"%string)) control_api_token;
     sg_with_mtls := with_mtls;
     sg_do_enroll :=
       agent_env_flag env "AGENT_ENROLL" || has_arg args "--enroll" || with_mtls || negb (bool_decide (is_Some device_token));
     sg_once := agent_env_flag env "AGENT_ONCE" || has_arg args "--once";
     sg_policy_push :=
       negb match env "AGENT_POLICY_PUSH"%string with
            | Some v => bool_decide (v ∈ ["0"; "false"; "FALSE"; "no"; "off"]%string)
            | None => false
            end && negb (has_arg args "--no-policy-push");
     sg_policy_ws := agent_env_flag env "AGENT_POLICY_WS" || has_arg args "--policy-ws";
     sg_watch_secs := env_parse parse_u64 env "AGENT_POLICY_WATCH_SECS" 25%N;
     sg_manage_proxy := agent_env_flag env "AGENT_MANAGE_SYSTEM_PROXY" || has_arg args "--manage-system-proxy" |}.

(** What the outside answers at the start. *)
Record StartInputs := {
  si_keys : result (string * string) string;
  si_enrolled : Reply;
  si_pulled : Reply;
  si_posted : Reply;
  si_beaten : Reply;
  si_clock : nat -> N;
}.

Section start.
Context {SJ : SerdeJson} {DT : DisplayText}.

(** The enrolment of [main]: without [--once] a failure leaves the credentials. *)
Definition start_enroll (g : AgentSettings) (inp : StartInputs) : result (AgentEngine * list AgentRequest * string) string :=
  let a := sg_engine g in
  if sg_do_enroll g then
    let '(sent, out, res) := enroll (sg_enroll_token g) (if sg_with_mtls g then Some (si_keys inp) else None) (si_enrolled inp) a in
    match res with
    | Ok e => Ok (set_api_token (Some (er_device_token e)) a, sent, out +:+ "DEVICE_TOKEN=" +:+ er_device_token e +:+ nl)
    | Err e => if sg_once g then Err ("enroll failed: " +:+ e) else Ok (a, sent, out)
    end
  else Ok (a, [], EmptyString).

(** The pull, the events and the heartbeat before the loops, failures only logged. *)
Definition start_report (agent_version : string) (inp : StartInputs) (a : AgentEngine) : AgentEngine * list AgentRequest :=
  let a' := (pull_policy (si_pulled inp) a).1 in
  (a', policy_request a :: option_list (events_request (demo_evaluate (si_clock inp) a') a') ++ [heartbeat_request agent_version a']).

(** The engine the loops start with, the requests after the enrolment, and the outcome. *)
Definition agent_start (agent_version : string) (g : AgentSettings) (inp : StartInputs)
    : result (AgentEngine * list AgentRequest * result unit string) string :=
  let? r := start_enroll g inp in
  let a := r.1.1 in
  Ok (if sg_once g then run_once agent_version (si_clock inp) (si_pulled inp) (si_posted inp) (si_beaten inp) a
      else let '(a', sent) := start_report agent_version inp a in (a', sent, Ok tt)).

End start.

(** ** The proxy of the operating system (system_proxy.rs) *)

Record ProxyEndpoint := {
  pe_host : string;
  pe_port : N;
  pe_bypass : list string;
}.

Definition default_bypass : list string := ["localhost"; "127.0.0.1"; "::1"; "*.local"]%string.

Definition ProxyEndpoint_from_env (env : Env) : ProxyEndpoint :=
  let listed s := List.filter (fun p => negb (str_is_empty p)) (trim <$> split_on "," s) in
  {| pe_host := default "127.0.0.1"%string (Devices.or_else (env "SYSTEM_PROXY_HOST"%string) (env "DATA_PLANE_PROXY_HOST"%string));
     pe_port :=
       default 3128%N
         (Devices.or_else (Devices.or_else (env "SYSTEM_PROXY_PORT"%string) (env "DATA_PLANE_PROXY_PORT"%string) ≫= parse_u16)
            (env "HTTP_PORT"%string ≫= parse_u16));
     pe_bypass :=
       match listed <$> env "SYSTEM_PROXY_BYPASS"%string with
       | None | Some [] => default_bypass
       | Some l => l
       end |}.

Definition authority (ep : ProxyEndpoint) : string := pe_host ep +:+ ":" +:+ pretty (pe_port ep).

Definition platform_tag (os : TargetOs) : string :=
  match os with MacOs => "macos" | WindowsOs => "windows" | LinuxOs => "linux" | OtherOs => "other" end.

(** A command's output: whether it succeeded, its status, standard output and error. *)
Record CommandOutput := {
  co_success : bool;
  co_status : string;
  co_stdout : string;
  co_stderr : string;
}.

(** Running commands and changing files; [Some] of a text is an error.  [debug_args] is
    the [Debug] text of the arguments. *)
Record Machine := {
  mc_output : list string -> result CommandOutput string;
  mc_debug_args : list string -> string;
  mc_mkdir : string -> option string;
  mc_write : string -> option string;
  mc_remove : string -> option string;
}.

(** The commands that ran and the files. *)
Record OsState := {
  os_ran : list (list string);
  os_files : gmap string string;
}.

Section system_proxy.
Context (mc : Machine).

(** [run], with the output of the command. *)
Definition run_result (cmd : string) (args : list string) : result string string :=
  match mc_output mc (cmd :: args) with
  | Err e => Err ("exec " +:+ cmd +:+ ": " +:+ e)
  | Ok out =>
      if negb (co_success out)
      then Err (cmd +:+ " " +:+ mc_debug_args mc args +:+ " failed (" +:+ co_status out +:+ "): " +:+
                trim (from_utf8_lossy (co_stdout out)) +:+ " " +:+ trim (from_utf8_lossy (co_stderr out)))
      else Ok (trim (from_utf8_lossy (co_stdout out)))
  end.

Definition ran (cmds : list (list string)) (st : OsState) : OsState :=
  {| os_ran := os_ran st ++ cmds; os_files := os_files st |}.

(** *** macOS *)

Definition list_services : list string := ["networksetup"; "-listallnetworkservices"]%string.

Definition macos_services : result (list string) string :=
  let? raw := run_result "networksetup" ["-listallnetworkservices"]%string in
  Ok (List.filter (fun l => negb (starts_with l "*"))
        (List.filter (fun l => negb (str_is_empty l) && negb (starts_with l "An asterisk")) (trim <$> str_lines raw))).

Definition macos_set_commands (ep : ProxyEndpoint) (svc : string) : list (list string) :=
  let bypass := join "," (pe_bypass ep) in
  [["networksetup"; "-setwebproxy"; svc; pe_host ep; pretty (pe_port ep)];
   ["networksetup"; "-setsecurewebproxy"; svc; pe_host ep; pretty (pe_port ep)];
   ["networksetup"; "-setwebproxystate"; svc; "on"];
   ["networksetup"; "-setsecurewebproxystate"; svc; "on"]]%string
  ++ (if str_is_empty bypass then [] else [["networksetup"; "-setproxybypassdomains"; svc; bypass]]%string).

Definition set_macos (ep : ProxyEndpoint) (st : OsState) : OsState * result string string :=
  let st := ran [list_services] st in
  match macos_services with
  | Err e => (st, Err e)
  | Ok [] => (st, Err "no network services found (networksetup)"%string)
  | Ok services =>
      (ran (services ≫= macos_set_commands ep) st,
       Ok ("macOS system proxy set to " +:+ authority ep +:+ " on services: " +:+ join ", " services))
  end.

Definition macos_clear_commands (svc : string) : list (list string) :=
  [["networksetup"; "-setwebproxystate"; svc; "off"]; ["networksetup"; "-setsecurewebproxystate"; svc; "off"]]%string.

Definition clear_macos (st : OsState) : OsState * result string string :=
  let st := ran [list_services] st in
  match macos_services with
  | Err e => (st, Err e)
  | Ok services =>
      (ran (services ≫= macos_clear_commands) st,
       Ok ("macOS system proxy disabled on " +:+ pretty (N.of_nat (length services)) +:+ " service(s)"))
  end.

(** *** Linux *)

Definition gsettings_version : list string := ["gsettings"; "--version"]%string.

Definition has_gsettings : bool := match mc_output mc gsettings_version with Ok _ => true | Err _ => false end.

Definition quoted (s : string) : string := "'" +:+ s +:+ "'".

Definition gnome_commands (ep : ProxyEndpoint) : list (list string) :=
  [["gsettings"; "set"; "org.gnome.system.proxy"; "mode"; "'manual'"];
   ["gsettings"; "set"; "org.gnome.system.proxy.http"; "host"; quoted (pe_host ep)];
   ["gsettings"; "set"; "org.gnome.system.proxy.http"; "port"; pretty (pe_port ep)];
   ["gsettings"; "set"; "org.gnome.system.proxy.https"; "host"; quoted (pe_host ep)];
   ["gsettings"; "set"; "org.gnome.system.proxy.https"; "port"; pretty (pe_port ep)];
   ["gsettings"; "set"; "org.gnome.system.proxy"; "ignore-hosts"; "[" +:+ join ", " (quoted <$> pe_bypass ep) +:+ "]"]]%string.

Definition proxy_env_body (ep : ProxyEndpoint) : string :=
  let a := authority ep in
  let bp := join "," (pe_bypass ep) in
  unlines
    ["# Generated by bsdm-agent system-proxy"; "export http_proxy=http://" +:+ a; "export https_proxy=http://" +:+ a;
     "export HTTP_PROXY=http://" +:+ a; "export HTTPS_PROXY=http://" +:+ a; "export no_proxy=" +:+ bp; "export NO_PROXY=" +:+ bp]%string.

Definition agent_dir (home : string) : string := path_join home ".config/bsdm-agent".
Definition profile_path : string := "/etc/profile.d/bsdm-agent-proxy.sh".

Definition linux_mode (env : Env) : string := to_ascii_lowercase (default "user"%string (env "SYSTEM_PROXY_LINUX_MODE"%string)).

(** The session's part: what ran, and the note. *)
Definition set_gnome (mode : string) (ep : ProxyEndpoint) (st : OsState) : OsState * list string :=
  if bool_decide (mode ∈ ["user"; "all"; "gsettings"]%string) then
    if has_gsettings then (ran (gsettings_version :: gnome_commands ep) st, ["gsettings (GNOME)"]%string)
    else (ran [gsettings_version] st, ["gsettings unavailable"]%string)
  else (st, []).

Definition write_file (path body : string) (st : OsState) : OsState :=
  {| os_ran := os_ran st; os_files := <[path := body]> (os_files st) |}.

Definition remove_file (path : string) (st : OsState) : OsState :=
  {| os_ran := os_ran st; os_files := delete path (os_files st) |}.

(** The profile of all users, written as root. *)
Definition set_profile (mode : string) (ep : ProxyEndpoint) (st : OsState) : OsState * list string :=
  if bool_decide (mode ∈ ["system"; "all"]%string) then
    match mc_write mc profile_path with
    | None => (write_file profile_path (proxy_env_body ep) st, ["wrote " +:+ profile_path])
    | Some e => (st, ["skip system profile (" +:+ e +:+ "): run installer as root for SYSTEM_PROXY_LINUX_MODE=system"])
    end
  else (st, []).

Definition set_linux (env : Env) (ep : ProxyEndpoint) (st : OsState) : OsState * result string string :=
  let mode := linux_mode env in
  let '(st, notes) := set_gnome mode ep st in
  match env "HOME"%string with
  | None => (st, Err "HOME unset"%string)
  | Some home =>
      let dir := agent_dir home in
      match mc_mkdir mc dir with
      | Some e => (st, Err ("mkdir " +:+ dir +:+ ": " +:+ e))
      | None =>
          let env_path := path_join dir "proxy.env" in
          match mc_write mc env_path with
          | Some e => (st, Err ("write " +:+ env_path +:+ ": " +:+ e))
          | None =>
              let '(st, notes') := set_profile mode ep (write_file env_path (proxy_env_body ep) st) in
              (st, Ok ("Linux system proxy → " +:+ authority ep +:+ " (" +:+
                       join "; " (notes ++ ["wrote " +:+ env_path] ++ notes') +:+ ")"))
          end
      end
  end.

(** Removing a file that exists, and what is noted when it worked or not. *)
Definition clear_env_file (env : Env) (st : OsState) : OsState * list string :=
  match env "HOME"%string with
  | None => (st, [])
  | Some home =>
      let env_path := path_join home ".config/bsdm-agent/proxy.env" in
      if bool_decide (is_Some (os_files st !! env_path))
      then (match mc_remove mc env_path with None => remove_file env_path st | Some _ => st end, ["removed " +:+ env_path])
      else (st, [])
  end.

Definition clear_profile (st : OsState) : OsState * list string :=
  if bool_decide (is_Some (os_files st !! profile_path)) then
    match mc_remove mc profile_path with
    | None => (remove_file profile_path st, ["removed " +:+ profile_path])
    | Some e => (st, ["could not remove " +:+ profile_path +:+ ": " +:+ e])
    end
  else (st, []).

Definition clear_linux (env : Env) (st : OsState) : OsState * result string string :=
  let '(st, notes) :=
    if has_gsettings
    then (ran [gsettings_version; ["gsettings"; "set"; "org.gnome.system.proxy"; "mode"; "'none'"]%string] st, ["gsettings mode=none"]%string)
    else (ran [gsettings_version] st, []) in
  let '(st, notes1) := clear_env_file env st in
  let '(st, notes2) := clear_profile st in
  (st, Ok ("Linux system proxy cleared (" +:+ join "; " (notes ++ notes1 ++ notes2) +:+ ")")).

(** *** Windows *)

Definition internet_settings : string := "$p='HKCU:\Software\Microsoft\Windows\CurrentVersion\Internet Settings'; ".

Definition set_windows (ep : ProxyEndpoint) (st : OsState) : OsState * result string string :=
  let server := authority ep in
  let bypass := join ";" (pe_bypass ep) in
  let ps := internet_settings +:+ "Set-ItemProperty -Path $p -Name ProxyEnable -Value 1; " +:+
            "Set-ItemProperty -Path $p -Name ProxyServer -Value '" +:+ server +:+ "'; " +:+
            "Set-ItemProperty -Path $p -Name ProxyOverride -Value '" +:+ bypass +:+ "'" in
  let args := ["-NoProfile"; "-Command"; ps]%string in
  let st := ran ["powershell"%string :: args] st in
  match run_result "powershell" args with
  | Err e => (st, Err e)
  | Ok _ =>
      (ran [["netsh"; "winhttp"; "set"; "proxy"; server; "bypass-list=" +:+ bypass]%string] st,
       Ok ("Windows system proxy set to " +:+ server))
  end.

Definition clear_windows (st : OsState) : OsState * result string string :=
  let ps := internet_settings +:+ "Set-ItemProperty -Path $p -Name ProxyEnable -Value 0" in
  let args := ["-NoProfile"; "-Command"; ps]%string in
  let st := ran ["powershell"%string :: args] st in
  match run_result "powershell" args with
  | Err e => (st, Err e)
  | Ok _ => (ran [["netsh"; "winhttp"; "reset"; "proxy"]%string] st, Ok "Windows system proxy cleared"%string)
  end.

(** *** All of them *)

Definition not_implemented (os : TargetOs) : string := "system proxy not implemented on platform " +:+ platform_tag os.

Definition set_system_proxy (os : TargetOs) (env : Env) (ep : ProxyEndpoint) (dry_run : bool) (st : OsState)
    : OsState * result string string :=
  if dry_run then (st, Ok ("dry-run: would set system proxy " +:+ authority ep +:+ " on " +:+ platform_tag os))
  else
    match os with
    | MacOs => set_macos ep st
    | LinuxOs => set_linux env ep st
    | WindowsOs => set_windows ep st
    | OtherOs => (st, Err (not_implemented os))
    end.

Definition clear_system_proxy (os : TargetOs) (env : Env) (dry_run : bool) (st : OsState) : OsState * result string string :=
  if dry_run then (st, Ok ("dry-run: would clear system proxy on " +:+ platform_tag os))
  else
    match os with
    | MacOs => clear_macos st
    | LinuxOs => clear_linux env st
    | WindowsOs => clear_windows st
    | OtherOs => (st, Err (not_implemented os))
    end.

(** The commands of the installer: [None] when the agent itself is to run. *)
Definition proxy_command (os : TargetOs) (env : Env) (args : list string) (st : OsState)
    : option (OsState * result string string) :=
  let dry_run := agent_env_flag env "SYSTEM_PROXY_DRY_RUN" || has_arg args "--dry-run" in
  let tagged name (r : OsState * result string string) :=
    (r.1, match r.2 with Ok msg => Ok msg | Err e => Err (name +:+ ": " +:+ e) end) in
  if has_arg args "--set-system-proxy" || agent_env_flag env "AGENT_SET_SYSTEM_PROXY"
  then Some (tagged "set-system-proxy"%string (set_system_proxy os env (ProxyEndpoint_from_env env) dry_run st))
  else if has_arg args "--clear-system-proxy" || agent_env_flag env "AGENT_CLEAR_SYSTEM_PROXY"
  then Some (tagged "clear-system-proxy"%string (clear_system_proxy os env dry_run st))
  else None.

(** The proxy for the lifetime of the process: set at the start and cleared at the end,
    failures only logged.  [during] is what others do meanwhile. *)
Definition managed_session (os : TargetOs) (env : Env) (g : AgentSettings) (during : OsState -> OsState) (st : OsState) : OsState :=
  if sg_manage_proxy g
  then (clear_system_proxy os env false (during (set_system_proxy os env (ProxyEndpoint_from_env env) false st).1)).1
  else during st.

End system_proxy.

(** ** Specifications *)

(** A host a list of patterns denies: [*.name] stands for the names below [name]. *)
Definition denied_by (patterns : list string) (host : string) : Prop :=
  exists p, p ∈ patterns /\
    ((exists name sub, p = ("*." +:+ name)%string /\ host = (sub +:+ "." +:+ name)%string)
     \/ (starts_with p "*." = false /\ host = p)).

(** The policy the control plane means: the patterns of its environment, or the built-in
    ones, its mode and categories, and the exceptions active at the publication. *)
Definition published_policy (version : string) (env : Env) (now : N) (pinning : PinningRegistry) : LocalPolicy :=
  {| lp_policy_version := version;
     lp_policy_mode := policy_mode_as_str (configured_policy_mode env);
     lp_mitm_categories := list_to_set (configured_mitm_categories env);
     lp_sni_deny_patterns :=
       match sni_deny_patterns_from_env env with [] => ["*.evil.com"; "badsite.test"]%string | l => l end;
     lp_pinning_exceptions := list_to_set (active_domains now pinning) |}.

(** The item the control plane reads of an event. *)
Definition demo_item (clock : nat -> N) (a : AgentEngine) (i : nat) (domain : string) : AgentEventItem :=
  let '(action, reason) := decision_action (evaluate_domain (ae_policy a) domain) in
  {| ai_domain := domain; ai_action := action; ai_decision_source := Some "local-agent"%string; ai_timestamp := Some (clock i);
     ai_reason := reason; ai_policy_version := Some (lp_policy_version (ae_policy a)) |}.

Definition item_json (item : AgentEventItem) : json :=
  json_object
    [("domain", JString (ai_domain item)); ("action", JString (ai_action item)); ("decision_source", opt_json (ai_decision_source item));
     ("timestamp", match ai_timestamp item with Some t => json_u64 t | None => JNull end);
     ("reason", opt_json (ai_reason item)); ("policy_version", opt_json (ai_policy_version item))]%string.

Definition batch_json (b : AgentEventBatch) : json :=
  json_object [("device_id", JString (ab_device_id b)); ("events", JArray (item_json <$> ab_events b))]%string.

(** serde's reader of a batch undoes the writer, for times of 64 bits. *)
Class BatchReader {SJ : SerdeJson} (AJ : AgentJson) :=
  batch_reads b :
    Forall (fun item => forall t, ai_timestamp item = Some t -> (t <= u64_max)%N) (ab_events b) ->
    batch_of_json (json_to_vec (batch_json b)) = Ok b.

(** ** Lemmas *)

Lemma strings_of_fmap l : strings_of (JString <$> l) = Some l.
Proof. induction l as [|s l IH]; [done|]. cbn [fmap list_fmap strings_of as_str mbind option_bind]. by rewrite IH. Qed.

Lemma read_json_strings l : read_strings (json_strings l) = Some l.
Proof. unfold read_strings, json_strings. cbn. apply strings_of_fmap. Qed.

Lemma rules_read l :
  mapM sni_rule_of ((fun p => JObject [("action", JString "deny"); ("pattern", JString p)]%string) <$> l)
  = Some ((fun p => {| sr_pattern := p; sr_action := "deny" |}) <$> l).
Proof. induction l as [|s l IH]; [done|]. cbn [fmap list_fmap mapM]. cbn. cbn in IH. by rewrite IH. Qed.

(** Setting a member is seen by reading it and by no other reading. *)
Lemma member_set name k v members :
  member (set_member k v members) name = if String.eqb k name then Some v else member members name.
Proof.
  unfold member. induction members as [|[k' w] rest IH]; cbn [set_member List.find].
  { by destruct (String.eqb k name). }
  destruct (String.compare k k') eqn:E; cbn [List.find].
  - apply String.compare_eq_iff in E as ->. by destruct (String.eqb k' name).
  - by destruct (String.eqb k name).
  - destruct (String.eqb_spec k' name) as [->|Hn]; [|exact IH].
    destruct (String.eqb_spec k name) as [->|]; [|done].
    pose proof (String.compare_antisym name name) as Ha. by rewrite E in Ha.
Qed.

Lemma json_get_set name k v members :
  json_get name (json_set k v (JObject members)) = if String.eqb k name then Some v else json_get name (JObject members).
Proof. apply member_set. Qed.

Lemma json_set_object k v members : json_set k v (JObject members) = JObject (set_member k v members).
Proof. reflexivity. Qed.

(** A document read as an object, member by member. *)
Lemma dto_of_object members :
  dto_of_json (JObject members) =
  dto_fields (member members "policy_version") (member members "policy_mode") (member members "mitm_categories")
    (member members "pinning_exceptions") (member members "sni_deny_patterns") (member members "sni_rules").
Proof. reflexivity. Qed.

(** The document of a publication. *)
Definition published_dto (version : string) (env : Env) (now : N) (pinning : PinningRegistry) : RemotePolicyDto :=
  {| rp_policy_version := version; rp_policy_mode := policy_mode_as_str (configured_policy_mode env);
     rp_mitm_categories := configured_mitm_categories env; rp_pinning_exceptions := active_domains now pinning;
     rp_sni_deny_patterns := sni_deny_patterns_from_env env;
     rp_sni_rules := (fun p => {| sr_pattern := p; sr_action := "deny" |}) <$> sni_deny_patterns_from_env env |}.

Lemma from_published version env now pinning :
  from_remote (published_dto version env now pinning) = published_policy version env now pinning.
Proof.
  unfold from_remote, published_policy, published_dto. cbn [rp_sni_deny_patterns rp_sni_rules].
  by destruct (sni_deny_patterns_from_env env).
Qed.

Lemma dto_of_published {SH : Sha256} {SJ : SerdeJson} env now n1 n2 n3 seq pinning reason :
  let snap := snapshot_from_document n1 n2 n3 seq (runtime_document env now pinning) reason in
  dto_of_json (ps_document snap) = Some (published_dto (ps_version snap) env now pinning).
Proof.
  cbv zeta. unfold snapshot_from_document, runtime_document, agent_policy_document.
  set (version := content_version _ _ _). cbn [ps_version ps_document]. clearbody version.
  unfold published_dto. generalize (sni_deny_patterns_from_env env) (configured_mitm_categories env) (active_domains now pinning).
  intros pats cats excs. rewrite !json_set_object, dto_of_object, !member_set.
  pose proof (rules_read pats) as Hr. revert Hr.
  generalize ((fun p => JObject [("action", JString "deny"); ("pattern", JString p)]%string) <$> pats). intros rules Hr.
  cbn -[json_strings dto_fields]. unfold dto_fields, or_default. rewrite !read_json_strings.
  cbn [mbind option_bind as_str as_array]. by rewrite Hr.
Qed.

(** Members the agent does not know change nothing for it. *)
Lemma dto_of_json_set k v doc :
  k ∉ ["policy_version"; "policy_mode"; "mitm_categories"; "pinning_exceptions"; "sni_deny_patterns"; "sni_rules"]%string ->
  dto_of_json (json_set k v doc) = dto_of_json doc.
Proof.
  intros Hk. destruct doc as [| | | | |members]; [done..|]. rewrite json_set_object, !dto_of_object, !member_set.
  rewrite !(proj2 (String.eqb_neq _ _)) by (intros ->; apply Hk; set_solver). done.
Qed.

Lemma pattern_matches_spec host p :
  pattern_matches host p = true <->
  (exists name sub, p = ("*." +:+ name)%string /\ host = (sub +:+ "." +:+ name)%string)
  \/ (starts_with p "*." = false /\ host = p).
Proof.
  unfold pattern_matches. destruct (starts_with p "*.") eqn:E.
  - apply starts_with_spec in E as [name ->]. change (str_drop 1 ("*." +:+ name)) with ("." +:+ name)%string.
    rewrite ends_with_spec. split.
    + intros [sub ->]. left. by exists name, sub.
    + intros [(n & sub & [= <-] & ->)|[? _]]; [by exists sub|done].
  - rewrite String.eqb_eq. split; [intros ->; by right|]. intros [(n & sub & -> & _)|[_ ->]]; [|done].
    by rewrite (proj2 (starts_with_spec _ _)) in E by (by exists n).
Qed.

Lemma evaluate_denies policy domain :
  (exists reason, evaluate_domain policy domain = LDeny reason)
  <-> denied_by (lp_sni_deny_patterns policy) (to_ascii_lowercase domain).
Proof.
  unfold evaluate_domain, denied_by. set (host := to_ascii_lowercase domain). destruct (List.find _ _) as [p|] eqn:E.
  - apply find_some in E as [Hin%list_elem_of_In Hm%pattern_matches_spec]. split; [|by eexists].
    intros _. by exists p.
  - split.
    + intros [reason H]. repeat case_match; done.
    + intros (p & Hin%list_elem_of_In & Hm%pattern_matches_spec). pose proof (find_none _ _ E p Hin) as Hn. by rewrite Hm in Hn.
Qed.

(** *** The loops *)

Section loops.
Context {SJ : SerdeJson} {DT : DisplayText}.

(** A policy is the one there was or one that arrived. *)
Definition keeps_or_takes (docs : list RemotePolicyDto) (a a' : AgentEngine) : Prop :=
  a' = a \/ exists dto, dto ∈ docs /\ a' = with_policy (from_remote dto) a.

Lemma with_policy_twice p q a : with_policy p (with_policy q a) = with_policy p a.
Proof. reflexivity. Qed.

Lemma keeps_or_takes_trans docs docs' a b c :
  keeps_or_takes docs a b -> keeps_or_takes docs' b c -> keeps_or_takes (docs ++ docs') a c.
Proof.
  intros [->|(d & Hd & ->)] [->|(d' & Hd' & ->)]; rewrite ?with_policy_twice;
    [by left|right; exists d'|right; exists d|right; exists d']; split; try done; apply elem_of_app; tauto.
Qed.

Lemma ws_messages_takes msgs a : keeps_or_takes (omap ws_document msgs) a (ws_messages msgs a).1.
Proof.
  revert a. induction msgs as [|m msgs IH]; intros a; [by left|]. destruct m as [text|p| |]; cbn [ws_messages omap list_omap ws_document].
  - destruct (json_from_slice text ≫= dto_of_json) as [dto|]; [|exact (IH a)].
    apply (keeps_or_takes_trans [dto] (omap ws_document msgs) a (with_policy (from_remote dto) a)); [|apply IH].
    right. exists dto. split; [by left|done].
  - specialize (IH a). destruct (ws_messages msgs a). exact IH.
  - by left.
  - exact (IH a).
Qed.

Lemma sync_step_takes a s : keeps_or_takes (arrived s) a (sync_step a s).
Proof.
  destruct s as [reply|since reply|[[msgs|]|]]; cbn [sync_step arrived]; [| |apply ws_messages_takes|by left..].
  - unfold pull_policy, reply_document. destruct reply as [[status body]|e]; [|by left].
    destruct (is_success status); [|by left]. destruct (dto_of_body body) as [dto|]; [|by left].
    right. exists dto. split; [by left|done].
  - unfold watch_policy_turn, reply_document. destruct reply as [[status body]|e]; [|by left].
    destruct (is_success status); [|by left]. destruct (dto_of_body body) as [dto|]; [|by left]. cbn [fst].
    destruct (negb _); [|by left]. right. exists dto. split; [by left|done].
Qed.

(** Where the agent's policy comes from.  However the heartbeat loop and the policy
    push interleave and whatever fails, in transport, by status or in decoding, the agent
    enforces the policy it started with or one the control plane sent it, whole; and
    neither its identity nor its credentials change. *)
Theorem agent_policy_provenance (a : AgentEngine) (steps : list SyncStep) :
  keeps_or_takes (steps ≫= arrived) a (foldl sync_step a steps).
Proof.
  revert a. induction steps as [|s steps IH]; intros a; [by left|]. cbn [foldl]. rewrite bind_cons.
  eapply keeps_or_takes_trans; [apply sync_step_takes|apply IH].
Qed.


End loops.

(** *** The long poll *)

Lemma unreserved_ascii c : unreserved c = true -> (char_code c <? 128)%N = true.
Proof. destruct c as [[] [] [] [] [] [] [] []]; vm_compute; congruence. Qed.

Lemma utf8_head_ascii c s : (char_code c <? 128)%N = true -> utf8_head c s = (true, 0).
Proof. intros H. unfold utf8_head, utf8_tail. by rewrite H. Qed.

Lemma utf8_chars_unreserved s cur :
  all_chars unreserved s = true ->
  utf8_chars_go cur 0 s = (if str_is_empty cur then [] else [cur]) ++ ((fun c => String c EmptyString) <$> list_ascii_of_string s).
Proof.
  revert cur. induction s as [|c s IH]; intros cur H; cbn [utf8_chars_go list_ascii_of_string fmap list_fmap].
  { by rewrite app_nil_r. }
  cbn [all_chars] in H. apply andb_true_iff in H as [Hc Hs].
  rewrite (utf8_head_ascii c s (unreserved_ascii c Hc)). cbn [snd]. rewrite (IH (String c EmptyString) Hs).
  by destruct (str_is_empty cur).
Qed.

(** A version of unreserved characters is sent as it is. *)
Lemma urlencoding_unreserved s : all_chars unreserved s = true -> urlencoding_minimal s = s.
Proof.
  intros H. unfold urlencoding_minimal, utf8_chars. rewrite utf8_chars_unreserved by done. cbn [str_is_empty app].
  induction s as [|c s IH]; [done|]. cbn [all_chars] in H. apply andb_true_iff in H as [Hc Hs].
  cbn [list_ascii_of_string fmap list_fmap foldr encode_char]. rewrite Hc. cbn. f_equal. apply IH, Hs.
Qed.

Lemma query_of_watch t a :
  all_chars unreserved (lp_policy_version (ae_policy a)) = true -> str_is_empty (lp_policy_version (ae_policy a)) = false ->
  query_value "since" (query_pairs (Some (watch_query t a))) = Some (lp_policy_version (ae_policy a)).
Proof.
  intros Hv Hne. unfold watch_query. rewrite urlencoding_unreserved by done. set (v := lp_policy_version _) in *.
  assert (Hamp : free_of "&" v = true).
  { revert Hv. apply all_chars_impl. intros c. destruct c as [[] [] [] [] [] [] [] []]; vm_compute; congruence. }
  assert (Hd : free_of "&" (pretty (N.max t 5)) = true).
  { generalize (pretty_N_digits (N.max t 5)). apply all_chars_impl.
    intros c. destruct c as [[] [] [] [] [] [] [] []]; vm_compute; congruence. }
  unfold query_pairs.
  change ("since=" +:+ v +:+ "&timeout_secs=" +:+ pretty (N.max t 5))%string
    with ("since=" +:+ v +:+ String "&" ("timeout_secs=" +:+ pretty (N.max t 5)))%string.
  rewrite <- string_app_assoc, split_on_app by (unfold free_of in *; by rewrite all_chars_app, Hamp).
  rewrite split_on_free by (unfold free_of in *; by rewrite all_chars_app, Hd).
  change ("since=" +:+ v)%string with ("since" +:+ String "=" v)%string.
  change ("timeout_secs=" +:+ pretty (N.max t 5))%string with ("timeout_secs" +:+ String "=" (pretty (N.max t 5)))%string.
  cbn [omap list_omap]. rewrite !split_once_free by done. unfold query_value. cbn. by rewrite Hne.
Qed.

Section long_poll.
Context {SJ : SerdeJson} {SH : Sha256} {SL : SerdeJsonLaws SJ}.

(** The snapshot the control plane answers a long poll with. *)
Definition answered (inp : AgentInputs) (since : string) (s : AgentState) : PolicySnapshot :=
  if version_changed (Some since) (hub_state (ag_hub s)) then hub_state (ag_hub s) else (in_watch inp).1.

(** C25: The agent follows the control plane.  With a version of unreserved characters,
    the agent's long poll asks with the version it holds; the answer's policy, marked as
    changed or not, is taken unless the agent holds that version already, so that after
    the turn the agent is at the version of the snapshot it was answered with, without
    waiting before the next turn. *)
Theorem agent_follows_hub (inp : AgentInputs) (s : AgentState) (t : N) (a : AgentEngine) (env : Env) (now n1 n2 n3 seq : N)
    (pinning : PinningRegistry) (reason : string)
    (Hv : all_chars unreserved (lp_policy_version (ae_policy a)) = true)
    (Hne : str_is_empty (lp_policy_version (ae_policy a)) = false)
    (Hs : answered inp (lp_policy_version (ae_policy a)) s
          = snapshot_from_document n1 n2 n3 seq (runtime_document env now pinning) reason) :
  let since := lp_policy_version (ae_policy a) in
  let snap := answered inp since s in
  exists doc news,
    agent_policy_watch inp (Some (watch_query t a)) s = (200%N, BWatch doc news)
    /\ let '(a', pause) := watch_policy_turn since (Ok (200%N, Ok (json_to_vec doc))) a in
       pause = 0%N
       /\ a' = (if String.eqb (ps_version snap) since then a
                else with_policy (published_policy (ps_version snap) env now pinning) a)
       /\ lp_policy_version (ae_policy a') = ps_version snap.
Proof.
  cbv zeta. unfold agent_policy_watch. rewrite query_of_watch by done. unfold answered in *.
  set (since := lp_policy_version (ae_policy a)) in *.
  set (p := if version_changed (Some since) _ then (hub_state (ag_hub s), true) else in_watch inp).
  assert (Hp : p.1 = snapshot_from_document n1 n2 n3 seq (runtime_document env now pinning) reason).
  { rewrite <- Hs. unfold p. by destruct (version_changed _ _). }
  rewrite Hs. clearbody p. clear Hs. destruct p as [snap news]. cbn [fst] in Hp. subst snap. eexists _, _. split; [done|].
  unfold watch_policy_turn, dto_of_body. change (is_success 200) with true. cbn [negb].
  rewrite json_roundtrip. cbn [mbind option_bind]. rewrite !dto_of_json_set by set_solver.
  rewrite dto_of_published, from_published. cbn [lp_policy_version published_policy].
  set (snap := snapshot_from_document _ _ _ _ _ _). destruct (String.eqb_spec (ps_version snap) since) as [E|E]; cbn [negb]; by rewrite ?E.
Qed.

End long_poll.

(** *** Events and credentials *)

Section reports.
Context {SJ : SerdeJson} {DT : DisplayText}.

Lemma agent_event_item clock a i d : agent_event (clock i) a d = item_json (demo_item clock a i d).
Proof. unfold agent_event, demo_item. by destruct (decision_action (evaluate_domain (ae_policy a) d)). Qed.

Lemma demo_events_items clock a : demo_evaluate clock a = item_json <$> imap (demo_item clock a) demo_domains.
Proof. unfold demo_evaluate. rewrite fmap_imap. apply imap_ext. intros i d _. apply agent_event_item. Qed.

Lemma decision_is_action d : is_agent_action (to_ascii_lowercase (decision_action d).1) = true.
Proof. by destruct d. Qed.

Lemma demo_item_valid clock a i d :
  str_is_empty (trim d) = false -> (253 <? str_len d)%N = false -> item_error (demo_item clock a i d) = None.
Proof.
  intros Ht Hl. pose proof (decision_is_action (evaluate_domain (ae_policy a) d)) as Ha.
  unfold item_error, demo_item. destruct (decision_action (evaluate_domain (ae_policy a) d)) as [action why].
  cbn [ai_domain ai_action ai_decision_source fst] in *. by rewrite Ht, Hl, Ha.
Qed.

Lemma demo_items_valid clock a i : validate_items i (imap (demo_item clock a) demo_domains) = Ok tt.
Proof. unfold demo_domains. cbn [imap validate_items]. unfold compose. by rewrite !demo_item_valid. Qed.

(** The agent's reports are accepted.  Whatever its policy decides, the batch the
    agent sends is one the control plane takes: it answers 200 with the five events
    accepted, its ring then starts with them, last first, and every event of the batch
    goes to a configured pipeline. *)
Theorem agent_events_accepted {AJ : AgentJson} {BR : BatchReader AJ} (inp : AgentInputs) (s : AgentState) (clock : nat -> N)
    (a : AgentEngine) (Hid : str_is_empty (trim (ae_device_id a)) = false) (Hclock : forall i, (clock i <= u64_max)%N)
    (Hring : length (ag_recent (ag_ingest s)) <= MAX_RECENT) :
  let items := imap (demo_item clock a) demo_domains in
  let id := trim (ae_device_id a) in
  exists body, events_request (demo_evaluate clock a) a
    = Some {| aq_method := "POST"; aq_url := agent_url a "/api/v1/agent/events"; aq_bearer := ae_control_api_token a; aq_body := Some body |}
  /\ let '(s', answer) := agent_events_ingest inp (json_to_vec body) s in
     answer = (200%N, BAccepted 5 (if ag_pipeline (ag_ingest s) then 5%N else 0%N))
     /\ ag_recent (ag_ingest s') = take MAX_RECENT (reverse (recent_entries (in_fresh inp) 0 id items) ++ ag_recent (ag_ingest s))
     /\ ag_enqueued (ag_ingest s')
        = ag_enqueued (ag_ingest s) ++ (if ag_pipeline (ag_ingest s) then pipeline_entries (in_fresh inp) 0 id items else []).
Proof.
  cbv zeta. rewrite demo_events_items. eexists. split; [reflexivity|].
  set (items := imap (demo_item clock a) demo_domains). set (b := {| ab_device_id := ae_device_id a; ab_events := items |}).
  change (json_object _) with (batch_json b). unfold agent_events_ingest. rewrite batch_reads.
  2:{ apply Forall_forall. intros item Hin t Ht. unfold b, items in Hin. cbn [ab_events] in Hin.
      apply elem_of_lookup_imap in Hin as (i & d & -> & _). unfold demo_item in Ht. destruct (decision_action _).
      injection Ht as <-. apply Hclock. }
  unfold ingest, validate_batch. cbn [ab_device_id ab_events b]. rewrite Hid. fold items.
  assert (Hv : validate_items 0 items = Ok tt) by apply demo_items_valid.
  destruct (ingest_items_recent (in_fresh inp) 0 (trim (ae_device_id a)) items (ag_ingest s) Hring) as (H1 & H2 & H3).
  assert (Hl : length items = 5) by reflexivity. destruct items as [|item items']; [done|].
  rewrite Hl. change (MAX_BATCH <? N.of_nat 5)%N with false. rewrite Hv. cbn [ag_ingest]. by rewrite H1, H3.
Qed.

Lemma pull_keeps_token reply a : ae_control_api_token (pull_policy reply a).1 = ae_control_api_token a.
Proof.
  unfold pull_policy. destruct reply as [[status body]|e]; [|done]. destruct (is_success status); [|done]. cbn [negb].
  by destruct (dto_of_body body).
Qed.

Lemma events_bearer events a : Forall (fun r => aq_bearer r = ae_control_api_token a) (option_list (events_request events a)).
Proof. destruct events; cbn; by repeat constructor. Qed.

Lemma run_once_bearer version clock p q r a :
  Forall (fun req => aq_bearer req = ae_control_api_token a) (run_once version clock p q r a).1.2.
Proof.
  unfold run_once. pose proof (pull_keeps_token p a) as Ht. destruct (pull_policy p a) as [a' [u|e]]; cbn [fst] in Ht.
  2: by repeat constructor.
  pose proof (events_bearer (demo_evaluate clock a') a') as He. rewrite Ht in He.
  destruct (events_outcome _ q); cbn [fst snd]; repeat (apply Forall_cons; split); try done.
Qed.

Lemma start_report_bearer version inp a :
  Forall (fun req => aq_bearer req = ae_control_api_token a) (start_report version inp a).2.
Proof.
  unfold start_report. pose proof (pull_keeps_token (si_pulled inp) a) as Ht. cbn [snd]. constructor; [done|].
  rewrite <- Ht. apply Forall_app. split; [apply events_bearer|]. by repeat constructor.
Qed.

(** After an enrolment the agent speaks with the token it was issued: every request
    the start makes carries it; where enrolment fails under [--once] the agent stops
    without another request, and without it every request carries the credentials of
    the environment. *)
Theorem agent_start_credentials (version : string) (g : AgentSettings) (inp : StartInputs) (Hdo : sg_do_enroll g = true) :
  let keys := if sg_with_mtls g then Some (si_keys inp) else None in
  match (enroll (sg_enroll_token g) keys (si_enrolled inp) (sg_engine g)).2 with
  | Ok e => exists a sent res, agent_start version g inp = Ok (a, sent, res) /\ sent <> []
            /\ Forall (fun req => aq_bearer req = Some (er_device_token e)) sent
  | Err e =>
      if sg_once g then agent_start version g inp = Err ("enroll failed: " +:+ e)
      else exists a sent, agent_start version g inp = Ok (a, sent, Ok tt)
            /\ Forall (fun req => aq_bearer req = ae_control_api_token (sg_engine g)) sent
  end.
Proof.
  cbv zeta. unfold agent_start, start_enroll. rewrite Hdo. destruct (enroll _ _ _ _) as [[sent out] [e|e]]; cbn [snd fst res_bind].
  - set (a := set_api_token _ _). destruct (sg_once g).
    + pose proof (run_once_bearer version (si_clock inp) (si_pulled inp) (si_posted inp) (si_beaten inp) a) as H.
      destruct (run_once _ _ _ _ _ _) as [[a' reqs] res] eqn:E. exists a', reqs, res. split_and!; [done| |exact H].
      unfold run_once in E. destruct (pull_policy _ _) as [? []]; [destruct (events_outcome _ _)|]; by simplify_eq.
    + pose proof (start_report_bearer version inp a) as H. destruct (start_report version inp a) as [a' reqs] eqn:E.
      exists a', reqs, (Ok tt). split_and!; [done| |exact H]. unfold start_report in E. by simplify_eq.
  - destruct (sg_once g); [done|]. cbn [res_bind fst].
    pose proof (start_report_bearer version inp (sg_engine g)) as H. destruct (start_report _ _ _) as [a' reqs]. by exists a', reqs.
Qed.

End reports.

(** *** The proxy of a session *)

Lemma ends_with_app_last pre suf c :
  suf <> EmptyString -> ends_with (pre +:+ suf) (String c EmptyString) = true -> ends_with suf (String c EmptyString) = true.
Proof.
  intros Hs. induction pre as [|x pre IH]; [done|]. change (String x pre +:+ suf) with (String x (pre +:+ suf)).
  cbn [ends_with]. intros [He%String.eqb_eq|He]%orb_true_iff; [|by apply IH].
  injection He as _ He. by destruct pre, suf.
Qed.

(** The file is written and removed under one name. *)
Lemma env_file_path home : path_join (agent_dir home) "proxy.env" = path_join home ".config/bsdm-agent/proxy.env".
Proof.
  unfold agent_dir, path_join at 2 3. change (starts_with ".config/bsdm-agent" "/") with false.
  change (starts_with ".config/bsdm-agent/proxy.env" "/") with false. cbn [orb].
  destruct home as [|c home]; [reflexivity|]. change (str_is_empty (String c home)) with false. cbv iota.
  assert (Hj : forall base, path_join (base +:+ ".config/bsdm-agent") "proxy.env" = (base +:+ ".config/bsdm-agent/proxy.env")%string).
  { intros base. unfold path_join. change (starts_with "proxy.env" "/") with false. cbn [orb].
    destruct (str_is_empty _) eqn:E; [by destruct base|].
    destruct (ends_with (base +:+ ".config/bsdm-agent") "/") eqn:H.
    - by apply ends_with_app_last in H.
    - by rewrite string_app_assoc. }
  destruct (ends_with (String c home) "/"); [apply Hj|]. rewrite <- !(string_app_assoc (String c home) "/"). apply Hj.
Qed.

Section session.
Context (mc : Machine) (env : Env) (home : string).
Context (Hhome : env "HOME"%string = Some home).

Let env_path : string := path_join home ".config/bsdm-agent/proxy.env".

(** Files other than the agent's two are as they were. *)
Definition same_elsewhere (st st' : OsState) : Prop :=
  forall path, path <> env_path -> path <> profile_path -> os_files st' !! path = os_files st !! path.

Lemma set_linux_elsewhere ep st : same_elsewhere st (set_linux mc env ep st).1.
Proof.
  assert (Hg : forall mode, os_files (set_gnome mc mode ep st).1 = os_files st).
  { intros mode. unfold set_gnome. by repeat case_match. }
  unfold set_linux. rewrite Hhome, env_file_path. fold env_path. specialize (Hg (linux_mode env)).
  destruct (set_gnome _ _ _ _) as [st1 notes]. cbn [fst] in Hg. intros path H1 H2. rewrite <- Hg.
  destruct (mc_mkdir _ _); [done|]. destruct (mc_write _ _); [done|]. unfold set_profile.
  destruct (bool_decide _); [destruct (mc_write _ _)|]; cbn [fst os_files write_file]; by rewrite ?lookup_insert_ne by done.
Qed.

(** Clearing removes both files where they can be removed. *)
Lemma clear_linux_files st :
  mc_remove mc env_path = None -> mc_remove mc profile_path = None ->
  os_files (clear_linux mc env st).1 = delete profile_path (delete env_path (os_files st)).
Proof.
  intros He Hp. unfold clear_linux. set (r := if has_gsettings mc then _ else _).
  assert (Hr : os_files r.1 = os_files st) by (unfold r; by destruct (has_gsettings mc)). destruct r as [st1 notes].
  cbn [fst] in Hr. rewrite <- Hr. clear Hr.
  assert (H1 : os_files (clear_env_file mc env st1).1 = delete env_path (os_files st1)).
  { unfold clear_env_file. rewrite Hhome. fold env_path. rewrite He. destruct (bool_decide_reflect (is_Some (os_files st1 !! env_path))) as [|Hn]; [done|].
    cbn [fst]. by rewrite delete_id by (by apply eq_None_not_Some). }
  destruct (clear_env_file _ _ _) as [st2 notes1]. cbn [fst] in H1. rewrite <- H1. unfold clear_profile. rewrite Hp.
  destruct (bool_decide_reflect (is_Some (os_files st2 !! profile_path))) as [|Hn]; [done|]. cbn [fst].
  by rewrite delete_id by (by apply eq_None_not_Some).
Qed.

(** An agent that manages the proxy of its Linux machine leaves no file behind.
    Whatever mode is set, whichever writes and commands fail, and whatever happens to the
    agent's two files while it runs, after the session both are gone, provided they may be
    removed, and every file nobody else changed is as it was. *)
Theorem linux_session_restores (g : AgentSettings) (during : OsState -> OsState) (st : OsState)
    (Hg : sg_manage_proxy g = true) (He : mc_remove mc env_path = None) (Hp : mc_remove mc profile_path = None)
    (Hd : forall s, same_elsewhere s (during s)) :
  let st' := managed_session mc LinuxOs env g during st in
  os_files st' !! env_path = None /\ os_files st' !! profile_path = None /\ same_elsewhere st st'.
Proof.
  cbv zeta. unfold managed_session. rewrite Hg. cbn [clear_system_proxy set_system_proxy].
  rewrite clear_linux_files by done. split_and!.
  - destruct (decide (env_path = profile_path)) as [->|Hne]; [by rewrite lookup_delete_eq|].
    by rewrite lookup_delete_ne, lookup_delete_eq by done.
  - by rewrite lookup_delete_eq.
  - intros path H1 H2. rewrite clear_linux_files by done. rewrite !lookup_delete_ne by done. rewrite Hd by done.
    by apply set_linux_elsewhere.
Qed.

End session.

(** ** Limits of the code *)

(** Domains are lower-cased and patterns are not. *)
Lemma upper_case_pattern_denies_nothing p domain :
  starts_with p "*." = false -> to_ascii_lowercase p <> p -> pattern_matches (to_ascii_lowercase domain) p = false.
Proof.
  intros Hs Hp. unfold pattern_matches. rewrite Hs. apply String.eqb_neq. intros E. apply Hp. rewrite <- E.
  apply to_ascii_lowercase_idemp.
Qed.

(** An answer with an error status is asked again at once. *)
Lemma refused_watch_spins {SJ : SerdeJson} since status body a :
  is_success status = false -> watch_policy_turn since (Ok (status, body)) a = (a, 0%N).
Proof. intros H. unfold watch_policy_turn. by rewrite H. Qed.

(** Without [HOME] the session of the desktop is changed and the call fails. *)
Lemma set_linux_half_done mc env ep st :
  env "HOME"%string = None -> linux_mode env = "user"%string -> has_gsettings mc = true ->
  set_linux mc env ep st = (ran (gsettings_version :: gnome_commands ep) st, Err "HOME unset"%string).
Proof. intros Hh Hm Hg. unfold set_linux, set_gnome. by rewrite Hm, Hg, Hh. Qed.

(** ** Instances *)

Module Demo.

#[local] Existing Instance SemanticCache.binary_json.
#[local] Existing Instance SemanticCache.binary_json_laws.
#[local] Instance plain_sha : Sha256 := {| sha256 s := s; hex_encode s := s |}.

Definition text_of (v : option json) : option string := v ≫= as_str.

Definition read_item (v : json) : AgentEventItem :=
  {| ai_domain := default EmptyString (text_of (json_get "domain" v)); ai_action := default EmptyString (text_of (json_get "action" v));
     ai_decision_source := text_of (json_get "decision_source" v);
     ai_timestamp := match json_get "timestamp" v with Some (JNumber t) => parse_u64 t | _ => None end;
     ai_reason := text_of (json_get "reason" v); ai_policy_version := text_of (json_get "policy_version" v) |}.

#[local] Instance batch_reader : AgentJson := {|
  heartbeat_of_json _ := Err "no heartbeat"%string;
  batch_of_json body :=
    match json_from_slice body with
    | Some v => Ok {| ab_device_id := default EmptyString (text_of (json_get "device_id" v));
                      ab_events := read_item <$> default [] (json_get "events" v ≫= as_array) |}
    | None => Err "no batch"%string
    end;
  enroll_of_json _ := Err "no enrolment"%string;
  push_of_json _ := None;
|}.

Lemma read_item_json item : (forall t, ai_timestamp item = Some t -> (t <= u64_max)%N) -> read_item (item_json item) = item.
Proof.
  destruct item as [d c src t why v]. intros Ht. cbn in Ht. unfold read_item, item_json, json_object.
  destruct t as [t|], src, why, v; cbn; f_equal; by apply parse_uint_pretty, Ht.
Qed.

#[local] Instance batch_reader_laws : BatchReader batch_reader.
Proof.
  intros [id items] Hall. unfold batch_of_json, batch_reader. rewrite json_roundtrip. 
  change (json_get "events" _) with (Some (JArray (item_json <$> items))). change (json_get "device_id" _) with (Some (JString id)).
  cbn [text_of mbind option_bind as_str as_array default from_option]. unfold Datatypes.id. do 2 f_equal.
  cbn [ab_events] in Hall. 
  induction Hall as [|item items Hi _ IH]; [done|]. rewrite !fmap_cons, IH. f_equal. by apply read_item_json.
Qed.

(** A control plane with two patterns and one exception, and an agent at its default. *)
Definition env : Env := fun name =>
  if String.eqb name "AGENT_SNI_DENY_PATTERNS" then Some "*.bad.test, worse.test"%string
  else if String.eqb name "HOME" then Some "/home/u"%string
  else if String.eqb name "SYSTEM_PROXY_LINUX_MODE" then Some "all"%string
  else None.

Definition pinning : PinningRegistry := {| pg_entries := []; pg_source_path := None; pg_audit_path := None |}.
Definition agent : AgentEngine := agent_new "laptop" "agent-laptop" "desktop" None "linux" "http://hub:9090/" (Some "boot"%string) 30.
Definition hub : PolicyHub := publish_from_runtime env 5 6 7 8 pinning "startup" {| hub_state := AgentApi.Demo.snapshot; hub_seq := 3 |}.
Definition hub_side : AgentState :=
  {| ag_trust := ag_trust AgentApi.Demo.fresh_state; ag_ingest := {| ag_recent := []; ag_pipeline := true; ag_enqueued := [] |};
     ag_hub := hub |}.
#[local] Instance texts : DisplayText := {| json_parse_error e := e; status_display := pretty |}.


(** The default version is asked with and replaced. *)
Lemma agent_follows_hub_witness :
  exists doc news,
    agent_policy_watch AgentApi.Demo.inputs (Some (watch_query 25 agent)) hub_side = (200%N, BWatch doc news)
    /\ lp_policy_version (ae_policy (watch_policy_turn "v0.1-offline" (Ok (200%N, Ok (json_to_vec doc))) agent).1) = ps_version (hub_state hub).
Proof.
  destruct (agent_follows_hub AgentApi.Demo.inputs hub_side 25 agent env 5 6 7 8 3 pinning "startup") as (doc & news & H1 & H2);
    [reflexivity|reflexivity|vm_compute; reflexivity|].
  exists doc, news. split; [exact H1|]. change (lp_policy_version (ae_policy agent)) with "v0.1-offline"%string in H2.
  destruct (watch_policy_turn "v0.1-offline" (Ok (200%N, Ok (json_to_vec doc))) agent) as [a' pause].
  destruct H2 as (_ & _ & H2). cbn [fst]. rewrite H2. vm_compute. reflexivity.
Defined.

Lemma agent_events_accepted_witness :
  exists body, (agent_events_ingest AgentApi.Demo.inputs (json_to_vec body) hub_side).2 = (200%N, BAccepted 5 5).
Proof.
  destruct (agent_events_accepted AgentApi.Demo.inputs hub_side (fun i => N.of_nat (Nat.min i 9)) agent) as (body & _ & H);
    [reflexivity|intros i; unfold u64_max; lia|cbn; lia|].
  exists body. destruct (agent_events_ingest _ _ _) as [s' answer]. exact (proj1 H).
Defined.

Definition no_reply : Reply := Err "down"%string.
Definition token_reply : Reply :=
  Ok (200%N, Ok (json_to_vec (JObject [("device_token", JString "bsdmagent_1")]%string))).

Definition starting (enrolled : Reply) : StartInputs :=
  {| si_keys := Err "no keys"%string; si_enrolled := enrolled; si_pulled := no_reply; si_posted := no_reply; si_beaten := no_reply;
     si_clock _ := 10%N |}.

Definition settings : AgentSettings := agent_settings LinuxOs (fun _ => None) ["bsdm-agent"; "--manage-system-proxy"]%string.

Lemma agent_start_credentials_witness :
  exists a sent res, agent_start "0.1.0" settings (starting token_reply) = Ok (a, sent, res)
    /\ Forall (fun req => aq_bearer req = Some "bsdmagent_1"%string) sent.
Proof.
  pose proof (agent_start_credentials "0.1.0" settings (starting token_reply) eq_refl) as H.
  cbv zeta in H. set (r := (enroll (sg_enroll_token settings) _ _ _).2) in H.
  assert (Hr : r = Ok {| er_device_id := "dev-mac-001"; er_device_token := "bsdmagent_1"; er_client_cert := None; er_ca_cert := None |})
    by (vm_compute; reflexivity).
  rewrite Hr in H. destruct H as (a & sent & res & H1 & _ & H2). by exists a, sent, res.
Defined.

(** A machine without a desktop, where only the user's file may be written. *)
Definition machine : Machine :=
  {| mc_output _ := Err "not found"%string; mc_debug_args _ := "[]"%string; mc_mkdir _ := None;
     mc_write path := if String.eqb path profile_path then Some "denied"%string else None; mc_remove _ := None |}.

Definition disk : OsState := {| os_ran := []; os_files := {["/etc/hosts" := "127.0.0.1 localhost"]}%string |}.

Lemma linux_session_restores_witness :
  os_files (set_linux machine env (ProxyEndpoint_from_env env) disk).1 !! "/home/u/.config/bsdm-agent/proxy.env"%string
    = Some (proxy_env_body (ProxyEndpoint_from_env env))
  /\ os_files (managed_session machine LinuxOs env settings id disk) !! "/home/u/.config/bsdm-agent/proxy.env"%string = None.
Proof.
  split; [vm_compute; reflexivity|].
  exact (proj1 (linux_session_restores machine env "/home/u" eq_refl settings id disk eq_refl eq_refl eq_refl (fun s path _ _ => eq_refl))).
Defined.

(** Versions beyond ASCII are confused: the codes of these two characters end alike. *)
Lemma versions_confused :
  urlencoding_minimal (String "195" (String "169" EmptyString)) = urlencoding_minimal (String "199" (String "169" EmptyString)).
Proof. vm_compute. reflexivity. Qed.

(** A policy that denies nothing is taken as one that denies the built-in names. *)
Lemma empty_deny_list_denies :
  evaluate_domain (from_remote {| rp_policy_version := "v2"; rp_policy_mode := "sni"; rp_mitm_categories := []; rp_pinning_exceptions := [];
                                  rp_sni_deny_patterns := []; rp_sni_rules := [] |}) "badsite.test"
  = LDeny "SNI exact match: badsite.test".
Proof. vm_compute. reflexivity. Qed.

End Demo.
