(* ===== verification/Pipeline.v ===== *)
(** * What the pipeline guarantees

    Theorems about [ProxyService.serve], for every run of it: whatever the shared
    components and the outside answer, and whatever other requests do in between. *)

From Stdlib Require Import Ascii String NArith ZArith Lia.
From stdpp Require Import base option gmap sets strings pretty numbers list.
From S2P Require Import Prelude Float64 CacheEntry L2Cache MissCoalesce Http RateLimit Inspection.
From S2P Require Import CacheDigest Peers Hierarchy Acl Categorization Policy Sessions Utf8.
From S2P Require Import SemanticCache Auth ReverseProxy Effects ProxyService.

(** The completion of a streamed answer issues only the commands [P] allows. *)
Definition streamed_only `{!UriCrate} (P : forall X, Cmd X -> Prop) (r : ServiceResponse) : Prop :=
  match r with
  | Full _ => True
  | Streamed _ _ _ _ _ on_complete => forall body stored, only P (fun _ => True) (on_complete body stored)
  end.

(** ** Automation: which commands a program issues

    Every stage is unfolded; [only_bind] then treats each command once. *)

Create HintDb stages.
#[export] Hint Unfold send_cache_event should_emit_kafka_event record_detailed_metrics sampled correlate
  emit_cache_hit_event emit_policy_event serve_l1_hit store_in_l1_and_l2 try_l2_cache_get serve_l2_hit
  try_revalidate_stale try_serve_cache_before_policy check_rate_limit run_wasm_hook collect_body llm_lookup
  cache_lookup join_flight complete_store complete_cache_miss run_icap_reqmod run_icap_respmod
  try_fetch_via_hierarchy fetch stream_miss buffer_miss fetch_and_answer handle_miss unwrap_response
  rp_authenticate rp_gate handle_admitted handle_checked : stages.

Ltac solve_only tac :=
  repeat autounfold with stages;
  repeat first
    [ simple apply only_ret; [done || (unfold streamed_only; cbv beta iota zeta; intros; repeat autounfold with stages)]
    | simple apply only_bind; [|intros ?]
    | simple apply only_call; [tac|done]
    | case_match ].

Section pipeline.
Context {UriC : UriCrate} {UrlC : UrlCrate} {UrlP : UrlParser} {HT : HeaderText} {HC : HeaderCodec}
  {B64 : Base64} {SHA : Sha256} {CD : Codec} {SJ : SerdeJson} {AC : AhoCorasick}.
Context (hm_iter : gmap string string -> list (string * string)).

Abbreviation cmd := (fun X => Cmd X).
Abbreviation ev := (event Cmd).

(** ** Reading traces *)

Definition rate_verdict (e : ev) : option (option RateLimitViolation) :=
  match e with
  | Ev c x =>
      match c in Cmd X return X -> _ with
      | CRateCheck _ _ _ => fun x => Some x
      | _ => fun _ => None
      end x
  end.

(** The url the policy was asked about and its decision. *)
Definition policy_verdict (e : ev) : option (string * option AclDecision) :=
  match e with
  | Ev c x =>
      match c in Cmd X return X -> _ with
      | CPolicy url _ _ _ _ => fun x => Some (url, x.1.1)
      | _ => fun _ => None
      end x
  end.

(** Commands that touch cached content or leave the proxy with the request. *)
Definition content {X} (c : Cmd X) : bool :=
  match c with
  | CL1Get _ | CL1Insert _ _ | CL2Get _ | CL2Set _ _ | CFlightJoin _ | CFlightWait _ | CReqmod _ _ _ _
  | CRespmod _ _ _ _ _ _ | CResolve _ | CPeerFetch _ _ | CUpstream _ => true
  | _ => false
  end.

Definition admission {X} (c : Cmd X) : bool :=
  match c with CRateCheck _ _ _ | CPolicy _ _ _ _ _ => true | _ => false end.

Definition admitted (url : string) (h : list ev) : Prop :=
  None ∈ omap rate_verdict h /\ (url, None) ∈ omap policy_verdict h.

Lemma admitted_snoc url h e : admitted url h -> admitted url (h ++ [e]).
Proof. intros [Hr Hp]. unfold admitted. rewrite !omap_app, !elem_of_app. auto. Qed.

(** ** Mediation *)

Definition same_target (url : string) {X} (c : Cmd X) : Prop :=
  match c with
  | CPeerFetch _ out | CUpstream out => uri_to_string (or_uri out) = url
  | CReqmod _ u _ _ | CResolve u => u = url
  | _ => True
  end.

(** What a request may do once admitted for [url]. *)
Definition after_admission (url : string) (X : Type) (c : Cmd X) : Prop :=
  admission c = false /\ same_target url c.

Lemma build_conditional_request_Some req c o :
  build_conditional_request req c = Some o ->
  or_method o = rq_method req /\ or_uri o = rq_uri req /\ or_body o = EmptyString.
Proof.
  unfold build_conditional_request. intros Hb. apply bind_Some in Hb as (inm & _ & Hb).
  apply bind_Some in Hb as (ims & _ & [= <-]). done.
Qed.

Lemma handle_admitted_only url sv cx key domain llm req :
  uri_to_string (rq_uri req) = url -> cx_url cx = url ->
  only (after_admission url) (streamed_only (after_admission url))
    (handle_admitted hm_iter sv cx key domain llm req).
Proof.
  intros Hu <-. solve_only ltac:(split; [done|]; try done;
    match goal with H : build_conditional_request _ _ = Some _ |- _ =>
      apply build_conditional_request_Some in H as (_ & Huri & _); cbn; by rewrite Huri end).
Qed.

(** The protocol: content only after admission, and the target asked about is the
    target fetched. *)
Definition mediated (X : Type) (c : Cmd X) (h : list ev) : Prop :=
  content c = true -> exists url, admitted url h /\ same_target url c.

Definition no_denial (h : list ev) : Prop :=
  (forall v, Some v ∉ omap rate_verdict h) /\ (forall u d, (u, Some d) ∉ omap policy_verdict h).

(** The answer to a denied request is its denial. *)
Definition denial_answered (r : ServiceResponse) (h : list ev) : Prop :=
  (forall v, Some v ∈ omap rate_verdict h -> r = Full (rate_limit_response v)) /\
  (forall u d, (u, Some d) ∈ omap policy_verdict h -> r = Full (policy_response d)).

Lemma no_verdict X (c : Cmd X) x :
  admission c = false -> rate_verdict (Ev c x) = None /\ policy_verdict (Ev c x) = None.
Proof. by destruct c. Qed.

Lemma quiet_verdicts X (c : Cmd X) x h :
  admission c = false ->
  omap rate_verdict (h ++ [Ev c x]) = omap rate_verdict h /\
  omap policy_verdict (h ++ [Ev c x]) = omap policy_verdict h.
Proof.
  intros Hc. destruct (no_verdict X c x Hc) as [Hr Hp]. rewrite !omap_app.
  cbn [omap list_omap]. rewrite Hr, Hp, !app_nil_r. done.
Qed.

(** Before admission: no verdicts yet, and no content. *)
Definition waiting (X : Type) (c : Cmd X) : Prop := admission c = false /\ content c = false.

Lemma waiting_keeps {A} (R : A -> Prop) (p : prog Cmd A) (I : list ev -> Prop) h :
  only waiting R p ->
  (forall h1 h2, omap rate_verdict h1 = omap rate_verdict h2 ->
     omap policy_verdict h1 = omap policy_verdict h2 -> I h1 -> I h2) ->
  I h -> hwp mediated p (fun a h' => R a /\ I h') h.
Proof.
  intros Hp HI. apply (hwp_only waiting); [done|]. intros X c h' [Ha Hc] Hh. split.
  - unfold mediated. by rewrite Hc.
  - intros x. destruct (quiet_verdicts X c x h' Ha) as [Hr Hv]. by apply (HI h').
Qed.

Definition verdicts_are (rs : list (option RateLimitViolation)) (ps : list (string * option AclDecision))
    (h : list ev) : Prop :=
  omap rate_verdict h = rs /\ omap policy_verdict h = ps.

Lemma waiting_verdicts {A} (R : A -> Prop) (p : prog Cmd A) rs ps h :
  only waiting R p -> verdicts_are rs ps h -> hwp mediated p (fun a h' => R a /\ verdicts_are rs ps h') h.
Proof. intros Hp. apply waiting_keeps; [done|]. unfold verdicts_are. intros h1 h2 -> ->. done. Qed.

(** After admission. *)
Definition admitted_quietly (url : string) (h : list ev) : Prop := admitted url h /\ no_denial h.

Lemma admitted_keeps {A} (R : A -> Prop) url (p : prog Cmd A) h :
  only (after_admission url) R p -> admitted_quietly url h ->
  hwp mediated p (fun a h' => R a /\ admitted_quietly url h') h.
Proof.
  intros Hp. apply (hwp_only (after_admission url)); [done|]. intros X c h' [Ha Ht] [Had Hnd]. split.
  - intros _. by exists url.
  - intros x. split; [by apply admitted_snoc|]. destruct (quiet_verdicts X c x h' Ha) as [Hr Hv].
    unfold no_denial. by rewrite Hr, Hv.
Qed.

(** The state a request's answer leaves: a denial that was answered, or an admitted
    request, whose completion stays within its admission. *)
Definition answered (r : ServiceResponse) (h : list ev) : Prop :=
  denial_answered r h /\
  forall st hd bd at_ mx oc, r = Streamed st hd bd at_ mx oc ->
  exists url, admitted_quietly url h /\ forall b s, only (after_admission url) (fun _ => True) (oc b s).

Lemma answered_full r rs ps h :
  verdicts_are rs ps h -> (forall v, Some v ∈ rs -> r = rate_limit_response v) ->
  (forall u d, (u, Some d) ∈ ps -> r = policy_response d) -> answered (Full r) h.
Proof.
  intros [Hr Hp] H1 H2. split; [|done]. unfold denial_answered. rewrite Hr, Hp.
  split; [intros v Hv; f_equal; by apply H1|]. intros u d Hd. f_equal. by eapply H2.
Qed.

Lemma admitted_answered url r h :
  streamed_only (after_admission url) r -> admitted_quietly url h -> answered r h.
Proof.
  intros Hs [Ha [Hn1 Hn2]]. split.
  - split; [intros v Hv; by destruct (Hn1 v)|]. intros u d Hd. by destruct (Hn2 u d).
  - intros st hd bd at_ mx oc ->. exists url. done.
Qed.

Lemma handle_checked_mediated sv cx key llm groups req h :
  uri_to_string (rq_uri req) = cx_url cx -> verdicts_are [None] [] h ->
  hwp mediated (handle_checked hm_iter sv cx key llm groups req) answered h.
Proof.
  intros Hu Hv. unfold handle_checked. eapply hwp_bind_mono.
  { apply (waiting_verdicts (fun _ => True)); [|exact Hv]. solve_only ltac:(by split). }
  intros [headers|r] h1 [_ Hv1].
  2: { apply hwp_ret, (answered_full r _ _ _ Hv1); [|set_solver]. intros v Hin. set_solver. }
  apply hwp_bind, hwp_call; [done|]. intros [[[d|] cats] thr].
  - assert (Hv2 : verdicts_are [None] [(cx_url cx, Some d)] (h1 ++ [Ev (CPolicy (cx_url cx)
        (extract_domain (cx_url cx)) (cx_username cx) groups (cx_client_ip cx)) (Some d, cats, thr)])).
    { destruct Hv1 as [Hr Hp]. unfold verdicts_are. rewrite !omap_app, Hr, Hp. done. }
    eapply hwp_bind_mono.
    { apply (waiting_verdicts (fun _ => True)); [|exact Hv2]. solve_only ltac:(by split). }
    intros [] h3 [_ Hv3]. apply hwp_ret, (answered_full _ _ _ _ Hv3); [set_solver|].
    intros u d' Hin. apply list_elem_of_singleton in Hin. congruence.
  - eapply hwp_mono; [apply (admitted_keeps (streamed_only (after_admission (cx_url cx))) (cx_url cx));
      [by apply handle_admitted_only|]|].
    + destruct Hv1 as [Hr Hp]. unfold admitted_quietly, admitted, no_denial. rewrite !omap_app, Hr, Hp.
      cbn. split; [set_solver|]. split; [set_solver|]. intros u d. set_solver.
    + intros r h' [Hs Ha]. by eapply admitted_answered.
Qed.

Lemma handle_request_mediated sv req ip user h :
  fast_cache_hit (sv_perf sv) = false -> verdicts_are [] [] h ->
  hwp mediated (handle_request hm_iter sv req ip user) answered h.
Proof.
  intros Hf Hv. unfold handle_request. eapply hwp_bind_mono.
  { apply (waiting_verdicts (fun _ => True)); [|exact Hv]. solve_only ltac:(by split). }
  intros [[req' rp_user]|r] h1 [_ Hv1].
  2: { apply hwp_ret, (answered_full r _ _ _ Hv1); set_solver. }
  eapply hwp_bind_mono.
  { apply (waiting_verdicts (fun _ => True)); [|exact Hv1]. solve_only ltac:(by split). }
  intros detailed h2 [_ Hv2]. apply hwp_bind, hwp_call; [done|]. intros start.
  apply hwp_bind. unfold check_rate_limit. apply hwp_bind, hwp_call; [done|]. intros viol. apply hwp_ret.
  set (h3 := (_ ++ _) ++ _).
  assert (Hv3 : verdicts_are [viol] [] h3).
  { destruct Hv2 as [Hr Hp]. unfold verdicts_are, h3. rewrite !omap_app, Hr, Hp. done. }
  destruct viol as [v|]; cbn [option_map].
  { apply hwp_ret, (answered_full _ _ _ _ Hv3); [|set_solver].
    intros v' Hin. apply list_elem_of_singleton in Hin. congruence. }
  rewrite Hf. cbn [andb]. apply hwp_bind, hwp_ret. by apply handle_checked_mediated.
Qed.

(** What the client is sent of a whole response. *)
Definition render (r : HttpResponse) : N * gmap string string * list Sent :=
  (hr_status r, hr_headers r, [SData (hr_body r)]).

Lemma serve_mediated sv req ip user oks :
  fast_cache_hit (sv_perf sv) = false ->
  hwp mediated (serve hm_iter sv req ip user oks)
    (fun res h =>
       (forall v, Some v ∈ omap rate_verdict h -> res = render (rate_limit_response v)) /\
       (forall u d, (u, Some d) ∈ omap policy_verdict h -> res = render (policy_response d))) [].
Proof.
  intros Hf. unfold serve. eapply hwp_bind_mono; [by apply handle_request_mediated|].
  intros r h [[Hd1 Hd2] Hs]. destruct r as [r|st hd bd at_ mx oc].
  - apply hwp_ret. split; [intros v Hv; by injection (Hd1 v Hv) as ->|].
    intros u d Hp. by injection (Hd2 u d Hp) as ->.
  - destruct (Hs st hd bd at_ mx oc eq_refl) as (url & Ha & Hoc).
    destruct (spawn_upstream_drain bd at_ mx oks) as [sent [buffered stored]].
    eapply hwp_bind_mono; [by apply (admitted_keeps (fun _ => True) url)|].
    intros [] h' [_ [_ [Hn1 Hn2]]]. apply hwp_ret.
    split; [intros v Hv; by destruct (Hn1 v)|intros u d Hv; by destruct (Hn2 u d)].
Qed.

(** C1: Complete mediation.  With the early cache lookup off, in every run of a
    request: cached content is touched, flights joined, and anything sent to ICAP,
    a peer or the origin only after the rate limiter admitted the request and the
    policy allowed its url, and what is fetched is the url the policy allowed; and
    when the limiter or the policy denies, the client gets exactly that denial. *)
Theorem complete_mediation sv req ip user oks tr res :
  fast_cache_hit (sv_perf sv) = false -> runs (serve hm_iter sv req ip user oks) tr res ->
  (forall X (c : Cmd X) x before rest, tr = before ++ Ev c x :: rest -> content c = true ->
     exists url, admitted url before /\ same_target url c) /\
  (forall v, Some v ∈ omap rate_verdict tr -> res = render (rate_limit_response v)) /\
  (forall u d, (u, Some d) ∈ omap policy_verdict tr -> res = render (policy_response d)).
Proof.
  intros Hf Hr. destruct (hwp_runs mediated _ _ tr res (serve_mediated sv req ip user oks Hf) Hr) as [HQ Hg].
  split; [|exact HQ]. intros X c x before rest Heq Hc. by apply (Hg X c x before rest Heq).
Qed.

(** ** Flights *)

(** A flight led ([true]) or completed ([false]), with its key. *)
Definition flight_event (e : ev) : option (string * bool) :=
  match e with
  | Ev c x =>
      match c in Cmd X return X -> _ with
      | CFlightJoin key => fun x => match x with Leader _ => Some (key, true) | Follower _ => None end
      | CFlightComplete key _ => fun _ => Some (key, false)
      | _ => fun _ => None
      end x
  end.

Definition pending_step (s : gset string) (e : ev) : gset string :=
  match flight_event e with
  | Some (key, true) => {[ key ]} ∪ s
  | Some (key, false) => s ∖ {[ key ]}
  | None => s
  end.

(** The keys whose flight the request leads and has not completed. *)
Definition pending (h : list ev) : gset string := foldl pending_step ∅ h.

Lemma pending_snoc h e : pending (h ++ [e]) = pending_step (pending h) e.
Proof. unfold pending. by rewrite foldl_app. Qed.

Definition flightless (X : Type) (c : Cmd X) : Prop :=
  match c with CFlightJoin _ | CFlightComplete _ _ => False | _ => True end.

Definition anything (X : Type) (c : Cmd X) (h : list ev) : Prop := True.

Lemma flightless_keeps {A} (R : A -> Prop) (p : prog Cmd A) (s : gset string) h :
  only flightless R p -> pending h = s -> hwp anything p (fun a h' => R a /\ pending h' = s) h.
Proof.
  intros Hp Hh. apply (hwp_only flightless anything (fun h => pending h = s)); [done| |done].
  intros X c h' Hc <-. split; [done|]. intros x. rewrite pending_snoc. unfold pending_step. by destruct c.
Qed.

Lemma complete_pending key r h :
  pending h ⊆ {[ key ]} -> hwp anything (call (CFlightComplete key r)) (fun _ h' => pending h' = ∅) h.
Proof.
  intros Hp. apply hwp_call; [done|]. intros x. rewrite pending_snoc. unfold pending_step. cbn. set_solver.
Qed.

(** The flight a request leads, or none. *)
Definition led (leader : bool) (key : string) : gset string := if leader then {[ key ]} else ∅.

Lemma led_subseteq leader key : led leader key ⊆ {[ key ]}.
Proof. destruct leader; set_solver. Qed.

(** Giving the permit up before an answer. *)
Lemma give_up_pending {A} leader key (a : A) (Q : A -> list ev -> Prop) h :
  pending h = led leader key -> (forall h', pending h' = ∅ -> Q a h') ->
  hwp anything ((if leader then call (CFlightComplete key None) else mret tt);; mret a) Q h.
Proof.
  intros Hp HQ. apply hwp_bind. destruct leader; [|by apply hwp_ret, hwp_ret, HQ].
  eapply hwp_mono; [apply complete_pending; by rewrite Hp|]. intros [] h' Hh. by apply hwp_ret, HQ.
Qed.

Lemma join_flight_pending sv cx key llm h :
  pending h = ∅ ->
  hwp anything (join_flight sv cx key llm)
    (fun r h' => pending h' = match r with Ok leader => led leader key | Err _ => ∅ end) h.
Proof.
  intros Hp. unfold join_flight. case_match; [|by apply hwp_ret].
  apply hwp_bind, hwp_call; [done|]. intros [f|f].
  - apply hwp_ret. rewrite pending_snoc, Hp. unfold pending_step, led. cbn. set_solver.
  - assert (Hf : pending (h ++ [Ev (CFlightJoin key) (Follower f)]) = ∅) by (by rewrite pending_snoc).
    eapply hwp_mono; [apply (flightless_keeps (fun r => r <> Ok true) _ ∅); [solve_only ltac:(done)|done]|].
    intros [[]|r] h' [Hr Hh']; done.
Qed.

Lemma collect_body_pending sv cx key domain req leader h :
  pending h = led leader key ->
  hwp anything (collect_body sv cx key domain req leader)
    (fun r h' => pending h' = match r with Ok _ => led leader key | Err _ => ∅ end) h.
Proof.
  intros Hp. unfold collect_body. apply hwp_bind, hwp_call; [done|]. intros casb.
  apply hwp_bind, hwp_call; [done|]. intros s.
  assert (Hp' : pending ((h ++ [Ev (CIsLlmProvider domain) casb]) ++ [Ev CDlpState s]) = led leader key)
    by (by rewrite !pending_snoc).
  destruct (dlp_collect s (rq_body req) EmptyString) as [[body|e]|].
  - by apply hwp_ret.
  - eapply (hwp_bind_mono _ _ _ (fun _ h' => pending h' = ∅)).
    { destruct leader; [apply complete_pending; by rewrite Hp'|by apply hwp_ret]. }
    intros [] h' Hh'. eapply hwp_mono;
      [apply (flightless_keeps (fun r => match r with Ok _ => False | Err _ => True end) _ ∅);
        [solve_only ltac:(done)|done]|].
    by intros [b|r] h'' [? ?].
  - apply hwp_bind, hwp_call; [done|]. intros [].
Qed.

Lemma complete_store_pending sv key st hd body d stored llm h :
  pending h ⊆ {[ key ]} ->
  hwp anything (complete_store hm_iter sv key st hd body d stored llm) (fun _ h' => pending h' = ∅) h.
Proof.
  intros Hp. unfold complete_store. case_match; [|by apply complete_pending].
  apply hwp_bind, hwp_call; [done|]. intros now. apply hwp_bind, hwp_call; [done|]. intros io.
  assert (Hp2 : pending ((h ++ [Ev CNow now]) ++ [Ev CSpillOk io]) = pending h) by (by rewrite !pending_snoc).
  eapply hwp_bind_mono; [apply (flightless_keeps (fun _ => True)); [solve_only ltac:(done)|exact Hp2]|].
  intros [] h3 [_ Hp3].
  eapply hwp_bind_mono; [apply (flightless_keeps (fun _ => True)); [solve_only ltac:(done)|exact Hp3]|].
  intros [] h4 [_ Hp4]. apply complete_pending. by rewrite Hp4.
Qed.

Lemma complete_cache_miss_pending sv cx key domain st hd body d stored peer llm h :
  pending h ⊆ {[ key ]} ->
  hwp anything (complete_cache_miss hm_iter sv cx key domain st hd body d stored peer llm)
    (fun _ h' => pending h' = ∅) h.
Proof.
  intros Hp. unfold complete_cache_miss.
  eapply hwp_bind_mono; [apply (flightless_keeps (fun _ => True)); [solve_only ltac:(done)|reflexivity]|].
  intros [] h1 [_ Hp1].
  eapply hwp_bind_mono; [apply complete_store_pending; by rewrite Hp1|]. intros [] h2 Hp2.
  eapply hwp_mono; [apply (flightless_keeps (fun _ => True)); [solve_only ltac:(done)|exact Hp2]|].
  by intros [] h3 [_ ?].
Qed.

(** A whole answer leaves no flight; a streamed one leaves at most the flight its
    completion finishes. *)
Definition finishes (r : ServiceResponse) (h : list ev) : Prop :=
  match r with
  | Full _ => pending h = ∅
  | Streamed _ _ _ _ _ on_complete =>
      exists key, pending h ⊆ {[ key ]} /\ forall body stored h', pending h' ⊆ {[ key ]} ->
        hwp anything (on_complete body stored) (fun _ h'' => pending h'' = ∅) h'
  end.

Lemma buffer_miss_finishes sv cx key domain llm leader rh peer resp h :
  pending h = led leader key ->
  hwp anything (buffer_miss hm_iter sv cx key domain llm leader rh peer resp) finishes h.
Proof.
  intros Hp. unfold buffer_miss. destruct (collect_upstream (us_body resp)) as [body|].
  - eapply hwp_bind_mono; [apply (flightless_keeps (fun _ => True)); [solve_only ltac:(done)|exact Hp]|].
    intros [[st hd] b] h1 [_ Hp1]. eapply hwp_bind_mono.
    { apply complete_cache_miss_pending. rewrite Hp1. apply led_subseteq. }
    intros [] h2 Hp2. by apply hwp_ret.
  - by apply give_up_pending.
Qed.

Lemma fetch_and_answer_finishes sv cx key domain llm leader req body h :
  pending h = led leader key ->
  hwp anything (fetch_and_answer hm_iter sv cx key domain llm leader req body) finishes h.
Proof.
  intros Hp. unfold fetch_and_answer.
  eapply hwp_bind_mono; [apply (flightless_keeps (fun _ => True)); [solve_only ltac:(done)|exact Hp]|].
  intros [r|] h1 [_ Hp1].
  { by apply give_up_pending. }
  eapply hwp_bind_mono; [apply (flightless_keeps (fun _ => True)); [solve_only ltac:(done)|exact Hp1]|].
  intros [peer [resp|e]] h2 [_ Hp2].
  - case_match; [|by apply buffer_miss_finishes]. unfold stream_miss. apply hwp_ret. exists key.
    split; [rewrite Hp2; apply led_subseteq|]. intros b s h' Hh'. by apply complete_cache_miss_pending.
  - by apply give_up_pending.
Qed.

Lemma handle_miss_finishes sv cx key domain llm early req h :
  pending h = ∅ -> hwp anything (handle_miss hm_iter sv cx key domain llm early req) finishes h.
Proof.
  intros Hp. unfold handle_miss. eapply hwp_bind_mono; [by apply join_flight_pending|].
  intros [leader|r] h1 Hp1; [|by apply hwp_ret].
  eapply (hwp_bind_mono _ _ _ (fun r h' => pending h' = match r with Ok _ => led leader key | Err _ => ∅ end)).
  - destruct early as [body|]; [by apply hwp_ret|]. by apply collect_body_pending.
  - intros [body|r] h2 Hp2; [|by apply hwp_ret]. by apply fetch_and_answer_finishes.
Qed.

Lemma handle_checked_finishes sv cx key llm groups req h :
  pending h = ∅ -> hwp anything (handle_checked hm_iter sv cx key llm groups req) finishes h.
Proof.
  intros Hp. unfold handle_checked.
  eapply hwp_bind_mono; [apply (flightless_keeps (fun _ => True)); [solve_only ltac:(done)|exact Hp]|].
  intros [headers|r] h1 [_ Hp1]; [|by apply hwp_ret].
  apply hwp_bind, hwp_call; [done|]. intros [[[d|] cats] thr];
    (set (h2 := h1 ++ _); assert (Hp2 : pending h2 = ∅) by (unfold h2; by rewrite pending_snoc)).
  - eapply hwp_bind_mono; [apply (flightless_keeps (fun _ => True)); [solve_only ltac:(done)|exact Hp2]|].
    intros [] h3 [_ Hp3]. by apply hwp_ret.
  - unfold handle_admitted. case_match.
    + eapply hwp_bind_mono; [apply (flightless_keeps (fun _ => True)); [solve_only ltac:(done)|exact Hp2]|].
      intros [[[k n] b]|r] h3 [_ Hp3]; [by apply handle_miss_finishes|by apply hwp_ret].
    + eapply hwp_bind_mono; [apply (flightless_keeps (fun _ => True)); [solve_only ltac:(done)|exact Hp2]|].
      intros [r|] h3 [_ Hp3]; [by apply hwp_ret|by apply handle_miss_finishes].
Qed.

Lemma handle_request_finishes sv req ip user h :
  pending h = ∅ -> hwp anything (handle_request hm_iter sv req ip user) finishes h.
Proof.
  intros Hp. unfold handle_request.
  eapply hwp_bind_mono; [apply (flightless_keeps (fun _ => True)); [solve_only ltac:(done)|exact Hp]|].
  intros [[req' u]|r] h1 [_ Hp1]; [|by apply hwp_ret].
  eapply hwp_bind_mono; [apply (flightless_keeps (fun _ => True)); [solve_only ltac:(done)|exact Hp1]|].
  intros detailed h2 [_ Hp2]. apply hwp_bind, hwp_call; [done|]. intros start.
  eapply (hwp_bind_mono _ _ _ (fun _ h' => True /\ pending h' = ∅)).
  { apply (flightless_keeps (fun _ => True)); [solve_only ltac:(done)|]. by rewrite pending_snoc. }
  intros [r|] h3 [_ Hp3]; [by apply hwp_ret|].
  eapply hwp_bind_mono; [apply (flightless_keeps (fun _ => True)); [solve_only ltac:(done)|exact Hp3]|].
  intros [r|] h4 [_ Hp4]; [by apply hwp_ret|by apply handle_checked_finishes].
Qed.

(** C6: Followers are never stranded.  In every run of a request to its end, each
    flight it led has been completed: on a hit of the limiter or the policy, on a
    refused body, an ICAP answer, an upstream error, and after a buffered or a
    streamed response alike. *)
Theorem led_flights_finish sv req ip user oks tr res :
  runs (serve hm_iter sv req ip user oks) tr res -> pending tr = ∅.
Proof.
  intros Hr. assert (Hs : hwp anything (serve hm_iter sv req ip user oks) (fun _ h => pending h = ∅) []).
  { unfold serve. eapply hwp_bind_mono; [by apply handle_request_finishes|].
    intros r h Hf. destruct r as [r|st hd bd at_ mx oc]; [by apply hwp_ret|].
    destruct Hf as (key & Hp & Hoc). destruct (spawn_upstream_drain bd at_ mx oks) as [sent [buffered stored]].
    eapply hwp_bind_mono; [by apply Hoc|]. intros [] h' Hh'. by apply hwp_ret. }
  by destruct (hwp_runs anything _ _ tr res Hs Hr).
Qed.

(** ** Bodies that leave *)

Definition dlp_read (e : ev) : option DlpState :=
  match e with
  | Ev c x => match c in Cmd X return X -> _ with CDlpState => fun x => Some x | _ => fun _ => None end x
  end.

(** The request body a command sends out. *)
Definition sent_body {X} (c : Cmd X) : option string :=
  match c with
  | CPeerFetch _ out | CUpstream out => Some (or_body out)
  | CReqmod _ _ _ body => Some body
  | _ => None
  end.

Definition scanned (frames : list (result BodyFrame string)) (body : string) (h : list ev) : Prop :=
  exists s, s ∈ omap dlp_read h /\ dlp_collect s frames EmptyString = Some (Ok body).

Lemma scanned_snoc frames body h e : scanned frames body h -> scanned frames body (h ++ [e]).
Proof. intros (s & Hs & Hc). exists s. rewrite omap_app, elem_of_app. auto. Qed.

Definition clean_sent (frames : list (result BodyFrame string)) (X : Type) (c : Cmd X) (h : list ev) : Prop :=
  forall body, sent_body c = Some body -> body = EmptyString \/ scanned frames body h.

(** Commands that send no body but an empty one, or the body given. *)
Definition sends (body : string) (X : Type) (c : Cmd X) : Prop :=
  forall b, sent_body c = Some b -> b = EmptyString \/ b = body.

Lemma sends_clean {A} (R : A -> Prop) frames (p : prog Cmd A) h :
  only (sends EmptyString) R p -> hwp (clean_sent frames) p (fun a _ => R a) h.
Proof.
  intros Hp. eapply hwp_mono; [apply (hwp_only (sends EmptyString) _ (fun _ => True) R); [done| |done]|].
  - intros X c h' Hc _. split; [|done]. intros b Hb. left. by destruct (Hc b Hb).
  - by intros a h' [? _].
Qed.

Lemma scanned_clean {A} (R : A -> Prop) frames body (p : prog Cmd A) h :
  only (sends body) R p -> scanned frames body h ->
  hwp (clean_sent frames) p (fun a h' => R a /\ scanned frames body h') h.
Proof.
  intros Hp. apply (hwp_only (sends body)); [done|]. intros X c h' Hc Hh. split.
  - intros b Hb. destruct (Hc b Hb) as [-> | ->]; auto.
  - intros x. by apply scanned_snoc.
Qed.

Ltac solve_sends :=
  solve_only ltac:(
    idtac; let b := fresh "b" in let Hb := fresh "Hb" in
    intros b Hb; cbn in Hb; try done; injection Hb as <-; try (by right); left;
    match goal with H : build_conditional_request _ _ = Some _ |- _ =>
      by apply build_conditional_request_Some in H as (_ & _ & ?) end).

Lemma collect_body_scanned sv cx key domain req leader h :
  hwp (clean_sent (rq_body req)) (collect_body sv cx key domain req leader)
    (fun r h' => match r with Ok body => scanned (rq_body req) body h' | Err _ => True end) h.
Proof.
  unfold collect_body. apply hwp_bind, hwp_call; [done|]. intros casb.
  apply hwp_bind, hwp_call; [done|]. intros s.
  destruct (dlp_collect s (rq_body req) EmptyString) as [[body|e]|] eqn:Hd.
  - apply hwp_ret. exists s. rewrite omap_app, elem_of_app. split; [|done]. right. by left.
  - eapply hwp_mono; [apply (sends_clean (fun r => match r with Ok _ => False | Err _ => True end)); solve_sends|].
    by intros [b|r] h' ?.
  - apply hwp_bind, hwp_call; [done|]. intros [].
Qed.

(** After the answer, the completion of a streamed one sends nothing. *)
Definition quiet_completion (r : ServiceResponse) : Prop := streamed_only (sends EmptyString) r.

Lemma fetch_and_answer_clean sv cx key domain llm leader req body h :
  scanned (rq_body req) body h ->
  hwp (clean_sent (rq_body req)) (fetch_and_answer hm_iter sv cx key domain llm leader req body)
    (fun r _ => quiet_completion r) h.
Proof.
  intros Hs. eapply hwp_mono; [apply (scanned_clean quiet_completion _ body); [|done]|by intros a h' [? _]].
  unfold quiet_completion. solve_sends.
Qed.

Lemma handle_admitted_clean sv cx key domain llm req h :
  hwp (clean_sent (rq_body req)) (handle_admitted hm_iter sv cx key domain llm req)
    (fun r _ => quiet_completion r) h.
Proof.
  unfold handle_admitted, handle_miss, llm_lookup. destruct llm.
  - apply hwp_bind, hwp_bind. eapply hwp_mono; [apply collect_body_scanned|].
    intros [body|r] h1 Hs; [|by apply hwp_ret, hwp_ret]. cbv zeta.
    eapply hwp_mono; [apply (scanned_clean (fun r => match r with Ok (_, _, b) => b = body | Err _ => True end)
      _ body _ _); [|exact Hs]; solve_sends; by simplify_eq|].
    intros [[[k n] b]|r] h2 [Hb Hs2]; [subst b|by apply hwp_ret].
    eapply hwp_bind_mono; [apply (scanned_clean (fun _ => True) _ body _ _); [|exact Hs2]; solve_sends|].
    intros [leader|r] h3 [_ Hs3]; [|by apply hwp_ret]. apply hwp_bind, hwp_ret. by apply fetch_and_answer_clean.
  - eapply hwp_bind_mono; [apply (sends_clean (fun _ => True)); solve_sends|].
    intros [r|] h1 _; [by apply hwp_ret|].
    eapply hwp_bind_mono; [apply (sends_clean (fun _ => True)); solve_sends|].
    intros [leader|r] h2 _; [|by apply hwp_ret].
    eapply hwp_bind_mono; [apply collect_body_scanned|].
    intros [body|r] h3 Hs; [|by apply hwp_ret]. by apply fetch_and_answer_clean.
Qed.

Lemma rp_gate_body sv ip req frames h :
  hwp (clean_sent frames) (rp_gate sv ip req)
    (fun r _ => match r with Ok (req', _) => rq_body req' = rq_body req | Err _ => True end) h.
Proof. apply sends_clean. solve_sends; by simplify_eq. Qed.

Lemma handle_checked_clean sv cx key llm groups req h :
  hwp (clean_sent (rq_body req)) (handle_checked hm_iter sv cx key llm groups req)
    (fun r _ => quiet_completion r) h.
Proof.
  unfold handle_checked. eapply hwp_bind_mono; [apply (sends_clean (fun _ => True)); solve_sends|].
  intros [headers|r] h6 _; [|by apply hwp_ret].
  apply hwp_bind, hwp_call; [done|]. intros [[[d|] cats] thr].
  - eapply hwp_bind_mono; [apply (sends_clean (fun _ => True)); solve_sends|].
    intros [] h7 _. by apply hwp_ret.
  - apply (handle_admitted_clean _ _ _ _ _ (with_headers headers req)).
Qed.

Lemma handle_request_clean sv req ip user h :
  hwp (clean_sent (rq_body req)) (handle_request hm_iter sv req ip user) (fun r _ => quiet_completion r) h.
Proof.
  unfold handle_request. eapply hwp_bind_mono; [apply rp_gate_body|].
  intros [[req' u]|r] h1 Hb; [|by apply hwp_ret]. rewrite <- Hb.
  eapply hwp_bind_mono; [apply (sends_clean (fun _ => True)); solve_sends|]. intros detailed h2 _.
  eapply hwp_bind_mono; [apply (sends_clean (fun _ => True)); solve_sends|]. intros start h3 _.
  eapply hwp_bind_mono; [apply (sends_clean (fun _ => True)); solve_sends|].
  intros [r|] h4 _; [by apply hwp_ret|].
  eapply hwp_bind_mono; [apply (sends_clean (fun _ => True)); solve_sends|].
  intros [r|] h5 _; [by apply hwp_ret|].
  apply handle_checked_clean.
Qed.


(** ** Keys *)

(** The keys of a method and url: the plain one, and those of LLM bodies. *)
Definition own_key (method url key : string) : Prop :=
  key = http_cache_key method url \/ exists body, key = content_cache_key method url body.

(** Commands that use only the keys of a method and url, and fetch only them; a
    similar prompt's key may be read when near hits are on. *)
Definition keyed (near : bool) (method url : string) (X : Type) (c : Cmd X) : Prop :=
  match c with
  | CL1Insert k _ | CL2Get k | CL2Set k _ | CDigestInsert k | CIndexInsert _ k | CFlightJoin k
  | CFlightComplete k _ => own_key method url k
  | CL1Get k => own_key method url k \/ near = true
  | CPeerFetch _ out | CUpstream out => or_method out = method /\ uri_to_string (or_uri out) = url
  | _ => True
  end.

Ltac solve_keyed :=
  solve_only ltac:(idtac; cbn [keyed]; first
    [ done | by left | by right | by split
    | match goal with H : build_conditional_request _ _ = Some _ |- _ =>
        apply build_conditional_request_Some in H as (Hm & Hu & _); split; congruence end ]).

(** What every stage below is about: a request, its context and a key of it. *)
Section keyed_request.
Context (sv : ProxyService) (cx : ReqCtx) (req : Request) (m u : string).
Context (Hrm : rq_method req = m) (Hru : uri_to_string (rq_uri req) = u).
Context (Hcm : cx_method cx = m) (Hcu : cx_url cx = u).
#[local] Definition allowed := keyed (near_hit_enabled (sv_semantic sv)) m u.

Lemma llm_lookup_keyed key domain :
  own_key m u key ->
  only allowed (fun r => match r with Ok (k, _, _) => own_key m u k | Err _ => True end)
    (llm_lookup sv cx key domain req).
Proof.
  intros Hk. unfold llm_lookup, allowed. apply only_bind; [solve_keyed|]. intros [body|r]; [|done]. cbv zeta.
  assert (Hc : own_key m u (content_cache_key (cx_method cx) (cx_url cx) (normalize_llm_body body))).
  { rewrite Hcm, Hcu. right. by eexists. }
  destruct (near_hit_enabled (sv_semantic sv)); solve_keyed; by simplify_eq.
Qed.

Lemma handle_miss_keyed key domain llm early :
  own_key m u key ->
  only allowed (streamed_only allowed) (handle_miss hm_iter sv cx key domain llm early req).
Proof. intros Hk. unfold allowed. solve_keyed. Qed.

Lemma handle_admitted_keyed domain llm :
  only allowed (streamed_only allowed)
    (handle_admitted hm_iter sv cx (http_cache_key m u) domain llm req).
Proof.
  assert (Hk : own_key m u (http_cache_key m u)) by (by left). unfold handle_admitted. destruct llm.
  - eapply only_bind_mono; [by apply llm_lookup_keyed|].
    intros [[[k n] b]|r] Hr; [by apply handle_miss_keyed|done].
  - apply only_bind; [unfold allowed; solve_keyed|]. intros [r|]; [done|by apply handle_miss_keyed].
Qed.

Lemma try_serve_cache_keyed key :
  own_key m u key -> only allowed (fun _ => True) (try_serve_cache_before_policy hm_iter sv cx req key).
Proof. intros Hk. unfold allowed. solve_keyed. Qed.

End keyed_request.

(** The uri a request is for: behind a reverse proxy, its path at the upstream. *)
Definition target (sv : ProxyService) (req : Request) : Uri :=
  match sv_reverse_proxy sv with
  | None => rq_uri req
  | Some rp =>
      default (rq_uri req)
        (uri_parse (trim_end_matches "/" (rp_upstream_url rp) +:+
                    default EmptyString (uri_path_and_query (rq_uri req))))
  end.

Definition request_keyed (sv : ProxyService) (req : Request) : forall X, Cmd X -> Prop :=
  keyed (near_hit_enabled (sv_semantic sv)) (rq_method req) (uri_to_string (target sv req)).

Lemma rp_gate_keyed sv ip req :
  only (request_keyed sv req)
    (fun r => match r with
              | Ok (req', _) => rq_method req' = rq_method req /\ rq_uri req' = target sv req
              | Err _ => True
              end) (rp_gate sv ip req).
Proof.
  unfold request_keyed, target, rp_gate. destruct (sv_reverse_proxy sv) as [rp|]; [|done].
  solve_only ltac:(done); simplify_eq; by destruct (uri_parse _).
Qed.

Lemma handle_checked_keyed sv cx key llm groups req m u :
  rq_method req = m -> uri_to_string (rq_uri req) = u -> cx_method cx = m -> cx_url cx = u ->
  key = http_cache_key m u ->
  only (allowed sv m u) (streamed_only (allowed sv m u)) (handle_checked hm_iter sv cx key llm groups req).
Proof.
  intros Hrm Hru Hcm Hcu ->. unfold handle_checked. apply only_bind; [unfold allowed; solve_keyed|].
  intros [headers|r]; [|done]. apply only_bind; [by split|]. intros [[[d|] cats] thr].
  - unfold allowed. solve_keyed.
  - by apply handle_admitted_keyed.
Qed.

Lemma handle_request_keyed sv req ip user :
  only (request_keyed sv req) (streamed_only (request_keyed sv req)) (handle_request hm_iter sv req ip user).
Proof.
  unfold handle_request. eapply only_bind_mono; [apply rp_gate_keyed|].
  intros [[req' name]|r] Hg; [|done]. destruct Hg as [Hm Hu].
  assert (Hu' : uri_to_string (rq_uri req') = uri_to_string (target sv req)) by (by rewrite Hu).
  apply only_bind; [solve_only ltac:(done)|]. intros detailed. apply only_bind; [by split|]. intros start.
  cbv zeta. apply only_bind; [solve_only ltac:(done)|]. intros [r|]; [done|].
  apply only_bind.
  - case_match; [|done]. apply try_serve_cache_keyed; [done..|]. left. by rewrite Hm, Hu'.
  - intros [r|]; [done|]. apply handle_checked_keyed; [done..|]. by rewrite Hm, Hu'.
Qed.

(** C10: Responses are kept under their own key.  In every run of a request, all that
    is stored in a cache, announced to the peers' digest or the index, and every
    flight led or completed goes under a key of the request's method and target uri,
    all that is fetched from a peer or the origin is that method and uri, and only
    those keys are read, unless near hits for LLM prompts are on. *)
Theorem caches_use_own_keys sv req ip user oks tr res X (c : Cmd X) x before rest :
  runs (serve hm_iter sv req ip user oks) tr res -> tr = before ++ Ev c x :: rest ->
  keyed (near_hit_enabled (sv_semantic sv)) (rq_method req) (uri_to_string (target sv req)) X c.
Proof.
  intros Hr Heq.
  assert (Hs : only (request_keyed sv req) (fun _ => True) (serve hm_iter sv req ip user oks)).
  { unfold serve. eapply only_bind_mono; [apply handle_request_keyed|]. intros [r|st hd bd at_ mx oc] Hq; [done|].
    destruct (spawn_upstream_drain bd at_ mx oks) as [sent [buffered stored]].
    apply only_bind; [apply Hq|done]. }
  by apply (only_runs _ _ _ _ _ Hs Hr X c x before rest).
Qed.

(** ** Where cached responses come from *)

Section provenance.
Context {CL : CodecLaws CD} (sv : ProxyService) (method : string) (llm : bool).

(** The store decision of a request. *)
Definition request_decision (st : N) (hd : gmap string string) (size : N) : CacheStoreDecision :=
  if llm then evaluate_llm_store st size (max_body_size (sv_cache_config sv)) (sm_ttl (sv_semantic sv))
  else evaluate_store method st (hm_iter hd) size (sv_cache_config sv).

(** A response the origin or a peer sent, as far as it arrived, or ICAP put in its
    place. *)
Definition response_source (e : ev) : option (N * gmap string string * string) :=
  match e with
  | Ev c x =>
      match c in Cmd X return X -> _ with
      | CUpstream _ | CPeerFetch _ _ => fun x =>
          match x with
          | Ok r => Some (us_status r, headers_map (us_headers r), u_data (us_body r))
          | Err _ => None
          end
      | CRespmod _ _ _ _ _ _ => fun x =>
          match x with Ok (IcapHttpResponse st hd b) => Some (st, hd, b) | _ => None end
      | _ => fun _ => None
      end x
  end.

(** An entry read from a cache, with its key. *)
Definition entry_read (e : ev) : option (string * CachedResponse) :=
  match e with
  | Ev c x =>
      match c in Cmd X return X -> _ with
      | CL1Get k | CL2Get k => fun x => (fun r => (k, r)) <$> x
      | _ => fun _ => None
      end x
  end.

Definition stored_entry {X} (c : Cmd X) : option (string * CachedResponse) :=
  match c with CL1Insert k e | CL2Set k e => Some (k, e) | _ => None end.

(** The entry holds that response, which may be stored. *)
Definition fits (src : N * gmap string string * string) (e : CachedResponse) : Prop :=
  let '(st, hd, b) := src in
  cr_status e = st /\ response_body e = b /\ sd_store (request_decision st hd (str_len b)) = true.

Definition same_content (e c : CachedResponse) : Prop :=
  cr_status e = cr_status c /\ cr_headers e = cr_headers c /\ cr_body e = cr_body c /\
  cr_body_encoding e = cr_body_encoding c.

Definition sourced (key : string) (e : CachedResponse) (h : list ev) : Prop :=
  (exists src, src ∈ omap response_source h /\ fits src e) \/
  (exists c, (key, c) ∈ omap entry_read h /\ same_content e c).

Lemma sourced_snoc key e h v : sourced key e h -> sourced key e (h ++ [v]).
Proof.
  intros [(src & Hs & Hf)|(c & Hc & Hf)]; [left; exists src|right; exists c];
    rewrite omap_app, elem_of_app; auto.
Qed.

Definition sourced_store (X : Type) (c : Cmd X) (h : list ev) : Prop :=
  forall k e, stored_entry c = Some (k, e) -> sourced k e h.

(** Commands that store only the entries [E]. *)
Definition puts (E : string -> CachedResponse -> Prop) (X : Type) (c : Cmd X) : Prop :=
  forall k e, stored_entry c = Some (k, e) -> E k e.

Abbreviation shwp := (hwp sourced_store).

Lemma puts_sourced {A} (E : string -> CachedResponse -> Prop) (R : A -> Prop) (p : prog Cmd A) h :
  only (puts E) R p -> (forall k e, E k e -> sourced k e h) -> shwp p (fun a _ => R a) h.
Proof.
  intros Hp HE. eapply hwp_mono.
  - apply (hwp_only (puts E) _ (fun h' => forall k e, E k e -> sourced k e h') R); [done| |done].
    intros X c h' Hc Hh. split; [intros k e Hk; by apply Hh, Hc|]. intros x k e He. by apply sourced_snoc, Hh.
  - by intros a h' [? _].
Qed.

Definition nothing (k : string) (e : CachedResponse) : Prop := False.

Lemma quiet_sourced {A} (R : A -> Prop) (p : prog Cmd A) h :
  only (puts nothing) R p -> shwp p (fun a _ => R a) h.
Proof. intros Hp. by apply (puts_sourced nothing). Qed.

(** Stages that keep a source in the history while storing nothing. *)
Lemma quiet_keeps {A} (R : A -> Prop) (p : prog Cmd A) src h :
  only (puts nothing) R p -> src ∈ omap response_source h ->
  shwp p (fun a h' => R a /\ src ∈ omap response_source h') h.
Proof.
  intros Hp Hsrc. apply (hwp_only (puts nothing) _ (fun h => src ∈ omap response_source h)); [done| |done].
  intros X c h' Hc Hh. split.
  - intros k e Hk. by destruct (Hc k e Hk).
  - intros x. rewrite omap_app, elem_of_app. by left.
Qed.

Ltac solve_puts := solve_only ltac:(idtac; let k := fresh in let e := fresh in let H := fresh in
  intros k e H; cbn in H; try done; injection H as <- <-; first [done | by split | by auto]).

Lemma refreshed_same now c ttl : same_content (refreshed_after_not_modified now c ttl) c.
Proof. done. Qed.

Lemma revalidate_sourced cx req key c h :
  (key, c) ∈ omap entry_read h -> shwp (try_revalidate_stale hm_iter sv cx req key c) (fun _ _ => True) h.
Proof.
  intros Hc. apply (puts_sourced (fun k e => k = key /\ same_content e c)).
  - solve_puts.
  - intros k e [-> Hs]. right. by exists c.
Qed.

Lemma l2_hit_sourced cx key c h :
  (key, c) ∈ omap entry_read h -> shwp (serve_l2_hit sv cx key c) (fun _ _ => True) h.
Proof.
  intros Hc. apply (puts_sourced (fun k e => k = key /\ e = c)); [solve_puts|].
  intros k e [-> ->]. right. by exists c.
Qed.

Lemma recorded {B} (f : ev -> option B) h v b : f v = Some b -> b ∈ omap f (h ++ [v]).
Proof. intros Hv. rewrite omap_app, elem_of_app. right. cbn. rewrite Hv. by left. Qed.

(** The two lookups: in L1 with revalidation, then in L2. *)
Lemma lookup_sourced cx cx' req key (serve_fresh : CachedResponse -> prog Cmd HttpResponse) h :
  (forall c, only (puts nothing) (fun _ => True) (serve_fresh c)) ->
  shwp
    (found ← call (CL1Get key);
     early ←
       match found with
       | None => mret None
       | Some cached =>
           now ← call CNow;
           if can_serve_fresh now cached then r ← serve_fresh cached; mret (Some r)
           else try_revalidate_stale hm_iter sv cx req key cached
       end;
     match early with
     | Some r => mret (Some r)
     | None =>
         l2 ← try_l2_cache_get sv key;
         match l2 with
         | Some cached => r ← serve_l2_hit sv cx' key cached; mret (Some r)
         | None => mret None
         end
     end : prog Cmd (option HttpResponse)) (fun _ _ => True) h.
Proof.
  intros Hserve. apply hwp_bind, hwp_call; [done|]. intros found. apply hwp_bind.
  eapply hwp_mono; [instantiate (1 := fun _ _ => True)|].
  - destruct found as [c|]; [|by apply hwp_ret]. apply hwp_bind, hwp_call; [done|]. intros now. case_match.
    + eapply hwp_bind_mono; [by apply quiet_sourced|]. intros r h' _. by apply hwp_ret.
    + apply revalidate_sourced. rewrite omap_app, elem_of_app. left. by apply recorded.
  - intros [r|] h' _; [by apply hwp_ret|]. apply hwp_bind. unfold try_l2_cache_get. case_match; [|by apply hwp_ret, hwp_ret].
    apply hwp_call; [done|]. intros [c|]; [|by apply hwp_ret].
    eapply hwp_bind_mono; [apply l2_hit_sourced; by apply recorded|]. intros r h'' _. by apply hwp_ret.
Qed.

Lemma complete_sourced cx key domain st hd body stored peer n h :
  (st, hd, body) ∈ omap response_source h -> present n = llm ->
  let d := request_decision st hd (str_len body) in
  shwp (complete_cache_miss hm_iter sv cx key domain st hd body d (stored && sd_store d) peer n) (fun _ _ => True) h.
Proof.
  intros Hin Hn d. apply (puts_sourced (fun k e => fits (st, hd, body) e)).
  - unfold complete_cache_miss, complete_store. destruct (sd_store d) eqn:Hd; [|rewrite !andb_false_r; solve_puts].
    destruct stored; [|cbn [andb]; solve_puts]. cbn [andb].
    assert (Hfit : forall now io, fits (st, hd, body) (from_upstream now io st (hm_iter hd) body (sd_ttl d)
      (compression (sv_cache_config sv)) (spill_threshold_bytes (sv_cache_config sv)) (sd_etag d)
      (sd_last_modified d) (sd_is_negative d) (sd_must_revalidate d))).
    { intros now io. split; [done|]. split; [apply from_upstream_response_body|done]. }
    solve_puts.
  - intros k e He. left. by exists (st, hd, body).
Qed.

Lemma store_decision_request cx (n : option string) st hd size :
  cx_method cx = method -> present n = llm ->
  store_decision hm_iter sv cx (present n) st hd size = request_decision st hd size.
Proof. intros Hm Hn. unfold store_decision, request_decision. by rewrite Hm, Hn. Qed.

(** A failed adaptation's 502 is never stored. *)
Lemma bad_gateway_unstored hd size : sd_store (request_decision 502 hd size) = false.
Proof.
  unfold request_decision. destruct llm; [done|]. unfold evaluate_store.
  change (is_negative_status 502) with false.
  replace (bool_decide (502%N ∈ CACHEABLE_STATUS_CODES)) with false by (vm_compute; reflexivity).
  by repeat case_match.
Qed.

(** What RESPMOD leaves is a source, or is not stored. *)
Lemma respmod_sourced cx rh st hd b h :
  (st, hd, b) ∈ omap response_source h ->
  shwp (run_icap_respmod sv cx rh st hd b)
    (fun r h' => r ∈ omap response_source h' \/
       forall size, sd_store (request_decision r.1.1 r.1.2 size) = false) h.
Proof.
  intros Hin. unfold run_icap_respmod. destruct (sv_icap sv) as [ic|]; [|by apply hwp_ret; left].
  destruct (ic_respmod ic); [|by apply hwp_ret; left].
  apply hwp_bind, hwp_call; [done|]. intros x. apply hwp_ret. rewrite omap_app.
  destruct x as [[|st' hd' b']|e]; [left; apply elem_of_app; by left|left; apply elem_of_app; right; by left|].
  destruct (ic_fail_open ic); [left; apply elem_of_app; by left|]. right. intros size. apply bad_gateway_unstored.
Qed.

(** A streamed answer whose completion stores its own source, or nothing. *)
Definition stream_sourced (r : ServiceResponse) (h : list ev) : Prop :=
  match r with
  | Full _ => True
  | Streamed _ _ body _ _ oc =>
      shwp (oc (u_data body) true) (fun _ _ => True) h /\ shwp (oc EmptyString false) (fun _ _ => True) h
  end.

Lemma stream_miss_sourced cx key domain n peer resp h :
  cx_method cx = method -> present n = llm ->
  (us_status resp, headers_map (us_headers resp), u_data (us_body resp)) ∈ omap response_source h ->
  shwp (stream_miss hm_iter sv cx key domain n peer resp) stream_sourced h.
Proof.
  intros Hm Hn Hin. unfold stream_miss. apply hwp_ret. split.
  - cbn [negb]. cbv zeta. rewrite (store_decision_request cx n) by done. by apply (complete_sourced _ _ _ _ _ _ true).
  - apply quiet_sourced. solve_puts.
Qed.

Lemma collect_upstream_data u b : collect_upstream u = Ok b -> u_data u = b.
Proof.
  revert b. induction u as [| |f rest IH]; intros b; cbn [collect_upstream u_data]; [by intros [= <-]|done|].
  destruct (collect_upstream rest) as [r|e]; [|done]. intros [= <-]. by destruct f; cbn; rewrite (IH r).
Qed.

Lemma buffer_miss_sourced cx key domain n leader rh peer resp h :
  cx_method cx = method -> present n = llm ->
  (us_status resp, headers_map (us_headers resp), u_data (us_body resp)) ∈ omap response_source h ->
  shwp (buffer_miss hm_iter sv cx key domain n leader rh peer resp) stream_sourced h.
Proof.
  intros Hm Hn Hin. unfold buffer_miss. destruct (collect_upstream (us_body resp)) as [body|] eqn:Hb.
  - rewrite (collect_upstream_data _ _ Hb) in Hin.
    eapply hwp_bind_mono; [by apply respmod_sourced|]. intros [[st hd] b] h1 Hs. cbv zeta.
    rewrite (store_decision_request cx n) by done.
    eapply (hwp_bind_mono _ _ _ (fun _ _ => True)); [|intros [] h2 _; by apply hwp_ret].
    destruct Hs as [Hs|Hs]; [by apply (complete_sourced _ _ _ _ _ _ true)|].
    apply quiet_sourced. cbn in Hs. unfold complete_cache_miss, complete_store.
    rewrite Hs. cbn [andb]. solve_puts.
  - eapply hwp_bind_mono; [apply (quiet_sourced (fun _ => True)); solve_puts|]. intros [] h1 _. by apply hwp_ret.
Qed.

(** The answer of a fetch is in the history. *)
Definition fetch_recorded (pr : option cell * result UpstreamResponse string) (h : list ev) : Prop :=
  forall resp, pr.2 = Ok resp ->
  (us_status resp, headers_map (us_headers resp), u_data (us_body resp)) ∈ omap response_source h.

Lemma fetch_is_recorded cx is_llm out h : shwp (fetch sv cx is_llm out) fetch_recorded h.
Proof.
  unfold fetch, try_fetch_via_hierarchy.
  assert (Hup : forall h', shwp (reply ← call (CUpstream out); mret (None, reply)) fetch_recorded h').
  { intros h'. apply hwp_bind, hwp_call; [done|]. intros reply. apply hwp_ret. intros resp Hr.
    apply recorded. cbn in *. by rewrite Hr. }
  apply hwp_bind. destruct is_llm; [by apply hwp_ret|]. case_match; [|by apply hwp_ret].
  apply hwp_bind, hwp_call; [done|]. intros source.
  destruct source as [|peer|peer|]; try (by apply hwp_ret);
    (apply hwp_bind, hwp_call; [done|]; intros [resp|e];
      [apply hwp_ret, hwp_ret; intros r [= <-]; by apply recorded|
       apply hwp_bind, hwp_call; [done|]; intros []; by apply hwp_ret]).
Qed.

Lemma fetch_sourced cx key domain n leader req body h :
  cx_method cx = method -> present n = llm ->
  shwp (fetch_and_answer hm_iter sv cx key domain n leader req body) stream_sourced h.
Proof.
  intros Hm Hn. unfold fetch_and_answer.
  eapply hwp_bind_mono; [apply (quiet_sourced (fun _ => True)); solve_puts|].
  intros [r|] h1 _.
  { eapply hwp_bind_mono; [apply (quiet_sourced (fun _ => True)); solve_puts|]. intros [] h2 _. by apply hwp_ret. }
  eapply hwp_bind_mono; [apply fetch_is_recorded|]. intros [peer [resp|e]] h2 Hin.
  - specialize (Hin resp eq_refl). case_match; [by apply stream_miss_sourced|by apply buffer_miss_sourced].
  - eapply hwp_bind_mono; [apply (quiet_sourced (fun _ => True)); solve_puts|]. intros [] h3 _. by apply hwp_ret.
Qed.

Lemma miss_sourced cx key domain n early req h :
  cx_method cx = method -> present n = llm ->
  shwp (handle_miss hm_iter sv cx key domain n early req) stream_sourced h.
Proof.
  intros Hm Hn. unfold handle_miss. eapply hwp_bind_mono; [apply (quiet_sourced (fun _ => True)); solve_puts|].
  intros [leader|r] h1 _; [|by apply hwp_ret].
  eapply hwp_bind_mono; [apply (quiet_sourced (fun _ => True)); solve_puts|].
  intros [body|r] h2 _; [by apply fetch_sourced|by apply hwp_ret].
Qed.

Lemma checked_sourced cx key groups req h :
  cx_method cx = method -> shwp (handle_checked hm_iter sv cx key llm groups req) stream_sourced h.
Proof.
  intros Hm. unfold handle_checked. eapply hwp_bind_mono; [apply (quiet_sourced (fun _ => True)); solve_puts|].
  intros [headers|r] h1 _; [|by apply hwp_ret].
  apply hwp_bind, hwp_call; [done|]. intros [[[d|] cats] thr].
  - eapply hwp_bind_mono; [apply (quiet_sourced (fun _ => True)); solve_puts|]. intros [] h2 _. by apply hwp_ret.
  - unfold handle_admitted. destruct llm eqn:Hl.
    + eapply hwp_bind_mono; [apply (quiet_sourced (fun _ => True)); solve_puts|].
      intros [[[k n] b]|r] h2 _; [by apply miss_sourced|by apply hwp_ret].
    + eapply hwp_bind_mono; [apply lookup_sourced; intros c; solve_puts|].
      intros [r|] h2 _; [by apply hwp_ret|by apply miss_sourced].
Qed.

End provenance.

(** Whether a request goes through the LLM cache. *)
Definition llm_request (sv : ProxyService) (req : Request) : bool :=
  applies (sv_semantic sv) (rq_method req) (uri_to_string (target sv req)).

Lemma request_sourced {CL : CodecLaws CD} sv req ip user h :
  hwp (sourced_store sv (rq_method req) (llm_request sv req)) (handle_request hm_iter sv req ip user)
    (stream_sourced sv (rq_method req) (llm_request sv req)) h.
Proof.
  unfold handle_request. eapply hwp_bind_mono.
  { apply (quiet_sourced _ _ _ (fun r => match r with
      | Ok (req', _) => rq_method req' = rq_method req /\ rq_uri req' = target sv req | Err _ => True end)).
    unfold target, rp_gate. destruct (sv_reverse_proxy sv) as [rp|]; [|done].
    solve_only ltac:(done); simplify_eq; by destruct (uri_parse _). }
  intros [[req' name]|r] h1 Hg; [|by apply hwp_ret]. destruct Hg as [Hm Hu].
  eapply hwp_bind_mono; [apply (quiet_sourced _ _ _ (fun _ => True)); solve_only ltac:(done)|]. intros detailed h2 _.
  apply hwp_bind, hwp_call; [done|]. intros start. cbv zeta.
  eapply hwp_bind_mono; [apply (quiet_sourced _ _ _ (fun _ => True)); solve_only ltac:(done)|].
  intros [r|] h3 _; [by apply hwp_ret|].
  eapply (hwp_bind_mono _ _ _ (fun _ _ => True)).
  { case_match; [|by apply hwp_ret]. unfold try_serve_cache_before_policy. apply lookup_sourced. intros c.
    solve_only ltac:(done). }
  intros [r|] h4 _; [by apply hwp_ret|].
  unfold llm_request. rewrite <- Hm, <- Hu. by apply checked_sourced.
Qed.


(** ** Streamed answers to LLM requests *)

(** The key a command stores something under. *)
Definition stored_key {X} (c : Cmd X) : option string :=
  match c with CL1Insert k _ | CL2Set k _ | CDigestInsert k | CIndexInsert _ k => Some k | _ => None end.

Definition stores_nothing (X : Type) (c : Cmd X) : Prop := stored_key c = None.

Definition stored_keys (tr : list ev) : list string :=
  omap (fun e : ev => match e with Ev c _ => stored_key c end) tr.

(** A streamed answer that is not to be cached, and stores nothing then. *)
Definition uncached_stream (r : ServiceResponse) : Prop :=
  match r with
  | Full _ => True
  | Streamed _ _ _ attempt _ oc =>
      attempt = false /\ forall body, only stores_nothing (fun _ => True) (oc body false)
  end.

Lemma llm_lookup_stores_nothing sv cx key domain req :
  only stores_nothing (fun _ => True) (llm_lookup sv cx key domain req).
Proof. solve_only ltac:(done). Qed.

Lemma stream_llm_uncached sv cx key domain n peer resp :
  only stores_nothing uncached_stream (stream_miss hm_iter sv cx key domain (Some n) peer resp).
Proof.
  unfold stream_miss. apply only_ret. split.
  - cbn [present]. unfold evaluate_llm_store. by rewrite orb_true_r.
  - intros body. solve_only ltac:(done).
Qed.

Lemma fetch_llm_uncached sv cx key domain n leader req body :
  streaming_miss_enabled (sv_perf sv) = true ->
  only stores_nothing uncached_stream
    (fetch_and_answer hm_iter sv cx key domain (Some n) leader req body).
Proof.
  intros Hst. unfold fetch_and_answer. rewrite Hst.
  apply only_bind; [solve_only ltac:(done)|]. intros [r|].
  { apply only_bind; [by destruct leader|done]. }
  apply only_bind; [solve_only ltac:(done)|]. intros [peer [resp|e]]; [apply stream_llm_uncached|].
  apply only_bind; [by destruct leader|done].
Qed.

Lemma handle_llm_uncached sv cx key domain req :
  streaming_miss_enabled (sv_perf sv) = true ->
  only stores_nothing uncached_stream (handle_admitted hm_iter sv cx key domain true req).
Proof.
  intros Hst. unfold handle_admitted, handle_miss. apply only_bind; [apply llm_lookup_stores_nothing|].
  intros [[[k n] b]|r]; [|done]. apply only_bind; [solve_only ltac:(done)|].
  intros [leader|r]; [|done]. apply only_bind; [done|]. intros [body|r]; [by apply fetch_llm_uncached|done].
Qed.

Lemma handle_request_llm_uncached sv req ip user :
  sv_reverse_proxy sv = None -> streaming_miss_enabled (sv_perf sv) = true ->
  applies (sv_semantic sv) (rq_method req) (uri_to_string (rq_uri req)) = true ->
  only stores_nothing uncached_stream (handle_request hm_iter sv req ip user).
Proof.
  intros Hrp Hst Ha. unfold handle_request, rp_gate. rewrite Hrp. apply (only_bind_mono _ (fun r => r = Ok (req, None)));
    [done|]. intros ? ->. rewrite Ha, andb_false_r.
  apply only_bind; [solve_only ltac:(done)|]. intros detailed. apply only_bind; [by split|]. intros start.
  apply only_bind; [solve_only ltac:(done)|]. intros [r|]; [done|]. apply only_bind; [done|].
  intros [r|]; [done|]. unfold handle_checked. apply only_bind; [solve_only ltac:(done)|].
  intros [headers|r]; [|done]. apply only_bind; [by split|]. intros [[[d|] cats] thr].
  - solve_only ltac:(done).
  - by apply handle_llm_uncached.
Qed.

(** With streaming on, the LLM cache never fills: no run of an LLM request stores
    anything in a cache or the similarity index, whatever the origin answers. *)
Theorem streamed_llm_never_stored sv req ip user oks tr res :
  sv_reverse_proxy sv = None -> streaming_miss_enabled (sv_perf sv) = true ->
  applies (sv_semantic sv) (rq_method req) (uri_to_string (rq_uri req)) = true ->
  runs (serve hm_iter sv req ip user oks) tr res -> stored_keys tr = [].
Proof.
  intros Hrp Hst Ha Hr.
  assert (Hs : only stores_nothing (fun _ => True) (serve hm_iter sv req ip user oks)).
  { unfold serve. eapply only_bind_mono; [by apply handle_request_llm_uncached|].
    intros [r|st hd bd at_ mx oc]; [done|]. intros [-> Hoc].
    pose proof (drain_complete bd false mx oks) as Hd.
    destruct (spawn_upstream_drain bd false mx oks) as [sent bs]. cbn in Hd. subst bs.
    apply only_bind; [apply Hoc|done]. }
  pose proof (only_runs_Forall _ _ _ _ _ Hs Hr) as Hall. unfold stored_keys. clear Hr.
  induction Hall as [|[X c x] tr' Hc Hall IH]; [done|].
  cbn [omap list_omap]. unfold stores_nothing in Hc. rewrite Hc. exact IH.
Qed.

End pipeline.

(** ** Witnesses

    A proxy whose components give fixed answers: the policy and the join as given,
    empty caches, an origin with a small page. *)

Module Demo.

#[local] Instance text_uri : UriCrate := {|
  Uri := string; uri_path u := u; uri_query u := Some u; uri_path_and_query u := Some u;
  uri_to_string u := u; uri_parse u := Some u;
|}.
#[local] Instance text_url : UrlCrate := {|
  Url := string; url_parse := Some; url_join b r := Some (b +:+ r); url_set_fragment_none u := u;
  url_host_str u := None; url_set_host _ u := u; url_to_string u := u;
|}.
#[local] Instance a_host : UrlParser := fun _ => Some (Some "a.test"%string).
#[local] Instance all_text : HeaderText := {| hv_to_str := Some |}.
#[local] Instance no_base64 : Base64 := {| base64_encode s := s; base64_decode _ := None |}.
#[local] Instance no_hash : Sha256 := {| sha256 s := s; hex_encode s := s |}.
#[local] Instance no_json : SerdeJson := {|
  json_from_slice _ := None; json_to_vec _ := EmptyString; number_as_f64 _ := None |}.

Definition page : UpstreamResponse :=
  {| us_status := 200; us_headers := [("content-type", "text/html")]%string;
     us_body := UFrame (FData "hello") UEnd |}.

Definition answer (policy : option AclDecision) (join : CoalesceJoin) (X : Type) (c : Cmd X) : option X :=
  match c in Cmd X return option X with
  | CNow => Some 5%N
  | CRandom => Some 0%N
  | CEventId => Some "ev"%string
  | CSpillOk => Some true
  | CRateCheck _ _ _ => Some None
  | CPolicy _ _ _ _ _ => Some (policy, [], [])
  | CDlpState => Some (state_from_patterns default_patterns)
  | CIsLlmProvider _ => Some false
  | CBegin _ _ _ _ => Some {| co_session_id := "s"%string; co_parent_event_id := None |}
  | CNote _ _ _ _ _ => Some tt
  | CDispatch _ => Some tt
  | CL1Get _ => Some None
  | CL1Insert _ _ => Some tt
  | CFlightJoin _ => Some join
  | CFlightWait _ => Some None
  | CFlightComplete _ _ => Some tt
  | CUpstream _ => Some (Ok page)
  | _ => None
  end.

Definition env (streaming : bool) : Env := fun name =>
  if String.eqb name "STREAMING_MISS_ENABLED" then Some (if streaming then "1" else "0")%string
  else if String.eqb name "SEMANTIC_CACHE_ENABLED" then Some "1"%string
  else None.

Definition service (streaming : bool) : ProxyService := {|
  sv_perf := PerfConfig_from_env (env streaming);
  sv_cache_config := CacheConfig_from_env (env streaming) "/tmp";
  sv_semantic := SemanticCacheConfig_from_env (env streaming);
  sv_rate_config := RateLimitConfig_from_env (env streaming);
  sv_reverse_proxy := None; sv_auth_enabled := false; sv_l2 := false; sv_digest := false;
  sv_hierarchy := false; sv_icap := None; sv_wasm := None;
|}.

Definition request (method uri : string) : Request :=
  {| rq_method := method; rq_uri := uri; rq_headers := []; rq_body := [Ok (BData "q=1")] |}.

Definition run (streaming : bool) (policy : option AclDecision) (join : CoalesceJoin) (method uri : string) :=
  exec (fun X c (w : unit) => (fun x => (w, x)) <$> answer policy join X c)
    (serve map_to_list (service streaming) (request method uri) "10.0.0.1" None [true; true]) tt.

Definition trace (r : option (unit * list (event Cmd) * (N * gmap string string * list Sent))) : list (event Cmd) :=
  match r with Some (_, tr, _) => tr | None => [] end.

Definition sent (r : option (unit * list (event Cmd) * (N * gmap string string * list Sent))) :
    N * gmap string string * list Sent :=
  match r with Some (_, _, res) => res | None => (0%N, ∅, []) end.

Lemma run_runs streaming policy join method uri :
  present (run streaming policy join method uri) = true ->
  let r := run streaming policy join method uri in
  runs (serve map_to_list (service streaming) (request method uri) "10.0.0.1" None [true; true])
    (trace r) (sent r).
Proof.
  intros Hp. cbv zeta. destruct (run _ _ _ _ _) as [[[w tr] res]|] eqn:Hr; [|done].
  cbn [trace sent]. exact (exec_runs _ _ _ _ _ _ Hr).
Qed.

Abbreviation url := "http://a.test/"%string.
Definition fetched := run true None (Leader 0) "GET" url.
Definition denied := run false (Some (AclDecision_deny "r1" "no")) (Leader 0) "GET" url.
Definition out : OutRequest :=
  {| or_method := "GET"; or_uri := url; or_headers := []; or_body := "q=1" |}%string.

Lemma fetched_at : trace fetched = take 7 (trace fetched) ++ Ev (CUpstream out) (Ok page) :: drop 8 (trace fetched).
Proof. vm_compute. reflexivity. Qed.

Lemma complete_mediation_witness :
  (exists u, admitted u (take 7 (trace fetched)) /\ same_target u (CUpstream out)) /\
  sent denied = render (policy_response (AclDecision_deny "r1" "no")).
Proof.
  split.
  - eapply (complete_mediation map_to_list (service true)); [reflexivity| |exact fetched_at|reflexivity].
    apply (run_runs true None (Leader 0) "GET" url). vm_compute. reflexivity.
  - eapply (complete_mediation map_to_list (service false) (request "GET" url) "10.0.0.1" None [true; true]
      (trace denied)); [reflexivity| |].
    + apply (run_runs false (Some (AclDecision_deny "r1" "no")) (Leader 0) "GET" url). vm_compute. reflexivity.
    + vm_compute. apply list_elem_of_here.
Defined.

Lemma led_flights_finish_witness :
  pending (take 5 (trace fetched)) = {[ "GET:http://a.test/"%string ]} /\ pending (trace fetched) = ∅.
Proof.
  split; [vm_compute; reflexivity|].
  apply (led_flights_finish map_to_list (service true) (request "GET" url) "10.0.0.1" None [true; true]
    _ (sent fetched)).
  apply (run_runs true None (Leader 0) "GET" url). vm_compute. reflexivity.
Defined.


Lemma caches_use_own_keys_witness :
  or_method out = "GET"%string /\ uri_to_string (or_uri out) = url.
Proof.
  apply (caches_use_own_keys map_to_list (service true) (request "GET" url) "10.0.0.1" None [true; true]
    (trace fetched) (sent fetched) _ (CUpstream out) (Ok page) (take 7 (trace fetched)) (drop 8 (trace fetched)));
    [|exact fetched_at].
  apply (run_runs true None (Leader 0) "GET" url). vm_compute. reflexivity.
Defined.

Definition kept : CachedResponse :=
  {| cr_status := 200; cr_headers := [("content-type", "text/html")]%string; cr_body := Inline "hello";
     cr_body_encoding := Raw; cr_uncompressed_len := 5; cr_cached_at := 5; cr_ttl := from_secs 3600;
     cr_etag := None; cr_last_modified := None; cr_is_negative := false; cr_must_revalidate := false |}.


Abbreviation llm_url := "http://a.test/v1/chat/completions"%string.
Definition chatted := run true None (Leader 0) "POST" llm_url.

Lemma streamed_llm_never_stored_witness :
  stored_keys (trace fetched) = ["GET:http://a.test/"%string] /\ stored_keys (trace chatted) = [].
Proof.
  split; [vm_compute; reflexivity|].
  apply (streamed_llm_never_stored map_to_list (service true) (request "POST" llm_url) "10.0.0.1" None [true; true]
    _ (sent chatted)); [reflexivity|reflexivity|vm_compute; reflexivity|].
  apply (run_runs true None (Leader 0) "POST" llm_url). vm_compute. reflexivity.
Defined.

(** A request that followed a flight that failed fetches by itself, and then
    completes the flight of its key, which by then may be another request's. *)
Example failed_follower_completes_flight :
  omap flight_event (trace (run true None (Follower 0) "GET" url)) = [("GET:http://a.test/"%string, false)].
Proof. vm_compute. reflexivity. Qed.

(** So a key can have two leaders: the first flight fails, a third request leads
    the next one, the failed follower completes it, and a fourth request leads. *)
Example two_leaders_after_failed_flight :
  let key := "GET:http://a.test/"%string in
  let m1 := (flight_join key MissFlightMap_new).1 in
  let m2 := flight_complete key None m1 in
  let '(m3, third) := flight_join key m2 in
  let m4 := flight_complete key (Some (sample_entry [] "hello" false)) m3 in
  third = Leader 1 /\ (flight_join key m4).2 = Leader 2.
Proof. vm_compute. done. Qed.

End Demo.
