(* ===== verification/Connect.v ===== *)
(** * Client connections (src/proxy/src/server.rs, with tls.rs and the hooks of
      proxy_service.rs)

    [handle_connection]: the requests of a client connection in order, CONNECT with its
    admission, the blind tunnel and the intercepted session, in which the client's
    requests are rewritten and served like any other.  A program over the commands of
    the service and those of the connection.  The requests a client sends are a list
    given in advance: what it sends may depend on the answers, but the programs do not
    depend on how it was chosen. *)

From Stdlib Require Import Ascii String NArith ZArith Lia.
From stdpp Require Import base option gmap sets strings pretty numbers list.
From S2P Require Import Prelude Float64 CacheEntry L2Cache MissCoalesce Http RateLimit Inspection.
From S2P Require Import CacheDigest Peers Hierarchy Acl ThreatScore Categorization Pinning PolicyCache Policy Sessions Utf8.
From S2P Require Import SemanticCache Auth ReverseProxy Effects ProxyService Tls Pipeline.

(** [Uri::authority]. *)
Class UriAuthority `{UriCrate} := {
  uri_authority : Uri -> option string;
}.

(** ** Authorities (tls.rs) *)

Definition parse_authority (authority : string) : string * N :=
  match rsplit_once ":" authority with
  | Some (host, port_str) =>
      match parse_u16 port_str with Some port => (host, port) | None => (authority, 443%N) end
  | None => (authority, 443%N)
  end.

Definition should_mitm_port (port : N) : bool := (port =? 443)%N || (port =? 8443)%N.

Section server.
Context {UriC : UriCrate} {UA : UriAuthority} {UrlC : UrlCrate} {UrlP : UrlParser} {HT : HeaderText} {HC : HeaderCodec}
  {B64 : Base64} {SHA : Sha256} {CD : Codec} {SJ : SerdeJson} {AC : AhoCorasick}.
Context (hm_iter : gmap string string -> list (string * string)).

(** The url an intercepted request is served under. *)
Definition mitm_url (authority path : string) : string :=
  let '(domain, port) := parse_authority authority in
  if (port =? 443)%N then "https://" +:+ domain +:+ path else "https://" +:+ domain +:+ ":" +:+ pretty port +:+ path.

Definition rewrite_mitm_request (req : Request) (authority : string) : option Request :=
  let path := default "/"%string (uri_path_and_query (rq_uri req)) in
  uri ← uri_parse (mitm_url authority path);
  Some (with_uri uri req).

(** ** Commands *)

Inductive ServerCmd : Type -> Type :=
(** a command of the service *)
| SService {X : Type} (c : Cmd X) : ServerCmd X
(** [authenticate_proxy] with the cache of this connection *)
| SAuthenticate (client_ip : string) (headers : HeaderMap) : ServerCmd (result (option UserInfo) (N * string * string))
| SResponseHook (method url client_ip : string) (username : option string) (req_headers : HeaderMap) (status : N)
    (resp_headers : gmap string string) : ServerCmd (result (list (string * string)) string)
| STlsPolicy (domain : string) : ServerCmd TlsPolicyDecision
| SUpgrade : ServerCmd (result unit string)
| SServerConfig (domain : string) : ServerCmd (result ServerConfig string)
| STlsAccept (config : ServerConfig) : ServerCmd (result unit string)
| SConnect (authority : string) : ServerCmd (result unit string)
(** bytes up and down, until both ends have closed *)
| SCopy : ServerCmd (result (N * N) string)
(** the parts of a response, as the client gets them *)
| SSend (status : N) (headers : gmap string string) (body : list Sent) : ServerCmd unit.

Abbreviation sprog := (Effects.prog ServerCmd).

Fixpoint lift {A} (p : Effects.prog Cmd A) : sprog A :=
  match p with
  | Ret a => Ret a
  | Do c k => Do (SService c) (fun x => lift (k x))
  end.

(** ** Answers *)

Definition user_fields (user : option UserInfo) : option string * option string :=
  match user with Some u => (Some (ui_username u), Some (ui_username u)) | None => (None, None) end.

(** The guest may add headers to the response; its errors are only logged. *)
Definition run_wasm_hook_response (sv : ProxyService) (method url client_ip : string) (username : option string)
    (req_headers : HeaderMap) (status : N) (headers : gmap string string) : sprog (gmap string string) :=
  match sv_wasm sv with
  | None => mret headers
  | Some _ =>
      decision ← call (SResponseHook method url client_ip username req_headers status headers);
      mret match decision with
           | Ok set_headers => foldl insert_header headers set_headers
           | Err _ => headers
           end
  end.

(** A request served, from [handle_request] to the last byte; [oks]: whether the client
    takes each frame. *)
Definition serve_request (sv : ProxyService) (client_ip : string) (proxy_user : option UserInfo) (req : Request)
    (oks : list bool) : sprog unit :=
  let hook := run_wasm_hook_response sv (rq_method req) (uri_to_string (rq_uri req)) client_ip
                (ui_username <$> proxy_user) (rq_headers req) in
  resp ← lift (handle_request hm_iter sv req client_ip proxy_user);
  match resp with
  | Full r =>
      headers ← hook (hr_status r) (hr_headers r);
      call (SSend (hr_status r) headers [SData (hr_body r)])
  | Streamed status headers body attempt_cache max_body on_complete =>
      headers ← hook status headers;
      let '(sent, (buffered, stored)) := spawn_upstream_drain body attempt_cache max_body oks in
      call (SSend status headers sent);;
      lift (on_complete buffered stored)
  end.

Definition send_response (r : HttpResponse) : sprog unit :=
  call (SSend (hr_status r) (hr_headers r) [SData (hr_body r)]).

(** ** The blind tunnel *)

Definition tunnel_event (authority client_ip : string) (proxy_user : option UserInfo) (decision : TlsPolicyDecision)
    (start now : N) (event_id : string) (corr : SessionCorrelation) (bytes_down : N) : CacheEvent :=
  let '(user_id, username) := user_fields proxy_user in
  {| ev_url := "https://" +:+ authority; ev_method := "CONNECT"; ev_status := 200;
     ev_cache_key := http_cache_key "CONNECT" authority; ev_cache_status := "BYPASS"; ev_timestamp := as_secs now;
     ev_headers := ∅; ev_user_id := user_id; ev_username := username; ev_client_ip := client_ip;
     ev_domain := (parse_authority authority).1; ev_response_size := bytes_down;
     ev_request_duration_ms := (now - start) / 1000000; ev_content_type := None; ev_user_agent := None;
     ev_categories := []; ev_threat_sources := []; ev_acl_action := None; ev_acl_rule_id := None;
     ev_acl_reason := None; ev_session_id := co_session_id corr; ev_parent_event_id := co_parent_event_id corr;
     ev_redirect_url := None; ev_dlp_violation := None; ev_casb_alert := None;
     ev_decision_source := Some (tp_decision_source decision);
     ev_bypass_reason := Some (default "connect_tunnel"%string (tp_bypass_reason decision));
     ev_event_id := event_id |}.

Definition handle_connect_tunnel (sv : ProxyService) (authority client_ip : string) (start : N)
    (proxy_user : option UserInfo) (decision : TlsPolicyDecision) : sprog unit :=
  upstream ← call (SConnect authority);
  match upstream with
  | Err _ => mret tt
  | Ok _ =>
      copied ← call SCopy;
      match copied with
      | Err _ => mret tt
      | Ok (_, down) =>
          now ← call (SService CNow);
          event_id ← call (SService CEventId);
          corr ← call (SService (CBegin client_ip (user_fields proxy_user).2 None ("https://" +:+ authority)));
          lift (send_cache_event sv (tunnel_event authority client_ip proxy_user decision start now event_id corr down))
      end
  end.

(** ** The intercepted session *)

Definition handle_mitm_request (sv : ProxyService) (authority client_ip : string) (proxy_user : option UserInfo)
    (inner : Request * list bool) : sprog unit :=
  match rewrite_mitm_request inner.1 authority with
  | None => send_response (response 400 "400 Bad Request")
  | Some req => serve_request sv client_ip proxy_user req inner.2
  end.

Fixpoint in_order {A} (serve_one : A -> sprog unit) (l : list A) : sprog unit :=
  match l with
  | [] => mret tt
  | a :: l => serve_one a;; in_order serve_one l
  end.

Definition handle_connect_mitm (sv : ProxyService) (authority client_ip : string) (proxy_user : option UserInfo)
    (session : list (Request * list bool)) : sprog unit :=
  config ← call (SServerConfig (parse_authority authority).1);
  match config with
  | Err _ => mret tt
  | Ok config =>
      accepted ← call (STlsAccept config);
      match accepted with
      | Err _ => mret tt
      | Ok _ => in_order (handle_mitm_request sv authority client_ip proxy_user) session
      end
  end.

(** ** CONNECT *)

(** The task that runs once the connection is the client's: [session] is what the client
    sends inside it. *)
Definition connect_task (sv : ProxyService) (authority client_ip : string) (start : N) (proxy_user : option UserInfo)
    (session : list (Request * list bool)) : sprog unit :=
  upgraded ← call SUpgrade;
  match upgraded with
  | Err _ => mret tt
  | Ok _ =>
      let '(domain, port) := parse_authority authority in
      decision ←
        (if should_mitm_port port then call (STlsPolicy domain)
         else mret {| tp_mitm := false; tp_decision_source := "sni"; tp_bypass_reason := Some "non_mitm_port"%string |});
      if tp_mitm decision then handle_connect_mitm sv authority client_ip proxy_user session
      else handle_connect_tunnel sv authority client_ip start proxy_user decision
  end.

(** The context of a CONNECT, for the hook and the events. *)
Definition connect_ctx (authority client_ip : string) (proxy_user : option UserInfo) (user_agent : option string)
    (categories threat_sources : list string) (start : N) : ReqCtx :=
  let '(user_id, username) := user_fields proxy_user in
  {| cx_method := "CONNECT"; cx_url := "https://" +:+ authority; cx_client_ip := client_ip; cx_user_id := user_id;
     cx_username := username; cx_user_agent := user_agent; cx_categories := categories;
     cx_threat_sources := threat_sources; cx_start := start; cx_detailed := true |}.

(** The answer, or nothing: the tunnel is to be opened. *)
Definition admit_connect (sv : ProxyService) (client_ip : string) (start : N) (req : Request) (authority : string)
    (proxy_user : option UserInfo) : sprog (option HttpResponse) :=
  let user_agent := request_header_str req "user-agent" in
  let username := ui_username <$> proxy_user in
  let groups := from_option ui_groups [] proxy_user in
  limited ← lift (check_rate_limit sv client_ip username (rq_headers req));
  match limited with
  | Some r => mret (Some r)
  | None =>
      let url := "https://" +:+ authority in
      let domain := (parse_authority authority).1 in
      hook ← lift (run_wasm_hook sv (connect_ctx authority client_ip proxy_user user_agent [] [] start) []);
      match hook with
      | Err r => mret (Some r)
      | Ok _ =>
          '(decision, categories, threat_sources) ← call (SService (CPolicy url domain username groups client_ip));
          match decision with
          | Some d =>
              lift (emit_policy_event sv
                (connect_ctx authority client_ip proxy_user user_agent categories threat_sources start)
                (http_cache_key "CONNECT" authority) d domain "sni");;
              mret (Some (policy_response d))
          | None => mret None
          end
      end
  end.

(** The challenge, unless it cannot be built: a panic. *)
Definition send_challenge (challenge : N * string * string) : sprog unit :=
  r ← lift (unwrap_response (challenge_response challenge));
  send_response r.

(** A request of the connection, and whether the connection stays an HTTP one.  After a
    CONNECT is admitted the client is answered and the task begins. *)
Definition handle_client_request (sv : ProxyService) (client_ip : string) (session : list (Request * list bool))
    (req : Request) (oks : list bool) : sprog bool :=
  start ← call (SService CNow);
  if String.eqb (rq_method req) "CONNECT" then
    match uri_authority (rq_uri req) with
    | None => send_response (response 400 "400 Bad Request");; mret true
    | Some authority =>
        user ← call (SAuthenticate client_ip (rq_headers req));
        match user with
        | Err challenge => send_challenge challenge;; mret true
        | Ok proxy_user =>
            refused ← admit_connect sv client_ip start req authority proxy_user;
            match refused with
            | Some r => send_response r;; mret true
            | None =>
                call (SSend 200 ∅ []);;
                connect_task sv authority client_ip start proxy_user session;;
                mret false
            end
        end
    end
  else
    user ← call (SAuthenticate client_ip (rq_headers req));
    match user with
    | Err challenge => send_challenge challenge;; mret true
    | Ok proxy_user => serve_request sv client_ip proxy_user req oks;; mret true
    end.

(** The connection: its requests until one is a tunnel, then what goes through it. *)
Fixpoint handle_connection (sv : ProxyService) (client_ip : string) (session : list (Request * list bool))
    (reqs : list (Request * list bool)) : sprog unit :=
  match reqs with
  | [] => mret tt
  | (req, oks) :: reqs =>
      http ← handle_client_request sv client_ip session req oks;
      if http : bool then handle_connection sv client_ip session reqs else mret tt
  end.

End server.

(** ** Lemmas: lifted programs *)

Section lifted.
Context {UriC : UriCrate}.

(** Only commands of the service, and only those [P] allows. *)
Definition of_service (P : forall X, Cmd X -> Prop) (X : Type) (c : ServerCmd X) : Prop :=
  match c with SService c => P _ c | _ => False end.

Lemma lift_only {A} (P : forall X, Cmd X -> Prop) (R : A -> Prop) (p : Effects.prog Cmd A) :
  only P R p -> only (of_service P) R (lift p).
Proof.
  induction p as [a|X c k IH]; cbn [only lift]; [done|]. intros [Hc Hk]. split; [done|]. intros x. by apply IH.
Qed.

Lemma lift_call_bind {X B} guard (c : Cmd X) (f : X -> Effects.prog Cmd B) Q h :
  guard X (SService c) h -> (forall x, hwp guard (lift (f x)) Q (h ++ [Ev (SService c) x])) ->
  hwp guard (lift (call c ≫= f)) Q h.
Proof. intros Hc Hf. by split. Qed.

Lemma only_mono {Cm : Type -> Type} {A} (P Q : forall X, Cm X -> Prop) (R R' : A -> Prop) (p : Effects.prog Cm A) :
  (forall X (c : Cm X), P X c -> Q X c) -> (forall a, R a -> R' a) -> only P R p -> only Q R' p.
Proof.
  intros HPQ HR. induction p as [a|X c k IH]; cbn [only]; [apply HR|]. intros [Hc Hk].
  split; [by apply HPQ|]. intros x. by apply IH.
Qed.

Lemma only_true {Cm : Type -> Type} {A} (p : Effects.prog Cm A) : only (fun _ _ => True) (fun _ => True) p.
Proof. induction p as [a|X c k IH]; cbn [only]; [done|]. split; [done|]. exact IH. Qed.

End lifted.

(** ** Lemmas: what a connection may open *)

Section mediation.
Context {UriC : UriCrate} {UA : UriAuthority} {UrlC : UrlCrate} {UrlP : UrlParser} {HT : HeaderText} {HC : HeaderCodec}
  {B64 : Base64} {SHA : Sha256} {CD : Codec} {SJ : SerdeJson} {AC : AhoCorasick}.
Context (hm_iter : gmap string string -> list (string * string)).
Context (sv : ProxyService) (ip : string).

Abbreviation sev := (event ServerCmd).

(** The hook's answer lets the request pass. *)
Definition hook_passes (fail_open : bool) (r : result WasmHookDecision string) : Prop :=
  match r with
  | Ok (WasmAllow _) => True
  | Ok (WasmDeny _) => False
  | Err _ => fail_open = true
  end.

(** The checks a CONNECT to [authority] has passed. *)
Definition authorized (authority : string) (h : list sev) : Prop :=
  exists (user : option UserInfo) headers api_key categories threat_sources,
    let url := "https://" +:+ authority in
    let username := ui_username <$> user in
    Ev (SAuthenticate ip headers) (Ok user) ∈ h /\
    Ev (SService (CRateCheck ip username api_key)) None ∈ h /\
    (forall fail_open, sv_wasm sv = Some fail_open ->
       exists r, Ev (SService (CWasm "CONNECT" url ip username [])) r ∈ h /\ hook_passes fail_open r) /\
    Ev (SService (CPolicy url (parse_authority authority).1 username (from_option ui_groups [] user) ip))
      (None, categories, threat_sources) ∈ h.

(** The interception that was decided. *)
Definition tls_decided (authority : string) (mitm : bool) (h : list sev) : Prop :=
  exists d, Ev (STlsPolicy (parse_authority authority).1) d ∈ h /\ tp_mitm d = mitm.

(** A blind tunnel is opened only to an authorized authority that is not to be
    intercepted, and a session intercepted only when it is. *)
Definition opens_authorized (X : Type) (c : ServerCmd X) (h : list sev) : Prop :=
  match c with
  | SConnect authority =>
      authorized authority h /\
      (should_mitm_port (parse_authority authority).2 = true -> tls_decided authority false h)
  | SServerConfig domain =>
      exists authority, domain = (parse_authority authority).1 /\ authorized authority h /\
        should_mitm_port (parse_authority authority).2 = true /\ tls_decided authority true h
  | _ => True
  end.

Definition opens_nothing (X : Type) (c : ServerCmd X) : Prop :=
  match c with SConnect _ | SServerConfig _ => False | _ => True end.

Abbreviation guarded := (hwp opens_authorized).

Lemma quiet_guarded {A} (R : A -> Prop) (p : Effects.prog ServerCmd A) h :
  only opens_nothing R p -> guarded p (fun a h' => R a /\ exists l, h' = h ++ l) h.
Proof.
  intros Hp. apply (hwp_only opens_nothing opens_authorized (fun h' => exists l, h' = h ++ l)); [done| |].
  - intros X c h' Hc (l & ->). split; [by destruct c|]. intros x. exists (l ++ [Ev c x]). by rewrite (assoc_L (++)).
  - exists []. by rewrite app_nil_r.
Qed.

Lemma lift_quiet {A} (p : Effects.prog Cmd A) : only opens_nothing (fun _ => True) (lift p).
Proof.
  eapply only_mono; [|done|apply lift_only, only_true]. intros X c Hc. by destruct c.
Qed.

Lemma lift_guarded {A} (p : Effects.prog Cmd A) h : guarded (lift p) (fun _ h' => exists l, h' = h ++ l) h.
Proof. eapply hwp_mono; [apply (quiet_guarded (fun _ => True)), lift_quiet|]. by intros a h' [_ Hl]. Qed.

Lemma serve_request_quiet user req oks : only opens_nothing (fun _ => True) (serve_request hm_iter sv ip user req oks).
Proof.
  unfold serve_request. apply only_bind; [apply lift_quiet|]. intros [r|st hd bd at_ mx oc];
    (apply only_bind; [unfold run_wasm_hook_response; case_match; [apply only_bind; [by apply only_call|]; intros d;
      by apply only_ret|by apply only_ret]|]); intros headers.
  - by apply only_call.
  - destruct (spawn_upstream_drain _ _ _ _) as [sent [b s]]. apply only_bind; [by apply only_call|].
    intros _. apply lift_quiet.
Qed.


Lemma in_order_only {A} P (f : A -> Effects.prog ServerCmd unit) l :
  (forall a, a ∈ l -> only P (fun _ => True) (f a)) -> only P (fun _ => True) (in_order f l).
Proof.
  induction l as [|a l IH]; intros Hf; cbn [in_order]; [by apply only_ret|]. apply only_bind; [apply Hf; by left|].
  intros _. apply IH. intros b Hb. apply Hf. by right.
Qed.

Lemma mitm_session_quiet authority user session :
  only opens_nothing (fun _ => True) (in_order (handle_mitm_request hm_iter sv authority ip user) session).
Proof.
  apply in_order_only. intros [req oks] _. unfold handle_mitm_request. cbn [fst snd].
  destruct (rewrite_mitm_request req authority); [apply serve_request_quiet|]. by apply only_call.
Qed.

Lemma handle_connect_mitm_guarded authority user session h :
  authorized authority h -> should_mitm_port (parse_authority authority).2 = true -> tls_decided authority true h ->
  guarded (handle_connect_mitm hm_iter sv authority ip user session) (fun _ _ => True) h.
Proof.
  intros Ha Hp Ht. unfold handle_connect_mitm. apply hwp_bind, hwp_call; [by exists authority|].
  intros [config|e]; [|by apply hwp_ret]. apply hwp_bind, hwp_call; [done|]. intros [[]|e]; [|by apply hwp_ret].
  eapply hwp_mono; [apply (quiet_guarded (fun _ => True)), mitm_session_quiet|done].
Qed.

Lemma handle_connect_tunnel_guarded authority start user decision h :
  authorized authority h ->
  (should_mitm_port (parse_authority authority).2 = true -> tls_decided authority false h) ->
  guarded (handle_connect_tunnel sv authority ip start user decision) (fun _ _ => True) h.
Proof.
  intros Ha Ht. unfold handle_connect_tunnel. apply hwp_bind, hwp_call; [done|]. intros [[]|e]; [|by apply hwp_ret].
  apply hwp_bind, hwp_call; [done|]. intros [[up down]|e]; [|by apply hwp_ret].
  apply hwp_bind, hwp_call; [done|]. intros now. apply hwp_bind, hwp_call; [done|]. intros event_id.
  apply hwp_bind, hwp_call; [done|]. intros corr. eapply hwp_mono; [apply lift_guarded|done].
Qed.

Lemma authorized_app authority h l : authorized authority h -> authorized authority (h ++ l).
Proof.
  intros (user & headers & key & cats & ts & H1 & H2 & H3 & H4). exists user, headers, key, cats, ts. cbv zeta.
  rewrite !elem_of_app. split_and!; [by left|by left| |by left]. intros fo Hw. destruct (H3 fo Hw) as (r & Hr & Hp).
  exists r. rewrite elem_of_app. auto.
Qed.

Lemma connect_task_guarded authority start user session h :
  authorized authority h ->
  guarded (connect_task hm_iter sv authority ip start user session) (fun _ _ => True) h.
Proof.
  intros Ha. unfold connect_task. apply hwp_bind, hwp_call; [done|]. intros [[]|e]; [|by apply hwp_ret].
  set (h1 := h ++ _). assert (Ha1 : authorized authority h1) by by apply authorized_app. clearbody h1.
  destruct (parse_authority authority) as [domain port] eqn:Ep. destruct (should_mitm_port port) eqn:Em.
  - apply hwp_bind, hwp_call; [done|]. intros d. set (h2 := h1 ++ _).
    assert (Ha2 : authorized authority h2) by by apply authorized_app.
    assert (Hd : tls_decided authority (tp_mitm d) h2).
    { exists d. rewrite Ep. split; [|done]. unfold h2. rewrite elem_of_app. right. by left. }
    destruct (tp_mitm d) eqn:Et.
    + apply handle_connect_mitm_guarded; [done|by rewrite Ep|done].
    + by apply handle_connect_tunnel_guarded.
  - apply hwp_bind, hwp_ret. cbn [tp_mitm]. apply handle_connect_tunnel_guarded; [done|]. rewrite Ep. cbn. by rewrite Em.
Qed.

(** The checks of a CONNECT, after which it is authorized. *)
Lemma run_wasm_hook_guarded cx headers h :
  guarded (lift (run_wasm_hook sv cx headers))
    (fun r h' => (exists l, h' = h ++ l) /\
       forall hs, r = Ok hs -> forall fail_open, sv_wasm sv = Some fail_open ->
       exists d, Ev (SService (CWasm (cx_method cx) (cx_url cx) (cx_client_ip cx) (cx_username cx) headers)) d ∈ h' /\
         hook_passes fail_open d) h.
Proof.
  unfold run_wasm_hook. destruct (sv_wasm sv) as [fo|].
  - apply lift_call_bind; [done|]. intros d. apply hwp_ret. split; [by eexists|]. intros hs Hd fo' [= <-]. exists d.
    split; [rewrite elem_of_app; right; by left|]. destruct d as [[]|]; [done|done|]. cbn. by destruct fo.
  - cbn [lift]. apply hwp_ret. split; [exists []; by rewrite app_nil_r|done].
Qed.

Lemma admit_connect_guarded start req authority user headers h :
  Ev (SAuthenticate ip headers) (Ok user) ∈ h ->
  guarded (admit_connect sv ip start req authority user)
    (fun r h' => r = None -> authorized authority h') h.
Proof.
  intros Hu. unfold admit_connect, check_rate_limit. apply hwp_bind, lift_call_bind; [done|].
  intros [v|]; apply hwp_ret; cbn [option_map]; [by apply hwp_ret|].
  eapply hwp_bind_mono; [apply run_wasm_hook_guarded|]. intros [hs|r] h2 [(l & ->) Hw]; [|by apply hwp_ret].
  specialize (Hw hs eq_refl). apply hwp_bind, hwp_call; [done|]. intros [[[d|] cats] ts].
  - eapply hwp_bind_mono; [apply lift_guarded|]. intros [] h3 _. by apply hwp_ret.
  - apply hwp_ret. intros _. eexists user, headers, _, cats, ts. cbv zeta. rewrite !elem_of_app.
    split_and!; [by do 3 left|left; left; right; by left| |right; by left]. intros fo Hfo.
    destruct (Hw fo Hfo) as (d & Hd & Hp). exists d. split; [|done]. rewrite elem_of_app. left.
    unfold connect_ctx in Hd. by destruct user.
Qed.

Lemma handle_client_request_guarded session req oks h :
  guarded (handle_client_request hm_iter sv ip session req oks) (fun _ _ => True) h.
Proof.
  assert (Hch : forall c (b : bool) h, guarded (send_challenge c;; mret b) (fun _ _ => True) h).
  { intros c b h'. apply hwp_bind. eapply hwp_mono; [apply (quiet_guarded (fun _ => True))|by intros; apply hwp_ret].
    apply only_bind; [apply lift_quiet|]. intros r. by apply only_call. }
  unfold handle_client_request. apply hwp_bind, hwp_call; [done|]. intros start. case_match.
  - destruct (uri_authority (rq_uri req)) as [authority|]; [|by apply hwp_bind, hwp_call; [done|]; intros; apply hwp_ret].
    apply hwp_bind, hwp_call; [done|]. intros [user|challenge]; [|apply Hch].
    eapply hwp_bind_mono; [apply (admit_connect_guarded _ _ _ _ (rq_headers req)); rewrite elem_of_app; right; by left|].
    intros [r|] h2 Ha; [by apply hwp_bind, hwp_call; [done|]; intros; apply hwp_ret|].
    apply hwp_bind, hwp_call; [done|]. intros []. apply hwp_bind.
    eapply hwp_mono; [apply connect_task_guarded, authorized_app; by apply Ha|]. intros [] h3 _. by apply hwp_ret.
  - apply hwp_bind, hwp_call; [done|]. intros [user|challenge]; [|apply Hch]. apply hwp_bind.
    eapply hwp_mono; [apply (quiet_guarded (fun _ => True)), serve_request_quiet|]. intros [] h2 _. by apply hwp_ret.
Qed.

Lemma handle_connection_guarded session reqs h :
  guarded (handle_connection hm_iter sv ip session reqs) (fun _ _ => True) h.
Proof.
  revert h. induction reqs as [|[req oks] reqs IH]; intros h; cbn [handle_connection]; [by apply hwp_ret|].
  eapply hwp_bind_mono; [apply handle_client_request_guarded|]. intros [] h1 _; [apply IH|by apply hwp_ret].
Qed.

(** C7: No connection is opened past the checks.  In every run of a client connection, a
    blind tunnel or an intercepted session is opened only to an authority for which,
    before, the client was authenticated (or authentication is off), the limiter admitted
    it, the hook let it pass and the policy decided nothing against its url and domain;
    on a port for TLS the tunnel stays blind only when the TLS policy decided so, and a
    session is intercepted only when it decided that. *)
Theorem connections_mediated (session reqs : list (Request * list bool)) (tr : list sev) (res : unit)
    (Hrun : runs (handle_connection hm_iter sv ip session reqs) tr res) :
  forall X (c : ServerCmd X) x before rest, tr = before ++ Ev c x :: rest ->
  match c with
  | SConnect authority =>
      authorized authority before /\
      (should_mitm_port (parse_authority authority).2 = true -> tls_decided authority false before)
  | SServerConfig domain =>
      exists authority, domain = (parse_authority authority).1 /\ authorized authority before /\
        should_mitm_port (parse_authority authority).2 = true /\ tls_decided authority true before
  | _ => True
  end.
Proof.
  destruct (hwp_runs opens_authorized _ _ tr res (handle_connection_guarded session reqs []) Hrun) as [_ Hg]. exact Hg.
Qed.

(** ** Intercepted requests stay with their authority *)

Definition to_uri (P : Uri -> Prop) (X : Type) (c : Cmd X) : Prop :=
  match c with CPeerFetch _ out | CUpstream out => P (or_uri out) | _ => True end.

Ltac solve_uri :=
  solve_only ltac:(try done;
    match goal with H : build_conditional_request _ _ = Some _ |- _ =>
      by apply build_conditional_request_Some in H as (_ & ? & _) end).

Lemma handle_admitted_uri cx key domain llm req :
  only (to_uri (fun u => u = rq_uri req)) (streamed_only (to_uri (fun u => u = rq_uri req)))
    (handle_admitted hm_iter sv cx key domain llm req).
Proof. solve_uri. Qed.

Lemma handle_request_uri req user :
  sv_reverse_proxy sv = None ->
  only (to_uri (fun u => u = rq_uri req)) (streamed_only (to_uri (fun u => u = rq_uri req)))
    (handle_request hm_iter sv req ip user).
Proof.
  intros Hrp. unfold handle_request, rp_gate. rewrite Hrp.
  apply (only_bind_mono _ (fun r => r = Ok (req, None))); [done|]. intros ? ->.
  apply only_bind; [solve_uri|]. intros detailed. apply only_bind; [by apply only_call|]. intros start. cbv zeta.
  apply only_bind; [solve_uri|]. intros [r|]; [by apply only_ret|].
  apply only_bind; [case_match; solve_uri|]. intros [r|]; [by apply only_ret|].
  unfold handle_checked. apply only_bind; [solve_uri|]. intros [headers|r]; [|by apply only_ret].
  apply only_bind; [by apply only_call|]. intros [[[d|] cats] ts].
  - apply only_bind; [solve_uri|]. intros []. by apply only_ret.
  - apply (handle_admitted_uri _ _ _ _ (with_headers headers req)).
Qed.

(** Requests that leave the proxy go where an intercepted request of the session may. *)
Definition session_uri (authority : string) (session : list (Request * list bool)) (u : Uri) : Prop :=
  exists inner, inner ∈ session /\
    uri_parse (mitm_url authority (default "/"%string (uri_path_and_query (rq_uri inner.1)))) = Some u.

Definition confined (authority : string) (session : list (Request * list bool)) (X : Type) (c : ServerCmd X) : Prop :=
  match c with SService c => to_uri (session_uri authority session) _ c | _ => True end.

Lemma lift_confined {A} (R : A -> Prop) authority session u (p : Effects.prog Cmd A) :
  session_uri authority session u -> only (to_uri (fun u' => u' = u)) R p ->
  only (confined authority session) R (lift p).
Proof.
  intros Hu Hp. eapply only_mono; [|intros a Ha; exact Ha|apply lift_only, Hp]. intros X c. destruct c as [Y c| | | | | | | | |]; try done.
  by destruct c; cbn; try done; intros ->.
Qed.

Lemma serve_request_confined authority session user req oks :
  sv_reverse_proxy sv = None -> session_uri authority session (rq_uri req) ->
  only (confined authority session) (fun _ => True) (serve_request hm_iter sv ip user req oks).
Proof.
  intros Hrp Hu. unfold serve_request. eapply only_bind_mono; [eapply lift_confined, handle_request_uri; done|].
  intros [r|st hd bd at_ mx oc] Hs;
    (apply only_bind; [unfold run_wasm_hook_response; case_match; [apply only_bind; [by apply only_call|]; intros d;
      by apply only_ret|by apply only_ret]|]); intros headers.
  - by apply only_call.
  - destruct (spawn_upstream_drain _ _ _ _) as [sent [b s]]. apply only_bind; [by apply only_call|].
    intros _. by eapply lift_confined.
Qed.


End mediation.

(** ** Capital letters *)

Section capitals.
Context {RE : RegexEngine} {UrlP : UrlParser} {CO : CategoryOrder} {ST : ScoreText}.

Fixpoint last_char (s : string) : option ascii :=
  match s with
  | EmptyString => None
  | String c EmptyString => Some c
  | String _ s => last_char s
  end.

Lemma last_char_app a b c : last_char b = Some c -> last_char (a +:+ b) = Some c.
Proof.
  intros Hb. induction a as [|d a IH]; [done|]. change (String d a +:+ b) with (String d (a +:+ b)). cbn.
  destruct (a +:+ b); [done|exact IH].
Qed.

Lemma last_char_None s : last_char s = None -> s = EmptyString.
Proof. induction s as [|c s IH]; [done|]. destruct s as [|d s]; [done|]. intros H. by specialize (IH H). Qed.

Definition ends_in (P : ascii -> bool) (s : string) : Prop := exists c, last_char s = Some c /\ P c = true.

Definition is_ascii_lowercase (c : ascii) : bool := (97 <=? char_code c)%N && (char_code c <=? 122)%N.

Lemma lower_not_upper c : is_ascii_lowercase c = true -> is_ascii_uppercase c = false.
Proof. destruct c as [[] [] [] [] [] [] [] []]; vm_compute; congruence. Qed.

(** A pattern that ends in a small letter does not match a domain that ends in a capital. *)
Lemma match_domain_case domain pattern :
  ends_in is_ascii_uppercase domain -> ends_in is_ascii_lowercase pattern -> match_domain domain pattern = false.
Proof.
  intros (u & Hu & Huu) (l & Hl & Hll). pose proof (lower_not_upper l Hll) as Hlu.
  assert (Hsuffix : forall pre suffix, pattern = pre +:+ suffix -> suffix <> EmptyString -> ends_with domain suffix = false).
  { intros pre suffix -> Hne. apply not_true_iff_false. intros (d & ->)%ends_with_spec.
    destruct (last_char suffix) as [c|] eqn:Ec; [|by apply last_char_None in Ec].
    rewrite (last_char_app _ _ _ Ec) in Hl. rewrite (last_char_app _ _ _ Ec) in Hu. congruence. }
  unfold match_domain. destruct (strip_prefix "*." pattern) as [suf|] eqn:E1.
  - apply strip_prefix_Some in E1. destruct (decide (suf = EmptyString)) as [->|Hne]; [subst pattern; by injection Hl as <-|].
    rewrite (Hsuffix "*."%string suf E1 Hne). cbn. apply not_true_iff_false. intros ->%String.eqb_eq.
    specialize (Hsuffix "*."%string suf E1 Hne). by rewrite ends_with_refl in Hsuffix.
  - destruct (strip_prefix "*" pattern) as [suf|] eqn:E2.
    + apply strip_prefix_Some in E2. destruct (decide (suf = EmptyString)) as [->|Hne]; [subst pattern; by injection Hl as <-|]. by apply (Hsuffix "*"%string).
    + apply not_true_iff_false. intros ->%String.eqb_eq. congruence.
Qed.

(** Capitals evade the rules of domains (a defect).  Rules match the text of a domain,
    and a CONNECT's domain is the client's text: whatever domains are denied in small
    letters, a CONNECT to one of them whose name ends in a capital letter is decided by
    the default, although it names the same host. *)
Theorem connect_capitals_evade_rules (pick : PolicyEntries -> option PolicyCacheKey) (now minute : N) (authority : string)
    (user : option string) (groups : list string) (ip : string) (p : ProxyPolicy RE) (e : AclEngine)
    (Hacl : pp_acl p = Some e) (Hdefault : default_action e = Allow)
    (Hoff : policy_cache_enabled (pc_config (pp_policy_cache p)) = false)
    (Hscore : threat_lookup now (parse_authority authority).1 ip (pp_threat p) = None)
    (Hrules : Forall (fun r => exists pattern, rule_type r = Domain pattern /\ ends_in is_ascii_lowercase pattern) (rules e))
    (Hhost : ends_in is_ascii_uppercase (parse_authority authority).1) :
  (check_policy pick now minute ("https://" +:+ authority) (parse_authority authority).1 user groups ip p).2.1.1 = None.
Proof.
  rewrite check_policy_decision. cbn zeta. rewrite Hoff, andb_false_r, Hscore. unfold check_acl. rewrite Hacl.
  cbn [mbind option_bind]. set (rq := {| rq_url := _ |}).
  assert (Hd : check_access e rq = default_decision (default_action e)).
  { unfold check_access. induction Hrules as [|r rs (pattern & Ht & Hl) _ IH]; [done|]. cbn [List.filter].
    destruct (rule_enabled r); [|exact IH]. cbn [first_match]. unfold matches_rule at 1. rewrite Ht. subst rq. cbn [rq_domain].
    by rewrite match_domain_case. }
  by rewrite Hd, Hdefault.
Qed.

End capitals.

(** ** Examples *)

Module Demo.

#[local] Existing Instances Pipeline.Demo.text_uri Pipeline.Demo.text_url Pipeline.Demo.a_host Pipeline.Demo.all_text
  Pipeline.Demo.no_base64 Pipeline.Demo.no_hash Pipeline.Demo.no_json.

#[local] Instance whole_uri : UriAuthority := {| uri_authority u := Some u |}.

Definition answer (mitm : bool) (reachable : bool) (X : Type) (c : ServerCmd X) : option X :=
  match c in ServerCmd X return option X with
  | SService c => Pipeline.Demo.answer None (Leader 0) _ c
  | SAuthenticate _ _ => Some (Ok None)
  | STlsPolicy _ => Some {| tp_mitm := mitm; tp_decision_source := "sni"; tp_bypass_reason := None |}
  | SUpgrade => Some (Ok tt)
  | SServerConfig _ =>
      Some (Ok {| sc_chain := []; sc_key := EmptyString; sc_ocsp := None; sc_client_roots := None; sc_alpn := [] |})
  | STlsAccept _ => Some (Ok tt)
  | SConnect _ => Some (if reachable then Ok tt else Err "refused"%string)
  | SCopy => Some (Ok (10, 20)%N)
  | SSend _ _ _ => Some tt
  | _ => None
  end.

Definition run {A} (mitm reachable : bool) (p : prog ServerCmd A) : option (unit * list (event ServerCmd) * A) :=
  exec (fun X c (w : unit) => (fun x => (w, x)) <$> answer mitm reachable X c) p tt.

Definition trace {A} (r : option (unit * list (event ServerCmd) * A)) : list (event ServerCmd) :=
  match r with Some (_, tr, _) => tr | None => [] end.

Definition connect : Request := Pipeline.Demo.request "CONNECT" "a.test:443".
Definition get : Request := Pipeline.Demo.request "GET" "/index.html".

Definition client (mitm reachable : bool) : prog ServerCmd unit :=
  handle_connection map_to_list (Pipeline.Demo.service false) "10.0.0.1" [(get, [])] [(connect, [])].

Lemma connection_runs {A} mitm reachable (p : prog ServerCmd A) a :
  snd <$> run mitm reachable p = Some a -> runs p (trace (run mitm reachable p)) a.
Proof. unfold run. destruct (exec _ p tt) as [[[w tr] b]|] eqn:E; [|done]. intros [= <-]. by eapply exec_runs. Qed.

Lemma connections_mediated_witness :
  let tr := trace (run false true (client false true)) in
  tr !! 7%nat = Some (Ev (SConnect "a.test:443") (Ok tt)) /\
  authorized (Pipeline.Demo.service false) "10.0.0.1" "a.test:443" (take 7 tr) /\ tls_decided "a.test:443" false (take 7 tr).
Proof.
  set (tr := trace (run false true (client false true))).
  assert (E : tr !! 7%nat = Some (Ev (SConnect "a.test:443") (Ok tt))) by (vm_compute; reflexivity).
  split; [exact E|].
  destruct (connections_mediated map_to_list (Pipeline.Demo.service false) "10.0.0.1" [(get, [])] [(connect, [])] tr tt
    (connection_runs false true (client false true) tt ltac:(vm_compute; reflexivity)) _ (SConnect "a.test:443") (Ok tt)
    (take 7 tr) (drop 8 tr) (eq_sym (take_drop_middle tr 7 _ E))) as [H1 H2].
  split; [exact H1|]. apply H2. vm_compute. reflexivity.
Defined.


(** The client is told 200 before the host is contacted, so a host that cannot be reached
    is only seen as a closed connection (a defect). *)
Example unreachable_host_answered_ok :
  omap (fun e => match e with Ev (SSend status _ _) _ => Some status | _ => None end)
    (trace (run false false (client false false))) = [200%N].
Proof. vm_compute. reflexivity. Qed.

#[local] Instance no_regex : RegexEngine := {|
  Regex := unit; Regex_new _ := None; is_match _ _ := false |}.
#[local] Instance listed : CategoryOrder := elements.
#[local] Instance no_score : ScoreText := fun _ => EmptyString.

Definition deny_evil : AclRule := {|
  rule_id := "deny-evil"; rule_name := "evil"; rule_enabled := true; rule_action := Deny; rule_type := Domain "*.evil.test";
  rule_priority := 10; rule_redirect_url := None; rule_comment := None |}.

Definition engine : AclEngine := {| rules := [deny_evil]; default_action := Allow; compiled_regex := ∅ |}.

Definition policy : ProxyPolicy no_regex := {|
  pp_policy_mode := Sni; pp_mitm_enabled := false; pp_mitm_categories := ∅;
  pp_pinning := {| pg_entries := []; pg_source_path := None; pg_audit_path := None |};
  pp_acl := Some engine; pp_categorization := None;
  pp_policy_cache := PolicyDecisionCache_new {| pc_ttl := 0; pc_max_keys := 10 |};
  pp_threat := demo_threats; pp_scheduled := [] |}.

Lemma connect_capitals_evade_rules_witness :
  present (check_policy (fun _ => None) 0 0 "https://www.evil.test:443" "www.evil.test" None [] "10.0.0.1" policy).2.1.1 = true /\
  (check_policy (fun _ => None) 0 0 "https://www.evil.tesT:443" "www.evil.tesT" None [] "10.0.0.1" policy).2.1.1 = None.
Proof.
  split; [vm_compute; reflexivity|].
  apply (connect_capitals_evade_rules (fun _ => None) 0 0 "www.evil.tesT:443" None [] "10.0.0.1" policy engine).
  - reflexivity.
  - reflexivity.
  - reflexivity.
  - vm_compute. reflexivity.
  - constructor; [|constructor]. exists "*.evil.test"%string. split; [reflexivity|]. exists "t"%char. split; reflexivity.
  - exists "T"%char. split; reflexivity.
Defined.

End Demo.
