(* ===== verification/System.v ===== *)
(** * The proxy as a whole

    [ProxyService] issues commands; here they are answered by the components
    themselves, wired as main.rs wires them into the service: the L1 cache, the
    coalescer, the limiter, the policy, DLP, the session correlator, the semantic
    index, the hierarchy with its digests, authentication and the reverse proxy.

    What is outside is an argument, and may answer differently each time: the
    answers are functions of the number of commands issued so far ([st_serial]),
    as are the clock, the identifiers and the random numbers.  Redis has a state of
    its own.  Requests are served one after the other here; what holds for every
    interleaving is in Pipeline. *)

From Stdlib Require Import Ascii String NArith ZArith Lia.
From stdpp Require Import base option gmap sets strings pretty numbers list.
From S2P Require Import Prelude Float64 CacheEntry L1Cache L2Cache MissCoalesce Http RateLimit Inspection.
From S2P Require Import CacheDigest PeerProtocols Peers Hierarchy Acl ThreatScore Categorization PolicyCache Policy.
From S2P Require Import Sessions Utf8 SemanticCache Auth ReverseProxy Effects ProxyService Pipeline.

(** ** What is outside *)

Class Outside `{!UriCrate} := {
  o_clock : nat -> N;
  o_minute : nat -> N;
  o_random : nat -> N;
  o_fraction : nat -> f64;
  o_fresh : nat -> string;
  o_spill_ok : nat -> bool;
  o_upstream : nat -> OutRequest -> result UpstreamResponse string;
  o_peer : nat -> cell -> OutRequest -> result UpstreamResponse string;
  o_net : nat -> SocketAddr -> Exchange;
  o_reqmod : nat -> string -> string -> gmap string string -> string -> result IcapOutcome string;
  o_respmod : nat -> string -> string -> gmap string string -> N -> gmap string string -> string ->
    result IcapOutcome string;
  o_wasm : nat -> string -> string -> string -> option string -> HeaderMap -> result WasmHookDecision string;
  o_embed : nat -> string -> string -> result (N * string) string;
  o_qdrant : nat -> QdrantRequest -> result (N * string) string;
  o_token_endpoint : nat -> string -> HeaderMap -> result (N * string) string;
  Redis : Type;
  redis_run : list RedisCmd -> Redis -> Redis;
  redis_get : nat -> string -> Redis -> result (option string) unit;
}.

Section system.
Context {UriC : UriCrate} {UrlC : UrlCrate} {UrlP : UrlParser} {HT : HeaderText} {HC : HeaderCodec}
  {B64 : Base64} {SHA : Sha256} {CD : Codec} {SJ : SerdeJson} {AC : AhoCorasick}.
Context {RE : RegexEngine} {CO : CategoryOrder} {ST : ScoreText} {UT : UnicodeTables} {WC : WireCodec}
  {SC : ShardCache CachedResponse} {HO : HashOrder} {DH : DefaultHasher} {AP : AddrParser}
  {LD : LdapDirectory} {SE : SspiEngine} {OJ : OidcJson} {O : Outside}.
(** The hash of L1 keys, the iteration of a [HashMap], and which entry each table
    evicts. *)
Context (l1_hash : string -> N) (hm_iter : gmap string string -> list (string * string)).
Context (pick_bucket : Buckets -> option string) (pick_policy : PolicyEntries -> option PolicyCacheKey)
  (pick_session : gmap string SessionEntry -> option string)
  (pick_redirect : gmap string PendingRedirect -> option string).

Record System := {
  st_serial : nat;
  st_l1 : HttpL1Cache;
  st_flights : MissFlightMap;
  st_limiter : RateLimiter;
  st_policy : ProxyPolicy RE;
  st_dlp : DlpState;
  st_llm_domains : gset string;
  st_sessions : SessionCorrelator;
  st_index : SemanticIndex;
  st_hierarchy : option HierarchyManager;
  st_auth : option AuthManager;
  st_rp : option ReverseProxyConfig;
  st_events : list CacheEvent;
  st_redis : Redis;
}.

Definition set_serial (x : nat) (s : System) : System :=
  {| st_serial := x; st_l1 := st_l1 s; st_flights := st_flights s; st_limiter := st_limiter s; st_policy
     := st_policy s; st_dlp := st_dlp s; st_llm_domains := st_llm_domains s; st_sessions := st_sessions s;
     st_index := st_index s; st_hierarchy := st_hierarchy s; st_auth := st_auth s; st_rp := st_rp s;
     st_events := st_events s; st_redis := st_redis s |}.

Definition set_l1 (x : HttpL1Cache) (s : System) : System :=
  {| st_serial := st_serial s; st_l1 := x; st_flights := st_flights s; st_limiter := st_limiter s;
     st_policy := st_policy s; st_dlp := st_dlp s; st_llm_domains := st_llm_domains s; st_sessions :=
     st_sessions s; st_index := st_index s; st_hierarchy := st_hierarchy s; st_auth := st_auth s; st_rp :=
     st_rp s; st_events := st_events s; st_redis := st_redis s |}.

Definition set_flights (x : MissFlightMap) (s : System) : System :=
  {| st_serial := st_serial s; st_l1 := st_l1 s; st_flights := x; st_limiter := st_limiter s; st_policy :=
     st_policy s; st_dlp := st_dlp s; st_llm_domains := st_llm_domains s; st_sessions := st_sessions s;
     st_index := st_index s; st_hierarchy := st_hierarchy s; st_auth := st_auth s; st_rp := st_rp s;
     st_events := st_events s; st_redis := st_redis s |}.

Definition set_limiter (x : RateLimiter) (s : System) : System :=
  {| st_serial := st_serial s; st_l1 := st_l1 s; st_flights := st_flights s; st_limiter := x; st_policy :=
     st_policy s; st_dlp := st_dlp s; st_llm_domains := st_llm_domains s; st_sessions := st_sessions s;
     st_index := st_index s; st_hierarchy := st_hierarchy s; st_auth := st_auth s; st_rp := st_rp s;
     st_events := st_events s; st_redis := st_redis s |}.

Definition set_policy (x : ProxyPolicy RE) (s : System) : System :=
  {| st_serial := st_serial s; st_l1 := st_l1 s; st_flights := st_flights s; st_limiter := st_limiter s;
     st_policy := x; st_dlp := st_dlp s; st_llm_domains := st_llm_domains s; st_sessions := st_sessions s;
     st_index := st_index s; st_hierarchy := st_hierarchy s; st_auth := st_auth s; st_rp := st_rp s;
     st_events := st_events s; st_redis := st_redis s |}.

Definition set_sessions (x : SessionCorrelator) (s : System) : System :=
  {| st_serial := st_serial s; st_l1 := st_l1 s; st_flights := st_flights s; st_limiter := st_limiter s;
     st_policy := st_policy s; st_dlp := st_dlp s; st_llm_domains := st_llm_domains s; st_sessions := x;
     st_index := st_index s; st_hierarchy := st_hierarchy s; st_auth := st_auth s; st_rp := st_rp s;
     st_events := st_events s; st_redis := st_redis s |}.

Definition set_index (x : SemanticIndex) (s : System) : System :=
  {| st_serial := st_serial s; st_l1 := st_l1 s; st_flights := st_flights s; st_limiter := st_limiter s;
     st_policy := st_policy s; st_dlp := st_dlp s; st_llm_domains := st_llm_domains s; st_sessions :=
     st_sessions s; st_index := x; st_hierarchy := st_hierarchy s; st_auth := st_auth s; st_rp := st_rp s;
     st_events := st_events s; st_redis := st_redis s |}.

Definition set_hierarchy (x : option HierarchyManager) (s : System) : System :=
  {| st_serial := st_serial s; st_l1 := st_l1 s; st_flights := st_flights s; st_limiter := st_limiter s;
     st_policy := st_policy s; st_dlp := st_dlp s; st_llm_domains := st_llm_domains s; st_sessions :=
     st_sessions s; st_index := st_index s; st_hierarchy := x; st_auth := st_auth s; st_rp := st_rp s;
     st_events := st_events s; st_redis := st_redis s |}.

Definition set_auth (x : option AuthManager) (s : System) : System :=
  {| st_serial := st_serial s; st_l1 := st_l1 s; st_flights := st_flights s; st_limiter := st_limiter s;
     st_policy := st_policy s; st_dlp := st_dlp s; st_llm_domains := st_llm_domains s; st_sessions :=
     st_sessions s; st_index := st_index s; st_hierarchy := st_hierarchy s; st_auth := x; st_rp := st_rp
     s; st_events := st_events s; st_redis := st_redis s |}.

Definition set_rp (x : option ReverseProxyConfig) (s : System) : System :=
  {| st_serial := st_serial s; st_l1 := st_l1 s; st_flights := st_flights s; st_limiter := st_limiter s;
     st_policy := st_policy s; st_dlp := st_dlp s; st_llm_domains := st_llm_domains s; st_sessions :=
     st_sessions s; st_index := st_index s; st_hierarchy := st_hierarchy s; st_auth := st_auth s; st_rp :=
     x; st_events := st_events s; st_redis := st_redis s |}.

Definition set_events (x : list CacheEvent) (s : System) : System :=
  {| st_serial := st_serial s; st_l1 := st_l1 s; st_flights := st_flights s; st_limiter := st_limiter s;
     st_policy := st_policy s; st_dlp := st_dlp s; st_llm_domains := st_llm_domains s; st_sessions :=
     st_sessions s; st_index := st_index s; st_hierarchy := st_hierarchy s; st_auth := st_auth s; st_rp :=
     st_rp s; st_events := x; st_redis := st_redis s |}.

Definition set_redis (x : Redis) (s : System) : System :=
  {| st_serial := st_serial s; st_l1 := st_l1 s; st_flights := st_flights s; st_limiter := st_limiter s;
     st_policy := st_policy s; st_dlp := st_dlp s; st_llm_domains := st_llm_domains s; st_sessions :=
     st_sessions s; st_index := st_index s; st_hierarchy := st_hierarchy s; st_auth := st_auth s; st_rp :=
     st_rp s; st_events := st_events s; st_redis := x |}.

(** ** The components' answers

    [None]: a panic, a component that is not there, or a wait for a flight that has
    not ended. *)

Context (config : RateLimitConfig) (semantic : SemanticCacheConfig) (l2_prefix : string).

(** The commands of the caches. *)
Definition cache_answer (n : nat) (X : Type) (c : Cmd X) (s : System) : option (System * X) :=
  match c in Cmd X return option (System * X) with
  | CL1Get key => '(l1, r) ← l1_get l1_hash key (st_l1 s); Some (set_l1 l1 s, r)
  | CL1Insert key v => l1 ← l1_insert l1_hash key v (st_l1 s); Some (set_l1 l1 s, tt)
  | CL2Get key =>
      '(r, cmds, _) ← l2_get (o_clock n) l2_prefix key (redis_get n (redis_key l2_prefix key) (st_redis s));
      Some (set_redis (redis_run cmds (st_redis s)) s, r)
  | CL2Set key v => Some (set_redis (redis_run (l2_set (o_clock n) l2_prefix key v) (st_redis s)) s, tt)
  | CDigestInsert key =>
      m ← st_hierarchy s;
      d ← hm_digests m;
      d ← insert_cache_key key d;
      Some (set_hierarchy (Some (with_digests m d)) s, tt)
  | CEmbed text => Some (s, embed semantic (o_embed n) text)
  | CFindSimilar emb threshold =>
      let '(ix, _, r) := find_similar (o_qdrant n) emb threshold (st_index s) in Some (set_index ix s, r)
  | CIndexInsert emb key =>
      let '(ix, _, r) := semantic_insert (o_qdrant n) emb key (st_index s) in Some (set_index ix s, r)
  | CFlightJoin key => let '(m, j) := flight_join key (st_flights s) in Some (set_flights m s, j)
  | CFlightWait f =>
      match channels (st_flights s) !! f with Some (Done r) => Some (s, r) | _ => None end
  | CFlightComplete key r => Some (set_flights (flight_complete key r (st_flights s)) s, tt)
  | _ => None
  end.

(** The reverse proxy, authentication, admission. *)
Definition admission_answer (n : nat) (X : Type) (c : Cmd X) (s : System) : option (System * X) :=
  match c in Cmd X return option (System * X) with
  | COidcCallback req =>
      rp ← st_rp s;
      let '(rp, r) := handle_oidc_callback (o_token_endpoint n) (as_secs (o_clock n)) (as_secs (o_clock n))
                        (o_fresh n) req rp in
      r ← r; Some (set_rp (Some rp) s, r)
  | CGetSession id => rp ← st_rp s; Some (s, get_session id rp)
  | CCreateSession user => rp ← st_rp s; Some (set_rp (Some (create_session (o_fresh n) user rp)) s, o_fresh n)
  | CUnauthenticated =>
      rp ← st_rp s;
      let '(rp, r) := handle_unauthenticated (as_secs (o_clock n)) (o_fresh n) rp in
      r ← r; Some (set_rp (Some rp) s, r)
  | CProxyAuth ip headers =>
      a ← st_auth s;
      let '(a, _, r) := handle_proxy_auth (o_clock n) ip headers None true a in Some (set_auth (Some a) s, r)
  | CRateCheck ip user key =>
      let '(l, v) := rl_check config pick_bucket (o_clock n) ip user key (st_limiter s) in
      Some (set_limiter l s, v)
  | CWasm m u ip user headers => Some (s, o_wasm n m u ip user headers)
  | CPolicy url domain user groups ip =>
      let '(p, r) := check_policy pick_policy (o_clock n) (o_minute n) url domain user groups ip (st_policy s) in
      Some (set_policy p s, r)
  | CDlpState => Some (s, st_dlp s)
  | CIsLlmProvider domain => Some (s, is_llm_provider (st_llm_domains s) domain)
  | _ => None
  end.

(** Clock, events, peers and what is outside. *)
Definition outside_answer (n : nat) (X : Type) (c : Cmd X) (s : System) : option (System * X) :=
  match c in Cmd X return option (System * X) with
  | CNow => Some (s, o_clock n)
  | CRandom => Some (s, o_random n)
  | CEventId => Some (s, o_fresh n)
  | CSpillOk => Some (s, o_spill_ok n)
  | CBegin ip user ua url =>
      let '(ses, r) := begin_request pick_session (o_clock n) (o_clock n) (o_fresh n) ip user ua url (st_sessions s) in
      Some (set_sessions ses s, r)
  | CNote ip ev status url loc =>
      ses ← note_redirect pick_redirect (o_clock n) (o_clock n) ip ev status url loc (st_sessions s);
      Some (set_sessions ses s, tt)
  | CDispatch e => Some (set_events (st_events s ++ [e]) s, tt)
  | CReqmod m u h b => Some (s, o_reqmod n m u h b)
  | CRespmod m u rh st h b => Some (s, o_respmod n m u rh st h b)
  | CResolve url =>
      m ← st_hierarchy s;
      '(m, r) ← resolve_source (o_clock n) m url (o_net n) (o_fraction n);
      Some (set_hierarchy (Some m) s, r)
  | CPeerFetch peer out => Some (s, o_peer n peer out)
  | CPeerError peer => m ← st_hierarchy s; Some (set_hierarchy (Some (record_peer_error (o_clock n) peer m)) s, tt)
  | CPeerHit peer bytes =>
      m ← st_hierarchy s; Some (set_hierarchy (Some (record_peer_hit (o_clock n) bytes peer m)) s, tt)
  | CUpstream out => Some (s, o_upstream n out)
  | _ => None
  end.

Definition answer (X : Type) (c : Cmd X) (s : System) : option (System * X) :=
  let n := st_serial s in
  let s := set_serial (S n) s in
  match cache_answer n X c s with
  | Some r => Some r
  | None =>
      match admission_answer n X c s with
      | Some r => Some r
      | None => outside_answer n X c s
      end
  end.

(** ** The system's invariant *)

(** What the code relies on: each eviction picks an entry, the clock is far from
    the end of time, and what Redis returns has times in range. *)
Context (redirect_ttl : N).
Hypothesis bucket_picked : picks_key pick_bucket.
Hypothesis policy_picked : picks_key pick_policy.
Hypothesis session_picked : picks_key pick_session.
Hypothesis redirect_picked : picks_key pick_redirect.
Hypothesis clock_in_range : forall n, is_Some (checked_add_time (o_clock n) redirect_ttl).
Hypothesis redis_in_range : forall n key r, is_Some (l2_get (o_clock n) l2_prefix key (redis_get n (redis_key l2_prefix key) r)).
Context {SL : ShardCacheLaws SC} {AL : AhoCorasickLaws AC}.

Definition policy_cache_ok (c : PolicyDecisionCache) : Prop :=
  (N.of_nat (size (pc_entries c)) <= N.max (pc_max_keys (pc_config c)) 1)%N.

Definition hierarchy_ok (h : option HierarchyManager) : Prop :=
  forall m r, h = Some m -> hm_digests m = Some r -> digests_ok r.

(** Every table is bounded, the L1 shards and tags agree, every digest is sound. *)
Record system_ok (s : System) : Prop := {
  ok_l1 : l1_ok l1_hash (st_l1 s);
  ok_limiter : limiter_ok config (st_limiter s);
  ok_sessions : sessions_ok (st_sessions s) /\ sc_redirect_ttl (st_sessions s) = redirect_ttl;
  ok_policy : policy_cache_ok (pp_policy_cache (st_policy s));
  ok_index : match st_index s with IdxLocal l => index_ok l | IdxQdrant _ => True end;
  ok_hierarchy : hierarchy_ok (st_hierarchy s);
}.

(** The components the service was given are there. *)
Definition wired (sv : ProxyService) (s : System) : Prop :=
  (sv_hierarchy sv = true -> is_Some (st_hierarchy s)) /\
  (sv_digest sv = true -> exists m, st_hierarchy s = Some m /\ is_Some (hm_digests m)).

Lemma check_policy_ok now minute url domain user groups ip (p : ProxyPolicy RE) :
  policy_cache_ok (pp_policy_cache p) ->
  policy_cache_ok (pp_policy_cache (check_policy pick_policy now minute url domain user groups ip p).1).
Proof.
  assert (Hc : forall q : ProxyPolicy RE, pp_policy_cache (categorize_url now url q).1 = pp_policy_cache q).
  { intros q. unfold categorize_url. by repeat case_match. }
  intros Hp. unfold check_policy, evaluate_policy.
  match goal with |- context [match ?c with Some hit => _ | None => _ end] => destruct c as [hit|] end.
  - destruct (apply_to_policy _ _ _ _ _ _) as [[? ts] b]. cbn [present negb]. by rewrite andb_false_r.
  - pose proof (Hc p) as Hq. destruct (categorize_url now url p) as [q [cats ts]]. cbn [fst] in Hq.
    destruct (apply_to_policy _ _ _ _ _ _) as [[? ts'] b]. cbn [fst].
    case_match; [|by rewrite Hq]. cbn [with_policy_cache pp_policy_cache]. rewrite Hq.
    unfold policy_cache_ok, policy_store. case_match; [done|]. cbn [pc_entries pc_config].
    by apply evict_for_size.
Qed.

Lemma index_insert_ok n emb key ix :
  match ix with IdxLocal l => index_ok l | IdxQdrant _ => True end ->
  match (semantic_insert (o_qdrant n) emb key ix).1.1 with IdxLocal l => index_ok l | IdxQdrant _ => True end.
Proof.
  intros Hix. destruct ix as [l|q]; [by apply local_insert_ok|]. cbn [semantic_insert].
  by destruct (upsert _ _ _ _) as [[]].
Qed.

Lemma index_find_ok n emb threshold ix :
  match ix with IdxLocal l => index_ok l | IdxQdrant _ => True end ->
  match (find_similar (o_qdrant n) emb threshold ix).1.1 with IdxLocal l => index_ok l | IdxQdrant _ => True end.
Proof.
  intros Hix. destruct ix as [l|q]; [done|]. cbn [find_similar]. by destruct (search _ _ _ _) as [[]].
Qed.

Lemma begin_ok n fresh ip user ua url ses :
  sessions_ok ses /\ sc_redirect_ttl ses = redirect_ttl ->
  let ses' := (begin_request pick_session (o_clock n) (o_clock n) fresh ip user ua url ses).1 in
  sessions_ok ses' /\ sc_redirect_ttl ses' = redirect_ttl.
Proof.
  intros [Hs Ht]. split.
  - eapply (session_apply_ok pick_session pick_redirect (SBegin (o_clock n) (o_clock n) fresh ip user ua url));
      [done..|exact Hs|reflexivity].
  - rewrite <- Ht. unfold begin_request, get_or_create_session, take_pending_redirect. by repeat case_match; simplify_eq.
Qed.

Lemma note_ok n ip ev status url loc ses :
  sessions_ok ses /\ sc_redirect_ttl ses = redirect_ttl ->
  exists ses', note_redirect pick_redirect (o_clock n) (o_clock n) ip ev status url loc ses = Some ses' /\
    sessions_ok ses' /\ sc_redirect_ttl ses' = redirect_ttl.
Proof.
  intros [Hs Ht].
  destruct (note_redirect pick_redirect (o_clock n) (o_clock n) ip ev status url loc ses) as [ses'|] eqn:Hn.
  - exists ses'. split_and!; [done| |].
    + eapply (session_apply_ok pick_session pick_redirect (SNote (o_clock n) (o_clock n) ip ev status url loc));
        [done..|exact Hs|exact Hn].
    + rewrite <- Ht. revert Hn. unfold note_redirect. destruct (noted_key _ _ _ _); [|by intros [= <-]].
      destruct (checked_add_time _ _); [|done]. by intros [= <-].
  - exfalso. revert Hn. unfold note_redirect. destruct (noted_key _ _ _ _); [|done].
    rewrite Ht. by destruct (clock_in_range n) as [t ->].
Qed.

(** Commands that are answered at once whatever flights there are. *)
Definition prompt (sv : ProxyService) (X : Type) (c : Cmd X) : Prop :=
  match c with
  | CPanic | COidcCallback _ | CGetSession _ | CCreateSession _ | CUnauthenticated | CProxyAuth _ _ => False
  | CFlightJoin _ | CFlightWait _ | CFlightComplete _ _ => False
  | CResolve _ | CPeerError _ | CPeerHit _ _ => sv_hierarchy sv = true
  | CDigestInsert _ => sv_digest sv = true
  | _ => True
  end.

Definition steady (sv : ProxyService) (fl : gmap string nat) (s : System) : Prop :=
  system_ok s /\ wired sv s /\ inner (st_flights s) = fl.

Lemma l1_get_total key s :
  system_ok s -> exists l1 r, l1_get l1_hash key (st_l1 s) = Some (l1, r) /\ l1_ok l1_hash l1.
Proof.
  intros Hs. destruct (l1_apply_ok l1_hash elements (fun _ => reflexivity _) (L1Get key) (st_l1 s) (ok_l1 s Hs))
    as (c & Hc & Hok). cbn in Hc. destruct (l1_get _ _ _) as [[l1 r]|]; [|done]. cbn in Hc. simplify_eq. eauto.
Qed.

Lemma l1_insert_total key v s :
  system_ok s -> exists l1, l1_insert l1_hash key v (st_l1 s) = Some l1 /\ l1_ok l1_hash l1.
Proof.
  intros Hs. by apply (l1_apply_ok l1_hash elements (fun _ => reflexivity _) (L1Insert key v) (st_l1 s) (ok_l1 s Hs)).
Qed.

(** A step that replaced components by sound ones. *)
Ltac steady_step :=
  do 2 eexists; split; [reflexivity|]; split_and!; [constructor; cbn; done|cbn; done|done].

Lemma hierarchy_step sv fl s m m' :
  steady sv fl s -> st_hierarchy s = Some m ->
  (forall r, hm_digests m' = Some r -> digests_ok r) -> (is_Some (hm_digests m) -> is_Some (hm_digests m')) ->
  steady sv fl (set_hierarchy (Some m') (set_serial (S (st_serial s)) s)).
Proof.
  intros (Hs & Hw & Hf) Hm Hd Hk. destruct Hs, Hw as [_ Hw]. split_and!; [|split; cbn|done].
  - constructor; cbn; try done. intros m1 r [= <-]. apply Hd.
  - done.
  - intros Hsv. destruct (Hw Hsv) as (m1 & Hm1 & Hr). exists m'. split; [done|]. apply Hk. congruence.
Qed.

Lemma answer_prompt sv fl X (c : Cmd X) s :
  prompt sv X c -> steady sv fl s -> exists s' x, answer X c s = Some (s', x) /\ steady sv fl s'.
Proof.
  intros Hc Hst. pose proof Hst as (Hs & Hw & Hf). pose proof Hs as [H1 H2 H3 H4 H5 H6]. unfold answer.
  destruct c; try done; cbn [cache_answer admission_answer outside_answer st_serial set_serial
    st_l1 st_redis st_hierarchy st_index st_limiter st_policy st_dlp st_llm_domains st_sessions st_events];
    try steady_step.
  - destruct (rl_check _ _ _ _ _ _ _) as [l v] eqn:Hr. pose proof (rl_check_ok _ _ bucket_picked _ _ _ _ _ _ _ H2 Hr).
    steady_step.
  - match goal with |- context [check_policy _ ?a ?b ?c ?d ?e ?f ?g ?h] =>
      pose proof (check_policy_ok a b c d e f g h H4); destruct (check_policy _ a b c d e f g h) as [p r] end.
    steady_step.
  - match goal with |- context [begin_request _ (o_clock ?n) _ ?f ?i ?u ?ua ?url _] =>
      pose proof (begin_ok n f i u ua url _ H3); destruct (begin_request _ (o_clock n) _ f i u ua url _) as [p r] end.
    steady_step.
  - match goal with |- context [note_redirect _ (o_clock ?n) _ ?i ?e ?st ?u ?l _] =>
      destruct (note_ok n i e st u l _ H3) as (ses & -> & Hses) end.
    steady_step.
  - destruct (l1_get_total key s Hs) as (l1 & r & -> & Hl). steady_step.
  - destruct (l1_insert_total key value s Hs) as (l1 & -> & Hl). steady_step.
  - destruct (redis_in_range (st_serial s) key (st_redis s)) as [[[r cmds] mt] ->]. steady_step.
  - destruct Hw as [Hw1 Hw2], (Hw2 Hc) as (m & Hm & [d Hd]). rewrite Hm. cbn [mbind option_bind]. rewrite Hd.
    cbn [mbind option_bind]. destruct (insert_cache_key_ok key d (H6 m d Hm Hd)) as (d' & -> & Hd').
    do 2 eexists. split; [reflexivity|]. apply (hierarchy_step sv fl s m); [done|done| |by eauto].
    by intros r [= <-].
  - match goal with |- context [find_similar ?q ?e ?t ?ix] =>
      pose proof (index_find_ok (st_serial s) e t ix H5); destruct (find_similar q e t ix) as [[ix' sent] r] end.
    steady_step.
  - match goal with |- context [semantic_insert ?q ?e ?t ?ix] =>
      pose proof (index_insert_ok (st_serial s) e t ix H5); destruct (semantic_insert q e t ix) as [[ix' sent] r] end.
    steady_step.
  - destruct Hw as [Hw1 _], (Hw1 Hc) as [m Hm]. rewrite Hm. cbn [mbind option_bind].
    match goal with |- context [resolve_source ?n m ?u ?net ?f] =>
      destruct (resolve_source_total n m u net f) as (m' & r & -> & Hd) end; [by eauto|].
    do 2 eexists. split; [reflexivity|]. apply (hierarchy_step sv fl s m); [done|done| |by rewrite Hd].
    rewrite Hd. by eauto.
  - destruct Hw as [Hw1 _], (Hw1 Hc) as [m Hm]. rewrite Hm. do 2 eexists. split; [reflexivity|].
    apply (hierarchy_step sv fl s m); [done|done|cbn; by eauto|done].
  - destruct Hw as [Hw1 _], (Hw1 Hc) as [m Hm]. rewrite Hm. do 2 eexists. split; [reflexivity|].
    apply (hierarchy_step sv fl s m); [done|done|cbn; by eauto|done].
Qed.

(** ** Every request is answered *)

Abbreviation ans := (answers answer).

Ltac solve_prompt :=
  solve_only ltac:(idtac; cbn [prompt]; first
    [ done
    | match goal with H : _ && sv_hierarchy _ = true |- _ => by apply andb_true_iff in H as [_ ?] end ]).

Section answered.
Context (sv : ProxyService).

Lemma prompt_steady {A} (R : A -> Prop) (p : prog Cmd A) fl s :
  only (prompt sv) R p -> steady sv fl s -> ans p (fun a s' => R a /\ steady sv fl s') s.
Proof. intros Hp. apply (answers_only answer (prompt sv)); [done|]. intros X c w. apply answer_prompt. Qed.

(** The only flight is the one this request leads under [key], if it does. *)
Definition flown (leader : bool) (key : string) (s : System) : Prop :=
  if leader then exists f, steady sv {[ key := f ]} s else steady sv ∅ s.

Lemma flown_steady leader key s : flown leader key s -> exists fl, steady sv fl s /\ delete key fl = ∅ /\
  forall s', steady sv fl s' -> flown leader key s'.
Proof.
  unfold flown. destruct leader.
  - intros [f Hf]. exists {[ key := f ]}. split_and!; [done|by rewrite delete_singleton_eq|eauto].
  - intros Hs. exists ∅. split_and!; [done|by rewrite delete_empty|done].
Qed.

Lemma prompt_flown {A} (R : A -> Prop) (p : prog Cmd A) leader key s :
  only (prompt sv) R p -> flown leader key s -> ans p (fun a s' => R a /\ flown leader key s') s.
Proof.
  intros Hp (fl & Hs & _ & Hk)%flown_steady. eapply answers_mono; [by apply prompt_steady|].
  intros a s' [HR Hs']. auto.
Qed.

Lemma complete_answered key r fl s :
  steady sv fl s -> delete key fl = ∅ ->
  ans (call (CFlightComplete key r)) (fun _ s' => steady sv ∅ s') s.
Proof.
  intros (Hs & Hw & Hf) Hd. eapply answers_call; [reflexivity|]. destruct Hs, Hw.
  split_and!; [constructor; done|done|]. cbn [st_flights set_flights set_serial]. unfold flight_complete.
  rewrite Hf. destruct (fl !! key) as [f|] eqn:Hk; cbn [inner].
  - by rewrite <- Hd, <- Hf.
  - rewrite <- Hd, <- Hf, delete_id; [done|]. by rewrite Hf.
Qed.

Lemma give_up_answered {A} leader key (a : A) (Q : A -> System -> Prop) s :
  flown leader key s -> (forall s', steady sv ∅ s' -> Q a s') ->
  ans ((if leader then call (CFlightComplete key None) else mret tt);; mret a) Q s.
Proof.
  intros Hf HQ. eapply (answers_bind _ _ _ (fun _ s' => steady sv ∅ s')).
  - destruct leader; [|by apply answers_ret]. destruct Hf as [f Hf].
    eapply complete_answered; [done|]. by rewrite delete_singleton_eq.
  - intros [] s' Hs'. by apply answers_ret, HQ.
Qed.

Lemma join_answered cx key llm s :
  steady sv ∅ s ->
  ans (join_flight sv cx key llm)
    (fun r s' => match r with Ok leader => flown leader key s' | Err _ => False end) s.
Proof.
  intros Hst. unfold join_flight. case_match; [|by apply answers_ret].
  eapply (answers_bind _ _ _ (fun j s' => exists f, j = Leader f /\ steady sv {[ key := f ]} s')).
  - destruct Hst as (Hs & Hw & Hf). eapply answers_call.
    { unfold answer. cbn [cache_answer st_flights set_serial]. unfold flight_join. rewrite Hf, lookup_empty. reflexivity. }
    eexists. split; [done|]. destruct Hs, Hw. split_and!; [constructor; done|done|done].
  - intros j s' (f & -> & Hs'). apply answers_ret. by exists f.
Qed.

Lemma collect_answered cx key domain req leader s :
  flown leader key s ->
  ans (collect_body sv cx key domain req leader)
    (fun r s' => match r with Ok _ => flown leader key s' | Err _ => steady sv ∅ s' end) s.
Proof.
  intros Hf. unfold collect_body.
  eapply answers_bind; [apply (prompt_flown (fun _ => True)); [by split|exact Hf]|]. intros casb s1 [_ Hf1].
  eapply answers_bind; [apply (prompt_flown (fun _ => True)); [by split|exact Hf1]|]. intros dlp s2 [_ Hf2].
  destruct (dlp_collect_total dlp (rq_body req) EmptyString) as [[body|e] ->]; [by apply answers_ret|].
  eapply (answers_bind _ _ _ (fun _ s' => steady sv ∅ s')).
  { destruct leader; [|by apply answers_ret]. destruct Hf2 as [f Hf2].
    eapply complete_answered; [done|]. by rewrite delete_singleton_eq. }
  intros [] s3 Hs3. eapply answers_mono;
    [apply (prompt_steady (fun r => match r with Ok _ => False | Err _ => True end) _ ∅); [solve_prompt|done]|].
  by intros [b|r] s4 [? ?].
Qed.

Lemma complete_miss_answered cx key domain st hd body d stored peer llm leader s :
  flown leader key s ->
  ans (complete_cache_miss hm_iter sv cx key domain st hd body d stored peer llm) (fun _ s' => steady sv ∅ s') s.
Proof.
  intros Hf. unfold complete_cache_miss.
  eapply answers_bind; [apply (prompt_flown (fun _ => True)); [solve_prompt|exact Hf]|]. intros [] s1 [_ Hf1].
  eapply (answers_bind _ _ _ (fun _ s' => steady sv ∅ s')).
  - unfold complete_store. destruct (flown_steady _ _ _ Hf1) as (fl & Hs & Hd & _).
    case_match; [|by eapply complete_answered].
    eapply answers_bind; [apply (prompt_steady (fun _ => True)); [by split|exact Hs]|]. intros now s2 [_ Hs2].
    eapply answers_bind; [apply (prompt_steady (fun _ => True)); [by split|exact Hs2]|]. intros io s3 [_ Hs3].
    eapply answers_bind; [apply (prompt_steady (fun _ => True)); [solve_prompt|exact Hs3]|]. intros [] s4 [_ Hs4].
    eapply answers_bind; [apply (prompt_steady (fun _ => True)); [solve_prompt|exact Hs4]|]. intros [] s5 [_ Hs5].
    by eapply complete_answered.
  - intros [] s2 Hs2. eapply answers_mono; [apply (prompt_steady (fun _ => True)); [solve_prompt|exact Hs2]|].
    by intros [] s3 [_ ?].
Qed.

(** A whole answer leaves no flight; a streamed one ends with its completion. *)
Definition settles (r : ServiceResponse) (s : System) : Prop :=
  match r with
  | Full _ => steady sv ∅ s
  | Streamed _ _ _ _ _ on_complete =>
      forall body stored, ans (on_complete body stored) (fun _ s' => steady sv ∅ s') s
  end.

Lemma fetch_answered cx key domain llm leader req body s :
  flown leader key s ->
  ans (fetch_and_answer hm_iter sv cx key domain llm leader req body) settles s.
Proof.
  intros Hf. unfold fetch_and_answer.
  eapply answers_bind; [apply (prompt_flown (fun _ => True)); [solve_prompt|exact Hf]|].
  intros [r|] s1 [_ Hf1]; [by apply give_up_answered|].
  eapply answers_bind; [apply (prompt_flown (fun _ => True)); [solve_prompt|exact Hf1]|].
  intros [peer [resp|e]] s2 [_ Hf2]; [|by apply give_up_answered].
  case_match.
  - unfold stream_miss. apply answers_ret. intros b stored. by eapply complete_miss_answered.
  - unfold buffer_miss. destruct (collect_upstream (us_body resp)) as [b|]; [|by apply give_up_answered].
    eapply answers_bind; [apply (prompt_flown (fun _ => True)); [solve_prompt|exact Hf2]|].
    intros [[st hd] b'] s3 [_ Hf3].
    eapply answers_bind; [by eapply complete_miss_answered|]. intros [] s4 Hs4. by apply answers_ret.
Qed.

Lemma miss_answered cx key domain llm early req s :
  steady sv ∅ s -> ans (handle_miss hm_iter sv cx key domain llm early req) settles s.
Proof.
  intros Hs. unfold handle_miss. eapply answers_bind; [by apply join_answered|].
  intros [leader|r] s1 Hf; [|done].
  eapply (answers_bind _ _ _ (fun r s' => match r with Ok _ => flown leader key s' | Err _ => steady sv ∅ s' end)).
  - destruct early as [body|]; [by apply answers_ret|]. by apply collect_answered.
  - intros [body|r] s2 Hf2; [by apply fetch_answered|by apply answers_ret].
Qed.

Lemma llm_lookup_answered cx key domain req s :
  steady sv ∅ s -> ans (llm_lookup sv cx key domain req) (fun _ s' => steady sv ∅ s') s.
Proof.
  intros Hs. unfold llm_lookup. eapply answers_bind; [by apply (collect_answered cx key domain req false)|].
  intros [body|r] s1 Hs1; [|by apply answers_ret]. cbv zeta.
  eapply answers_mono; [apply (prompt_steady (fun _ => True)); [solve_prompt|exact Hs1]|]. by intros a s' [_ ?].
Qed.

Lemma checked_answered cx key llm groups req s :
  steady sv ∅ s -> ans (handle_checked hm_iter sv cx key llm groups req) settles s.
Proof.
  intros Hs. unfold handle_checked.
  eapply answers_bind; [apply (prompt_steady (fun _ => True)); [solve_prompt|exact Hs]|].
  intros [headers|r] s1 [_ Hs1]; [|by apply answers_ret].
  eapply answers_bind; [apply (prompt_steady (fun _ => True)); [by split|exact Hs1]|].
  intros [[[d|] cats] thr] s2 [_ Hs2].
  - eapply answers_bind; [apply (prompt_steady (fun _ => True)); [solve_prompt|exact Hs2]|].
    intros [] s3 [_ Hs3]. by apply answers_ret.
  - unfold handle_admitted. destruct llm.
    + eapply answers_bind; [by apply llm_lookup_answered|].
      intros [[[k n] b]|r] s3 Hs3; [by apply miss_answered|by apply answers_ret].
    + eapply answers_bind; [apply (prompt_steady (fun _ => True)); [solve_prompt|exact Hs2]|].
      intros [r|] s3 [_ Hs3]; [by apply answers_ret|by apply miss_answered].
Qed.

Hypothesis forward : sv_reverse_proxy sv = None.

Lemma request_answered req ip user s :
  steady sv ∅ s -> ans (handle_request hm_iter sv req ip user) settles s.
Proof.
  intros Hs. unfold handle_request, rp_gate. rewrite forward.
  eapply (answers_bind _ _ _ (fun r s' => r = Ok (req, None) /\ steady sv ∅ s')); [by apply answers_ret|].
  intros ? s1 [-> Hs1].
  eapply answers_bind; [apply (prompt_steady (fun _ => True)); [solve_prompt|exact Hs1]|]. intros detailed s2 [_ Hs2].
  eapply answers_bind; [apply (prompt_steady (fun _ => True)); [by split|exact Hs2]|]. intros start s3 [_ Hs3].
  eapply answers_bind; [apply (prompt_steady (fun _ => True)); [solve_prompt|exact Hs3]|].
  intros [r|] s4 [_ Hs4]; [by apply answers_ret|].
  eapply answers_bind; [apply (prompt_steady (fun _ => True)); [solve_prompt|exact Hs4]|].
  intros [r|] s5 [_ Hs5]; [by apply answers_ret|by apply checked_answered].
Qed.

Lemma serve_answered req ip user oks s :
  steady sv ∅ s -> ans (serve hm_iter sv req ip user oks) (fun _ s' => steady sv ∅ s') s.
Proof.
  intros Hs. unfold serve. eapply answers_bind; [by apply request_answered|].
  intros [r|st hd bd at_ mx oc] s1 Hs1; [by apply answers_ret|].
  destruct (spawn_upstream_drain bd at_ mx oks) as [sent [buffered stored]].
  eapply answers_bind; [apply Hs1|]. intros [] s2 Hs2. by apply answers_ret.
Qed.

End answered.

(** ** Sequences of requests *)

Record Arrival := {
  ar_request : Request;
  ar_client_ip : string;
  ar_user : option UserInfo;
  ar_takes : list bool;
}.

Fixpoint serve_all (sv : ProxyService) (arrivals : list Arrival) (s : System)
    : option (System * list (N * gmap string string * list Sent)) :=
  match arrivals with
  | [] => Some (s, [])
  | a :: arrivals' =>
      '(s, _, r) ← exec answer (serve hm_iter sv (ar_request a) (ar_client_ip a) (ar_user a) (ar_takes a)) s;
      '(s, rs) ← serve_all sv arrivals' s;
      Some (s, r :: rs)
  end.


End system.

(** ** Witness

    A proxy with its L1 cache, limiter, policy, sessions and a local index, before
    an origin that answers the first fetch and fails afterwards. *)

Module Demo.
Export Pipeline.Demo.

#[local] Existing Instances text_uri text_url a_host all_text no_base64 no_hash no_json.
#[local] Instance listed : CategoryOrder := elements.
#[local] Instance no_score : ScoreText := fun _ => EmptyString.
#[local] Instance no_unicode : UnicodeTables := fun _ => false.
#[local] Instance in_order : HashOrder := map_to_list.
#[local] Instance by_length : DefaultHasher := str_len.
#[local] Instance any_address : AddrParser := Some.
#[local] Instance no_tokens : OidcJson := {|
  token_response_of_json _ := None; jwt_payload_of_json _ := None |}.

#[local] Instance flaky_origin : Outside := {|
  o_clock n := N.min (N.of_nat n) 1000000;
  o_minute _ := 0%N;
  o_random _ := 0%N;
  o_fraction _ := f64_of_N 0;
  o_fresh n := pretty n;
  o_spill_ok _ := true;
  o_upstream n _ := if decide (n < 20) then Ok page else Err "unreachable"%string;
  o_peer _ _ _ := Err "unreachable"%string;
  o_net _ _ := {| ex_send := None; ex_inbox := []; ex_latency := 0 |};
  o_reqmod _ _ _ _ _ := Ok IcapAllow;
  o_respmod _ _ _ _ _ _ _ := Ok IcapAllow;
  o_wasm _ _ _ _ _ _ := Ok (WasmAllow []);
  o_embed _ _ _ := Err "none"%string;
  o_qdrant _ _ := Err "none"%string;
  o_token_endpoint _ _ _ := Err "none"%string;
  Redis := unit;
  redis_run _ r := r;
  redis_get _ _ _ := Ok None;
|}.

#[local] Instance no_directory : LdapDirectory := {|
  ldap_connect _ := Err "none"%string; ldap_simple_bind _ _ _ := Err "none"%string;
  ldap_search _ _ _ := Err "none"%string |}.
#[local] Instance no_sspi : SspiEngine := {|
  SspiSession := unit; sspi_scheme := "NTLM"; sspi_begin_session := Err "none"%string;
  sspi_process_token s _ := (s, Err "none"%string) |}.

Definition start : System := {|
  st_serial := 0;
  st_l1 := HttpL1Cache_new 10 2;
  st_flights := MissFlightMap_new;
  st_limiter := RateLimiter_new;
  st_policy := demo_policy 0;
  st_dlp := state_from_patterns default_patterns;
  st_llm_domains := ∅;
  st_sessions := SessionCorrelator_from_env (fun _ => None);
  st_index := IdxLocal (LocalIndex_new 10);
  st_hierarchy := None; st_auth := None; st_rp := None; st_events := [];
  st_redis := tt;
|}.

Definition arrival (uri : string) : Arrival :=
  {| ar_request := request "GET" uri; ar_client_ip := "10.0.0.1"; ar_user := None; ar_takes := [true; true] |}.

Abbreviation demo_config := (RateLimitConfig_from_env (fun _ => None)).
Abbreviation demo_semantic := (SemanticCacheConfig_from_env (fun _ => None)).

Abbreviation serve_demo := (serve_all str_len map_to_list first_listed first_listed first_listed first_listed
  demo_config demo_semantic "l2:" (service true)).

Lemma start_ok : system_ok str_len demo_config (sc_redirect_ttl (st_sessions start)) start.
Proof.
  split.
  - apply HttpL1Cache_new_ok.
  - split_and!; cbn [ip_buckets user_buckets api_key_buckets st_limiter start RateLimiter_new];
      rewrite map_size_empty; lia.
  - split; [|done]. apply (session_tables_bounded first_listed first_listed (fun _ => None) []);
      [apply first_listed_picks..|done].
  - unfold policy_cache_ok. cbn [st_policy start demo_policy pp_policy_cache PolicyDecisionCache_new pc_entries].
    rewrite map_size_empty. lia.
  - split_and!; cbn; [constructor|lia|lia].
  - intros m r. done.
Qed.

Lemma demo_wired : wired (service true) start.
Proof. by split. Qed.

Lemma demo_clock_in_range n : is_Some (checked_add_time (o_clock n) (sc_redirect_ttl (st_sessions start))).
Proof.
  unfold checked_add_time. rewrite (proj2 (N.leb_le _ _)); [done|].
  assert (Ht : (sc_redirect_ttl (st_sessions start) <= 10 ^ 12)%N) by (vm_compute; discriminate).
  assert (Hm : (10 ^ 13 <= max_system_time)%N) by (vm_compute; discriminate).
  cbn [o_clock flaky_origin]. lia.
Qed.

Lemma demo_redis_in_range n key (r : Redis) :
  is_Some (l2_get (o_clock n) "l2:" key (redis_get n (redis_key "l2:" key) r)).
Proof. done. Qed.

Definition demo_arrivals : list Arrival :=
  [arrival "http://a.test/"; arrival "http://a.test/"; arrival "http://b.test/"].

Definition summary (r : N * gmap string string * list Sent) : N * option string * list Sent :=
  (r.1.1, r.1.2 !! "x-cache-status"%string, r.2).

(** The second request is answered from the cache, the third finds the origin down. *)
Lemma demo_run : option_map (fun x => map summary x.2) (serve_demo demo_arrivals start) =
  Some [(200%N, Some "MISS-STREAMING", [SData "hello"]); (200%N, Some "HIT", [SData "hello"]);
        (502%N, None, [SData "502 Bad Gateway"])]%string.
Proof. vm_compute. reflexivity. Qed.


End Demo.
